(* ===== verification/_CoqProject ===== *)
-Q . S2P
Prelude.v
Text.v
Migrations.v
Config.v
F64.v
WorkerModel.v
JobModel.v
StageModel.v
Dag.v
Scheduler.v
WorkerRegistry.v
JobRegistry.v
JobGroupRegistry.v
QueryLexer.v
QueryParser.v
QueryCompile.v
Sql.v
LogStreamer.v
Executor.v
StageRunner.v
Reconnect.v
Agent.v
LogAggregator.v
Controller.v
Dispatch.v
Reservation.v
Session.v
RedisStore.v
Retention.v
Json.v
Web.v
Handlers.v
WorkerStore.v
Analytics.v
BuildStore.v
Catalog.v
Rules.v
Variables.v
Listing.v
CatalogApi.v
Configured.v
Accounts.v
Tables.v
Recovery.v
WorkerApi.v
GroupApi.v
WebhookApi.v
Settings.v
System.v
Schedules.v
Watch.v
Runner.v
Notifications.v
Artifacts.v
LabelGroups.v
Reports.v
WorkerClient.v
Router.v
