(* ===== verification/Prelude.v ===== *)
(** * Chola CI: a verification development

    Chola is a self-hosted CI orchestrator in Rust: a controller
    (crates/ci-controller) that reserves workers for builds, hands out their
    stages and collects their logs; workers (crates/ci-worker) that run them;
    shared models (crates/ci-core); and a command-line client.

    ** The program's parts and how they interact

    A worker registers with a token, sends heartbeats and keeps a job stream
    open. A client reserves a worker for a build ([do_reserve_worker]): the
    controller picks a connected worker with enough free resources, charges its
    counters and records a job group. Stages submitted to the group become jobs
    of the job registry and are sent to the worker, which runs a pre-script, a
    command and a post-script in a process tree of its own, reports the states
    ([report_job_status]) and streams the log. The report that completes a group
    closes it and releases its resources; a cancellation does the same from
    outside. Background tasks sweep silent workers, reap idle or stuck groups,
    reconcile the counters, and retire old builds in three tiers, telling the
    workers through a queue in Redis to purge their files. Users search the
    recorded builds in a small query language, ChQL, compiled to SQL, over an
    HTTP API with its own authentication and rate limit.

    ** Files

    - [Prelude]: results, machine integers, the iteration order of hash maps as
      an interface ([HashIter]), the stable sort, byte strings.
    - [Text]: Rust's [str] operations: trimming, splitting, replacing, numbers.
    - [Config]: models/config.rs: the configuration with its serde defaults,
      validation, connection URLs.
    - [F64]: Rust's [f64] on the Standard Library's [SpecFloat].
    - [WorkerModel]: ci-core models/worker.rs: caps, [allocate], [release].
    - [JobModel]: models/job.rs and models/job_group.rs.
    - [StageModel]: the records handlers exchange (models/stage.rs,
      models/variable.rs, the protocol messages).
    - [Dag]: dag.rs: [topo_sort] and [validate_dag].
    - [Scheduler]: scheduler.rs: the [Scheduler] trait as a type class and
      [BestFitScheduler] as its instance.
    - [WorkerRegistry], [JobRegistry], [JobGroupRegistry]: worker_registry.rs,
      job_registry.rs, job_group_registry.rs, one function per method.
    - [QueryLexer], [QueryParser], [QueryCompile]: query/lexer.rs (with ast.rs
      and error.rs), query/parser.rs, query/compile.rs.
    - [LogStreamer]: ci-worker log_streamer.rs and [mask_secret_values] of
      executor.rs.
    - [Executor]: executor.rs: process trees, their termination, and
      [execute_streaming] with its readers.
    - [StageRunner]: stage_runner.rs: script locks, paths, the three phases.
    - [Reconnect]: reconnect.rs: reported jobs and the retry loop.
    - [Agent]: agent.rs: assignments, running jobs, reports, purges, the machine
      description.
    - [LogAggregator]: log_aggregator.rs and [stream_logs] of grpc_server.rs.
    - [Controller]: the shared state of state.rs, [report_job_status],
      [reconcile_worker_allocations], [restore_allocations], the stuck-group
      reaper and the heartbeat task of grpc_server.rs, and
      [reap_stale_reservations] of main.rs.
    - [Dispatch]: [do_submit_stage], [build_job_assignment] and
      [dispatch_job_for_worker] of grpc_server.rs.
    - [Reservation]: [compute_resource_needs] and [do_reserve_worker] of
      grpc_server.rs.
    - [Session]: the other handlers of grpc_server.rs that change the shared
      state: authentication, registration, heartbeats, job streams,
      reconnection, ad-hoc jobs, cancellation, statuses.
    - [RedisStore]: redis_store.rs over a store given by a class of commands and
      a class of their laws.
    - [Retention]: retention.rs, settings of state.rs, and the purge protocol of
      grpc_server.rs.
    - [Web]: rate_limit.rs, csrf.rs, auth/middleware.rs, auth/jwt.rs,
      models/user.rs and api/date_parse.rs.
    - [Json]: values of serde_json and the readings the code uses.
    - [WorkerStore]: storage.rs, the statements on worker_tokens and workers, as
      functions on tables with their unique indexes.
    - [Migrations]: storage.rs: the splitter of SQL scripts and [migrate].
    - [BuildStore]: storage.rs, the tables of builds, their jobs, their further
      rows and the archive: every statement on groups and jobs, the limits on
      concurrent builds, recovery's and retention's queries, and the archive
      functions of migrations 033 and 034.
    - [Tables]: the T2 sweep of [Retention] and the concurrency section of
      [Reservation] with the answers of these tables.
    - [Recovery]: main.rs: state recovery at start-up.
    - [WorkerApi]: api/worker_handlers.rs, api/worker_token_handlers.rs, and the
      cache of token hashes that main.rs fills at start-up.
    - [GroupApi]: api/job_group_handlers.rs, without [list].
    - [Sql]: storage.rs: clauses with numbered parameters and their binds.
    - [Listing]: storage.rs, the paginated queries of builds, jobs and runs, as
      text and as functions on the tables; [list] and api/job_handlers.rs.
    - [Analytics]: api/analytics_handlers.rs and the queries of storage.rs it asks.
    - [Settings]: api/settings_handlers.rs and the table of overrides.
    - [WebhookApi]: api/webhook_handlers.rs and the table of webhooks.
    - [Handlers]: the shape the following handlers share: decoding a body, the
      caller's role, the statement, the reply.
    - [Catalog], [CatalogApi]: storage.rs, the tables of repositories, stages and
      scripts; api/repo_handlers.rs and api/script_handlers.rs.
    - [Rules]: the blacklists of commands and branches, with
      api/blacklist_handlers.rs.
    - [Variables]: pipeline variables and their encryption, with
      api/variable_handlers.rs.
    - [Configured]: submission and reservation with the answers of [Catalog],
      [Rules] and [Variables].
    - [Accounts]: users, sessions, API keys and the audit log, with
      api/user_handlers.rs, api/auth_handlers.rs, api/api_key_handlers.rs and
      api/audit.rs.
    - [Schedules]: scheduled builds, with api/schedule_handlers.rs and the task of
      grpc_server.rs; it comes after [System], of which a tick is a sequence of
      steps.
    - [Watch]: grpc_server.rs, [watch_job_logs] and the lock RPCs;
      api/log_handlers.rs. Its worlds put one client beside [LogAggregator] and
      [JobRegistry].
    - [Runner]: ci-job-runner: its commands, their retries and polls, and the exit
      status, against the statuses of [Session].
    - [Notifications]: notifier.rs, api/notification_handlers.rs and the log of
      deliveries, fed by the effects of [Controller].
    - [Artifacts]: api/artifact_handlers.rs over files and rows.
    - [LabelGroups]: api/label_group_handlers.rs and its table.
    - [Reports]: monitoring.rs, api/dashboard_handlers.rs, api/badge_handlers.rs,
      api/resource_handlers.rs and the history of resources.
    - [WorkerClient]: ci-worker grpc_client.rs, main.rs, http_server.rs and
      [run_session] of agent.rs.
    - [Router]: api/mod.rs and http_server.rs: the table of routes and the layers
      around it, over interfaces to axum's matching of paths and to the routes of
      the Swagger UI.
    - [System]: the handlers and background tasks of the controller as the steps
      of one relation.

    ** How the code is represented

    A struct is a record with the source's fields (prefixed, since projections
    are global), an enum an inductive type, a [HashMap] a [gmap], a method on
    [&mut self] a function to the new state. Integers are [Z] with wrap-around
    and saturation written out where the code has them. Each reading of the
    clock is an argument; times are nanoseconds. A string is its UTF-8 bytes.
    The order in which a hash map is visited is the type class [HashIter], whose
    only law is that every entry is visited once: theorems hold for every order.
    A handler is a sequence of sections, each atomic under the lock it holds;
    what it sends to the database, Redis, workers or metrics is appended to a
    list of effects, and what the database answers is an argument; Redis is an
    effect too, save in [RedisStore] and [Retention], where it is a store. What
    the worker asks of its machine (processes, locks, files) is answered by an
    oracle, and what it does is a list of actions. Third-party code (uuid,
    regex, chrono parsing, jsonwebtoken, hashes) is a parameter.

    ** What the theorems show

    - The whole controller ([System]). In every reachable state the allocations
      of a worker's active groups add up to at most its counters, and so to at
      most its caps ([no_overcommit], for hosting workers whose limits hold what
      they run); groups that nobody touches any more are closed by the
      background tasks, whatever happened before ([every_group_closes]). The steps include the handlers of the HTTP API.
    - Resource accounting. The caps respect every configured limit; [allocate]
      grants exactly what fits and [release] inverts it. [balanced] says that
      each worker's counters are the sum over its active groups: reservations,
      registrations, status reports, cancellations, the reservation reaper and
      the death of a worker keep it, and the reconciler restores it from any
      state. A reservation charges the worker it names with exactly its needs,
      and a report either releases nothing or closes the one group it names and
      gives back exactly its allocation. Lemmas show where the code departs from it: a refused reservation,
      the stuck-group reaper, a stale snapshot of the reaper, a reconciler run
      in the middle of a reservation, a worker that comes back smaller.
    - Selection. The scheduler and the reservation each refine "a best worker
      that can host the request"; a retried reservation returns the first one.
    - Submission and dispatch. What a submitted stage becomes on every branch;
      a stage is submitted once; a polling worker gets the first suitable job.
    - Sessions. Only a valid token registers a worker, and only as the worker it
      is bound to; a reconnecting worker resumes exactly its own jobs where the
      log stopped; what the controller tells a worker is what the worker
      understands.
    - Registries. Invariants over all operations, the job state machine as a
      step relation, exclusive assignment, exact sweeps and evictions; group
      completion refines a declarative outcome.
    - Stage graph. [topo_sort] ends, decides acyclicity and orders the stages.
    - ChQL. The lexer covers its input and ends; string literals round-trip; the
      parser reads exactly the token sequences that its documented grammar
      derives, as the trees it derives, and printing is inverted; compiled SQL depends only on
      the shape of the query, so no user string reaches the SQL text.
    - Logs. Masking removes secrets; the streamer sends every masked line once
      and in order; the aggregator acknowledges all that was sent in order and
      keeps it, within its memory bound (without a log directory a log over
      50 MB is not kept whole, and an empty log is never marked complete).
    - The worker. Termination reaches every descendant; a stage ends as its
      phases did, and so it is reported; a job runs once; lock waiting and
      reconnection end; paths stay below their roots; a purge removes what the
      stages of the group made.
    - Redis. A lock behaves like a cell with at most one holder; reservations
      round-trip through their keys.
    - Retention. A sweep stamps a group at once only when it has no live owner,
      and queues a directive for every live owner otherwise; a round of
      directives and acknowledgements empties the queue, and an acknowledgement
      stamps the group only when no live owner has it queued.
    - HTTP. The rate limit bounds every span of a window; a request acts only as
      its credentials say; relative dates mean what they say.
    - HTTP API. A regenerated token works and the worker's former ones are
      refused; the timers shown for a build say when the reaper takes it; a retry
      reserves what had been submitted; what a webhook lets through, and the
      build it starts, which runs at once and takes no share of its worker.
      Lemmas show where tokens escape, and what a webhook does not ask.
    - The database. The statements keep the constraints of the tables, and none
      but T3's loses a build or a job; archiving a batch and putting it back is
      the identity; a T2 sweep moves exactly old builds and the surplus of a
      repo, whole; when a limit refuses a build; an idempotency key is spent as
      long as its row is live. SQL scripts are split into their statements, and
      each migration runs once, whole or not at all.
    - Recovery. After a restart memory and tables agree on what is open, and the
      books are in order; a restart is a step of [System]. Lemmas show what it
      forgets: finished stages, labels, keys of workers with a colon.
    - Listings. Every paginated query says the filter that was asked for, each
      value at its own parameter; archiving builds changes no page that includes
      the archive; consecutive pages cover a listing once.
    - Settings. The table of overrides holds editable keys with valid values
      only, and an accepted change of a retention tier is one the sweep runs with.
    - Configuration. Whatever requests are made, the catalog keeps its constraints
      and its rows are valid, and the needs computed from it cover those of its
      stages; a submitted stage runs the command, the
      scripts and the variables it was configured with; an accepted rule refuses
      what it matches in its scope; and encryption is transparent: a table with a key answers
      as the same table in clear. Lemmas show what requests cannot say, and when
      a ciphertext reaches a build.
    - Accounts. A session acts as the user who logged in until it expires, is
      logged out or the account is deleted, and nothing else ends it; an API key
      follows the account; without a super-admin no account changes but by its own
      change of password.
    - Schedules. A tick asks for exactly what is due, and is a sequence of steps of
      the controller; once due, a schedule is due at every tick.
    - Watching. A client that subscribes while the whole log is buffered, and
      keeps up, is shown an initial part of the log of that run, and has the whole
      log when the watch ends with the job; the log outlives its buffer. Lemmas
      show the watches that never end.
    - The runner. It ends if its requests are answered or fail; its exit status is the job's, and 0 is earned.
    - Around the core. Uploads stay in their directory and come back as they went
      in; a completed build sends what its configurations say; label groups have
      unique names and match by inclusion. A worker's token opens every call but
      those for locks; lemmas show that a registration token opens none, although
      the first connection is meant to be made with it.
    - Routes. A request reaches a handler by a route of the table only, as the user
      its credentials are, and past the origin check; eight handlers take no user,
      the Swagger UI among them.
      At most ten passwords a minute are tried from an address.

    ** Fuel

    Loops that are not structural take fuel, and in each case a theorem shows
    that the fuel supplied is enough: the work list of [topo_sort] (one unit
    more than there are stages; [topo_sort_decides_acyclic]), the lexer (one
    unit more than the length; [tokenize_covers]), the parser ([expr_fuel],
    four units per token and four more; [parse_well_typed]), the search for
    descendants (a unit per process; [terminate_kills_tree]), the polls of a
    lock ([flock_fuel], from the timeout; [acquire_flock_ends]), the attempts to
    reconnect ([reconnect_ends]), batches ([chunks_concat]), the runner's retries
    and polls ([status_decided]). String loops
    ([replace], [trim], [str_split]) recurse on the length of their text, of
    which each step consumes at least a byte.

    ** What is not modelled

    The aggregations of the dashboard and the tables of test results and approval
    gates, of storage.rs; the description of the API (openapi.rs) and the start-up
    of the servers (the rest of main.rs); the JSON form of ChQL trees; error conversions (errors.rs);
    the status command of the runner, which prints what it is answered: input and
    output around the modelled core. Of redis_store.rs, the cached presence and
    group records and the key-expiry subscription, which no code reads. Of the
    worker agent, the select loop that multiplexes its channels appears only as
    the order of its events.  *)

From Stdlib Require Import ZArith Lia.
From stdpp Require Import gmap strings list fin_maps sorting pretty.

#[global] Open Scope Z_scope.

(** ** Results: Rust's [Result<T, E>] and the [?] operator *)

Inductive result (A E : Type) : Type :=
| Ok (a : A)
| Err (e : E).

Arguments Ok {A E} a.
Arguments Err {A E} e.

Definition rbind {A B E : Type} (r : result A E) (k : A -> result B E) : result B E :=
  match r with
  | Ok a => k a
  | Err e => Err e
  end.

Definition map_err {A E F : Type} (f : E -> F) (r : result A E) : result A F :=
  match r with
  | Ok a => Ok a
  | Err e => Err (f e)
  end.

Declare Scope chola_scope.
Delimit Scope chola_scope with chola.
Notation "'let?' x ':=' e 'in' k" := (rbind e (fun x => k))
  (at level 10, x pattern, e at level 100, k at level 200) : chola_scope.
#[global] Open Scope chola_scope.

Definition is_ok {A E : Type} (r : result A E) : bool :=
  match r with Ok _ => true | Err _ => false end.

Lemma rbind_Ok_inv {A B E : Type} (r : result A E) (k : A -> result B E) b :
  rbind r k = Ok b -> exists a, r = Ok a /\ k a = Ok b.
Proof. destruct r as [a|e]; simpl; [eauto | discriminate]. Qed.

Lemma rbind_Err_inv {A B E : Type} (r : result A E) (k : A -> result B E) e :
  rbind r k = Err e -> r = Err e \/ exists a, r = Ok a /\ k a = Err e.
Proof. destruct r as [a|e']; simpl; [eauto | intros [= ->]; auto]. Qed.

(** ** Machine integers

    A w-bit unsigned integer is a [Z] in [0, 2^w). The release profile of the
    workspace has no overflow checks, so [+] and [*] wrap; [saturating_sub]
    clamps at zero; an [as] cast to an unsigned width reduces modulo 2^w. *)

Definition wrap (w z : Z) : Z := z mod 2 ^ w.
Definition u32_add (a b : Z) : Z := wrap 32 (a + b).
(** [as i64] of an unsigned 64-bit integer *)
Definition as_i64 (z : Z) : Z := wrap 64 (z + 2 ^ 63) - 2 ^ 63.

Definition u64_add (a b : Z) : Z := wrap 64 (a + b).
Definition u64_mul (a b : Z) : Z := wrap 64 (a * b).
Definition saturating_sub (a b : Z) : Z := Z.max 0 (a - b).
Definition as_u64 (z : Z) : Z := wrap 64 z.
Definition as_u32 (z : Z) : Z := wrap 32 z.

(** [as i32] from a wider integer. *)
Definition as_i32 (z : Z) : Z := wrap 32 (z + 2 ^ 31) - 2 ^ 31.
Definition clamp (lo hi z : Z) : Z := if z <? lo then lo else if hi <? z then hi else z.

Definition u32 (z : Z) : Prop := 0 <= z < 2 ^ 32.
Definition u64 (z : Z) : Prop := 0 <= z < 2 ^ 64.

Lemma wrap_small w z : 0 <= z < 2 ^ w -> wrap w z = z.
Proof. intros. unfold wrap. by rewrite Z.mod_small. Qed.

Lemma as_i64_small z : 0 <= z < 2 ^ 63 -> as_i64 z = z.
Proof. intros Hz. unfold as_i64. rewrite wrap_small by lia. lia. Qed.

Lemma wrap_bounds w z : 0 <= w -> 0 <= wrap w z < 2 ^ w.
Proof. intros. unfold wrap. apply Z.mod_pos_bound. by apply Z.pow_pos_nonneg. Qed.

Lemma u32_add_small a b : 0 <= a -> 0 <= b -> a + b < 2 ^ 32 -> u32_add a b = a + b.
Proof. intros. apply wrap_small. lia. Qed.

Lemma u64_add_small a b : 0 <= a -> 0 <= b -> a + b < 2 ^ 64 -> u64_add a b = a + b.
Proof. intros. apply wrap_small. lia. Qed.

Lemma u32_add_nonneg a b : 0 <= u32_add a b.
Proof. apply (wrap_bounds 32); lia. Qed.

Lemma u64_add_nonneg a b : 0 <= u64_add a b.
Proof. apply (wrap_bounds 64); lia. Qed.

Lemma clamp_bounds lo hi z : lo <= hi -> lo <= clamp lo hi z <= hi.
Proof. intros. unfold clamp. destruct (Z.ltb_spec z lo), (Z.ltb_spec hi z); lia. Qed.

(** ** Time

    [DateTime<Utc>] is a number of nanoseconds since the epoch;
    [TimeDelta::num_seconds] truncates towards zero. A call of [Utc::now()] is
    an argument of the operation that makes it; an operation that reads the
    clock several times takes a [clock], whose n-th reading is [clk n]. *)

Abbreviation timestamp := Z (only parsing).
Abbreviation clock := (nat -> Z) (only parsing).
Definition num_seconds (delta : Z) : Z := Z.quot delta 1000000000.
Definition secs (n : Z) : Z := n * 1000000000.

Lemma num_seconds_mono a b : a <= b -> num_seconds a <= num_seconds b.
Proof. intros. apply Z.quot_le_mono; lia. Qed.

Lemma num_seconds_nonneg a : 0 <= a -> 0 <= num_seconds a.
Proof. intros. apply Z.quot_pos; lia. Qed.

Lemma num_seconds_secs n : num_seconds (secs n) = n.
Proof. unfold num_seconds, secs. by rewrite Z.quot_mul. Qed.

(** A [Uuid] is its 128-bit value. *)
Abbreviation Uuid := N (only parsing).

(** ** HashMap iteration

    [HashMap::iter], [values] and [values_mut] visit every entry exactly once,
    in an unspecified order. The order is an interface: the theorems hold for
    every instance; the witnesses evaluate at [map_iter]. *)

Class HashIter : Type := {
  hiter : forall {K : Type} `{Countable K} {V : Type}, gmap K V -> list (K * V);
  hiter_perm : forall {K : Type} `{Countable K} {V : Type} (m : gmap K V),
      hiter m ≡ₚ map_to_list m
}.

Definition map_iter : HashIter.
Proof.
  refine {| hiter := fun K _ _ V (m : gmap K V) => map_to_list m |}.
  reflexivity.
Defined.

Section HashIterFacts.
Context `{HI : HashIter} {K : Type} `{Countable K} {V : Type}.
Implicit Types m : gmap K V.

Definition hvalues m : list V := (hiter m).*2.
Definition hkeys m : list K := (hiter m).*1.

Lemma elem_of_hiter m k v : (k, v) ∈ hiter m <-> m !! k = Some v.
Proof. rewrite hiter_perm. apply elem_of_map_to_list. Qed.

Lemma elem_of_hvalues m v : v ∈ hvalues m <-> exists k, m !! k = Some v.
Proof.
  unfold hvalues. rewrite list_elem_of_fmap. split.
  - intros ([k v'] & -> & Hin). apply elem_of_hiter in Hin. eauto.
  - intros [k Hk]. exists (k, v). rewrite elem_of_hiter. eauto.
Qed.

Lemma elem_of_hkeys m k : k ∈ hkeys m <-> is_Some (m !! k).
Proof.
  unfold hkeys. rewrite list_elem_of_fmap. split.
  - intros ([k' v] & -> & Hin). apply elem_of_hiter in Hin. eauto.
  - intros [v Hv]. exists (k, v). by rewrite elem_of_hiter.
Qed.

Lemma NoDup_hkeys m : NoDup (hkeys m).
Proof. unfold hkeys. rewrite (hiter_perm m). apply NoDup_fst_map_to_list. Qed.

Lemma length_hkeys m : length (hkeys m) = size m.
Proof. unfold hkeys. rewrite length_fmap, (hiter_perm m). apply length_map_to_list. Qed.

Lemma length_hiter m : length (hiter m) = size m.
Proof. rewrite (hiter_perm m). apply length_map_to_list. Qed.
End HashIterFacts.

(** Updating the entries of a list of keys, each with an idempotent function. *)
Lemma lookup_foldl_alter_key {K V : Type} `{Countable K} (f : K -> V -> V) (ks : list K) (m : gmap K V) (k : K) :
  (forall k v, f k (f k v) = f k v) ->
  foldl (fun m' k => alter (f k) k m') m ks !! k = if decide (k ∈ ks) then f k <$> m !! k else m !! k.
Proof.
  intros Hf. revert m. induction ks as [|k' ks IH]; intros m; [done|].
  simpl. rewrite IH. destruct (decide (k = k')) as [->|Hne].
  - rewrite lookup_alter_eq. rewrite (decide_True (P := k' ∈ k' :: ks)) by left.
    destruct (m !! k') as [v|]; simpl; destruct (decide (k' ∈ ks)); simpl; by rewrite ?Hf.
  - rewrite lookup_alter_ne by done. destruct (decide (k ∈ ks)) as [Hin|Hin].
    + by rewrite decide_True by (by right).
    + rewrite decide_False; [done|]. intros [->|?]%elem_of_cons; done.
Qed.

Lemma lookup_foldl_alter {K V : Type} `{Countable K} (f : V -> V) (ks : list K) (m : gmap K V) (k : K) :
  (forall v, f (f v) = f v) ->
  foldl (fun m' k => alter f k m') m ks !! k = if decide (k ∈ ks) then f <$> m !! k else m !! k.
Proof. intros Hf. by apply (lookup_foldl_alter_key (fun _ => f)). Qed.

(** ** [slice::sort_by]: a stable sort *)

Section SortBy.
Context {A : Type} (cmp : A -> A -> comparison).

Fixpoint sort_insert (x : A) (l : list A) : list A :=
  match l with
  | [] => [x]
  | y :: l' =>
      match cmp x y with
      | Gt => y :: sort_insert x l'
      | _ => x :: y :: l'
      end
  end.

Fixpoint sort_by (l : list A) : list A :=
  match l with
  | [] => []
  | x :: l' => sort_insert x (sort_by l')
  end.

Definition cmp_le (x y : A) : Prop := cmp x y <> Gt.

Lemma sort_insert_perm x l : sort_insert x l ≡ₚ x :: l.
Proof.
  induction l as [|y l IH]; simpl; [done|].
  destruct (cmp x y); try done. rewrite IH. by constructor.
Qed.

Lemma sort_by_perm l : sort_by l ≡ₚ l.
Proof. induction l as [|x l IH]; simpl; [done|]. by rewrite sort_insert_perm, IH. Qed.

Lemma elem_of_sort_by x l : x ∈ sort_by l <-> x ∈ l.
Proof. by rewrite sort_by_perm. Qed.

(** The comparator agrees with a total preorder on the elements of [l]. *)
Definition cmp_total_on (l : list A) : Prop :=
  (forall x y, x ∈ l -> y ∈ l -> cmp_le x y \/ cmp_le y x) /\
  (forall x y z, x ∈ l -> y ∈ l -> z ∈ l -> cmp_le x y -> cmp_le y z -> cmp_le x z).

Lemma cmp_total_on_incl l l' :
  (forall x, x ∈ l' -> x ∈ l) -> cmp_total_on l -> cmp_total_on l'.
Proof. intros Hin [Ht Htr]; split; [intros; apply Ht | intros x y z ???; apply (Htr x y z)]; auto. Qed.

Lemma sort_insert_sorted x l :
  cmp_total_on (x :: l) -> StronglySorted cmp_le l -> StronglySorted cmp_le (sort_insert x l).
Proof.
  intros Htot Hs. induction Hs as [|y l Hs IH Hall]; simpl; [repeat constructor|].
  assert (Hsub : cmp_total_on (x :: l)) by (eapply cmp_total_on_incl, Htot; set_solver).
  rewrite Forall_forall in Hall.
  assert (Hx : cmp_le x y -> StronglySorted cmp_le (x :: y :: l)).
  { intros Hxy. constructor; [by constructor; [|rewrite Forall_forall]|].
    rewrite Forall_forall. intros z [->|Hz]%elem_of_cons; [done|].
    destruct Htot as [_ Htr]. apply (Htr x y z); [set_solver.. | done | by apply Hall]. }
  destruct (cmp x y) eqn:E; [apply Hx; unfold cmp_le; congruence..|].
  constructor; [by apply IH|].
  rewrite Forall_forall. intros z Hz. rewrite sort_insert_perm in Hz.
  apply elem_of_cons in Hz as [->|Hz]; [|by apply Hall].
  destruct Htot as [Ht _]. destruct (Ht x y) as [H|H]; [set_solver..| |done].
  unfold cmp_le in H. congruence.
Qed.

Lemma sort_by_sorted l : cmp_total_on l -> StronglySorted cmp_le (sort_by l).
Proof.
  induction l as [|x l IH]; simpl; intros Htot; [constructor|].
  apply sort_insert_sorted; [|apply IH]; eapply cmp_total_on_incl, Htot;
    intros y; rewrite ?elem_of_cons, ?elem_of_sort_by; tauto.
Qed.
End SortBy.

(** ** Lists *)

Lemma NoDup_fmap_filter {A B : Type} (f : A -> B) (P : A -> Prop) `{!forall x, Decision (P x)} (l : list A) :
  NoDup (f <$> l) -> NoDup (f <$> filter P l).
Proof.
  induction l as [|x l IH]; [done|]. rewrite fmap_cons, NoDup_cons. intros [Hx Hl]. rewrite filter_cons.
  destruct (decide (P x)); [|auto]. rewrite fmap_cons, NoDup_cons. split; [|auto].
  contradict Hx. apply list_elem_of_fmap in Hx as (y & -> & [_ Hy]%list_elem_of_filter). by apply list_elem_of_fmap_2.
Qed.

Lemma filter_all {A : Type} (P : A -> Prop) `{!forall x, Decision (P x)} (l : list A) :
  (forall x, x ∈ l -> P x) -> filter P l = l.
Proof.
  induction l as [|x l IH]; [done|]. intros Hall. rewrite filter_cons_True by (apply Hall; by left).
  f_equal. apply IH. intros y Hy. apply Hall. by right.
Qed.

(** Sorting the same elements in any order of arrival gives the same list. *)
Lemma sort_by_unique {A : Type} (cmp : A -> A -> comparison) (l1 l2 : list A) :
  l1 ≡ₚ l2 -> cmp_total_on cmp l1 ->
  (forall x y, x ∈ l1 -> y ∈ l1 -> cmp_le cmp x y -> cmp_le cmp y x -> x = y) ->
  sort_by cmp l1 = sort_by cmp l2.
Proof.
  intros Hp Ht Ha. apply (StronglySorted_unique_strong (cmp_le cmp)).
  - intros x y Hx Hy. rewrite elem_of_sort_by in Hx, Hy. rewrite <- Hp in Hy. by apply Ha.
  - by apply sort_by_sorted.
  - apply sort_by_sorted. eapply cmp_total_on_incl, Ht. intros x. by rewrite Hp.
  - by rewrite !sort_by_perm.
Qed.

(** ** Byte strings *)

Fixpoint str_take (n : nat) (s : string) : string :=
  match n, s with
  | S n', String c s' => String c (str_take n' s')
  | _, _ => EmptyString
  end.

Fixpoint str_drop (n : nat) (s : string) : string :=
  match n, s with
  | S n', String _ s' => str_drop n' s'
  | O, _ => s
  | _, EmptyString => EmptyString
  end.

Fixpoint str_forallb (p : Ascii.ascii -> bool) (s : string) : bool :=
  match s with
  | EmptyString => true
  | String c s' => p c && str_forallb p s'
  end.

(** [+:+] does not reduce under [simpl]. *)
Lemma str_cons_app c (a b : string) : (String c a +:+ b = String c (a +:+ b))%string.
Proof. done. Qed.

Lemma str_app_assoc (a b c : string) : ((a +:+ b) +:+ c = a +:+ (b +:+ c))%string.
Proof. induction a as [|x a IH]; [done|]. by rewrite !str_cons_app, IH. Qed.

Lemma str_app_nil_r (a : string) : (a +:+ "" = a)%string.
Proof. induction a as [|x a IH]; [done|]. rewrite str_cons_app. simpl. by rewrite IH. Qed.

Lemma str_length_app (a b : string) : String.length (a +:+ b) = (String.length a + String.length b)%nat.
Proof. induction a as [|x a IH]; [done|]. rewrite str_cons_app. simpl. by rewrite IH. Qed.

Lemma str_take_drop n s : (str_take n s +:+ str_drop n s = s)%string.
Proof. revert s. induction n as [|n IH]; intros [|c s]; simpl; [done..|]. by rewrite str_cons_app, IH. Qed.

Lemma str_length_drop n s : String.length (str_drop n s) = (String.length s - n)%nat.
Proof. revert s. induction n as [|n IH]; intros [|c s]; simpl; [done..|]. by rewrite IH. Qed.

Lemma str_length_take n s : String.length (str_take n s) = Nat.min n (String.length s).
Proof. revert s. induction n as [|n IH]; intros [|c s]; simpl; [done..|]. by rewrite IH. Qed.

Lemma str_take_app a b : str_take (String.length a) (a +:+ b) = a.
Proof. induction a as [|x a IH]; [by destruct b|]. rewrite str_cons_app. simpl. by rewrite IH. Qed.

Lemma str_drop_app a b : str_drop (String.length a) (a +:+ b) = b.
Proof. induction a as [|x a IH]; [by destruct b|]. done. Qed.

Lemma str_drop_drop n m s : str_drop n (str_drop m s) = str_drop (m + n) s.
Proof. revert s. induction m as [|m IH]; intros [|c s]; simpl; [done..|by destruct n|done]. Qed.

Lemma str_forallb_app p a b : str_forallb p (a +:+ b) = str_forallb p a && str_forallb p b.
Proof. induction a as [|x a IH]; [done|]. rewrite str_cons_app. simpl. by rewrite IH, andb_assoc. Qed.

Lemma insert_as_alter `{FinMap K M} {A : Type} (f : A -> A) (i : K) (x : A) (m : M A) :
  m !! i = Some x -> <[i := f x]> m = alter f i m.
Proof.
  intros Hi. apply map_eq. intros j. destruct (decide (j = i)) as [->|Hne].
  - by rewrite lookup_insert_eq, lookup_alter_eq, Hi.
  - by rewrite lookup_insert_ne, lookup_alter_ne.
Qed.

(** [str::starts_with] on bytes. *)
Fixpoint starts_with (lit s : string) : bool :=
  match lit, s with
  | EmptyString, _ => true
  | String c lit', String d s' => bool_decide (c = d) && starts_with lit' s'
  | _, _ => false
  end.

Lemma starts_with_spec lit s : starts_with lit s = true <-> exists rest, s = (lit +:+ rest)%string.
Proof.
  revert s. induction lit as [|c lit IH]; intros s; simpl; [split; eauto|].
  destruct s as [|d s]; [split; [done|intros [? [=]]]|]. rewrite andb_true_iff, bool_decide_eq_true, IH. split.
  - intros [-> [rest ->]]. by exists rest.
  - intros [rest [=]]. eauto.
Qed.

Lemma starts_with_app a b : starts_with a (a +:+ b) = true.
Proof. apply starts_with_spec. eauto. Qed.

(** ** Rows of a table *)

(** Some row satisfies [p]: a condition that does not depend on an order. *)
Definition map_any {K V : Type} `{Countable K} (p : V -> bool) (m : gmap K V) : bool := existsb (fun kv => p kv.2) (map_to_list m).

Lemma map_any_spec {K V : Type} `{Countable K} (p : V -> bool) (m : gmap K V) :
  map_any p m = true <-> exists k v, m !! k = Some v /\ p v = true.
Proof.
  unfold map_any. rewrite existsb_exists. split.
  - intros ([k v] & Hin & Hp). exists k, v. split; [|done]. by apply elem_of_map_to_list, list_elem_of_In.
  - intros (k & v & Hk & Hp). exists (k, v). split; [|done]. by apply list_elem_of_In, elem_of_map_to_list.
Qed.

Lemma map_any_false {K V : Type} `{Countable K} (p : V -> bool) (m : gmap K V) :
  map_any p m = false <-> forall k v, m !! k = Some v -> p v = false.
Proof.
  rewrite <- not_true_iff_false, map_any_spec. split.
  - intros Hn k v Hk. apply not_true_is_false. intros Hv. apply Hn. eauto.
  - intros Hp (k & v & Hk & Hv). by rewrite (Hp k v Hk) in Hv.
Qed.
