(* ===== verification/Text.v ===== *)
(** * Rust's [str] functions

    The operations of the standard library's [str] that the modelled code uses,
    on the bytes of the string: searching, replacing, trimming, splitting into
    lines and parsing an [i32]. *)

From Stdlib Require Import ZArith Lia Ascii.
From stdpp Require Import strings list pretty.
From S2P Require Import Prelude.

(** [str::trim().is_empty()]: only characters with the White_Space property.
    [white_len s] is the length in bytes of one at the start of [s], or 0. *)
Definition white_len (s : string) : nat :=
  let n (c : ascii) := N_of_ascii c in
  match s with
  | String c s1 =>
      if ((9 <=? n c) && (n c <=? 13) || (n c =? 32))%N then 1
      else match s1 with
      | String d s2 =>
          if ((n c =? 194) && ((n d =? 133) || (n d =? 160)))%N then 2
          else match s2 with
          | String e _ =>
              if ((n c =? 225) && (n d =? 154) && (n e =? 128)
                  || (n c =? 226) && (n d =? 128) &&
                     ((128 <=? n e) && (n e <=? 138) || (n e =? 168) || (n e =? 169) || (n e =? 175))
                  || (n c =? 226) && (n d =? 129) && (n e =? 159)
                  || (n c =? 227) && (n d =? 128) && (n e =? 128))%N then 3 else O
          | EmptyString => O
          end
      | EmptyString => O
      end
  | EmptyString => O
  end.

Fixpoint only_whitespace (fuel : nat) (s : string) : bool :=
  match fuel, s with
  | _, EmptyString => true
  | O, _ => false
  | S f, _ => match white_len s with O => false | k => only_whitespace f (str_drop k s) end
  end.

(** [str::replace] of a non-empty pattern: occurrences from left to right,
    without overlap. Each step consumes a byte, so the length is enough fuel. *)
Fixpoint replace_loop (fuel : nat) (pat rep s : string) : string :=
  match fuel with
  | O => s
  | S f =>
      match s with
      | EmptyString => EmptyString
      | String c s' =>
          if starts_with pat s then rep +:+ replace_loop f pat rep (str_drop (String.length pat) s)
          else String c (replace_loop f pat rep s')
      end
  end%string.

Definition replace (pat rep s : string) : string := replace_loop (String.length s) pat rep s.

(** [str::find] of a string: the index of its first occurrence. *)
Fixpoint find_str (pat s : string) : option nat :=
  if starts_with pat s then Some O
  else match s with
       | EmptyString => None
       | String _ s' => S <$> find_str pat s'
       end.

(** [str::find] of a character class, given as a test at a position. *)
Fixpoint find_at (p : string -> bool) (s : string) : option nat :=
  match s with
  | EmptyString => None
  | String _ s' => if p s then Some O else S <$> find_at p s'
  end.

(** [str::trim] *)
Fixpoint trim_start (fuel : nat) (s : string) : string :=
  match fuel with
  | O => s
  | S f => match white_len s with O => s | k => trim_start f (str_drop k s) end
  end.

Fixpoint trim_end (s : string) : string :=
  match s with
  | EmptyString => EmptyString
  | String c s' => if only_whitespace (String.length s) s then EmptyString else String c (trim_end s')
  end.

Definition trim (s : string) : string := trim_end (trim_start (String.length s) s).

(** The characters of a string, each as its UTF-8 bytes. *)
Definition continuation (c : ascii) : bool := ((128 <=? N_of_ascii c) && (N_of_ascii c <? 192))%N.

Fixpoint chars (s : string) : list string :=
  match s with
  | EmptyString => []
  | String c s' =>
      match chars s' with
      | (String d rest) :: l => if continuation d then String c (String d rest) :: l else String c EmptyString :: String d rest :: l
      | l => String c EmptyString :: l
      end
  end.

(** [str::lines]: what the line feeds end, without them and without a carriage
    return before them. *)
Fixpoint lines_from (line s : string) : list string :=
  match s with
  | EmptyString => if bool_decide (line = EmptyString) then [] else [line]
  | String c s' =>
      if bool_decide (c = "010"%char) then
        (if bool_decide (line = EmptyString) then line
         else match String.get (String.length line - 1) line with
              | Some d => if bool_decide (d = "013"%char) then str_take (String.length line - 1) line else line
              | None => line
              end) :: lines_from EmptyString s'
      else lines_from (line +:+ String c EmptyString)%string s'
  end.

Definition str_lines (s : string) : list string := lines_from EmptyString s.

(** [str::parse] of a number *)
Definition digit_val (c : ascii) : option Z :=
  let n := Z.of_N (N_of_ascii c) in
  if (48 <=? n) && (n <=? 57) then Some (n - 48) else None.

Fixpoint digits_val (acc : Z) (s : string) : option Z :=
  match s with
  | EmptyString => Some acc
  | String c s' => d ← digit_val c; digits_val (10 * acc + d) s'
  end.

Definition parse_signed (w : Z) (s : string) : option Z :=
  let read (neg : bool) (ds : string) :=
    if bool_decide (ds = EmptyString) then None
    else v ← digits_val 0 ds;
         let z := if neg then - v else v in
         if (- 2 ^ (w - 1) <=? z) && (z <? 2 ^ (w - 1)) then Some z else None in
  match s with
  | String "+" s' => read false s'
  | String "-" s' => read true s'
  | _ => read false s
  end.

Definition parse_i32 : string -> option Z := parse_signed 32.
Definition parse_i64 : string -> option Z := parse_signed 64.

(** [str::parse::<u64>]: a plus sign may precede the digits. *)
Definition parse_u64 (s : string) : option Z :=
  let ds := match s with String "+" s' => s' | _ => s end in
  if bool_decide (ds = EmptyString) then None
  else v ← digits_val 0 ds; if v <? 2 ^ 64 then Some v else None.

(** [str::split_once] of a character, and its absence. *)
Fixpoint split_once (c : ascii) (s : string) : option (string * string) :=
  match s with
  | EmptyString => None
  | String d s' =>
      if bool_decide (d = c) then Some (EmptyString, s')
      else '(a, b) ← split_once c s'; Some (String d a, b)
  end.

Fixpoint has_char (c : ascii) (s : string) : bool :=
  match s with EmptyString => false | String d s' => bool_decide (d = c) || has_char c s' end.

Lemma split_once_app c a b : has_char c a = false -> split_once c (a +:+ String c b) = Some (a, b).
Proof.
  induction a as [|d a IH]; simpl; intros Ha; [by rewrite bool_decide_eq_true_2|].
  apply orb_false_iff in Ha as [Hd Ha]. rewrite Hd. by rewrite (IH Ha).
Qed.

(** [str::strip_prefix] *)
Definition strip_prefix (p s : string) : option string :=
  if starts_with p s then Some (str_drop (String.length p) s) else None.

Lemma strip_prefix_app a b : strip_prefix a (a +:+ b) = Some b.
Proof. unfold strip_prefix. by rewrite starts_with_app, str_drop_app. Qed.

Lemma strip_prefix_some p s r : strip_prefix p s = Some r -> s = (p +:+ r)%string.
Proof.
  unfold strip_prefix. destruct (starts_with p s) eqn:E; [|done]. intros [= <-].
  apply starts_with_spec in E as [rest ->]. by rewrite str_drop_app.
Qed.

(** [str::to_ascii_lowercase] *)
Definition ascii_lower (c : ascii) : ascii :=
  let n := N_of_ascii c in if ((65 <=? n) && (n <=? 90))%N then ascii_of_N (n + 32) else c.

Fixpoint to_ascii_lowercase (s : string) : string :=
  match s with EmptyString => EmptyString | String c s' => String (ascii_lower c) (to_ascii_lowercase s') end.

Example parse_i32_ok : (parse_i32 "4123", parse_i32 "-7", parse_i32 "self", parse_i32 "", parse_i32 "2147483648")
  = (Some 4123, Some (-7), None, None, None).
Proof. reflexivity. Qed.
Example str_lines_ok : str_lines ("a" +:+ String "013" (String "010" "") +:+ "b" +:+ String "010" "" +:+ "c") = ["a"; "b"; "c"].
Proof. reflexivity. Qed.
Example trim_ok : trim (" " +:+ String "009" "12 " +:+ String "010" "") = "12".
Proof. reflexivity. Qed.

Definition contains (p s : string) : Prop := exists a b, s = (a +:+ p +:+ b)%string.

(** ** Numbers as text *)

Lemma digits_val_bounds acc ds n : 0 <= acc -> digits_val acc ds = Some n -> 0 <= n.
Proof.
  revert acc. induction ds as [|c ds IH]; simpl; intros acc Hacc Hd; [congruence|].
  destruct (digit_val c) as [d|] eqn:Ed; [|done]. unfold digit_val in Ed. simpl in Hd. apply (IH (10 * acc + d)); [|done].
  destruct (_ && _) eqn:E; simplify_eq. apply andb_true_iff in E as [?%Z.leb_le ?%Z.leb_le]. lia.
Qed.

Lemma digit_val_char x : (x < 10)%N -> digit_val (pretty_N_char x) = Some (Z.of_N x).
Proof.
  intros Hx. assert (x = 0 \/ x = 1 \/ x = 2 \/ x = 3 \/ x = 4 \/ x = 5 \/ x = 6 \/ x = 7 \/ x = 8 \/ x = 9)%N as H by lia.
  by destruct_or! H; subst.
Qed.

Lemma digits_val_pretty x s : digits_val 0 (pretty_N_go x s) = digits_val (Z.of_N x) s.
Proof.
  revert s. induction x as [x IH] using (well_founded_ind N.lt_wf_0). intros s.
  destruct (decide (x = 0)%N) as [->|Hx]; [by rewrite pretty_N_go_0|].
  rewrite pretty_N_go_step by lia. rewrite IH by (apply N.div_lt; lia). cbn [digits_val].
  rewrite digit_val_char by (by apply N.mod_lt). cbn [mbind option_bind]. f_equal.
  rewrite (N.Div0.div_mod x 10) at 3. lia.
Qed.

Lemma pretty_nonempty x s : (0 < x)%N -> exists c s', pretty_N_go x s = String c s' /\ digit_val c <> None.
Proof.
  revert s. induction x as [x IH] using (well_founded_ind N.lt_wf_0). intros s Hx. rewrite pretty_N_go_step by done.
  destruct (decide (x / 10 = 0)%N) as [E|E].
  - rewrite E, pretty_N_go_0. do 2 eexists. split; [done|]. by rewrite digit_val_char by (by apply N.mod_lt).
  - apply IH; [by apply N.div_lt|by apply N.neq_0_lt_0].
Qed.

(** A number that is written and read back is the same number. *)
Lemma parse_u64_pretty z : u64 z -> parse_u64 (pretty z) = Some z.
Proof.
  intros [H0 H1]. destruct z as [|p|p]; [done| |lia].
  change (pretty (Z.pos p)) with (pretty (N.pos p)). unfold pretty, pretty_N. rewrite decide_False by done.
  pose proof (digits_val_pretty (N.pos p) EmptyString) as Hd. destruct (pretty_nonempty (N.pos p) EmptyString eq_refl) as (c & s' & E & Hc).
  rewrite E in Hd |- *. unfold parse_u64. assert (Hp : c <> "+"%char) by (by intros ->).
  replace (match c with "+"%char => s' | _ => String c s' end) with (String c s')
    by (destruct c as [[] [] [] [] [] [] [] []]; done).
  rewrite bool_decide_false by done. rewrite Hd. cbn. by rewrite (proj2 (Z.ltb_lt _ _)).
Qed.

Lemma parse_i64_u64 v n : parse_i64 v = Some n -> 0 < n -> parse_u64 v = Some n.
Proof.
  intros Hp Hn. unfold parse_i64, parse_signed in Hp. unfold parse_u64.
  assert (Hread : forall ds : string, (if bool_decide (ds = EmptyString) then None else
      v ← digits_val 0 ds; (if (- 2 ^ (64 - 1) <=? v) && (v <? 2 ^ (64 - 1)) then Some v else None)) = Some n ->
    (if bool_decide (ds = EmptyString) then None else v ← digits_val 0 ds; if v <? 2 ^ 64 then Some v else None) = Some n).
  { intros ds. destruct (bool_decide (ds = EmptyString)); [done|]. destruct (digits_val 0 ds) as [d|]; [|done]. cbn.
    destruct (_ && _) eqn:E; [|done]. intros [= ->]. apply andb_true_iff in E as [_ E%Z.ltb_lt]. by rewrite (proj2 (Z.ltb_lt _ _)) by lia. }
  destruct v as [|c v]; [by apply (Hread EmptyString)|].
  destruct c as [[] [] [] [] [] [] [] []]; try exact (Hread (String _ v) Hp); try exact (Hread v Hp).
  exfalso. revert Hp. destruct (bool_decide (v = EmptyString)); [done|]. destruct (digits_val 0 v) as [d|] eqn:E; [|done].
  apply digits_val_bounds in E; [|done]. cbn [mbind option_bind]. destruct (_ && _); [|done]. intros [= <-]. lia.
Qed.

(** ** The byte-wise order of strings *)

(** [str::cmp] *)
Fixpoint str_cmp (a b : string) : comparison :=
  match a, b with
  | EmptyString, EmptyString => Eq
  | EmptyString, _ => Lt
  | _, EmptyString => Gt
  | String c a', String d b' =>
      match (N_of_ascii c ?= N_of_ascii d)%N with Eq => str_cmp a' b' | r => r end
  end.

Lemma str_cmp_antisym a b : str_cmp b a = CompOpp (str_cmp a b).
Proof.
  revert b. induction a as [|c a IH]; intros [|d b]; simpl; [done..|].
  rewrite (N.compare_antisym (N_of_ascii c)). destruct (N_of_ascii c ?= N_of_ascii d)%N; simpl; [apply IH|done..].
Qed.

Lemma str_cmp_eq a b : str_cmp a b = Eq -> a = b.
Proof.
  revert b. induction a as [|c a IH]; intros [|d b]; simpl; [done..|].
  destruct (N.compare_spec (N_of_ascii c) (N_of_ascii d)) as [E| |]; [|done..]. intros H. f_equal; [|by apply IH].
  rewrite <- (ascii_N_embedding c), <- (ascii_N_embedding d). by rewrite E.
Qed.

Lemma str_cmp_trans a b c : str_cmp a b <> Gt -> str_cmp b c <> Gt -> str_cmp a c <> Gt.
Proof.
  revert b c. induction a as [|x a IH]; intros [|y b] [|z c]; simpl; try done.
  destruct (N.compare_spec (N_of_ascii x) (N_of_ascii y)), (N.compare_spec (N_of_ascii y) (N_of_ascii z)),
    (N.compare_spec (N_of_ascii x) (N_of_ascii z)); try done; try lia. apply IH.
Qed.

(** ** Well-formed UTF-8 ([String::from_utf8]) *)

Definition byte_in (lo hi : N) (c : ascii) : bool := ((lo <=? N_of_ascii c) && (N_of_ascii c <=? hi))%N.

Fixpoint is_utf8 (s : string) : bool :=
  match s with
  | EmptyString => true
  | String a s1 =>
      if byte_in 0 127 a then is_utf8 s1
      else
        match s1 with
        | EmptyString => false
        | String b s2 =>
            if byte_in 194 223 a then continuation b && is_utf8 s2
            else
              match s2 with
              | EmptyString => false
              | String c s3 =>
                  if byte_in 224 239 a then
                    (if byte_in 224 224 a then byte_in 160 191 b else if byte_in 237 237 a then byte_in 128 159 b else continuation b)
                    && continuation c && is_utf8 s3
                  else
                    match s3 with
                    | EmptyString => false
                    | String d s4 =>
                        byte_in 240 244 a
                        && (if byte_in 240 240 a then byte_in 144 191 b else if byte_in 244 244 a then byte_in 128 143 b else continuation b)
                        && continuation c && continuation d && is_utf8 s4
                    end
              end
        end
  end.

Example utf8_forms :
  is_utf8 "cafe" = true /\ is_utf8 (String "195" (String "169" "x")) = true /\ is_utf8 (String "195" "x") = false /\ is_utf8 (String "192" (String "128" "")) = false /\
  is_utf8 (String "237" (String "160" (String "128" ""))) = false.
Proof. vm_compute. done. Qed.
