(* ===== verification/Migrations.v ===== *)
(** * Splitting SQL and running the migrations
    (crates/ci-controller/src/storage.rs: [split_sql_statements], [migrate])

    A script is a list of bytes. The texts of the migrations and the database that
    executes a statement are parameters. *)

From Stdlib Require Import ZArith Lia Ascii.
From stdpp Require Import gmap strings list sets.
From S2P Require Import Prelude Text.

Open Scope char_scope.

(** ** split_sql_statements *)

Abbreviation bytes := (list ascii) (only parsing).

(** Each scan gives the number of bytes by which the index moves on. *)
Fixpoint until_newline (l : bytes) : nat :=
  match l with
  | [] => O
  | c :: l' => if Ascii.eqb c "010" then O else S (until_newline l')
  end.

(** From after the opening to past the end of a block comment. *)
Fixpoint block_end (l : bytes) : nat :=
  match l with
  | c :: (d :: _) as l' => if Ascii.eqb c "*" && Ascii.eqb d "/" then 2%nat else S (block_end l')
  | [_] => 1%nat
  | [] => O
  end.

Fixpoint string_end (l : bytes) : nat :=
  match l with
  | [] => O
  | c :: l' =>
      if Ascii.eqb c "'" then
        match l' with
        | d :: l'' => if Ascii.eqb d "'" then S (S (string_end l'')) else 1%nat
        | [] => 1%nat
        end
      else S (string_end l')
  end.

(** A byte of a dollar-quote tag. *)
Definition tag_byte (c : ascii) : bool :=
  let n := N_of_ascii c in
  ((48 <=? n) && (n <=? 57) || (65 <=? n) && (n <=? 90) || (97 <=? n) && (n <=? 122))%N || Ascii.eqb c "_".

Fixpoint tag_len (l : bytes) : option nat :=
  match l with
  | [] => None
  | c :: l' => if Ascii.eqb c "$" then Some O else if tag_byte c then S <$> tag_len l' else None
  end.

Fixpoint has_prefix (p l : bytes) : bool :=
  match p, l with
  | [], _ => true
  | a :: p', b :: l' => Ascii.eqb a b && has_prefix p' l'
  | _, [] => false
  end.

(** The scan ends where the closer no longer fits. *)
Fixpoint closer_end (closer l : bytes) : nat :=
  if (length closer <=? length l)%nat then
    if has_prefix closer l then length closer
    else match l with [] => O | _ :: l' => S (closer_end closer l') end
  else O.

(** The bytes that the loop's branches take at once, from one that is not a
    semicolon. *)
Definition lexeme_len (l : bytes) : nat :=
  if has_prefix ["-"; "-"] l then until_newline l
  else if has_prefix ["/"; "*"] l then (2 + block_end (drop 2 l))%nat
  else
    match l with
    | [] => O
    | c :: l' =>
        if Ascii.eqb c "'" then S (string_end l')
        else if Ascii.eqb c "$" then
          match tag_len l' with
          | Some n => (n + 2 + closer_end ("$" :: take n l' ++ ["$"]) (drop (S n) l'))%nat
          | None => 1%nat
          end
        else 1%nat
    end.

Fixpoint split_from (fuel : nat) (cur l : bytes) : list bytes :=
  match l with
  | [] => if bool_decide (cur = []) then [] else [cur]
  | c :: l' =>
      match fuel with
      | O => [cur ++ l]
      | S f =>
          if Ascii.eqb c ";" then cur :: split_from f [] l'
          else split_from f (cur ++ take (lexeme_len l) l) (drop (lexeme_len l) l)
      end
  end.

Definition split_bytes (sql : bytes) : list bytes := split_from (length sql) [] sql.

Definition split_sql_statements (sql : string) : list string :=
  String.string_of_list_ascii <$> split_bytes (String.list_ascii_of_string sql).

(** The tests of the source. *)
Example splits_simple_statements : split_sql_statements "SELECT 1; SELECT 2;" = ["SELECT 1"; " SELECT 2"]%string.
Proof. vm_compute. reflexivity. Qed.

Example dollar_quoted_block :
  split_sql_statements "AS $fn$ BEGIN PERFORM 1; END; $fn$ LANGUAGE plpgsql; SELECT '1;';"
    = ["AS $fn$ BEGIN PERFORM 1; END; $fn$ LANGUAGE plpgsql"; " SELECT '1;'"]%string.
Proof. vm_compute. reflexivity. Qed.

(** ** Progress *)

Lemma has_prefix_cons a p b l : has_prefix (a :: p) (b :: l) = Ascii.eqb a b && has_prefix p l.
Proof. done. Qed.

Lemma lexeme_pos c l : (1 <= lexeme_len (c :: l))%nat.
Proof.
  unfold lexeme_len. destruct (has_prefix ["-"; "-"] (c :: l)) eqn:E.
  - rewrite has_prefix_cons in E. destruct (Ascii.eqb_spec "-" c) as [<-|]; [simpl; lia|done].
  - destruct (has_prefix _ _); [lia|]. repeat case_match; lia.
Qed.

(** Enough fuel is enough. *)
Lemma split_fuel f cur l : (length l <= f)%nat -> split_from f cur l = split_from (length l) cur l.
Proof.
  revert cur l. induction f as [f IH] using lt_wf_ind. intros cur l Hf. destruct l as [|c l]; [by destruct f|].
  destruct f as [|f]; [simpl in Hf; lia|]. simpl in Hf |- *. destruct (Ascii.eqb c ";"); [f_equal; apply IH; lia|].
  set (n := lexeme_len (c :: l)). pose proof (lexeme_pos c l) as Hn. fold n in Hn.
  assert (Hd : (length (drop n (c :: l)) <= length l)%nat) by (rewrite length_drop; simpl; lia).
  rewrite (IH f), (IH (length l)); [done|lia|done|lia|lia].
Qed.

(** [split_all cur l]: the rest of the script is [l], its open statement [cur]. *)
Definition split_all (cur l : bytes) : list bytes := split_from (length l) cur l.

Lemma split_semicolon cur l : split_all cur (";" :: l) = cur :: split_all [] l.
Proof. done. Qed.

Lemma split_lexeme cur c l : c <> ";" ->
  split_all cur (c :: l) = split_all (cur ++ take (lexeme_len (c :: l)) (c :: l)) (drop (lexeme_len (c :: l)) (c :: l)).
Proof.
  intros Hc. unfold split_all. simpl. destruct (Ascii.eqb_spec c ";"); [done|].
  rewrite split_fuel; [done|]. pose proof (lexeme_pos c l). rewrite length_drop. simpl. lia.
Qed.

(** ** The pieces make up the script *)

Definition joined (pieces : list bytes) : bytes := concat ((fun p => p ++ [";"]) <$> pieces).

Lemma joined_cons p ps : joined (p :: ps) = p ++ ";" :: joined ps.
Proof. unfold joined. simpl. by rewrite <- app_assoc. Qed.

Lemma split_all_joins n : forall cur l, (length l <= n)%nat ->
  joined (split_all cur l) = cur ++ l \/ joined (split_all cur l) = (cur ++ l) ++ [";"].
Proof.
  induction n as [n IH] using lt_wf_ind. intros cur [|c l] Hl.
  { unfold split_all. simpl. case_bool_decide as E; [subst; by left|right]. unfold joined. simpl. by rewrite !app_nil_r. }
  simpl in Hl. destruct n as [|n]; [lia|]. destruct (decide (c = ";")) as [->|Hc].
  - rewrite split_semicolon, joined_cons.
    destruct (IH n ltac:(lia) [] l) as [E|E]; [lia| |]; rewrite E; [left|right]; by rewrite <- ?app_assoc.
  - rewrite split_lexeme by done. pose proof (lexeme_pos c l) as Hp. set (k := lexeme_len (c :: l)) in *.
    assert (Hd : (length (drop k (c :: l)) <= n)%nat) by (rewrite length_drop; simpl; lia).
    destruct (IH n ltac:(lia) (cur ++ take k (c :: l)) (drop k (c :: l)) Hd) as [E|E]; rewrite E; [left|right];
      by rewrite <- (app_assoc cur), take_drop.
Qed.

(** Nothing of a script is lost or added by splitting: putting a semicolon
    after every piece gives the script back, up to one semicolon at its end. *)
Theorem split_joins (sql : list ascii) : joined (split_bytes sql) = sql \/ joined (split_bytes sql) = sql ++ [";"].
Proof. apply (split_all_joins (length sql) [] sql). done. Qed.

(** ** What is taken as one statement *)

Definition plain (c : ascii) : Prop := c ∉ [";"; "-"; "/"; "'"; "$"].

(** The inside of a string: bytes other than a quote, and doubled quotes. *)
Inductive quoted : bytes -> Prop :=
| quoted_nil : quoted []
| quoted_byte c l : c <> "'" -> quoted l -> quoted (c :: l)
| quoted_quote l : quoted l -> quoted ("'" :: "'" :: l).

(** [p] occurs in [l ++ p] at the end only. *)
Definition ends_first (p l : bytes) : Prop := forall a b, l ++ p = a ++ p ++ b -> b = [].

(** A tag is empty or an identifier: its first byte is no digit. *)
Definition tag_name (tag : bytes) : Prop :=
  Forall (fun c => tag_byte c = true) tag /\
  match tag with [] => True | c :: _ => ~ (48 <= N_of_ascii c <= 57)%N end.

Inductive segment : bytes -> Prop :=
| seg_plain c : plain c -> segment [c]
| seg_minus c : plain c -> segment ["-"; c]
| seg_slash c : plain c -> c <> "*" -> segment ["/"; c]
| seg_line body : "010" ∉ body -> segment ("-" :: "-" :: body ++ ["010"])
| seg_block body : ends_first ["*"; "/"] body -> segment ("/" :: "*" :: body ++ ["*"; "/"])
| seg_string body : quoted body -> segment ("'" :: body ++ ["'"])
| seg_dollar tag body : tag_name tag -> ends_first ("$" :: tag ++ ["$"]) body ->
    segment ("$" :: tag ++ "$" :: body ++ "$" :: tag ++ ["$"]).

(** A statement: segments in a row, a string not directly before another. *)
Inductive statement : bytes -> Prop :=
| statement_nil : statement []
| statement_app seg rest : segment seg -> statement rest -> (head seg = Some "'" -> head rest <> Some "'") -> statement (seg ++ rest).

Lemma plain_lexeme c l : plain c -> lexeme_len (c :: l) = 1%nat.
Proof.
  intros Hp. assert (c <> "-" /\ c <> "/" /\ c <> "'" /\ c <> "$") as (H1 & H2 & H3 & H4) by (unfold plain in Hp; set_solver).
  unfold lexeme_len. rewrite !has_prefix_cons. destruct (Ascii.eqb_spec "-" c); [congruence|]. destruct (Ascii.eqb_spec "/" c); [congruence|].
  simpl. destruct (Ascii.eqb_spec c "'"); [done|]. by destruct (Ascii.eqb_spec c "$").
Qed.

Lemma plain_step cur c l : plain c -> split_all cur (c :: l) = split_all (cur ++ [c]) l.
Proof.
  intros Hp. rewrite split_lexeme by (unfold plain in Hp; set_solver). by rewrite plain_lexeme.
Qed.

(** A lexeme that the script starts with is taken whole. *)
Lemma lexeme_step cur lex rest : lex <> [] -> head lex <> Some ";" -> lexeme_len (lex ++ rest) = length lex ->
  split_all cur (lex ++ rest) = split_all (cur ++ lex) rest.
Proof.
  intros Hne Hh Hl. destruct lex as [|c lex]; [done|]. simpl app. rewrite split_lexeme by (intros ->; by apply Hh).
  rewrite app_comm_cons, Hl. by rewrite take_app_length, drop_app_length.
Qed.

Lemma until_newline_app body rest : "010" ∉ body -> until_newline (body ++ "010" :: rest) = length body.
Proof.
  induction body as [|c body IH]; intros Hn; [done|]. simpl. apply not_elem_of_cons in Hn as [Hc Hn].
  destruct (Ascii.eqb_spec c "010"); [congruence|]. by rewrite IH.
Qed.

Lemma string_end_app body rest : quoted body -> head rest <> Some "'" -> string_end (body ++ "'" :: rest) = S (length body).
Proof.
  intros Hq Hr. induction Hq as [|c l Hc _ IH|l _ IH].
  - simpl. destruct rest as [|d rest]; [done|]. destruct (Ascii.eqb_spec d "'") as [->|]; [by destruct Hr|done].
  - simpl. destruct (Ascii.eqb_spec c "'"); [done|]. by rewrite IH.
  - simpl. by rewrite IH.
Qed.

Lemma has_prefix_spec p l : has_prefix p l = true <-> exists b, l = p ++ b.
Proof.
  revert l. induction p as [|a p IH]; intros l; [simpl; naive_solver|]. destruct l as [|b l]; [simpl; naive_solver|].
  rewrite has_prefix_cons, andb_true_iff, Ascii.eqb_eq, IH. naive_solver.
Qed.

Lemma ends_first_tail p c l : ends_first p (c :: l) -> ends_first p l.
Proof. intros H a b E. apply (H (c :: a) b). simpl. by rewrite E. Qed.

Lemma ends_first_not_here p c l rest : ends_first p (c :: l) -> has_prefix p ((c :: l) ++ p ++ rest) = false.
Proof.
  intros H. apply not_true_iff_false. intros [b Hb]%has_prefix_spec.
  assert (E : (c :: l) ++ p = [] ++ p ++ take (length (c :: l)) b).
  { transitivity (take (length p + length (c :: l)) ((c :: l) ++ p ++ rest)); [|by rewrite Hb, take_app_add].
    rewrite app_assoc. by rewrite take_app_length' by (rewrite length_app; lia). }
  pose proof (H [] _ E) as Hnil. apply (f_equal length) in E, Hb. rewrite Hnil in E. rewrite !length_app in E. simpl in E. lia.
Qed.

Lemma block_end_app body rest : ends_first ["*"; "/"] body -> block_end (body ++ "*" :: "/" :: rest) = (length body + 2)%nat.
Proof.
  induction body as [|c body IH]; intros H; [done|]. pose proof (ends_first_not_here _ _ _ rest H) as Hno. simpl app in Hno.
  specialize (IH (ends_first_tail _ _ _ H)). destruct body as [|d body].
  - simpl in IH |- *. rewrite has_prefix_cons in Hno. destruct (Ascii.eqb_spec c "*") as [->|]; simpl; [done|done].
  - simpl app in *. rewrite !has_prefix_cons in Hno. change (block_end (c :: d :: body ++ "*" :: "/" :: rest)) with
      (if Ascii.eqb c "*" && Ascii.eqb d "/" then 2%nat else S (block_end (d :: body ++ "*" :: "/" :: rest))).
    rewrite IH. rewrite (Ascii.eqb_sym c), (Ascii.eqb_sym d). simpl has_prefix in Hno. rewrite andb_true_r in Hno. by rewrite Hno.
Qed.

Lemma closer_end_eq p l :
  closer_end p l = if (length p <=? length l)%nat then
    (if has_prefix p l then length p else match l with [] => O | _ :: l' => S (closer_end p l') end) else O.
Proof. by destruct l. Qed.

Lemma closer_end_app p body rest : p <> [] -> ends_first p body -> closer_end p (body ++ p ++ rest) = (length body + length p)%nat.
Proof.
  intros Hp. induction body as [|c body IH]; intros H.
  - simpl app. rewrite closer_end_eq. assert (has_prefix p (p ++ rest) = true) as -> by (apply has_prefix_spec; eauto).
    destruct (Nat.leb_spec (length p) (length (p ++ rest))) as [|Hl]; [done|rewrite length_app in Hl; lia].
  - rewrite closer_end_eq, (ends_first_not_here _ _ _ rest H).
    change (match (c :: body) ++ p ++ rest with [] => O | _ :: l' => S (closer_end p l') end) with (S (closer_end p (body ++ p ++ rest))).
    rewrite (IH (ends_first_tail _ _ _ H)). destruct (Nat.leb_spec (length p) (length ((c :: body) ++ p ++ rest))) as [|Hl]; [done|].
    rewrite !length_app in Hl. simpl in Hl. lia.
Qed.

Lemma tag_len_app tag l : Forall (fun c => tag_byte c = true) tag -> tag_len (tag ++ "$" :: l) = Some (length tag).
Proof.
  induction 1 as [|c tag Hc _ IH]; [done|]. simpl. destruct (Ascii.eqb_spec c "$") as [->|]; [done|]. by rewrite Hc, IH.
Qed.

Lemma dollar_lexeme tag body rest : Forall (fun c => tag_byte c = true) tag -> ends_first ("$" :: tag ++ ["$"]) body ->
  lexeme_len ("$" :: tag ++ "$" :: body ++ ("$" :: tag ++ ["$"]) ++ rest)
    = length ("$" :: tag ++ "$" :: body ++ "$" :: tag ++ ["$"]).
Proof.
  intros Ht Hb. unfold lexeme_len. rewrite !has_prefix_cons. cbn [Ascii.eqb Bool.eqb andb]. 
  rewrite tag_len_app by done. rewrite take_app_length. replace (drop (S (length tag)) (tag ++ "$" :: body ++ ("$" :: tag ++ ["$"]) ++ rest))
    with (body ++ ("$" :: tag ++ ["$"]) ++ rest).
  - rewrite closer_end_app by done. repeat (rewrite length_app || cbn [length]). lia.
  - change (tag ++ "$" :: body ++ ("$" :: tag ++ ["$"]) ++ rest) with (tag ++ ["$"] ++ body ++ ("$" :: tag ++ ["$"]) ++ rest).
    rewrite (app_assoc tag ["$"]). by rewrite drop_app_length' by (rewrite length_app; simpl; lia).
Qed.

Lemma quote_lexeme body rest : quoted body -> head rest <> Some "'" ->
  lexeme_len (("'" :: body ++ ["'"]) ++ rest) = length ("'" :: body ++ ["'"]).
Proof.
  intros Hq Hr. simpl app. rewrite <- app_assoc. simpl app. unfold lexeme_len. rewrite !has_prefix_cons. cbn [Ascii.eqb Bool.eqb andb].
  rewrite string_end_app by done. repeat (rewrite length_app || cbn [length]). lia.
Qed.

Lemma block_lexeme body rest : ends_first ["*"; "/"] body ->
  lexeme_len (("/" :: "*" :: body ++ ["*"; "/"]) ++ rest) = length ("/" :: "*" :: body ++ ["*"; "/"]).
Proof.
  intros Hb. simpl app. rewrite <- app_assoc. simpl app. unfold lexeme_len. rewrite !has_prefix_cons. cbn [Ascii.eqb Bool.eqb andb has_prefix].
  change (drop 2 ("/" :: "*" :: body ++ "*" :: "/" :: rest)) with (body ++ "*" :: "/" :: rest).
  rewrite block_end_app by done. repeat (rewrite length_app || cbn [length]). lia.
Qed.

Lemma line_lexeme body rest : "010" ∉ body -> lexeme_len (("-" :: "-" :: body) ++ "010" :: rest) = length ("-" :: "-" :: body).
Proof.
  intros Hb. unfold lexeme_len. simpl app. rewrite !has_prefix_cons. cbn [Ascii.eqb Bool.eqb andb has_prefix].
  apply (until_newline_app ("-" :: "-" :: body)). set_solver.
Qed.

(** An operator byte alone. *)
Lemma single_lexeme a c l : plain c -> (a = "-" \/ (a = "/" /\ c <> "*")) -> lexeme_len (a :: c :: l) = 1%nat.
Proof.
  intros Hp Ha. assert (Hm : c <> "-") by (unfold plain in Hp; set_solver). unfold lexeme_len. rewrite !has_prefix_cons.
  destruct Ha as [->|[-> Hc]].
  - assert (Ascii.eqb "-" c = false) as -> by (apply Ascii.eqb_neq; congruence). reflexivity.
  - assert (Ascii.eqb "*" c = false) as -> by (apply Ascii.eqb_neq; congruence). reflexivity.
Qed.

Lemma segment_step cur seg rest : segment seg -> (head seg = Some "'" -> head rest <> Some "'") -> split_all cur (seg ++ rest) = split_all (cur ++ seg) rest.
Proof.
  intros Hs Hr. destruct Hs as [c Hp|c Hp|c Hp Hc|body Hb|body Hb|body Hq|tag body [Ht _] Hb].
  - by apply plain_step.
  - change (["-"; c] ++ rest) with (["-"] ++ c :: rest). rewrite lexeme_step by (try done; by apply single_lexeme; [|left]).
    rewrite plain_step by done. by rewrite <- app_assoc.
  - change (["/"; c] ++ rest) with (["/"] ++ c :: rest). rewrite lexeme_step by (try done; by apply single_lexeme; [|right]).
    rewrite plain_step by done. by rewrite <- app_assoc.
  - replace (("-" :: "-" :: body ++ ["010"]) ++ rest) with (("-" :: "-" :: body) ++ "010" :: rest) by (simpl; by rewrite <- app_assoc).
    rewrite lexeme_step by (try done; by apply line_lexeme). rewrite plain_step by (unfold plain; set_solver). by rewrite <- app_assoc.
  - apply lexeme_step; [done..|]. by apply block_lexeme.
  - apply lexeme_step; [done..|]. apply quote_lexeme; [done|by apply Hr].
  - apply lexeme_step; [done..|]. pose proof (dollar_lexeme tag body rest Ht Hb) as E. rewrite <- E. f_equal. simpl. f_equal.
    repeat (rewrite <- app_assoc || cbn [app]). done.
Qed.

Lemma statement_step cur s rest : statement s -> head rest <> Some "'" -> split_all cur (s ++ rest) = split_all (cur ++ s) rest.
Proof.
  intros Hs Hr. revert cur. induction Hs as [|seg s Hseg _ IH Hh]; intros cur; [by rewrite app_nil_r|].
  rewrite <- app_assoc, segment_step, IH by (try done; destruct s; simpl in *; auto). by rewrite app_assoc.
Qed.

(** C29. Splitting recovers the statements of a script: when each of them is made up
    of plain bytes, comments, strings (none directly after another) and bodies
    quoted by a dollar tag that is empty or an identifier, every one ended by a
    semicolon and the last possibly not, the pieces are exactly these statements -
    the semicolons inside comments, strings and bodies end nothing. *)
Theorem split_recovers (stmts : list (list ascii)) (last : list ascii) :
  Forall statement stmts -> statement last ->
  split_bytes (joined stmts ++ last) = stmts ++ (if bool_decide (last = []) then [] else [last]).
Proof.
  intros Hs Hl. unfold split_bytes. change (split_all [] (joined stmts ++ last) = stmts ++ (if bool_decide (last = []) then [] else [last])).
  induction Hs as [|s stmts Hs _ IH].
  - unfold joined. simpl. replace last with (last ++ []) at 1 by apply app_nil_r. rewrite statement_step by done. done.
  - rewrite joined_cons, <- app_assoc. rewrite statement_step by done. simpl app. rewrite split_semicolon. by rewrite IH.
Qed.

(** A tag that begins with a digit is taken as well, although the comment in the
    code asks for a letter or [_]: two parameters [$1] quote what is between them. *)
Example digit_tag_quotes :
  split_bytes (String.list_ascii_of_string "a=$1$;$1$") = [String.list_ascii_of_string "a=$1$;$1$"] /\
  ~ tag_name ["1"].
Proof. split; [vm_compute; reflexivity|]. intros [_ H]. apply H. vm_compute. split; discriminate. Qed.

(** A string and a comment with semicolons. *)
Lemma split_recovers_witness :
  split_bytes (String.list_ascii_of_string "a';';--;" ++ ["010"]) = [String.list_ascii_of_string "a';'"; String.list_ascii_of_string "--;" ++ ["010"]].
Proof.
  apply (split_recovers [["a"; "'"; ";"; "'"]] ["-"; "-"; ";"; "010"]).
  - constructor; [|constructor]. apply (statement_app ["a"] ["'"; ";"; "'"]); [constructor; unfold plain; set_solver| |done].
    apply (statement_app ["'"; ";"; "'"] []); [apply (seg_string [";"]); repeat constructor; done|constructor|done].
  - apply (statement_app ["-"; "-"; ";"; "010"] []); [apply (seg_line [";"]); set_solver|constructor|done].
Defined.

Close Scope char_scope.

(** ** migrate *)

(** The steps in the order of the list: the number and the name of each. *)
Definition migrations : list (Z * string) :=
  [(1, "init_schema"); (2, "init_jobs"); (3, "init_workers"); (4, "users_and_auth"); (5, "pipeline_variables"); (6, "webhooks");
   (7, "notifications"); (8, "stage_depends_on"); (9, "indexes_and_cascades"); (10, "cron_schedules"); (11, "partial_indexes");
   (12, "api_keys"); (13, "priority_labels"); (14, "webhook_deliveries"); (15, "job_retry"); (16, "pr_number");
   (17, "stage_resource_history"); (18, "retention_cascade"); (19, "blacklists"); (20, "new_features"); (21, "config_settings");
   (22, "worker_system_info"); (23, "nullable_stage_config_id"); (24, "command_mode"); (25, "global_scripts");
   (26, "idempotency_key"); (27, "expired_state_and_resources"); (28, "worker_management"); (29, "token_worker_binding");
   (30, "status_reason"); (31, "script_locking"); (32, "worker_priority_limits"); (33, "retention_archive"); (34, "reserved_stages")].

Section Migrate.
Context {D : Type} (execute : string -> D -> option D) (sql : Z -> string).

(** The schema and the rows of [schema_migrations]. *)
Record Schema := {
  sm_tables : D;
  sm_applied : gmap Z string
}.

Fixpoint execute_all (stmts : list string) (d : D) : option D :=
  match stmts with
  | [] => Some d
  | stmt :: rest => d' ← execute stmt d; execute_all rest d'
  end.

Definition statements_of (version : Z) : list string :=
  filter (fun s => s <> EmptyString) (trim <$> split_sql_statements (sql version)).

(** One turn of the loop: a migration is one transaction with its record. *)
Definition apply_migration (step : Z * string) (s : Schema) : option Schema :=
  match sm_applied s !! step.1 with
  | Some _ => Some s
  | None => d ← execute_all (statements_of step.1) (sm_tables s); Some {| sm_tables := d; sm_applied := <[step.1 := step.2]> (sm_applied s) |}
  end.

(** The result, and the schema that is left when a step fails. *)
Fixpoint migrate_from (steps : list (Z * string)) (s : Schema) : bool * Schema :=
  match steps with
  | [] => (true, s)
  | step :: rest => match apply_migration step s with Some s' => migrate_from rest s' | None => (false, s) end
  end.

Definition migrate (s : Schema) : bool * Schema := migrate_from migrations s.

Definition pending (steps : list (Z * string)) (s : Schema) : list (Z * string) := filter (fun step => sm_applied s !! step.1 = None) steps.

Definition with_applied (steps : list (Z * string)) (d : D) (s : Schema) : Schema :=
  {| sm_tables := d; sm_applied := foldl (fun m step => <[step.1 := step.2]> m) (sm_applied s) steps |}.

Definition statements_of_all (steps : list (Z * string)) : list string := concat ((fun step => statements_of step.1) <$> steps).

Lemma execute_all_app l1 l2 d : execute_all (l1 ++ l2) d = d' ← execute_all l1 d; execute_all l2 d'.
Proof. revert d. induction l1 as [|x l1 IH]; intros d; [done|]. simpl. destruct (execute x d); [apply IH|done]. Qed.

Lemma pending_after v name d steps s : v ∉ steps.*1 ->
  pending steps {| sm_tables := d; sm_applied := <[v := name]> (sm_applied s) |} = pending steps s.
Proof.
  intros Hv. unfold pending. simpl. induction steps as [|x steps IH]; [done|]. rewrite fmap_cons, not_elem_of_cons in Hv.
  destruct Hv as [Hx Hv]. rewrite !filter_cons, IH by done. by rewrite lookup_insert_ne.
Qed.

Lemma migrate_from_spec steps s : NoDup steps.*1 ->
  match execute_all (statements_of_all (pending steps s)) (sm_tables s) with
  | Some d => migrate_from steps s = (true, with_applied (pending steps s) d s)
  | None => exists before step after d, pending steps s = before ++ step :: after /\
      execute_all (statements_of_all before) (sm_tables s) = Some d /\ execute_all (statements_of step.1) d = None /\
      migrate_from steps s = (false, with_applied before d s)
  end.
Proof.
  revert s. induction steps as [|[v name] steps IH]; intros s Hnd; [by destruct s|].
  rewrite fmap_cons in Hnd. apply NoDup_cons in Hnd as [Hv Hnd]. simpl in Hv. unfold pending. rewrite filter_cons. simpl.
  unfold apply_migration. simpl. destruct (sm_applied s !! v) as [n|] eqn:Ev; simpl; [by apply IH|].
  unfold statements_of_all. simpl. rewrite execute_all_app. destruct (execute_all (statements_of v) (sm_tables s)) as [d1|] eqn:E1; simpl.
  - specialize (IH {| sm_tables := d1; sm_applied := <[v := name]> (sm_applied s) |} Hnd). rewrite pending_after in IH by done.
    unfold statements_of_all in IH. simpl in IH. fold (pending steps s).
    destruct (execute_all (concat _) d1) as [d|]; [done|]. destruct IH as (before & step & after & d & -> & Hd & Hf & ->).
    exists ((v, name) :: before), step, after, d. split_and!; [done| |done|done]. simpl. by rewrite execute_all_app, E1.
  - exists [], (v, name), (pending steps s), (sm_tables s). split_and!; [done..|]. by destruct s.
Qed.

(** Bringing the schema up to date runs the statements of every migration that
    is not recorded, each once and in the order of the list, and records it. When
    one of them fails, the migrations before it stay, each whole, and of the
    failing one and of those after it nothing is left. Another start after a
    success does nothing. *)
Theorem migrate_once (s : Schema) :
  match execute_all (statements_of_all (pending migrations s)) (sm_tables s) with
  | Some d => migrate s = (true, with_applied (pending migrations s) d s)
  | None => exists before step after d, pending migrations s = before ++ step :: after /\
      execute_all (statements_of_all before) (sm_tables s) = Some d /\ execute_all (statements_of step.1) d = None /\
      migrate s = (false, with_applied before d s)
  end /\
  ((migrate s).1 = true -> migrate (migrate s).2 = (true, (migrate s).2)).
Proof.
  assert (Hnd : NoDup migrations.*1) by (apply (bool_decide_unpack _); by vm_compute). unfold migrate. split; [by apply migrate_from_spec|].
  assert (Hlast : forall steps s', (migrate_from steps s').1 = true -> forall step, step ∈ steps \/ is_Some (sm_applied s' !! step.1) ->
    is_Some (sm_applied (migrate_from steps s').2 !! step.1)).
  { clear s Hnd. induction steps as [|x steps IH]; intros s' Hok step Hin; [by destruct Hin as [?%not_elem_of_nil|?]|].
    simpl in Hok |- *. destruct (apply_migration x s') as [s1|] eqn:E; [|done]. apply IH; [done|]. unfold apply_migration in E.
    destruct (sm_applied s' !! x.1) as [n|] eqn:Ex.
    - injection E as <-. rewrite elem_of_cons in Hin. destruct Hin as [[->|?]|?]; [right; rewrite Ex; eauto|by left|by right].
    - destruct (execute_all _ _) as [d|]; [|done]. injection E as <-. simpl. rewrite lookup_insert_is_Some'.
      rewrite elem_of_cons in Hin. destruct Hin as [[->|?]|?]; [right; by left|by left|right; by right]. }
  intros Hok. assert (Hdone : forall steps s', (forall step, step ∈ steps -> is_Some (sm_applied s' !! step.1)) -> migrate_from steps s' = (true, s')).
  { clear. induction steps as [|x steps IH]; intros s' H; [done|]. simpl. unfold apply_migration. destruct (H x) as [n ->]; [by left|].
    apply IH. intros step Hs. apply H. by right. }
  apply Hdone. intros step Hs. apply Hlast; [done|by left].
Qed.
End Migrate.
