(* ===== verification/Config.v ===== *)
(** * Configuration (crates/ci-core/src/models/config.rs)

    The configuration structs of the controller and the worker. A deserializer
    [X_de] takes the keys a section of the YAML file may give, an absent one as
    [None], and fills in the source's serde defaults; the environment variables
    and the existence of files are arguments. *)

From Stdlib Require Import ZArith Lia.
From stdpp Require Import gmap strings list pretty.
From S2P Require Import Prelude Text.

(** [std::env::var], as far as it succeeds. *)
Abbreviation Env := (gmap string string) (only parsing).

(** ** Controller *)

Record RetentionConfig := {
  max_builds_per_repo : Z;
  t1_purge_files_after_days : Z;
  t2_archive_after_days : Z;
  t3_delete_archive_after_days : Z;
  cleanup_interval_secs : Z;
  enable_worker_fanout : bool
}.

Definition RetentionConfig_default : RetentionConfig := {|
  max_builds_per_repo := 5000;
  t1_purge_files_after_days := 7;
  t2_archive_after_days := 30;
  t3_delete_archive_after_days := 365;
  cleanup_interval_secs := 3600;
  enable_worker_fanout := false
|}.

Definition RetentionConfig_de (builds t1 t2 t3 interval : option Z) (fanout : option bool) : RetentionConfig := {|
  max_builds_per_repo := default 5000 builds;
  t1_purge_files_after_days := default 7 t1;
  t2_archive_after_days := default 30 t2;
  t3_delete_archive_after_days := default 365 t3;
  cleanup_interval_secs := default 3600 interval;
  enable_worker_fanout := default false fanout
|}.

Definition validate (c : RetentionConfig) : result unit string :=
  if t2_archive_after_days c <=? t1_purge_files_after_days c then
    Err ("retention: t1_purge_files_after_days (" +:+ pretty (t1_purge_files_after_days c)
         +:+ ") must be < t2_archive_after_days (" +:+ pretty (t2_archive_after_days c) +:+ ")")%string
  else if t3_delete_archive_after_days c <=? t2_archive_after_days c then
    Err ("retention: t2_archive_after_days (" +:+ pretty (t2_archive_after_days c)
         +:+ ") must be < t3_delete_archive_after_days (" +:+ pretty (t3_delete_archive_after_days c) +:+ ")")%string
  else Ok tt.

Record AuthConfig := {
  auth_enabled : bool;
  auth_token : option string;
  jwt_secret : string;
  jwt_expiry_secs : Z;
  default_admin_username : option string;
  default_admin_password : option string;
  encryption_key : option string
}.

Definition AuthConfig_default : AuthConfig := {|
  auth_enabled := true;
  auth_token := None;
  jwt_secret := "change-me-in-production";
  jwt_expiry_secs := 86400;
  default_admin_username := None;
  default_admin_password := None;
  encryption_key := None
|}.

(** [#[serde(default)]] on a [bool] is [false]. *)
Definition AuthConfig_de (enabled : option bool) (token secret : option string) (expiry : option Z)
    (admin_username admin_password key : option string) : AuthConfig := {|
  auth_enabled := default false enabled;
  auth_token := token;
  jwt_secret := default "change-me-in-production" secret;
  jwt_expiry_secs := default 86400 expiry;
  default_admin_username := admin_username;
  default_admin_password := admin_password;
  encryption_key := key
|}.

Record PostgresConfig := {
  pg_host : string;
  pg_port : Z;
  pg_database : string;
  pg_user : string;
  pg_password : string;
  pg_max_connections : Z;
  pg_schema : string
}.

Definition PostgresConfig_de (host : option string) (port : option Z) (database user password : option string)
    (max_connections : option Z) (schema : option string) : PostgresConfig := {|
  pg_host := default EmptyString host;
  pg_port := default 5432 port;
  pg_database := default EmptyString database;
  pg_user := default EmptyString user;
  pg_password := default EmptyString password;
  pg_max_connections := default 10 max_connections;
  pg_schema := default "chola" schema
|}.

(** The value and where it came from. *)
Definition env_or (env : Env) (config_val env_key label : string) : string * (string * string) :=
  match env !! env_key with
  | Some val => if bool_decide (val = EmptyString) then (config_val, (label, "config")) else (val, (label, "env"))
  | None => (config_val, (label, "config"))
  end.

Definition database_url (env : Env) (c : PostgresConfig) : string * list (string * string) :=
  let '(host, s1) := env_or env (pg_host c) "CHOLA_DB_HOST" "host" in
  let '(port, s2) := env_or env (pretty (pg_port c)) "CHOLA_DB_PORT" "port" in
  let '(database, s3) := env_or env (pg_database c) "CHOLA_DB_NAME" "database" in
  let '(user, s4) := env_or env (pg_user c) "CHOLA_DB_USER" "user" in
  let '(password, s5) := env_or env (pg_password c) "CHOLA_DB_PASSWORD" "password" in
  (("postgres://" +:+ user +:+ ":" +:+ password +:+ "@" +:+ host +:+ ":" +:+ port +:+ "/" +:+ database)%string,
   [s1; s2; s3; s4; s5]).

Record RedisConfig := {
  redis_host : string;
  redis_port : Z;
  redis_password : string;
  key_prefix : string
}.

Definition RedisConfig_de (host : option string) (port : option Z) (password prefix : option string) : RedisConfig := {|
  redis_host := default EmptyString host;
  redis_port := default 6379 port;
  redis_password := default EmptyString password;
  key_prefix := default "chola:" prefix
|}.

Definition redis_url (env : Env) (c : RedisConfig) : string * list (string * string) :=
  let '(host, s1) := env_or env (redis_host c) "CHOLA_REDIS_HOST" "host" in
  let '(port, s2) := env_or env (pretty (redis_port c)) "CHOLA_REDIS_PORT" "port" in
  let '(password, s3) := env_or env (redis_password c) "CHOLA_REDIS_PASSWORD" "password" in
  ((if bool_decide (password = EmptyString) then "redis://" +:+ host +:+ ":" +:+ port
    else "redis://:" +:+ password +:+ "@" +:+ host +:+ ":" +:+ port)%string, [s1; s2; s3]).

Record SchedulingConfig := {
  strategy : string;
  nvme_preference : bool;
  branch_affinity : bool
}.

Definition SchedulingConfig_de (s : option string) (nvme affinity : option bool) : SchedulingConfig := {|
  strategy := default "best-fit" s;
  nvme_preference := default false nvme;
  branch_affinity := default false affinity
|}.

Record WorkersConfig := {
  heartbeat_interval_secs : Z;
  heartbeat_timeout_secs : Z;
  max_reconnect_attempts : Z;
  reservation_timeout_secs : Z;
  idle_timeout_secs : Z;
  stall_timeout_secs : Z
}.

Definition WorkersConfig_de (interval timeout attempts reservation idle stall : option Z) : WorkersConfig := {|
  heartbeat_interval_secs := default 3 interval;
  heartbeat_timeout_secs := default 10 timeout;
  max_reconnect_attempts := default 5 attempts;
  reservation_timeout_secs := default 14400 reservation;
  idle_timeout_secs := default 300 idle;
  stall_timeout_secs := default 1800 stall
|}.

Record JobsConfig := { orphan_timeout_secs : Z }.
Definition JobsConfig_default : JobsConfig := {| orphan_timeout_secs := 300 |}.
Definition JobsConfig_de (orphan : option Z) : JobsConfig := {| orphan_timeout_secs := default 300 orphan |}.

Record LoggingConfig := {
  level : string;
  logging_log_dir : option string
}.

Definition LoggingConfig_default : LoggingConfig := {| level := "info"; logging_log_dir := None |}.
Definition LoggingConfig_de (l d : option string) : LoggingConfig := {| level := default "info" l; logging_log_dir := d |}.

Record TlsServerConfig := {
  tls_enabled : bool;
  tls_ca_cert : option string;
  server_cert : option string;
  server_key : option string
}.

Record ControllerConfig := {
  bind_address : string;
  cc_tls : option TlsServerConfig;
  http_tls : option TlsServerConfig;
  postgres : PostgresConfig;
  redis : RedisConfig;
  scheduling : SchedulingConfig;
  cc_workers : WorkersConfig;
  cc_jobs : JobsConfig;
  cc_logging : LoggingConfig;
  auth : AuthConfig;
  cc_http_port : Z;
  http_bind_address : string;
  allowed_origins : list string;
  retention : option RetentionConfig
}.

(** Sections that may be absent have the [Default] of their struct. *)
Definition ControllerConfig_de (bind : string) (tls htls : option TlsServerConfig) (pg : PostgresConfig) (rd : RedisConfig)
    (sched : SchedulingConfig) (w : WorkersConfig) (j : option JobsConfig) (l : option LoggingConfig) (a : option AuthConfig)
    (port : option Z) (http_bind : option string) (origins : option (list string)) (r : option RetentionConfig) : ControllerConfig := {|
  bind_address := bind;
  cc_tls := tls;
  http_tls := htls;
  postgres := pg;
  redis := rd;
  scheduling := sched;
  cc_workers := w;
  cc_jobs := default JobsConfig_default j;
  cc_logging := default LoggingConfig_default l;
  auth := default AuthConfig_default a;
  cc_http_port := default 8080 port;
  http_bind_address := default "127.0.0.1" http_bind;
  allowed_origins := default [] origins;
  retention := r
|}.

(** [ControllerConfig::from_file]: reading and parsing, then validation. *)
Definition controller_from_file (parsed : result ControllerConfig string) : result ControllerConfig string :=
  let? config := parsed in
  match retention config with
  | Some r => let? _ := validate r in Ok config
  | None => Ok config
  end.

(** ** Worker *)

Record TlsClientConfig := {
  tc_enabled : bool;
  tc_ca_cert : option string;
  tc_client_cert : option string;
  tc_client_key : option string
}.

Record ControllerConnectionConfig := {
  address : string;
  cn_tls : option TlsClientConfig;
  http_url : option string
}.

Record ResourcesConfig := {
  rs_total_cpu : Z;
  rs_total_memory_gb : Z;
  rs_total_disk_gb : Z;
  rs_disk_type : string
}.

Definition ResourcesConfig_de (cpu memory disk : Z) (disk_type : option string) : ResourcesConfig := {|
  rs_total_cpu := cpu;
  rs_total_memory_gb := memory;
  rs_total_disk_gb := disk;
  rs_disk_type := default "sata" disk_type
|}.

Record CapabilitiesConfig := {
  supported_job_types : list string;
  docker_enabled : bool;
  capability_labels : list string
}.

Record HeartbeatConfig := { interval_secs : Z }.
Definition HeartbeatConfig_default : HeartbeatConfig := {| interval_secs := 3 |}.

(** [chola_data_dir]: [CHOLA_HOME], then [XDG_DATA_HOME], then [HOME]. *)
Definition chola_data_dir (env : Env) (sub : string) : string :=
  match env !! "CHOLA_HOME" with
  | Some chola_home => (chola_home +:+ "/" +:+ sub)%string
  | None =>
      match env !! "XDG_DATA_HOME" with
      | Some xdg => (xdg +:+ "/chola/" +:+ sub)%string
      | None =>
          match env !! "HOME" with
          | Some home => (home +:+ "/.local/share/chola/" +:+ sub)%string
          | None => ("/var/lib/chola/" +:+ sub)%string
          end
      end
  end.

Record ExecutionConfig := {
  work_dir : string;
  ex_log_dir : string;
  repos_dir : string;
  scratch_root : string
}.

Definition ExecutionConfig_default (env : Env) : ExecutionConfig := {|
  work_dir := chola_data_dir env "worker/jobs";
  ex_log_dir := chola_data_dir env "worker/logs";
  repos_dir := chola_data_dir env "worker/repos";
  scratch_root := chola_data_dir env "worker/scratch"
|}.

Definition ExecutionConfig_de (env : Env) (work log repos scratch : option string) : ExecutionConfig := {|
  work_dir := default (chola_data_dir env "worker/jobs") work;
  ex_log_dir := default (chola_data_dir env "worker/logs") log;
  repos_dir := default (chola_data_dir env "worker/repos") repos;
  scratch_root := default (chola_data_dir env "worker/scratch") scratch
|}.

Record WorkerReconnect := {
  max_attempts : Z;
  initial_delay_ms : Z;
  max_delay_ms : Z
}.

Definition WorkerReconnect_default : WorkerReconnect := {| max_attempts := 0; initial_delay_ms := 1000; max_delay_ms := 30000 |}.

Record WorkerConfig := {
  wc_worker_id : string;
  wc_hostname : string;
  wc_controller : ControllerConnectionConfig;
  resources : ResourcesConfig;
  capabilities : CapabilitiesConfig;
  heartbeat : HeartbeatConfig;
  execution : ExecutionConfig;
  wc_logging : LoggingConfig;
  wc_reconnect : WorkerReconnect;
  wc_token : option string;
  wc_http_port : Z;
  tracked_disk_paths : list string
}.

Definition WorkerConfig_de (env : Env) (id host : string) (c : ControllerConnectionConfig) (r : ResourcesConfig) (caps : CapabilitiesConfig)
    (hb : option HeartbeatConfig) (e : option ExecutionConfig) (l : option LoggingConfig) (rc : option WorkerReconnect)
    (token : option string) (port : option Z) (paths : option (list string)) : WorkerConfig := {|
  wc_worker_id := id;
  wc_hostname := host;
  wc_controller := c;
  resources := r;
  capabilities := caps;
  heartbeat := default HeartbeatConfig_default hb;
  execution := default (ExecutionConfig_default env) e;
  wc_logging := default LoggingConfig_default l;
  wc_reconnect := default WorkerReconnect_default rc;
  wc_token := token;
  wc_http_port := default 8081 port;
  tracked_disk_paths := default [] paths
|}.

(** ** Finding the file *)

Definition resolve_default_config (env : Env) (file_exists : string -> bool) (name : string) : option string :=
  let filename := (name +:+ ".yaml")%string in
  let xdg := match env !! "XDG_CONFIG_HOME" with
             | Some x => Some x
             | None => (fun h => h +:+ "/.config")%string <$> env !! "HOME"
             end in
  let etc_path := ("/etc/chola/" +:+ filename)%string in
  let etc := if file_exists etc_path then Some etc_path else None in
  match xdg with
  | Some base =>
      let path := (base +:+ "/chola/" +:+ filename)%string in
      if file_exists path then Some path else etc
  | None => etc
  end.

(** ** Facts *)

(** The tiers of a loaded configuration are strictly ordered. *)
Lemma validate_ok c : validate c = Ok tt <->
  t1_purge_files_after_days c < t2_archive_after_days c < t3_delete_archive_after_days c.
Proof. unfold validate. destruct (Z.leb_spec (t2_archive_after_days c) (t1_purge_files_after_days c)), (Z.leb_spec (t3_delete_archive_after_days c) (t2_archive_after_days c)); split; (done || lia). Qed.

Lemma loaded_retention parsed config r : controller_from_file parsed = Ok config -> retention config = Some r ->
  t1_purge_files_after_days r < t2_archive_after_days r < t3_delete_archive_after_days r.
Proof.
  unfold controller_from_file. intros (c & -> & H)%rbind_Ok_inv Hr. destruct (retention c) as [r'|] eqn:E.
  - apply rbind_Ok_inv in H as ([] & Hv & [= ->]). assert (r' = r) as -> by congruence. by apply validate_ok.
  - injection H as ->. congruence.
Qed.

(** Every built-in default passes its own validation. *)
Lemma default_retention_valid : validate RetentionConfig_default = Ok tt /\ RetentionConfig_de None None None None None None = RetentionConfig_default.
Proof. done. Qed.

(** The default of the struct and the defaults of its fields disagree: without
    an auth section authentication is on; a section that does not mention
    [enabled], not even to change it, turns it off. *)
Lemma auth_section_disables_auth token secret expiry u p k :
  auth_enabled AuthConfig_default = true /\ auth_enabled (AuthConfig_de None token secret expiry u p k) = false.
Proof. done. Qed.

(** The parts of a URL are not escaped: a password with an [@] ends the user
    information early. *)
Example database_url_unescaped :
  (database_url ∅ (PostgresConfig_de (Some "db") None (Some "ci") (Some "u") (Some "p@evil/x") None None)).1 = "postgres://u:p@evil/x@db:5432/ci".
Proof. reflexivity. Qed.
