(* ===== verification/F64.v ===== *)
(** * IEEE 754 binary64: Rust's [f64]

    The values are [SpecFloat.spec_float] at precision 53 and maximal exponent
    1024, with the Standard Library's rounding (round to nearest, ties to
    even). This file adds what the controller uses of [f64]: the conversion
    from integers, [partial_cmp] and the comparison operators, [str::parse]
    (correctly rounded) and [Display] (the shortest decimal that parses back,
    never in scientific notation). NaN is [S754_nan] (one value: the sign and
    payload of a NaN are not observable in this program). *)

From Stdlib Require Import ZArith Lia SpecFloat Ascii.
From stdpp Require Import strings list pretty.
From S2P Require Import Prelude.

Abbreviation f64 := spec_float (only parsing).

Module F64.

Definition of_Z (z : Z) : f64 := binary_normalize 53 1024 z 0 false.
Definition add (x y : f64) : f64 := SFadd 53 1024 x y.
Definition sub (x y : f64) : f64 := SFsub 53 1024 x y.
Definition mul (x y : f64) : f64 := SFmul 53 1024 x y.
Definition div (x y : f64) : f64 := SFdiv 53 1024 x y.

(** [f64::partial_cmp]: [None] when one side is NaN. *)
Definition partial_cmp (x y : f64) : option comparison := SFcompare x y.

(** The operator [>=]: false when one side is NaN. *)
Definition ge (x y : f64) : bool :=
  match partial_cmp x y with Some Gt | Some Eq => true | _ => false end.

Definition is_nan (x : f64) : bool :=
  match x with S754_nan => true | _ => false end.

(** ** [str::parse::<f64>] *)

Definition digit (c : ascii) : option Z :=
  let n := Z.of_N (N_of_ascii c) in
  if (48 <=? n) && (n <=? 57) then Some (n - 48) else None.

(** Reads digits into an accumulator; returns the value, how many digits were
    read and the rest. *)
Fixpoint read_digits (acc : Z) (cnt : nat) (s : string) : Z * nat * string :=
  match s with
  | String c s' =>
      match digit c with
      | Some d => read_digits (10 * acc + d) (S cnt) s'
      | None => (acc, cnt, s)
      end
  | EmptyString => (acc, cnt, s)
  end.

(** The binary64 nearest to [(-1)^neg * m * 10^e], for [0 <= m]. Beyond the
    two guards the result is infinite or zero whatever the digits are. *)
Definition of_decimal (neg : bool) (m e : Z) : f64 :=
  match m with
  | Zpos p =>
      if 400 <? e then S754_infinity neg
      else if e <? - (400 + Z.log2 m) then S754_zero neg
      else if 0 <=? e then
        binary_normalize 53 1024 ((if neg then -1 else 1) * m * 10 ^ e) 0 neg
      else
        match 10 ^ (- e) with
        | Zpos q => SFdiv 53 1024 (S754_finite neg p 0) (S754_finite false q 0)
        | _ => S754_nan
        end
  | _ => S754_zero neg
  end.

Definition read_sign (s : string) : bool * string :=
  match s with
  | String "-" s' => (true, s')
  | String "+" s' => (false, s')
  | _ => (false, s)
  end.

Definition lower_ascii (c : ascii) : ascii :=
  let n := N_of_ascii c in
  if ((65 <=? n) && (n <=? 90))%N then ascii_of_N (n + 32) else c.

Fixpoint to_ascii_lowercase (s : string) : string :=
  match s with
  | EmptyString => EmptyString
  | String c s' => String (lower_ascii c) (to_ascii_lowercase s')
  end.

(** The exponent part: nothing, or [e]/[E], an optional sign and digits up to
    the end of the string. *)
Definition read_exponent (s : string) : option Z :=
  match s with
  | EmptyString => Some 0
  | String c s' =>
      if bool_decide (lower_ascii c = "e"%char) then
        let '(neg, s2) := read_sign s' in
        let '(v, cnt, rest) := read_digits 0 0 s2 in
        match cnt, rest with
        | O, _ => None
        | _, EmptyString => Some (if neg then - v else v)
        | _, _ => None
        end
      else None
  end.

Definition parse (s : string) : option f64 :=
  let '(neg, s1) := read_sign s in
  let low := to_ascii_lowercase s1 in
  if bool_decide (low = "inf") || bool_decide (low = "infinity") then Some (S754_infinity neg)
  else if bool_decide (low = "nan") then Some S754_nan
  else
    let '(ip, ni, s2) := read_digits 0 0 s1 in
    let '(m, nf, s3) :=
      match s2 with
      | String "." s2' => read_digits ip 0 s2'
      | _ => (ip, O, s2)
      end in
    match (ni + nf)%nat with
    | O => None
    | _ =>
        match read_exponent s3 with
        | Some e => Some (of_decimal neg m (e - Z.of_nat nf))
        | None => None
        end
    end.

(** ** [Display for f64] *)

(** Of a positive binary64 [m * 2^e] as the fraction [num / den], the least
    [p >= p0] with [num / den < 10^p], searched upwards. *)
Fixpoint dec_exponent (fuel : nat) (num den p : Z) : Z :=
  match fuel with
  | O => p
  | S fuel' =>
      let lt := if 0 <=? p then num <? den * 10 ^ p else num * 10 ^ (- p) <? den in
      if lt then p else dec_exponent fuel' num den (p + 1)
  end.

(** [k] significant digits: of the two decimals with [k] digits around
    [num / den], the nearest that parses back to [x]. *)
Definition k_digits (x : f64) (num den p : Z) (k : Z) : option (Z * Z) :=
  let e := p - k in
  let '(n, d) := if 0 <=? e then (num, den * 10 ^ e) else (num * 10 ^ (- e), den) in
  let lo := n / d in
  let hi := lo + 1 in
  let back (z : Z) := match partial_cmp (of_decimal false z e) x with Some Eq => true | _ => false end in
  let lo_first := 2 * (n - lo * d) <=? d in
  if lo_first then
    if back lo then Some (lo, e) else if back hi then Some (hi, e) else None
  else
    if back hi then Some (hi, e) else if back lo then Some (lo, e) else None.

Fixpoint shortest (fuel : nat) (x : f64) (num den p k : Z) : Z * Z :=
  match fuel with
  | O => (0, 0)
  | S fuel' =>
      match k_digits x num den p k with
      | Some r => r
      | None => shortest fuel' x num den p (k + 1)
      end
  end.

Fixpoint zeros (n : nat) : string :=
  match n with O => EmptyString | S n' => String "0" (zeros n') end.

Fixpoint strip_trailing_zeros (fuel : nat) (d e : Z) : Z * Z :=
  match fuel with
  | O => (d, e)
  | S fuel' =>
      if (e <? 0) && (d mod 10 =? 0) && negb (d =? 0)
      then strip_trailing_zeros fuel' (d / 10) (e + 1) else (d, e)
  end.

(** The decimal [d * 10^e], [0 < d], written out. *)
Definition plain_decimal (d e : Z) : string :=
  if 0 <=? e then (pretty d +:+ zeros (Z.to_nat e))%string
  else
    let ds := pretty d in
    let len := Z.of_nat (String.length ds) in
    if 0 <? len + e then
      (String.substring 0 (Z.to_nat (len + e)) ds +:+ "." +:+
       String.substring (Z.to_nat (len + e)) (Z.to_nat (- e)) ds)%string
    else ("0." +:+ zeros (Z.to_nat (- e - len)) +:+ ds)%string.

Definition to_string (x : f64) : string :=
  match x with
  | S754_nan => "NaN"
  | S754_infinity s => if s then "-inf" else "inf"
  | S754_zero s => if s then "-0" else "0"
  | S754_finite s m e =>
      let '(num, den) := if 0 <=? e then (Zpos m * 2 ^ e, 1) else (Zpos m, 2 ^ (- e)) in
      let p := dec_exponent 10 num den ((Z.log2 num - Z.log2 den) * 30103 / 100000 - 2) in
      let '(d, e10) := shortest 17 (S754_finite false m e) num den p 1 in
      let '(d', e') := strip_trailing_zeros 20 d e10 in
      ((if s then "-" else "") +:+ plain_decimal d' e')%string
  end.

Example to_string_5 : to_string (of_Z 5) = "5".
Proof. vm_compute. reflexivity. Qed.
Example to_string_neg : option_map to_string (parse "-12.50") = Some "-12.5".
Proof. vm_compute. reflexivity. Qed.
Example to_string_tenth : option_map to_string (parse "0.1") = Some "0.1".
Proof. vm_compute. reflexivity. Qed.
Example to_string_small : option_map to_string (parse "1e-7") = Some "0.0000001".
Proof. vm_compute. reflexivity. Qed.
Example to_string_big : option_map to_string (parse "1e21") = Some "1000000000000000000000".
Proof. vm_compute. reflexivity. Qed.
Example to_string_2026 : option_map to_string (parse "2026.0") = Some "2026".
Proof. vm_compute. reflexivity. Qed.
Example to_string_sum : to_string (add (of_decimal false 1 (-1)) (of_decimal false 2 (-1)))
  = "0.30000000000000004".
Proof. vm_compute. reflexivity. Qed.

(** ** Order facts

    [partial_cmp] on values other than NaN is a lexicographic comparison of
    integer keys, hence a total preorder. *)

Definition key (x : f64) : Z * Z * Z :=
  match x with
  | S754_infinity s => (if s then -2 else 2, 0, 0)
  | S754_zero _ => (0, 0, 0)
  | S754_finite true m e => (-1, - e, Zneg m)
  | S754_finite false m e => (1, e, Zpos m)
  | S754_nan => (3, 0, 0)
  end.

Definition key_cmp (k1 k2 : Z * Z * Z) : comparison :=
  let '(c1, e1, m1) := k1 in
  let '(c2, e2, m2) := k2 in
  match c1 ?= c2 with
  | Eq => match e1 ?= e2 with Eq => m1 ?= m2 | r => r end
  | r => r
  end.

Lemma partial_cmp_key x y :
  is_nan x = false -> is_nan y = false -> partial_cmp x y = Some (key_cmp (key x) (key y)).
Proof.
  unfold partial_cmp.
  destruct x as [[]|[]| |[] m e], y as [[]|[]| |[] m' e']; simpl; try done; intros _ _.
  by destruct (Z.compare_spec e e'), (Z.compare_spec (- e) (- e')); try lia.
Qed.

Lemma key_cmp_antisym k1 k2 : key_cmp k2 k1 = CompOpp (key_cmp k1 k2).
Proof.
  destruct k1 as [[c1 e1] m1], k2 as [[c2 e2] m2]; simpl.
  rewrite (Z.compare_antisym c1), (Z.compare_antisym e1), (Z.compare_antisym m1).
  by destruct (c1 ?= c2); simpl; try done; destruct (e1 ?= e2).
Qed.

Lemma key_cmp_spec k1 k2 :
  key_cmp k1 k2 <> Gt <->
  let '(c1, e1, m1) := k1 in
  let '(c2, e2, m2) := k2 in
  c1 < c2 \/ (c1 = c2 /\ (e1 < e2 \/ (e1 = e2 /\ m1 <= m2))).
Proof.
  destruct k1 as [[c1 e1] m1], k2 as [[c2 e2] m2]; simpl.
  destruct (Z.compare_spec c1 c2), (Z.compare_spec e1 e2), (Z.compare_spec m1 m2);
    split; intros; try lia; try congruence; try done.
Qed.

Lemma key_cmp_trans k1 k2 k3 :
  key_cmp k1 k2 <> Gt -> key_cmp k2 k3 <> Gt -> key_cmp k1 k3 <> Gt.
Proof.
  rewrite !key_cmp_spec. destruct k1 as [[c1 e1] m1], k2 as [[c2 e2] m2], k3 as [[c3 e3] m3]. lia.
Qed.

Lemma key_cmp_total k1 k2 : key_cmp k1 k2 <> Gt \/ key_cmp k2 k1 <> Gt.
Proof. rewrite (key_cmp_antisym k1 k2). destruct (key_cmp k1 k2); simpl; auto. Qed.

End F64.
