(* ===== verification/WorkerModel.v ===== *)
(** * Worker data and resource accounting (crates/ci-core/src/models/worker.rs)

    The records and enums of worker.rs with the source's fields, the effective
    caps, and the allocation counters of [WorkerState] with their operations
    [allocate] and [release]. [allocate] mutates its receiver and returns a
    flag: here it returns both. Counters keep their machine width. *)

From Stdlib Require Import ZArith Lia.
From stdpp Require Import strings list.
From S2P Require Import Prelude F64.

Record DiskDetailInfo := {
  dd_mount_point : string;
  dd_device : string;
  dd_fs_type : string;
  dd_total_mb : Z;
  dd_used_mb : Z;
  dd_available_mb : Z
}.

Inductive DiskType := Nvme | Sata.

#[export] Instance DiskType_eq_dec : EqDecision DiskType.
Proof. solve_decision. Defined.

Definition DiskType_to_string (d : DiskType) : string :=
  match d with Nvme => "nvme" | Sata => "sata" end.

Inductive WorkerStatus := Connected | Disconnected | Draining.

#[export] Instance WorkerStatus_eq_dec : EqDecision WorkerStatus.
Proof. solve_decision. Defined.

Record WorkerInfo := {
  wi_worker_id : string;
  wi_hostname : string;
  wi_total_cpu : Z;
  wi_total_memory_mb : Z;
  wi_total_disk_mb : Z;
  wi_disk_type : DiskType;
  wi_supported_job_types : list string;
  wi_docker_enabled : bool;
  wi_labels : list string;
  wi_disk_details : list DiskDetailInfo;
  wi_priority : Z;
  wi_max_cpu : option Z;
  wi_max_memory_mb : option Z;
  wi_max_disk_mb : option Z;
  wi_max_cpu_percent : option Z;
  wi_max_memory_percent : option Z;
  wi_max_disk_percent : option Z
}.

Record WorkerHeartbeat := {
  hb_worker_id : string;
  hb_used_cpu_percent : f64;
  hb_used_memory_mb : Z;
  hb_used_disk_mb : Z;
  hb_running_job_ids : list string;
  hb_system_load : f64;
  hb_timestamp : timestamp;
  hb_disk_details : list DiskDetailInfo
}.

Record WorkerState := {
  ws_info : WorkerInfo;
  ws_status : WorkerStatus;
  ws_last_heartbeat : option WorkerHeartbeat;
  ws_registered_at : timestamp;
  ws_system_info : option string;
  ws_allocated_cpu : Z;
  ws_allocated_memory_mb : Z;
  ws_allocated_disk_mb : Z
}.

(** [WorkerState::new]; [now] is the reading of [Utc::now()]. *)
Definition WorkerState_new (now : timestamp) (info : WorkerInfo) : WorkerState := {|
  ws_info := info;
  ws_status := Connected;
  ws_last_heartbeat := None;
  ws_registered_at := now;
  ws_system_info := None;
  ws_allocated_cpu := 0;
  ws_allocated_memory_mb := 0;
  ws_allocated_disk_mb := 0
|}.

Definition cpu_cap (w : WorkerState) : Z :=
  let abs := default (wi_total_cpu (ws_info w)) (wi_max_cpu (ws_info w)) in
  let pct :=
    default (wi_total_cpu (ws_info w))
      ((fun p => as_u32 (u64_mul (wi_total_cpu (ws_info w)) (clamp 1 100 p) / 100))
         <$> wi_max_cpu_percent (ws_info w)) in
  Z.min abs pct.

Definition memory_cap (w : WorkerState) : Z :=
  let abs := default (wi_total_memory_mb (ws_info w)) (wi_max_memory_mb (ws_info w)) in
  let pct :=
    default (wi_total_memory_mb (ws_info w))
      ((fun p => u64_mul (wi_total_memory_mb (ws_info w)) (clamp 1 100 p) / 100)
         <$> wi_max_memory_percent (ws_info w)) in
  Z.min abs pct.

Definition disk_cap (w : WorkerState) : Z :=
  let abs := default (wi_total_disk_mb (ws_info w)) (wi_max_disk_mb (ws_info w)) in
  let pct :=
    default (wi_total_disk_mb (ws_info w))
      ((fun p => u64_mul (wi_total_disk_mb (ws_info w)) (clamp 1 100 p) / 100)
         <$> wi_max_disk_percent (ws_info w)) in
  Z.min abs pct.

Definition free_memory_mb (w : WorkerState) : Z :=
  match ws_last_heartbeat w with
  | Some hb => saturating_sub (wi_total_memory_mb (ws_info w)) (hb_used_memory_mb hb)
  | None => wi_total_memory_mb (ws_info w)
  end.

Definition free_disk_mb (w : WorkerState) : Z :=
  let physical_free :=
    match ws_last_heartbeat w with
    | Some hb => saturating_sub (wi_total_disk_mb (ws_info w)) (hb_used_disk_mb hb)
    | None => wi_total_disk_mb (ws_info w)
    end in
  Z.min physical_free (disk_cap w).

Definition allocate (cpu mem disk : Z) (w : WorkerState) : bool * WorkerState :=
  if (cpu_cap w <? u32_add (ws_allocated_cpu w) cpu)
     || (memory_cap w <? u64_add (ws_allocated_memory_mb w) mem)
  then (false, w)
  else if (0 <? disk) && (free_disk_mb w <? disk)
  then (false, w)
  else (true, {| w with
    ws_allocated_cpu := u32_add (ws_allocated_cpu w) cpu;
    ws_allocated_memory_mb := u64_add (ws_allocated_memory_mb w) mem;
    ws_allocated_disk_mb := u64_add (ws_allocated_disk_mb w) disk |}).

Definition release (cpu mem disk : Z) (w : WorkerState) : WorkerState :=
  {| w with
    ws_allocated_cpu := saturating_sub (ws_allocated_cpu w) cpu;
    ws_allocated_memory_mb := saturating_sub (ws_allocated_memory_mb w) mem;
    ws_allocated_disk_mb := saturating_sub (ws_allocated_disk_mb w) disk |}.

Definition available_cpu (w : WorkerState) : Z := saturating_sub (cpu_cap w) (ws_allocated_cpu w).
Definition available_memory_mb (w : WorkerState) : Z :=
  saturating_sub (memory_cap w) (ws_allocated_memory_mb w).
Definition available_disk_mb (w : WorkerState) : Z :=
  saturating_sub (disk_cap w) (ws_allocated_disk_mb w).

(** ** Well-formedness *)

(** The static part fits its machine widths, and totals are far enough below
    2^64 for the percentage products not to wrap. *)
Record info_wf (i : WorkerInfo) : Prop := {
  iw_cpu : u32 (wi_total_cpu i);
  iw_mem : 0 <= wi_total_memory_mb i < 2 ^ 56;
  iw_disk : 0 <= wi_total_disk_mb i < 2 ^ 56;
  iw_max_cpu : forall c, wi_max_cpu i = Some c -> u32 c;
  iw_max_mem : forall c, wi_max_memory_mb i = Some c -> u64 c;
  iw_max_disk : forall c, wi_max_disk_mb i = Some c -> u64 c
}.

(** The counters fit their machine widths. *)
Record worker_wf (w : WorkerState) : Prop := {
  ww_info : info_wf (ws_info w);
  ww_cpu : u32 (ws_allocated_cpu w);
  ww_mem : u64 (ws_allocated_memory_mb w);
  ww_disk : u64 (ws_allocated_disk_mb w)
}.

(** The reserved CPU and memory are within the caps. A change of the caps at
    run time can break this; allocation and release cannot. *)
Definition within_caps (w : WorkerState) : Prop :=
  ws_allocated_cpu w <= cpu_cap w /\ ws_allocated_memory_mb w <= memory_cap w.

Lemma pct_bounds total p :
  0 <= total < 2 ^ 56 -> 0 <= u64_mul total (clamp 1 100 p) / 100 <= total.
Proof.
  intros Ht. pose proof (clamp_bounds 1 100 p ltac:(lia)).
  unfold u64_mul. rewrite wrap_small by nia.
  split; [apply Z.div_pos; nia | apply Z.div_le_upper_bound; nia].
Qed.

Lemma as_u32_pct total p :
  u32 total -> as_u32 (u64_mul total (clamp 1 100 p) / 100) = u64_mul total (clamp 1 100 p) / 100.
Proof.
  unfold u32, as_u32. intros Ht.
  pose proof (pct_bounds total p ltac:(lia)). apply wrap_small. lia.
Qed.

(** One cap computation, shared by the three resources. *)
Definition cap_of (total : Z) (mx pc : option Z) : Z :=
  Z.min (default total mx)
        (default total ((fun p => u64_mul total (clamp 1 100 p) / 100) <$> pc)).

Lemma cpu_cap_of w :
  info_wf (ws_info w) ->
  cpu_cap w = cap_of (wi_total_cpu (ws_info w)) (wi_max_cpu (ws_info w)) (wi_max_cpu_percent (ws_info w)).
Proof.
  intros Hw. unfold cpu_cap, cap_of. f_equal.
  destruct (wi_max_cpu_percent (ws_info w)); simpl; [apply as_u32_pct, Hw | done].
Qed.

Lemma cap_of_bounds total mx pc :
  0 <= total < 2 ^ 56 ->
  (forall c, mx = Some c -> 0 <= c) ->
  0 <= cap_of total mx pc <= total /\
  (forall c, mx = Some c -> cap_of total mx pc <= c) /\
  (forall p, pc = Some p -> 100 * cap_of total mx pc <= total * clamp 1 100 p).
Proof.
  intros Ht Hmx. unfold cap_of.
  assert (Hpc : 0 <= default total ((fun p => u64_mul total (clamp 1 100 p) / 100) <$> pc) <= total).
  { destruct pc as [p|]; simpl; [by apply pct_bounds | lia]. }
  split; [|split].
  - destruct mx as [c|]; simpl; [specialize (Hmx c eq_refl)|]; lia.
  - intros c ->; simpl; lia.
  - intros p ->; simpl. pose proof (clamp_bounds 1 100 p ltac:(lia)).
    unfold u64_mul. rewrite wrap_small by nia.
    pose proof (Z.mul_div_le (total * clamp 1 100 p) 100). lia.
Qed.

Lemma cpu_cap_bounds w : info_wf (ws_info w) -> 0 <= cpu_cap w <= wi_total_cpu (ws_info w).
Proof.
  intros Hw. rewrite cpu_cap_of by done. destruct Hw as [Hc ? ? Hm ? ?]. unfold u32 in *.
  apply cap_of_bounds; [lia|]. intros c Hx. specialize (Hm c Hx). lia.
Qed.

Lemma memory_cap_bounds w : info_wf (ws_info w) -> 0 <= memory_cap w <= wi_total_memory_mb (ws_info w).
Proof.
  intros [? Hc ? ? Hm ?]. apply cap_of_bounds; [lia|]. intros c Hx. specialize (Hm c Hx). unfold u64 in Hm. lia.
Qed.

Lemma disk_cap_bounds w : info_wf (ws_info w) -> 0 <= disk_cap w <= wi_total_disk_mb (ws_info w).
Proof.
  intros [? ? Hc ? ? Hm]. apply cap_of_bounds; [lia|]. intros c Hx. specialize (Hm c Hx). unfold u64 in Hm. lia.
Qed.

Lemma free_disk_bounds w :
  info_wf (ws_info w) -> free_disk_mb w <= disk_cap w /\ free_disk_mb w <= wi_total_disk_mb (ws_info w).
Proof. intros Hw. pose proof (disk_cap_bounds w Hw). unfold free_disk_mb. lia. Qed.

(** The caps depend on the static part only. *)
Lemma caps_info w w' :
  ws_info w = ws_info w' -> cpu_cap w = cpu_cap w' /\ memory_cap w = memory_cap w' /\ disk_cap w = disk_cap w'.
Proof. intros E. unfold cpu_cap, memory_cap, disk_cap. by rewrite E. Qed.

(** ** [allocate] and [release] *)

(** The request fits: what the code tests, on unbounded integers. *)
Definition fits (w : WorkerState) (cpu mem disk : Z) : Prop :=
  ws_allocated_cpu w + cpu <= cpu_cap w /\
  ws_allocated_memory_mb w + mem <= memory_cap w /\
  (disk > 0 -> disk <= free_disk_mb w).

#[export] Instance fits_dec w cpu mem disk : Decision (fits w cpu mem disk).
Proof. unfold fits. apply _. Defined.

(** The request does not overflow the counters. *)
Definition no_overflow (w : WorkerState) (cpu mem disk : Z) : Prop :=
  0 <= cpu /\ ws_allocated_cpu w + cpu < 2 ^ 32 /\
  0 <= mem /\ ws_allocated_memory_mb w + mem < 2 ^ 64 /\
  0 <= disk /\ ws_allocated_disk_mb w + disk < 2 ^ 64.

Lemma allocate_eq w cpu mem disk :
  worker_wf w -> no_overflow w cpu mem disk ->
  allocate cpu mem disk w =
    if decide (fits w cpu mem disk)
    then (true, {| w with
           ws_allocated_cpu := ws_allocated_cpu w + cpu;
           ws_allocated_memory_mb := ws_allocated_memory_mb w + mem;
           ws_allocated_disk_mb := ws_allocated_disk_mb w + disk |})
    else (false, w).
Proof.
  intros [_ Hc Hm Hd] (?&?&?&?&?&?). unfold u32, u64 in *. unfold allocate.
  rewrite u32_add_small, !u64_add_small by lia.
  destruct (decide (fits w cpu mem disk)) as [(F1&F2&F3)|NF].
  - rewrite (proj2 (Z.ltb_ge _ _) F1), (proj2 (Z.ltb_ge _ _) F2). simpl.
    destruct (Z.ltb_spec 0 disk); simpl; [|done].
    by rewrite (proj2 (Z.ltb_ge _ _) (F3 ltac:(lia))).
  - destruct (Z.ltb_spec (cpu_cap w) (ws_allocated_cpu w + cpu)); simpl; [done|].
    destruct (Z.ltb_spec (memory_cap w) (ws_allocated_memory_mb w + mem)); simpl; [done|].
    destruct (Z.ltb_spec 0 disk), (Z.ltb_spec (free_disk_mb w) disk); simpl; try done;
      exfalso; apply NF; unfold fits; lia.
Qed.

(** Whatever the request, a granted allocation leaves the counters within the
    caps and touches nothing else; a refused one leaves the worker as it was. *)
Lemma allocate_wf w cpu mem disk b w' :
  worker_wf w -> allocate cpu mem disk w = (b, w') ->
  worker_wf w' /\ ws_info w' = ws_info w /\ ws_status w' = ws_status w /\
  (b = true -> within_caps w') /\ (b = false -> w' = w).
Proof.
  intros Hw. unfold allocate.
  destruct (Z.ltb_spec (cpu_cap w) (u32_add (ws_allocated_cpu w) cpu)),
           (Z.ltb_spec (memory_cap w) (u64_add (ws_allocated_memory_mb w) mem)); simpl;
    try (intros [= <- <-]; done).
  destruct ((0 <? disk) && _); intros [= <- <-]; [done|].
  split_and!; try done. destruct Hw as [Hi Hc Hm Hd].
  constructor; [done | | |].
  - apply (wrap_bounds 32); lia.
  - apply (wrap_bounds 64); lia.
  - apply (wrap_bounds 64); lia.
Qed.

Lemma release_wf w cpu mem disk :
  worker_wf w -> 0 <= cpu -> 0 <= mem -> 0 <= disk -> worker_wf (release cpu mem disk w).
Proof.
  intros [Hi Hc Hm Hd] ???. unfold u32, u64 in *.
  constructor; try done; simpl; unfold saturating_sub, u32, u64; lia.
Qed.

Lemma release_within_caps w cpu mem disk :
  info_wf (ws_info w) -> within_caps w -> 0 <= cpu -> 0 <= mem -> within_caps (release cpu mem disk w).
Proof.
  intros Hi [Hc Hm] ??. pose proof (cpu_cap_bounds w Hi). pose proof (memory_cap_bounds w Hi).
  split; simpl; unfold saturating_sub;
    [change (cpu_cap (release cpu mem disk w)) with (cpu_cap w)
    |change (memory_cap (release cpu mem disk w)) with (memory_cap w)]; lia.
Qed.

(** ** Sample workers *)

Definition sample_info (id : string) : WorkerInfo := {|
  wi_worker_id := id; wi_hostname := "host"; wi_total_cpu := 8;
  wi_total_memory_mb := 16384; wi_total_disk_mb := 100000; wi_disk_type := Nvme;
  wi_supported_job_types := ["common"; "nix"]; wi_docker_enabled := false;
  wi_labels := ["linux"]; wi_disk_details := []; wi_priority := 0;
  wi_max_cpu := Some 6; wi_max_memory_mb := None; wi_max_disk_mb := None;
  wi_max_cpu_percent := Some 50; wi_max_memory_percent := None; wi_max_disk_percent := None |}.

Definition sample_worker (id : string) : WorkerState := WorkerState_new 0 (sample_info id).

Lemma sample_info_wf id : info_wf (sample_info id).
Proof. constructor; unfold u32, u64; simpl; try lia; intros c; try discriminate; intros [= <-]; lia. Qed.

Lemma sample_worker_wf id : worker_wf (sample_worker id).
Proof. constructor; [apply sample_info_wf|unfold u32, u64; simpl; lia..]. Qed.

(** ** Properties *)

(** The effective CPU, memory and disk limits of a well-formed worker are
    non-negative and never exceed the machine's total, a configured absolute
    maximum, or the configured percentage of the total (clamped to 1..100). *)
Theorem caps_respect_limits (w : WorkerState) :
  info_wf (ws_info w) ->
  (0 <= cpu_cap w <= wi_total_cpu (ws_info w) /\
   (forall c, wi_max_cpu (ws_info w) = Some c -> cpu_cap w <= c) /\
   (forall p, wi_max_cpu_percent (ws_info w) = Some p ->
      100 * cpu_cap w <= wi_total_cpu (ws_info w) * clamp 1 100 p)) /\
  (0 <= memory_cap w <= wi_total_memory_mb (ws_info w) /\
   (forall c, wi_max_memory_mb (ws_info w) = Some c -> memory_cap w <= c) /\
   (forall p, wi_max_memory_percent (ws_info w) = Some p ->
      100 * memory_cap w <= wi_total_memory_mb (ws_info w) * clamp 1 100 p)) /\
  (0 <= disk_cap w <= wi_total_disk_mb (ws_info w) /\
   (forall c, wi_max_disk_mb (ws_info w) = Some c -> disk_cap w <= c) /\
   (forall p, wi_max_disk_percent (ws_info w) = Some p ->
      100 * disk_cap w <= wi_total_disk_mb (ws_info w) * clamp 1 100 p)).
Proof.
  intros Hw. rewrite cpu_cap_of by done. destruct Hw as [Hc Hm Hd Hmc Hmm Hmd]. unfold u32, u64 in *.
  split; [|split]; apply cap_of_bounds; try lia; intros c E;
    [specialize (Hmc c E) | specialize (Hmm c E) | specialize (Hmd c E)]; lia.
Qed.

Lemma caps_respect_limits_witness :
  info_wf (sample_info "w") /\ 100 * cpu_cap (sample_worker "w") <= 8 * clamp 1 100 50.
Proof.
  split; [apply sample_info_wf|].
  by apply (caps_respect_limits (sample_worker "w") (sample_info_wf "w")).
Defined.

(** C33. The capacity gate: on a well-formed worker, for a request that is not
    negative and does not overflow the counters (32 bits for the CPUs, 64 for
    memory and disk), [allocate] grants the request exactly when it fits the CPU
    and memory caps and the free disk; a granted request adds the amounts and
    leaves the worker well-formed, its counters within their widths and the CPU
    and memory counters within the caps; a refused one changes nothing; and
    releasing a granted request gives back the worker as it was before. *)
Theorem allocate_gate (w : WorkerState) (cpu mem disk : Z) :
  worker_wf w -> no_overflow w cpu mem disk ->
  (fst (allocate cpu mem disk w) = true <-> fits w cpu mem disk) /\
  (fst (allocate cpu mem disk w) = false -> snd (allocate cpu mem disk w) = w) /\
  (fst (allocate cpu mem disk w) = true ->
     let w' := snd (allocate cpu mem disk w) in
     worker_wf w' /\ within_caps w' /\
     ws_allocated_cpu w' = ws_allocated_cpu w + cpu /\
     ws_allocated_memory_mb w' = ws_allocated_memory_mb w + mem /\
     ws_allocated_disk_mb w' = ws_allocated_disk_mb w + disk /\
     release cpu mem disk w' = w).
Proof.
  intros Hw Ho. destruct (allocate cpu mem disk w) as [b w'] eqn:E.
  pose proof (allocate_wf _ _ _ _ _ _ Hw E) as (Hw' & _ & _ & Hcap & _).
  rewrite (allocate_eq _ _ _ _ Hw Ho) in E.
  destruct Ho as (?&?&?&?&?&?), Hw as [_ Hc Hm Hd]. unfold u32, u64 in *.
  destruct (decide (fits w cpu mem disk)); injection E as <- <-; simpl in *; split_and!; try done.
  intros _. split_and!; try done; [by apply Hcap|].
  destruct w; unfold release, saturating_sub; simpl in *; f_equal; lia.
Qed.

Lemma allocate_gate_witness :
  worker_wf (sample_worker "w") /\ no_overflow (sample_worker "w") 2 1024 500 /\
  fst (allocate 2 1024 500 (sample_worker "w")) = true.
Proof.
  assert (no_overflow (sample_worker "w") 2 1024 500) as Ho by (unfold no_overflow; simpl; lia).
  split_and!; [apply sample_worker_wf | exact Ho |].
  apply (allocate_gate (sample_worker "w") 2 1024 500 (sample_worker_wf "w") Ho).
  vm_compute. split_and!; try done; intros _; done.
Defined.
