(* ===== verification/JobModel.v ===== *)
(** * Jobs and job groups (crates/ci-core/src/models/job.rs, job_group.rs)

    The state enums with their [Display] and [from_str], the [Job] and
    [JobGroup] records with the source's fields (prefixes [j_] and [g_] keep
    the projections apart) and their constructors. *)

From Stdlib Require Import ZArith.
From stdpp Require Import gmap strings list.
From S2P Require Import Prelude.

(** ** job.rs *)

Inductive JobState :=
| JQueued | JAssigned | JRunning | JSuccess | JFailed | JCancelled | JUnknown.

#[export] Instance JobState_eq_dec : EqDecision JobState.
Proof. solve_decision. Defined.

Definition JobState_is_terminal (s : JobState) : bool :=
  match s with JSuccess | JFailed | JCancelled => true | _ => false end.

Definition JobState_to_string (s : JobState) : string :=
  match s with
  | JQueued => "queued"
  | JAssigned => "assigned"
  | JRunning => "running"
  | JSuccess => "success"
  | JFailed => "failed"
  | JCancelled => "cancelled"
  | JUnknown => "unknown"
  end.

Definition JobState_from_str (s : string) : JobState :=
  if bool_decide (s = "queued") then JQueued
  else if bool_decide (s = "assigned") then JAssigned
  else if bool_decide (s = "running") then JRunning
  else if bool_decide (s = "success") then JSuccess
  else if bool_decide (s = "failed") then JFailed
  else if bool_decide (s = "cancelled") then JCancelled
  else JUnknown.

Inductive JobType := JTCommon | JTHeavy | JTNix | JTTest.

#[export] Instance JobType_eq_dec : EqDecision JobType.
Proof. solve_decision. Defined.

Definition JobType_to_string (t : JobType) : string :=
  match t with
  | JTCommon => "common"
  | JTHeavy => "heavy"
  | JTNix => "nix"
  | JTTest => "test"
  end.

Record Job := {
  j_job_id : string;
  j_command : string;
  j_job_type : JobType;
  j_required_cpu : Z;
  j_required_memory_mb : Z;
  j_required_disk_mb : Z;
  j_isolation_required : bool;
  j_preferred_worker : option string;
  j_branch_id : option string;
  j_environment : gmap string string;
  j_state : JobState;
  j_assigned_worker : option string;
  j_exit_code : option Z;
  j_output : option string;
  j_created_at : timestamp;
  j_updated_at : timestamp;
  j_submitter_connection_id : option string;
  j_cancel_reason : option string;
  j_status_reason : option string;
  j_job_group_id : option Uuid;
  j_stage_config_id : option Uuid;
  j_stage_name : option string;
  j_pre_script : option string;
  j_post_script : option string;
  j_pre_exit_code : option Z;
  j_post_exit_code : option Z;
  j_max_duration_secs : option Z;
  j_log_path : option string;
  j_started_at : option timestamp;
  j_completed_at : option timestamp;
  j_priority : Z;
  j_required_labels : list string
}.

Definition Job_new (now : timestamp) (job_id command : string) (job_type : JobType)
    (required_cpu required_memory_mb required_disk_mb : Z) : Job := {|
  j_job_id := job_id;
  j_command := command;
  j_job_type := job_type;
  j_required_cpu := required_cpu;
  j_required_memory_mb := required_memory_mb;
  j_required_disk_mb := required_disk_mb;
  j_isolation_required := false;
  j_preferred_worker := None;
  j_branch_id := None;
  j_environment := ∅;
  j_state := JQueued;
  j_assigned_worker := None;
  j_exit_code := None;
  j_output := None;
  j_created_at := now;
  j_updated_at := now;
  j_submitter_connection_id := None;
  j_cancel_reason := None;
  j_status_reason := None;
  j_job_group_id := None;
  j_stage_config_id := None;
  j_stage_name := None;
  j_pre_script := None;
  j_post_script := None;
  j_pre_exit_code := None;
  j_post_exit_code := None;
  j_max_duration_secs := None;
  j_log_path := None;
  j_started_at := None;
  j_completed_at := None;
  j_priority := 0;
  j_required_labels := []
|}.

(** ** job_group.rs *)

Inductive JobGroupState :=
| GPending | GReserved | GRunning | GSuccess | GFailed | GCancelled | GExpired.

#[export] Instance JobGroupState_eq_dec : EqDecision JobGroupState.
Proof. solve_decision. Defined.

Definition JobGroupState_to_string (s : JobGroupState) : string :=
  match s with
  | GPending => "pending"
  | GReserved => "reserved"
  | GRunning => "running"
  | GSuccess => "success"
  | GFailed => "failed"
  | GCancelled => "cancelled"
  | GExpired => "expired"
  end.

Definition JobGroupState_from_str (s : string) : JobGroupState :=
  if bool_decide (s = "pending") then GPending
  else if bool_decide (s = "reserved") then GReserved
  else if bool_decide (s = "running") then GRunning
  else if bool_decide (s = "success") then GSuccess
  else if bool_decide (s = "failed") then GFailed
  else if bool_decide (s = "cancelled") then GCancelled
  else if bool_decide (s = "expired") then GExpired
  else GPending.

Definition JobGroupState_is_terminal (s : JobGroupState) : bool :=
  match s with GSuccess | GFailed | GCancelled | GExpired => true | _ => false end.

Record AllocatedResources := {
  ar_cpu : Z;
  ar_memory_mb : Z;
  ar_disk_mb : Z
}.

Definition AllocatedResources_default : AllocatedResources :=
  {| ar_cpu := 0; ar_memory_mb := 0; ar_disk_mb := 0 |}.

Record JobGroup := {
  g_id : Uuid;
  g_repo_id : option Uuid;
  g_branch : option string;
  g_commit_sha : option string;
  g_trigger_source : string;
  g_reserved_worker_id : option string;
  g_state : JobGroupState;
  g_priority : Z;
  g_pr_number : option Z;
  g_idempotency_key : option string;
  g_allocated_resources : AllocatedResources;
  g_reserved_stages : list string;
  g_status_reason : option string;
  g_created_at : timestamp;
  g_updated_at : timestamp;
  g_completed_at : option timestamp;
  g_last_activity_at : timestamp
}.

(** [JobGroup::new]; [id] is the [Uuid::new_v4()] it draws. *)
Definition JobGroup_new (now : timestamp) (id repo_id : Uuid) (branch commit_sha : option string)
    : JobGroup := {|
  g_id := id;
  g_repo_id := Some repo_id;
  g_branch := branch;
  g_commit_sha := commit_sha;
  g_trigger_source := "jenkins";
  g_reserved_worker_id := None;
  g_state := GPending;
  g_priority := 0;
  g_pr_number := None;
  g_idempotency_key := None;
  g_allocated_resources := AllocatedResources_default;
  g_reserved_stages := [];
  g_status_reason := None;
  g_created_at := now;
  g_updated_at := now;
  g_completed_at := None;
  g_last_activity_at := now
|}.

Definition JobGroup_new_with_id (now : timestamp) (id : Uuid) (repo_id : option Uuid)
    (branch commit_sha : option string) (trigger_source : string) : JobGroup := {|
  g_id := id;
  g_repo_id := repo_id;
  g_branch := branch;
  g_commit_sha := commit_sha;
  g_trigger_source := trigger_source;
  g_reserved_worker_id := None;
  g_state := GRunning;
  g_priority := 0;
  g_pr_number := None;
  g_idempotency_key := None;
  g_allocated_resources := AllocatedResources_default;
  g_reserved_stages := [];
  g_status_reason := None;
  g_created_at := now;
  g_updated_at := now;
  g_completed_at := None;
  g_last_activity_at := now
|}.

(** The persisted spelling of a state reads back as the state. *)
Lemma JobState_from_to_string s : JobState_from_str (JobState_to_string s) = s.
Proof. by destruct s. Qed.

Lemma JobGroupState_from_to_string s : JobGroupState_from_str (JobGroupState_to_string s) = s.
Proof. by destruct s. Qed.

Lemma JobState_to_string_inj s t : JobState_to_string s = JobState_to_string t -> s = t.
Proof. intros E. by rewrite <- (JobState_from_to_string s), E, JobState_from_to_string. Qed.
