(* ===== verification/StageModel.v ===== *)
(** * Stage configuration and the messages to workers
    (crates/ci-core/src/models/stage.rs, models/variable.rs,
    proto/orchestrator.proto)

    The rows the handlers read from the database, with the columns they use, and
    the messages exchanged with clients and workers. *)

From Stdlib Require Import ZArith.
From stdpp Require Import gmap strings list.
From S2P Require Import Prelude JobModel.

Record Repo := {
  repo_id : Uuid;
  repo_name : string;
  repo_url : string;
  max_concurrent_builds : Z;
  cancel_superseded : bool;
  global_pre_script : option string;
  global_pre_script_scope : string;
  global_pre_script_lock_enabled : bool;
  global_pre_script_lock_key : option string;
  global_pre_script_lock_timeout_secs : Z;
  global_post_script : option string;
  global_post_script_scope : string;
  global_post_script_lock_enabled : bool;
  global_post_script_lock_key : option string;
  global_post_script_lock_timeout_secs : Z
}.

Record StageConfig := {
  sc_id : Uuid;
  sc_repo_id : Uuid;
  sc_stage_name : string;
  sc_command : option string;
  sc_required_cpu : Z;
  sc_required_memory_mb : Z;
  sc_required_disk_mb : Z;
  sc_max_duration_secs : Z;
  sc_execution_order : Z;
  sc_parallel_group : option string;
  sc_allow_worker_migration : bool;
  sc_job_type : string;
  sc_depends_on : list string;
  sc_required_labels : list string;
  sc_max_retries : Z;
  sc_command_mode : string;
  sc_created_at : timestamp;
  sc_updated_at : timestamp
}.

Record StageScript := {
  ss_script_type : string;
  ss_script_scope : string;
  ss_script : string;
  ss_lock_enabled : bool;
  ss_lock_key : option string;
  ss_lock_timeout_secs : Z
}.

Record PipelineVariable := {
  pv_name : string;
  pv_value : string;
  pv_is_secret : bool
}.

(** [message CancelDirective], [PurgeGroupFilesDirective], [ScriptLockConfig] and
    [JobAssignment] *)
Record CancelDirective := {
  ca_job_id : string;
  ca_reason : string;
  ca_signal : Z
}.

Record PurgeGroupFilesDirective := {
  pg_group_id : string
}.

Record ScriptLockConfig := {
  sl_enabled : bool;
  sl_lock_key : string;
  sl_timeout_secs : Z;
  sl_scope : string
}.

Record JobAssignment := {
  ja_job_id : string;
  ja_command : string;
  ja_job_type : string;
  ja_required_cpu : Z;
  ja_required_memory_mb : Z;
  ja_required_disk_mb : Z;
  ja_isolation_required : bool;
  ja_branch_id : string;
  ja_environment : gmap string string;
  ja_cancel : option CancelDirective;
  ja_job_group_id : string;
  ja_stage_name : string;
  ja_pre_script : string;
  ja_post_script : string;
  ja_max_duration_secs : Z;
  ja_secret_env_keys : list string;
  ja_pre_script_lock : option ScriptLockConfig;
  ja_post_script_lock : option ScriptLockConfig;
  ja_purge_group_files : option PurgeGroupFilesDirective;
  ja_group_created_at : string
}.

(** [storage::DbJob] *)
Record DbJob := {
  dj_id : string;
  dj_job_group_id : Uuid;
  dj_stage_config_id : option Uuid;
  dj_stage_name : string;
  dj_command : string;
  dj_pre_script : option string;
  dj_post_script : option string;
  dj_worker_id : option string;
  dj_state : string;
  dj_exit_code : option Z;
  dj_pre_exit_code : option Z;
  dj_post_exit_code : option Z;
  dj_log_path : option string;
  dj_started_at : option timestamp;
  dj_completed_at : option timestamp;
  dj_retry_count : Z;
  dj_status_reason : option string;
  dj_created_at : timestamp;
  dj_updated_at : timestamp
}.

(** [storage::WorkerRow] *)
Record WorkerRow := {
  wk_worker_id : string;
  wk_hostname : option string;
  wk_total_cpu : option Z;
  wk_total_memory_mb : option Z;
  wk_total_disk_mb : option Z;
  wk_disk_type : option string;
  wk_supported_job_types : option (list string);
  wk_docker_enabled : bool;
  wk_status : string;
  wk_last_heartbeat_at : option timestamp;
  wk_registered_at : timestamp;
  wk_labels : option (list string);
  wk_system_info : option string;
  wk_worker_token_hash : option string;
  wk_registration_token_id : option Uuid;
  wk_approved : bool;
  wk_description : option string;
  wk_priority : Z;
  wk_max_cpu : option Z;
  wk_max_memory_mb : option Z;
  wk_max_disk_mb : option Z;
  wk_max_cpu_percent : option Z;
  wk_max_memory_percent : option Z;
  wk_max_disk_percent : option Z
}.

(** The [tonic::Status] codes in use, with their messages. *)
Inductive Status :=
| failed_precondition (msg : string)
| resource_exhausted (msg : string)
| invalid_argument (msg : string)
| not_found (msg : string)
| already_exists (msg : string)
| permission_denied (msg : string)
| unauthenticated (msg : string)
| internal (msg : string)
| unavailable (msg : string).

(** [Result::unwrap_or] and [unwrap_or_default] *)
Definition unwrap_or {A E : Type} (d : A) (r : result A E) : A := match r with Ok a => a | Err _ => d end.

(** [Some(s).filter(|s| !s.is_empty())] *)
Definition non_empty (s : string) : option string := if bool_decide (s = EmptyString) then None else Some s.
