(* ===== verification/Dag.v ===== *)
(** * The stage dependency graph (crates/ci-controller/src/dag.rs)

    [topo_sort] is Kahn's algorithm on [deps : stage -> stages it depends on].
    The two passes over hash maps (the input map and the in-degree map) visit
    them in the order of the [HashIter] instance. The work-list loop takes fuel,
    one unit per popped stage; [topo_sort] gives it one unit more than there
    are stages and returns [None] if that ran out, which [topo_sort_total]
    excludes. In-degrees ([usize]) are natural numbers; the decrement is
    proved never to reach below zero ([decrement_kids_spec]). *)

From Stdlib Require Import ZArith Lia.
From stdpp Require Import gmap strings list fin_maps sorting relations.
From S2P Require Import Prelude.

(** The in-degree map and the adjacency list under construction. *)
Record dag_build := {
  b_in_degree : gmap string nat;
  b_children : gmap string (list string)
}.

(** [map.entry(k).or_insert(v)] *)
Definition or_insert {V : Type} (k : string) (v : V) (m : gmap string V) : gmap string V :=
  match m !! k with Some _ => m | None => <[k := v]> m end.

(** The body of the inner [for parent in parents]. *)
Definition add_edge (node : string) (b : dag_build) (parent : string) : dag_build :=
  let deg := or_insert parent O (b_in_degree b) in
  let children := <[parent := default [] (b_children b !! parent) ++ [node]]> (b_children b) in
  {| b_in_degree := <[node := S (default O (deg !! node))]> deg; b_children := children |}.

(** The body of the outer [for (node, parents) in deps]. *)
Definition add_node (b : dag_build) (np : string * list string) : dag_build :=
  foldl (add_edge np.1) {| b with b_in_degree := or_insert np.1 O (b_in_degree b) |} np.2.

Definition build_graph (entries : list (string * list string)) : dag_build :=
  foldl add_node {| b_in_degree := ∅; b_children := ∅ |} entries.

Definition undefined_stage_msg (kid : string) : string :=
  ("Stage '" +:+ kid +:+ "' referenced in depends_on but not defined")%string.

(** [for &kid in kids { ... }]: decrement, and enqueue at zero. *)
Fixpoint decrement_kids (kids : list string) (deg : gmap string nat) (queue : list string)
    : result (gmap string nat * list string) string :=
  match kids with
  | [] => Ok (deg, queue)
  | kid :: kids' =>
      match deg !! kid with
      | None => Err (undefined_stage_msg kid)
      | Some d =>
          let d' := pred d in
          decrement_kids kids' (<[kid := d']> deg)
            (if bool_decide (d' = O) then queue ++ [kid] else queue)
      end
  end.

(** [while let Some(node) = queue.pop_front() { ... }] *)
Fixpoint topo_loop (fuel : nat) (children : gmap string (list string))
    (deg : gmap string nat) (queue sorted : list string)
    : option (result (gmap string nat * list string) string) :=
  match queue with
  | [] => Some (Ok (deg, sorted))
  | node :: queue' =>
      match fuel with
      | O => None
      | S fuel' =>
          match decrement_kids (default [] (children !! node)) deg queue' with
          | Err e => Some (Err e)
          | Ok (deg', queue'') => topo_loop fuel' children deg' queue'' (sorted ++ [node])
          end
      end
  end.

Section TopoSort.
Context `{HI : HashIter}.

Definition topo_sort (deps : gmap string (list string)) : option (result (list string) string) :=
  let b := build_graph (hiter deps) in
  let queue := (filter (fun nd => nd.2 = O) (hiter (b_in_degree b))).*1 in
  match topo_loop (S (size (b_in_degree b))) (b_children b) (b_in_degree b) queue [] with
  | None => None
  | Some (Err e) => Some (Err e)
  | Some (Ok (deg, sorted)) =>
      if (length sorted <? size deg)%nat then
        Some (Err (match list_find (fun nd => (0 < nd.2)%nat) (hiter deg) with
                   | Some (_, (n, _)) => n
                   | None => "unknown"
                   end))
      else Some (Ok sorted)
  end.

Definition validate_dag (deps : gmap string (list string)) : option (result unit string) :=
  match topo_sort deps with
  | None => None
  | Some (Ok _) => Some (Ok tt)
  | Some (Err e) => Some (Err e)
  end.
End TopoSort.

(** ** The graph *)

(** [dep_edge deps p n]: stage [n] depends on stage [p]. *)
Definition dep_edge (deps : gmap string (list string)) (p n : string) : Prop :=
  exists ps, deps !! n = Some ps /\ p ∈ ps.

(** A stage of the graph: a key of [deps] or a stage some key depends on. *)
Definition is_stage (deps : gmap string (list string)) (n : string) : Prop :=
  is_Some (deps !! n) \/ exists m, dep_edge deps n m.

Definition cyclic (deps : gmap string (list string)) : Prop := exists n, tc (dep_edge deps) n n.

(** [before l p n]: [p] comes before [n] in [l]. *)
Definition before (l : list string) (p n : string) : Prop :=
  exists l1 l2, l = l1 ++ n :: l2 /\ p ∈ l1.

(** The edges in the order the build pass meets them. *)
Definition edge_list (entries : list (string * list string)) : list (string * string) :=
  entries ≫= fun np => (fun p => (p, np.1)) <$> np.2.

(** Number of edges into [n] whose source is not in [done]. *)
Definition pending (E : list (string * string)) (done : list string) (n : string) : nat :=
  length (filter (fun e => e.2 = n /\ e.1 ∉ done) E).

Definition out_edges (E : list (string * string)) (p : string) : list string :=
  (filter (fun e => e.1 = p) E).*2.

Definition in_nodes (entries : list (string * list string)) (n : string) : Prop :=
  exists np, np ∈ entries /\ (n = np.1 \/ n ∈ np.2).

(** ** The build pass *)

Record built (b : dag_build) (N : string -> Prop) (E : list (string * string)) : Prop := {
  bt_deg : forall n d, b_in_degree b !! n = Some d <-> N n /\ d = pending E [] n;
  bt_kids : forall p, default [] (b_children b !! p) = out_edges E p;
  bt_ends : forall p m, (p, m) ∈ E -> N p /\ N m
}.

Lemma pending_nil_app E1 E2 n : pending (E1 ++ E2) [] n = (pending E1 [] n + pending E2 [] n)%nat.
Proof. unfold pending. by rewrite filter_app, length_app. Qed.

Lemma pending_one p m n : pending [(p, m)] [] n = if decide (m = n) then 1%nat else O.
Proof.
  unfold pending. rewrite filter_cons, filter_nil. simpl.
  case_decide as H; destruct (decide (m = n)); simpl; try done; exfalso;
    [tauto | apply H; split; [done | apply not_elem_of_nil]].
Qed.

Lemma out_edges_one p m q : out_edges [(p, m)] q = if decide (p = q) then [m] else [].
Proof. unfold out_edges. rewrite filter_cons, filter_nil. simpl. by case_decide. Qed.

Lemma out_edges_app E1 E2 q : out_edges (E1 ++ E2) q = out_edges E1 q ++ out_edges E2 q.
Proof. unfold out_edges. by rewrite filter_app, fmap_app. Qed.

Lemma pending_zero E n : (forall p, (p, n) ∉ E) -> pending E [] n = O.
Proof.
  intros H. unfold pending.
  destruct (filter _ E) as [|e l] eqn:F; [done|].
  assert (He : e ∈ filter (fun e => e.2 = n /\ e.1 ∉ []) E) by (rewrite F; left).
  apply list_elem_of_filter in He as [[He _] Hin]. destruct e as [p m]; simpl in *; subst.
  by destruct (H p).
Qed.

Lemma built_iff b N N' E : (forall n, N n <-> N' n) -> built b N E -> built b N' E.
Proof.
  intros HN [Hd Hk He]. constructor; [|done|].
  - intros n d. by rewrite <- HN.
  - intros p m Hin. rewrite <- !HN. by apply He.
Qed.

Lemma built_or_insert b N E n :
  built b N E ->
  built {| b with b_in_degree := or_insert n O (b_in_degree b) |} (fun m => N m \/ m = n) E.
Proof.
  intros [Hd Hk He]. constructor; [|done|]; simpl.
  - intros m d. unfold or_insert. destruct (b_in_degree b !! n) as [d0|] eqn:En.
    + rewrite Hd. apply Hd in En as [Hn _]. naive_solver.
    + assert (HnN : ~ N n) by (intros H; rewrite (proj2 (Hd n _) (conj H eq_refl)) in En; done).
      rewrite lookup_insert. case_decide; subst.
      * rewrite pending_zero by (intros p Hp; by apply He in Hp as [_ ?]). naive_solver.
      * rewrite Hd. naive_solver.
  - intros p m Hin. destruct (He p m Hin). tauto.
Qed.

Lemma built_add_edge b N E node p :
  built b N E -> N node ->
  built (add_edge node b p) (fun m => N m \/ m = p) (E ++ [(p, node)]).
Proof.
  intros Hb Hn. pose proof (built_or_insert b N E p Hb) as [Hd _ _]. destruct Hb as [_ Hk He].
  simpl in Hd. unfold add_edge. constructor; simpl.
  - intros m d. rewrite pending_nil_app, pending_one.
    rewrite (proj2 (Hd node _) (conj (or_introl Hn) eq_refl)). simpl.
    rewrite lookup_insert. case_decide; subst.
    + rewrite Nat.add_1_r. naive_solver.
    + rewrite Hd, Nat.add_0_r. done.
  - intros q. rewrite out_edges_app, out_edges_one, lookup_insert.
    case_decide; subst; simpl; rewrite Hk; [done | by rewrite app_nil_r].
  - intros q m. rewrite elem_of_app, list_elem_of_singleton. intros [Hin|[= -> ->]]; [|tauto].
    destruct (He q m Hin). tauto.
Qed.

Lemma built_add_edges b N E node ps :
  built b N E -> N node ->
  built (foldl (add_edge node) b ps) (fun m => N m \/ m ∈ ps) (E ++ ((fun p => (p, node)) <$> ps)).
Proof.
  revert b N E. induction ps as [|p ps IH]; intros b N E Hb Hn; simpl.
  - rewrite app_nil_r. eapply built_iff, Hb. set_solver.
  - rewrite cons_middle, app_assoc.
    eapply built_iff, IH; [|by apply built_add_edge|by left]. set_solver.
Qed.

Lemma built_foldl es b N E :
  built b N E ->
  built (foldl add_node b es) (fun m => N m \/ in_nodes es m) (E ++ edge_list es).
Proof.
  revert b N E. induction es as [|np es IH]; intros b N E Hb; simpl.
  - rewrite app_nil_r. eapply built_iff, Hb. unfold in_nodes. set_solver.
  - change (edge_list (np :: es)) with (((fun p => (p, np.1)) <$> np.2) ++ edge_list es).
    rewrite app_assoc. eapply built_iff, IH.
    2: { apply built_add_edges; [by apply built_or_insert | by right]. }
    intros m. unfold in_nodes. setoid_rewrite elem_of_cons. naive_solver.
Qed.

Lemma build_graph_built es : built (build_graph es) (in_nodes es) (edge_list es).
Proof.
  eapply built_iff; [|apply (built_foldl es _ (fun _ => False) [])]; [naive_solver|].
  constructor; simpl; set_solver.
Qed.

Lemma elem_of_edge_list es p n : (p, n) ∈ edge_list es <-> exists ps, (n, ps) ∈ es /\ p ∈ ps.
Proof.
  unfold edge_list. rewrite list_elem_of_bind. split.
  - intros ([n' ps] & Hin & Hes). apply list_elem_of_fmap in Hin as (p' & [= -> ->] & ?). eauto.
  - intros (ps & Hes & Hp). exists (n, ps). split; [|done]. apply list_elem_of_fmap. eauto.
Qed.

(** ** The work-list loop *)

Definition count (n : string) (l : list string) : nat := length (filter (fun m => m = n) l).

Lemma count_cons n m l : count n (m :: l) = ((if decide (m = n) then 1 else 0) + count n l)%nat.
Proof. unfold count. rewrite filter_cons. by destruct (decide (m = n)). Qed.

(** Marking [x] as done removes from the pending edges those that leave [x]. *)
Lemma pending_step E sorted x n :
  x ∉ sorted ->
  pending E sorted n = (pending E (sorted ++ [x]) n + count n (out_edges E x))%nat.
Proof.
  intros Hx. induction E as [|[p m] E IH]; [done|].
  unfold pending, out_edges in *. rewrite !filter_cons. simpl.
  destruct (decide (p = x)) as [->|Hpx].
  - rewrite fmap_cons, count_cons. simpl.
    rewrite (decide_False (P := m = n /\ x ∉ sorted ++ [x])) by set_solver.
    destruct (decide (m = n)) as [->|Hmn].
    + rewrite decide_True by done. simpl. lia.
    + rewrite decide_False by tauto. done.
  - assert (Hiff : m = n /\ p ∉ sorted ++ [x] <-> m = n /\ p ∉ sorted) by set_solver.
    rewrite (decide_ext _ _ _ _ Hiff). case_decide; simpl; lia.
Qed.

Lemma pending_zero_done E done p n : pending E done n = O -> (p, n) ∈ E -> p ∈ done.
Proof.
  intros Hz Hin. destruct (decide (p ∈ done)) as [|Hp]; [done|].
  apply length_zero_iff_nil in Hz.
  assert (Hf : (p, n) ∈ filter (fun e => e.2 = n /\ e.1 ∉ done) E).
  { apply list_elem_of_filter. by repeat split. }
  rewrite Hz in Hf. by apply elem_of_nil in Hf.
Qed.

(** The state between two stages ([ks] empty) or while the kids [ks] of the
    last stage of [done] are still to be decremented. *)
Record loop_inv (N : string -> Prop) (E : list (string * string))
    (deg : gmap string nat) (queue dn ks : list string) : Prop := {
  li_deg : forall n d, deg !! n = Some d <-> N n /\ d = (pending E dn n + count n ks)%nat;
  li_nodup : NoDup (dn ++ queue);
  li_zero : forall n, n ∈ dn ++ queue <-> N n /\ (pending E dn n + count n ks = 0)%nat;
  li_kids : forall k, k ∈ ks -> N k
}.

Lemma decrement_kids_spec N E dn ks : forall deg queue,
  loop_inv N E deg queue dn ks ->
  exists deg' queue', decrement_kids ks deg queue = Ok (deg', queue') /\ loop_inv N E deg' queue' dn [].
Proof.
  induction ks as [|k ks IH]; intros deg queue [Hd Hnd Hz Hk]; simpl;
    [exists deg, queue; by split|].
  pose proof (proj2 (Hd k _) (conj (Hk k (list_elem_of_here _ _)) eq_refl)) as Hdk.
  rewrite Hdk. rewrite count_cons, decide_True by done.
  replace (pred (pending E dn k + (1 + count k ks))) with (pending E dn k + count k ks)%nat by lia.
  assert (Hkq : k ∉ dn ++ queue).
  { rewrite Hz, count_cons, decide_True by done. lia. }
  assert (HNk : N k) by (apply Hk; left).
  apply IH. constructor.
  - intros n d. rewrite lookup_insert. case_decide; subst; [naive_solver|].
    rewrite Hd, count_cons, decide_False by done. done.
  - case_bool_decide; [|done]. rewrite app_assoc. apply NoDup_app. split_and!; [done| |apply NoDup_singleton].
    intros n Hn ->%list_elem_of_singleton. done.
  - intros n. destruct (decide (n = k)) as [->|Hne].
    + case_bool_decide as Hc; [|naive_solver].
      split; [done|]. intros _. set_solver.
    + specialize (Hz n). rewrite count_cons, decide_False in Hz by done.
      case_bool_decide; [|done]. rewrite app_assoc, elem_of_app, Hz, list_elem_of_singleton. naive_solver.
  - intros k' Hk'. apply Hk. by right.
Qed.

Definition ordered (E : list (string * string)) (l : list string) : Prop :=
  forall p n, (p, n) ∈ E -> n ∈ l -> before l p n.

Lemma before_app l l' p n : before l p n -> before (l ++ l') p n.
Proof. intros (l1 & l2 & -> & Hp). exists l1, (l2 ++ l'). by rewrite <- app_assoc. Qed.

Lemma loop_inv_pop N E deg x queue dn :
  (forall p m, (p, m) ∈ E -> N p /\ N m) ->
  loop_inv N E deg (x :: queue) dn [] ->
  loop_inv N E deg queue (dn ++ [x]) (out_edges E x).
Proof.
  intros He [Hd Hnd Hz _].
  assert (Hx : x ∉ dn).
  { apply NoDup_app in Hnd as (_ & Hdisj & _). intros Hin. apply (Hdisj x Hin). left. }
  pose proof (fun n => pending_step E dn x n Hx) as Hp.
  constructor.
  - intros n d. rewrite Hd, Hp. unfold count at 2. rewrite filter_nil. simpl. by rewrite Nat.add_0_r.
  - by rewrite <- app_assoc.
  - intros n. rewrite <- app_assoc. simpl. rewrite Hz, Hp. unfold count at 2. rewrite filter_nil. simpl.
    by rewrite Nat.add_0_r.
  - intros k Hk. unfold out_edges in Hk. apply list_elem_of_fmap in Hk as ([p m] & -> & Hf).
    apply list_elem_of_filter in Hf as [_ Hin]. by apply He in Hin as [_ ?].
Qed.

Lemma ordered_snoc E dn x : ordered E dn -> pending E dn x = O -> ordered E (dn ++ [x]).
Proof.
  intros Ho Hz p n Hin. rewrite elem_of_app, list_elem_of_singleton. intros [Hn|Heq]; [|subst n].
  - by apply before_app, Ho.
  - exists dn, []. split; [done|]. by eapply pending_zero_done.
Qed.

(** With one unit of fuel per stage not yet output, the loop ends without
    error, having output stages in dependency order. *)
Lemma topo_loop_spec (N : gset string) E children : forall fuel deg queue dn,
  (forall p m, (p, m) ∈ E -> p ∈ N /\ m ∈ N) ->
  (forall p, default [] (children !! p) = out_edges E p) ->
  loop_inv (.∈ N) E deg queue dn [] -> ordered E dn ->
  (size N < fuel + length dn)%nat ->
  exists deg' l, topo_loop fuel children deg queue dn = Some (Ok (deg', l)) /\
    loop_inv (.∈ N) E deg' [] l [] /\ ordered E l.
Proof.
  induction fuel as [|fuel IH]; intros deg queue dn He Hk Hi Ho Hf.
  - destruct Hi as [_ Hnd Hz _].
    assert (Hle : (length (dn ++ queue) <= size N)%nat).
    { apply (submseteq_length _ (elements N)), NoDup_submseteq; [done|].
      intros n [Hn _]%Hz. by apply elem_of_elements. }
    rewrite length_app in Hle. lia.
  - destruct queue as [|x queue]; [exists deg, dn; split; [reflexivity|by split]|]. simpl.
    assert (Hx : pending E dn x = O).
    { destruct Hi as [_ _ Hz _]. destruct (proj1 (Hz x)) as [_ H]; [set_solver|]. lia. }
    destruct (decrement_kids_spec _ _ _ _ _ _ (loop_inv_pop _ _ _ _ _ _ He Hi)) as (deg' & queue' & Hdk & Hi').
    rewrite Hk, Hdk. apply IH; try done; [by apply ordered_snoc|].
    rewrite length_app. simpl. lia.
Qed.

(** ** The result of [topo_sort] *)

Section TopoSortFacts.
Context `{HI : HashIter}.
Implicit Types deps : gmap string (list string).

Lemma elem_of_deps_edges deps p n : (p, n) ∈ edge_list (hiter deps) <-> dep_edge deps p n.
Proof.
  rewrite elem_of_edge_list. unfold dep_edge. by setoid_rewrite elem_of_hiter.
Qed.

Lemma in_nodes_stage deps n : in_nodes (hiter deps) n <-> is_stage deps n.
Proof.
  unfold in_nodes, is_stage, dep_edge. split.
  - intros ([m ps] & Hin & [->|Hn]); apply elem_of_hiter in Hin; simpl in *; [left|right]; eauto.
  - intros [[ps Hps]|(m & ps & Hps & Hn)].
    + exists (n, ps). rewrite elem_of_hiter. auto.
    + exists (m, ps). rewrite elem_of_hiter. auto.
Qed.

(** What the loop leaves behind, for the graph of [deps]. *)
Record loop_result deps (deg : gmap string nat) (l : list string) : Prop := {
  lr_size : size deg = size (b_in_degree (build_graph (hiter deps)));
  lr_deg : forall n d, deg !! n = Some d <-> is_stage deps n /\ d = pending (edge_list (hiter deps)) l n;
  lr_nodup : NoDup l;
  lr_zero : forall n, n ∈ l <-> is_stage deps n /\ pending (edge_list (hiter deps)) l n = O;
  lr_ord : ordered (edge_list (hiter deps)) l
}.

Lemma topo_loop_result deps :
  let b := build_graph (hiter deps) in
  exists deg l,
    topo_loop (S (size (b_in_degree b))) (b_children b) (b_in_degree b)
      (filter (fun nd => nd.2 = O) (hiter (b_in_degree b))).*1 [] = Some (Ok (deg, l)) /\
    loop_result deps deg l.
Proof.
  intros b. set (E := edge_list (hiter deps)). pose proof (build_graph_built (hiter deps)) as [Hd Hk He].
  fold b in Hd, Hk. fold E in Hd, Hk, He.
  assert (HN : forall n, n ∈ dom (b_in_degree b) <-> in_nodes (hiter deps) n).
  { intros n. rewrite elem_of_dom. unfold is_Some. setoid_rewrite Hd. naive_solver. }
  assert (Hq : loop_inv (.∈ dom (b_in_degree b)) E (b_in_degree b)
                 (filter (fun nd => nd.2 = O) (hiter (b_in_degree b))).*1 [] []).
  { constructor; simpl; [..|set_solver].
    - intros n d. rewrite Hd, HN, Nat.add_0_r. done.
    - eapply sublist_NoDup; [apply (NoDup_hkeys (b_in_degree b)) | apply fmap_sublist, sublist_filter].
    - intros n. rewrite HN, Nat.add_0_r, list_elem_of_fmap. setoid_rewrite list_elem_of_filter. split.
      + intros ([m d] & -> & Hz & Hin). apply elem_of_hiter, Hd in Hin as [? ->]. done.
      + intros [Hn Hz]. exists (n, O). rewrite elem_of_hiter, Hd. auto. }
  destruct (topo_loop_spec (dom (b_in_degree b)) E (b_children b) (S (size (b_in_degree b))) _ _ _
    (fun p m H => conj (proj2 (HN p) (proj1 (He p m H))) (proj2 (HN m) (proj2 (He p m H)))) Hk Hq)
    as (deg & l & Hl & [Hd' Hnd Hz _] & Ho).
  { by intros p n _ Hn%elem_of_nil. }
  { rewrite size_dom. simpl. lia. }
  exists deg, l. split; [done|]. rewrite app_nil_r in Hnd.
  setoid_rewrite app_nil_r in Hz. setoid_rewrite Nat.add_0_r in Hz. setoid_rewrite Nat.add_0_r in Hd'.
  constructor; try done.
  - rewrite <- !size_dom. f_equal. apply set_eq. intros n. rewrite (elem_of_dom deg).
    unfold is_Some. setoid_rewrite Hd'. naive_solver.
  - intros n d. by rewrite Hd', HN, in_nodes_stage.
  - intros n. by rewrite Hz, HN, in_nodes_stage.
Qed.
End TopoSortFacts.

(** ** Order and cycles *)

Lemma before_lookup l p n :
  before l p n <-> exists i j, (i < j)%nat /\ l !! i = Some p /\ l !! j = Some n.
Proof.
  split.
  - intros (l1 & l2 & -> & Hp). apply list_elem_of_lookup in Hp as [i Hi].
    exists i, (length l1). pose proof (lookup_lt_Some _ _ _ Hi). split_and!; [done| |].
    + by apply lookup_app_l_Some.
    + by rewrite list_lookup_middle.
  - intros (i & j & Hij & Hi & Hj). exists (take j l), (drop (S j) l). split.
    + by rewrite take_drop_middle.
    + apply list_elem_of_lookup. exists i. by rewrite lookup_take_lt.
Qed.

Lemma before_trans l p n m : NoDup l -> before l p n -> before l n m -> before l p m.
Proof.
  rewrite !before_lookup. intros Hnd (i & j & ? & Hi & Hj) (j' & k & ? & Hj' & Hk).
  assert (j = j') as <- by (by eapply NoDup_lookup). exists i, k. split_and!; [lia|done..].
Qed.

Lemma before_irrefl l n : NoDup l -> ~ before l n n.
Proof.
  rewrite before_lookup. intros Hnd (i & j & ? & Hi & Hj).
  assert (i = j) by (by eapply NoDup_lookup). lia.
Qed.

Lemma ordered_acyclic deps l :
  NoDup l -> (forall p n, dep_edge deps p n -> before l p n) -> ~ cyclic deps.
Proof.
  intros Hnd Ho [n Hn]. apply (before_irrefl l n Hnd).
  assert (forall x y, tc (dep_edge deps) x y -> before l x y) as H; [|by apply H].
  intros x y. induction 1 as [x y Hxy|x y z Hxy _ IH]; [by apply Ho|].
  by eapply before_trans; [|apply Ho|].
Qed.

(** A finite non-empty set in which every element has a predecessor lies
    downstream of a cycle. *)
Lemma pred_closed_cycle (R : gset string) (edge : string -> string -> Prop) n :
  n ∈ R -> (forall x, x ∈ R -> exists p, p ∈ R /\ edge p x) ->
  exists c, tc edge c c /\ rtc edge c n.
Proof.
  intros Hn Hpred.
  assert (forall k V x, (size (R ∖ V) <= k)%nat -> x ∈ R -> x ∉ V ->
            (forall v, v ∈ V -> tc edge x v) -> rtc edge x n ->
            exists c, tc edge c c /\ rtc edge c n) as Hwalk.
  { induction k as [|k IH]; intros V x Hk Hx HxV HV Hxn.
    - assert (R ∖ V ≡ ∅) by (apply size_empty_iff; lia). set_solver.
    - destruct (Hpred x Hx) as (p & Hp & Hpx).
      destruct (decide (p = x)) as [->|Hne]; [by exists x; split; [constructor|]|].
      destruct (decide (p ∈ V)) as [HpV|HpV].
      { exists p. split; [|by econstructor]. eapply tc_l; [done|]. by apply HV. }
      apply (IH ({[x]} ∪ V) p); [|done|set_solver| |by econstructor].
      + enough (size (R ∖ ({[x]} ∪ V)) < size (R ∖ V))%nat by lia.
        apply subset_size. split; [set_solver|]. intros Hsub.
        assert (Hin : x ∈ R ∖ V) by (by apply elem_of_difference).
        apply Hsub, elem_of_difference in Hin as [_ Hin]. apply Hin, elem_of_union_l. by apply elem_of_singleton.
      + intros v [->%elem_of_singleton|Hv]%elem_of_union; [by constructor|].
        eapply tc_l; [done|]. by apply HV. }
  apply (Hwalk (size R) ∅ n); [|done|set_solver..|done].
  apply subseteq_size. set_solver.
Qed.

Section TopoSortTheorems.
Context `{HI : HashIter}.
Implicit Types deps : gmap string (list string).

Lemma loop_result_stuck deps deg l n :
  loop_result deps deg l -> is_stage deps n -> n ∉ l ->
  exists c, tc (dep_edge deps) c c /\ rtc (dep_edge deps) c n.
Proof.
  intros [_ Hd _ Hz _] Hn Hnl.
  apply (pred_closed_cycle (dom deg ∖ list_to_set l)).
  { apply elem_of_difference. rewrite elem_of_list_to_set. split; [|done].
    apply elem_of_dom. rewrite (proj2 (Hd n _) (conj Hn eq_refl)). eauto. }
  intros x [[d Hx]%elem_of_dom Hxl]%elem_of_difference. rewrite elem_of_list_to_set in Hxl.
  apply Hd in Hx as [Hx ->].
  destruct (pending (edge_list (hiter deps)) l x) eqn:Hp; [by destruct Hxl; apply Hz|].
  unfold pending in Hp. destruct (filter _ _) as [|[p m] E'] eqn:Hf; [done|].
  assert (Hin : (p, m) ∈ filter (fun e => e.2 = x /\ e.1 ∉ l) (edge_list (hiter deps))) by (rewrite Hf; left).
  apply list_elem_of_filter in Hin as [[Hm Hpl] Hin]. simpl in Hm, Hpl. subst m.
  apply elem_of_deps_edges in Hin. exists p. split; [|done].
  apply elem_of_difference. rewrite elem_of_list_to_set. split; [|done].
  apply elem_of_dom. assert (Hps : is_stage deps p) by (right; eauto).
  rewrite (proj2 (Hd p _) (conj Hps eq_refl)). eauto.
Qed.

(** The three ways out of [topo_sort], of which the first two occur. *)
Lemma topo_sort_cases deps :
  (exists l, topo_sort deps = Some (Ok l) /\ NoDup l /\ (forall n, n ∈ l <-> is_stage deps n) /\
     (forall p n, dep_edge deps p n -> before l p n)) \/
  (exists n c, topo_sort deps = Some (Err n) /\ is_stage deps n /\
     tc (dep_edge deps) c c /\ rtc (dep_edge deps) c n).
Proof.
  destruct (topo_loop_result deps) as (deg & l & Hl & Hr). pose proof Hr as [Hs Hd Hnd Hz Ho].
  assert (Hdom : forall n, n ∈ dom deg <-> is_stage deps n).
  { intros n. rewrite elem_of_dom. unfold is_Some. setoid_rewrite Hd. naive_solver. }
  assert (Hsub : l ⊆+ elements (dom deg)).
  { apply NoDup_submseteq; [done|]. intros n [Hn _]%Hz. by apply elem_of_elements, Hdom. }
  unfold topo_sort. cbv zeta. rewrite Hl.
  destruct (Nat.ltb_spec (length l) (size deg)) as [Hlt|Hge].
  - right.
    destruct (list_find (fun nd => (0 < nd.2)%nat) (hiter deg)) as [[i [n d]]|] eqn:Hf.
    + apply list_find_Some in Hf as (Hi & Hpos & _). apply list_elem_of_lookup_2, elem_of_hiter, Hd in Hi.
      destruct Hi as [Hn ->]. simpl in Hpos.
      destruct (loop_result_stuck deps deg l n Hr Hn) as (c & Hc & Hcn); [|by exists n, c].
      intros [_ Hz']%Hz. lia.
    + exfalso. apply list_find_None in Hf. rewrite Forall_forall in Hf.
      assert (elements (dom deg) ⊆+ l) as Hlen%submseteq_length.
      { apply NoDup_submseteq; [apply NoDup_elements|].
        intros n [d Hn]%elem_of_elements%elem_of_dom. pose proof Hn as Hin.
        apply elem_of_hiter, Hf in Hin. simpl in Hin. apply Hz.
        apply Hd in Hn as [? ->]. split; [done|lia]. }
      rewrite <- size_dom in Hlt. unfold size, set_size in Hlt. simpl in Hlt. lia.
  - left. exists l. split; [done|]. split; [done|].
    assert (Hall : forall n, n ∈ l <-> is_stage deps n).
    { intros n. split; [by intros [? _]%Hz|]. intros Hn%Hdom%elem_of_elements.
      assert (elements (dom deg) ≡ₚ l) as Hp; [|by rewrite <- Hp].
      symmetry. apply submseteq_length_Permutation; [done|].
      rewrite <- size_dom in Hge. unfold size, set_size in Hge. simpl in Hge. lia. }
    split; [done|]. intros p n Hpn. apply Ho; [by apply elem_of_deps_edges|].
    apply Hall. left. destruct Hpn as (ps & Hps & _). eauto.
Qed.
End TopoSortTheorems.

(** On every stage graph [topo_sort] ends, and when it returns an order,
    that order lists every stage exactly once, each stage after all the stages
    it depends on. *)
Theorem topo_sort_sound `{HI : HashIter} (deps : gmap string (list string)) (l : list string) :
  topo_sort deps = Some (Ok l) ->
  NoDup l /\ (forall n, n ∈ l <-> is_stage deps n) /\ (forall p n, dep_edge deps p n -> before l p n).
Proof.
  intros E. destruct (topo_sort_cases deps) as [(l' & E' & H)|(n & c & E' & _)]; [|congruence].
  by assert (l' = l) as -> by congruence.
Qed.

Definition sample_deps : gmap string (list string) :=
  {[ "test" := ["build"]; "deploy" := ["test"; "lint"]; "lint" := [] ]}.

Lemma topo_sort_sound_witness :
  let _ := map_iter in
  exists l, topo_sort sample_deps = Some (Ok l) /\ before l "build" "test".
Proof.
  intros HI. eexists. split; [vm_compute; reflexivity|].
  apply (topo_sort_sound (HI := HI) sample_deps _ eq_refl).
  exists ["build"]. split; [reflexivity | by left].
Defined.

(** C6. [topo_sort] (and [validate_dag]) decides acyclicity: whatever the
    iteration order of the hash maps, it returns an order exactly when no stage
    depends, directly or through others, on itself; otherwise it returns a
    stage of the graph that lies on a cycle or downstream of one. It never
    runs out of steps and never reports an undefined stage. *)
Theorem topo_sort_decides_acyclic `{HI : HashIter} (deps : gmap string (list string)) :
  ((exists l, topo_sort deps = Some (Ok l)) <-> ~ cyclic deps) /\
  (validate_dag deps = Some (Ok tt) <-> ~ cyclic deps) /\
  (cyclic deps -> exists n c, topo_sort deps = Some (Err n) /\ validate_dag deps = Some (Err n) /\
     is_stage deps n /\ tc (dep_edge deps) c c /\ rtc (dep_edge deps) c n).
Proof.
  unfold validate_dag.
  destruct (topo_sort_cases deps) as [(l & E & Hnd & _ & Ho)|(n & c & E & Hn & Hc & Hcn)]; rewrite E.
  - pose proof (ordered_acyclic deps l Hnd Ho). naive_solver.
  - assert (cyclic deps) by (by exists c). naive_solver.
Qed.

(** Stages [a] and [b] depend on each other; [c] depends on [b]. *)
Definition downstream_deps : gmap string (list string) :=
  {[ "a" := ["b"]; "b" := ["a"]; "c" := ["b"] ]}.

Lemma downstream_no_successor x : ~ dep_edge downstream_deps "c" x.
Proof.
  intros (ps & Hps & Hin). unfold downstream_deps in Hps.
  repeat (apply lookup_insert_Some in Hps as [[_ <-]|[_ Hps]]; [by apply list_elem_of_singleton in Hin|]).
  apply lookup_singleton_Some in Hps as [_ <-]. by apply list_elem_of_singleton in Hin.
Qed.

(** The stage named in the error ("Stage dependency cycle detected
    involving ...") need not be on a cycle: for stages [a] and [b] that depend
    on each other and a third, [c], that depends on [b], an iteration order of
    the hash map reports [c], on which nothing depends. *)
Theorem topo_sort_error_off_cycle :
  exists HI : HashIter, topo_sort downstream_deps = Some (Err "c") /\
    ~ tc (dep_edge downstream_deps) "c" "c".
Proof.
  exists map_iter. split; [vm_compute; reflexivity|].
  intros Hc. inversion Hc; subst; by eapply downstream_no_successor.
Qed.
