(* ===== verification/Scheduler.v ===== *)
(** * Worker selection (crates/ci-controller/src/scheduler.rs)

    The [Scheduler] trait is a type class; [BestFitScheduler] is its instance.
    The eligibility filter, the comparator of the sort, the NVMe preference and
    the branch affinity follow [select_worker]. [sort_by] is the stable sort of
    the prelude; Rust leaves the order unspecified (and may panic) when the
    comparator is not a total order, which here happens only for a NaN load, so
    the theorem on the choice assumes that no load is NaN. *)

From Stdlib Require Import ZArith Lia.
From stdpp Require Import strings list sorting.
From S2P Require Import Prelude F64 WorkerModel JobModel.

(** The trait: one operation. *)
Class Scheduler (S : Type) :=
  select_worker : S -> Job -> list WorkerState -> option WorkerState.

Record BestFitScheduler := {
  nvme_preference : bool;
  branch_affinity : bool
}.

(** The CPU test: [total_cpu as f64 * (1.0 - used_cpu_percent / 100.0) >=
    required_cpu as f64]. *)
Definition cpu_ok (job : Job) (w : WorkerState) : bool :=
  if j_required_cpu job =? 0 then true
  else
    match ws_last_heartbeat w with
    | Some hb =>
        let available_cpu :=
          F64.mul (F64.of_Z (wi_total_cpu (ws_info w)))
            (F64.sub (F64.of_Z 1) (F64.div (hb_used_cpu_percent hb) (F64.of_Z 100))) in
        F64.ge available_cpu (F64.of_Z (j_required_cpu job))
    | None => true
    end.

Definition eligible (job : Job) (w : WorkerState) : bool :=
  let mem_ok := j_required_memory_mb job <=? free_memory_mb w in
  let disk_ok := j_required_disk_mb job <=? free_disk_mb w in
  let type_ok := bool_decide (JobType_to_string (j_job_type job) ∈ wi_supported_job_types (ws_info w)) in
  let labels_ok := forallb (fun lbl => bool_decide (lbl ∈ wi_labels (ws_info w))) (j_required_labels job) in
  mem_ok && disk_ok && cpu_ok job w && type_ok && labels_ok.

Definition system_load_of (w : WorkerState) : f64 :=
  match ws_last_heartbeat w with Some hb => hb_system_load hb | None => F64.of_Z 0 end.

(** [Ordering::then_with] *)
Definition then_with (c d : comparison) : comparison := match c with Eq => d | _ => c end.

Definition fit_cmp (a b : WorkerState) : comparison :=
  then_with (default Eq (F64.partial_cmp (system_load_of a) (system_load_of b)))
            (free_memory_mb b ?= free_memory_mb a).

Definition is_nvme (w : WorkerState) : bool := bool_decide (wi_disk_type (ws_info w) = Nvme).

Definition has_running_jobs (w : WorkerState) : bool :=
  match ws_last_heartbeat w with
  | Some hb => match hb_running_job_ids hb with [] => false | _ => true end
  | None => false
  end.

(** [Vec::swap(0, pos)] *)
Definition swap0 {A : Type} (pos : nat) (l : list A) : list A :=
  match l !! O, l !! pos with
  | Some a, Some b => <[pos := a]> (<[O := b]> l)
  | _, _ => l
  end.

Definition affinity_applies (s : BestFitScheduler) (job : Job) : bool :=
  branch_affinity s &&
  match j_branch_id job with
  | Some b => negb (bool_decide (b = ""))
  | None => false
  end.

(** Branch affinity: the first candidate that already runs jobs is swapped to
    the front; then the first candidate is taken. *)
Definition affinity_first (s : BestFitScheduler) (job : Job) (candidates : list WorkerState)
    : option WorkerState :=
  head (if affinity_applies s job then
          match list_find (fun w => has_running_jobs w = true) candidates with
          | Some (pos, _) => swap0 pos candidates
          | None => candidates
          end
        else candidates).

Definition best_fit_select (s : BestFitScheduler) (job : Job) (workers : list WorkerState)
    : option WorkerState :=
  match List.filter (eligible job) workers with
  | [] => None
  | candidates0 =>
      let candidates := sort_by fit_cmp candidates0 in
      if nvme_preference s && bool_decide (j_job_type job = JTNix) then
        match list_find (fun w => is_nvme w = true) candidates with
        | Some (_, nvme) => Some nvme
        | None => affinity_first s job candidates
        end
      else affinity_first s job candidates
  end.

#[export] Instance BestFit_scheduler : Scheduler BestFitScheduler := best_fit_select.

(** ** The comparator *)

Definition load_ok (w : WorkerState) : Prop := F64.is_nan (system_load_of w) = false.

Definition fit_key_le (a b : WorkerState) : Prop :=
  match F64.key_cmp (F64.key (system_load_of a)) (F64.key (system_load_of b)) with
  | Lt => True
  | Eq => free_memory_mb b <= free_memory_mb a
  | Gt => False
  end.

(** [a] is at least as good a fit as [b]: a lower load, or the same load and at
    least as much free memory. *)
Lemma fit_cmp_le a b : load_ok a -> load_ok b -> cmp_le fit_cmp a b <-> fit_key_le a b.
Proof.
  unfold load_ok, cmp_le, fit_cmp, fit_key_le. intros Ha Hb.
  rewrite F64.partial_cmp_key by done. simpl.
  destruct (F64.key_cmp _ _); simpl; [|done..].
  destruct (Z.compare_spec (free_memory_mb b) (free_memory_mb a)); split; intros; try lia; done.
Qed.

Lemma fit_key_le_lex a b :
  fit_key_le a b <->
  let '(c1, e1, m1) := F64.key (system_load_of a) in
  let '(c2, e2, m2) := F64.key (system_load_of b) in
  c1 < c2 \/ (c1 = c2 /\ (e1 < e2 \/ (e1 = e2 /\ (m1 < m2 \/
    (m1 = m2 /\ free_memory_mb b <= free_memory_mb a))))).
Proof.
  unfold fit_key_le. destruct (F64.key (system_load_of a)) as [[c1 e1] m1],
    (F64.key (system_load_of b)) as [[c2 e2] m2]; simpl.
  destruct (Z.compare_spec c1 c2), (Z.compare_spec e1 e2), (Z.compare_spec m1 m2); lia.
Qed.

Lemma fit_key_le_total a b : fit_key_le a b \/ fit_key_le b a.
Proof.
  rewrite !fit_key_le_lex. destruct (F64.key (system_load_of a)) as [[c1 e1] m1],
    (F64.key (system_load_of b)) as [[c2 e2] m2]. lia.
Qed.

Lemma fit_key_le_trans a b c : fit_key_le a b -> fit_key_le b c -> fit_key_le a c.
Proof.
  rewrite !fit_key_le_lex. destruct (F64.key (system_load_of a)) as [[c1 e1] m1],
    (F64.key (system_load_of b)) as [[c2 e2] m2], (F64.key (system_load_of c)) as [[c3 e3] m3]. lia.
Qed.

Lemma fit_cmp_total l : (forall w, w ∈ l -> load_ok w) -> cmp_total_on fit_cmp l.
Proof.
  intros Hl. split.
  - intros x y Hx Hy. rewrite !fit_cmp_le by auto. apply fit_key_le_total.
  - intros x y z Hx Hy Hz. rewrite !fit_cmp_le by auto. apply fit_key_le_trans.
Qed.

(** ** Selection *)

Lemma sorted_lookup {A : Type} (R : A -> A -> Prop) l i j x y :
  StronglySorted R l -> (i < j)%nat -> l !! i = Some x -> l !! j = Some y -> R x y.
Proof.
  intros Hs. revert i j. induction Hs as [|z l Hs IH Hall]; intros i j Hij Hi Hj; [done|].
  destruct j as [|j]; [lia|]. simpl in Hj. destruct i as [|i]; simpl in Hi.
  - injection Hi as ->. rewrite Forall_forall in Hall. apply Hall. by eapply list_elem_of_lookup_2.
  - apply (IH i j); [lia|done..].
Qed.

(** Of a sorted list, the first element that satisfies [P] is the best that does. *)
Lemma list_find_best (P : WorkerState -> Prop) `{forall w, Decision (P w)} l i w :
  (forall w, w ∈ l -> load_ok w) -> StronglySorted (cmp_le fit_cmp) l ->
  list_find P l = Some (i, w) -> forall w', w' ∈ l -> P w' -> fit_key_le w w'.
Proof.
  intros Hl Hs (Hi & Hw & Hmin)%list_find_Some w' [j Hj]%list_elem_of_lookup HP.
  assert (Hwl : w ∈ l) by (by eapply list_elem_of_lookup_2).
  assert (Hwl' : w' ∈ l) by (by eapply list_elem_of_lookup_2).
  destruct (Nat.lt_total i j) as [Hij|[<-|Hij]].
  - apply fit_cmp_le; auto. by eapply sorted_lookup.
  - assert (w' = w) as -> by congruence. destruct (fit_key_le_total w w); done.
  - exfalso. by eapply Hmin.
Qed.

Lemma head_swap0 {A : Type} pos (l : list A) x : l !! pos = Some x -> head (swap0 pos l) = Some x.
Proof.
  intros Hx. unfold swap0. destruct l as [|a l]; [done|]. simpl. rewrite Hx.
  destruct pos as [|pos]; simpl; [|done]. injection Hx as ->. done.
Qed.

Lemma elem_of_filter_bool {A : Type} (f : A -> bool) l x : x ∈ List.filter f l <-> x ∈ l /\ f x = true.
Proof. rewrite !list_elem_of_In. apply filter_In. Qed.

(** The abstract specification of the choice: the eligible workers, narrowed to
    the NVMe workers for a Nix job when that is preferred and possible, else to
    the workers already running jobs when branch affinity applies and it is
    possible; any best fit among them may be chosen. *)
Definition choice_pool (s : BestFitScheduler) (job : Job) (elig : list WorkerState) : list WorkerState :=
  let nvme := List.filter is_nvme elig in
  let busy := List.filter has_running_jobs elig in
  if nvme_preference s && bool_decide (j_job_type job = JTNix) && negb (bool_decide (nvme = [])) then nvme
  else if affinity_applies s job && negb (bool_decide (busy = [])) then busy
  else elig.

Definition best_of (l : list WorkerState) (w : WorkerState) : Prop :=
  w ∈ l /\ forall w', w' ∈ l -> fit_key_le w w'.

(** Finding in the sorted candidates and narrowing the pool agree. *)
Lemma find_in_sorted (f : WorkerState -> bool) elig :
  (forall w, w ∈ elig -> load_ok w) ->
  match list_find (fun w => f w = true) (sort_by fit_cmp elig) with
  | Some (i, w) => sort_by fit_cmp elig !! i = Some w /\ List.filter f elig <> [] /\
                   best_of (List.filter f elig) w
  | None => List.filter f elig = []
  end.
Proof.
  intros Hl. assert (Hl' : forall w, w ∈ sort_by fit_cmp elig -> load_ok w).
  { intros w. rewrite elem_of_sort_by. apply Hl. }
  destruct (list_find _ _) as [[i w]|] eqn:Hf.
  - pose proof (list_find_best _ _ _ _ Hl' (sort_by_sorted _ _ (fit_cmp_total _ Hl)) Hf) as Hbest.
    apply list_find_Some in Hf as (Hi & Hw & _).
    assert (Hwe : w ∈ List.filter f elig).
    { apply elem_of_filter_bool. split; [|done]. eapply elem_of_sort_by, list_elem_of_lookup_2, Hi. }
    split_and!; [done| |split; [done|]].
    + intros Hnil. rewrite Hnil in Hwe. by apply elem_of_nil in Hwe.
    + intros w' [Hw' Hfw']%elem_of_filter_bool. apply Hbest; [by apply elem_of_sort_by|done].
  - apply list_find_None in Hf. rewrite Forall_forall in Hf.
    destruct (List.filter f elig) as [|w l] eqn:Hn; [done|].
    assert (Hin : w ∈ List.filter f elig) by (rewrite Hn; left).
    apply elem_of_filter_bool in Hin as [Hin Hfw]. exfalso.
    apply (Hf w); [by apply elem_of_sort_by|done].
Qed.

Lemma head_sorted_best elig w :
  (forall w, w ∈ elig -> load_ok w) -> head (sort_by fit_cmp elig) = Some w -> best_of elig w.
Proof.
  intros Hl Hh.
  pose proof (find_in_sorted (fun _ => true) elig Hl) as Hf.
  assert (Ht : forall l : list WorkerState, List.filter (fun _ => true) l = l).
  { induction l as [|x l IH]; simpl; congruence. }
  rewrite Ht in Hf. destruct (sort_by fit_cmp elig) as [|w0 l] eqn:Hs; [done|].
  simpl in *. injection Hh as ->. by destruct Hf as (_ & _ & ?).
Qed.

(** The last step: the head after the affinity swap. *)
Lemma affinity_head_best s job elig :
  (forall w, w ∈ elig -> load_ok w) -> elig <> [] ->
  exists w,
    affinity_first s job (sort_by fit_cmp elig) = Some w /\
    best_of (if affinity_applies s job && negb (bool_decide (List.filter has_running_jobs elig = []))
             then List.filter has_running_jobs elig else elig) w.
Proof.
  intros Hl Hne. unfold affinity_first.
  assert (exists w, head (sort_by fit_cmp elig) = Some w) as [w Hw].
  { destruct (sort_by fit_cmp elig) eqn:Hs; [|eauto]. apply (f_equal length) in Hs.
    rewrite (Permutation_length (sort_by_perm _ _)) in Hs. by destruct elig. }
  pose proof (head_sorted_best elig w Hl Hw) as Hb.
  destruct (affinity_applies s job); simpl; [|eauto].
  pose proof (find_in_sorted has_running_jobs elig Hl) as Hf.
  destruct (list_find _ _) as [[i w']|].
  - destruct Hf as (Hi & Hn & Hb'). exists w'. split; [by apply head_swap0|].
    by rewrite bool_decide_eq_false_2.
  - exists w. split; [done|]. by rewrite bool_decide_eq_true_2.
Qed.

Lemma best_fit_best s job workers :
  (forall w, w ∈ List.filter (eligible job) workers -> load_ok w) ->
  match best_fit_select s job workers with
  | Some w => best_of (choice_pool s job (List.filter (eligible job) workers)) w
  | None => List.filter (eligible job) workers = []
  end.
Proof.
  unfold best_fit_select. generalize (List.filter (eligible job) workers). intros elig Hl.
  destruct (decide (elig = [])) as [->|Hne]; [done|].
  pose proof (affinity_head_best s job elig Hl Hne) as (w & Hw & Hb).
  pose proof (find_in_sorted is_nvme elig Hl) as Hf. unfold choice_pool.
  destruct elig as [|w0 elig']; [done|]. cbv zeta.
  destruct (nvme_preference s && bool_decide (j_job_type job = JTNix)); cbn [andb]; [|by rewrite Hw].
  destruct (list_find (fun w => is_nvme w = true) _) as [[i nv]|].
  - destruct Hf as (_ & Hn & Hb'). by rewrite bool_decide_eq_false_2.
  - rewrite bool_decide_eq_true_2 by done. cbn [negb andb]. by rewrite Hw.
Qed.

(** Whatever the loads, the choice is one of the eligible workers. *)
Lemma best_fit_eligible s job workers w :
  best_fit_select s job workers = Some w -> w ∈ workers /\ eligible job w = true.
Proof.
  unfold best_fit_select. intros H. rewrite <- elem_of_filter_bool.
  destruct (List.filter (eligible job) workers) as [|w0 elig'] eqn:He; [done|]. rewrite <- He in *. clear He.
  set (elig := List.filter (eligible job) workers) in *.
  assert (Hfind : forall (P : WorkerState -> Prop) `{forall w, Decision (P w)} i x,
             list_find P (sort_by fit_cmp elig) = Some (i, x) -> x ∈ elig).
  { intros P ? i x (Hi & _)%list_find_Some. eapply elem_of_sort_by, list_elem_of_lookup_2, Hi. }
  assert (Hrest : affinity_first s job (sort_by fit_cmp elig) = Some w -> w ∈ elig).
  { unfold affinity_first. destruct (affinity_applies s job).
    - destruct (list_find (fun w => has_running_jobs w = true) _) as [[i x]|] eqn:Hf.
      + pose proof (Hfind _ _ _ _ Hf). apply list_find_Some in Hf as (Hi & _).
        rewrite (head_swap0 _ _ _ Hi). congruence.
      + intros Hh%head_Some_elem_of. by rewrite elem_of_sort_by in Hh.
    - intros Hh%head_Some_elem_of. by rewrite elem_of_sort_by in Hh. }
  destruct (nvme_preference s && _); [|auto].
  destruct (list_find (fun w => is_nvme w = true) _) as [[i nv]|] eqn:Hf; [|auto].
  injection H as <-. by eapply Hfind.
Qed.

Lemma best_fit_none s job workers :
  best_fit_select s job workers = None <-> List.filter (eligible job) workers = [].
Proof.
  unfold best_fit_select. destruct (List.filter (eligible job) workers) as [|w0 elig] eqn:He; [done|].
  split; [|done]. rewrite <- He in *. set (el := List.filter (eligible job) workers) in *.
  assert (Hlen : length (sort_by fit_cmp el) <> O).
  { rewrite (Permutation_length (sort_by_perm _ _)), He. done. }
  assert (Hh : affinity_first s job (sort_by fit_cmp el) <> None).
  { unfold affinity_first. repeat case_match; try (by destruct (sort_by fit_cmp el)).
    subst. match goal with Hf : list_find _ _ = Some _ |- _ => apply list_find_Some in Hf as (Hi & _) end.
    by rewrite (head_swap0 _ _ _ Hi). }
  repeat case_match; done.
Qed.

(** ** Properties *)

(** [select_worker] returns a worker exactly when some worker is eligible,
    and then one of the given workers that has the free memory and disk, the
    CPU, the job type and every label the job requires. *)
Theorem select_worker_eligible (s : BestFitScheduler) (job : Job) (workers : list WorkerState) :
  (select_worker s job workers = None <-> forall w, w ∈ workers -> eligible job w = false) /\
  (forall w, select_worker s job workers = Some w ->
     w ∈ workers /\ j_required_memory_mb job <= free_memory_mb w /\
     j_required_disk_mb job <= free_disk_mb w /\ cpu_ok job w = true /\
     JobType_to_string (j_job_type job) ∈ wi_supported_job_types (ws_info w) /\
     (forall lbl, lbl ∈ j_required_labels job -> lbl ∈ wi_labels (ws_info w))).
Proof.
  unfold select_worker, BestFit_scheduler. split.
  - rewrite best_fit_none. split.
    + intros Hn w Hw. destruct (eligible job w) eqn:E; [|done].
      assert (Hin : w ∈ List.filter (eligible job) workers) by (by apply elem_of_filter_bool).
      rewrite Hn in Hin. by apply elem_of_nil in Hin.
    + intros Hall. destruct (List.filter _ _) as [|w l] eqn:E; [done|].
      assert (Hin : w ∈ List.filter (eligible job) workers) by (rewrite E; left).
      apply elem_of_filter_bool in Hin as [Hin Hw]. rewrite (Hall w Hin) in Hw. done.
  - intros w [Hw He]%best_fit_eligible. split; [done|]. unfold eligible in He.
    rewrite !andb_true_iff, !Z.leb_le, bool_decide_eq_true, forallb_forall in He.
    destruct He as ((((Hm & Hd) & Hc) & Ht) & Hlab). split_and!; try done.
    intros lbl Hlbl. apply list_elem_of_In, Hlab in Hlbl. by rewrite bool_decide_eq_true in Hlbl.
Qed.

(** Refinement: when no eligible worker reports a NaN load, the choice is a
    best fit (lowest load, then most free memory) of the specification's pool:
    the eligible NVMe workers for a Nix job if that is preferred and there are
    any, else the eligible workers already running jobs if branch affinity
    applies and there are any, else all eligible workers. *)
Theorem select_worker_refines_best_fit (s : BestFitScheduler) (job : Job) (workers : list WorkerState) :
  (forall w, w ∈ workers -> eligible job w = true -> load_ok w) ->
  match select_worker s job workers with
  | Some w => best_of (choice_pool s job (List.filter (eligible job) workers)) w
  | None => choice_pool s job (List.filter (eligible job) workers) = []
  end.
Proof.
  intros Hl. unfold select_worker, BestFit_scheduler.
  pose proof (best_fit_best s job workers) as H.
  destruct (best_fit_select s job workers) as [w|].
  - apply H. intros w' [Hw' He]%elem_of_filter_bool. by apply Hl.
  - rewrite H by (intros w' [Hw' He]%elem_of_filter_bool; by apply Hl).
    unfold choice_pool. by rewrite !andb_false_r.
Qed.

Definition loaded_worker (id : string) (load : Z) (jobs : list string) : WorkerState :=
  {| (sample_worker id) with ws_last_heartbeat := Some {|
       hb_worker_id := id; hb_used_cpu_percent := F64.of_Z 50; hb_used_memory_mb := 1000;
       hb_used_disk_mb := 1000; hb_running_job_ids := jobs; hb_system_load := F64.of_Z load;
       hb_timestamp := 0; hb_disk_details := [] |} |}.

Definition sample_job : Job :=
  {| (Job_new 0 "g-build" "make" JTCommon 2 512 100) with j_branch_id := Some "main" |}.

Definition sample_pool : list WorkerState :=
  [loaded_worker "w1" 1 []; loaded_worker "w2" 3 ["j1"]; loaded_worker "w3" 2 ["j2"]].

Lemma select_worker_refines_best_fit_witness :
  best_of (choice_pool {| nvme_preference := true; branch_affinity := true |} sample_job
             (List.filter (eligible sample_job) sample_pool)) (loaded_worker "w3" 2 ["j2"]).
Proof.
  apply (select_worker_refines_best_fit {| nvme_preference := true; branch_affinity := true |}
           sample_job sample_pool).
  intros w Hw _. unfold sample_pool in Hw.
  repeat (apply elem_of_cons in Hw as [->|Hw]; [vm_compute; reflexivity|]).
  by apply elem_of_nil in Hw.
Defined.
