(* ===== verification/WorkerRegistry.v ===== *)
(** * The worker registry (crates/ci-controller/src/worker_registry.rs)

    The registry is the map from worker id to [WorkerState]; each method is a
    function on the map ([get_mut] followed by assignments is [alter]). The
    protobuf messages it reads are records with the fields it uses. *)

From Stdlib Require Import ZArith Lia.
From stdpp Require Import gmap strings list fin_maps.
From S2P Require Import Prelude F64 WorkerModel.

(** [message DiskInfo], [RegisterRequest] and [HeartbeatMessage] *)
Record DiskInfo := {
  di_mount_point : string;
  di_device : string;
  di_fs_type : string;
  di_total_mb : Z;
  di_used_mb : Z;
  di_available_mb : Z
}.

Record RegisterRequest := {
  rr_worker_id : string;
  rr_hostname : string;
  rr_total_cpu : Z;
  rr_total_memory_mb : Z;
  rr_total_disk_mb : Z;
  rr_disk_type : string;
  rr_supported_job_types : list string;
  rr_docker_enabled : bool;
  rr_labels : list string;
  rr_disk_details : list DiskInfo;
  rr_registration_token : string;
  rr_worker_token : string
}.

Record HeartbeatMessage := {
  hm_worker_id : string;
  hm_used_cpu_percent : f64;
  hm_used_memory_mb : Z;
  hm_used_disk_mb : Z;
  hm_running_job_ids : list string;
  hm_system_load : f64;
  hm_timestamp_unix : Z;
  hm_disk_details : list DiskInfo
}.

Abbreviation WorkerRegistry := (gmap string WorkerState).

Definition WorkerRegistry_new : WorkerRegistry := ∅.

Definition disk_detail_of_proto (d : DiskInfo) : DiskDetailInfo := {|
  dd_mount_point := di_mount_point d;
  dd_device := di_device d;
  dd_fs_type := di_fs_type d;
  dd_total_mb := di_total_mb d;
  dd_used_mb := di_used_mb d;
  dd_available_mb := di_available_mb d
|}.

Definition disk_type_of_proto (s : string) : DiskType :=
  if bool_decide (s = "nvme") then Nvme else Sata.

Definition register_with_id (now : timestamp) (worker_id : string) (req : RegisterRequest)
    (m : WorkerRegistry) : WorkerRegistry :=
  let info := {|
    wi_worker_id := worker_id;
    wi_hostname := rr_hostname req;
    wi_total_cpu := rr_total_cpu req;
    wi_total_memory_mb := rr_total_memory_mb req;
    wi_total_disk_mb := rr_total_disk_mb req;
    wi_disk_type := disk_type_of_proto (rr_disk_type req);
    wi_supported_job_types := rr_supported_job_types req;
    wi_docker_enabled := rr_docker_enabled req;
    wi_labels := rr_labels req;
    wi_disk_details := disk_detail_of_proto <$> rr_disk_details req;
    wi_priority := 0;
    wi_max_cpu := None;
    wi_max_memory_mb := None;
    wi_max_disk_mb := None;
    wi_max_cpu_percent := None;
    wi_max_memory_percent := None;
    wi_max_disk_percent := None
  |} in
  <[worker_id := WorkerState_new now info]> m.

(** [register] repeats the body of [register_with_id] with the id of the
    request. *)
Definition register (now : timestamp) (req : RegisterRequest) (m : WorkerRegistry) : WorkerRegistry :=
  let info := {|
    wi_worker_id := rr_worker_id req;
    wi_hostname := rr_hostname req;
    wi_total_cpu := rr_total_cpu req;
    wi_total_memory_mb := rr_total_memory_mb req;
    wi_total_disk_mb := rr_total_disk_mb req;
    wi_disk_type := disk_type_of_proto (rr_disk_type req);
    wi_supported_job_types := rr_supported_job_types req;
    wi_docker_enabled := rr_docker_enabled req;
    wi_labels := rr_labels req;
    wi_disk_details := disk_detail_of_proto <$> rr_disk_details req;
    wi_priority := 0;
    wi_max_cpu := None;
    wi_max_memory_mb := None;
    wi_max_disk_mb := None;
    wi_max_cpu_percent := None;
    wi_max_memory_percent := None;
    wi_max_disk_percent := None
  |} in
  <[rr_worker_id req := WorkerState_new now info]> m.

Definition update_heartbeat (now : timestamp) (msg : HeartbeatMessage) (m : WorkerRegistry) : WorkerRegistry :=
  alter (fun worker => {| worker with
    ws_status := Connected;
    ws_last_heartbeat := Some {|
      hb_worker_id := hm_worker_id msg;
      hb_used_cpu_percent := hm_used_cpu_percent msg;
      hb_used_memory_mb := hm_used_memory_mb msg;
      hb_used_disk_mb := hm_used_disk_mb msg;
      hb_running_job_ids := hm_running_job_ids msg;
      hb_system_load := hm_system_load msg;
      hb_timestamp := now;
      hb_disk_details := disk_detail_of_proto <$> hm_disk_details msg |} |})
    (hm_worker_id msg) m.

Definition get (worker_id : string) (m : WorkerRegistry) : option WorkerState := m !! worker_id.

Definition set_status (st : WorkerStatus) (w : WorkerState) : WorkerState := {| w with ws_status := st |}.

Definition mark_disconnected (worker_id : string) (m : WorkerRegistry) : WorkerRegistry :=
  alter (set_status Disconnected) worker_id m.

Definition mark_reconnected (worker_id : string) (m : WorkerRegistry) : WorkerRegistry :=
  alter (set_status Connected) worker_id m.

(** Returns whether the worker was found. *)
Definition mark_draining (worker_id : string) (m : WorkerRegistry) : bool * WorkerRegistry :=
  match m !! worker_id with
  | Some w => (true, <[worker_id := set_status Draining w]> m)
  | None => (false, m)
  end.

Definition insert_worker_state (state : WorkerState) (m : WorkerRegistry) : WorkerRegistry :=
  <[wi_worker_id (ws_info state) := state]> m.

Definition update_labels (worker_id : string) (labels : list string) (m : WorkerRegistry)
    : bool * WorkerRegistry :=
  match m !! worker_id with
  | Some w => (true, <[worker_id := {| w with ws_info := {| (ws_info w) with wi_labels := labels |} |}]> m)
  | None => (false, m)
  end.

Definition get_labels (worker_id : string) (m : WorkerRegistry) : option (list string) :=
  (fun w => wi_labels (ws_info w)) <$> m !! worker_id.

Definition update_system_info (worker_id info : string) (m : WorkerRegistry) : bool * WorkerRegistry :=
  match m !! worker_id with
  | Some w => (true, <[worker_id := {| w with ws_system_info := Some info |}]> m)
  | None => (false, m)
  end.

Definition is_draining (worker_id : string) (m : WorkerRegistry) : bool :=
  match m !! worker_id with
  | Some w => bool_decide (ws_status w = Draining)
  | None => false
  end.

(** The seven optional updates of [update_priority_limits], each
    [Option<Option<_>>]: absent, or a new value that may itself be absent. *)
Record LimitUpdate := {
  lu_priority : option Z;
  lu_max_cpu : option (option Z);
  lu_max_memory_mb : option (option Z);
  lu_max_disk_mb : option (option Z);
  lu_max_cpu_percent : option (option Z);
  lu_max_memory_percent : option (option Z);
  lu_max_disk_percent : option (option Z)
}.

Definition apply_limits (u : LimitUpdate) (i : WorkerInfo) : WorkerInfo :=
  {| i with
    wi_priority := default (wi_priority i) (lu_priority u);
    wi_max_cpu := default (wi_max_cpu i) (lu_max_cpu u);
    wi_max_memory_mb := default (wi_max_memory_mb i) (lu_max_memory_mb u);
    wi_max_disk_mb := default (wi_max_disk_mb i) (lu_max_disk_mb u);
    wi_max_cpu_percent := default (wi_max_cpu_percent i) (lu_max_cpu_percent u);
    wi_max_memory_percent := default (wi_max_memory_percent i) (lu_max_memory_percent u);
    wi_max_disk_percent := default (wi_max_disk_percent i) (lu_max_disk_percent u) |}.

Definition update_priority_limits (worker_id : string) (u : LimitUpdate) (m : WorkerRegistry)
    : bool * WorkerRegistry :=
  match m !! worker_id with
  | Some w => (true, <[worker_id := {| w with ws_info := apply_limits u (ws_info w) |}]> m)
  | None => (false, m)
  end.

Definition remove (worker_id : string) (m : WorkerRegistry) : bool * WorkerRegistry :=
  (bool_decide (is_Some (m !! worker_id)), delete worker_id m).

(** When the last heartbeat (else the registration) was. *)
Definition last_seen (w : WorkerState) : timestamp :=
  match ws_last_heartbeat w with Some hb => hb_timestamp hb | None => ws_registered_at w end.

(** [(now - last_hb).num_seconds() as u64 > timeout_secs] *)
Definition timed_out (now timeout_secs : Z) (w : WorkerState) : bool :=
  timeout_secs <? as_u64 (num_seconds (now - last_seen w)).

Section Iterating.
Context `{HI : HashIter}.

Definition connected_workers (m : WorkerRegistry) : list WorkerState :=
  filter (fun w => ws_status w = Connected) (hvalues m).

Definition all_workers (m : WorkerRegistry) : list WorkerState := hvalues m.

(** Returns the ids that timed out. *)
Definition check_heartbeat_timeouts (now timeout_secs : Z) (m : WorkerRegistry)
    : list string * WorkerRegistry :=
  let ids :=
    (filter (fun kw => ws_status kw.2 = Connected /\ timed_out now timeout_secs kw.2 = true) (hiter m)).*1 in
  (ids, foldl (fun m' id => alter (set_status Disconnected) id m') m ids).
End Iterating.

(** ** Facts about one operation *)

Lemma elem_of_connected `{HI : HashIter} (m : WorkerRegistry) w :
  w ∈ connected_workers m <-> ws_status w = Connected /\ exists id, m !! id = Some w.
Proof. unfold connected_workers. by rewrite list_elem_of_filter, elem_of_hvalues. Qed.

Lemma elem_of_timed_out `{HI : HashIter} now t (m : WorkerRegistry) id :
  id ∈ (check_heartbeat_timeouts now t m).1 <->
  exists w, m !! id = Some w /\ ws_status w = Connected /\ timed_out now t w = true.
Proof.
  simpl. rewrite list_elem_of_fmap. setoid_rewrite list_elem_of_filter. split.
  - intros ([k w] & -> & [? ?] & Hin). apply elem_of_hiter in Hin. eauto.
  - intros (w & Hw & ? & ?). exists (id, w). by rewrite elem_of_hiter.
Qed.

Lemma lookup_check_heartbeat_timeouts `{HI : HashIter} now t (m : WorkerRegistry) id :
  (check_heartbeat_timeouts now t m).2 !! id =
  (fun w => if decide (ws_status w = Connected /\ timed_out now t w = true)
            then set_status Disconnected w else w) <$> m !! id.
Proof.
  pose proof (elem_of_timed_out now t m id) as Hin. simpl in *. rewrite lookup_foldl_alter by done.
  case_decide as Hd; destruct (m !! id) as [w|]; simpl; try done; f_equal; case_decide as Hw; naive_solver.
Qed.

(** ** The registry invariant *)

(** Every entry is filed under its own worker id and is well-formed. *)
Definition registry_wf (m : WorkerRegistry) : Prop :=
  map_Forall (fun id w => wi_worker_id (ws_info w) = id /\ worker_wf w) m.

(** A message carries machine-width totals. *)
Definition request_wf (req : RegisterRequest) : Prop :=
  u32 (rr_total_cpu req) /\ 0 <= rr_total_memory_mb req < 2 ^ 56 /\ 0 <= rr_total_disk_mb req < 2 ^ 56.

Definition limits_wf (u : LimitUpdate) : Prop :=
  (forall c, lu_max_cpu u = Some (Some c) -> u32 c) /\
  (forall c, lu_max_memory_mb u = Some (Some c) -> u64 c) /\
  (forall c, lu_max_disk_mb u = Some (Some c) -> u64 c).

(** Every way the registry changes, the resource counters included. *)
Inductive wr_step `{HI : HashIter} : WorkerRegistry -> WorkerRegistry -> Prop :=
| wr_register now req m : request_wf req -> wr_step m (register now req m)
| wr_register_with_id now id req m : request_wf req -> wr_step m (register_with_id now id req m)
| wr_heartbeat now msg m : wr_step m (update_heartbeat now msg m)
| wr_disconnected id m : wr_step m (mark_disconnected id m)
| wr_reconnected id m : wr_step m (mark_reconnected id m)
| wr_draining id m : wr_step m (mark_draining id m).2
| wr_insert w m : worker_wf w -> wr_step m (insert_worker_state w m)
| wr_labels id ls m : wr_step m (update_labels id ls m).2
| wr_system_info id i m : wr_step m (update_system_info id i m).2
| wr_timeouts now t m : wr_step m (check_heartbeat_timeouts now t m).2
| wr_limits id u m : limits_wf u -> wr_step m (update_priority_limits id u m).2
| wr_remove id m : wr_step m (remove id m).2
| wr_allocate id w cpu mem disk m :
    m !! id = Some w -> wr_step m (<[id := (allocate cpu mem disk w).2]> m)
| wr_release id cpu mem disk m :
    0 <= cpu -> 0 <= mem -> 0 <= disk -> wr_step m (alter (release cpu mem disk) id m).

(** An update of one entry that keeps its id and well-formedness. *)
Lemma registry_wf_alter f id m :
  (forall w, wi_worker_id (ws_info (f w)) = wi_worker_id (ws_info w)) ->
  (forall w, worker_wf w -> worker_wf (f w)) ->
  registry_wf m -> registry_wf (alter f id m).
Proof.
  intros Hid Hf Hm k w. rewrite lookup_alter. case_decide; subst; [|apply Hm].
  intros (w0 & Hw0 & ->)%fmap_Some. destruct (Hm _ _ Hw0). rewrite Hid. auto.
Qed.

Lemma registry_wf_insert id w m :
  wi_worker_id (ws_info w) = id -> worker_wf w -> registry_wf m -> registry_wf (<[id := w]> m).
Proof. intros Hid Hw Hm. by apply map_Forall_insert_2. Qed.

Lemma worker_wf_same w w' :
  ws_info w' = ws_info w -> ws_allocated_cpu w' = ws_allocated_cpu w ->
  ws_allocated_memory_mb w' = ws_allocated_memory_mb w ->
  ws_allocated_disk_mb w' = ws_allocated_disk_mb w -> worker_wf w -> worker_wf w'.
Proof. intros Hi Hc Hm Hd [? ? ? ?]. constructor; congruence. Qed.

Lemma worker_wf_new now info : info_wf info -> worker_wf (WorkerState_new now info).
Proof. intros Hi. constructor; [done|unfold u32, u64; simpl; lia..]. Qed.

Lemma info_wf_limits u i : limits_wf u -> info_wf i -> info_wf (apply_limits u i).
Proof.
  intros (Hc & Hm & Hd) [? ? ? Hic Him Hid]. constructor; try done; simpl.
  - destruct (lu_max_cpu u) as [o|]; simpl; [intros c ->; by apply Hc | apply Hic].
  - destruct (lu_max_memory_mb u) as [o|]; simpl; [intros c ->; by apply Hm | apply Him].
  - destruct (lu_max_disk_mb u) as [o|]; simpl; [intros c ->; by apply Hd | apply Hid].
Qed.

Lemma check_timeouts_wf `{HI : HashIter} now t m :
  registry_wf m -> registry_wf (check_heartbeat_timeouts now t m).2.
Proof.
  intros Hm id w. rewrite lookup_check_heartbeat_timeouts.
  intros (w0 & Hw0 & ->)%fmap_Some. destruct (Hm _ _ Hw0). case_decide; [|done].
  split; [done|]. by apply (worker_wf_same w0).
Qed.

Create HintDb registry.
#[export] Hint Resolve registry_wf_insert registry_wf_alter worker_wf_new check_timeouts_wf : registry.

Lemma wr_step_wf `{HI : HashIter} m m' : wr_step m m' -> registry_wf m -> registry_wf m'.
Proof.
  intros Hs Hm. destruct Hs; simpl.
  - destruct H as (?&?&?). apply registry_wf_insert, Hm; [done|]. apply worker_wf_new. by constructor.
  - destruct H as (?&?&?). apply registry_wf_insert, Hm; [done|]. apply worker_wf_new. by constructor.
  - apply registry_wf_alter; [done|intros w; by apply (worker_wf_same w)|done].
  - apply registry_wf_alter; [done|intros w; by apply (worker_wf_same w)|done].
  - apply registry_wf_alter; [done|intros w; by apply (worker_wf_same w)|done].
  - unfold mark_draining. destruct (m !! id) as [w|] eqn:E; [|done]. destruct (Hm _ _ E).
    apply registry_wf_insert; [done|by apply (worker_wf_same w)|done].
  - by apply registry_wf_insert.
  - unfold update_labels. destruct (m !! id) as [w|] eqn:E; [|done]. destruct (Hm _ _ E) as [? [[] ? ? ?]].
    apply registry_wf_insert; [done| |done]. constructor; try done; by constructor.
  - unfold update_system_info. destruct (m !! id) as [w|] eqn:E; [|done]. destruct (Hm _ _ E).
    apply registry_wf_insert; [done|by apply (worker_wf_same w)|done].
  - by apply check_timeouts_wf.
  - unfold update_priority_limits. destruct (m !! id) as [w|] eqn:E; [|done]. destruct (Hm _ _ E) as [? [? ? ? ?]].
    apply registry_wf_insert; [done| |done]. constructor; try done; by apply info_wf_limits.
  - by apply map_Forall_delete.
  - destruct (Hm _ _ H) as [Hid Hw]. destruct (allocate cpu mem disk w) as [b w'] eqn:E.
    apply allocate_wf in E as (? & Hi & _); [|done]. apply registry_wf_insert; [|done..]. simpl. congruence.
  - apply registry_wf_alter; [done|intros w Hw; by apply release_wf|done].
Qed.

(** ** Properties *)

(** Every registry reachable by the registry's operations and the resource
    counters' updates is well-formed: each worker is filed under its own id and
    its static limits and counters fit their machine widths. *)
Theorem registry_invariant `{HI : HashIter} (m m' : WorkerRegistry) :
  registry_wf m -> rtc wr_step m m' -> registry_wf m'.
Proof. intros Hm Hs. induction Hs; eauto using wr_step_wf. Qed.

Definition sample_request (id : string) : RegisterRequest := {|
  rr_worker_id := id; rr_hostname := "host"; rr_total_cpu := 8; rr_total_memory_mb := 16384;
  rr_total_disk_mb := 100000; rr_disk_type := "nvme"; rr_supported_job_types := ["common"];
  rr_docker_enabled := false; rr_labels := []; rr_disk_details := [];
  rr_registration_token := ""; rr_worker_token := "" |}.

Definition sample_heartbeat (id : string) : HeartbeatMessage := {|
  hm_worker_id := id; hm_used_cpu_percent := F64.of_Z 10; hm_used_memory_mb := 100;
  hm_used_disk_mb := 100; hm_running_job_ids := []; hm_system_load := F64.of_Z 1;
  hm_timestamp_unix := 0; hm_disk_details := [] |}.

Lemma registry_invariant_witness :
  registry_wf (update_heartbeat 5 (sample_heartbeat "w") (register 0 (sample_request "w") WorkerRegistry_new)).
Proof.
  apply (registry_invariant (HI := map_iter) WorkerRegistry_new).
  - apply map_Forall_empty.
  - eapply rtc_l; [apply (wr_register (HI := map_iter) 0 (sample_request "w"))|].
    + unfold request_wf, u32; simpl; lia.
    + apply rtc_once, wr_heartbeat.
Defined.

(** Only connected workers are offered to the schedulers, and draining lasts
    no longer than the next heartbeat: [mark_draining] takes a worker out of
    [connected_workers], and a heartbeat of the same worker puts it back. *)
Theorem heartbeat_cancels_drain `{HI : HashIter} (now : Z) (msg : HeartbeatMessage) (m : WorkerRegistry) (w : WorkerState) :
  m !! hm_worker_id msg = Some w ->
  let drained := (mark_draining (hm_worker_id msg) m).2 in
  is_draining (hm_worker_id msg) drained = true /\
  (forall w', get (hm_worker_id msg) drained = Some w' -> w' ∉ connected_workers drained) /\
  is_draining (hm_worker_id msg) (update_heartbeat now msg drained) = false /\
  exists w', get (hm_worker_id msg) (update_heartbeat now msg drained) = Some w' /\
    w' ∈ connected_workers (update_heartbeat now msg drained).
Proof.
  intros Hw. unfold mark_draining, is_draining, get, update_heartbeat. rewrite Hw. simpl.
  rewrite lookup_insert_eq, lookup_alter_eq, lookup_insert_eq. simpl.
  split_and!; [done| |done|].
  - intros w' [= <-] [? _]%elem_of_connected. done.
  - eexists. split; [done|]. apply elem_of_connected. split; [done|].
    exists (hm_worker_id msg). by rewrite lookup_alter_eq, lookup_insert_eq.
Qed.

Lemma heartbeat_cancels_drain_witness :
  is_draining "w" (update_heartbeat 9 (sample_heartbeat "w")
    (mark_draining "w" (register 0 (sample_request "w") WorkerRegistry_new)).2) = false.
Proof.
  apply (heartbeat_cancels_drain (HI := map_iter) 9 (sample_heartbeat "w")
           (register 0 (sample_request "w") WorkerRegistry_new) _ eq_refl).
Defined.

(** The heartbeat sweep: for workers last seen in the past (within the range
    of u64 seconds), [check_heartbeat_timeouts] returns exactly the ids of the
    connected workers silent for more than the timeout, each once, disconnects
    exactly those, leaves every other worker unchanged, and a second sweep at
    the same time finds nothing. A worker whose last heartbeat is a second or
    more ahead of the clock is swept as well, at any timeout below 2^63. *)
Theorem heartbeat_sweep `{HI : HashIter} (now t : Z) (m : WorkerRegistry) :
  0 <= t < 2 ^ 63 ->
  let '(ids, m') := check_heartbeat_timeouts now t m in
  NoDup ids /\
  (forall id w, m !! id = Some w -> last_seen w <= now < last_seen w + secs (2 ^ 63) ->
     (id ∈ ids <-> ws_status w = Connected /\ t < num_seconds (now - last_seen w))) /\
  (forall id w, m !! id = Some w -> ws_status w = Connected ->
     now + secs 1 <= last_seen w < now + secs (2 ^ 63) -> id ∈ ids) /\
  (forall id, m' !! id = if decide (id ∈ ids) then set_status Disconnected <$> m !! id else m !! id) /\
  (check_heartbeat_timeouts now t m').1 = [].
Proof.
  intros Ht. destruct (check_heartbeat_timeouts now t m) as [ids m'] eqn:E.
  assert (Hids : forall id, id ∈ ids <-> exists w, m !! id = Some w /\ ws_status w = Connected /\ timed_out now t w = true).
  { intros id. pose proof (elem_of_timed_out now t m id) as H. by rewrite E in H. }
  assert (Hm' : m' = foldl (fun m' id => alter (set_status Disconnected) id m') m ids).
  { unfold check_heartbeat_timeouts in E. by injection E as <- <-. }
  split_and!.
  - unfold check_heartbeat_timeouts in E. injection E as <- _.
    eapply sublist_NoDup; [apply (NoDup_hkeys m) | apply fmap_sublist, sublist_filter].
  - intros id w Hw [Hlo Hhi]. rewrite Hids.
    assert (Hto : timed_out now t w = true <-> t < num_seconds (now - last_seen w)).
    { unfold timed_out, as_u64. rewrite wrap_small, Z.ltb_lt; [done|].
      pose proof (num_seconds_nonneg (now - last_seen w)).
      pose proof (num_seconds_mono (now - last_seen w) (secs (2 ^ 63)) ltac:(lia)).
      rewrite num_seconds_secs in *. lia. }
    naive_solver.
  - intros id w Hw Hc [Hlo Hhi]. rewrite Hids. exists w. split_and!; [done..|].
    unfold timed_out, as_u64, wrap. apply Z.ltb_lt.
    pose proof (num_seconds_mono (now - last_seen w) (secs (-1)) ltac:(unfold secs in *; lia)).
    pose proof (num_seconds_mono (secs (- (2 ^ 63))) (now - last_seen w) ltac:(unfold secs in *; lia)).
    rewrite !num_seconds_secs in *.
    rewrite <- (Z_mod_plus_full _ 1), Z.mod_small; lia.
  - intros id. rewrite Hm'. by apply lookup_foldl_alter.
  - destruct (check_heartbeat_timeouts now t m').1 as [|id l] eqn:El; [done|].
    assert (Hin : id ∈ (check_heartbeat_timeouts now t m').1) by (rewrite El; left).
    apply elem_of_timed_out in Hin as (w & Hw & Hc & Hto).
    rewrite Hm', lookup_foldl_alter in Hw by done. case_decide as Hd.
    + apply fmap_Some in Hw as (w0 & _ & ->). done.
    + exfalso. apply Hd, Hids. eauto.
Qed.

Lemma heartbeat_sweep_witness :
  0 <= 30 < 2 ^ 63 /\
  let m := register 0 (sample_request "w") WorkerRegistry_new in
  NoDup (check_heartbeat_timeouts (HI := map_iter) (secs 31) 30 m).1 /\
  (check_heartbeat_timeouts (HI := map_iter) (secs 31) 30 m).1 = ["w"].
Proof.
  split; [lia|]. split; [|vm_compute; reflexivity].
  exact (proj1 (heartbeat_sweep (HI := map_iter) (secs 31) 30
    (register 0 (sample_request "w") WorkerRegistry_new) ltac:(lia))).
Defined.
