(* ===== verification/JobRegistry.v ===== *)
(** * The job registry (crates/ci-controller/src/job_registry.rs)

    The registry is the map from job id to [Job]. Loops over [values_mut] that
    update each entry on its own are maps over the values; loops that pick or
    collect entries follow the iteration order of the [HashIter] instance. *)

From Stdlib Require Import ZArith Lia.
From stdpp Require Import gmap strings list fin_maps pretty relations.
From S2P Require Import Prelude JobModel.

(** [message JobStatusUpdate] *)
Record JobStatusUpdate := {
  su_worker_id : string;
  su_job_id : string;
  su_state : Z;
  su_message : string;
  su_exit_code : Z;
  su_timestamp_unix : Z;
  su_job_group_id : string;
  su_stage_name : string;
  su_phase : string;
  su_pre_exit_code : Z;
  su_post_exit_code : Z;
  su_purge_ack : bool
}.

Abbreviation JobRegistry := (gmap string Job).

Definition JobRegistry_new : JobRegistry := ∅.

Definition add_job (job : Job) (m : JobRegistry) : JobRegistry := <[j_job_id job := job]> m.

Definition get_job (job_id : string) (m : JobRegistry) : option Job := m !! job_id.

Definition state_of_code (code : Z) : JobState :=
  match code with
  | 1 => JQueued
  | 2 => JAssigned
  | 3 => JRunning
  | 4 => JSuccess
  | 5 => JFailed
  | 6 => JCancelled
  | _ => JUnknown
  end.

Definition completed_reason : string := "Completed successfully (exit code 0)".
Definition failed_reason (code : Z) : string :=
  ("Command failed (exit code " +:+ pretty code +:+ ")")%string.

Definition update_status (now : timestamp) (update : JobStatusUpdate) (m : JobRegistry) : JobRegistry :=
  alter (fun job =>
    let new_state := state_of_code (su_state update) in
    {| job with
      j_state := new_state;
      j_exit_code := Some (su_exit_code update);
      j_status_reason :=
        match new_state with
        | JSuccess => Some completed_reason
        | JFailed => Some (failed_reason (su_exit_code update))
        | JCancelled => Some "Cancelled"
        | _ => None
        end;
      j_updated_at := now |}) (su_job_id update) m.

Definition assign_to (now : timestamp) (worker_id : string) (job : Job) : Job :=
  {| job with
    j_state := JAssigned;
    j_assigned_worker := Some worker_id;
    j_updated_at := now |}.

(** Assign a given queued job. Returns the assigned job. *)
Definition assign_job (now : timestamp) (job_id worker_id : string) (m : JobRegistry)
    : option Job * JobRegistry :=
  match m !! job_id with
  | Some job =>
      if bool_decide (j_state job = JQueued)
      then (Some (assign_to now worker_id job), <[job_id := assign_to now worker_id job]> m)
      else (None, m)
  | None => (None, m)
  end.

(** Returns the worker to notify, if any. *)
Definition cancel_job (now : timestamp) (job_id reason : string) (m : JobRegistry)
    : option string * JobRegistry :=
  match m !! job_id with
  | None => (None, m)
  | Some job =>
      match j_state job with
      | JSuccess | JFailed | JCancelled => (None, m)
      | JRunning | JAssigned =>
          (j_assigned_worker job,
           <[job_id := {| job with j_cancel_reason := Some reason; j_updated_at := now |}]> m)
      | _ =>
          (None,
           <[job_id := {| job with
               j_state := JCancelled;
               j_cancel_reason := Some reason;
               j_status_reason := Some ("Cancelled: " +:+ reason)%string;
               j_updated_at := now |}]> m)
      end
  end.

(** A running job of a disconnected worker. *)
Definition running_on (worker_id : string) (job : Job) : bool :=
  bool_decide (j_assigned_worker job = Some worker_id) && bool_decide (j_state job = JRunning).

(** [now] is read once per updated job. *)
Definition mark_unknown_for_worker (now : string -> timestamp) (worker_id : string) (m : JobRegistry)
    : nat * JobRegistry :=
  (size (filter (fun kj => running_on worker_id kj.2 = true) m),
   map_imap (fun id job =>
     Some (if running_on worker_id job
           then {| job with j_state := JUnknown; j_updated_at := now id |} else job)) m).

Definition is_stale (job : Job) : bool :=
  match j_state job with JRunning | JAssigned => true | _ => false end.

Definition is_orphaned (now timeout_secs : Z) (job : Job) : bool :=
  match j_state job with JQueued | JAssigned => true | _ => false end
  && bool_decide (j_job_group_id job = None)
  && (timeout_secs <? as_u64 (num_seconds (now - j_created_at job))).

Definition orphan_cancel (now : timestamp) (job : Job) : Job :=
  {| job with
    j_state := JCancelled;
    j_cancel_reason := Some "Orphaned (submitter disconnected)";
    j_status_reason := Some "Cancelled: orphaned (submitter disconnected)";
    j_updated_at := now |}.

Definition cancel_orphaned_jobs (now timeout_secs : Z) (m : JobRegistry) : nat * JobRegistry :=
  (size (filter (fun kj => is_orphaned now timeout_secs kj.2 = true) m),
   (fun job => if is_orphaned now timeout_secs job then orphan_cancel now job else job) <$> m).

(** [chrono::Duration::from_std(max_age).unwrap_or_default()], in nanoseconds:
    a duration beyond the range of [TimeDelta] becomes zero. *)
Definition from_std_or_zero (max_age : Z) : Z :=
  if max_age <=? (2 ^ 63 - 1) * 1000000 then max_age else 0.

Definition keep_job (cutoff : Z) (job : Job) : Prop :=
  JobState_is_terminal (j_state job) = false \/ cutoff < j_updated_at job.

#[export] Instance keep_job_dec cutoff job : Decision (keep_job cutoff job).
Proof. unfold keep_job. apply _. Defined.

Definition evict_terminal (now max_age : Z) (m : JobRegistry) : nat * JobRegistry :=
  let cutoff := now - from_std_or_zero max_age in
  let m' := filter (fun kj => keep_job cutoff kj.2) m in
  ((size m - size m')%nat, m').

Section Iterating.
Context `{HI : HashIter}.

(** The first queued job met is assigned. *)
Definition next_job_for (now : timestamp) (worker_id : string) (m : JobRegistry)
    : option Job * JobRegistry :=
  match list_find (fun j => j_state j = JQueued) (hvalues m) with
  | None => (None, m)
  | Some (_, j) =>
      let m' := alter (assign_to now worker_id) (j_job_id j) m in
      (m' !! j_job_id j, m')
  end.

Definition queued_jobs (m : JobRegistry) : list Job :=
  filter (fun j => j_state j = JQueued) (hvalues m).

Definition mark_stale_jobs_unknown (now : timestamp) (m : JobRegistry) : list string * JobRegistry :=
  let stale := j_job_id <$> filter (fun j => is_stale j = true) (hvalues m) in
  (stale,
   foldl (fun m' id => alter (fun job => {| job with j_state := JUnknown; j_updated_at := now |}) id m') m stale).

Definition get_orphaned_jobs (connection_id : string) (m : JobRegistry) : list Job :=
  filter (fun j =>
    j_submitter_connection_id j = Some connection_id /\
    (match j_state j with JQueued | JAssigned | JRunning => true | _ => false end) = true) (hvalues m).
End Iterating.

(** ** Facts about one operation *)

(** Every job is filed under its own id. *)
Definition jobs_keyed (m : JobRegistry) : Prop := map_Forall (fun id j => j_job_id j = id) m.

Lemma stale_id_in `{HI : HashIter} m id :
  jobs_keyed m ->
  id ∈ j_job_id <$> filter (fun j => is_stale j = true) (hvalues m) <->
  exists j, m !! id = Some j /\ is_stale j = true.
Proof.
  intros Hk. rewrite list_elem_of_fmap. setoid_rewrite list_elem_of_filter.
  setoid_rewrite elem_of_hvalues. split.
  - intros (j & -> & Hs & k & Hj). rewrite (Hk _ _ Hj). eauto.
  - intros (j & Hj & Hs). exists j. rewrite (Hk _ _ Hj). eauto.
Qed.

Lemma lookup_mark_stale `{HI : HashIter} now m id :
  jobs_keyed m ->
  (mark_stale_jobs_unknown now m).2 !! id =
  (fun j => if is_stale j then {| j with j_state := JUnknown; j_updated_at := now |} else j) <$> m !! id.
Proof.
  intros Hk. unfold mark_stale_jobs_unknown. simpl. rewrite lookup_foldl_alter by done.
  pose proof (stale_id_in m id Hk) as Hin.
  case_decide as Hd; destruct (m !! id) as [j|]; simpl; try done; f_equal.
  - destruct (proj1 Hin Hd) as (j' & [= <-] & ->). done.
  - destruct (is_stale j) eqn:Hs; [|done]. destruct Hd. apply Hin. eauto.
Qed.

Lemma next_job_for_spec `{HI : HashIter} now w m :
  jobs_keyed m ->
  match next_job_for now w m with
  | (Some j', m') => exists id j, m !! id = Some j /\ j_state j = JQueued /\
                       j' = assign_to now w j /\ m' = <[id := j']> m
  | (None, m') => m' = m /\ forall id j, m !! id = Some j -> j_state j <> JQueued
  end.
Proof.
  intros Hk. unfold next_job_for. destruct (list_find _ _) as [[i j]|] eqn:Hf.
  - apply list_find_Some in Hf as (Hi & Hq & _).
    apply list_elem_of_lookup_2, elem_of_hvalues in Hi as [id Hid].
    rewrite (Hk _ _ Hid), lookup_alter_eq, Hid. simpl.
    exists id, j. split_and!; try done. apply map_eq. intros k.
    rewrite lookup_alter, lookup_insert. case_decide; subst; [|done]. by rewrite Hid.
  - apply list_find_None in Hf. rewrite Forall_forall in Hf. split; [done|].
    intros id j Hj. apply Hf, elem_of_hvalues. eauto.
Qed.

(** ** The life of a job *)

(** The changes of state that the registry makes on its own initiative. *)
Inductive job_trans : JobState -> JobState -> Prop :=
| jt_assign : job_trans JQueued JAssigned
| jt_cancel_queued : job_trans JQueued JCancelled
| jt_cancel_assigned : job_trans JAssigned JCancelled
| jt_cancel_unknown : job_trans JUnknown JCancelled
| jt_lost_assigned : job_trans JAssigned JUnknown
| jt_lost_running : job_trans JRunning JUnknown.

(** The controller's own steps; a job is added under a fresh id. *)
Inductive jr_step `{HI : HashIter} : JobRegistry -> JobRegistry -> Prop :=
| jr_add job m : m !! j_job_id job = None -> jr_step m (add_job job m)
| jr_assign now id w m : jr_step m (assign_job now id w m).2
| jr_next now w m : jr_step m (next_job_for now w m).2
| jr_unknown now w m : jr_step m (mark_unknown_for_worker now w m).2
| jr_cancel now id r m : jr_step m (cancel_job now id r m).2
| jr_stale now m : jr_step m (mark_stale_jobs_unknown now m).2
| jr_orphans now t m : jr_step m (cancel_orphaned_jobs now t m).2
| jr_evict now a m : jr_step m (evict_terminal now a m).2.

(** What a step may do to one job: leave it alone, move it along [job_trans]
    (its id and its group unchanged), or evict it when it is terminal. *)
Definition job_evolves (j : Job) (o : option Job) : Prop :=
  match o with
  | None => JobState_is_terminal (j_state j) = true
  | Some j' =>
      j' = j \/
      j_job_id j' = j_job_id j /\ j_job_group_id j' = j_job_group_id j /\
      (job_trans (j_state j) (j_state j') \/
       j_state j' = j_state j /\ JobState_is_terminal (j_state j) = false)
  end.

Lemma job_evolves_refl j : job_evolves j (Some j).
Proof. by left. Qed.

Lemma job_evolves_insert id j j' (m : JobRegistry) id0 j0 :
  m !! id = Some j -> job_evolves j (Some j') -> m !! id0 = Some j0 ->
  job_evolves j0 (<[id := j']> m !! id0).
Proof.
  intros Hj He Hj0. rewrite lookup_insert. case_decide; subst.
  - by assert (j0 = j) as -> by congruence.
  - rewrite Hj0. apply job_evolves_refl.
Qed.

Create HintDb jobs.
#[export] Hint Resolve job_evolves_refl job_evolves_insert : jobs.
#[export] Hint Constructors job_trans : jobs.

Lemma assign_evolves now w j : j_state j = JQueued -> job_evolves j (Some (assign_to now w j)).
Proof. intros Hq. right. rewrite Hq. simpl. auto with jobs. Qed.

Lemma cancel_evolves now id r m id0 j0 :
  m !! id0 = Some j0 -> job_evolves j0 ((cancel_job now id r m).2 !! id0).
Proof.
  intros H0. unfold cancel_job. destruct (m !! id) as [j|] eqn:Hj; simpl.
  - destruct (j_state j) eqn:Hs; simpl; try (rewrite H0; apply job_evolves_refl);
      (eapply job_evolves_insert; [exact Hj| |exact H0]); right; rewrite Hs; simpl; auto with jobs.
  - rewrite H0. apply job_evolves_refl.
Qed.

Lemma jr_step_evolves `{HI : HashIter} m m' id j :
  jobs_keyed m -> jr_step m m' -> m !! id = Some j -> job_evolves j (m' !! id).
Proof.
  intros Hk Hs Hj. destruct Hs.
  - unfold add_job. rewrite lookup_insert_ne by congruence. rewrite Hj. auto with jobs.
  - unfold assign_job. destruct (m !! id0) as [j0|] eqn:E; simpl; [case_bool_decide; simpl|];
      [|rewrite Hj; auto with jobs..]. eapply job_evolves_insert; [done|by apply assign_evolves|done].
  - pose proof (next_job_for_spec now w m Hk) as Hn. destruct (next_job_for now w m) as [[j'|] m']; simpl.
    + destruct Hn as (id0 & j0 & Hj0 & Hq & -> & ->).
      eapply job_evolves_insert; [done|by apply assign_evolves|done].
    + destruct Hn as [-> _]. rewrite Hj. auto with jobs.
  - simpl. rewrite map_lookup_imap, Hj. simpl. unfold running_on.
    destruct (bool_decide (j_assigned_worker j = Some w)); simpl; [|auto with jobs].
    case_bool_decide as Hr; [|auto with jobs]. right. rewrite Hr. simpl. auto with jobs.
  - by apply cancel_evolves.
  - rewrite lookup_mark_stale, Hj by done. simpl. unfold is_stale.
    destruct (j_state j) eqn:Hst; try (auto with jobs; fail); right; try rewrite Hst; simpl; auto with jobs.
  - simpl. rewrite lookup_fmap, Hj. simpl. unfold is_orphaned.
    destruct (j_state j) eqn:Hst; simpl; try (auto with jobs; fail);
      (destruct (bool_decide _ && _); [|auto with jobs]); right; try rewrite Hst; simpl; auto with jobs.
  - simpl. destruct (filter _ m !! id) as [j'|] eqn:E.
    + apply map_lookup_filter_Some in E as [E _]. assert (j' = j) as -> by congruence. auto with jobs.
    + apply map_lookup_filter_None in E as [E|E]; [congruence|]. specialize (E j Hj). simpl in *.
      unfold keep_job in E. destruct (JobState_is_terminal (j_state j)); naive_solver.
Qed.

Lemma jr_step_keyed `{HI : HashIter} m m' : jobs_keyed m -> jr_step m m' -> jobs_keyed m'.
Proof.
  intros Hk Hs id j' Hj'. destruct (m !! id) as [j|] eqn:Hj.
  - pose proof (jr_step_evolves m m' id j Hk Hs Hj) as He. rewrite Hj' in He.
    destruct He as [->|(-> & _)]; by apply Hk.
  - destruct Hs; simpl in *.
    + unfold add_job in Hj'. apply lookup_insert_Some in Hj' as [[<- <-]|[_ Hj']]; [done|congruence].
    + unfold assign_job in Hj'. destruct (m !! id0) eqn:E; simpl in *; [case_bool_decide; simpl in *|]; try congruence.
      apply lookup_insert_Some in Hj' as [[-> _]|[_ ?]]; congruence.
    + pose proof (next_job_for_spec now w m Hk) as Hn. destruct (next_job_for now w m) as [[jn|] mn]; simpl in *.
      * destruct Hn as (id0 & j0 & Hj0 & _ & _ & ->).
        apply lookup_insert_Some in Hj' as [[-> _]|[_ ?]]; congruence.
      * destruct Hn as [-> _]. congruence.
    + rewrite map_lookup_imap, Hj in Hj'. done.
    + unfold cancel_job in Hj'. destruct (m !! id0) eqn:E; simpl in *; [|congruence].
      destruct (j_state j); simpl in *; try congruence;
        apply lookup_insert_Some in Hj' as [[-> _]|[_ ?]]; congruence.
    + rewrite lookup_foldl_alter, Hj in Hj' by done. case_decide; done.
    + rewrite lookup_fmap, Hj in Hj'. done.
    + apply map_lookup_filter_Some in Hj' as [? _]. congruence.
Qed.

(** ** Properties *)

(** C12. The job state machine: along any run of the controller's own steps
    (submission under fresh ids, assignment, cancellation, loss of a worker,
    recovery, orphan sweep, eviction) every job stays filed under its id; each
    step moves a job only along the transition relation [job_trans], never
    touches a terminal job except to evict it, and evicts only terminal jobs. *)
Theorem job_lifecycle `{HI : HashIter} (m0 m m' : JobRegistry) :
  jobs_keyed m0 -> rtc jr_step m0 m -> jr_step m m' ->
  jobs_keyed m' /\
  (forall id j, m !! id = Some j -> job_evolves j (m' !! id)) /\
  (forall id j, m !! id = Some j -> JobState_is_terminal (j_state j) = true ->
     m' !! id = None \/ m' !! id = Some j).
Proof.
  intros Hk Hr Hs. assert (Hkm : jobs_keyed m).
  { induction Hr; eauto using jr_step_keyed. }
  split; [by eapply jr_step_keyed|].
  split; [by intros id j; apply jr_step_evolves|].
  intros id j Hj Ht. pose proof (jr_step_evolves m m' id j Hkm Hs Hj) as He.
  destruct (m' !! id) as [j'|]; [right|by left]. f_equal.
  destruct He as [->|(_ & _ & [Hx|[_ Hx]])]; [done| |congruence].
  by destruct Hx.
Qed.

Definition queued_job (id : string) : Job := Job_new 0 id "make" JTCommon 1 128 0.

Lemma job_lifecycle_witness :
  let m := add_job (queued_job "a") JobRegistry_new in
  job_evolves (queued_job "a") ((assign_job 1 "a" "w" m).2 !! "a").
Proof.
  intros m.
  apply (job_lifecycle (HI := map_iter) JobRegistry_new m (assign_job 1 "a" "w" m).2).
  - apply map_Forall_empty.
  - apply rtc_once. by apply (jr_add (HI := map_iter)).
  - apply jr_assign.
  - reflexivity.
Defined.

(** Exclusive assignment: [assign_job] succeeds exactly on a queued job, in
    which case the job records the worker and becomes assigned while every
    other job is unchanged; from then on no worker can be assigned the job, by
    [assign_job] or by [next_job_for], while it stays assigned. *)
Theorem assign_job_exclusive `{HI : HashIter} (now : Z) (id w : string) (m : JobRegistry) :
  jobs_keyed m ->
  match assign_job now id w m with
  | (Some j', m') =>
      (exists j, m !! id = Some j /\ j_state j = JQueued /\ j' = assign_to now w j) /\
      m' = <[id := j']> m /\
      (forall now2 w2, assign_job now2 id w2 m' = (None, m')) /\
      (forall now2 w2 j2, (next_job_for now2 w2 m').1 = Some j2 -> j_job_id j2 <> id)
  | (None, m') => m' = m /\ (forall j, m !! id = Some j -> j_state j <> JQueued)
  end.
Proof.
  intros Hk. unfold assign_job. destruct (m !! id) as [j|] eqn:Hj; [|done].
  case_bool_decide as Hq; [|split; [done|naive_solver]].
  split_and!; [by exists j|done| |].
  - intros now2 w2. rewrite lookup_insert_eq. done.
  - intros now2 w2 j2 Hn Hid.
    assert (Hk' : jobs_keyed (<[id := assign_to now w j]> m)).
    { apply map_Forall_insert_2; [exact (Hk _ _ Hj)|done]. }
    pose proof (next_job_for_spec now2 w2 _ Hk') as Hs.
    destruct (next_job_for now2 w2 _) as [[j3|] m3]; simpl in *; [|done]. injection Hn as ->.
    destruct Hs as (id3 & j3 & Hj3 & Hq3 & -> & _). simpl in Hid.
    pose proof (Hk' _ _ Hj3) as Hid3. simpl in Hid3. rewrite Hid in Hid3. subst id3.
    rewrite lookup_insert_eq in Hj3. by injection Hj3 as <-.
Qed.

Lemma assign_job_exclusive_witness :
  let m := add_job (queued_job "a") JobRegistry_new in
  jobs_keyed m /\
  forall now2 w2, assign_job now2 "a" w2 (assign_job 1 "a" "w" m).2 = (None, (assign_job 1 "a" "w" m).2).
Proof.
  intros m. assert (jobs_keyed m) as Hk by (apply map_Forall_insert_2; [done|apply map_Forall_empty]).
  split; [exact Hk|]. apply (assign_job_exclusive (HI := map_iter) 1 "a" "w" m Hk).
Defined.

(** Cancellation, branch by branch: an unknown id and a terminal job are
    no-ops; an assigned or running job keeps its state, records the reason and
    yields the worker to notify; a queued or unknown job is cancelled at once
    with no worker to notify. Other jobs are never touched. *)
Theorem cancel_job_spec (now : Z) (id reason : string) (m : JobRegistry) :
  let '(notify, m') := cancel_job now id reason m in
  (forall id', id' <> id -> m' !! id' = m !! id') /\
  match m !! id with
  | None => notify = None /\ m' = m
  | Some j =>
      if JobState_is_terminal (j_state j) then notify = None /\ m' = m
      else exists j', m' !! id = Some j' /\ j_cancel_reason j' = Some reason /\
        j_updated_at j' = now /\
        (if decide (j_state j = JAssigned \/ j_state j = JRunning)
         then notify = j_assigned_worker j /\ j_state j' = j_state j
         else notify = None /\ j_state j' = JCancelled)
  end.
Proof.
  unfold cancel_job. destruct (m !! id) as [j|] eqn:Hj; [|done].
  destruct (j_state j) eqn:Hs; simpl; (split; [by intros; rewrite ?lookup_insert_ne|]); try done;
    eexists; rewrite lookup_insert_eq; (split; [reflexivity|]); simpl; (split; [done|]); (split; [done|]);
    try case_decide; naive_solver.
Qed.
