(* ===== verification/JobGroupRegistry.v ===== *)
(** * The job group registry (crates/ci-controller/src/job_group_registry.rs)

    Two maps: the groups, and the jobs of each group in submission order. The
    reading of [Utc::now()] is an argument; operations that read the clock more
    than once take a [clock]. The version-5 UUID of a job id comes from the
    uuid crate and is a parameter [uuid_v5] of the operations that match ids. *)

From Stdlib Require Import ZArith Lia.
From stdpp Require Import gmap strings list fin_maps pretty.
From S2P Require Import Prelude JobModel JobRegistry.

Record JobGroupRegistry := {
  groups : gmap Uuid JobGroup;
  group_jobs : gmap Uuid (list Job)
}.

Definition JobGroupRegistry_new : JobGroupRegistry := {| groups := ∅; group_jobs := ∅ |}.

Definition add_group (group : JobGroup) (r : JobGroupRegistry) : JobGroupRegistry := {|
  groups := <[g_id group := group]> (groups r);
  group_jobs := match group_jobs r !! g_id group with
                | Some _ => group_jobs r
                | None => <[g_id group := []]> (group_jobs r)
                end
|}.

Definition get_group (gid : Uuid) (r : JobGroupRegistry) : option JobGroup := groups r !! gid.

(** [get_mut] followed by an assignment. *)
Definition alter_group (f : JobGroup -> JobGroup) (gid : Uuid) (r : JobGroupRegistry) : JobGroupRegistry :=
  {| r with groups := alter f gid (groups r) |}.

Definition touch_activity (now : timestamp) (gid : Uuid) (r : JobGroupRegistry) : JobGroupRegistry :=
  alter_group (fun g => {| g with g_last_activity_at := now |}) gid r.

Definition valid_transition (old new : JobGroupState) : bool :=
  match old, new with
  | _, GCancelled => true
  | _, GFailed => true
  | _, GExpired => true
  | GPending, GReserved => true
  | GReserved, GRunning => true
  | GRunning, GSuccess => true
  | _, _ => false
  end.

(** The assignments of a valid transition; [clk 0] and [clk 1] are its two
    readings of the clock. *)
Definition enter_state (clk : clock) (new_state : JobGroupState) (g : JobGroup) : JobGroup :=
  {| g with
    g_state := new_state;
    g_updated_at := clk O;
    g_completed_at := if JobGroupState_is_terminal new_state then Some (clk 1%nat) else g_completed_at g |}.

Definition update_state (clk : clock) (gid : Uuid) (new_state : JobGroupState) (r : JobGroupRegistry)
    : bool * JobGroupRegistry :=
  match groups r !! gid with
  | Some group =>
      if valid_transition (g_state group) new_state
      then (true, {| r with groups := <[gid := enter_state clk new_state group]> (groups r) |})
      else (false, r)
  | None => (false, r)
  end.

Definition add_job_to_group (gid : Uuid) (job : Job) (r : JobGroupRegistry) : JobGroupRegistry :=
  {| r with group_jobs := <[gid := default [] (group_jobs r !! gid) ++ [job]]> (group_jobs r) |}.

(** Update of every job of a group's list. *)
Definition alter_jobs (f : list Job -> list Job) (gid : Uuid) (r : JobGroupRegistry) : JobGroupRegistry :=
  {| r with group_jobs := alter f gid (group_jobs r) |}.

Definition lose_job (now : timestamp) (job : Job) : Job :=
  if is_stale job then {| job with j_state := JUnknown; j_updated_at := now |} else job.

(** The sibling of the job registry's sweep: the count of transitions, and the
    registry. *)
Definition group_mark_stale_jobs_unknown (now : timestamp) (r : JobGroupRegistry) : nat * JobGroupRegistry :=
  (map_fold (fun _ jobs n => (length (filter (fun j => is_stale j = true) jobs) + n)%nat) O (group_jobs r),
   {| r with group_jobs := (fun jobs : list Job => lose_job now <$> jobs) <$> group_jobs r |}).

Definition get_jobs_for_group (gid : Uuid) (r : JobGroupRegistry) : list Job :=
  default [] (group_jobs r !! gid).

(** The assignments of [update_job_in_group] to the job it found. *)
Definition report_job (clk : clock) (state : JobState) (exit_code : option Z) (job : Job) : Job :=
  let job1 := {| job with j_state := state; j_exit_code := exit_code; j_updated_at := clk O |} in
  if JobState_is_terminal state then
    {| job1 with
      j_completed_at := Some (clk 1%nat);
      j_status_reason :=
        match state with
        | JSuccess => Some completed_reason
        | JFailed => Some (failed_reason (default (-1) exit_code))
        | JCancelled => Some "Cancelled"
        | _ => None
        end |}
  else job1.

(** [iter_mut().find(p)] followed by an update of the element found. *)
Fixpoint update_first (p : Job -> bool) (f : Job -> Job) (l : list Job) : list Job :=
  match l with
  | [] => []
  | j :: l' => if p j then f j :: l' else j :: update_first p f l'
  end.

Section JobIds.
Context (uuid_v5 : string -> string).

Definition job_id_matches (stored lookup_raw : string) : bool :=
  if bool_decide (stored = lookup_raw) then true
  else bool_decide (stored = uuid_v5 lookup_raw).

Definition update_job_in_group (clk : clock) (gid : Uuid) (job_id : string) (state : JobState)
    (exit_code : option Z) (r : JobGroupRegistry) : JobGroupRegistry :=
  alter_jobs (update_first (fun j => job_id_matches (j_job_id j) job_id) (report_job clk state exit_code)) gid r.

(** The job that [get_job_mut_in_group] borrows. *)
Definition get_job_mut_in_group (gid : Uuid) (job_id : string) (r : JobGroupRegistry) : option Job :=
  match group_jobs r !! gid with
  | Some jobs => snd <$> list_find (fun j => job_id_matches (j_job_id j) job_id = true) jobs
  | None => None
  end.
End JobIds.

(** The states that count as ended for completion. *)
Definition ended (j : Job) : bool :=
  match j_state j with JSuccess | JFailed | JCancelled | JUnknown => true | _ => false end.

Definition stage_failed_reason (j : Job) : string :=
  ("Stage " +:+ default "unknown" (j_stage_name j) +:+ " failed (exit code "
   +:+ pretty (default (-1) (j_exit_code j)) +:+ ")")%string.

Definition set_reason (reason : string) (g : JobGroup) : JobGroup := {| g with g_status_reason := Some reason |}.

Definition submitted_stages (jobs : list Job) : list string := omap j_stage_name jobs.

Definition missing_stages (reserved : list string) (jobs : list Job) : list string :=
  filter (fun s => s ∉ submitted_stages jobs) reserved.

Definition check_group_completion (clk : clock) (gid : Uuid) (r : JobGroupRegistry)
    : option JobGroupState * JobGroupRegistry :=
  match groups r !! gid with
  | None => (None, r)
  | Some group =>
      if JobGroupState_is_terminal (g_state group) then (None, r)
      else
        match group_jobs r !! gid with
        | None | Some [] => (None, r)
        | Some jobs =>
            let any_failed := existsb (fun j => bool_decide (j_state j = JFailed)) jobs in
            let any_cancelled := existsb (fun j => bool_decide (j_state j = JCancelled)) jobs in
            if any_failed || any_cancelled then
              let '(new_state, reason) :=
                if any_failed then
                  (GFailed,
                   match list_find (fun j => j_state j = JFailed) jobs with
                   | Some (_, j) => stage_failed_reason j
                   | None => "Stage failed"
                   end)
                else (GCancelled, "Cancelled: stage was cancelled") in
              let r1 := (update_state clk gid new_state r).2 in
              (Some new_state, alter_group (set_reason reason) gid r1)
            else if negb (forallb ended jobs) then (None, r)
            else if negb (bool_decide (g_reserved_stages group = [])) &&
                    negb (bool_decide (missing_stages (g_reserved_stages group) jobs = []))
            then (None, r)
            else
              let r1 := (update_state clk gid GSuccess r).2 in
              (Some GSuccess, alter_group (set_reason "All stages completed successfully") gid r1)
        end
  end.

(** Evict one group from both maps. *)
Definition remove_group (gid : Uuid) (r : JobGroupRegistry) : JobGroupRegistry :=
  {| groups := delete gid (groups r); group_jobs := delete gid (group_jobs r) |}.

(** The jobs that may still be handed to another worker. *)
Definition is_pending_job (j : Job) : bool :=
  match j_state j with JQueued | JAssigned => true | _ => false end.

Definition migrate_group (now : timestamp) (gid : Uuid) (new_worker_id : string) (r : JobGroupRegistry)
    : JobGroupRegistry :=
  alter_jobs (fmap (fun j => if is_pending_job j then {| j with j_assigned_worker := Some new_worker_id |} else j)) gid
    (alter_group (fun g => {| g with g_reserved_worker_id := Some new_worker_id; g_updated_at := now |}) gid r).

Definition fail_job (now : timestamp) (reason : string) (j : Job) : Job :=
  if ended j then j
  else {| j with
    j_state := JFailed;
    j_output := Some reason;
    j_status_reason := Some reason;
    j_updated_at := now;
    j_completed_at := Some now |}.

(** [clk 0] is read for the jobs, the rest by [update_state]. *)
Definition fail_group_jobs (clk : clock) (gid : Uuid) (reason : string) (r : JobGroupRegistry) : JobGroupRegistry :=
  (update_state (fun n => clk (S n)) gid GFailed (alter_jobs (fmap (fail_job (clk O) reason)) gid r)).2.

Definition on_group_completed (gid : Uuid) (r : JobGroupRegistry) : option string :=
  match groups r !! gid with
  | Some group => if JobGroupState_is_terminal (g_state group) then g_reserved_worker_id group else None
  | None => None
  end.

Definition can_submit_stage (gid : Uuid) (depends_on : list string) (r : JobGroupRegistry) : bool :=
  match depends_on with
  | [] => true
  | _ =>
      match group_jobs r !! gid with
      | None => false
      | Some jobs =>
          forallb (fun dep =>
            existsb (fun j => bool_decide (j_stage_name j = Some dep) && bool_decide (j_state j = JSuccess)) jobs)
            depends_on
      end
  end.

Definition get_parallel_stages (gid : Uuid) (r : JobGroupRegistry) : list (list string) :=
  match group_jobs r !! gid with
  | None => []
  | Some jobs => (fun j => [j_job_id j]) <$> filter (fun j => j_state j = JQueued) jobs
  end.

Definition is_active (g : JobGroup) : bool := negb (JobGroupState_is_terminal (g_state g)).

Section Iterating.
Context `{HI : HashIter}.

Definition group_evict_terminal (now max_age : Z) (r : JobGroupRegistry) : nat * JobGroupRegistry :=
  let cutoff := now - from_std_or_zero max_age in
  let to_remove :=
    (filter (fun kg => JobGroupState_is_terminal (g_state kg.2) = true /\ g_updated_at kg.2 < cutoff)
       (hiter (groups r))).*1 in
  (length to_remove, foldl (fun r' gid => remove_group gid r') r to_remove).

Definition active_groups (r : JobGroupRegistry) : list JobGroup :=
  filter (fun g => is_active g = true) (hvalues (groups r)).

Definition get_groups_for_worker (worker_id : string) (r : JobGroupRegistry) : list JobGroup :=
  filter (fun g => is_active g = true)
    (filter (fun g => g_reserved_worker_id g = Some worker_id) (hvalues (groups r))).

Definition has_pending (r : JobGroupRegistry) (gid : Uuid) : bool :=
  match group_jobs r !! gid with
  | Some jobs => existsb is_pending_job jobs
  | None => false
  end.

(** The groups to migrate and the groups to fail. *)
Definition handle_worker_death (worker_id : string) (r : JobGroupRegistry) : list Uuid * list Uuid :=
  let ids := g_id <$> get_groups_for_worker worker_id r in
  (List.filter (has_pending r) ids, List.filter (fun gid => negb (has_pending r gid)) ids).
End Iterating.

(** ** Facts about one operation *)

(** Each group is filed under its id and has a job list. *)
Definition groups_wf (r : JobGroupRegistry) : Prop :=
  map_Forall (fun gid g => g_id g = gid /\ is_Some (group_jobs r !! gid)) (groups r).

Lemma update_state_eq clk gid st r g :
  groups r !! gid = Some g ->
  update_state clk gid st r =
    if valid_transition (g_state g) st
    then (true, {| r with groups := <[gid := enter_state clk st g]> (groups r) |})
    else (false, r).
Proof. intros H. unfold update_state. by rewrite H. Qed.

Lemma update_state_other clk gid st r gid' :
  gid' <> gid -> groups (update_state clk gid st r).2 !! gid' = groups r !! gid'.
Proof.
  intros Hne. unfold update_state. destruct (groups r !! gid); [|done].
  destruct (valid_transition _ _); simpl; [by rewrite lookup_insert_ne|done].
Qed.

Lemma update_state_jobs clk gid st r : group_jobs (update_state clk gid st r).2 = group_jobs r.
Proof. unfold update_state. by destruct (groups r !! gid); [destruct (valid_transition _ _)|]. Qed.

Lemma valid_to_failure old st :
  st = GFailed \/ st = GCancelled \/ st = GExpired -> valid_transition old st = true.
Proof. intros [->|[->| ->]]; by destruct old. Qed.

(** The group after a completed transition with its reason. *)
Lemma update_then_reason clk gid st r g reason :
  groups r !! gid = Some g ->
  groups (alter_group (set_reason reason) gid (update_state clk gid st r).2) !! gid =
    Some (set_reason reason (if valid_transition (g_state g) st then enter_state clk st g else g)).
Proof.
  intros Hg. simpl. rewrite lookup_alter_eq, (update_state_eq _ _ _ _ g Hg).
  destruct (valid_transition _ _); simpl; [by rewrite lookup_insert_eq|by rewrite Hg].
Qed.

(** The outcome of a group by its jobs: what the group should become. *)
Definition completion_outcome (reserved : list string) (jobs : list Job) : option JobGroupState :=
  if decide (jobs = []) then None
  else if decide (Exists (fun j => j_state j = JFailed) jobs) then Some GFailed
  else if decide (Exists (fun j => j_state j = JCancelled) jobs) then Some GCancelled
  else if decide (Forall (fun j => j_state j = JSuccess \/ j_state j = JUnknown) jobs /\
                  Forall (fun s => Exists (fun j => j_stage_name j = Some s) jobs) reserved)
  then Some GSuccess
  else None.

Lemma existsb_state st jobs :
  existsb (fun j => bool_decide (j_state j = st)) jobs = bool_decide (Exists (fun j => j_state j = st) jobs).
Proof.
  apply eq_true_iff_eq. rewrite existsb_exists, bool_decide_eq_true, Exists_exists.
  setoid_rewrite bool_decide_eq_true. by setoid_rewrite list_elem_of_In.
Qed.

Lemma submitted_iff s jobs :
  s ∈ submitted_stages jobs <-> Exists (fun j => j_stage_name j = Some s) jobs.
Proof. unfold submitted_stages. rewrite list_elem_of_omap, Exists_exists. done. Qed.

Lemma missing_nil_iff reserved jobs :
  missing_stages reserved jobs = [] <->
  Forall (fun s => Exists (fun j => j_stage_name j = Some s) jobs) reserved.
Proof.
  unfold missing_stages. rewrite Forall_forall. setoid_rewrite <- submitted_iff. split.
  - intros Hn s Hs. destruct (decide (s ∈ submitted_stages jobs)) as [|Hx]; [done|].
    assert (Hin : s ∈ filter (fun s => s ∉ submitted_stages jobs) reserved) by (by apply list_elem_of_filter).
    rewrite Hn in Hin. by apply elem_of_nil in Hin.
  - intros Hall. destruct (filter _ reserved) as [|s l] eqn:E; [done|].
    assert (Hin : s ∈ filter (fun s => s ∉ submitted_stages jobs) reserved) by (rewrite E; left).
    apply list_elem_of_filter in Hin as [Hs Hin]. by destruct Hs; apply Hall.
Qed.

Lemma ended_all_iff jobs :
  ~ Exists (fun j => j_state j = JFailed) jobs -> ~ Exists (fun j => j_state j = JCancelled) jobs ->
  forallb ended jobs = true <-> Forall (fun j => j_state j = JSuccess \/ j_state j = JUnknown) jobs.
Proof.
  rewrite !Exists_exists. intros Hf Hc. rewrite forallb_forall, Forall_forall.
  setoid_rewrite <- list_elem_of_In. apply forall_proper. intros j. unfold ended.
  split; intros H Hj; specialize (H Hj); destruct (j_state j) eqn:E; try done; try tauto;
    try (by destruct H); exfalso; eauto.
Qed.

(** The value [check_group_completion] returns, and the states it leaves. *)
Lemma check_group_completion_value clk gid r g jobs :
  groups r !! gid = Some g -> group_jobs r !! gid = Some jobs -> is_active g = true ->
  (check_group_completion clk gid r).1 = completion_outcome (g_reserved_stages g) jobs /\
  group_jobs (check_group_completion clk gid r).2 = group_jobs r /\
  (forall gid', gid' <> gid -> groups (check_group_completion clk gid r).2 !! gid' = groups r !! gid') /\
  match completion_outcome (g_reserved_stages g) jobs with
  | None => (check_group_completion clk gid r).2 = r
  | Some st => exists reason, groups (check_group_completion clk gid r).2 !! gid =
      Some (set_reason reason (if valid_transition (g_state g) st then enter_state clk st g else g))
  end.
Proof.
  intros Hg Hj Ha. unfold is_active in Ha. apply negb_true_iff in Ha.
  unfold check_group_completion, completion_outcome. rewrite Hg, Ha, Hj.
  destruct jobs as [|j0 js]; [by rewrite decide_True|].
  rewrite decide_False by done. set (jobs := j0 :: js). rewrite !existsb_state.
  assert (Hupd : forall st reason,
    group_jobs (alter_group (set_reason reason) gid (update_state clk gid st r).2) = group_jobs r /\
    (forall gid', gid' <> gid ->
       groups (alter_group (set_reason reason) gid (update_state clk gid st r).2) !! gid' = groups r !! gid')).
  { intros st reason. split; [apply update_state_jobs|].
    intros gid' Hne. simpl. rewrite lookup_alter_ne by done. by apply update_state_other. }
  case_bool_decide as Hf.
  { rewrite decide_True by done. cbn -[update_state alter_group jobs]. split; [done|].
    split_and!; try apply Hupd. eexists. by apply update_then_reason. }
  rewrite decide_False by done. cbn -[update_state alter_group jobs ended].
  case_bool_decide as Hc.
  { rewrite decide_True by done. cbn -[update_state alter_group jobs]. split; [done|].
    split_and!; try apply Hupd. eexists. by apply update_then_reason. }
  rewrite decide_False by done. cbn -[update_state alter_group jobs ended].
  pose proof (ended_all_iff jobs Hf Hc) as He. pose proof (missing_nil_iff (g_reserved_stages g) jobs) as Hm.
  destruct (forallb ended jobs); cbn -[update_state alter_group jobs].
  2: { rewrite decide_False by naive_solver. done. }
  destruct (bool_decide (missing_stages (g_reserved_stages g) jobs = [])) eqn:Hmb.
  - apply bool_decide_eq_true in Hmb. rewrite andb_false_r, decide_True by naive_solver.
    split; [done|]. split_and!; try apply Hupd. eexists. by apply update_then_reason.
  - apply bool_decide_eq_false in Hmb. rewrite (bool_decide_eq_false_2 (g_reserved_stages g = [])).
    + cbn -[update_state alter_group jobs]. rewrite decide_False by naive_solver. done.
    + intros Hn. by rewrite Hn in Hmb.
Qed.

(** ** Group completion *)

(** C5. [check_group_completion] computes [completion_outcome]: for a group
    that is registered and not terminal, the value returned is [Failed] as soon
    as one job failed, else [Cancelled] as soon as one was cancelled, else
    [Success] exactly when there is a job, all of them ended and every reserved
    stage was submitted; otherwise nothing changes. When there is an outcome the
    group records a reason, and its state becomes the outcome, with one
    exception: [Success] is reported without being stored when the group is not
    [Running]. Jobs and other groups are never touched; an unknown or terminal
    group is a no-op. *)
Theorem group_completion_refines (clk : clock) (gid : Uuid) (r : JobGroupRegistry) :
  let '(out, r') := check_group_completion clk gid r in
  match groups r !! gid, group_jobs r !! gid with
  | Some g, Some jobs =>
      if is_active g then
        out = completion_outcome (g_reserved_stages g) jobs /\
        group_jobs r' = group_jobs r /\
        (forall gid', gid' <> gid -> groups r' !! gid' = groups r !! gid') /\
        match out with
        | None => r' = r
        | Some st => exists g', groups r' !! gid = Some g' /\ is_Some (g_status_reason g') /\
            (if decide (st = GSuccess /\ g_state g <> GRunning)
             then g_state g' = g_state g
             else g_state g' = st /\ g_completed_at g' = Some (clk 1%nat))
        end
      else out = None /\ r' = r
  | _, _ => out = None /\ r' = r
  end.
Proof.
  destruct (groups r !! gid) as [g|] eqn:Hg.
  2: { unfold check_group_completion. by rewrite Hg. }
  destruct (group_jobs r !! gid) as [jobs|] eqn:Hj.
  2: { unfold check_group_completion. rewrite Hg, Hj. by destruct (JobGroupState_is_terminal _). }
  destruct (is_active g) eqn:Ha.
  2: { unfold check_group_completion. rewrite Hg. unfold is_active in Ha.
       apply negb_false_iff in Ha. by rewrite Ha. }
  pose proof (check_group_completion_value clk gid r g jobs Hg Hj Ha) as (Hv & Hjs & Hfr & Hout).
  destruct (check_group_completion clk gid r) as [out r']. simpl in *. subst out.
  split_and!; [done..|]. destruct (completion_outcome _ jobs) as [st|] eqn:Ho; [|done].
  destruct Hout as [reason Hr']. eexists. split; [exact Hr'|]. split; [by eexists|].
  assert (Hst : st = GFailed \/ st = GCancelled \/ st = GSuccess).
  { unfold completion_outcome in Ho. repeat case_decide; simplify_eq; auto. }
  unfold is_active in Ha. case_decide as Hd.
  - destruct Hd as [-> Hnr]. by destruct (g_state g) eqn:E; simpl; rewrite ?E.
  - destruct Hst as [->|[->| ->]]; [by destruct (g_state g)..|].
    destruct (decide (g_state g = GRunning)) as [->|]; [done|tauto].
Qed.

(** A group whose jobs were all lost ([Unknown], set when a worker
    disappears or the controller restarts) and whose reserved stages were all
    submitted is closed as [Success] with the reason "All stages completed
    successfully". *)
Theorem lost_jobs_complete_as_success (clk : clock) (gid : Uuid) (r : JobGroupRegistry) (g : JobGroup)
    (jobs : list Job) :
  groups r !! gid = Some g -> g_state g = GRunning ->
  group_jobs r !! gid = Some jobs -> jobs <> [] ->
  Forall (fun j => j_state j = JUnknown) jobs ->
  Forall (fun s => Exists (fun j => j_stage_name j = Some s) jobs) (g_reserved_stages g) ->
  (check_group_completion clk gid r).1 = Some GSuccess /\
  exists g', groups (check_group_completion clk gid r).2 !! gid = Some g' /\ g_state g' = GSuccess.
Proof.
  intros Hg Hs Hj Hne Hu Hres.
  assert (Ha : is_active g = true) by (unfold is_active; by rewrite Hs).
  pose proof (check_group_completion_value clk gid r g jobs Hg Hj Ha) as (Hv & _ & _ & Hout).
  assert (Hn : forall st, st <> JUnknown -> ~ Exists (fun j => j_state j = st) jobs).
  { intros st Hst He. apply Exists_exists in He as (j & Hin & Hjs).
    rewrite Forall_forall in Hu. specialize (Hu j Hin). congruence. }
  assert (Ho : completion_outcome (g_reserved_stages g) jobs = Some GSuccess).
  { unfold completion_outcome. rewrite decide_False by done.
    rewrite decide_False by (by apply Hn). rewrite decide_False by (by apply Hn).
    rewrite decide_True; [done|]. split; [|done]. eapply Forall_impl; [exact Hu|]. simpl. auto. }
  rewrite Ho in Hv, Hout. split; [done|]. destruct Hout as [reason Hr]. rewrite Hs in Hr. simpl in Hr.
  eexists. split; [exact Hr|]. done.
Qed.

Definition lost_group : JobGroupRegistry :=
  add_job_to_group 7%N {| (Job_new 0 "j" "make" JTCommon 1 1 1) with
      j_state := JUnknown; j_stage_name := Some "build" |}
    (add_group {| (JobGroup_new_with_id 0 7%N None None None "api") with
      g_reserved_stages := ["build"] |} JobGroupRegistry_new).

Lemma lost_jobs_complete_as_success_witness :
  (check_group_completion (fun _ => 5) 7%N lost_group).1 = Some GSuccess.
Proof.
  eapply (lost_jobs_complete_as_success (fun _ => 5) 7%N lost_group);
    [vm_compute; reflexivity|reflexivity|vm_compute; reflexivity|discriminate| |].
  - repeat constructor.
  - repeat constructor.
Defined.

(** ** The registry as a transition system *)

(** A terminal group carries its completion time. *)
Definition closed_stamped (g : JobGroup) : Prop :=
  JobGroupState_is_terminal (g_state g) = true -> is_Some (g_completed_at g).

Definition registry_ok (r : JobGroupRegistry) : Prop :=
  groups_wf r /\ map_Forall (fun _ => closed_stamped) (groups r).

Inductive gr_step `{HI : HashIter} (uuid_v5 : string -> string) : JobGroupRegistry -> JobGroupRegistry -> Prop :=
| gr_add g r : closed_stamped g -> gr_step uuid_v5 r (add_group g r)
| gr_touch now gid r : gr_step uuid_v5 r (touch_activity now gid r)
| gr_update clk gid st r : gr_step uuid_v5 r (update_state clk gid st r).2
| gr_add_job gid j r : gr_step uuid_v5 r (add_job_to_group gid j r)
| gr_stale now r : gr_step uuid_v5 r (group_mark_stale_jobs_unknown now r).2
| gr_report clk gid id st code r : gr_step uuid_v5 r (update_job_in_group uuid_v5 clk gid id st code r)
| gr_check clk gid r : gr_step uuid_v5 r (check_group_completion clk gid r).2
| gr_migrate now gid w r : gr_step uuid_v5 r (migrate_group now gid w r)
| gr_fail clk gid reason r : gr_step uuid_v5 r (fail_group_jobs clk gid reason r)
| gr_evict now age r : gr_step uuid_v5 r (group_evict_terminal now age r).2.

Create HintDb groups discriminated.

Lemma ok_alter_group f gid r :
  (forall g, g_id (f g) = g_id g) -> (forall g, closed_stamped g -> closed_stamped (f g)) ->
  registry_ok r -> registry_ok (alter_group f gid r).
Proof.
  intros Hid Hc [Hw Hs]. split; intros gid' g'; simpl; intros [(-> & g0 & Hg0 & ->)|[Hne Hg]]%lookup_alter_Some;
    rewrite ?Hid; eauto.
Qed.

Lemma ok_alter_jobs f gid r : registry_ok r -> registry_ok (alter_jobs f gid r).
Proof.
  intros [Hw Hs]. split; [|done]. intros gid' g Hg. destruct (Hw _ _ Hg) as [Hid Hj].
  split; [done|]. simpl. by apply lookup_alter_is_Some.
Qed.

Lemma ok_update_state clk gid st r : registry_ok r -> registry_ok (update_state clk gid st r).2.
Proof.
  intros [Hw Hs]. unfold update_state. destruct (groups r !! gid) as [g|] eqn:Hg; [|done].
  destruct (valid_transition _ _); [|done]. split; simpl.
  - intros gid' g' Hg'. simpl in *. apply lookup_insert_Some in Hg' as [[<- <-]|[Hne Hg']]; [exact (Hw _ _ Hg)|by apply Hw].
  - apply map_Forall_insert_2; [|done]. intros Ht. simpl in *. rewrite Ht. by eexists.
Qed.

Lemma ok_add_group g r : closed_stamped g -> registry_ok r -> registry_ok (add_group g r).
Proof.
  intros Hg [Hw Hs]. split; [|by apply map_Forall_insert_2]. intros gid g' Hg'. simpl in *.
  assert (Hmono : is_Some (group_jobs r !! gid) \/ gid = g_id g ->
                  is_Some (group_jobs (add_group g r) !! gid)).
  { simpl. intros [H| ->]; destruct (group_jobs r !! g_id g) eqn:E; [done| |by rewrite E|].
    - rewrite lookup_insert_is_Some'. auto.
    - rewrite lookup_insert_eq. by eexists. }
  apply lookup_insert_Some in Hg' as [[<- <-]|[Hne Hg']]; [auto|].
  destruct (Hw _ _ Hg'). auto.
Qed.

Lemma ok_add_job gid j r : registry_ok r -> registry_ok (add_job_to_group gid j r).
Proof.
  intros [Hw Hs]. split; [|done]. intros gid' g Hg. destruct (Hw _ _ Hg) as [Hid Hj].
  split; [done|]. simpl. rewrite lookup_insert_is_Some'. auto.
Qed.

Lemma ok_stale now r : registry_ok r -> registry_ok (group_mark_stale_jobs_unknown now r).2.
Proof.
  intros [Hw Hs]. split; [|done]. intros gid g Hg. destruct (Hw _ _ Hg) as [Hid Hj].
  split; [done|]. simpl. rewrite lookup_fmap. by apply fmap_is_Some.
Qed.

Lemma ok_remove gid r : registry_ok r -> registry_ok (remove_group gid r).
Proof.
  intros [Hw Hs]. split; [|by apply map_Forall_delete]. intros gid' g Hg. simpl in *.
  apply lookup_delete_Some in Hg as [Hne Hg]. destruct (Hw _ _ Hg). by rewrite lookup_delete_ne.
Qed.

Lemma ok_remove_all gids r :
  registry_ok r -> registry_ok (foldl (fun r' gid => remove_group gid r') r gids).
Proof. revert r. induction gids as [|gid gids IH]; intros r Hr; [done|]. by apply IH, ok_remove. Qed.

#[export] Hint Resolve ok_alter_group ok_alter_jobs ok_update_state ok_add_group ok_add_job ok_stale
  ok_remove ok_remove_all : groups.

Lemma ok_check clk gid r : registry_ok r -> registry_ok (check_group_completion clk gid r).2.
Proof.
  intros Hr. unfold check_group_completion. destruct (groups r !! gid) as [g|]; [|done].
  destruct (JobGroupState_is_terminal _); [done|]. destruct (group_jobs r !! gid) as [[|j js]|]; [done| |done].
  destruct (_ || _); [destruct (existsb _ _)|destruct (negb _); [done|destruct (_ && _); [done|]]];
    simpl; apply ok_alter_group; auto with groups.
Qed.

(** Every operation of the registry preserves its invariant: each group is
    filed under its own id, has a job list, and carries a completion time if it
    is terminal. *)
Theorem group_registry_invariant `{HI : HashIter} (uuid_v5 : string -> string) (r r' : JobGroupRegistry) :
  registry_ok r -> rtc (gr_step uuid_v5) r r' -> registry_ok r'.
Proof.
  intros Hr Hs. induction Hs as [|r r1 r2 Hstep _ IH]; [done|]. apply IH. clear IH.
  destruct Hstep; auto using ok_check with groups.
  - by apply ok_alter_group.
  - by apply ok_alter_jobs.
  - by apply ok_alter_jobs, ok_alter_group.
  - by apply ok_update_state, ok_alter_jobs.
  - by apply ok_remove_all.
Qed.

Lemma group_registry_invariant_witness :
  registry_ok (check_group_completion (fun _ => 5) 7%N lost_group).2.
Proof.
  apply (group_registry_invariant (HI := map_iter) (fun s => s) JobGroupRegistry_new).
  - split; apply map_Forall_empty.
  - eapply rtc_l.
    { apply (gr_add _ {| (JobGroup_new_with_id 0 7%N None None None "api") with g_reserved_stages := ["build"] |}).
      intros Ht. discriminate Ht. }
    eapply rtc_l; [apply gr_add_job|]. eapply rtc_l; [apply gr_check|]. apply rtc_refl.
Defined.

(** ** Eviction *)

Lemma remove_all_lookup gids r gid :
  let r' := foldl (fun r' gid => remove_group gid r') r gids in
  groups r' !! gid = (if decide (gid ∈ gids) then None else groups r !! gid) /\
  group_jobs r' !! gid = (if decide (gid ∈ gids) then None else group_jobs r !! gid).
Proof.
  revert r. induction gids as [|k gids IH]; intros r; [done|].
  simpl. destruct (IH (remove_group k r)) as [-> ->]. simpl.
  destruct (decide (gid ∈ gids)), (decide (gid ∈ k :: gids)) as [Hin|Hin]; try done.
  - by destruct Hin; right.
  - apply elem_of_cons in Hin as [<-|]; [by rewrite !lookup_delete_eq|done].
  - assert (k <> gid) by (intros ->; apply Hin; left). by rewrite !lookup_delete_ne.
Qed.

Lemma remove_all_size gids r :
  NoDup gids -> (forall gid, gid ∈ gids -> is_Some (groups r !! gid)) ->
  (size (groups (foldl (fun r' gid => remove_group gid r') r gids)) + length gids = size (groups r))%nat.
Proof.
  revert r. induction gids as [|k gids IH]; intros r Hnd Hin; simpl; [lia|].
  apply NoDup_cons in Hnd as [Hk Hnd]. assert (is_Some (groups r !! k)) as Hs by (apply Hin; left).
  pose proof (map_size_delete_Some k (groups r) Hs) as Hd.
  assert (size (groups r) <> 0%nat) by (destruct Hs as [g Hg]; by eapply map_size_ne_0_lookup_2).
  specialize (IH (remove_group k r) Hnd). simpl in IH. assert (Hin' : forall gid, gid ∈ gids -> is_Some (delete k (groups r) !! gid)); [|specialize (IH Hin'); lia].
  intros gid Hgid. rewrite lookup_delete_ne by (by intros ->). apply Hin. by right.
Qed.

Definition evictable (cutoff : Z) (g : JobGroup) : Prop :=
  JobGroupState_is_terminal (g_state g) = true /\ g_updated_at g < cutoff.

#[export] Instance evictable_dec cutoff g : Decision (evictable cutoff g).
Proof. unfold evictable. apply _. Defined.

Lemma evict_list_iff `{HI : HashIter} cutoff (m : gmap Uuid JobGroup) gid :
  gid ∈ (filter (fun kg => evictable cutoff kg.2) (hiter m)).*1 <->
  exists g, m !! gid = Some g /\ evictable cutoff g.
Proof.
  rewrite list_elem_of_fmap. split.
  - intros ([k g] & -> & Hin). apply list_elem_of_filter in Hin as [He Hin].
    rewrite hiter_perm in Hin. apply elem_of_map_to_list in Hin. eauto.
  - intros (g & Hg & He). exists (gid, g). split; [done|]. apply list_elem_of_filter.
    split; [done|]. rewrite hiter_perm. by apply elem_of_map_to_list.
Qed.

(** [evict_terminal] removes, from both maps at once, exactly the groups
    that are terminal and were last updated before the cutoff, keeps every
    other entry unchanged, and returns the number of groups removed. *)
Theorem evict_terminal_exact `{HI : HashIter} (now max_age : Z) (r : JobGroupRegistry) :
  let '(n, r') := group_evict_terminal now max_age r in
  let cutoff := now - from_std_or_zero max_age in
  groups r' = filter (fun kg => ~ evictable cutoff kg.2) (groups r) /\
  (forall gid, group_jobs r' !! gid =
     match groups r !! gid with
     | Some g => if decide (evictable cutoff g) then None else group_jobs r !! gid
     | None => group_jobs r !! gid
     end) /\
  (size (groups r') + n = size (groups r))%nat.
Proof.
  unfold group_evict_terminal. set (cutoff := now - _).
  set (gone := (filter (fun kg => evictable cutoff kg.2) (hiter (groups r))).*1).
  change (filter (fun kg : Uuid * JobGroup => _ /\ _) _).*1 with gone. simpl.
  assert (Hgone : forall gid, gid ∈ gone <-> exists g, groups r !! gid = Some g /\ evictable cutoff g)
    by (intros; apply evict_list_iff).
  assert (Hgr : groups (foldl (fun r' gid => remove_group gid r') r gone) =
                filter (fun kg => ~ evictable cutoff kg.2) (groups r)).
  { apply map_eq. intros gid. destruct (remove_all_lookup gone r gid) as [-> _].
    symmetry. destruct (groups r !! gid) as [g|] eqn:Hg; case_decide as Hd; rewrite Hgone in Hd.
    - apply map_lookup_filter_None. naive_solver.
    - apply map_lookup_filter_Some. naive_solver.
    - apply map_lookup_filter_None. naive_solver.
    - apply map_lookup_filter_None. naive_solver. }
  split; [exact Hgr|]. split.
  - intros gid. destruct (remove_all_lookup gone r gid) as [_ ->]. case_decide as Hd; rewrite Hgone in Hd.
    + destruct Hd as (g & -> & He). by rewrite decide_True.
    + destruct (groups r !! gid) as [g|]; [|done]. rewrite decide_False; naive_solver.
  - apply remove_all_size; [|naive_solver]. unfold gone.
    apply (sublist_NoDup _ (hkeys (groups r))); [apply NoDup_hkeys|].
    apply fmap_sublist, sublist_filter.
Qed.

(** ** Reports on one job *)

Lemma update_first_spec p f l :
  match list_find (fun j => p j = true) l with
  | Some (i, j) => update_first p f l = <[i := f j]> l
  | None => update_first p f l = l
  end.
Proof.
  induction l as [|j l IH]; [done|]. simpl. case_decide as Hp; rewrite ?Hp; [done|].
  apply not_true_is_false in Hp. rewrite Hp.
  destruct (list_find _ l) as [[i j']|]; simpl; by rewrite IH.
Qed.

Lemma job_id_matches_iff uuid_v5 stored raw :
  job_id_matches uuid_v5 stored raw = true <-> stored = raw \/ stored = uuid_v5 raw.
Proof. unfold job_id_matches. repeat case_bool_decide; naive_solver. Qed.

(** A status report reaches exactly one job of the group: the first whose
    stored id is the reported id or the version-5 UUID derived from it. That
    job gets the state and exit code, and a completion time and reason if the
    state is terminal; its identity, stage and assignment are kept; no other
    job, group or job list changes; with no such job the registry is unchanged. *)
Theorem report_updates_one_job (uuid_v5 : string -> string) (clk : clock) (gid : Uuid) (id : string)
    (st : JobState) (code : option Z) (r : JobGroupRegistry) :
  let r' := update_job_in_group uuid_v5 clk gid id st code r in
  groups r' = groups r /\
  (forall gid', gid' <> gid -> group_jobs r' !! gid' = group_jobs r !! gid') /\
  match group_jobs r !! gid with
  | None => r' = r
  | Some jobs =>
      (r' = r /\ Forall (fun j => j_job_id j <> id /\ j_job_id j <> uuid_v5 id) jobs) \/
      exists before j after, jobs = before ++ j :: after /\
        Forall (fun j => j_job_id j <> id /\ j_job_id j <> uuid_v5 id) before /\
        (j_job_id j = id \/ j_job_id j = uuid_v5 id) /\
        exists j', group_jobs r' !! gid = Some (before ++ j' :: after) /\
          j_state j' = st /\ j_exit_code j' = code /\
          j_job_id j' = j_job_id j /\ j_stage_name j' = j_stage_name j /\
          j_assigned_worker j' = j_assigned_worker j /\
          (JobState_is_terminal st = true -> j_completed_at j' = Some (clk 1%nat) /\ is_Some (j_status_reason j'))
  end.
Proof.
  intros r'. split; [done|]. split; [intros; simpl; by rewrite lookup_alter_ne|].
  destruct (group_jobs r !! gid) as [jobs|] eqn:Hj.
  2: { destruct r as [gs js]. unfold r', update_job_in_group, alter_jobs. simpl in *.
       by rewrite alter_id by naive_solver. }
  pose proof (update_first_spec (fun j => job_id_matches uuid_v5 (j_job_id j) id) (report_job clk st code) jobs) as Hu.
  assert (Hm : forall j : Job, ~ job_id_matches uuid_v5 (j_job_id j) id = true ->
                               j_job_id j <> id /\ j_job_id j <> uuid_v5 id).
  { intros j. rewrite job_id_matches_iff. tauto. }
  destruct (list_find _ jobs) as [[i j]|] eqn:Hf.
  - right. apply list_find_Some in Hf as (Hi & Hp & Hb).
    pose proof (take_drop_middle jobs i j Hi) as Hsplit.
    exists (take i jobs), j, (drop (S i) jobs). split; [done|]. split.
    + apply Forall_forall. intros x Hx. apply list_elem_of_lookup in Hx as [k Hk].
      apply lookup_take_Some in Hk as [Hk Hki]. apply Hm. eapply Hb; eauto.
    + split; [by apply job_id_matches_iff|]. exists (report_job clk st code j). split.
      * simpl. rewrite lookup_alter_eq, Hj. simpl. rewrite Hu. f_equal.
        apply insert_take_drop. by eapply lookup_lt_Some.
      * unfold report_job. destruct (JobState_is_terminal st) eqn:Ht; simpl; split_and!; try done.
        intros _. split; [done|]. by destruct st; try discriminate Ht; eexists.
  - left. apply list_find_None in Hf. split; [|exact (Forall_impl _ _ _ Hf Hm)].
    destruct r as [gs js]. unfold r', update_job_in_group, alter_jobs. simpl in *.
    rewrite alter_id; [done|]. intros l Hl. rewrite Hj in Hl. injection Hl as <-. exact Hu.
Qed.

(** ** Worker death *)

Definition active_on (w : string) (r : JobGroupRegistry) (gid : Uuid) : Prop :=
  exists g, groups r !! gid = Some g /\ g_reserved_worker_id g = Some w /\ is_active g = true.

Lemma groups_for_worker_iff `{HI : HashIter} w r gid :
  groups_wf r -> gid ∈ g_id <$> get_groups_for_worker w r <-> active_on w r gid.
Proof.
  intros Hw. unfold get_groups_for_worker. rewrite list_elem_of_fmap. split.
  - intros (g & -> & Hin). rewrite !list_elem_of_filter, elem_of_hvalues in Hin.
    destruct Hin as (Ha & Hr & k & Hk). destruct (Hw _ _ Hk) as [<- _]. by exists g.
  - intros (g & Hg & Hr & Ha). exists g. destruct (Hw _ _ Hg) as [-> _]. split; [done|].
    rewrite !list_elem_of_filter, elem_of_hvalues. eauto.
Qed.

Lemma NoDup_group_ids `{HI : HashIter} w r :
  groups_wf r -> NoDup (g_id <$> get_groups_for_worker w r).
Proof.
  intros Hw. unfold get_groups_for_worker.
  apply (sublist_NoDup _ (g_id <$> hvalues (groups r))).
  - replace (g_id <$> hvalues (groups r)) with (hkeys (groups r)); [apply NoDup_hkeys|].
    unfold hkeys, hvalues. rewrite <- list_fmap_compose. apply list_fmap_ext.
    intros i [k g] Hi. simpl. apply list_elem_of_lookup_2, elem_of_hiter in Hi. symmetry. by apply Hw.
  - apply fmap_sublist. etrans; apply sublist_filter.
Qed.

(** When a worker dies, [handle_worker_death] classifies every active
    group reserved on it exactly once: into the groups to migrate if some job
    of the group is still queued or assigned, else into the groups to fail. No
    other group is listed. *)
Theorem worker_death_partition `{HI : HashIter} (w : string) (r : JobGroupRegistry) :
  groups_wf r ->
  let '(to_migrate, to_fail) := handle_worker_death w r in
  NoDup (to_migrate ++ to_fail) /\
  (forall gid, gid ∈ to_migrate <-> active_on w r gid /\
     exists jobs, group_jobs r !! gid = Some jobs /\ Exists (fun j => is_pending_job j = true) jobs) /\
  (forall gid, gid ∈ to_fail <-> active_on w r gid /\
     forall jobs, group_jobs r !! gid = Some jobs -> Forall (fun j => is_pending_job j = false) jobs).
Proof.
  intros Hw. unfold handle_worker_death. set (ids := g_id <$> _).
  assert (Hin : forall gid, In gid ids <-> active_on w r gid).
  { intros gid. rewrite <- list_elem_of_In. by apply groups_for_worker_iff. }
  assert (Hpend : forall gid, has_pending r gid = true <->
    exists jobs, group_jobs r !! gid = Some jobs /\ Exists (fun j => is_pending_job j = true) jobs).
  { intros gid. unfold has_pending. destruct (group_jobs r !! gid) as [jobs|]; [|naive_solver].
    rewrite existsb_exists. setoid_rewrite <- list_elem_of_In. setoid_rewrite Exists_exists. naive_solver. }
  split_and!.
  - apply NoDup_app. split_and!.
    + apply NoDup_ListNoDup, List.NoDup_filter, NoDup_ListNoDup. by apply NoDup_group_ids.
    + intros gid H1 H2. rewrite list_elem_of_In, filter_In in H1, H2. destruct H1 as [_ H1], H2 as [_ H2].
      by rewrite H1 in H2.
    + apply NoDup_ListNoDup, List.NoDup_filter, NoDup_ListNoDup. by apply NoDup_group_ids.
  - intros gid. by rewrite list_elem_of_In, filter_In, Hin, Hpend.
  - intros gid. rewrite list_elem_of_In, filter_In, Hin, negb_true_iff, <- not_true_iff_false, Hpend.
    setoid_rewrite Exists_exists. setoid_rewrite Forall_forall. split; intros [Ha Hp]; (split; [done|]).
    + intros jobs Hj j Hx. apply not_true_is_false. intros Ht. apply Hp. eauto.
    + intros (jobs & Hj & j & Hx & Ht). specialize (Hp jobs Hj j Hx). congruence.
Qed.

Definition on_worker (w : string) (gid : Uuid) (st : JobState) (r : JobGroupRegistry) : JobGroupRegistry :=
  add_job_to_group gid {| (Job_new 0 "j" "make" JTCommon 1 1 1) with j_state := st |}
    (add_group {| (JobGroup_new_with_id 0 gid None None None "api") with g_reserved_worker_id := Some w |} r).

Lemma ok_on_worker w gid st r : registry_ok r -> registry_ok (on_worker w gid st r).
Proof. intros Hr. by apply ok_add_job, ok_add_group; [intros Ht|]. Qed.

Lemma worker_death_partition_witness :
  let r := on_worker "w" 1%N JQueued (on_worker "w" 2%N JRunning JobGroupRegistry_new) in
  groups_wf r /\ handle_worker_death (HI := map_iter) "w" r = ([1%N], [2%N]) /\
  NoDup ([1%N] ++ [2%N]).
Proof.
  intros r. assert (groups_wf r) as Hw.
  { apply (ok_on_worker "w" 1%N JQueued), (ok_on_worker "w" 2%N JRunning). split; apply map_Forall_empty. }
  split; [exact Hw|]. assert (E : handle_worker_death (HI := map_iter) "w" r = ([1%N], [2%N])) by (vm_compute; reflexivity).
  split; [exact E|]. pose proof (worker_death_partition (HI := map_iter) "w" r Hw) as Hp.
  rewrite E in Hp. apply Hp.
Defined.
