(* ===== verification/QueryLexer.v ===== *)
(** * ChQL: syntax tree, errors and lexer
    (crates/ci-controller/src/query/ast.rs, error.rs, lexer.rs)

    A Rust [String] is the [string] of its UTF-8 bytes. The token rules are the
    [#[token]] and [#[regex]] attributes of [enum Token]; the attribute macro
    resolves them by its documented rule, the longest match and then the highest
    priority, which is [longest_match] over the table [rules]. A negated class
    or [.] matches one character, that is a whole UTF-8 sequence; since the bytes
    of a multi-byte sequence are never a quote, a backslash or a newline, a
    byte-wise match of the string rule covers the same text. *)

From Stdlib Require Import ZArith Lia Ascii.
From stdpp Require Import strings list sets fin_sets.
From S2P Require Import Prelude F64.

(** ** ast.rs *)

Inductive CmpOp := Eq | Neq | Gt | Gte | Lt | Lte | IlikeContains | Regex | Wildcard.

#[export] Instance CmpOp_eq_dec : EqDecision CmpOp.
Proof. solve_decision. Defined.

Inductive Value :=
| VStr (v : string)
| VNum (v : f64)
| VDate (v : string).

Inductive Ast :=
| AAnd (left right : Ast)
| AOr (left right : Ast)
| ANot (expr : Ast)
| ACmp (field : string) (op : CmpOp) (value : Value)
| AInRange (field : string) (lo hi : Value).

(** ** error.rs *)

Record ChqlError := {
  message : string;
  position : option nat;
  hint : option string
}.

Definition ChqlError_new (msg : string) : ChqlError :=
  {| message := msg; position := None; hint := None |}.

Definition err_at (msg : string) (pos : nat) : ChqlError :=
  {| message := msg; position := Some pos; hint := None |}.

Definition with_hint (h : string) (e : ChqlError) : ChqlError := {| e with hint := Some h |}.

(** ** lexer.rs *)

Record StrLit := {
  lit_value : string;
  terminated : bool
}.

Inductive Token :=
| TBangEq | TGte | TLte | TBang | TGt | TLt | TColon | TComma
| TLBracket | TRBracket | TLParen | TRParen | TAnd | TOr | TNot
| TString (s : StrLit)
| TNumber (n : f64)
| TIdent (s : string).

Record Range := {
  r_start : nat;
  r_end : nat
}.

(** Bytes with a name: the double quote, the backslash, newline and tab. *)
Definition quote : ascii := "034"%char.
Definition backslash : ascii := "092"%char.
Definition newline : ascii := "010"%char.
Definition tab : ascii := "009"%char.

Definition is_blank (c : ascii) : bool :=
  bool_decide (c ∈ [" "%char; tab; "013"%char; newline]).

Definition in_range (lo hi : ascii) (c : ascii) : bool :=
  ((N_of_ascii lo <=? N_of_ascii c) && (N_of_ascii c <=? N_of_ascii hi))%N.

Definition is_digit (c : ascii) : bool := in_range "0" "9" c.

(** The classes [A-Za-z0-9_\-] and [A-Za-z0-9_./+\-*]. *)
Definition ident_start (c : ascii) : bool :=
  in_range "A" "Z" c || in_range "a" "z" c || is_digit c || bool_decide (c ∈ ["_"; "-"]%char).

Definition ident_char (c : ascii) : bool :=
  ident_start c || bool_decide (c ∈ ["."; "/"; "+"; "*"]%char).

(** A pattern gives the length of its longest match at the start of the text. *)
Abbreviation pattern := (string -> option nat) (only parsing).

(** The length of the longest prefix in a class: [[class]*]. *)
Fixpoint run_length (p : ascii -> bool) (s : string) : nat :=
  match s with
  | String c s' => if p c then S (run_length p s') else O
  | EmptyString => O
  end.

Definition run1 (p : ascii -> bool) : pattern := fun s =>
  match run_length p s with O => None | n => Some n end.

Definition literal (lit : string) : pattern := fun s =>
  if starts_with lit s then Some (String.length lit) else None.

(** [(?i:kw)] for a lower-case keyword. *)
Definition keyword (kw : string) : pattern := fun s =>
  if bool_decide (F64.to_ascii_lowercase (str_take (String.length kw) s) = kw)
  then Some (String.length kw) else None.

(** The string rule: a quote, then characters other than quote and backslash or
    a backslash and any character but a newline, then an optional quote. This is
    the length matched after the opening quote. *)
Fixpoint string_body (s : string) : nat :=
  match s with
  | EmptyString => O
  | String c s' =>
      if bool_decide (c = quote) then 1%nat
      else if bool_decide (c = backslash) then
        match s' with
        | String d s2 => if bool_decide (d = newline) then O else S (S (string_body s2))
        | EmptyString => O
        end
      else S (string_body s')
  end.

Definition string_pattern : pattern := fun s =>
  match s with
  | String c s' => if bool_decide (c = quote) then Some (S (string_body s')) else None
  | EmptyString => None
  end.

(** [-?[0-9]+(\.[0-9]+)?] *)
Definition number_pattern : pattern := fun s =>
  let sign := if starts_with "-" s then 1%nat else O in
  match run_length is_digit (str_drop sign s) with
  | O => None
  | n =>
      let rest := str_drop (sign + n) s in
      match (if starts_with "." rest then run_length is_digit (str_drop 1 rest) else O) with
      | O => Some (sign + n)%nat
      | m => Some (sign + n + 1 + m)%nat
      end
  end.

(** [[A-Za-z0-9_\-][A-Za-z0-9_./+\-*]*] *)
Definition ident_pattern : pattern := fun s =>
  match s with
  | String c s' => if ident_start c then Some (S (run_length ident_char s')) else None
  | EmptyString => None
  end.

(** Unescape the payload of a string literal. *)
Fixpoint unescape (s : string) : string :=
  match s with
  | EmptyString => EmptyString
  | String c s' =>
      if bool_decide (c = backslash) then
        match s' with
        | EmptyString => String backslash EmptyString
        | String d s2 =>
            String (if bool_decide (d = quote) then quote
                    else if bool_decide (d = backslash) then backslash
                    else if bool_decide (d = "n"%char) then newline
                    else if bool_decide (d = "t"%char) then tab
                    else d) (unescape s2)
        end
      else String c (unescape s')
  end.

Definition last_byte (s : string) : option ascii := String.get (pred (String.length s)) s.

Definition lex_string (slice : string) : StrLit :=
  let is_terminated := (2 <=? String.length slice)%nat && bool_decide (last_byte slice = Some quote) in
  let inner_end := if is_terminated then (String.length slice - 1)%nat else String.length slice in
  let inner := str_drop 1 (str_take inner_end slice) in
  {| lit_value := unescape inner; terminated := is_terminated |}.

(** What a rule does with the slice it matched: skip it, or call back for a
    token ([None] is the error of a callback). *)
Inductive action :=
| Skip
| Emit (callback : string -> option Token).

Record rule := {
  rule_priority : nat;
  rule_pattern : pattern;
  rule_action : action
}.

Definition fixed (lit : string) (t : Token) : rule :=
  {| rule_priority := 2 * String.length lit; rule_pattern := literal lit; rule_action := Emit (fun _ => Some t) |}.

Definition kw (word : string) (t : Token) : rule :=
  {| rule_priority := 5; rule_pattern := keyword word; rule_action := Emit (fun _ => Some t) |}.

Definition rules : list rule := [
  {| rule_priority := 1; rule_pattern := run1 is_blank; rule_action := Skip |};
  fixed "!=" TBangEq; fixed ">=" TGte; fixed "<=" TLte;
  fixed "!" TBang; fixed ">" TGt; fixed "<" TLt;
  fixed ":" TColon; fixed "," TComma; fixed "[" TLBracket; fixed "]" TRBracket;
  fixed "(" TLParen; fixed ")" TRParen;
  kw "and" TAnd; kw "or" TOr; kw "not" TNot;
  {| rule_priority := 1; rule_pattern := string_pattern;
     rule_action := Emit (fun sl => Some (TString (lex_string sl))) |};
  {| rule_priority := 4; rule_pattern := number_pattern;
     rule_action := Emit (fun sl => TNumber <$> F64.parse sl) |};
  {| rule_priority := 2; rule_pattern := ident_pattern;
     rule_action := Emit (fun sl => Some (TIdent sl)) |}
].

(** The longest match, and of those the one of highest priority. *)
Definition better (n p : nat) (best : option (nat * nat * action)) : bool :=
  match best with
  | None => true
  | Some (n', p', _) => (n' <? n)%nat || ((n' =? n)%nat && (p' <? p)%nat)
  end.

Definition try_rule (s : string) (best : option (nat * nat * action)) (r : rule) : option (nat * nat * action) :=
  match rule_pattern r s with
  | Some n => if better n (rule_priority r) best then Some (n, rule_priority r, rule_action r) else best
  | None => best
  end.

Definition longest_match (s : string) : option (nat * nat * action) := foldl (try_rule s) None rules.

(** Bytes of the character that starts with byte [c]. *)
Definition char_len (c : ascii) : nat :=
  let n := N_of_ascii c in
  if (n <? 192)%N then 1 else if (n <? 224)%N then 2 else if (n <? 240)%N then 3 else 4.

Definition unexpected_char (slice : string) : string := ("Unexpected character '" +:+ slice +:+ "'")%string.

(** [lex_loop fuel pos s]: the tokens of [s], the suffix of the input at byte
    [pos]; [None] only when the fuel runs out. *)
Fixpoint lex_loop (fuel pos : nat) (s : string) : option (result (list (Token * Range)) ChqlError) :=
  match fuel with
  | O => None
  | S fuel' =>
      match s with
      | EmptyString => Some (Ok [])
      | String c _ =>
          match longest_match s with
          | None => Some (Err (err_at (unexpected_char (str_take (char_len c) s)) pos))
          | Some (n, _, Skip) => lex_loop fuel' (pos + n) (str_drop n s)
          | Some (n, _, Emit callback) =>
              match callback (str_take n s) with
              | None => Some (Err (err_at (unexpected_char (str_take n s)) pos))
              | Some t =>
                  match lex_loop fuel' (pos + n) (str_drop n s) with
                  | Some (Ok ts) => Some (Ok ((t, {| r_start := pos; r_end := pos + n |}) :: ts))
                  | other => other
                  end
              end
          end
      end
  end.

(** Every token takes at least one byte, so this fuel is enough
    ([tokenize_total]). *)
Definition tokenize (input : string) : result (list (Token * Range)) ChqlError :=
  match lex_loop (S (String.length input)) 0 input with
  | Some r => r
  | None => Err (ChqlError_new "out of fuel")
  end.

Definition tokens_of (input : string) : option (list Token) :=
  match tokenize input with Ok ts => Some ts.*1 | Err _ => None end.

Example lex_field_term : tokens_of "state:failed" = Some [TIdent "state"; TColon; TIdent "failed"].
Proof. vm_compute. reflexivity. Qed.
Example lex_neq : tokens_of "exit_code:!=0" = Some [TIdent "exit_code"; TColon; TBangEq; TNumber (F64.of_Z 0)].
Proof. vm_compute. reflexivity. Qed.
Example lex_keywords : tokens_of "a AND b or Not c" =
  Some [TIdent "a"; TAnd; TIdent "b"; TOr; TNot; TIdent "c"].
Proof. vm_compute. reflexivity. Qed.
Example lex_branch : tokens_of "branch:feat/foo-1.2 x:2026-04-01 y:5.25" =
  Some [TIdent "branch"; TColon; TIdent "feat/foo-1.2"; TIdent "x"; TColon; TIdent "2026-04-01";
        TIdent "y"; TColon; TNumber (F64.of_decimal false 525 (-2))].
Proof. vm_compute. reflexivity. Qed.
Example lex_bad : tokenize "a @" = Err (err_at "Unexpected character '@'" 2).
Proof. vm_compute. reflexivity. Qed.

(** ** The patterns *)

Lemma run_length_le p s : (run_length p s <= String.length s)%nat.
Proof. induction s as [|c s IH]; simpl; [lia|]. destruct (p c); lia. Qed.

Lemma run_length_take p s : str_forallb p (str_take (run_length p s) s) = true.
Proof. induction s as [|c s IH]; simpl; [done|]. destruct (p c) eqn:E; simpl; [by rewrite E, IH|done]. Qed.

Lemma run_length_app p a b :
  str_forallb p a = true -> run_length p (a +:+ b) = (String.length a + run_length p b)%nat.
Proof.
  induction a as [|c a IH]; intros H; [done|]. simpl in H. apply andb_prop in H as [Hc Ha].
  rewrite str_cons_app. simpl. rewrite Hc. by rewrite IH.
Qed.

Lemma to_ascii_lowercase_length s : String.length (F64.to_ascii_lowercase s) = String.length s.
Proof. induction s as [|c s IH]; simpl; [done|]. by rewrite IH. Qed.

Lemma string_body_le s : (string_body s <= String.length s)%nat.
Proof.
  assert (H : forall n s, (String.length s <= n)%nat -> (string_body s <= String.length s)%nat); [|by apply (H (String.length s))].
  induction n as [|n IH]; intros [|c s']; simpl; intros Hn; try lia.
  repeat case_bool_decide; [lia| |specialize (IH s' ltac:(lia)); lia].
  destruct s' as [|d s2]; simpl in *; [lia|]. case_bool_decide; [lia|]. specialize (IH s2 ltac:(lia)). lia.
Qed.

Lemma number_pattern_ok s n : number_pattern s = Some n -> (1 <= n <= String.length s)%nat.
Proof.
  unfold number_pattern. set (sign := if starts_with "-" s then 1%nat else O).
  pose proof (run_length_le is_digit (str_drop sign s)) as H1. rewrite str_length_drop in H1.
  destruct (run_length is_digit (str_drop sign s)) as [|k] eqn:E; [done|].
  set (rest := str_drop (sign + S k) s).
  pose proof (run_length_le is_digit (str_drop 1 rest)) as H2. rewrite str_length_drop in H2.
  assert (Hr : String.length rest = (String.length s - (sign + S k))%nat) by apply str_length_drop.
  destruct (starts_with "." rest); [|intros [= <-]; lia].
  destruct (run_length is_digit (str_drop 1 rest)); intros [= <-]; lia.
Qed.

Lemma literal_ok lit s n :
  lit <> EmptyString -> literal lit s = Some n -> (1 <= n <= String.length s)%nat.
Proof.
  unfold literal. intros Hne. destruct (starts_with lit s) eqn:E; [|done]. intros [= <-].
  apply starts_with_spec in E as [rest ->]. rewrite str_length_app. destruct lit; simpl; [done|lia].
Qed.

Lemma keyword_ok word s n :
  word <> EmptyString -> keyword word s = Some n -> (1 <= n <= String.length s)%nat.
Proof.
  unfold keyword. intros Hne. case_bool_decide as E; [|done]. intros [= <-].
  apply (f_equal String.length) in E. rewrite to_ascii_lowercase_length, str_length_take in E.
  assert (1 <= String.length word)%nat by (destruct word; simpl; [done|lia]). lia.
Qed.

(** Every rule matches at least one byte, and only bytes of the text. *)
Lemma rules_ok : Forall (fun r => forall s n, rule_pattern r s = Some n -> (1 <= n <= String.length s)%nat) rules.
Proof.
  unfold rules. repeat apply Forall_cons_2; try apply Forall_nil_2; unfold fixed, kw; simpl; intros s n H;
    try (by apply literal_ok in H); try (by apply keyword_ok in H).
  - unfold run1 in H. pose proof (run_length_le is_blank s). destruct (run_length _ s); simplify_eq; lia.
  - destruct s as [|c s]; simpl in H; [done|]. case_bool_decide; [|done]. injection H as <-.
    pose proof (string_body_le s). simpl. lia.
  - by apply number_pattern_ok.
  - destruct s as [|c s]; simpl in H; [done|]. destruct (ident_start c); [|done]. injection H as <-.
    pose proof (run_length_le ident_char s). simpl. lia.
Qed.

(** ** Maximal munch *)

Definition munches (s : string) (rs : list rule) (best : option (nat * nat * action)) : Prop :=
  match best with
  | None => Forall (fun r => rule_pattern r s = None) rs
  | Some (n, p, a) =>
      (exists r, r ∈ rs /\ rule_pattern r s = Some n /\ rule_priority r = p /\ rule_action r = a) /\
      Forall (fun r => forall m, rule_pattern r s = Some m ->
                (m < n)%nat \/ (m = n /\ (rule_priority r <= p)%nat)) rs
  end.

Lemma longest_match_spec s : munches s rules (longest_match s).
Proof.
  unfold longest_match. induction rules as [|r rs IH] using rev_ind; [constructor|].
  rewrite foldl_app. simpl. set (best := foldl _ _ rs) in *. clearbody best. unfold try_rule.
  destruct (rule_pattern r s) as [n|] eqn:Hn.
  - destruct best as [[[n' p'] a']|]; simpl in *.
    + destruct IH as [(r0 & Hin & Hr0) Hall]. destruct ((n' <? n)%nat || _) eqn:Hb; simpl.
      * assert (Hlt : (n' < n)%nat \/ (n' = n /\ (p' < rule_priority r)%nat)).
        { apply orb_true_iff in Hb as [Hb|Hb]; [apply Nat.ltb_lt in Hb; auto|].
          apply andb_true_iff in Hb as [Hb1 Hb2]. apply Nat.eqb_eq in Hb1. apply Nat.ltb_lt in Hb2. auto. }
        split; [exists r; split; [set_solver|done]|]. apply Forall_app. split.
        { eapply Forall_impl; [exact Hall|]. simpl. intros r1 H1 m Hm. specialize (H1 m Hm). lia. }
        apply Forall_singleton. intros m Hm. assert (m = n) by congruence. lia.
      * split; [exists r0; split; [set_solver|done]|]. apply Forall_app. split; [done|].
        apply Forall_singleton. intros m Hm. assert (m = n) by congruence. subst.
        apply orb_false_iff in Hb as [Hb1 Hb2]. apply Nat.ltb_ge in Hb1.
        apply andb_false_iff in Hb2 as [Hb2|Hb2]; [apply Nat.eqb_neq in Hb2; lia|apply Nat.ltb_ge in Hb2; lia].
    + split; [exists r; split; [set_solver|done]|]. apply Forall_app. split.
      { eapply Forall_impl; [exact IH|]. simpl. intros r1 H1 m Hm. congruence. }
      apply Forall_singleton. intros m Hm. assert (m = n) by congruence. lia.
  - destruct best as [[[n' p'] a']|]; simpl in *.
    + destruct IH as [(r0 & Hin & Hr0) Hall]. split; [exists r0; split; [set_solver|done]|].
      apply Forall_app. split; [done|]. apply Forall_singleton. congruence.
    + apply Forall_app. split; [done|]. by constructor.
Qed.

Lemma longest_match_bounds s n p a :
  longest_match s = Some (n, p, a) -> (1 <= n <= String.length s)%nat.
Proof.
  intros E. pose proof (longest_match_spec s) as H. rewrite E in H. destruct H as [(r & Hr & Hp & _) _].
  pose proof rules_ok as Hok. rewrite Forall_forall in Hok. eauto.
Qed.

(** ** Number literals *)

Lemma digit_is_digit c : is_digit c = true <-> is_Some (F64.digit c).
Proof.
  unfold is_digit, in_range, F64.digit.
  change (N_of_ascii "0") with 48%N. change (N_of_ascii "9") with 57%N.
  destruct (N.leb_spec 48 (N_of_ascii c)), (N.leb_spec (N_of_ascii c) 57); simpl;
    destruct (Z.leb_spec 48 (Z.of_N (N_of_ascii c))), (Z.leb_spec (Z.of_N (N_of_ascii c)) 57); simpl;
    split; intros Hx; try lia; try done; try (by eexists); by destruct Hx.
Qed.

Lemma read_digits_run acc cnt s :
  exists v, F64.read_digits acc cnt s =
    (v, (cnt + run_length is_digit s)%nat, str_drop (run_length is_digit s) s).
Proof.
  revert acc cnt. induction s as [|c s IH]; intros acc cnt; simpl; [eexists; do 2 f_equal; lia|].
  destruct (is_digit c) eqn:E.
  - apply digit_is_digit in E as [d ->]. destruct (IH (10 * acc + d) (S cnt)) as [v ->].
    exists v. simpl. do 2 f_equal. lia.
  - destruct (F64.digit c) eqn:E'; [|exists acc; simpl; do 2 f_equal; lia].
    assert (is_digit c = true) by (apply digit_is_digit; eauto). congruence.
Qed.

Lemma parse_digits (neg : bool) (s1 frac : string) :
  str_forallb is_digit s1 = true -> s1 <> EmptyString ->
  frac = EmptyString \/ (exists f, frac = String "." f /\ str_forallb is_digit f = true) ->
  let s := (s1 +:+ frac)%string in
  is_Some (F64.parse (if neg then String "-" s else s)).
Proof.
  intros Hs1 Hne Hfrac s.
  assert (Hdrop0 : run_length is_digit frac = O) by (by destruct Hfrac as [->|(f & -> & _)]).
  assert (Hlen : run_length is_digit s = String.length s1).
  { unfold s. rewrite run_length_app by done. lia. }
  assert (Hdrop : str_drop (String.length s1) s = frac) by (apply str_drop_app).
  destruct s1 as [|c s1']; [done|]. simpl in Hs1. apply andb_prop in Hs1 as [Hc _].
  assert (Hsign : F64.read_sign (if neg then String "-" s else s) = (neg, s)).
  { destruct neg; [done|]. unfold s. rewrite str_cons_app.
    destruct c as [[] [] [] [] [] [] [] []]; try done; by vm_compute in Hc. }
  assert (Hlow : forall w d w', w = String d w' -> is_digit d = false -> F64.to_ascii_lowercase s <> w).
  { intros w d w' -> Hd. unfold s. rewrite str_cons_app. simpl. intros [= Hx _].
    destruct c as [[] [] [] [] [] [] [] []]; vm_compute in Hc; try discriminate Hc;
      vm_compute in Hx; subst d; by vm_compute in Hd. }
  clearbody s. unfold F64.parse. rewrite Hsign.
  rewrite !bool_decide_eq_false_2 by (eapply Hlow; [reflexivity|done]). simpl.
  destruct (read_digits_run 0 0 s) as [ip ->]. rewrite Hlen, Hdrop. simpl.
  destruct Hfrac as [->|(f & -> & Hf)]; [by eexists|].
  destruct (read_digits_run ip 0 f) as [m ->].
  assert (Hfl : run_length is_digit f = String.length f).
  { rewrite <- (str_app_nil_r f) at 1. rewrite run_length_app by done. simpl. lia. }
  rewrite Hfl. replace (str_drop (String.length f) f) with EmptyString; [by eexists|].
  rewrite <- (str_app_nil_r f) at 2. by rewrite str_drop_app.
Qed.

Lemma str_take_add n m s : str_take (n + m) s = (str_take n s +:+ str_take m (str_drop n s))%string.
Proof.
  revert s. induction n as [|n IH]; intros [|c s]; simpl; [done|done|by destruct m|].
  by rewrite str_cons_app, <- IH.
Qed.

Lemma number_parses s n : number_pattern s = Some n -> is_Some (F64.parse (str_take n s)).
Proof.
  unfold number_pattern. set (neg := starts_with "-" s).
  set (sign := if neg then 1%nat else O). set (digits := str_drop sign s).
  assert (Hhead : forall k, str_take (sign + k) s = if neg then String "-" (str_take k digits) else str_take k digits).
  { intros k. unfold digits, sign, neg. destruct (starts_with "-" s) eqn:E; [|by destruct k, s].
    apply starts_with_spec in E as [rest ->]. done. }
  pose proof (run_length_take is_digit digits) as Hd.
  pose proof (run_length_le is_digit digits) as Hle.
  destruct (run_length is_digit digits) as [|k] eqn:E; [done|].
  set (int := str_take (S k) digits) in *.
  assert (Hint : int <> EmptyString).
  { intros H. apply (f_equal String.length) in H. unfold int in H. rewrite str_length_take in H.
    simpl String.length in H at 2. lia. }
  assert (Hrest : str_drop (sign + S k) s = str_drop (S k) digits) by (by unfold digits; rewrite str_drop_drop).
  rewrite Hrest. set (rest := str_drop (S k) digits).
  destruct (starts_with "." rest) eqn:Edot.
  2: { intros [= <-]. rewrite Hhead. fold int. rewrite <- (str_app_nil_r int). apply parse_digits; auto. }
  apply starts_with_spec in Edot as [f Hf].
  assert (Hf1 : str_drop 1 rest = f) by (by rewrite Hf). rewrite Hf1.
  pose proof (run_length_take is_digit f) as Hfd.
  destruct (run_length is_digit f) as [|m] eqn:Em; intros [= <-].
  { rewrite Hhead. fold int. rewrite <- (str_app_nil_r int). apply parse_digits; auto. }
  replace (sign + S k + 1 + S m)%nat with (sign + (S k + (1 + S m)))%nat by lia.
  rewrite Hhead, str_take_add. fold int. fold rest. rewrite Hf.
  apply parse_digits; [done..|]. right. exists (str_take (S m) f). done.
Qed.

(** ** What the tokens cover *)

Definition lexeme (t : Token) (sl : string) : Prop :=
  match t with
  | TBangEq => sl = "!=" | TGte => sl = ">=" | TLte => sl = "<="
  | TBang => sl = "!" | TGt => sl = ">" | TLt => sl = "<"
  | TColon => sl = ":" | TComma => sl = "," | TLBracket => sl = "[" | TRBracket => sl = "]"
  | TLParen => sl = "(" | TRParen => sl = ")"
  | TAnd => F64.to_ascii_lowercase sl = "and"
  | TOr => F64.to_ascii_lowercase sl = "or"
  | TNot => F64.to_ascii_lowercase sl = "not"
  | TString l => (exists body, sl = String quote body) /\ l = lex_string sl
  | TNumber n => F64.parse sl = Some n
  | TIdent s => sl = s /\ str_forallb ident_char s = true
  end%string.

(** The tokens [ts] cover the text [s] at offset [pos]: slices in order, each
    a lexeme of its token at the token's span, with only blanks between. *)
Inductive covers : nat -> string -> list (Token * Range) -> Prop :=
| covers_nil pos : covers pos EmptyString []
| covers_blank pos ws s ts :
    str_forallb is_blank ws = true -> covers (pos + String.length ws) s ts -> covers pos (ws +:+ s) ts
| covers_token pos sl s t ts :
    sl <> EmptyString -> lexeme t sl -> covers (pos + String.length sl) s ts ->
    covers pos (sl +:+ s) ((t, {| r_start := pos; r_end := pos + String.length sl |}) :: ts).

Definition acts_well (r : rule) : Prop := forall s n, rule_pattern r s = Some n ->
  match rule_action r with
  | Skip => str_forallb is_blank (str_take n s) = true
  | Emit callback => exists t, callback (str_take n s) = Some t /\ lexeme t (str_take n s)
  end.

Lemma acts_fixed lit t : lexeme t lit -> acts_well (fixed lit t).
Proof.
  intros Hl s n. simpl. unfold literal. destruct (starts_with lit s) eqn:E; [|done]. intros [= <-].
  apply starts_with_spec in E as [rest ->]. exists t. by rewrite str_take_app.
Qed.

Lemma acts_kw word t :
  (forall sl, F64.to_ascii_lowercase sl = word -> lexeme t sl) -> acts_well (kw word t).
Proof.
  intros Hl s n. simpl. unfold keyword. case_bool_decide as E; [|done]. intros [= <-]. eauto.
Qed.

Lemma rules_act : Forall acts_well rules.
Proof.
  unfold rules. repeat apply Forall_cons_2; try apply Forall_nil_2; try (by apply acts_fixed); try (by apply acts_kw).
  - intros s n. simpl. unfold run1. destruct (run_length is_blank s) eqn:E; [done|]. intros [= <-].
    rewrite <- E. apply run_length_take.
  - intros [|c s] n; simpl; [done|]. case_bool_decide as Hq; [|done]. subst c. intros [= <-].
    eexists. split; [reflexivity|]. split; [|reflexivity]. by eexists.
  - intros s n Hn. simpl. destruct (number_parses s n Hn) as [x Hx]. rewrite Hx. by exists (TNumber x).
  - intros [|c s] n; simpl; [done|]. destruct (ident_start c) eqn:E; [|done]. intros [= <-].
    eexists. split; [reflexivity|]. split; [done|]. simpl. apply andb_true_intro.
    split; [unfold ident_char; by rewrite E|apply run_length_take].
Qed.

Lemma longest_match_acts s n p a :
  longest_match s = Some (n, p, a) ->
  match a with
  | Skip => str_forallb is_blank (str_take n s) = true
  | Emit callback => exists t, callback (str_take n s) = Some t /\ lexeme t (str_take n s)
  end.
Proof.
  intros E. pose proof (longest_match_spec s) as H. rewrite E in H. destruct H as [(r & Hr & Hp & _ & <-) _].
  pose proof rules_act as Ha. rewrite Forall_forall in Ha. exact (Ha r Hr s n Hp).
Qed.

Lemma lex_loop_spec fuel pos s :
  (String.length s < fuel)%nat ->
  match lex_loop fuel pos s with
  | None => False
  | Some (Ok ts) => covers pos s ts
  | Some (Err e) => exists k, position e = Some (pos + k)%nat /\ (k < String.length s)%nat /\
                     longest_match (str_drop k s) = None
  end.
Proof.
  revert pos s. induction fuel as [|fuel IH]; intros pos s Hf; [lia|].
  destruct s as [|c s]; [constructor|]. cbn -[longest_match str_drop str_take String.length].
  destruct (longest_match (String c s)) as [[[n p] a]|] eqn:E.
  2: { exists O. simpl. rewrite Nat.add_0_r. split_and!; [done|lia|done]. }
  pose proof (longest_match_bounds _ _ _ _ E) as Hn. pose proof (longest_match_acts _ _ _ _ E) as Ha.
  pose proof (str_take_drop n (String c s)) as Hsplit.
  assert (Htl : String.length (str_take n (String c s)) = n) by (rewrite str_length_take; lia).
  assert (Hlt : (String.length (str_drop n (String c s)) < fuel)%nat) by (rewrite str_length_drop; lia).
  specialize (IH (pos + n)%nat (str_drop n (String c s)) Hlt).
  assert (Herr : forall e, (exists k, position e = Some (pos + n + k)%nat /\
      (k < String.length (str_drop n (String c s)))%nat /\ longest_match (str_drop k (str_drop n (String c s))) = None) ->
    exists k, position e = Some (pos + k)%nat /\ (k < String.length (String c s))%nat /\
      longest_match (str_drop k (String c s)) = None).
  { intros e (k & Hp & Hk & Hm). rewrite str_length_drop in Hk. rewrite str_drop_drop in Hm.
    exists (n + k)%nat. rewrite Nat.add_assoc. split_and!; [done|lia|done]. }
  destruct a as [|callback].
  - destruct (lex_loop fuel (pos + n) _) as [[ts|e]|]; [|by apply Herr|done].
    rewrite <- Hsplit. apply covers_blank; [done|]. by rewrite Htl.
  - destruct Ha as (t & -> & Hlex).
    destruct (lex_loop fuel (pos + n) _) as [[ts|e]|]; [|by apply Herr|done].
    pose proof (covers_token pos (str_take n (String c s)) (str_drop n (String c s)) t ts) as Hc.
    rewrite Hsplit, Htl in Hc. apply Hc; [|done..].
    intros H0. rewrite H0 in Htl. simpl in Htl. lia.
Qed.

(** [tokenize] always terminates with a verdict. On success the tokens cover
    the input: in order, each token's span holds a lexeme of that token, and only
    blanks lie between tokens and around them. On failure the error carries the
    offset of a byte of the input at which no token rule matches. *)
Theorem tokenize_covers (input : string) :
  match tokenize input with
  | Ok ts => covers 0 input ts
  | Err e => exists k, position e = Some k /\ (k < String.length input)%nat /\
               longest_match (str_drop k input) = None
  end.
Proof.
  unfold tokenize. pose proof (lex_loop_spec (S (String.length input)) 0 input ltac:(lia)) as H.
  by destruct (lex_loop _ _ _) as [[ts|e]|].
Qed.

(** ** String literals *)

(** The literal that denotes [v]: quotes and backslashes escaped. *)
Fixpoint escape (v : string) : string :=
  match v with
  | EmptyString => EmptyString
  | String c v' =>
      if bool_decide (c = quote) || bool_decide (c = backslash)
      then String backslash (String c (escape v'))
      else String c (escape v')
  end.

Definition quoted (v : string) : string := String quote (escape v +:+ String quote EmptyString).

Lemma unescape_escape v : unescape (escape v) = v.
Proof.
  induction v as [|c v IH]; simpl; [done|]. case_bool_decide as Hq; simpl.
  { rewrite bool_decide_eq_true_2 by done. rewrite IH. by subst. }
  case_bool_decide as Hb; simpl; [|by rewrite bool_decide_eq_false_2, IH].
  rewrite (bool_decide_eq_false_2 (c = quote)) by done.
  rewrite !bool_decide_eq_true_2 by done. rewrite IH. by subst.
Qed.

(** A text the string rule reads without reaching a closing quote. *)
Fixpoint closed_body (s : string) : bool :=
  match s with
  | EmptyString => true
  | String c s' =>
      if bool_decide (c = quote) then false
      else if bool_decide (c = backslash) then
        match s' with
        | String d s2 => negb (bool_decide (d = newline)) && closed_body s2
        | EmptyString => false
        end
      else closed_body s'
  end.

Lemma string_body_app a b :
  closed_body a = true -> string_body (a +:+ b) = (String.length a + string_body b)%nat.
Proof.
  assert (H : forall n a, (String.length a <= n)%nat -> closed_body a = true ->
    string_body (a +:+ b) = (String.length a + string_body b)%nat); [|by apply (H (String.length a))].
  clear a. induction n as [|n IH]; intros [|c a] Hn Hc; simpl in Hn; [done|lia|done|].
  rewrite str_cons_app. simpl in *. repeat case_bool_decide; [done| |by rewrite IH by (done || lia)].
  destruct a as [|d a]; [done|]. rewrite str_cons_app. apply andb_prop in Hc as [Hd Hc].
  case_bool_decide; [done|]. simpl in *. by rewrite IH by (done || lia).
Qed.

Lemma escape_closed v : closed_body (escape v) = true.
Proof.
  induction v as [|c v IH]; simpl; [done|]. case_bool_decide as Hq; simpl; [subst; by rewrite IH|].
  case_bool_decide as Hb; simpl; [subst; by rewrite IH|]. by rewrite !bool_decide_eq_false_2.
Qed.

Lemma last_byte_snoc s c : last_byte (s +:+ String c EmptyString) = Some c.
Proof.
  unfold last_byte. rewrite str_length_app. simpl. replace (pred _) with (String.length s) by lia.
  induction s as [|d s IH]; [done|]. rewrite str_cons_app. done.
Qed.

(** At a quote only the string rule matches. *)
Lemma longest_match_quote s :
  longest_match (String quote s) =
    Some (S (string_body s), 1%nat, Emit (fun sl => Some (TString (lex_string sl)))).
Proof.
  unfold longest_match, rules. cbn -[keyword string_pattern].
  assert (Hkw : forall c w, c <> quote -> keyword (String c w) (String quote s) = None).
  { intros c w Hc. unfold keyword. rewrite bool_decide_eq_false_2; [done|]. simpl. intros [= Hx _]. by subst. }
  unfold try_rule at 4 5 6. cbn -[keyword string_pattern]. rewrite !Hkw by done. done.
Qed.

Lemma lex_string_quoted v : lex_string (quoted v) = {| lit_value := v; terminated := true |}.
Proof.
  unfold lex_string, quoted. set (body := escape v).
  change (String quote (body +:+ String quote "")) with ((String quote body) +:+ String quote "")%string.
  rewrite last_byte_snoc, str_length_app. simpl String.length.
  rewrite (bool_decide_eq_true_2 (Some quote = Some quote)) by done.
  replace (2 <=? S (String.length body) + 1)%nat with true by (symmetry; apply Nat.leb_le; lia).
  rewrite andb_true_l. cbv iota. replace (S (String.length body) + 1 - 1)%nat with (String.length (String quote body))
    by (simpl; lia).
  rewrite str_take_app. simpl str_drop. unfold body. by rewrite unescape_escape.
Qed.

Lemma length_quoted v : String.length (quoted v) = S (S (String.length (escape v))).
Proof. unfold quoted. simpl. rewrite str_length_app. simpl. lia. Qed.

(** The lexer reads the literal of [v], wherever it stands, as the string [v]. *)
Lemma lex_loop_quoted fuel pos v rest :
  lex_loop (S fuel) pos (quoted v +:+ rest) =
    match lex_loop fuel (pos + String.length (quoted v)) rest with
    | Some (Ok ts) =>
        Some (Ok ((TString {| lit_value := v; terminated := true |},
                   {| r_start := pos; r_end := pos + String.length (quoted v) |}) :: ts))
    | other => other
    end.
Proof.
  assert (Hq : (quoted v +:+ rest = String quote (escape v +:+ String quote rest))%string).
  { unfold quoted. by rewrite str_cons_app, str_app_assoc. }
  assert (Hn : S (string_body (escape v +:+ String quote rest)) = String.length (quoted v)).
  { rewrite length_quoted, string_body_app by apply escape_closed. simpl. lia. }
  rewrite Hq. cbn -[longest_match str_take str_drop quote].
  rewrite longest_match_quote, Hn. cbv beta iota. rewrite <- Hq, str_take_app, str_drop_app, lex_string_quoted. done.
Qed.

(** Every byte string has a literal that the lexer reads back: [quoted v]
    tokenises to the single string token of value [v], whatever quotes,
    backslashes, operators or newlines [v] contains. *)
Theorem string_literal_roundtrip (v : string) :
  tokenize (quoted v) = Ok [(TString {| lit_value := v; terminated := true |},
                             {| r_start := 0; r_end := String.length (quoted v) |})].
Proof.
  unfold tokenize. rewrite <- (str_app_nil_r (quoted v)) at 2. rewrite lex_loop_quoted.
  rewrite length_quoted. done.
Qed.

(** The text of an unterminated literal: its closing quote is escaped. *)
Definition escaped_close (v : string) : string :=
  String quote (v +:+ String backslash (String quote EmptyString)).

Lemma plain_closed v :
  str_forallb (fun c => negb (bool_decide (c = quote)) && negb (bool_decide (c = backslash))) v = true ->
  closed_body (v +:+ String backslash (String quote EmptyString)) = true /\
  unescape (v +:+ String backslash EmptyString) = (v +:+ String backslash EmptyString)%string.
Proof.
  induction v as [|c v IH]; intros H; [done|]. simpl in H.
  apply andb_prop in H as [Hc H]. apply andb_prop in Hc as [Hq Hb].
  apply negb_true_iff, bool_decide_eq_false in Hq, Hb. rewrite !str_cons_app. simpl.
  rewrite !bool_decide_eq_false_2 by done. destruct (IH H) as [-> ->]. done.
Qed.

(** A literal that ends in an escaped quote has no closing quote, yet it is
    returned as terminated, with a trailing backslash as part of its value. *)
Theorem escaped_close_counts_as_terminated (v : string) :
  str_forallb (fun c => negb (bool_decide (c = quote)) && negb (bool_decide (c = backslash))) v = true ->
  tokenize (escaped_close v) =
    Ok [(TString {| lit_value := v +:+ String backslash EmptyString; terminated := true |},
         {| r_start := 0; r_end := String.length (escaped_close v) |})].
Proof.
  intros Hv. destruct (plain_closed v Hv) as [Hc Hu]. unfold tokenize, escaped_close.
  set (body := (v +:+ String backslash (String quote ""))%string) in *.
  assert (Hn : string_body body = String.length body).
  { rewrite <- (str_app_nil_r body) at 1. rewrite string_body_app by done. simpl. lia. }
  cbn -[longest_match str_take str_drop quote]. rewrite longest_match_quote, Hn. cbv beta iota.
  assert (Hb : (String quote body = String quote (v +:+ String backslash "") +:+ String quote "")%string).
  { unfold body. by rewrite str_cons_app, str_app_assoc. }
  assert (Hd : str_drop (S (String.length body)) (String quote body) = EmptyString).
  { rewrite <- (str_app_nil_r (String quote body)). apply (str_drop_app (String quote body)). }
  rewrite Hd. assert (Ht : str_take (S (String.length body)) (String quote body) = String quote body).
  { rewrite <- (str_app_nil_r (String quote body)) at 1. apply (str_take_app (String quote body)). }
  rewrite Ht. assert (Hl : lex_string (String quote body) =
    {| lit_value := (v +:+ String backslash "")%string; terminated := true |}).
  { unfold lex_string. rewrite Hb, last_byte_snoc, str_length_app. simpl String.length.
    rewrite bool_decide_eq_true_2 by done. rewrite Nat.add_1_r. cbn [Nat.leb andb].
    replace (S (S (String.length (v +:+ String backslash ""))) - 1)%nat
      with (String.length (String quote (v +:+ String backslash ""))) by (simpl; lia).
    rewrite str_take_app. simpl str_drop. by rewrite Hu. }
  rewrite Hl. destruct (String.length body) eqn:E; [|done]. done.
Qed.

Lemma escaped_close_counts_as_terminated_witness :
  tokens_of (escaped_close "main") =
    Some [TString {| lit_value := String "m" (String "a" (String "i" (String "n" (String backslash ""))));
                     terminated := true |}].
Proof. unfold tokens_of. rewrite (escaped_close_counts_as_terminated "main"); [reflexivity|vm_compute; reflexivity]. Defined.
