(* ===== verification/QueryParser.v ===== *)
(** * ChQL: the parser (crates/ci-controller/src/query/parser.rs)

    The [Parser] of the source is a token vector and a position that only
    advances; the model's [Parser] is the tokens from the position on. The
    recursive descent takes fuel; [None] means that the fuel ran out, and
    [parse_fuel] shows that the fuel [parse] supplies never does. *)

From Stdlib Require Import ZArith Lia Ascii.
From stdpp Require Import strings list sets fin_sets.
From S2P Require Import Prelude Text F64 QueryLexer.

Definition VALID_FIELDS : list string :=
  ["state"; "branch"; "repo"; "repo_id"; "stage"; "exit_code"; "created_at"; "completed_at"].

Definition join (sep : string) (l : list string) : string :=
  match l with
  | [] => EmptyString
  | s :: l' => foldl (fun acc x => (acc +:+ sep +:+ x)%string) s l'
  end.

(** [Parser] is the suffix [tokens[pos..]]. *)
Abbreviation Parser := (list (Token * Range)) (only parsing).
Abbreviation PResult A := (result (A * Parser) ChqlError) (only parsing).

Definition peek (p : Parser) : option (Token * Range) := head p.
Definition bump (p : Parser) : Parser := tail p.
Definition peek_is_lparen_next (p : Parser) : bool :=
  match p !! 1%nat with Some (TLParen, _) => true | _ => false end.

Definition is_date_field (name : string) : bool :=
  bool_decide (name = "created_at") || bool_decide (name = "completed_at").

Definition can_start_atom (t : Token) : bool :=
  match t with TIdent _ | TLParen | TNot | TString _ => true | _ => false end.

Definition tok_display (t : Token) : string :=
  match t with
  | TBangEq => "'!='" | TGte => "'>='" | TLte => "'<='"
  | TBang => "'!'" | TGt => "'>'" | TLt => "'<'"
  | TColon => "':'" | TComma => "','" | TLBracket => "'['" | TRBracket => "']'"
  | TLParen => "'('" | TRParen => "')'"
  | TAnd => "'AND'" | TOr => "'OR'" | TNot => "'NOT'"
  | TIdent s => "'" +:+ s +:+ "'"
  | TString l => String quote (lit_value l +:+ String quote EmptyString)
  | TNumber n => F64.to_string n
  end%string.

Definition unexpected_token (t : Token) : string := ("Unexpected token " +:+ tok_display t)%string.
Definition unterminated_string : string := "Unterminated string literal".
Definition unterminated_call : string := "Unterminated function call: expected string literal then ')'".
Definition unterminated_range : string := "Unterminated range: expected number or string then ']'".

Definition contains_star (s : string) : bool := negb (str_forallb (fun c => negb (bool_decide (c = "*"%char))) s).

(** ** Values *)

Definition parse_call (field_name fn_name : string) (call_open_span : Range) (p : Parser) : PResult Ast :=
  match peek p with
  | None => Err (err_at unterminated_call (r_end call_open_span + 1))
  | Some (TString s, span) =>
      if negb (terminated s) then Err (err_at unterminated_string (r_start span))
      else
        let p1 := bump p in
        match peek p1 with
        | Some (TRParen, _) =>
            let op := if bool_decide (fn_name = "i") then IlikeContains else Regex in
            Ok (ACmp field_name op (VStr (lit_value s)), bump p1)
        | _ => Err (err_at unterminated_call (r_end call_open_span + 1))
        end
  | Some (_, span) => Err (err_at unterminated_call (r_start span))
  end.

Definition parse_range_endpoint (field_name : string) (fallback_pos : nat) (p : Parser) : PResult Value :=
  match peek p with
  | None => Err (err_at unterminated_range fallback_pos)
  | Some (TNumber n, _) => Ok (VNum n, bump p)
  | Some (TString s, span) =>
      if negb (terminated s) then Err (err_at unterminated_string (r_start span))
      else Ok (if is_date_field field_name then VDate (lit_value s) else VStr (lit_value s), bump p)
  | Some (_, span) => Err (err_at unterminated_range (r_start span))
  end.

Definition parse_range (field_name : string) (open_span : Range) (p : Parser) : PResult Ast :=
  let? (lo, p1) := parse_range_endpoint field_name (r_end open_span) p in
  match peek p1 with
  | Some (TComma, _) =>
      let p2 := bump p1 in
      match peek p2 with
      | None => Err (err_at unterminated_range (r_end open_span + 4))
      | Some (next_tok, next_span) =>
          match next_tok with
          | TNumber _ | TString _ =>
              let? (hi, p3) := parse_range_endpoint field_name (r_start next_span) p2 in
              match peek p3 with
              | Some (TRBracket, _) => Ok (AInRange field_name lo hi, bump p3)
              | _ => Err (err_at unterminated_range (r_end open_span))
              end
          | _ => Err (err_at unterminated_range (r_start next_span))
          end
      end
  | _ => Err (err_at unterminated_range (r_end open_span + 1))
  end.

(** The operand of [!] and [!=]; [span] is the operator's. *)
Definition parse_neq (field_name : string) (span : Range) (p : Parser) : PResult Ast :=
  match peek p with
  | None => Err (err_at "Expected value after '!'" (r_end span))
  | Some (TString s, next_span) =>
      if negb (terminated s) then Err (err_at unterminated_string (r_start next_span))
      else Ok (ACmp field_name Neq (VStr (lit_value s)), bump p)
  | Some (TIdent id, _) => Ok (ACmp field_name Neq (VStr id), bump p)
  | Some (TNumber n, _) => Ok (ACmp field_name Neq (VNum n), bump p)
  | Some (other, next_span) =>
      Err (err_at ("Expected value after '!', got " +:+ tok_display other)%string (r_start next_span))
  end.

(** The operand of an ordering operator. *)
Definition parse_order (field_name : string) (op : CmpOp) (span : Range) (p : Parser) : PResult Ast :=
  match peek p with
  | None => Err (err_at "Expected number or string after comparison operator" (r_end span))
  | Some (TNumber n, _) => Ok (ACmp field_name op (VNum n), bump p)
  | Some (TString s, n_span) =>
      if negb (terminated s) then Err (err_at unterminated_string (r_start n_span))
      else
        let value := if is_date_field field_name then VDate (lit_value s) else VStr (lit_value s) in
        Ok (ACmp field_name op value, bump p)
  | Some (other, n_span) =>
      Err (err_at ("Expected number or string after comparison operator, got " +:+ tok_display other)%string
             (r_start n_span))
  end.

Definition parse_value (field_name : string) (field_span : Range) (p : Parser) : PResult Ast :=
  match peek p with
  | None => Err (err_at "Expected value after ':'" (r_end field_span + 1))
  | Some (tok, span) =>
      match tok with
      | TBang | TBangEq => parse_neq field_name span (bump p)
      | TLBracket => parse_range field_name span (bump p)
      | TGte => parse_order field_name Gte span (bump p)
      | TGt => parse_order field_name Gt span (bump p)
      | TLte => parse_order field_name Lte span (bump p)
      | TLt => parse_order field_name Lt span (bump p)
      | TIdent id =>
          if (bool_decide (id = "i") || bool_decide (id = "re")) && peek_is_lparen_next p then
            parse_call field_name id span (bump (bump p))
          else
            Ok (ACmp field_name (if contains_star id then Wildcard else Eq) (VStr id), bump p)
      | TString s =>
          if negb (terminated s) then Err (err_at unterminated_string (r_start span))
          else
            let v := lit_value s in
            let op := if contains_star v then Wildcard else Eq in
            let value := if is_date_field field_name && bool_decide (op = Eq) then VDate v else VStr v in
            Ok (ACmp field_name op value, bump p)
      | TNumber n => Ok (ACmp field_name Eq (VNum n), bump p)
      | other => Err (err_at (unexpected_token other) (r_start span))
      end
  end.

Definition expect_field_term (field_name : string) (field_span : Range) (p : Parser) : PResult Ast :=
  if negb (bool_decide (field_name ∈ VALID_FIELDS)) then
    Err (err_at ("Unknown field '" +:+ field_name +:+ "'. Valid fields: " +:+ join ", " VALID_FIELDS)%string
           (r_start field_span))
  else
    match peek p with
    | Some (TColon, _) => parse_value field_name field_span (bump p)
    | Some (tok, span) =>
        Err (err_at ("Expected ':' after field '" +:+ field_name +:+ "', got " +:+ tok_display tok)%string
               (r_start span))
    | None => Err (err_at ("Expected ':' after field '" +:+ field_name +:+ "'")%string (r_end field_span))
    end.

(** ** Expressions *)

Definition check_leading (p : Parser) : result unit ChqlError :=
  match peek p with
  | Some (TOr, span) => Err (err_at "Unexpected 'OR': expected expression" (r_start span))
  | Some (TAnd, span) => Err (err_at "Unexpected 'AND': expected expression" (r_start span))
  | Some (TRParen, span) => Err (err_at "Unexpected token ')'" (r_start span))
  | _ => Ok tt
  end.

(** Sequencing of a computation that may run out of fuel. *)
Definition obind {A B : Type} (r : option (PResult A)) (k : A -> Parser -> option (PResult B))
    : option (PResult B) :=
  match r with
  | Some (Ok (a, p)) => k a p
  | Some (Err e) => Some (Err e)
  | None => None
  end.

(** [parse_or] includes [parse_expr], which only calls it; the [while] of
    [parse_or] and the [loop] of [parse_and] are [or_loop] and [and_loop]. *)
Fixpoint parse_or (fuel : nat) (p : Parser) : option (PResult Ast) :=
  match fuel with
  | O => None
  | S f =>
      match check_leading p with
      | Err e => Some (Err e)
      | Ok _ => obind (parse_and f p) (fun left p1 => or_loop f left p1)
      end
  end
with or_loop (fuel : nat) (left : Ast) (p : Parser) : option (PResult Ast) :=
  match fuel with
  | O => None
  | S f =>
      match peek p with
      | Some (TOr, span) =>
          let p1 := bump p in
          match peek p1 with
          | None => Some (Err (err_at "Expected expression after 'OR'" (r_end span)))
          | Some _ => obind (parse_and f p1) (fun right p2 => or_loop f (AOr left right) p2)
          end
      | _ => Some (Ok (left, p))
      end
  end
with parse_and (fuel : nat) (p : Parser) : option (PResult Ast) :=
  match fuel with
  | O => None
  | S f => obind (parse_not f p) (fun left p1 => and_loop f left p1)
  end
with and_loop (fuel : nat) (left : Ast) (p : Parser) : option (PResult Ast) :=
  match fuel with
  | O => None
  | S f =>
      match peek p with
      | Some (TAnd, span) =>
          let p1 := bump p in
          match peek p1 with
          | None => Some (Err (err_at "Expected expression after 'AND'" (r_end span)))
          | Some _ => obind (parse_not f p1) (fun right p2 => and_loop f (AAnd left right) p2)
          end
      | Some (t, _) =>
          if can_start_atom t then obind (parse_not f p) (fun right p2 => and_loop f (AAnd left right) p2)
          else Some (Ok (left, p))
      | None => Some (Ok (left, p))
      end
  end
with parse_not (fuel : nat) (p : Parser) : option (PResult Ast) :=
  match fuel with
  | O => None
  | S f =>
      match peek p with
      | Some (TNot, _) => obind (parse_atom f (bump p)) (fun inner p1 => Some (Ok (ANot inner, p1)))
      | _ => parse_atom f p
      end
  end
with parse_atom (fuel : nat) (p : Parser) : option (PResult Ast) :=
  match fuel with
  | O => None
  | S f =>
      match peek p with
      | Some (TLParen, span) =>
          obind (parse_or f (bump p)) (fun inner p1 =>
            match peek p1 with
            | Some (TRParen, _) => Some (Ok (inner, bump p1))
            | _ => Some (Err (err_at "Unclosed parenthesis: expected ')'" (r_start span)))
            end)
      | Some (TIdent name, span) => Some (expect_field_term name span (bump p))
      | Some (tok, span) => Some (Err (err_at (unexpected_token tok) (r_start span)))
      | None => Some (Err (err_at "Expected expression" 0))
      end
  end.

Definition expr_fuel (p : Parser) : nat := 4 * length p + 4.

Definition parse (input : string) : result (option Ast) ChqlError :=
  if only_whitespace (String.length input) input then Ok None
  else
    let? tokens := tokenize input in
    match tokens with
    | [] => Ok None
    | _ =>
        match parse_or (expr_fuel tokens) tokens with
        | None => Err (ChqlError_new "out of fuel")
        | Some (Err e) => Err e
        | Some (Ok (ast, [])) => Ok (Some ast)
        | Some (Ok (_, (tok, span) :: _)) => Err (err_at (unexpected_token tok) (r_start span))
        end
    end.

Example parse_001 : parse "state:failed" = Ok (Some (ACmp "state" Eq (VStr "failed"))).
Proof. vm_compute. reflexivity. Qed.
Example parse_010 : parse "exit_code:[1,5]" =
  Ok (Some (AInRange "exit_code" (VNum (F64.of_Z 1)) (VNum (F64.of_Z 5)))).
Proof. vm_compute. reflexivity. Qed.
Example parse_prec : parse "state:a or branch:b not (repo:c and stage:d)" =
  Ok (Some (AOr (ACmp "state" Eq (VStr "a"))
    (AAnd (ACmp "branch" Eq (VStr "b"))
      (ANot (AAnd (ACmp "repo" Eq (VStr "c")) (ACmp "stage" Eq (VStr "d"))))))).
Proof. vm_compute. reflexivity. Qed.
Example parse_blank : parse " 	" = Ok None.
Proof. vm_compute. reflexivity. Qed.
Example parse_unclosed : parse "(state:a" = Err (err_at "Unclosed parenthesis: expected ')'" 0).
Proof. vm_compute. reflexivity. Qed.

(** ** What the parser can produce *)

(** An operand that a string or number token denotes in an ordering or a range:
    strings are dates exactly on the date fields. *)
Definition operand_ok (field : string) (v : Value) : Prop :=
  match v with
  | VNum _ => True
  | VStr _ => is_date_field field = false
  | VDate _ => is_date_field field = true
  end.

Definition cmp_ok (field : string) (op : CmpOp) (v : Value) : Prop :=
  match op, v with
  | Eq, VStr s => contains_star s = false
  | Eq, VNum _ => True
  | Eq, VDate s => contains_star s = false /\ is_date_field field = true
  | Wildcard, VStr s => contains_star s = true
  | Neq, VStr _ | Neq, VNum _ => True
  | (Gt | Gte | Lt | Lte), _ => operand_ok field v
  | (IlikeContains | Regex), VStr _ => True
  | _, _ => False
  end.

Fixpoint ast_ok (a : Ast) : Prop :=
  match a with
  | AAnd l r | AOr l r => ast_ok l /\ ast_ok r
  | ANot e => ast_ok e
  | ACmp f op v => f ∈ VALID_FIELDS /\ cmp_ok f op v
  | AInRange f lo hi => f ∈ VALID_FIELDS /\ operand_ok f lo /\ operand_ok f hi
  end.

(** A term parser consumes a non-empty prefix and yields an [ok] value, or
    fails with an error that has a position. *)
Definition term_spec {A : Type} (ok : A -> Prop) (p : Parser) (r : PResult A) : Prop :=
  match r with
  | Ok (a, p') => ok a /\ (length p' < length p)%nat
  | Err e => is_Some (position e)
  end.

Ltac parser_cases :=
  repeat match goal with
  | |- context [match head ?p with _ => _ end] => destruct p as [|[[] ?] ?]; simpl in *; try done; try (by eexists)
  | |- context [if negb (terminated ?s) then _ else _] => destruct (terminated s); simpl in *; try done; try (by eexists)
  end.

Lemma parse_range_endpoint_spec f pos p :
  term_spec (operand_ok f) p (parse_range_endpoint f pos p).
Proof.
  unfold parse_range_endpoint, peek. parser_cases; [|split; [done|lia]].
  destruct (is_date_field f) eqn:E; simpl; split; (done || lia).
Qed.

Lemma parse_range_spec f span p :
  f ∈ VALID_FIELDS -> term_spec ast_ok p (parse_range f span p).
Proof.
  intros Hf. unfold parse_range.
  pose proof (parse_range_endpoint_spec f (r_end span) p) as H1.
  destruct (parse_range_endpoint f (r_end span) p) as [[lo p1]|e]; simpl in *; [|done].
  destruct p1 as [|[[] s1] p2]; simpl in *; try done; try (by eexists).
  destruct p2 as [|[t2 s2] p3]; simpl; [by eexists|].
  pose proof (parse_range_endpoint_spec f (r_start s2) ((t2, s2) :: p3)) as H2.
  destruct t2; try (by eexists);
    (destruct (parse_range_endpoint f (r_start s2) _) as [[hi p4]|e]; simpl in *; [|done];
     destruct p4 as [|[[] s4] p5]; simpl in *; try (by eexists); destruct H1, H2; split; [done|lia]).
Qed.

Lemma parse_value_spec f span p :
  f ∈ VALID_FIELDS -> term_spec ast_ok p (parse_value f span p).
Proof.
  intros Hf. unfold parse_value. destruct p as [|[t s] p]; simpl; [by eexists|].
  assert (Horder : forall op, (op = Gt \/ op = Gte \/ op = Lt \/ op = Lte) ->
            term_spec ast_ok ((t, s) :: p) (parse_order f op s p)).
  { intros op Hop. unfold parse_order, peek. parser_cases;
      (split; [split; [done|]|simpl; lia]); [|by destruct Hop as [->|[->|[->| ->]]]].
    destruct (is_date_field f) eqn:E; by destruct Hop as [->|[->|[->| ->]]]. }
  destruct t; try (by eexists); try (apply Horder; tauto).
  - unfold parse_neq, peek. parser_cases; (split; [done|simpl; lia]).
  - unfold parse_neq, peek. parser_cases; (split; [done|simpl; lia]).
  - pose proof (parse_range_spec f s p Hf) as H.
    destruct (parse_range f s p) as [[a p']|]; simpl in *; [|done]. destruct H. split; [done|lia].
  - destruct (terminated s0); simpl; [|by eexists]. split; [|simpl; lia]. split; [done|].
    destruct (contains_star (lit_value s0)) eqn:E; simpl; [by rewrite andb_false_r|].
    rewrite andb_true_r. destruct (is_date_field f) eqn:E2; simpl; auto.
  - split; [done|simpl; lia].
  - destruct ((_ || _) && _) eqn:Hcall.
    + apply andb_prop in Hcall as [_ Hn]. unfold peek_is_lparen_next in Hn.
      destruct p as [|[[] ?] p]; simpl in *; try done; try (by eexists). unfold parse_call, peek.
      parser_cases; (split; [split; [done|]; by case_bool_decide|simpl; lia]).
    + split; [|simpl; lia]. split; [done|]. by destruct (contains_star s0) eqn:E.
Qed.

Lemma expect_field_term_spec f span p : term_spec ast_ok p (expect_field_term f span p).
Proof.
  unfold expect_field_term. case_bool_decide as Hf; simpl; [|by eexists].
  destruct p as [|[[] s] p]; simpl; try (by eexists).
  pose proof (parse_value_spec f span p Hf) as H.
  destruct (parse_value f span p) as [[a p']|]; simpl in *; [|done]. destruct H. split; [done|lia].
Qed.

(** ** Termination *)

(** The fuel [need] is enough, and an accepted expression is [ok] and leaves
    fewer than [bound] tokens. *)
Definition expr_spec (need n bound : nat) (r : option (PResult Ast)) : Prop :=
  ((need <= n)%nat -> r <> None) /\
  match r with
  | Some (Ok (a, p')) => ast_ok a /\ (length p' < bound)%nat
  | Some (Err e) => is_Some (position e)
  | None => True
  end.

Lemma obind_spec need need' n bound bound' r k :
  expr_spec need n bound r -> (need' <= n -> need <= n)%nat ->
  (forall a p', ast_ok a -> (length p' < bound)%nat -> expr_spec need' n bound' (k a p')) ->
  expr_spec need' n bound' (obind r k).
Proof.
  intros [Hf Ho] Hn Hk. destruct r as [[[a p']|e]|]; simpl.
  - destruct Ho. auto.
  - split; [done|done].
  - split; [|done]. intros H. by apply Hf, Hn.
Qed.

Lemma expr_spec_weaken need need' n bound bound' r :
  expr_spec need n bound r -> (need <= need')%nat -> (bound <= bound')%nat -> expr_spec need' n bound' r.
Proof.
  intros [Hf Ho] Hn Hb. split; [intros; apply Hf; lia|].
  destruct r as [[[a p']|]|]; [|done..]. destruct Ho. split; [done|lia].
Qed.

Lemma expr_spec_step need need' n bound bound' r :
  expr_spec need n bound r -> (S need <= need')%nat -> (bound <= bound')%nat -> expr_spec need' (S n) bound' r.
Proof.
  intros [Hf Ho] Hn Hb. split; [intros; apply Hf; lia|].
  destruct r as [[[a p']|]|]; [|done..]. destruct Ho. split; [done|lia].
Qed.

Lemma expr_spec_err need n bound msg pos : expr_spec need n bound (Some (Err (err_at msg pos))).
Proof. split; [done|by eexists]. Qed.

Lemma check_leading_err p e : check_leading p = Err e -> exists msg pos, e = err_at msg pos.
Proof. unfold check_leading. destruct (peek p) as [[[] s]|]; intros [= <-]; eauto. Qed.

Lemma expr_spec_done need n bound a p :
  ast_ok a -> (length p < bound)%nat -> expr_spec need n bound (Some (Ok (a, p))).
Proof. by split. Qed.

Lemma expr_spec_term need n bound p r :
  term_spec ast_ok p r -> (length p <= bound)%nat -> expr_spec need n bound (Some r).
Proof. intros Ht Hb. split; [done|]. destruct r as [[a p']|]; [|done]. destruct Ht. split; [done|lia]. Qed.

Lemma parser_specs n :
  (forall p, expr_spec (4 * length p + 4) n (length p) (parse_or n p)) /\
  (forall a p, ast_ok a -> expr_spec (4 * length p + 4) n (S (length p)) (or_loop n a p)) /\
  (forall p, expr_spec (4 * length p + 3) n (length p) (parse_and n p)) /\
  (forall a p, ast_ok a -> expr_spec (4 * length p + 3) n (S (length p)) (and_loop n a p)) /\
  (forall p, expr_spec (4 * length p + 2) n (length p) (parse_not n p)) /\
  (forall p, expr_spec (4 * length p + 1) n (length p) (parse_atom n p)).
Proof.
  induction n as [|n (IHor & IHol & IHand & IHal & IHnot & IHatom)].
  { split_and!; intros; (split; [lia|done]). }
  assert (Hstep : forall (p : Parser) a (r : option (PResult Ast)),
    ast_ok a -> (0 < length p)%nat -> expr_spec (4 * length p + 2) n (length p) r ->
    expr_spec (4 * length p + 3) (S n) (S (length p)) (obind r (fun b p' => and_loop n (AAnd a b) p'))).
  { intros p a r Ha Hp Hr. eapply (expr_spec_step (4 * length p + 2)); [|lia|reflexivity].
    eapply obind_spec; [exact Hr|lia|]. intros b p' Hb Hp'.
    eapply expr_spec_weaken; [by apply IHal|lia|lia]. }
  split_and!.
  - intros p. simpl parse_or. destruct (check_leading p) as [u|e] eqn:Hlead.
    2: { apply check_leading_err in Hlead as (msg & pos & ->). apply expr_spec_err. }
    eapply (expr_spec_step (4 * length p + 3)); [|lia|reflexivity].
    eapply obind_spec; [apply IHand|lia|]. intros a p' Ha Hp.
    eapply expr_spec_weaken; [by apply IHol|lia|lia].
  - intros a p Ha. simpl or_loop. destruct p as [|[t s] p]; simpl; [apply expr_spec_done; [done|simpl; lia]|].
    destruct t; try (apply expr_spec_done; [done|simpl; lia]). destruct p as [|ts p]; [apply expr_spec_err|].
    cbn [peek bump head tail]. eapply (expr_spec_step (4 * length (ts :: p) + 7)); [|simpl; lia|reflexivity].
    eapply obind_spec; [apply IHand|lia|]. intros b p' Hb Hp.
    eapply expr_spec_weaken; [by apply IHol|simpl in *; lia|simpl in *; lia].
  - intros p. simpl parse_and. eapply (expr_spec_step (4 * length p + 2)); [|lia|reflexivity].
    eapply obind_spec; [apply IHnot|lia|]. intros a p' Ha Hp.
    eapply expr_spec_weaken; [by apply IHal|lia|lia].
  - intros a p Ha. destruct p as [|[t s] p]; [apply expr_spec_done; [done|simpl; lia]|].
    destruct t; try (apply expr_spec_done; [done|simpl; lia]); try (apply Hstep; [done|simpl; lia|apply IHnot]).
    destruct p as [|ts p]; [apply expr_spec_err|].
    cbn [and_loop peek bump head tail]. eapply expr_spec_weaken; [apply (Hstep (ts :: p))| |];
      [done|simpl; lia|apply IHnot|simpl; lia|simpl; lia].
  - intros p. assert (Hatom : expr_spec (4 * length p + 2) (S n) (length p) (parse_atom n p)).
    { eapply expr_spec_step; [apply IHatom|lia|lia]. }
    destruct p as [|[t s] p]; [done|]. destruct t; try done.
    cbn [parse_not peek bump head tail].
    eapply (expr_spec_step (4 * length p + 1)); [|simpl; lia|reflexivity].
    eapply obind_spec; [apply IHatom|lia|]. intros a p' Ha Hp. apply expr_spec_done; simpl; [done|lia].
  - intros p. destruct p as [|[t s] p]; [apply expr_spec_err|]. destruct t; try apply expr_spec_err.
    + cbn [parse_atom peek bump head tail]. eapply (expr_spec_step (4 * length p + 4)); [|simpl; lia|reflexivity].
      eapply obind_spec; [apply IHor|lia|]. intros a p' Ha Hp.
      destruct p' as [|[t' s'] p']; [apply expr_spec_err|].
      destruct t'; try apply expr_spec_err. apply expr_spec_done; simpl in *; [done|lia].
    + cbn [parse_atom peek bump head tail]. eapply expr_spec_term; [apply expect_field_term_spec|simpl; lia].
Qed.

Lemma parse_fuel p : parse_or (expr_fuel p) p <> None.
Proof. destruct (parser_specs (expr_fuel p)) as [H _]. apply (H p). unfold expr_fuel. lia. Qed.

(** C14. [parse] terminates with a verdict on every input: an error always
    reports a position (only running out of the fuel [expr_fuel] would not, so
    it never does; the position itself is computed from the spans and may lie a
    few bytes past the end of the text), and a tree is well typed: its fields are valid, ordering and range operands are dates
    exactly on the date fields, an equality has no [*] in its value and a
    wildcard has one, and [i()] and [re()] carry strings. *)
Theorem parse_well_typed (input : string) :
  match parse input with
  | Ok (Some ast) => ast_ok ast
  | Ok None => True
  | Err e => is_Some (position e)
  end.
Proof.
  unfold parse. destruct (only_whitespace _ _); [done|].
  pose proof (tokenize_covers input) as Hlex.
  destruct (tokenize input) as [ts|e]; simpl.
  2: { destruct Hlex as (k & Hk & _). by exists k. }
  destruct ts as [|t ts]; [done|]. set (p := t :: ts).
  pose proof (parse_fuel p) as Hf. destruct (parser_specs (expr_fuel p)) as [H _].
  destruct (H p) as [_ Ho].
  destruct (parse_or (expr_fuel p) p) as [[[a [|[t' s'] p']]|e]|] eqn:E; [by destruct Ho|by eexists|done|done].
Qed.

(** ** More fuel gives the same answer *)

Lemma obind_mono {A B} (r r' : option (PResult A)) (k k' : A -> Parser -> option (PResult B)) x :
  (forall y, r = Some y -> r' = Some y) -> (forall a p y, k a p = Some y -> k' a p = Some y) ->
  obind r k = Some x -> obind r' k' = Some x.
Proof.
  intros Hr Hk. destruct r as [[[a p]|e]|]; simpl; [| |done]; rewrite (Hr _ eq_refl); simpl; auto.
Qed.

Lemma fuel_mono n : forall m, (n <= m)%nat ->
  (forall p r, parse_or n p = Some r -> parse_or m p = Some r) /\
  (forall a p r, or_loop n a p = Some r -> or_loop m a p = Some r) /\
  (forall p r, parse_and n p = Some r -> parse_and m p = Some r) /\
  (forall a p r, and_loop n a p = Some r -> and_loop m a p = Some r) /\
  (forall p r, parse_not n p = Some r -> parse_not m p = Some r) /\
  (forall p r, parse_atom n p = Some r -> parse_atom m p = Some r).
Proof.
  induction n as [|n IH]; [done|]. intros [|m] Hle; [lia|].
  destruct (IH m ltac:(lia)) as (IHor & IHol & IHand & IHal & IHnot & IHatom). clear IH.
  split_and!.
  - intros p r. cbn [parse_or]. destruct (check_leading p); [|done]. apply obind_mono; auto.
  - intros a p r. cbn [or_loop]. destruct (peek p) as [[[] s]|]; try done.
    destruct (peek (bump p)); [|done]. apply obind_mono; auto.
  - intros p r. cbn [parse_and]. apply obind_mono; auto.
  - intros a p r. cbn [and_loop]. destruct (peek p) as [[t s]|]; [|done].
    destruct t; try done; try (destruct (peek (bump p)); [|done]); apply obind_mono; auto.
  - intros p r. cbn [parse_not]. destruct (peek p) as [[[] s]|]; auto. apply obind_mono; auto.
  - intros p r. cbn [parse_atom]. destruct (peek p) as [[[] s]|]; try done. apply obind_mono; auto.
Qed.

Lemma parse_or_det n m p r r' : parse_or n p = Some r -> parse_or m p = Some r' -> r = r'.
Proof.
  intros H1 H2. apply (fuel_mono _ (Nat.max n m)) in H1, H2; [|lia..]. congruence.
Qed.

(** ** The grammar *)

Definition tstr (s : string) : Token := TString {| lit_value := s; terminated := true |}.

(** What may follow an ordering operator or stand in a range. *)
Inductive operand (f : string) : Token -> Value -> Prop :=
| operand_number n : operand f (TNumber n) (VNum n)
| operand_string s : operand f (tstr s) (if is_date_field f then VDate s else VStr s).

Inductive plain : Token -> Value -> Prop :=
| plain_word s : plain (TIdent s) (VStr s)
| plain_string s : plain (tstr s) (VStr s)
| plain_number n : plain (TNumber n) (VNum n).

Definition order_op (t : Token) : option CmpOp :=
  match t with TGt => Some Gt | TGte => Some Gte | TLt => Some Lt | TLte => Some Lte | _ => None end.

Definition call_op (name : string) : option CmpOp :=
  if bool_decide (name = "i") then Some IlikeContains else if bool_decide (name = "re") then Some Regex else None.

(** The values of a field, and the comparison each stands for. *)
Inductive value_of (f : string) : list Token -> Ast -> Prop :=
| value_neq t tv v : t = TBang \/ t = TBangEq -> plain tv v -> value_of f [t; tv] (ACmp f Neq v)
| value_range tlo lo thi hi :
    operand f tlo lo -> operand f thi hi -> value_of f [TLBracket; tlo; TComma; thi; TRBracket] (AInRange f lo hi)
| value_order t op tv v : order_op t = Some op -> operand f tv v -> value_of f [t; tv] (ACmp f op v)
| value_call name op s :
    call_op name = Some op -> value_of f [TIdent name; TLParen; tstr s; TRParen] (ACmp f op (VStr s))
| value_word s : value_of f [TIdent s] (ACmp f (if contains_star s then Wildcard else Eq) (VStr s))
| value_string s :
    value_of f [tstr s] (if contains_star s then ACmp f Wildcard (VStr s)
                         else ACmp f Eq (if is_date_field f then VDate s else VStr s))
| value_number n : value_of f [TNumber n] (ACmp f Eq (VNum n)).

(** The tokens end in the value [i] or [re], which a parenthesis after it would
    turn into a call. *)
Definition ends_callable (ts : list Token) : bool :=
  match rev ts with
  | TIdent name :: TColon :: _ => bool_decide (is_Some (call_op name))
  | _ => false
  end.

(** The grammar in the head of parser.rs, level by level. *)
Inductive level := LOr | LAnd | LNot | LAtom.

Inductive derives : level -> Ast -> list Token -> Prop :=
| field_term f vs a : f ∈ VALID_FIELDS -> value_of f vs a -> derives LAtom a (TIdent f :: TColon :: vs)
| atom_group a ts : derives LOr a ts -> derives LAtom a (TLParen :: ts ++ [TRParen])
| not_one a ts : derives LAtom a ts -> derives LNot a ts
| not_not a ts : derives LAtom a ts -> derives LNot (ANot a) (TNot :: ts)
| and_one a ts : derives LNot a ts -> derives LAnd a ts
| and_and l r tl tr : derives LAnd l tl -> derives LNot r tr -> derives LAnd (AAnd l r) (tl ++ TAnd :: tr)
| and_adjacent l r tl tr :
    derives LAnd l tl -> derives LNot r tr -> (ends_callable tl = true -> head tr <> Some TLParen) ->
    derives LAnd (AAnd l r) (tl ++ tr)
| or_one a ts : derives LAnd a ts -> derives LOr a ts
| or_or l r tl tr : derives LOr l tl -> derives LAnd r tr -> derives LOr (AOr l r) (tl ++ TOr :: tr).

Lemma derives_length lv a ts : derives lv a ts -> (2 <= length ts)%nat.
Proof. induction 1; simpl in *; rewrite ?length_app; simpl; lia. Qed.

(** How an expression may begin. *)
Definition starts_expr (ts : list Token) : Prop :=
  match ts with TIdent _ :: _ | TLParen :: _ | TNot :: _ => True | _ => False end.

Lemma starts_expr_app ts ts' : starts_expr ts -> starts_expr (ts ++ ts').
Proof. by destruct ts as [|[] ?]. Qed.

Lemma derives_starts lv a ts : derives lv a ts -> starts_expr ts /\ (lv = LAtom -> head ts <> Some TNot).
Proof.
  induction 1; simpl in *; split; try done;
    repeat match goal with H : _ /\ _ |- _ => destruct H end; try done; by apply starts_expr_app.
Qed.

Lemma ends_callable_app ts ts' : (2 <= length ts')%nat -> ends_callable (ts ++ ts') = ends_callable ts'.
Proof.
  intros H. unfold ends_callable. rewrite rev_app_distr. rewrite <- length_rev in H.
  destruct (rev ts') as [|t1 [|t2 l]]; simpl in H; [lia..|done].
Qed.

Lemma ends_callable_cons t ts : (2 <= length ts)%nat -> ends_callable (t :: ts) = ends_callable ts.
Proof. apply (ends_callable_app [t]). Qed.

Lemma ends_callable_group ts : ends_callable (TLParen :: ts ++ [TRParen]) = false.
Proof. unfold ends_callable. by rewrite app_comm_cons, rev_app_distr. Qed.

(** The tokens that may follow [ts]. *)
Definition no_lparen (p : Parser) : Prop :=
  match p with (TLParen, _) :: _ => False | _ => True end.

Definition may_follow (ts : list Token) (p : Parser) : Prop := ends_callable ts = true -> no_lparen p.

Lemma fmap_fst_cons (q : Parser) t ts :
  q.*1 = t :: ts -> exists s q', q = (t, s) :: q' /\ q'.*1 = ts.
Proof. destruct q as [|[t' s] q]; intros [=]; subst. by exists s, q. Qed.

Lemma fmap_fst_app (q : Parser) ts ts' :
  q.*1 = ts ++ ts' -> exists q1 q2, q = q1 ++ q2 /\ q1.*1 = ts /\ q2.*1 = ts'.
Proof. intros H. apply fmap_app_inv in H as (l1 & l2 & -> & -> & ->). by exists l1, l2. Qed.

Ltac split_tokens :=
  repeat match goal with
  | H : fst <$> _ = _ :: _ |- _ =>
      let s := fresh "s" in let q := fresh "q" in
      apply fmap_fst_cons in H as (s & q & -> & H)
  | H : fst <$> ?q = [] |- _ => apply fmap_nil_inv in H; subst q
  end.

#[local] Arguments contains_star : simpl never.
#[local] Arguments is_date_field : simpl never.
#[local] Arguments peek_is_lparen_next : simpl never.
#[local] Arguments call_op : simpl never.

Lemma call_name name : bool_decide (name = "i") || bool_decide (name = "re") = bool_decide (is_Some (call_op name)).
Proof. unfold call_op. repeat (case_bool_decide; subst; simpl; try done); by destruct H. Qed.

Lemma no_lparen_next t s rest : no_lparen rest -> peek_is_lparen_next ((t, s) :: rest) = false.
Proof. by destruct rest as [|[[] ?] ?]. Qed.

Lemma lparen_next t s rest : peek_is_lparen_next ((t, s) :: rest) = false -> no_lparen rest.
Proof. by destruct rest as [|[[] ?] ?]. Qed.

(** *** Every derivation is read *)

Lemma parse_value_reads f vs a span q rest :
  value_of f vs a -> q.*1 = vs -> may_follow (TIdent f :: TColon :: vs) rest ->
  parse_value f span (q ++ rest) = Ok (a, rest).
Proof.
  intros Hv Hq Hm. destruct Hv as [t tv v [-> | ->] Hp|tlo lo thi hi Hlo Hhi|t op tv v Ht Ho|name op s Hc|s|s|n];
    split_tokens; unfold parse_value; simpl.
  - by destruct Hp.
  - by destruct Hp.
  - unfold parse_range, parse_range_endpoint. by destruct Hlo, Hhi.
  - destruct t; try done; injection Ht as <-; unfold parse_order; by destruct Ho.
  - rewrite call_name, (bool_decide_eq_true_2 (is_Some _)) by (by rewrite Hc). simpl.
    unfold parse_call. simpl. unfold call_op in Hc. repeat case_bool_decide; congruence.
  - rewrite call_name. destruct (bool_decide (is_Some (call_op s))) eqn:E; [|done].
    rewrite no_lparen_next; [done|]. by apply Hm.
  - by destruct (contains_star s), (is_date_field f).
  - done.
Qed.

(** Where [and_loop] and [or_loop] stop, or go on. *)
Definition and_stops (p : Parser) : Prop :=
  match p with [] | (TOr, _) :: _ | (TRParen, _) :: _ => True | _ => False end.

Lemma and_stops_loop n a p : and_stops p -> and_loop (S n) a p = Some (Ok (a, p)).
Proof. by destruct p as [|[[] ?] ?]. Qed.

Lemma and_stops_follow ts p : and_stops p -> may_follow ts p.
Proof. intros H _. by destruct p as [|[[] ?] ?]. Qed.

(** Each level's parser reads a derivation of the level, and its loop goes on
    from there. *)
Definition reads (lv : level) (a : Ast) (q : Parser) : Prop :=
  forall rest,
    match lv with
    | LAtom => may_follow q.*1 rest -> exists n, parse_atom n (q ++ rest) = Some (Ok (a, rest))
    | LNot => may_follow q.*1 rest -> exists n, parse_not n (q ++ rest) = Some (Ok (a, rest))
    | LAnd => may_follow q.*1 rest -> forall n r, and_loop n a rest = Some r -> exists m, parse_and m (q ++ rest) = Some r
    | LOr => and_stops rest -> forall n r, or_loop n a rest = Some r -> exists m, parse_or m (q ++ rest) = Some r
    end.

Lemma check_leading_starts (q rest : Parser) : starts_expr q.*1 -> check_leading (q ++ rest) = Ok tt.
Proof. by destruct q as [|[[] ?] ?]. Qed.

Lemma not_of_atom n (q : Parser) rest r :
  starts_expr q.*1 -> head q.*1 <> Some TNot -> parse_atom n (q ++ rest) = Some r -> parse_not (S n) (q ++ rest) = Some r.
Proof. by destruct q as [|[[] ?] ?]. Qed.

Lemma parse_and_S n p : parse_and (S n) p = obind (parse_not n p) (fun l p1 => and_loop n l p1).
Proof. done. Qed.

Lemma or_loop_or n a s p :
  p <> [] -> or_loop (S n) a ((TOr, s) :: p) = obind (parse_and n p) (fun b p2 => or_loop n (AOr a b) p2).
Proof. by destruct p. Qed.

Lemma and_loop_and n a s p :
  p <> [] -> and_loop (S n) a ((TAnd, s) :: p) = obind (parse_not n p) (fun b p2 => and_loop n (AAnd a b) p2).
Proof. by destruct p. Qed.

Lemma and_loop_adjacent n a (q : Parser) rest :
  starts_expr q.*1 -> and_loop (S n) a (q ++ rest) = obind (parse_not n (q ++ rest)) (fun b p2 => and_loop n (AAnd a b) p2).
Proof. by destruct q as [|[[] ?] ?]. Qed.

Lemma starts_ne (q rest : Parser) : starts_expr q.*1 -> q ++ rest <> [].
Proof. by destruct q. Qed.

Ltac raise H m := apply (fuel_mono _ m) in H; [|lia].

Lemma derives_reads lv a ts : derives lv a ts -> forall q, q.*1 = ts -> reads lv a q.
Proof.
  induction 1 as [f vs a Hf Hv|a ts H IH|a ts H IH|a ts H IH|a ts H IH|l r tl tr Hl IHl Hr IHr
    |l r tl tr Hl IHl Hr IHr Hadj|a ts H IH|l r tl tr Hl IHl Hr IHr]; intros q Hq rest; cbn [reads].
  - intros Hm. exists 1%nat. rewrite Hq in Hm.
    apply fmap_fst_cons in Hq as (s1 & q1 & -> & Hq). apply fmap_fst_cons in Hq as (s2 & q2 & -> & Hq).
    simpl. unfold expect_field_term. rewrite bool_decide_eq_true_2 by done. simpl. by rewrite (parse_value_reads f vs a).
  - intros _. apply fmap_fst_cons in Hq as (s1 & q1 & -> & Hq). apply fmap_fst_app in Hq as (q2 & q3 & -> & Hq2 & Hq3).
    split_tokens. destruct (IH q2 Hq2 ((TRParen, s) :: rest) I 1%nat _ eq_refl) as [m Hm]. exists (S m).
    cbn [app]. rewrite <- app_assoc. cbn [parse_atom peek head bump tail app]. by rewrite Hm.
  - intros Hm. destruct (IH q Hq rest Hm) as [n Hn]. destruct (derives_starts _ _ _ H) as [Hs Hnt]. rewrite <- Hq in Hs, Hnt.
    exists (S n). apply not_of_atom; auto.
  - intros Hm. rewrite Hq in Hm. apply fmap_fst_cons in Hq as (s & q' & -> & Hq). unfold may_follow in Hm.
    rewrite ends_callable_cons in Hm by (by eapply derives_length). rewrite <- Hq in Hm.
    destruct (IH q' Hq rest Hm) as [n Hn]. exists (S n). cbn [app parse_not peek head bump tail]. by rewrite Hn.
  - intros Hm n r Hr. destruct (IH q Hq rest Hm) as [m Hp]. set (k := Nat.max n m).
    raise Hp k. raise Hr k. exists (S k). rewrite parse_and_S, Hp. done.
  - intros Hm n x Hx. rewrite Hq in Hm. apply fmap_fst_app in Hq as (ql & q1 & -> & Hql & Hq).
    apply fmap_fst_cons in Hq as (s & qr & -> & Hqr). pose proof (derives_length _ _ _ Hr) as Hlen.
    unfold may_follow in Hm. rewrite ends_callable_app, ends_callable_cons, <- Hqr in Hm by (simpl; lia).
    destruct (IHr qr Hqr rest Hm) as [m Hp]. destruct (derives_starts _ _ _ Hr) as [Hs _]. rewrite <- Hqr in Hs.
    set (k := Nat.max n m). raise Hp k. raise Hx k. rewrite <- app_assoc. apply (IHl ql Hql ((TAnd, s) :: qr ++ rest)) with (n := S k); [by intros _|].
    cbn [app]. rewrite and_loop_and, Hp by (by apply starts_ne). done.
  - intros Hm n x Hx. rewrite Hq in Hm. apply fmap_fst_app in Hq as (ql & qr & -> & Hql & Hqr).
    pose proof (derives_length _ _ _ Hr) as Hlen. unfold may_follow in Hm. rewrite ends_callable_app, <- Hqr in Hm by lia.
    destruct (IHr qr Hqr rest Hm) as [m Hp]. destruct (derives_starts _ _ _ Hr) as [Hs _]. rewrite <- Hqr in Hs, Hadj.
    set (k := Nat.max n m). raise Hp k. raise Hx k. rewrite <- app_assoc. apply (IHl ql Hql (qr ++ rest)) with (n := S k).
    + rewrite Hql. intros Hc. specialize (Hadj Hc). by destruct qr as [|[[] ?] ?].
    + by rewrite and_loop_adjacent, Hp.
  - intros Hst n r Hr. destruct (IH q Hq rest (and_stops_follow _ _ Hst) 1%nat _ (and_stops_loop 0 a rest Hst)) as [m Hp].
    set (k := Nat.max n m). raise Hp k. raise Hr k. destruct (derives_starts _ _ _ H) as [Hs _]. rewrite <- Hq in Hs.
    exists (S k). cbn [parse_or]. rewrite check_leading_starts, Hp by done. done.
  - intros Hst n x Hx. apply fmap_fst_app in Hq as (ql & q1 & -> & Hql & Hq).
    apply fmap_fst_cons in Hq as (s & qr & -> & Hqr).
    destruct (IHr qr Hqr rest (and_stops_follow _ _ Hst) 1%nat _ (and_stops_loop 0 r rest Hst)) as [m Hp].
    destruct (derives_starts _ _ _ Hr) as [Hs _]. rewrite <- Hqr in Hs.
    set (k := Nat.max n m). raise Hp k. raise Hx k. rewrite <- app_assoc. apply (IHl ql Hql ((TOr, s) :: qr ++ rest) I (S k)).
    cbn [app]. rewrite or_loop_or, Hp by (by apply starts_ne). done.
Qed.

(** *** What is read is a derivation *)

(** [p] begins with a derivation of [a], and [p'] is what comes after it. *)
Definition parsed (lv : level) (a : Ast) (p p' : Parser) : Prop :=
  exists q, p = q ++ p' /\ derives lv a q.*1 /\ may_follow q.*1 p'.

Ltac token_cases :=
  repeat match goal with
  | H : context [match head ?p with _ => _ end] |- _ => destruct p as [|[[] ?] ?]; simpl in H; try discriminate H
  | H : context [if negb (terminated ?s) then _ else _] |- _ =>
      let b := fresh "b" in destruct s as [s b]; simpl in H; destruct b; simpl in H; try discriminate H
  end.

Lemma string_operand f s v : v = (if is_date_field f then VDate s else VStr s) -> operand f (tstr s) v.
Proof. intros ->. constructor. Qed.

Ltac settle_ok H := injection H as <- <-.

Lemma parse_range_value f s0 span p a p' :
  parse_range f span p = Ok (a, p') -> exists q, (TLBracket, s0) :: p = q ++ p' /\ value_of f q.*1 a /\ ends_callable (TIdent f :: TColon :: q.*1) = false.
Proof.
  unfold parse_range, parse_range_endpoint, peek, bump. intros H. token_cases; settle_ok H;
    (eexists [_; _; _; _; _]; split_and!; [reflexivity| |reflexivity]; constructor; constructor).
Qed.

Lemma parse_value_value f s1 s2 span p a p' :
  parse_value f span p = Ok (a, p') ->
  exists q, p = q ++ p' /\ value_of f q.*1 a /\ may_follow (((TIdent f, s1) :: (TColon, s2) :: q).*1) p'.
Proof.
  unfold parse_value, parse_neq, parse_order, peek, bump. destruct p as [|[t s] p]; simpl; [done|].
  destruct t; try done; intros H.
  all: try (token_cases; settle_ok H; eexists [_; _]; (split; [reflexivity|]); (split; [simpl|done]);
    (apply value_neq; [tauto|constructor]) || (eapply value_order; [reflexivity|constructor])).
  - apply (parse_range_value f s) in H as (q & -> & Hv & Hc). exists q. split_and!; [done|done|].
    intros Hx. change (ends_callable (TIdent f :: TColon :: q.*1) = true) in Hx. congruence.
  - token_cases. injection H as <- <-. eexists [_]. split; [reflexivity|]. split; [|done].
    pose proof (value_string f s0) as Hv. by destruct (contains_star s0), (is_date_field f).
  - settle_ok H. eexists [_]. split; [reflexivity|]. split; [constructor|done].
  - rewrite call_name in H. destruct (bool_decide (is_Some (call_op s0))) eqn:Hc; simpl in H.
    2: { settle_ok H. eexists [_]. split; [reflexivity|]. split; [constructor|].
         unfold may_follow, ends_callable. simpl. by rewrite Hc. }
    destruct (peek_is_lparen_next _) eqn:Hl in H.
    2: { settle_ok H. eexists [_]. split; [reflexivity|]. split; [constructor|]. intros _. by eapply lparen_next. }
    destruct p as [|[[] s3] p]; try done. unfold parse_call, peek, bump in H. simpl in H. token_cases. settle_ok H.
    eexists [_; _; _; _]. split; [reflexivity|]. split; [|done]. simpl.
    apply bool_decide_eq_true in Hc as [op Hc]. replace (if bool_decide (s0 = "i") then IlikeContains else Regex) with op.
    + by apply value_call.
    + unfold call_op in Hc. repeat case_bool_decide; congruence.
Qed.

Lemma obind_ok {A B : Type} (r : option (PResult A)) (k : A -> Parser -> option (PResult B)) x :
  obind r k = Some (Ok x) -> exists a p, r = Some (Ok (a, p)) /\ k a p = Some (Ok x).
Proof. destruct r as [[[a p]|e]|]; try done. simpl. intros H. by exists a, p. Qed.

Lemma parsed_app_step (q1 q2 : Parser) p : may_follow q2.*1 p -> (2 <= length q2)%nat -> may_follow (q1 ++ q2).*1 p.
Proof. unfold may_follow. intros H Hl. rewrite fmap_app, ends_callable_app by (by rewrite length_fmap). done. Qed.

Lemma parsed_one lv lv' a p p' : (forall ts, derives lv a ts -> derives lv' a ts) -> parsed lv a p p' -> parsed lv' a p p'.
Proof. intros H (q & Hp & Hd & Hm). exists q. auto. Qed.

Lemma parsed_or l r s p0 p p' : parsed LOr l p0 ((TOr, s) :: p) -> parsed LAnd r p p' -> parsed LOr (AOr l r) p0 p'.
Proof.
  intros (ql & -> & Hl & _) (qr & -> & Hr & Hm). exists (ql ++ (TOr, s) :: qr). rewrite <- app_assoc. split_and!; [done| |].
  - rewrite fmap_app. by apply or_or.
  - pose proof (derives_length _ _ _ Hr) as Hlen. rewrite length_fmap in Hlen. apply parsed_app_step; [|simpl; lia].
    apply (parsed_app_step [_]); [done|lia].
Qed.

Lemma parsed_and l r s p0 p p' : parsed LAnd l p0 ((TAnd, s) :: p) -> parsed LNot r p p' -> parsed LAnd (AAnd l r) p0 p'.
Proof.
  intros (ql & -> & Hl & _) (qr & -> & Hr & Hm). exists (ql ++ (TAnd, s) :: qr). rewrite <- app_assoc. split_and!; [done| |].
  - rewrite fmap_app. by apply and_and.
  - pose proof (derives_length _ _ _ Hr) as Hlen. rewrite length_fmap in Hlen. apply parsed_app_step; [|simpl; lia].
    apply (parsed_app_step [_]); [done|lia].
Qed.

Lemma parsed_adjacent l r p0 p p' : parsed LAnd l p0 p -> parsed LNot r p p' -> parsed LAnd (AAnd l r) p0 p'.
Proof.
  intros (ql & -> & Hl & Hml) (qr & -> & Hr & Hm). exists (ql ++ qr). rewrite <- app_assoc. split_and!; [done| |].
  - rewrite fmap_app. apply and_adjacent; [done|done|]. intros Hc. specialize (Hml Hc). by destruct qr as [|[[] ?] ?].
  - pose proof (derives_length _ _ _ Hr) as Hlen. rewrite length_fmap in Hlen. by apply parsed_app_step.
Qed.

Lemma parsed_not a s p p' : parsed LAtom a p p' -> parsed LNot (ANot a) ((TNot, s) :: p) p'.
Proof.
  intros (q & -> & Hd & Hm). exists ((TNot, s) :: q). split_and!; [done|by apply not_not|].
  pose proof (derives_length _ _ _ Hd) as Hlen. rewrite length_fmap in Hlen. by apply (parsed_app_step [_]).
Qed.

Lemma parsed_group a s1 s2 p p' : parsed LOr a p ((TRParen, s2) :: p') -> parsed LAtom a ((TLParen, s1) :: p) p'.
Proof.
  intros (q & -> & Hd & _). exists ((TLParen, s1) :: q ++ [(TRParen, s2)]). split_and!.
  - simpl. by rewrite <- app_assoc.
  - simpl. rewrite fmap_app. by apply atom_group.
  - unfold may_follow. cbn [fmap list_fmap fst]. change (list_fmap _ _ fst (q ++ ?x)) with (fst <$> (q ++ x)).
    rewrite fmap_app. change ((fst <$> [(TRParen, s2)])) with [TRParen]. rewrite ends_callable_group. done.
Qed.

Lemma parsed_term f s p a p' : expect_field_term f s p = Ok (a, p') -> parsed LAtom a ((TIdent f, s) :: p) p'.
Proof.
  unfold expect_field_term. case_bool_decide as Hf; [|done]. simpl. destruct p as [|[[] s2] p]; simpl; try done.
  intros H. apply (parse_value_value f s s2) in H as (q & -> & Hv & Hm).
  exists ((TIdent f, s) :: (TColon, s2) :: q). split_and!; [done| |done]. by apply field_term.
Qed.

Lemma parser_derives n :
  (forall p a p', parse_or n p = Some (Ok (a, p')) -> parsed LOr a p p') /\
  (forall l p0 p a p', parsed LOr l p0 p -> or_loop n l p = Some (Ok (a, p')) -> parsed LOr a p0 p') /\
  (forall p a p', parse_and n p = Some (Ok (a, p')) -> parsed LAnd a p p') /\
  (forall l p0 p a p', parsed LAnd l p0 p -> and_loop n l p = Some (Ok (a, p')) -> parsed LAnd a p0 p') /\
  (forall p a p', parse_not n p = Some (Ok (a, p')) -> parsed LNot a p p') /\
  (forall p a p', parse_atom n p = Some (Ok (a, p')) -> parsed LAtom a p p').
Proof.
  induction n as [|n (IHor & IHol & IHand & IHal & IHnot & IHatom)]; [done|]. split_and!.
  - intros p a p'. cbn [parse_or]. destruct (check_leading p); [|done]. intros (l & p1 & Hl & H)%obind_ok.
    apply (IHol l p p1); [|done]. apply IHand in Hl. revert Hl. apply parsed_one, or_one.
  - intros l p0 p a p' Hl. cbn [or_loop]. destruct p as [|[[] s] p]; simpl; try (by intros [= <- <-]).
    destruct p as [|x p]; simpl; [done|]. intros (r & p2 & Hr & H)%obind_ok. apply (IHol _ p0 p2 _ _) in H; [done|].
    apply IHand in Hr. by eapply parsed_or.
  - intros p a p'. cbn [parse_and]. intros (l & p1 & Hl & H)%obind_ok.
    apply (IHal l p p1); [|done]. apply IHnot in Hl. revert Hl. apply parsed_one, and_one.
  - intros l p0 p a p' Hl. cbn [and_loop]. destruct p as [|[t s] p]; simpl; [by intros [= <- <-]|].
    assert (Hadj : forall p1, obind (parse_not n p1) (fun right p2 => and_loop n (AAnd l right) p2) = Some (Ok (a, p')) ->
      (forall r p2, parsed LNot r p1 p2 -> parsed LAnd (AAnd l r) p0 p2) -> parsed LAnd a p0 p').
    { intros p1 (r & p2 & Hr & H)%obind_ok Hstep. apply (IHal _ p0 p2 _ _) in H; [done|]. by apply Hstep, IHnot. }
    destruct t; simpl; try (by intros [= <- <-]);
      try (intros H; apply (Hadj _ H); intros; by eapply parsed_adjacent).
    destruct p as [|x p]; simpl; [done|]. intros H. apply (Hadj _ H). intros. by eapply parsed_and.
  - intros p a p'. cbn [parse_not].
    assert (Hone : parse_atom n p = Some (Ok (a, p')) -> parsed LNot a p p').
    { intros H. apply IHatom in H. revert H. apply parsed_one, not_one. }
    destruct p as [|[[] s] p]; simpl; try exact Hone. intros (i & p1 & Hi & [= <- <-])%obind_ok. by apply parsed_not, IHatom.
  - intros p a p'. cbn [parse_atom]. destruct p as [|[[] s] p]; simpl; try done.
    + intros (i & p1 & Hi & H)%obind_ok. destruct p1 as [|[[] s2] p1]; simpl in H; try done. injection H as <- <-.
      by eapply parsed_group, IHor.
    + intros [= H]. by apply parsed_term.
Qed.

Lemma parse_or_derives a (p : Parser) : parse_or (expr_fuel p) p = Some (Ok (a, [])) <-> derives LOr a p.*1.
Proof.
  split.
  - intros H. apply parser_derives in H as (q & -> & Hd & _). by rewrite app_nil_r.
  - intros H. destruct (derives_reads _ _ _ H p eq_refl [] I 1%nat _ eq_refl) as [n Hn]. rewrite app_nil_r in Hn.
    pose proof (parse_fuel p) as Hf.
    destruct (parse_or (expr_fuel p) p) as [r|] eqn:E; [|done]. f_equal. by eapply parse_or_det.
Qed.

(** ** Printing *)

Definition unparse_value (v : Value) : Token :=
  match v with
  | VStr s | VDate s => tstr s
  | VNum n => TNumber n
  end.

Definition unparse_cmp (field : string) (op : CmpOp) (v : Value) : list Token :=
  match op with
  | Eq => match v with
          | VStr s => if is_date_field field then [TIdent s] else [tstr s]
          | _ => [unparse_value v]
          end
  | Wildcard => [unparse_value v]
  | Neq => [TBang; unparse_value v]
  | Gt => [TGt; unparse_value v]
  | Gte => [TGte; unparse_value v]
  | Lt => [TLt; unparse_value v]
  | Lte => [TLte; unparse_value v]
  | IlikeContains => [TIdent "i"; TLParen; unparse_value v; TRParen]
  | Regex => [TIdent "re"; TLParen; unparse_value v; TRParen]
  end.

Definition group (b : bool) (ts : list Token) : list Token := if b then TLParen :: ts ++ [TRParen] else ts.

(** A tree as tokens, with parentheses only where the level asks for them. *)
Fixpoint unparse_at (lv : level) (a : Ast) : list Token :=
  match a with
  | AOr l r =>
      group (match lv with LOr => false | _ => true end) (unparse_at LOr l ++ TOr :: unparse_at LAnd r)
  | AAnd l r =>
      group (match lv with LOr | LAnd => false | _ => true end) (unparse_at LAnd l ++ TAnd :: unparse_at LNot r)
  | ANot e => group (match lv with LAtom => true | _ => false end) (TNot :: unparse_at LAtom e)
  | ACmp f op v => TIdent f :: TColon :: unparse_cmp f op v
  | AInRange f lo hi => [TIdent f; TColon; TLBracket; unparse_value lo; TComma; unparse_value hi; TRBracket]
  end.

Definition unparse (a : Ast) : list Token := unparse_at LOr a.

Lemma derives_up a ts :
  (derives LAtom a ts -> derives LNot a ts) /\ (derives LNot a ts -> derives LAnd a ts) /\ (derives LAnd a ts -> derives LOr a ts).
Proof. split_and!; intros; by constructor. Qed.

Lemma derives_atom lv a ts : derives LAtom a ts -> derives lv a ts.
Proof. intros H. destruct lv; repeat (done || constructor). Qed.

Lemma operand_value f v : operand_ok f v -> operand f (unparse_value v) v.
Proof. destruct v; simpl; intros H; [|constructor|]; apply string_operand; by rewrite H. Qed.

Lemma cmp_value f op v : cmp_ok f op v -> value_of f (unparse_cmp f op v) (ACmp f op v).
Proof.
  intros Hok. assert (Hord : operand_ok f v -> forall t o, order_op t = Some o -> value_of f [t; unparse_value v] (ACmp f o v)).
  { intros H t o Ht. apply value_order; [done|]. by apply operand_value. }
  destruct op; simpl in Hok |- *; try (by apply Hord).
  - destruct v as [s|n|s]; [|constructor|].
    + pose proof (value_word f s) as Hw. pose proof (value_string f s) as Hs. rewrite Hok in Hw, Hs. by destruct (is_date_field f).
    + destruct Hok as [H1 H2]. pose proof (value_string f s) as Hs. by rewrite H1, H2 in Hs.
  - destruct v; try done; (apply value_neq; [by left|constructor]).
  - destruct v; try done. by apply value_call.
  - destruct v; try done. by apply value_call.
  - destruct v as [s| |]; try done. pose proof (value_string f s) as Hs. by rewrite Hok in Hs.
Qed.

Lemma unparse_derives a : ast_ok a -> forall lv, derives lv a (unparse_at lv a).
Proof.
  induction a as [l IHl r IHr|l IHl r IHr|e IHe|f op v|f lo hi]; cbn [ast_ok]; intros Hok lv.
  - destruct Hok as [Hl Hr]. specialize (IHl Hl LAnd). specialize (IHr Hr LNot). pose proof (and_and _ _ _ _ IHl IHr) as H.
    destruct lv; simpl; [by apply or_one|done|apply derives_atom, atom_group, or_one, H..].
  - destruct Hok as [Hl Hr]. specialize (IHl Hl LOr). specialize (IHr Hr LAnd). pose proof (or_or _ _ _ _ IHl IHr) as H.
    destruct lv; simpl; [done|apply derives_atom, atom_group, H..].
  - pose proof (not_not _ _ (IHe Hok LAtom)) as H. destruct lv; simpl; [by apply or_one, and_one|by apply and_one|done|].
    by apply (atom_group _ (TNot :: unparse_at LAtom e)), or_one, and_one.
  - destruct Hok. apply derives_atom, field_term; [done|]. by apply cmp_value.
  - destruct Hok as (? & ? & ?). apply derives_atom, field_term; [done|]. apply value_range; by apply operand_value.
Qed.

Lemma parse_or_unparse ast p :
  ast_ok ast -> p.*1 = unparse ast -> parse_or (expr_fuel p) p = Some (Ok (ast, [])).
Proof. intros Hok Hp. apply parse_or_derives. rewrite Hp. by apply unparse_derives. Qed.

(** C8. The parser is the grammar in the head of parser.rs, and printing inverts
    it. For any tokens, whatever their spans, the parser with the fuel it is
    given reads the whole as a tree exactly when the grammar derives the tokens
    as that tree: [or] below [and] below [not], [or] and [and] associating to the
    left, two operands side by side read as their [and], parentheses anywhere
    around an expression (but next to a bare [i] or [re] value, which a
    parenthesis turns into a call). So no token sequence has two trees. And
    every well-typed tree has a text: printed with parentheses only where the
    grammar needs them, it parses back to itself. *)
Theorem parse_unparse (ast : Ast) (p : list (Token * Range)) :
  (parse_or (expr_fuel p) p = Some (Ok (ast, [])) <-> derives LOr ast p.*1) /\
  (ast_ok ast -> p.*1 = unparse ast -> parse_or (expr_fuel p) p = Some (Ok (ast, []))).
Proof. split; [apply parse_or_derives|apply parse_or_unparse]. Qed.

Definition sample_ast : Ast :=
  AOr (AAnd (ACmp "state" Eq (VStr "failed")) (ANot (AOr (ACmp "branch" Regex (VStr "^feat/"))
    (AInRange "created_at" (VDate "2026-04-01") (VDate "2026-04-30"))))) (ACmp "exit_code" Gte (VNum (F64.of_Z 1))).

Definition nested_ast : Ast :=
  AOr (AOr (AAnd (AAnd (ACmp "state" Eq (VStr "failed")) (ANot (AOr (ACmp "branch" Regex (VStr "^feat/"))
    (AInRange "created_at" (VDate "2026-04-01") (VDate "2026-04-30"))))) (ACmp "branch" Wildcard (VStr "c*")))
    (ACmp "exit_code" Gte (VNum (F64.of_Z 1)))) (AAnd (ACmp "stage" Eq (VStr "x")) (AAnd (ACmp "stage" Eq (VStr "y")) (ACmp "stage" Eq (VStr "z")))).

(** Left-nested operators print bare, right-nested ones in parentheses. *)
Lemma parse_unparse_witness :
  let p := (fun t => (t, {| r_start := 0; r_end := 0 |})) <$> unparse nested_ast in
  foldr (fun t n => match t with TLParen => S n | _ => n end) 0%nat (unparse nested_ast) = 3%nat /\
  parse_or (expr_fuel p) p = Some (Ok (nested_ast, [])).
Proof.
  intros p. assert (Hok : ast_ok nested_ast) by (simpl; set_solver).
  split; [vm_compute; reflexivity|]. apply (parse_unparse nested_ast p); [exact Hok|]. vm_compute. reflexivity.
Defined.

(** A bare [i] before a group is a call, not two operands side by side. *)
Example group_after_i_is_call :
  parse "stage:i (state:failed)" = Err (err_at unterminated_call 9) /\
  parse "stage:i and (state:failed)" = Ok (Some (AAnd (ACmp "stage" Eq (VStr "i")) (ACmp "state" Eq (VStr "failed")))).
Proof. by vm_compute. Qed.

(** The position of an error can lie past the end of the input: a range
    that stops after its comma is reported four bytes after the bracket,
    wherever the input ends. *)
Theorem range_error_past_end :
  parse "exit_code:[1," = Err (err_at unterminated_range 15) /\ String.length "exit_code:[1," = 13%nat.
Proof. by vm_compute. Qed.
