(* ===== verification/QueryCompile.v ===== *)
(** * ChQL: the SQL compiler (crates/ci-controller/src/query/compile.rs)

    The two chrono parsers that [parse_date_bind] calls are parameters:
    [parse_from_rfc3339] gives the instant in UTC, [parse_ymd] the midnight of a
    [%Y-%m-%d] date (on which [and_hms_opt(0, 0, 0)] always succeeds). *)

From Stdlib Require Import ZArith Lia Ascii.
From stdpp Require Import strings list sets fin_sets pretty.
From S2P Require Import Prelude Text F64 QueryLexer QueryParser.

Inductive CompileError :=
| UnknownField (name : string)
| OperatorNotSupported (field : string) (op : CmpOp)
| InvalidDate (v : string).

Inductive Column := State | Branch | Repo | RepoId | StageName | ExitCode | CreatedAt | CompletedAt.

#[export] Instance Column_eq_dec : EqDecision Column.
Proof. solve_decision. Defined.

Definition sql_ident (c : Column) : string :=
  match c with
  | State => "state"
  | Branch => "branch"
  | Repo => "repo_id"
  | RepoId => "repo_id"
  | StageName => "stage_name"
  | ExitCode => "exit_code"
  | CreatedAt => "created_at"
  | CompletedAt => "completed_at"
  end.

Definition needs_jobs_subquery (c : Column) : bool :=
  match c with StageName | ExitCode => true | _ => false end.

Definition resolve (field : string) : result Column CompileError :=
  if bool_decide (field = "state") then Ok State
  else if bool_decide (field = "branch") then Ok Branch
  else if bool_decide (field = "repo") then Ok Repo
  else if bool_decide (field = "repo_id") then Ok RepoId
  else if bool_decide (field = "stage") then Ok StageName
  else if bool_decide (field = "exit_code") then Ok ExitCode
  else if bool_decide (field = "created_at") then Ok CreatedAt
  else if bool_decide (field = "completed_at") then Ok CompletedAt
  else Err (UnknownField field).

Inductive SqlBind :=
| BStr (s : string)
| BNum (n : f64)
| BDate (t : timestamp).

Record SqlFragment := {
  sql : string;
  binds : list SqlBind
}.

(** [?] becomes [$idx], counting up. *)
Fixpoint to_pg_loop (s : string) (idx : nat) : string * nat :=
  match s with
  | EmptyString => (EmptyString, idx)
  | String ch s' =>
      if bool_decide (ch = "?"%char) then
        let '(out, idx') := to_pg_loop s' (S idx) in
        (String "$" (pretty idx +:+ out), idx')
      else
        let '(out, idx') := to_pg_loop s' idx in
        (String ch out, idx')
  end.

Definition to_pg (f : SqlFragment) (start_idx : nat) : string * nat := to_pg_loop (sql f) start_idx.

(** [str::replace] of the one-byte pattern [*] by [%]. *)
Fixpoint star_to_percent (s : string) : string :=
  match s with
  | EmptyString => EmptyString
  | String c s' => String (if bool_decide (c = "*"%char) then "%"%char else c) (star_to_percent s')
  end.

Definition value_to_string (v : Value) : string :=
  match v with
  | VStr s | VDate s => s
  | VNum n => F64.to_string n
  end.

Definition value_to_bind_string (v : Value) : result SqlBind CompileError := Ok (BStr (value_to_string v)).

Definition value_to_bind_number (v : Value) : result SqlBind CompileError :=
  match v with
  | VNum n => Ok (BNum n)
  | VStr s => match F64.parse s with Some n => Ok (BNum n) | None => Err (InvalidDate s) end
  | VDate s => Err (InvalidDate s)
  end.

Definition jobs_exists (inner : string) : string :=
  ("EXISTS (SELECT 1 FROM jobs j_q WHERE j_q.job_group_id = job_groups.id AND j_q." +:+ inner +:+ ")")%string.

Definition compile_repo_name (op : CmpOp) (value : Value) : result SqlFragment CompileError :=
  let? bind := match op with
               | Eq | Neq => value_to_bind_string value
               | _ => Err (OperatorNotSupported "repo" op)
               end in
  let cmp := if bool_decide (op = Neq) then "NOT IN" else "IN" in
  Ok {| sql := ("repo_id " +:+ cmp +:+ " (SELECT id FROM repos WHERE repo_name = ?)")%string; binds := [bind] |}.

Definition compile_jobs_subquery (col : Column) (op : CmpOp) (value : Value) (field : string)
    : result SqlFragment CompileError :=
  let inner_col := sql_ident col in
  let with_op (op_sql : string) (b : result SqlBind CompileError) :=
    let? bind := b in Ok (op_sql, bind) in
  let? (op_sql, bind) :=
    match col, op with
    | StageName, Eq => with_op "=" (value_to_bind_string value)
    | StageName, Neq => with_op "<>" (value_to_bind_string value)
    | ExitCode, Eq => with_op "=" (value_to_bind_number value)
    | ExitCode, Neq => with_op "<>" (value_to_bind_number value)
    | ExitCode, Gt => with_op ">" (value_to_bind_number value)
    | ExitCode, Gte => with_op ">=" (value_to_bind_number value)
    | ExitCode, Lt => with_op "<" (value_to_bind_number value)
    | ExitCode, Lte => with_op "<=" (value_to_bind_number value)
    | _, _ => Err (OperatorNotSupported field op)
    end in
  Ok {| sql := jobs_exists (inner_col +:+ " " +:+ op_sql +:+ " ?")%string; binds := [bind] |}.

Section Dates.
Context (parse_from_rfc3339 parse_ymd : string -> option timestamp).

Definition parse_date_bind (v : string) : result SqlBind CompileError :=
  match parse_from_rfc3339 v with
  | Some dt => Ok (BDate dt)
  | None =>
      match parse_ymd v with
      | Some d => Ok (BDate d)
      | None => Err (InvalidDate v)
      end
  end.

Definition value_to_bind (col : Column) (v : Value) : result SqlBind CompileError :=
  match col with
  | CreatedAt | CompletedAt =>
      match v with
      | VDate s | VStr s => parse_date_bind s
      | VNum _ => Err (InvalidDate "(number)")
      end
  | ExitCode => value_to_bind_number v
  | _ => value_to_bind_string v
  end.

Definition compile_cmp (field : string) (op : CmpOp) (value : Value) : result SqlFragment CompileError :=
  let? col := resolve field in
  if bool_decide (col = Repo) then compile_repo_name op value
  else if needs_jobs_subquery col then compile_jobs_subquery col op value field
  else
    let ident := sql_ident col in
    let order (op_sql : string) :=
      let? bind := value_to_bind col value in
      Ok {| sql := (ident +:+ " " +:+ op_sql +:+ " ?")%string; binds := [bind] |} in
    match op with
    | Eq => order "="
    | Neq => order "<>"
    | Gt => order ">"
    | Gte => order ">="
    | Lt => order "<"
    | Lte => order "<="
    | IlikeContains =>
        let? bind := value_to_bind_string value in
        Ok {| sql := (ident +:+ " ILIKE '%' || ? || '%'")%string; binds := [bind] |}
    | Regex =>
        let? bind := value_to_bind_string value in
        Ok {| sql := (ident +:+ " ~ ?")%string; binds := [bind] |}
    | Wildcard =>
        Ok {| sql := (ident +:+ " ILIKE ?")%string; binds := [BStr (star_to_percent (value_to_string value))] |}
    end.

Definition compile_range (field : string) (lo hi : Value) : result SqlFragment CompileError :=
  let? col := resolve field in
  if needs_jobs_subquery col then
    let? lo_b := value_to_bind_number lo in
    let? hi_b := value_to_bind_number hi in
    Ok {| sql := jobs_exists "exit_code BETWEEN ? AND ?"; binds := [lo_b; hi_b] |}
  else
    let? lo_b := value_to_bind col lo in
    let? hi_b := value_to_bind col hi in
    Ok {| sql := (sql_ident col +:+ " BETWEEN ? AND ?")%string; binds := [lo_b; hi_b] |}.

Fixpoint compile (ast : Ast) : result SqlFragment CompileError :=
  match ast with
  | AAnd lhs rhs =>
      let? l := compile lhs in
      let? r := compile rhs in
      Ok {| sql := ("(" +:+ sql l +:+ ") AND (" +:+ sql r +:+ ")")%string; binds := binds l ++ binds r |}
  | AOr lhs rhs =>
      let? l := compile lhs in
      let? r := compile rhs in
      Ok {| sql := ("(" +:+ sql l +:+ ") OR (" +:+ sql r +:+ ")")%string; binds := binds l ++ binds r |}
  | ANot expr =>
      let? inner := compile expr in
      Ok {| sql := ("NOT (" +:+ sql inner +:+ ")")%string; binds := binds inner |}
  | ACmp field op value => compile_cmp field op value
  | AInRange field lo hi => compile_range field lo hi
  end.
End Dates.

(** ** The SQL text without the values *)

Inductive Shape :=
| SAnd (l r : Shape)
| SOr (l r : Shape)
| SNot (e : Shape)
| SCmp (col : Column) (op : CmpOp)
| SRange (col : Column).

(** The shape of a tree: its connectives, columns and operators, not its values. *)
Fixpoint erase (a : Ast) : option Shape :=
  match a with
  | AAnd l r => l' ← erase l; r' ← erase r; Some (SAnd l' r')
  | AOr l r => l' ← erase l; r' ← erase r; Some (SOr l' r')
  | ANot e => e' ← erase e; Some (SNot e')
  | ACmp f op _ => match resolve f with Ok c => Some (SCmp c op) | Err _ => None end
  | AInRange f _ _ => match resolve f with Ok c => Some (SRange c) | Err _ => None end
  end.

Definition op_sql (op : CmpOp) : string :=
  match op with
  | Eq => "=" | Neq => "<>" | Gt => ">" | Gte => ">=" | Lt => "<" | Lte => "<="
  | IlikeContains | Wildcard => "ILIKE" | Regex => "~"
  end.

Definition cmp_template (col : Column) (op : CmpOp) : string :=
  if bool_decide (col = Repo) then
    if bool_decide (op = Neq) then "repo_id NOT IN (SELECT id FROM repos WHERE repo_name = ?)"
    else "repo_id IN (SELECT id FROM repos WHERE repo_name = ?)"
  else if needs_jobs_subquery col then jobs_exists (sql_ident col +:+ " " +:+ op_sql op +:+ " ?")
  else if bool_decide (op = IlikeContains) then (sql_ident col +:+ " ILIKE '%' || ? || '%'")
  else (sql_ident col +:+ " " +:+ op_sql op +:+ " ?").

Definition range_template (col : Column) : string :=
  if needs_jobs_subquery col then jobs_exists "exit_code BETWEEN ? AND ?"
  else (sql_ident col +:+ " BETWEEN ? AND ?")%string.

Fixpoint template (s : Shape) : string :=
  match s with
  | SAnd l r => ("(" +:+ template l +:+ ") AND (" +:+ template r +:+ ")")%string
  | SOr l r => ("(" +:+ template l +:+ ") OR (" +:+ template r +:+ ")")%string
  | SNot e => ("NOT (" +:+ template e +:+ ")")%string
  | SCmp c op => cmp_template c op
  | SRange c => range_template c
  end.

(** The values of a tree from left to right, and what binds one. *)
Fixpoint ast_values (a : Ast) : list Value :=
  match a with
  | AAnd l r | AOr l r => ast_values l ++ ast_values r
  | ANot e => ast_values e
  | ACmp _ _ v => [v]
  | AInRange _ lo hi => [lo; hi]
  end.

Definition binds_value (rfc3339 ymd : string -> option timestamp) (v : Value) (b : SqlBind) : Prop :=
  match b with
  | BStr s => s = value_to_string v \/ s = star_to_percent (value_to_string v)
  | BNum n => v = VNum n \/ exists s, v = VStr s /\ F64.parse s = Some n
  | BDate t => exists s, (v = VDate s \/ v = VStr s) /\ (rfc3339 s = Some t \/ ymd s = Some t)
  end.

Fixpoint count_char (c : ascii) (s : string) : nat :=
  match s with
  | EmptyString => O
  | String d s' => ((if bool_decide (d = c) then 1 else 0) + count_char c s')%nat
  end.

(** Parentheses are balanced: the depth never drops below its start and
    returns to it. *)
Fixpoint depth_after (depth : nat) (s : string) : option nat :=
  match s with
  | EmptyString => Some depth
  | String c s' =>
      if bool_decide (c = "("%char) then depth_after (S depth) s'
      else if bool_decide (c = ")"%char) then
        match depth with O => None | S d => depth_after d s' end
      else depth_after depth s'
  end.

Lemma count_char_app c a b : count_char c (a +:+ b) = (count_char c a + count_char c b)%nat.
Proof. induction a as [|d a IH]; [done|]. rewrite str_cons_app. simpl. rewrite IH. lia. Qed.

Lemma depth_after_app d a b :
  depth_after d (a +:+ b) = match depth_after d a with Some d' => depth_after d' b | None => None end.
Proof.
  revert d. induction a as [|c a IH]; intros d; [done|]. rewrite str_cons_app. simpl.
  repeat case_bool_decide; auto. destruct d; auto.
Qed.

Lemma depth_after_shift d a d' k : depth_after d a = Some d' -> depth_after (d + k) a = Some (d' + k)%nat.
Proof.
  revert d. induction a as [|c a IH]; intros d; simpl; [congruence|].
  repeat case_bool_decide; [apply (IH (S d))| |apply IH]. destruct d as [|d]; [done|]. apply IH.
Qed.

Definition balanced (s : string) : Prop := depth_after 0 s = Some 0%nat.

(** Balanced text stays within any surrounding depth. *)
Lemma balanced_at d s : balanced s -> depth_after d s = Some d.
Proof. intros H. apply (depth_after_shift 0 s 0 d) in H. done. Qed.

#[local] Arguments value_to_bind : simpl never.
#[local] Arguments value_to_bind_number : simpl never.
#[local] Arguments value_to_bind_string : simpl never.

Ltac inv_ok :=
  repeat match goal with
  | H : rbind _ _ = Ok _ |- _ => apply rbind_Ok_inv in H as (? & ? & ?)
  end; simplify_eq/=.

Section CompileFacts.
Context (rfc3339 ymd : string -> option timestamp).

(** What holds of each fragment the compiler emits. *)
Definition fragment_ok (shape : option Shape) (vs : list Value) (f : SqlFragment) : Prop :=
  (exists s, shape = Some s /\ sql f = template s) /\
  Forall2 (binds_value rfc3339 ymd) vs (binds f) /\
  count_char "?" (sql f) = length (binds f) /\
  balanced (sql f) /\ count_char "$" (sql f) = O.

Lemma bind_string_ok v b : value_to_bind_string v = Ok b -> binds_value rfc3339 ymd v b.
Proof. unfold value_to_bind_string. intros [= <-]. simpl. auto. Qed.

Lemma bind_number_ok v b : value_to_bind_number v = Ok b -> binds_value rfc3339 ymd v b.
Proof.
  unfold value_to_bind_number. destruct v as [s|n|s]; [|intros [= <-]; simpl; auto|done].
  destruct (F64.parse s) eqn:E; intros [= <-]. simpl. eauto.
Qed.

Lemma bind_ok col v b : value_to_bind rfc3339 ymd col v = Ok b -> binds_value rfc3339 ymd v b.
Proof.
  assert (Hdate : forall s, (v = VDate s \/ v = VStr s) -> parse_date_bind rfc3339 ymd s = Ok b ->
            binds_value rfc3339 ymd v b).
  { intros s Hv. unfold parse_date_bind. destruct (rfc3339 s) eqn:E1.
    - intros [= <-]. simpl. eauto.
    - destruct (ymd s) eqn:E2; intros [= <-]. simpl. eauto. }
  unfold value_to_bind. destruct col; try apply bind_string_ok; try apply bind_number_ok;
    destruct v; simpl; intros H; try done; eapply Hdate; eauto.
Qed.

Lemma fragment_leaf shape s vs bs :
  shape = Some s -> Forall2 (binds_value rfc3339 ymd) vs bs ->
  count_char "?" (template s) = length vs -> depth_after 0 (template s) = Some O ->
  count_char "$" (template s) = O ->
  fragment_ok shape vs {| sql := template s; binds := bs |}.
Proof.
  intros Hs Hb Hq Hp Hd. split; [by exists s|]. split_and!; try done.
  simpl. by rewrite Hq, (Forall2_length _ _ _ Hb).
Qed.

Lemma compile_cmp_ok field op v f :
  compile_cmp rfc3339 ymd field op v = Ok f -> fragment_ok (erase (ACmp field op v)) [v] f.
Proof.
  unfold compile_cmp. simpl erase. destruct (resolve field) as [col|e]; simpl; [|done].
  assert (Hleaf : forall b, binds_value rfc3339 ymd v b ->
    count_char "?" (cmp_template col op) = 1%nat -> depth_after 0 (cmp_template col op) = Some O ->
    count_char "$" (cmp_template col op) = O ->
    fragment_ok (Some (SCmp col op)) [v] {| sql := cmp_template col op; binds := [b] |}).
  { intros b Hb. apply (fragment_leaf _ (SCmp col op) [v]); [done|by repeat constructor]. }
  destruct col; simpl;
    [| |unfold compile_repo_name|
     |unfold compile_jobs_subquery|unfold compile_jobs_subquery| |];
    destruct op; simpl; try done; intros H; inv_ok;
    apply Hleaf; try reflexivity;
    first [by eapply bind_string_ok|by eapply bind_number_ok|by eapply bind_ok|by right].
Qed.

Lemma compile_range_ok field lo hi f :
  compile_range rfc3339 ymd field lo hi = Ok f -> fragment_ok (erase (AInRange field lo hi)) [lo; hi] f.
Proof.
  unfold compile_range. simpl erase. destruct (resolve field) as [col|e]; simpl; [|done].
  assert (Hleaf : forall b1 b2, binds_value rfc3339 ymd lo b1 -> binds_value rfc3339 ymd hi b2 ->
    fragment_ok (Some (SRange col)) [lo; hi] {| sql := range_template col; binds := [b1; b2] |}).
  { intros b1 b2 H1 H2. apply (fragment_leaf _ (SRange col) [lo; hi]);
      [done|by repeat constructor|by destruct col..]. }
  destruct col; simpl; intros H; inv_ok; apply Hleaf;
    first [by eapply bind_number_ok|by eapply bind_ok|by left].
Qed.

Lemma depth_balanced d a s : balanced s -> depth_after d (s +:+ a) = depth_after d a.
Proof. intros H. by rewrite depth_after_app, (balanced_at d s H). Qed.

Lemma depth_open d s : depth_after d ("(" +:+ s) = depth_after (S d) s.
Proof. done. Qed.

Lemma depth_close d s : depth_after (S d) (")" +:+ s) = depth_after d s.
Proof. done. Qed.

(** Two fragments in parentheses around a connective. *)
Lemma join_ok (word : string) (con : Shape -> Shape -> Shape) vl vr sl sr fl fr f :
  (forall a b, template (con a b) = "(" +:+ template a +:+ ")" +:+ word +:+ "(" +:+ template b +:+ ")")%string ->
  count_char "?" word = O -> count_char "$" word = O -> balanced word ->
  fragment_ok sl vl fl -> fragment_ok sr vr fr ->
  sql f = ("(" +:+ sql fl +:+ ")" +:+ word +:+ "(" +:+ sql fr +:+ ")")%string -> binds f = binds fl ++ binds fr ->
  fragment_ok (a ← sl; b ← sr; Some (con a b)) (vl ++ vr) f.
Proof.
  intros Hcon Hq Hd Hp ((a & -> & El) & Bl & Ql & Pl & Dl) ((b & -> & Er) & Br & Qr & Pr & Dr) Hs Hb.
  unfold fragment_ok. rewrite Hs, Hb. split; [|split_and!].
  - eexists. split; [reflexivity|]. by rewrite Hcon, El, Er.
  - by apply Forall2_app.
  - rewrite length_app, !count_char_app, Hq, Ql, Qr. simpl. lia.
  - unfold balanced. by rewrite depth_open, depth_balanced, depth_close, depth_balanced, depth_open, depth_balanced.
  - rewrite !count_char_app, Hd, Dl, Dr. done.
Qed.

Lemma compile_ok ast f : compile rfc3339 ymd ast = Ok f -> fragment_ok (erase ast) (ast_values ast) f.
Proof.
  revert f. induction ast as [l IHl r IHr|l IHl r IHr|e IHe|field op v|field lo hi]; intros f; simpl.
  - intros H. inv_ok. by eapply (join_ok " AND "%string SAnd); [| | | |apply IHl|apply IHr| |].
  - intros H. inv_ok. by eapply (join_ok " OR "%string SOr); [| | | |apply IHl|apply IHr| |].
  - intros H. inv_ok. destruct (IHe x ltac:(done)) as ((s & -> & E) & B & Q & P & D). split; [|split_and!]; simpl.
    + eexists. split; [reflexivity|]. simpl. by rewrite E.
    + done.
    + rewrite !count_char_app, Q. simpl. lia.
    + unfold balanced. change ("NOT (" +:+ sql x +:+ ")")%string with ("NOT " +:+ "(" +:+ sql x +:+ ")")%string.
      rewrite (depth_balanced _ _ "NOT ") by done. by rewrite depth_open, depth_balanced.
    + rewrite !count_char_app, D. done.
  - apply compile_cmp_ok.
  - apply compile_range_ok.
Qed.
End CompileFacts.

(** C7. No user string reaches the SQL text. Whatever the dates parse to, if a
    tree compiles then its SQL is the template of its shape, which knows only
    connectives, columns and operators: trees that differ in their values alone
    compile to the same text. The text has one [?] per bind and no [$], and its
    parentheses balance; the values flow to the binds, each from the value at its
    own place, left to right. *)
Theorem compile_injection_safe (rfc3339 ymd : string -> option timestamp) (ast : Ast) (f : SqlFragment) :
  compile rfc3339 ymd ast = Ok f ->
  (exists s, erase ast = Some s /\ sql f = template s) /\
  Forall2 (binds_value rfc3339 ymd) (ast_values ast) (binds f) /\
  count_char "?" (sql f) = length (binds f) /\
  balanced (sql f) /\ count_char "$" (sql f) = O.
Proof. apply compile_ok. Qed.

Lemma compile_injection_safe_witness :
  exists f, compile (fun _ => None) (fun _ => Some 0) sample_ast = Ok f /\ balanced (sql f) /\
    count_char "?" (sql f) = 5%nat.
Proof.
  eexists. assert (E : compile (fun _ => None) (fun _ => Some 0) sample_ast = Ok _) by (vm_compute; reflexivity).
  split; [exact E|]. destruct (compile_injection_safe _ _ _ _ E) as (_ & _ & Hq & Hb & _). split; [exact Hb|].
  rewrite Hq. reflexivity.
Defined.

(** ** Placeholder numbering *)

(** [weave idx [p0; ...; pn]] is [p0 $idx p1 $(idx+1) ... pn]. *)
Fixpoint weave (idx : nat) (pieces : list string) : string :=
  match pieces with
  | [] => EmptyString
  | [p] => p
  | p :: ps => (p +:+ "$" +:+ pretty idx +:+ weave (S idx) ps)%string
  end.

Fixpoint question_joined (pieces : list string) : string :=
  match pieces with
  | [] => EmptyString
  | [p] => p
  | p :: ps => (p +:+ "?" +:+ question_joined ps)%string
  end.

Lemma to_pg_loop_weave s idx :
  exists pieces, length pieces = S (count_char "?" s) /\
    Forall (fun p => count_char "?" p = O) pieces /\ s = question_joined pieces /\
    to_pg_loop s idx = (weave idx pieces, (idx + count_char "?" s)%nat).
Proof.
  revert idx. induction s as [|c s IH]; intros idx.
  { exists [EmptyString]. simpl. rewrite Nat.add_0_r. by repeat constructor. }
  simpl. case_bool_decide as Hc.
  - subst c. destruct (IH (S idx)) as ([|p ps] & Hl & Hf & Hs & ->); [done|].
    exists (EmptyString :: p :: ps). split_and!; [simpl in *; lia|by constructor| |].
    + rewrite Hs at 1. done.
    + f_equal. lia.
  - destruct (IH idx) as ([|p ps] & Hl & Hf & Hs & ->); [done|].
    exists (String c p :: ps). apply Forall_cons in Hf as [Hp Hf]. split_and!.
    + done.
    + constructor; [simpl; by rewrite bool_decide_eq_false_2|done].
    + rewrite Hs at 1. by destruct ps.
    + by destruct ps.
Qed.

(** Renumbering to Postgres form: the SQL splits at its placeholders into
    one more piece than there are binds; [to_pg] joins the same pieces with
    [$start], [$(start+1)], ... in order and returns the next free index, so the
    i-th bind is parameter [start + i]. *)
Theorem to_pg_numbers_binds (rfc3339 ymd : string -> option timestamp) (ast : Ast) (f : SqlFragment) (start : nat) :
  compile rfc3339 ymd ast = Ok f ->
  exists pieces, length pieces = S (length (binds f)) /\
    Forall (fun p => count_char "?" p = O /\ count_char "$" p = O) pieces /\
    sql f = question_joined pieces /\
    to_pg f start = (weave start pieces, (start + length (binds f))%nat).
Proof.
  intros Hc. destruct (compile_ok _ _ _ _ Hc) as (_ & _ & Hq & _ & Hd).
  destruct (to_pg_loop_weave (sql f) start) as (ps & Hl & Hf & Hs & Ht). rewrite Hq in Hl, Ht.
  exists ps. split_and!; [done| |done|done]. rewrite Hs in Hd. clear - Hf Hd.
  induction ps as [|p ps IH]; [constructor|]. apply Forall_cons in Hf as [Hp Hf].
  assert (Hs : count_char "$" p = O /\ count_char "$" (question_joined ps) = O).
  { destruct ps; [done|]. simpl in Hd. rewrite !count_char_app in Hd. simpl in *. lia. }
  destruct Hs. constructor; auto.
Qed.

Lemma to_pg_numbers_binds_witness :
  exists f pieces, compile (fun _ => None) (fun _ => Some 0) sample_ast = Ok f /\
    to_pg f 3 = (weave 3 pieces, 8%nat).
Proof.
  eexists. assert (E : compile (fun _ => None) (fun _ => Some 0) sample_ast = Ok _) by (vm_compute; reflexivity).
  destruct (to_pg_numbers_binds _ _ _ _ 3 E) as (ps & _ & _ & _ & Hpg). exists ps. split; [exact E|]. exact Hpg.
Defined.

Example to_pg_example :
  to_pg {| sql := "(state = ?) AND (exit_code BETWEEN ? AND ?)"; binds := [] |} 9 =
    ("(state = $9) AND (exit_code BETWEEN $10 AND $11)", 12%nat).
Proof. vm_compute. reflexivity. Qed.

(** ** From text to SQL *)

Lemma resolve_valid f : f ∈ VALID_FIELDS -> exists c, resolve f = Ok c.
Proof.
  unfold VALID_FIELDS, resolve. intros Hf. repeat case_bool_decide; eauto. exfalso. set_solver.
Qed.

Definition not_unknown (e : CompileError) : Prop := forall name, e <> UnknownField name.

Lemma number_err v e : value_to_bind_number v = Err e -> not_unknown e.
Proof.
  unfold value_to_bind_number. destruct v as [s| |s]; [|done|intros [= <-] ?; done].
  destruct (F64.parse s); intros [= <-] ?. done.
Qed.

Lemma bind_err rfc3339 ymd col v e : value_to_bind rfc3339 ymd col v = Err e -> not_unknown e.
Proof.
  unfold value_to_bind, parse_date_bind. intros H.
  destruct col; try done; try (by eapply number_err); destruct v as [s|n|s];
    try (destruct (rfc3339 s); [done|]; destruct (ymd s); [done|]);
    injection H as <-; intros ?; done.
Qed.

Ltac inv_err :=
  repeat match goal with
  | H : rbind _ _ = Err _ |- _ => apply rbind_Err_inv in H as [H|(? & ? & H)]
  | H : Ok _ = Err _ |- _ => discriminate H
  | H : value_to_bind_string _ = Err _ |- _ => discriminate H
  | H : (let '(_, _) := ?x in Ok _) = Err _ |- _ => destruct x; discriminate H
  end.

Lemma compile_not_unknown rfc3339 ymd ast e :
  ast_ok ast -> compile rfc3339 ymd ast = Err e -> not_unknown e.
Proof.
  revert e. induction ast as [l IHl r IHr|l IHl r IHr|x IHx|f op v|f lo hi]; intros e; simpl.
  1, 2: intros [Hl Hr] H; inv_err; auto.
  - intros Hx H. inv_err; auto.
  - intros [Hf _] H. destruct (resolve_valid f Hf) as [c Hc]. unfold compile_cmp in H. rewrite Hc in H.
    destruct c; simpl in H;
      [| |unfold compile_repo_name in H| |unfold compile_jobs_subquery in H|unfold compile_jobs_subquery in H| |];
      destruct op; simpl in H; inv_err; try (by eapply bind_err); try (by eapply number_err);
      injection H as <-; intros ?; done.
  - intros (Hf & _ & _) H. destruct (resolve_valid f Hf) as [c Hc]. unfold compile_range in H. rewrite Hc in H.
    destruct c; simpl in H; inv_err; first [by eapply number_err|by eapply bind_err].
Qed.

(** A query accepted by the parser never meets an unknown field in the
    compiler: compilation fails at most on an operator that the column does not
    support or on a value that is no date or number. *)
Theorem parsed_fields_resolve (rfc3339 ymd : string -> option timestamp) (input : string) (ast : Ast)
    (e : CompileError) (name : string) :
  parse input = Ok (Some ast) -> compile rfc3339 ymd ast = Err e -> e <> UnknownField name.
Proof.
  intros Hp Hc. pose proof (parse_well_typed input) as Hok. rewrite Hp in Hok.
  by eapply compile_not_unknown.
Qed.

(** One token read by the lexer. *)
Lemma lex_loop_token fuel pos s n prio callback t :
  longest_match s = Some (n, prio, Emit callback) -> callback (str_take n s) = Some t ->
  lex_loop (S fuel) pos s =
    match lex_loop fuel (pos + n) (str_drop n s) with
    | Some (Ok ts) => Some (Ok ((t, {| r_start := pos; r_end := pos + n |}) :: ts))
    | other => other
    end.
Proof.
  intros Hm Ht. destruct s as [|c s]; [apply longest_match_bounds in Hm; simpl in Hm; lia|].
  cbn [lex_loop]. by rewrite Hm, Ht.
Qed.

Lemma longest_match_field f rest :
  f ∈ VALID_FIELDS ->
  longest_match (f +:+ ":" +:+ rest) = Some (String.length f, 2%nat, Emit (fun sl => Some (TIdent sl))).
Proof.
  unfold VALID_FIELDS. intros Hf.
  repeat (apply elem_of_cons in Hf as [->|Hf]; [reflexivity|]). by apply elem_of_nil in Hf.
Qed.

Lemma longest_match_colon rest :
  longest_match (":" +:+ rest) = Some (1%nat, 2%nat, Emit (fun _ => Some TColon)).
Proof. reflexivity. Qed.

(** A field and its colon, in front of any text. *)
Lemma lex_loop_field fuel f rest :
  f ∈ VALID_FIELDS ->
  lex_loop (S (S fuel)) 0 (f +:+ ":" +:+ rest) =
    match lex_loop fuel (String.length f + 1) rest with
    | Some (Ok ts) =>
        Some (Ok ((TIdent f, {| r_start := 0; r_end := String.length f |}) ::
                  (TColon, {| r_start := String.length f; r_end := String.length f + 1 |}) :: ts))
    | other => other
    end.
Proof.
  intros Hf. rewrite (lex_loop_token _ _ _ _ _ _ (TIdent f) (longest_match_field f rest Hf)).
  2: by rewrite str_take_app.
  rewrite str_drop_app, (lex_loop_token _ _ _ _ _ _ TColon (longest_match_colon rest)) by done.
  change (str_drop 1 (":" +:+ rest)) with rest. by destruct (lex_loop fuel _ rest) as [[ts|e]|].
Qed.

Lemma not_only_whitespace n c s :
  (32 < N_of_ascii c < 128)%N -> only_whitespace (S n) (String c s) = false.
Proof.
  intros Hc. cbn [only_whitespace]. replace (white_len (String c s)) with O; [done|].
  unfold white_len. set (k := N_of_ascii c) in *.
  destruct (N.leb_spec 9 k), (N.leb_spec k 13), (N.eqb_spec k 32); try lia; simpl;
    (destruct s as [|d s]; [done|]); destruct (N.eqb_spec k 194); try lia; simpl;
    (destruct s as [|e s]; [done|]);
    destruct (N.eqb_spec k 225), (N.eqb_spec k 226), (N.eqb_spec k 227); try lia; done.
Qed.

Lemma field_first_char f : f ∈ VALID_FIELDS -> exists c f', f = String c f' /\ (32 < N_of_ascii c < 128)%N.
Proof.
  unfold VALID_FIELDS. intros Hf.
  repeat (apply elem_of_cons in Hf as [->|Hf]; [eexists _, _; split; [reflexivity|done]|]).
  by apply elem_of_nil in Hf.
Qed.

(** Any string can be asked for literally: the query [field:"..."] parses to a
    comparison with exactly that string. *)
Lemma parse_quoted_term f v :
  f ∈ VALID_FIELDS ->
  parse (f +:+ ":" +:+ quoted v) =
    Ok (Some (ACmp f (if contains_star v then Wildcard else Eq)
                (if is_date_field f && negb (contains_star v) then VDate v else VStr v))).
Proof.
  intros Hf. unfold parse.
  assert (Hw : only_whitespace (String.length (f +:+ ":" +:+ quoted v)) (f +:+ ":" +:+ quoted v) = false).
  { destruct (field_first_char f Hf) as (c & f' & -> & Hc). rewrite str_cons_app. cbn [String.length].
    by apply not_only_whitespace. }
  rewrite Hw. unfold tokenize. rewrite !str_length_app, length_quoted.
  replace (S (String.length f + (String.length ":" + S (S (String.length (escape v))))))
    with (S (S (S (S (String.length f + String.length (escape v)))))) by (simpl; lia).
  rewrite lex_loop_field by done. rewrite <- (str_app_nil_r (quoted v)) at 1.
  rewrite lex_loop_quoted. cbn [lex_loop rbind].
  rewrite (parse_or_unparse (ACmp f (if contains_star v then Wildcard else Eq)
    (if is_date_field f && negb (contains_star v) then VDate v else VStr v))); [done| |].
  - cbn [ast_ok]. split; [done|]. destruct (contains_star v) eqn:E; rewrite ?andb_false_r, ?andb_true_r; simpl; [done|].
    by destruct (is_date_field f) eqn:E2.
  - unfold unparse; cbn [fmap list_fmap fst unparse_at]. do 2 f_equal.
    destruct (contains_star v) eqn:E; rewrite ?andb_false_r, ?andb_true_r; simpl; [done|].
    destruct (is_date_field f) eqn:E2; simpl; by rewrite ?E2.
Qed.

(** Literal search, from query text to bound parameter: for every string
    [v] (with quotes, backslashes, SQL syntax, anything but a [*]) the query
    [branch:"v"] compiles to [branch = ?] with the single bind [v] itself. *)
Theorem quoted_query_binds_verbatim (rfc3339 ymd : string -> option timestamp) (v : string) :
  contains_star v = false ->
  exists ast, parse ("branch:" +:+ quoted v) = Ok (Some ast) /\
    compile rfc3339 ymd ast = Ok {| sql := "branch = ?"; binds := [BStr v] |}.
Proof.
  intros Hs. assert (Hf : "branch" ∈ VALID_FIELDS) by (unfold VALID_FIELDS; set_solver).
  pose proof (parse_quoted_term "branch" v Hf) as Hp. rewrite Hs in Hp. simpl in Hp.
  eexists. split; [exact Hp|]. reflexivity.
Qed.

Lemma quoted_query_binds_verbatim_witness :
  exists ast, parse ("branch:" +:+ quoted "x' OR 1=1 --") = Ok (Some ast) /\
    compile (fun _ => None) (fun _ => None) ast =
      Ok {| sql := "branch = ?"; binds := [BStr "x' OR 1=1 --"] |}.
Proof. apply (quoted_query_binds_verbatim (fun _ => None) (fun _ => None)). vm_compute. reflexivity. Defined.

(** A range on [stage] is compiled as a range on [exit_code], and a range
    on [repo] compares the repository's id, not its name, with the bounds. *)
Theorem range_column_confusion (rfc3339 ymd : string -> option timestamp) (lo hi : Value) :
  compile rfc3339 ymd (AInRange "stage" lo hi) = compile rfc3339 ymd (AInRange "exit_code" lo hi) /\
  compile rfc3339 ymd (AInRange "repo" lo hi) = compile rfc3339 ymd (AInRange "repo_id" lo hi).
Proof. done. Qed.

Lemma parsed_fields_resolve_witness :
  OperatorNotSupported "exit_code" Wildcard <> UnknownField "exit_code".
Proof.
  apply (parsed_fields_resolve (fun _ => None) (fun _ => None) "exit_code:1*"
           (ACmp "exit_code" Wildcard (VStr "1*"))); vm_compute; reflexivity.
Defined.
