(* ===== verification/Sql.v ===== *)
(** * Queries with numbered parameters
    (the query builders of crates/ci-controller/src/storage.rs)

    A query is a text in which [$1], [$2], ... stand for the values that are bound
    to it. The builders of storage.rs push one clause after the other and count
    the parameters they use, then bind the values in a second pass; what a text
    says with its values in place is [inline]. *)

From Stdlib Require Import ZArith Lia Ascii.
From stdpp Require Import strings list pretty.
From S2P Require Import Prelude Text F64 QueryLexer QueryParser QueryCompile.

(** What is bound to a query. *)
Inductive SqlValue :=
| PText (s : string)
| PUuid (u : Uuid)
| PTime (t : timestamp)
| PInt (z : Z)
| PFloat (x : f64)
| PBool (b : bool).

Definition chql_value (b : SqlBind) : SqlValue :=
  match b with BStr s => PText s | BNum n => PFloat n | BDate t => PTime t end.

(** A clause, as a function of its parameter's name. *)
Record Clause := {
  text : string -> string;
  bound : option SqlValue
}.

Definition clause (pre : string) (v : SqlValue) (post : string) : Clause :=
  {| text := fun p => (pre +:+ p +:+ post)%string; bound := Some v |}.

Definition plain (s : string) : Clause := {| text := fun _ => s; bound := None |}.

Definition param (n : nat) : string := ("$" +:+ pretty n)%string.

(** The texts that are pushed, with the count of parameters after them. *)
Fixpoint numbered (idx : nat) (cs : list Clause) : list string * nat :=
  match cs with
  | [] => ([], idx)
  | c :: cs' =>
      let idx' := match bound c with Some _ => S idx | None => idx end in
      let '(ts, n) := numbered idx' cs' in (text c (param idx') :: ts, n)
  end.

Definition clause_binds (cs : list Clause) : list SqlValue := omap bound cs.

Definition joined (ts : list string) : string := String.concat " AND " ts.

Definition where_clause (ts : list string) : string :=
  match ts with [] => EmptyString | _ => ("WHERE " +:+ joined ts)%string end.

(** A condition that is added to a WHERE clause, which may be empty. *)
Definition attach (where_ chunk : string) : string :=
  if bool_decide (where_ = EmptyString) then ("WHERE " +:+ chunk)%string else (where_ +:+ " AND (" +:+ chunk +:+ ")")%string.

(** A ChQL fragment, spliced in after the clauses: the new text, and the count. *)
Definition splice (where_ : string) (idx : nat) (chql : option SqlFragment) : string * nat :=
  match chql with
  | None => (where_, idx)
  | Some frag => let '(renumbered, next_after) := to_pg frag (S idx) in (attach where_ renumbered, (next_after - 1)%nat)
  end.

(** The plans of the analytics queries count the next parameter instead. Where the
    query does not start from [job_groups], the fragment is put in a subquery. *)
Record AnalyticsPlan := {
  ap_where : string;
  next_idx : nat
}.

Definition wrapped (wrap_subquery : option string) (chunk : string) : string :=
  match wrap_subquery with
  | None => chunk
  | Some alias => (alias +:+ ".id IN (SELECT id FROM job_groups WHERE " +:+ chunk +:+ ")")%string
  end.

Definition merge_chql (plan : AnalyticsPlan) (chql : option SqlFragment) (wrap_subquery : option string) : AnalyticsPlan :=
  match chql with
  | None => plan
  | Some frag =>
      let '(renumbered, next) := to_pg frag (next_idx plan) in
      {| ap_where := attach (ap_where plan) (wrapped wrap_subquery renumbered); next_idx := next |}
  end.

Definition chql_binds (chql : option SqlFragment) : list SqlValue :=
  match chql with Some frag => chql_value <$> binds frag | None => [] end.

Definition when {A : Type} (o : option A) (f : A -> Clause) : list Clause := match o with Some a => [f a] | None => [] end.

(** A text with its values. *)
Record BoundQuery := {
  q_text : string;
  q_binds : list SqlValue
}.

(** ** What a text says *)

Section Inline.
Context (show : SqlValue -> string).

Definition shown (bs : list SqlValue) (n : Z) : string :=
  match bs !! (Z.to_nat n - 1)%nat with Some v => show v | None => EmptyString end.

(** Each [$n] replaced by what is bound to it; [num] is the number being read. *)
Fixpoint inline_from (bs : list SqlValue) (num : option Z) (s : string) : string :=
  match s, num with
  | EmptyString, None => EmptyString
  | EmptyString, Some n => shown bs n
  | String c s', None =>
      if bool_decide (c = "$"%char) then inline_from bs (Some 0) s' else String c (inline_from bs None s')
  | String c s', Some n =>
      match digit_val c with
      | Some d => inline_from bs (Some (10 * n + d)) s'
      | None =>
          (shown bs n +:+
           (if bool_decide (c = "$"%char) then inline_from bs (Some 0) s' else String c (inline_from bs None s')))%string
      end
  end.

Definition inline (bs : list SqlValue) (s : string) : string := inline_from bs None s.

(** A clause with its value in place, and a fragment with its values. *)
Definition said (c : Clause) : string := text c (match bound c with Some v => show v | None => EmptyString end).

Fixpoint filled (vs : list SqlValue) (s : string) : string :=
  match s with
  | EmptyString => EmptyString
  | String c s' =>
      if bool_decide (c = "?"%char) then
        match vs with v :: vs' => (show v +:+ filled vs' s')%string | [] => filled [] s' end
      else String c (filled vs s')
  end.

Definition spliced (where_ : string) (chql : option SqlFragment) (wrap : option string) : string :=
  match chql with
  | None => where_
  | Some frag => attach where_ (wrapped wrap (filled (chql_value <$> binds frag) (sql frag)))
  end.
End Inline.

(** ** Reading the parameters back *)

Definition starts_digit (s : string) : bool :=
  match s with String c _ => match digit_val c with Some _ => true | None => false end | EmptyString => false end.

Definition no_params (s : string) : Prop := count_char "$" s = O.

(** A clause has no parameter but its own, which ends before its text goes on. *)
Definition clause_ok (c : Clause) : Prop :=
  match bound c with
  | Some _ => exists pre post, (forall p, text c p = pre +:+ p +:+ post)%string /\ no_params pre /\ no_params post /\ starts_digit post = false
  | None => no_params (text c EmptyString) /\ forall p, text c p = text c EmptyString
  end.

Lemma clause_is_ok pre v post : no_params pre -> no_params post -> starts_digit post = false -> clause_ok (clause pre v post).
Proof. intros. exists pre, post. by split_and!. Qed.

Lemma plain_is_ok s : no_params s -> clause_ok (plain s).
Proof. by split. Qed.

Lemma Forall_when {A : Type} (P : Clause -> Prop) (o : option A) f : (forall a, P (f a)) -> Forall P (when o f).
Proof. intros H. destruct o; repeat constructor; auto. Qed.

(** No question mark of a fragment runs into a digit. *)
Fixpoint separated (s : string) : bool :=
  match s with
  | EmptyString => true
  | String c s' => (if bool_decide (c = "?"%char) then negb (starts_digit s') else true) && separated s'
  end.

Definition fragment_fits (f : SqlFragment) : Prop :=
  count_char "?" (sql f) = length (binds f) /\ no_params (sql f) /\ separated (sql f) = true.

Section Reading.
Context (show : SqlValue -> string).

Lemma inline_plain bs a s : no_params a -> inline show bs (a +:+ s) = (a +:+ inline show bs s)%string.
Proof.
  unfold inline, no_params. induction a as [|c a IH]; [done|]. rewrite !str_cons_app. simpl. case_bool_decide; [done|].
  intros Ha. f_equal. by apply IH.
Qed.

Lemma inline_digits bs n s : inline_from show bs (Some 0) (pretty_N_go n s) = inline_from show bs (Some (Z.of_N n)) s.
Proof.
  revert s. induction n as [n IH] using (well_founded_ind N.lt_wf_0). intros s.
  destruct (decide (n = 0)%N) as [->|Hn]; [by rewrite pretty_N_go_0|].
  rewrite pretty_N_go_step by lia. rewrite IH by (apply N.div_lt; lia). cbn [inline_from].
  rewrite digit_val_char by (by apply N.mod_lt). do 2 f_equal. rewrite (N.Div0.div_mod n 10) at 3. lia.
Qed.

Lemma pretty_go_app n s : pretty_N_go n s = (pretty_N_go n EmptyString +:+ s)%string.
Proof.
  revert s. induction n as [n IH] using (well_founded_ind N.lt_wf_0). intros s.
  destruct (decide (n = 0)%N) as [->|Hn]; [by rewrite !pretty_N_go_0|].
  rewrite !(pretty_N_go_step n) by lia. rewrite IH by (apply N.div_lt; lia).
  rewrite (IH (n / 10)%N ltac:(apply N.div_lt; lia) (String _ EmptyString)). by rewrite str_app_assoc.
Qed.

Lemma inline_param bs n v rest : bs !! n = Some v -> starts_digit rest = false ->
  inline show bs (param (S n) +:+ rest) = (show v +:+ inline show bs rest)%string.
Proof.
  intros Hv Hrest. unfold param. rewrite str_app_assoc. change ("$" +:+ ?x)%string with (String "$" x). unfold inline. cbn [inline_from].
  rewrite bool_decide_true by done. unfold pretty, pretty_nat, pretty, pretty_N. rewrite decide_False by lia.
  rewrite <- pretty_go_app, inline_digits. replace (Z.of_N (N.of_nat (S n))) with (Z.of_nat (S n)) by lia.
  assert (Hs : shown show bs (Z.of_nat (S n)) = show v).
  { unfold shown. replace (Z.to_nat (Z.of_nat (S n)) - 1)%nat with n by lia. by rewrite Hv. }
  destruct rest as [|c rest]; cbn [inline_from]; [by rewrite Hs, str_app_nil_r|].
  simpl in Hrest. destruct (digit_val c); [done|]. by rewrite Hs.
Qed.

Lemma inline_clause bs c n v rest : clause_ok c -> bound c = Some v -> bs !! n = Some v -> starts_digit rest = false ->
  inline show bs (text c (param (S n)) +:+ rest) = (said show c +:+ inline show bs rest)%string.
Proof.
  unfold clause_ok, said. intros Hc Hb Hv Hr. rewrite Hb in Hc |- *. destruct Hc as (pre & post & Ht & H1 & H2 & H3). rewrite !Ht.
  rewrite !str_app_assoc, (inline_plain bs pre) by done. rewrite (inline_param bs n v); [by rewrite (inline_plain bs post)|done|].
  by destruct post.
Qed.

Lemma inline_unbound bs c p rest : clause_ok c -> bound c = None ->
  inline show bs (text c p +:+ rest) = (said show c +:+ inline show bs rest)%string.
Proof. unfold clause_ok, said. intros Hc Hb. rewrite Hb in Hc |- *. destruct Hc as [Hn ->]. by apply inline_plain. Qed.

(** The clauses that are joined say what they are meant to, when their values are
    bound in order, from the place where the count stands. *)
Lemma inline_numbered bs cs idx more rest :
  Forall clause_ok cs -> drop idx bs = clause_binds cs ++ more -> starts_digit rest = false ->
  let '(ts, n) := numbered idx cs in
  inline show bs (joined ts +:+ rest) = (joined (said show <$> cs) +:+ inline show bs rest)%string /\
  n = (idx + length (clause_binds cs))%nat /\ length ts = length cs.
Proof.
  revert idx. induction cs as [|c cs IH]; intros idx Hok Hd Hr; cbn [numbered]; [split_and!; [done|simpl; lia|done]|].
  inversion Hok as [|? ? Hc Hcs]; subst.
  set (idx' := match bound c with Some _ => S idx | None => idx end).
  assert (Hd' : drop idx' bs = clause_binds cs ++ more).
  { unfold idx'. unfold clause_binds in Hd. cbn [omap list_omap] in Hd. destruct (bound c) as [v|]; [|done].
    rewrite <- Nat.add_1_r, <- drop_drop, Hd. done. }
  specialize (IH idx' Hcs Hd' Hr). destruct (numbered idx' cs) as [ts n] eqn:En. destruct IH as (IH & -> & Hlen).
  assert (Hhead : forall r, starts_digit r = false ->
    inline show bs (text c (param idx') +:+ r) = (said show c +:+ inline show bs r)%string).
  { intros r Hr'. unfold idx'. destruct (bound c) as [v|] eqn:Eb; [|by apply inline_unbound].
    apply (inline_clause bs c idx v); [done..| |done]. unfold clause_binds in Hd. cbn [omap list_omap] in Hd. rewrite Eb in Hd.
    rewrite <- (Nat.add_0_r idx), <- lookup_drop, Hd. done. }
  split_and!; [|unfold idx', clause_binds; cbn [omap list_omap]; destruct (bound c); simpl; lia|simpl; lia].
  unfold joined in IH |- *. destruct cs as [|c2 cs'].
  - simpl in Hlen. apply length_zero_iff_nil in Hlen as ->. cbn [String.concat fmap list_fmap]. by apply Hhead.
  - destruct ts as [|t2 ts']; [done|]. cbn [fmap list_fmap]. cbn [String.concat]. rewrite !str_app_assoc.
    rewrite Hhead by done. rewrite (inline_plain bs " AND ") by done. do 2 f_equal. exact IH.
Qed.

Lemma starts_digit_filled_head s idx : separated s = true -> starts_digit s = false -> starts_digit (to_pg_loop s idx).1 = false.
Proof.
  destruct s as [|c s]; [done|]. cbn [to_pg_loop]. case_bool_decide; [by destruct (to_pg_loop s (S idx))|].
  by destruct (to_pg_loop s idx).
Qed.

Lemma starts_digit_app a b : starts_digit a = false -> starts_digit b = false -> starts_digit (a +:+ b) = false.
Proof. by destruct a. Qed.

Lemma inline_fragment bs s idx vs more rest :
  no_params s -> separated s = true -> count_char "?" s = length vs -> drop idx bs = vs ++ more -> starts_digit rest = false ->
  let '(out, next) := to_pg_loop s (S idx) in
  inline show bs (out +:+ rest) = (filled show vs s +:+ inline show bs rest)%string /\ next = S (idx + length vs).
Proof.
  unfold no_params. revert idx vs. induction s as [|c s IH]; intros idx vs Hn Hs Hc Hd Hr; cbn [to_pg_loop].
  - simpl in Hc. destruct vs; [|done]. simpl. split; [done|lia].
  - cbn [count_char separated] in *. case_bool_decide as Eq.
    + subst c. rewrite bool_decide_false in Hn by done. rewrite andb_true_iff, negb_true_iff in Hs. destruct Hs as [Hs1 Hs2].
      destruct vs as [|v vs]; [simpl in Hc; lia|].
      specialize (IH (S idx) vs Hn Hs2 ltac:(simpl in Hc; lia)). destruct (to_pg_loop s (S (S idx))) as [out next] eqn:E.
      destruct IH as [IH ->]; [by rewrite <- Nat.add_1_r, <- drop_drop, Hd|done|]. split; [|simpl; lia].
      change (String "$" (pretty (S idx) +:+ out) +:+ rest)%string with ((("$" +:+ pretty (S idx)) +:+ out) +:+ rest)%string.
      rewrite str_app_assoc. rewrite (inline_param bs idx v).
      * cbn [filled]. rewrite bool_decide_true by done. by rewrite IH, str_app_assoc.
      * by rewrite <- (Nat.add_0_r idx), <- lookup_drop, Hd.
      * apply starts_digit_app; [|done]. replace out with (to_pg_loop s (S (S idx))).1 by (by rewrite E). apply starts_digit_filled_head; [done|by destruct (starts_digit s)].
    + simpl in Hs. specialize (IH idx vs). destruct (to_pg_loop s (S idx)) as [out next].
      destruct (bool_decide (c = "$"%char)) eqn:Ed; [done|]. destruct IH as [IH ->]; [done..|]. split; [|done].
      rewrite !str_cons_app. cbn [filled]. rewrite (bool_decide_false _ Eq). rewrite str_cons_app.
      unfold inline in *. cbn [inline_from]. rewrite Ed. by rewrite IH.
Qed.

Definition chql_fits (chql : option SqlFragment) : Prop := match chql with Some frag => fragment_fits frag | None => True end.

Lemma no_params_app a b : no_params a -> no_params b -> no_params (a +:+ b).
Proof. unfold no_params. rewrite count_char_app. lia. Qed.

(** A WHERE clause that is built says its clauses and its fragment, with every
    value in its place; the count is the number of values. *)
Lemma inline_where bs cs chql wrap more rest :
  Forall clause_ok cs -> chql_fits chql -> no_params (default EmptyString wrap) ->
  bs = clause_binds cs ++ chql_binds chql ++ more -> starts_digit rest = false ->
  let '(ts, n) := numbered 0 cs in
  inline show bs (ap_where (merge_chql {| ap_where := where_clause ts; next_idx := S n |} chql wrap) +:+ rest) =
    (spliced show (where_clause (said show <$> cs)) chql wrap +:+ inline show bs rest)%string /\
  next_idx (merge_chql {| ap_where := where_clause ts; next_idx := S n |} chql wrap) = S (length (clause_binds cs ++ chql_binds chql)).
Proof.
  intros Hok Hf Hw -> Hr. set (bs := clause_binds cs ++ chql_binds chql ++ more).
  pose proof (fun r => inline_numbered bs cs 0 (chql_binds chql ++ more) r Hok eq_refl) as Hcs.
  destruct (numbered 0 cs) as [ts n]. destruct (Hcs rest Hr) as (_ & -> & Hlen). simpl in Hlen.
  assert (Hwhere : forall r, starts_digit r = false ->
    inline show bs (where_clause ts +:+ r) = (where_clause (said show <$> cs) +:+ inline show bs r)%string).
  { intros r Hr'. destruct (Hcs r Hr') as (H & _). destruct ts, cs; try done. unfold where_clause. cbn [fmap list_fmap] in *.
    rewrite !str_app_assoc, (inline_plain bs "WHERE ") by done. by rewrite H. }
  assert (Hempty : where_clause ts = EmptyString <-> where_clause (said show <$> cs) = EmptyString) by (by destruct ts, cs).
  unfold merge_chql, chql_binds in *. destruct chql as [frag|]; cbn [ap_where next_idx spliced]; [|rewrite app_nil_r; by auto].
  destruct Hf as (Hq & Hn & Hs). unfold to_pg.
  assert (Hd : drop (length (clause_binds cs)) bs = (chql_value <$> binds frag) ++ more) by (unfold bs; by rewrite drop_app_length).
  pose proof (fun r => inline_fragment bs (sql frag) (length (clause_binds cs)) (chql_value <$> binds frag) more r Hn Hs
    ltac:(by rewrite length_fmap) Hd) as Hfrag.
  change (0 + length (clause_binds cs))%nat with (length (clause_binds cs)).
  destruct (to_pg_loop (sql frag) (S (length (clause_binds cs)))) as [out next].
  destruct (Hfrag rest Hr) as [_ ->]. split; [|cbn [next_idx]; rewrite length_app, length_fmap; lia]. cbn [ap_where].
  assert (Hchunk : forall r, starts_digit r = false ->
    inline show bs (wrapped wrap out +:+ r) = (wrapped wrap (filled show (chql_value <$> binds frag) (sql frag)) +:+ inline show bs r)%string).
  { intros r Hr'. unfold wrapped. destruct wrap as [al|]; [|by apply Hfrag]. cbn [default from_option id] in Hw.
    rewrite !str_app_assoc, (inline_plain bs al), (inline_plain bs ".id IN (SELECT id FROM job_groups WHERE ") by done.
    rewrite (proj1 (Hfrag (")" +:+ r)%string eq_refl)), (inline_plain bs ")") by done. done. }
  unfold attach. destruct (decide (where_clause ts = EmptyString)) as [E|E].
  - rewrite (bool_decide_true _ E), (bool_decide_true _ (proj1 Hempty E)). rewrite !str_app_assoc, (inline_plain bs "WHERE ") by done.
    by rewrite Hchunk.
  - rewrite (bool_decide_false _ E), bool_decide_false by tauto. rewrite !str_app_assoc, Hwhere, (inline_plain bs " AND (") by done.
    rewrite Hchunk by done. by rewrite (inline_plain bs ")").
Qed.
End Reading.

Lemma splice_is_merge w n chql :
  splice w n chql = let p := merge_chql {| ap_where := w; next_idx := S n |} chql None in (ap_where p, (next_idx p - 1)%nat).
Proof. destruct chql as [f|]; simpl; [|by rewrite Nat.sub_0_r]. by destruct (to_pg f (S n)). Qed.

(** Reads a text up to its next parameter. *)
Ltac say := rewrite ?str_app_assoc; repeat (rewrite inline_plain by (exact eq_refl || assumption); f_equal).

(** ** Compiled fragments can be spliced in *)

Lemma separated_app a b : separated a = true -> separated b = true -> starts_digit b = false -> separated (a +:+ b) = true.
Proof.
  induction a as [|c a IH]; [done|]. rewrite str_cons_app. cbn [separated]. intros Ha Hb Hd. apply andb_true_iff in Ha as [H1 H2].
  rewrite IH by done. rewrite andb_true_r. case_bool_decide; [|done]. apply negb_true_iff in H1. apply negb_true_iff.
  destruct a as [|d a]; [done|exact H1].
Qed.

Lemma wrapped_separated pre a post : separated pre = true -> separated a = true -> separated post = true ->
  starts_digit a = false -> starts_digit post = false -> separated (pre +:+ a +:+ post) = true.
Proof. intros. apply separated_app; [done|by apply separated_app|by apply starts_digit_app]. Qed.

Lemma template_starts s : starts_digit (template s) = false.
Proof. by destruct s as [| | |c op|c]; [..|destruct c, op|destruct c]. Qed.

Lemma template_separated s : separated (template s) = true.
Proof.
  induction s as [l IHl r IHr|l IHl r IHr|e IHe|c op|c]; [| | |by destruct c, op|by destruct c]; cbn [template].
  - apply (wrapped_separated "("); [done..| |by apply template_starts|done]. apply (wrapped_separated ") AND ("); [done..|apply template_starts|done].
  - apply (wrapped_separated "("); [done..| |by apply template_starts|done]. apply (wrapped_separated ") OR ("); [done..|apply template_starts|done].
  - apply (wrapped_separated "NOT ("); [done..|apply template_starts|done].
Qed.

Lemma compiled_fits rfc3339 ymd ast f : compile rfc3339 ymd ast = Ok f -> fragment_fits f.
Proof.
  intros H. apply compile_ok in H as ((s & _ & E) & _ & Hq & _ & Hd). split; [done|]. split; [done|]. rewrite E. apply template_separated.
Qed.
