(* ===== verification/LogStreamer.v ===== *)
(** * The worker's log streamer
    (crates/ci-worker/src/log_streamer.rs, [mask_secret_values] of executor.rs)

    Log data is the [string] of its bytes. The batching loop of
    [LogStreamer::stream] selects between the executor's channel and a timer: an
    [event] is the branch that fired, with the outcome of the send it may do. *)

From Stdlib Require Import ZArith Lia Ascii.
From stdpp Require Import strings list.
From S2P Require Import Prelude Text.

(** ** Masking *)

Definition mask_secret_values (s : string) (secrets : list string) : string :=
  foldl (fun masked secret =>
    if negb (bool_decide (secret = EmptyString)) then replace secret "***" masked else masked) s secrets.

(** ** The batching loop *)

Record LogChunk := {
  lc_worker_id : string;
  lc_job_id : string;
  lc_offset : Z;
  lc_data : string;
  lc_timestamp_unix : Z
}.

Record LogStreamerConfig := {
  batch_size_limit : Z
}.

Definition LogStreamerConfig_default : LogStreamerConfig := {| batch_size_limit := 8192 |}.

(** A branch of the [select!] with the time it happens and whether a send
    finds the chunk channel open. *)
Inductive event :=
| Line (line : string) (now : Z) (open : bool)
| Closed (now : Z) (open : bool)
| Tick (now : Z) (open : bool).

Record stream_state := {
  batch_buffer : string;
  s_offset : Z;
  delivered : list LogChunk
}.

Definition stream_init : stream_state := {| batch_buffer := EmptyString; s_offset := 0; delivered := [] |}.

Section Stream.
Context (config : LogStreamerConfig) (worker_id job_id : string) (secret_values : list string).

(** Cut a chunk from the buffer, advance the offset, clear the buffer and
    send the chunk: the state, and whether the send succeeded. *)
Definition flush (now : Z) (open : bool) (s : stream_state) : stream_state * bool :=
  let chunk := {|
    lc_worker_id := worker_id;
    lc_job_id := job_id;
    lc_offset := s_offset s;
    lc_data := batch_buffer s;
    lc_timestamp_unix := now
  |} in
  ({| batch_buffer := EmptyString;
      s_offset := u64_add (s_offset s) (Z.of_nat (String.length (batch_buffer s)));
      delivered := if open then delivered s ++ [chunk] else delivered s |}, open).

Definition newline_byte : string := String "010" EmptyString.

(** One iteration: the state, and whether the loop goes on. *)
Definition stream_step (e : event) (s : stream_state) : stream_state * bool :=
  match e with
  | Line line now open =>
      let masked := mask_secret_values line secret_values in
      let s1 := {| s with batch_buffer := (batch_buffer s +:+ masked +:+ newline_byte)%string |} in
      if (batch_size_limit config <=? Z.of_nat (String.length (batch_buffer s1))) then flush now open s1 else (s1, true)
  | Closed now open =>
      if negb (bool_decide (batch_buffer s = EmptyString)) then ((flush now open s).1, false) else (s, false)
  | Tick now open =>
      if negb (bool_decide (batch_buffer s = EmptyString)) then flush now open s else (s, true)
  end.

(** The loop over the events as they happen. *)
Fixpoint stream_loop (events : list event) (s : stream_state) : stream_state :=
  match events with
  | [] => s
  | e :: es =>
      match stream_step e s with
      | (s', true) => stream_loop es s'
      | (s', false) => s'
      end
  end.

(** [stream] returns the local offset whatever the outcome of the call. *)
Definition stream (events : list event) : Z * list LogChunk :=
  let s := stream_loop events stream_init in (s_offset s, delivered s).
End Stream.

Example mask_example : mask_secret_values "token=abc;abcabc" ["abc"; ""] = "token=***;******".
Proof. reflexivity. Qed.

(** ** Masking removes the secrets *)

Definition star_free (s : string) : bool := str_forallb (fun c => negb (bool_decide (c = "*"%char))) s.

(** A star-free prefix of the masked text is a prefix of the text. *)
Lemma replace_prefix fuel pat s q b :
  star_free q = true -> replace_loop fuel pat "***" s = (q +:+ b)%string -> exists b', s = (q +:+ b')%string.
Proof.
  revert s q b. induction fuel as [|fuel IH]; intros s q b Hq E; simpl in E; [by exists b|].
  destruct q as [|d q]; [by exists s|]. simpl in Hq. apply andb_prop in Hq as [Hd Hq].
  apply negb_true_iff, bool_decide_eq_false in Hd.
  destruct s as [|c s]; [done|]. destruct (starts_with pat (String c s)).
  - injection E as <- _. done.
  - injection E as <- E. destruct (IH _ _ _ Hq E) as [b' ->]. by exists b'.
Qed.

(** Masking introduces no star-free text. *)
Lemma replace_contains fuel pat s q :
  star_free q = true -> q <> EmptyString -> contains q (replace_loop fuel pat "***" s) -> contains q s.
Proof.
  intros Hq Hne. revert s. induction fuel as [|fuel IH]; intros s (a & b & E); simpl in E; [by exists a, b|].
  destruct s as [|c s]; [by exists a, b|]. destruct (starts_with pat (String c s)) eqn:Hs.
  - assert (Hin : contains q (replace_loop fuel pat "***" (str_drop (String.length pat) (String c s)))).
    { destruct q as [|d q]; [done|]. simpl in Hq. apply andb_prop in Hq as [Hd _].
      apply negb_true_iff, bool_decide_eq_false in Hd.
      destruct a as [|a1 a]; [by injection E as <- _|]. injection E as _ E.
      destruct a as [|a2 a]; [by injection E as <- _|]. injection E as _ E.
      destruct a as [|a3 a]; [by injection E as <- _|]. injection E as _ E. by exists a, b. }
    apply IH in Hin as (a' & b' & E'). exists (str_take (String.length pat) (String c s) +:+ a')%string, b'.
    by rewrite str_app_assoc, <- E', str_take_drop.
  - destruct a as [|a1 a].
    + change (String c (replace_loop fuel pat "***" s) = q +:+ b)%string in E.
      assert (E' : replace_loop (S fuel) pat "***" (String c s) = (q +:+ b)%string).
      { simpl. by rewrite Hs. }
      apply replace_prefix in E' as [b' ->]; [|done]. by exists EmptyString, b'.
    + injection E as <- E. destruct (IH s) as (a' & b' & ->); [by exists a, b|]. by exists (String c a'), b'.
Qed.

Lemma replace_removes fuel pat s :
  (String.length s <= fuel)%nat -> star_free pat = true -> pat <> EmptyString ->
  ~ contains pat (replace_loop fuel pat "***" s).
Proof.
  intros Hf Hp Hne. revert s Hf. induction fuel as [|fuel IH]; intros s Hf (a & b & E); simpl in E.
  { destruct s; [|simpl in Hf; lia]. apply (f_equal String.length) in E. rewrite !str_length_app in E.
    destruct pat; simpl in E; [done|lia]. }
  assert (Hpat : exists d pat', pat = String d pat' /\ d <> "*"%char).
  { destruct pat as [|d pat']; [done|]. simpl in Hp. apply andb_prop in Hp as [Hd _].
    apply negb_true_iff, bool_decide_eq_false in Hd. eauto. }
  destruct s as [|c s].
  { apply (f_equal String.length) in E. rewrite !str_length_app in E. destruct pat; simpl in E; [done|lia]. }
  destruct (starts_with pat (String c s)) eqn:Hs.
  - destruct Hpat as (d & pat' & Ep & Hd). rewrite Ep in E.
    destruct a as [|a1 a]; [by injection E as <- _|]. injection E as _ E.
    destruct a as [|a2 a]; [by injection E as <- _|]. injection E as _ E.
    destruct a as [|a3 a]; [by injection E as <- _|]. injection E as _ E. rewrite <- Ep in E.
    eapply IH; [|by exists a, b]. rewrite str_length_drop. subst pat. simpl in *. lia.
  - destruct a as [|a1 a].
    + assert (E' : replace_loop (S fuel) pat "***" (String c s) = (pat +:+ b)%string) by (simpl; by rewrite Hs).
      apply replace_prefix in E' as [b' E']; [|done].
      assert (starts_with pat (String c s) = true) by (apply starts_with_spec; eauto). congruence.
    + injection E as <- E. eapply IH; [|by exists a, b]. simpl in Hf. lia.
Qed.

(** After masking no secret is left in a line: whatever the line and the
    secrets are, none of the non-empty secrets without a [*] occurs in the
    output, and masking makes no secret appear that was not there. *)
Theorem mask_removes_secrets (line secret : string) (secrets : list string) :
  secret ∈ secrets -> secret <> EmptyString -> star_free secret = true ->
  ~ contains secret (mask_secret_values line secrets).
Proof.
  intros Hin Hne Hsf. unfold mask_secret_values.
  assert (Hkeep : forall l m, ~ contains secret m -> ~ contains secret (foldl (fun masked x =>
    if negb (bool_decide (x = EmptyString)) then replace x "***" masked else masked) m l)).
  { clear - Hne Hsf. intros l. induction l as [|x l IH]; intros m Hm; [done|]. simpl. apply IH.
    case_bool_decide; simpl; [done|]. contradict Hm. by apply replace_contains in Hm. }
  revert line. induction secrets as [|x xs IH]; intros line; [by apply elem_of_nil in Hin|].
  simpl. apply elem_of_cons in Hin as [<-|Hin]; [|by apply IH].
  rewrite bool_decide_eq_false_2 by done. simpl. apply Hkeep. by apply replace_removes.
Qed.

Lemma mask_removes_secrets_witness : ~ contains "hunter2" (mask_secret_values "pw=hunter2" ["x"; "hunter2"]).
Proof.
  apply (mask_removes_secrets "pw=hunter2" "hunter2"); [right; left|discriminate|reflexivity].
Defined.

(** ** What the controller receives *)

(** Chunks at consecutive offsets from [off], none of them empty. *)
Fixpoint contiguous (off : Z) (cs : list LogChunk) : Prop :=
  match cs with
  | [] => True
  | c :: cs' =>
      lc_offset c = off /\ lc_data c <> EmptyString /\
      contiguous (off + Z.of_nat (String.length (lc_data c))) cs'
  end.

Definition chunks_data (cs : list LogChunk) : string :=
  foldr (fun c acc => lc_data c +:+ acc)%string EmptyString cs.

(** The text of the lines an event sequence carries, masked, each with its
    newline. *)
Definition event_text (secrets : list string) (e : event) : string :=
  match e with
  | Line line _ _ => (mask_secret_values line secrets +:+ newline_byte)%string
  | _ => EmptyString
  end.

Definition events_text (secrets : list string) (es : list event) : string :=
  foldr (fun e acc => event_text secrets e +:+ acc)%string EmptyString es.

(** The executor is still running and the chunk channel is open. *)
Definition running (e : event) : Prop :=
  match e with Line _ _ open | Tick _ open => open = true | Closed _ _ => False end.

Lemma chunks_data_snoc cs c : chunks_data (cs ++ [c]) = (chunks_data cs +:+ lc_data c)%string.
Proof.
  induction cs as [|x cs IH]; simpl; [by rewrite str_app_nil_r|]. by rewrite IH, str_app_assoc.
Qed.

Lemma contiguous_snoc off cs c :
  contiguous off cs -> lc_offset c = off + Z.of_nat (String.length (chunks_data cs)) -> lc_data c <> EmptyString ->
  contiguous off (cs ++ [c]).
Proof.
  revert off. induction cs as [|x cs IH]; intros off Hc Ho Hd; simpl in *.
  { split; [lia|done]. }
  destruct Hc as (Hx & Hne & Hc). split_and!; [done..|]. apply IH; [done| |done].
  rewrite str_length_app in Ho. lia.
Qed.

Section StreamFacts.
Context (config : LogStreamerConfig) (w j : string) (secrets : list string).

(** Delivered chunks and buffer together are the text [txt]. *)
Definition streamed (txt : string) (s : stream_state) : Prop :=
  contiguous 0 (delivered s) /\
  (chunks_data (delivered s) +:+ batch_buffer s)%string = txt /\
  s_offset s = Z.of_nat (String.length (chunks_data (delivered s))) /\
  Forall (fun c => lc_worker_id c = w /\ lc_job_id c = j) (delivered s).

Lemma flush_streamed now txt s :
  streamed txt s -> batch_buffer s <> EmptyString -> Z.of_nat (String.length txt) < 2 ^ 64 ->
  streamed txt (flush w j now true s).1 /\ batch_buffer (flush w j now true s).1 = EmptyString.
Proof.
  intros (Hc & Ht & Ho & Hw) Hne Hlen. split; [|done]. unfold flush. split_and!; cbn [fst delivered batch_buffer s_offset].
  - apply contiguous_snoc; [done|by rewrite Ho|done].
  - by rewrite chunks_data_snoc, str_app_nil_r.
  - rewrite chunks_data_snoc, Ho, str_length_app. cbn [lc_data]. rewrite <- Ht, str_length_app in Hlen.
    rewrite u64_add_small by lia. lia.
  - apply Forall_app. split; [done|]. by repeat constructor.
Qed.

Lemma step_streamed e txt s :
  running e -> streamed txt s -> Z.of_nat (String.length (txt +:+ event_text secrets e)) < 2 ^ 64 ->
  streamed (txt +:+ event_text secrets e) (stream_step config w j secrets e s).1 /\
  (stream_step config w j secrets e s).2 = true.
Proof.
  intros Hr Hs Hlen. destruct e as [line now open|now open|now open]; simpl in Hr; [subst open|done|subst open].
  - cbn [event_text] in *. set (t := (mask_secret_values line secrets +:+ newline_byte)%string) in *.
    assert (Hne : (batch_buffer s +:+ t)%string <> EmptyString).
    { intros H. apply (f_equal String.length) in H. unfold t in H. rewrite !str_length_app in H. simpl in H. lia. }
    set (s1 := {| s with batch_buffer := (batch_buffer s +:+ t)%string |}).
    assert (Hs1 : streamed (txt +:+ t) s1).
    { destruct Hs as (Hc & Ht & Ho & Hw). split_and!; try done. simpl. by rewrite <- str_app_assoc, Ht. }
    cbn [stream_step]. fold t. fold s1. destruct (_ <=? _); [|by split].
    split; [by apply flush_streamed|done].
  - cbn [event_text] in *. rewrite str_app_nil_r in *. cbn [stream_step].
    case_bool_decide as Hb; simpl negb; cbv iota; [by split|]. split; [by apply flush_streamed|done].
Qed.

Lemma loop_streamed es tail txt s :
  Forall running es -> streamed txt s ->
  Z.of_nat (String.length (txt +:+ events_text secrets es)) < 2 ^ 64 ->
  exists s', streamed (txt +:+ events_text secrets es) s' /\
    stream_loop config w j secrets (es ++ tail) s = stream_loop config w j secrets tail s'.
Proof.
  revert txt s. induction es as [|e es IH]; intros txt s Hr Hs Hlen; simpl in *.
  { exists s. by rewrite str_app_nil_r. }
  apply Forall_cons in Hr as [He Hr]. rewrite <- str_app_assoc in *.
  assert (Hle : Z.of_nat (String.length (txt +:+ event_text secrets e)) < 2 ^ 64).
  { rewrite str_length_app in Hlen. lia. }
  destruct (step_streamed e txt s He Hs Hle) as [H1 H2].
  destruct (stream_step config w j secrets e s) as [s1 b]; simpl in *; subst b. by apply IH.
Qed.

Lemma stream_spec es now :
  Forall running es -> Z.of_nat (String.length (events_text secrets es)) < 2 ^ 64 ->
  let '(sent, chunks) := stream config w j secrets (es ++ [Closed now true]) in
  contiguous 0 chunks /\ chunks_data chunks = events_text secrets es /\
  sent = Z.of_nat (String.length (events_text secrets es)) /\
  Forall (fun c => lc_worker_id c = w /\ lc_job_id c = j) chunks.
Proof.
  intros Hr Hlen. unfold stream.
  assert (H0 : streamed EmptyString stream_init) by (split_and!; done || constructor).
  destruct (loop_streamed es [Closed now true] EmptyString stream_init Hr H0 Hlen) as (s' & Hs & ->).
  change (EmptyString +:+ events_text secrets es)%string with (events_text secrets es) in Hs.
  cbn [stream_loop stream_step]. case_bool_decide as Hb; simpl negb; cbv iota.
  - destruct Hs as (Hc & Ht & Ho & Hw). rewrite Hb, str_app_nil_r in Ht. split_and!; [done|done|by rewrite Ho, Ht|done].
  - destruct (flush_streamed now _ s' Hs Hb Hlen) as [(Hc & Ht & Ho & Hw) He]. rewrite He, str_app_nil_r in Ht.
    split_and!; [done|done|by rewrite Ho, Ht|done].
Qed.
End StreamFacts.

(** The streamer loses, repeats and reorders nothing: as long as the chunk
    channel stays open, for any interleaving of lines and timer ticks before
    the executor's channel closes, the chunks sent are non-empty, at consecutive
    offsets from 0, and concatenate to exactly the masked lines, each ended by a
    newline; the offset returned is the total length. *)
Theorem stream_sends_everything (config : LogStreamerConfig) (w j : string) (secrets : list string)
    (es : list event) (now : Z) :
  Forall running es -> Z.of_nat (String.length (events_text secrets es)) < 2 ^ 64 ->
  let '(sent, chunks) := stream config w j secrets (es ++ [Closed now true]) in
  contiguous 0 chunks /\ chunks_data chunks = events_text secrets es /\
  sent = Z.of_nat (String.length (events_text secrets es)).
Proof.
  intros Hr Hl. pose proof (stream_spec config w j secrets es now Hr Hl) as H.
  destruct (stream _ _ _ _ _) as [sent chunks]. destruct H as (H1 & H2 & H3 & _). done.
Qed.

Definition sample_events : list event := [Line "step 1" 1 true; Tick 2 true; Line "key=abc" 3 true; Line "done" 4 true].

Lemma stream_sends_everything_witness :
  let '(sent, chunks) := stream {| batch_size_limit := 10 |} "w" "j" ["abc"] (sample_events ++ [Closed 5 true]) in
  contiguous 0 chunks /\ length chunks = 2%nat /\ sent = 20.
Proof.
  pose proof (stream_sends_everything {| batch_size_limit := 10 |} "w" "j" ["abc"] sample_events 5) as H.
  assert (E : stream {| batch_size_limit := 10 |} "w" "j" ["abc"] (sample_events ++ [Closed 5 true]) =
    (20, (stream {| batch_size_limit := 10 |} "w" "j" ["abc"] (sample_events ++ [Closed 5 true])).2)).
  { vm_compute. reflexivity. }
  rewrite E in H |- *. split; [|split; [vm_compute; reflexivity|reflexivity]].
  apply H; [repeat constructor|vm_compute; reflexivity].
Defined.

(** Masking works line by line: a secret that spans two lines is sent in
    clear. For every secret [a \n b] whose lines are printed one after the
    other, the text sent contains the secret, although it is configured. *)
Theorem multiline_secret_is_sent (a b : string) (t1 t2 : Z) :
  str_forallb (fun c => negb (bool_decide (c = "010"%char))) a = true ->
  str_forallb (fun c => negb (bool_decide (c = "010"%char))) b = true ->
  let secret := (a +:+ newline_byte +:+ b)%string in
  contains secret (events_text [secret] [Line a t1 true; Line b t2 true]).
Proof.
  intros Ha Hb secret.
  assert (Hid : forall x, str_forallb (fun c => negb (bool_decide (c = "010"%char))) x = true ->
    mask_secret_values x [secret] = x).
  { intros x Hx. unfold mask_secret_values. simpl. case_bool_decide; simpl; [done|]. unfold replace.
    generalize (String.length x) as fuel. intros fuel. revert x Hx.
    induction fuel as [|fuel IH]; intros [|c x] Hx; simpl; [done..|].
    destruct (starts_with secret (String c x)) eqn:E.
    - apply starts_with_spec in E as [rest E]. rewrite E in Hx. unfold secret in Hx.
      rewrite !str_forallb_app in Hx. apply andb_prop in Hx as [Hx _]. apply andb_prop in Hx as [_ Hx]. done.
    - simpl in Hx. apply andb_prop in Hx as [_ Hx]. by rewrite IH. }
  cbn [events_text foldr event_text]. rewrite !Hid by done. exists EmptyString, newline_byte.
  unfold secret. by rewrite !str_app_assoc.
Qed.

Lemma multiline_secret_is_sent_witness :
  contains ("KEY" +:+ newline_byte +:+ "xyz")
    (events_text [("KEY" +:+ newline_byte +:+ "xyz")%string] [Line "KEY" 1 true; Line "xyz" 2 true]).
Proof. apply (multiline_secret_is_sent "KEY" "xyz" 1 2); reflexivity. Defined.
