(* ===== verification/Executor.v ===== *)
(** * The worker's executor (crates/ci-worker/src/executor.rs)

    Finding and killing the process tree of a job, and running a command with
    its output streamed. The operating system is an argument: what /proc shows,
    whether a process is alive when it is probed, how much time has passed after
    a sleep, how the command ends. Signals sent are the effects. *)

From Stdlib Require Import ZArith Lia Ascii.
From stdpp Require Import gmap strings list relations sets.
From S2P Require Import Prelude Text LogStreamer.

(** ** The process tree *)

(** An entry of /proc: its name, and the text of its status file if it can
    still be read. *)
Record proc_entry := {
  pe_name : string;
  pe_status : option string
}.

(** The parent in a status file: the first line that begins with [PPid:]. *)
Definition ppid_of (status : string) : option Z :=
  match list_find (fun l => starts_with "PPid:" l = true) (str_lines status) with
  | Some (_, l) => Some (default 0 (parse_i32 (trim (str_drop 5 l))))
  | None => None
  end.

(** The children of a generation, in the order of /proc. *)
Definition next_frontier (root_pid : Z) (frontier : list Z) (entries : list proc_entry) : list Z :=
  omap (fun e =>
    child_pid ← parse_i32 (pe_name e);
    if child_pid =? root_pid then None
    else status ← pe_status e;
         ppid ← ppid_of status;
         if bool_decide (ppid ∈ frontier) then Some child_pid else None) entries.

(** [proc n] is what reading /proc for the n-th generation gives. *)
Fixpoint collect_loop (proc : nat -> option (list proc_entry)) (root_pid : Z) (fuel gen : nat)
    (frontier result : list Z) : option (list Z) :=
  match frontier with
  | [] => Some result
  | _ :: _ =>
      match fuel with
      | O => None
      | S f =>
          match proc gen with
          | None => Some result
          | Some entries =>
              let next := next_frontier root_pid frontier entries in
              collect_loop proc root_pid f (S gen) next (result ++ next)
          end
      end
  end.

Definition collect_descendants (fuel : nat) (proc : nat -> option (list proc_entry)) (root_pid : Z) : option (list Z) :=
  collect_loop proc root_pid fuel 0 [root_pid] [].

(** What the probes of [terminate_process_tree] see: the n-th poll of each of
    its two loops, and the milliseconds passed when it is made. *)
Record probes := {
  root_gone : nat -> bool;
  root_elapsed : nat -> Z;
  child_alive : nat -> Z -> bool;
  child_elapsed : nat -> Z;
  root_alive_after : bool
}.

Definition SIGKILL : Z := 9.

(** Step 2: poll every 100 ms until the root is gone or 5 s have passed. *)
Fixpoint wait_root (o : probes) (fuel n : nat) : option bool :=
  match fuel with
  | O => None
  | S f =>
      if root_gone o n then Some true
      else if 5000 <=? root_elapsed o n then Some false
      else wait_root o f (S n)
  end.

(** Step 4: poll every 200 ms until every descendant is gone; what is still
    alive after 10 s. *)
Fixpoint wait_children (o : probes) (descendants : list Z) (fuel n : nat) : option (list Z) :=
  match fuel with
  | O => None
  | S f =>
      let alive := filter (fun p => child_alive o n p = true) descendants in
      if bool_decide (alive = []) then Some []
      else if 10000 <=? child_elapsed o n then Some alive
      else wait_children o descendants f (S n)
  end.

(** The signals sent, in order. *)
Definition terminate_process_tree (fuel : nat) (proc : nat -> option (list proc_entry)) (o : probes)
    (pid signal : Z) : option (list (Z * Z)) :=
  descendants ← collect_descendants fuel proc pid;
  _ ← wait_root o fuel 0;
  alive ← wait_children o descendants fuel 0;
  Some ([(pid, signal)] ++ ((fun p => (p, signal)) <$> descendants) ++ ((fun p => (p, SIGKILL)) <$> alive)
        ++ (if root_alive_after o then [(pid, SIGKILL)] else [])).

(** ** Running a command *)

Record LogLine := {
  ll_line : string;
  ll_is_stderr : bool
}.

Record ExecutionResult := {
  er_exit_code : Z;
  er_output : string
}.

(** [ExitStatus::code()] is [None] when a signal ended the process. *)
Definition status_code (code : option Z) : Z := default (-1) code.

(** [Executor::execute]: both outputs together. *)
Definition execute (code : option Z) (stdout stderr : string) : ExecutionResult :=
  let combined_output := if bool_decide (stdout = EmptyString) then EmptyString else stdout in
  {| er_exit_code := status_code code;
     er_output :=
       if bool_decide (stderr = EmptyString) then combined_output
       else ((if bool_decide (combined_output = EmptyString) then combined_output
              else combined_output +:+ newline_byte) +:+ stderr)%string |}.

(** Log messages hide what follows common key names. *)
Definition mask_stop (s : string) : bool :=
  negb (white_len s =? 0)%nat || starts_with "'" s || starts_with (String "034" EmptyString) s.

Definition mask_pattern (masked pat : string) : string :=
  match find_str pat masked with
  | Some idx =>
      let start := (idx + String.length pat)%nat in
      let rest := str_drop start masked in
      let stop := default (String.length rest) (find_at mask_stop rest) in
      (str_take start masked +:+ "***" +:+ str_drop stop rest)%string
  | None => masked
  end.

Definition mask_secrets (s : string) : string :=
  foldl mask_pattern s ["password="; "token="; "secret="; "api_key="; "Bearer "; "Authorization:"].

(** How the [select!] of [execute_streaming] ends: the command exits or cannot
    be waited for, or a cancel signal arrives first. *)
Inductive ending :=
| Exited (code : option Z)
| WaitFailed
| CancelSignal (signal : Z).

Definition exit_code_of (e : ending) : Z :=
  match e with
  | Exited code => status_code code
  | WaitFailed => -1
  | CancelSignal signal => - signal
  end.

(** The two reader tasks. A line is masked and written to the log file under
    the file's lock, then sent; a line read after the cancelled flag is set ends
    the task, and so does the end of the pipe, a closed channel or an abort.
    Between writing and sending one line the other task may run. *)
Inductive reader_event :=
| RLine (is_stderr : bool) (raw_line : string)
| RSend (is_stderr : bool) (open : bool)
| REnd (is_stderr : bool)
| RCancel.

Inductive reader := Reading | Sending (line : string) | Done.

Record readers := {
  r_cancelled : bool;
  r_task : bool -> reader;
  r_file : list (bool * string);
  r_sent : list LogLine
}.

Definition readers_init : readers :=
  {| r_cancelled := false; r_task := fun _ => Reading; r_file := []; r_sent := [] |}.

Definition set_task (b : bool) (t : reader) (s : readers) : readers :=
  {| s with r_task := fun b' => if bool_decide (b' = b) then t else r_task s b' |}.

(** [r_file] lists what each [write_all] of a line appends to the log file, its
    newline included. *)
Definition reader_step (secret_values : list string) (s : readers) (e : reader_event) : readers :=
  match e with
  | RCancel => {| s with r_cancelled := true |}
  | RLine b raw_line =>
      match r_task s b with
      | Reading =>
          if r_cancelled s then set_task b Done s
          else let line := mask_secret_values raw_line secret_values in
               set_task b (Sending line) {| s with r_file := r_file s ++ [(b, (line +:+ newline_byte)%string)] |}
      | _ => s
      end
  | RSend b open =>
      match r_task s b with
      | Sending line =>
          if open then set_task b Reading {| s with r_sent := r_sent s ++ [{| ll_line := line; ll_is_stderr := b |}] |}
          else set_task b Done s
      | _ => s
      end
  | REnd b => set_task b Done s
  end.

(** [execute_streaming]: an error before the process runs, or its exit code and
    what the readers wrote and sent. *)
Definition execute_streaming (setup : result unit string) (secret_values : list string)
    (events : list reader_event) (e : ending) : result (ExecutionResult * readers) string :=
  let? _ := setup in
  Ok ({| er_exit_code := exit_code_of e; er_output := EmptyString |},
      foldl (reader_step secret_values) readers_init events).

Example ppid_example :
  ppid_of ("Name:" +:+ String "009" "sh" +:+ newline_byte +:+ "PPid:" +:+ String "009" "17" +:+ newline_byte) = Some 17.
Proof. reflexivity. Qed.

(** Only the first value after each key name is hidden, and of an
    Authorization header with another scheme than Bearer none. *)
Example mask_secrets_first_only :
  mask_secrets "curl -d token=abc -d token=def" = "curl -d token=*** -d token=def" /\
  mask_secrets "curl -H 'Authorization: Basic dTpw'" = "curl -H 'Authorization:*** Basic dTpw'".
Proof. split; reflexivity. Qed.

(** ** The descendants found are the descendants *)

(** The processes of a snapshot, each with its parent. *)
Definition processes (entries : list proc_entry) : list (Z * Z) :=
  omap (fun e => p ← parse_i32 (pe_name e); st ← pe_status e; pp ← ppid_of st; Some (p, pp)) entries.

Definition parent_of (entries : list proc_entry) (pp p : Z) : Prop := (p, pp) ∈ processes entries.

Lemma length_processes entries : (length (processes entries) <= length entries)%nat.
Proof. unfold processes. induction entries as [|e es IH]; csimpl; [done|]. destruct (_ ≫= _); simpl; lia. Qed.

Lemma elem_of_next_frontier root F entries p :
  p ∈ next_frontier root F entries <-> p <> root /\ exists pp, parent_of entries pp p /\ pp ∈ F.
Proof.
  unfold next_frontier, parent_of, processes. setoid_rewrite list_elem_of_omap. split.
  - intros (e & He & E). destruct (parse_i32 (pe_name e)) as [q|] eqn:Eq; simpl in E; [|done].
    destruct (Z.eqb_spec q root); [done|]. destruct (pe_status e) as [st|] eqn:Est; simpl in E; [|done].
    destruct (ppid_of st) as [pp|] eqn:Epp; simpl in E; [|done]. case_bool_decide; [|done].
    injection E as ->. split; [done|]. exists pp. split; [|done]. exists e. by rewrite Eq, Est; simpl; rewrite Epp.
  - intros (Hne & pp & (e & He & E) & Hpp). exists e. split; [done|].
    destruct (parse_i32 (pe_name e)) as [q|] eqn:Eq; simpl in *; [|done].
    destruct (pe_status e) as [st|] eqn:Est; simpl in *; [|done].
    destruct (ppid_of st) as [pp'|] eqn:Epp; simpl in *; [|done]. injection E as -> ->.
    destruct (Z.eqb_spec p root); [done|]. by rewrite bool_decide_eq_true_2.
Qed.

Lemma NoDup_next_frontier root F entries :
  NoDup (processes entries).*1 -> NoDup (next_frontier root F entries).
Proof.
  assert (Hsub : next_frontier root F entries `sublist_of` (processes entries).*1).
  { unfold next_frontier, processes. induction entries as [|e es IH]; csimpl; [done|].
    destruct (parse_i32 (pe_name e)) as [q|]; simpl; [|done].
    destruct (pe_status e) as [st|]; simpl; [|by destruct (_ =? _)].
    destruct (ppid_of st) as [pp|]; simpl; [|by destruct (_ =? _)].
    destruct (q =? root); [by constructor|]. case_bool_decide; simpl; by constructor. }
  intros H. by eapply sublist_NoDup.
Qed.

Section Descendants.
Context (entries : list proc_entry) (root : Z) (Hnodup : NoDup (processes entries).*1).

Lemma parent_unique pp pp' p : parent_of entries pp p -> parent_of entries pp' p -> pp = pp'.
Proof.
  unfold parent_of. intros H1%(elem_of_list_to_map (M := gmap Z)) H2%(elem_of_list_to_map (M := gmap Z)); congruence.
Qed.

(** The state of the loop: everything found descends from the root through
    processes expanded before; the frontier is what is left to expand. *)
Record bfs (F R : list Z) : Prop := {
  bfs_nodup : NoDup R;
  bfs_root : root ∉ R;
  bfs_frontier : forall p, p ∈ F -> p = root \/ p ∈ R;
  bfs_found : forall p, p ∈ R -> tc (parent_of entries) root p;
  bfs_parent : forall p, p ∈ R -> exists pp, parent_of entries pp p /\ (pp = root \/ pp ∈ R) /\ pp ∉ F;
  bfs_closed : forall p pp, parent_of entries pp p -> p <> root -> pp = root \/ pp ∈ R -> pp ∉ F -> p ∈ R
}.

Lemma bfs_fresh F R p : bfs F R -> p ∈ next_frontier root F entries -> p ∉ R.
Proof.
  intros H (_ & pp & Hpp & HF)%elem_of_next_frontier Hin.
  destruct (bfs_parent _ _ H p Hin) as (pp' & Hpp' & _ & Hn). by rewrite (parent_unique _ _ _ Hpp Hpp') in HF.
Qed.

Lemma bfs_step F R : bfs F R -> bfs (next_frontier root F entries) (R ++ next_frontier root F entries).
Proof.
  intros H. pose proof (bfs_fresh F R) as Hfresh. set (N := next_frontier root F entries) in *.
  assert (HN : forall p, p ∈ N -> p <> root /\ exists pp, parent_of entries pp p /\ pp ∈ F)
    by (intros p; apply elem_of_next_frontier).
  split.
  - apply NoDup_app. split_and!; [apply (bfs_nodup _ _ H)| |by apply NoDup_next_frontier].
    intros p Hp HpN. by apply (Hfresh p H HpN).
  - intros [Hr|Hr]%elem_of_app; [by apply (bfs_root _ _ H)|by apply HN in Hr as [? _]].
  - intros p Hp. right. apply elem_of_app. by right.
  - intros p [Hp|Hp]%elem_of_app; [by apply (bfs_found _ _ H)|].
    destruct (HN p Hp) as (_ & pp & Hpp & HF). destruct (bfs_frontier _ _ H pp HF) as [->|HR]; [by constructor|].
    eapply tc_r; [by apply (bfs_found _ _ H)|done].
  - assert (Hold : forall pp, pp = root \/ pp ∈ R -> pp ∉ N).
    { intros pp [->|Hpp] HpN; [by apply HN in HpN as [? _]|by apply (Hfresh pp H HpN)]. }
    intros p [Hp|Hp]%elem_of_app.
    + destruct (bfs_parent _ _ H p Hp) as (pp & Hpp & Hin & _). exists pp.
      split_and!; [done| |by apply Hold]. rewrite elem_of_app. tauto.
    + destruct (HN p Hp) as (_ & pp & Hpp & HF). pose proof (bfs_frontier _ _ H pp HF) as Hin. exists pp.
      split_and!; [done| |by apply Hold]. rewrite elem_of_app. tauto.
  - intros p pp Hpp Hne Hin HnN. apply elem_of_app. rewrite elem_of_app in Hin.
    destruct (decide (pp ∈ F)) as [HF|HF]; [right; apply elem_of_next_frontier; eauto|left].
    apply (bfs_closed _ _ H p pp); tauto.
Qed.

Lemma bfs_size F R : bfs F R -> (length R <= length (processes entries))%nat.
Proof.
  intros H. rewrite <- (length_fmap fst (processes entries)). apply submseteq_length, NoDup_submseteq; [apply H|].
  intros p Hp. destruct (bfs_parent _ _ H p Hp) as (pp & Hpp & _). apply list_elem_of_fmap. by exists (p, pp).
Qed.

Lemma bfs_done R : bfs [] R -> forall p, p ∈ R <-> p <> root /\ tc (parent_of entries) root p.
Proof.
  intros H p. split.
  - intros Hp. split; [|by apply (bfs_found _ _ H)]. intros ->. by apply (bfs_root _ _ H).
  - intros [Hne Ht%tc_rtc]. assert (Hin : p = root \/ p ∈ R); [|by destruct Hin].
    clear Hne. revert p Ht. apply rtc_ind_r; [by left|]. intros y z Hy Hyz IH.
    destruct (decide (z = root)) as [|Hz]; [by left|right]. eapply (bfs_closed _ _ H); eauto. by apply not_elem_of_nil.
Qed.

Lemma collect_loop_spec fuel : forall gen F R,
  bfs F R -> (length (processes entries) - length R < fuel)%nat ->
  exists ds, collect_loop (fun _ => Some entries) root fuel gen F R = Some ds /\ bfs [] ds.
Proof.
  induction fuel as [|fuel IH]; intros gen F R H Hf; [lia|]. destruct F as [|x F]; [by exists R|].
  cbn [collect_loop]. pose proof (bfs_step _ _ H) as H'. set (N := next_frontier root (x :: F) entries) in *.
  clearbody N. destruct N as [|y N].
  - exists (R ++ []). split; [by destruct fuel|done].
  - apply IH; [done|]. pose proof (bfs_size _ _ H'). rewrite length_app in *. simpl in *. lia.
Qed.
End Descendants.

(** [collect_descendants] on a fixed snapshot of /proc. *)
Lemma collect_descendants_spec entries root fuel :
  NoDup (processes entries).*1 -> (length entries < fuel)%nat ->
  exists ds, collect_descendants fuel (fun _ => Some entries) root = Some ds /\ NoDup ds /\
    forall p, p ∈ ds <-> p <> root /\ tc (parent_of entries) root p.
Proof.
  intros Hn Hf. destruct (collect_loop_spec entries root Hn fuel 0 [root] []) as (ds & E & H).
  - split; [constructor|by apply not_elem_of_nil| | | |].
    + intros p Hp%list_elem_of_singleton. by left.
    + by intros p Hp%elem_of_nil.
    + by intros p Hp%elem_of_nil.
    + intros p pp _ _ [->|Hp%elem_of_nil] Hn'; [|done]. exfalso. apply Hn'. by left.
  - pose proof (length_processes entries). simpl. lia.
  - exists ds. split_and!; [done|apply H|by apply bfs_done].
Qed.

Lemma wait_root_ends o : (forall n, 100 * (Z.of_nat n + 1) <= root_elapsed o n) ->
  forall fuel n, (50 <= fuel + n)%nat -> (0 < fuel)%nat -> is_Some (wait_root o fuel n).
Proof.
  intros Ht fuel. induction fuel as [|fuel IH]; intros n Hf Hp; [lia|]. simpl. destruct (root_gone o n); [done|].
  destruct (Z.leb_spec 5000 (root_elapsed o n)); [done|]. specialize (Ht n). apply IH; lia.
Qed.

Lemma wait_children_ends o ds : (forall n, 200 * (Z.of_nat n + 1) <= child_elapsed o n) ->
  forall fuel n, (50 <= fuel + n)%nat -> (0 < fuel)%nat -> exists alive, wait_children o ds fuel n = Some alive /\
    (forall p, p ∈ alive -> p ∈ ds) /\ (forall p, p ∈ ds -> p ∈ alive \/ exists m, child_alive o m p = false).
Proof.
  intros Ht fuel. induction fuel as [|fuel IH]; intros n Hf Hp; [lia|]. simpl.
  assert (Hsplit : forall p, p ∈ ds -> p ∈ filter (fun p => child_alive o n p = true) ds \/ exists m, child_alive o m p = false).
  { intros p Hin. rewrite list_elem_of_filter. destruct (child_alive o n p) eqn:E; [auto|right; eauto]. }
  case_bool_decide as Hnil.
  - exists []. split_and!; [done|by intros p ?%elem_of_nil|]. by rewrite Hnil in Hsplit.
  - destruct (Z.leb_spec 10000 (child_elapsed o n)).
    + eexists. split_and!; [done| |done]. by intros p [_ ?]%list_elem_of_filter.
    + specialize (Ht n). apply IH; lia.
Qed.

(** C18. A cancelled job leaves no process behind unattended: on any snapshot of
    the process table (cyclic or not, as long as it gives each process one
    parent), [terminate_process_tree] ends, within fifty polls of each wait. It
    signals the root first, then every process that descends from it, whatever
    process group it moved to; each of those either was gone at some poll or is
    sent SIGKILL, and so is the root if it is still there; no other process is
    signalled. *)
Theorem terminate_kills_tree (entries : list proc_entry) (o : probes) (pid signal : Z) (fuel : nat) :
  NoDup (processes entries).*1 -> (length entries < fuel)%nat -> (50 <= fuel)%nat ->
  (forall n, 100 * (Z.of_nat n + 1) <= root_elapsed o n) ->
  (forall n, 200 * (Z.of_nat n + 1) <= child_elapsed o n) ->
  exists sent, terminate_process_tree fuel (fun _ => Some entries) o pid signal = Some sent /\
    head sent = Some (pid, signal) /\
    (forall p, p <> pid -> tc (parent_of entries) pid p ->
       (p, signal) ∈ sent /\ ((p, SIGKILL) ∈ sent \/ exists n, child_alive o n p = false)) /\
    (root_alive_after o = true -> (pid, SIGKILL) ∈ sent) /\
    (forall p s, (p, s) ∈ sent -> (p = pid \/ tc (parent_of entries) pid p) /\ (s = signal \/ s = SIGKILL)).
Proof.
  intros Hn Hlen H50 Hr Hc. destruct (collect_descendants_spec entries pid fuel Hn Hlen) as (ds & Eds & _ & Hds).
  destruct (wait_root_ends o Hr fuel 0) as [gone Eg]; [lia..|].
  destruct (wait_children_ends o ds Hc fuel 0) as (alive & Ea & Hsub & Halive); [lia..|].
  eexists. unfold terminate_process_tree. rewrite Eds; simpl. rewrite Eg; simpl. rewrite Ea; simpl.
  split; [reflexivity|]. assert (Hmap : forall (p s s' : Z) (l : list Z), (p, s) ∈ ((fun q => (q, s')) <$> l) <-> s = s' /\ p ∈ l).
  { intros p s s' l. rewrite list_elem_of_fmap. naive_solver. }
  split_and!; [done| | |].
  - intros p Hne Ht. assert (Hin : p ∈ ds) by by apply Hds.
    rewrite !elem_of_cons, !elem_of_app, !Hmap. destruct (Halive p Hin); naive_solver.
  - intros ->. rewrite !elem_of_cons, !elem_of_app. right. right. right. by left.
  - intros p s. rewrite !elem_of_cons, !elem_of_app, !Hmap.
    intros [[= -> ->]|[[-> Hp]|[[-> Hp]|Hp]]]; [naive_solver|by apply Hds in Hp as []; auto|by apply Hsub, Hds in Hp as []; auto|].
    destruct (root_alive_after o); [|by apply elem_of_nil in Hp]. apply list_elem_of_singleton in Hp as [= -> ->]. auto.
Qed.

Definition sample_proc : list proc_entry := [
  {| pe_name := "7"; pe_status := Some ("PPid: 1" +:+ newline_byte)%string |};
  {| pe_name := "self"; pe_status := None |};
  {| pe_name := "9"; pe_status := Some ("Name: make" +:+ newline_byte +:+ "PPid: 8" +:+ newline_byte)%string |};
  {| pe_name := "8"; pe_status := Some ("PPid: 7" +:+ newline_byte)%string |}].

(** The child survives its signal, the grandchild does not. *)
Definition sample_probes : probes := {|
  root_gone n := (0 <? n)%nat;
  root_elapsed n := 100 * (Z.of_nat n + 1);
  child_alive n p := p =? 8;
  child_elapsed n := 200 * (Z.of_nat n + 1);
  root_alive_after := false |}.

Example terminate_example :
  terminate_process_tree 50 (fun _ => Some sample_proc) sample_probes 7 15 = Some [(7, 15); (8, 15); (9, 15); (8, 9)].
Proof. reflexivity. Qed.

Lemma terminate_kills_tree_witness :
  exists sent, terminate_process_tree 50 (fun _ => Some sample_proc) sample_probes 7 15 = Some sent /\ head sent = Some (7, 15).
Proof.
  destruct (terminate_kills_tree sample_proc sample_probes 7 15 50) as (sent & E & Hh & _).
  - vm_compute. repeat (constructor; [by rewrite ?elem_of_cons, ?elem_of_nil; lia|]). constructor.
  - simpl. lia.
  - lia.
  - intros n. simpl. lia.
  - intros n. simpl. lia.
  - by exists sent.
Defined.

(** ** The log file and the stream *)

Definition file_lines (b : bool) (s : readers) : list string :=
  omap (fun '(b', l) => if bool_decide (b' = b) then Some l else None) (r_file s).

Definition sent_lines (b : bool) (s : readers) : list string :=
  omap (fun l => if bool_decide (ll_is_stderr l = b) then Some (ll_line l +:+ newline_byte)%string else None) (r_sent s).

(** What one reader has written and not sent: the line it is sending, or the
    one it could not send when it ended. *)
Definition in_step (b : bool) (s : readers) : Prop :=
  exists unsent, file_lines b s = sent_lines b s ++ unsent /\
    match r_task s b with
    | Reading => unsent = []
    | Sending line => unsent = [(line +:+ newline_byte)%string]
    | Done => (length unsent <= 1)%nat
    end.

Lemma reader_step_in_step secrets e s b : in_step b s -> in_step b (reader_step secrets s e).
Proof.
  intros (u & E & Hu). unfold in_step, file_lines, sent_lines in *.
  destruct e as [b' raw|b' open|b'|]; simpl; [| | |by exists u].
  - destruct (r_task s b') eqn:Et; [|by exists u..]. destruct (r_cancelled s); simpl.
    + exists u. split; [done|]. case_bool_decide as Hb; [subst b'|done]. rewrite Et in Hu. by subst u; simpl; lia.
    + rewrite omap_app, E. simpl. destruct (bool_decide_reflect (b' = b)) as [->|Hb]; simpl.
      * rewrite Et in Hu. subst u. eexists. split; [by rewrite app_nil_r|]. by rewrite bool_decide_eq_true_2.
      * rewrite (bool_decide_eq_false_2 (b = b')) by congruence. exists u. by rewrite app_nil_r.
  - destruct (r_task s b') as [|line|] eqn:Et; [by exists u| |by exists u]. destruct open; simpl.
    + rewrite omap_app, E. simpl. destruct (bool_decide_reflect (b' = b)) as [->|Hb]; simpl.
      * rewrite Et in Hu. subst u. exists []. rewrite app_nil_r. by rewrite bool_decide_eq_true_2.
      * rewrite (bool_decide_eq_false_2 (b = b')) by congruence. exists u. by rewrite app_nil_r.
    + exists u. split; [done|]. case_bool_decide as Hb; [subst b'|done]. rewrite Et in Hu. by subst u; simpl; lia.
  - exists u. split; [done|]. case_bool_decide as Hb; [subst b'|done].
    destruct (r_task s b); subst; simpl; lia.
Qed.

(** Every line in the file is a masked line that was read. *)
Lemma reader_step_masked secrets e s (P : string -> Prop) :
  (forall raw, P (mask_secret_values raw secrets +:+ newline_byte)%string) ->
  Forall (fun x => P x.2) (r_file s) -> Forall (fun x => P x.2) (r_file (reader_step secrets s e)).
Proof.
  intros HP H. destruct e as [b raw|b open|b|]; simpl; [|destruct (r_task s b); [|destruct open|]; exact H|exact H|exact H].
  destruct (r_task s b); [|exact H..]. destruct (r_cancelled s); [exact H|]. simpl. apply Forall_app. split; [exact H|].
  constructor; [apply HP|constructor].
Qed.

(** The local log file never falls behind the stream it can replay: after any
    interleaving of the two reader tasks, with cancellation, aborts and a closed
    channel at any point, the lines sent from each of stdout and stderr are, in
    order, the lines of the file from that stream but for at most the last one;
    and every line in the file was masked before it was written. *)
Theorem log_file_covers_stream (secret_values : list string) (events : list reader_event) (e : ending) :
  exists r s, execute_streaming (Ok tt) secret_values events e = Ok (r, s) /\ er_exit_code r = exit_code_of e /\
    (forall b, exists unsent, file_lines b s = sent_lines b s ++ unsent /\ (length unsent <= 1)%nat) /\
    Forall (fun x => exists raw_line, x.2 = (mask_secret_values raw_line secret_values +:+ newline_byte)%string) (r_file s).
Proof.
  eexists _, _. split; [reflexivity|]. split; [done|].
  assert (H : forall s, (forall b, in_step b s) -> Forall (fun x => exists raw_line, x.2 = (mask_secret_values raw_line secret_values +:+ newline_byte)%string) (r_file s) ->
    (forall b, in_step b (foldl (reader_step secret_values) s events)) /\
    Forall (fun x => exists raw_line, x.2 = (mask_secret_values raw_line secret_values +:+ newline_byte)%string)
      (r_file (foldl (reader_step secret_values) s events))).
  { induction events as [|ev evs IH]; intros s H1 H2; [done|]. apply IH.
    - intros b. apply reader_step_in_step, H1.
    - apply (reader_step_masked _ _ _ (fun l => exists raw, l = (mask_secret_values raw secret_values +:+ newline_byte)%string)); eauto. }
  destruct (H readers_init) as [H1 H2]; [intros b; by exists []|constructor|]. split; [|done].
  intros b. destruct (H1 b) as (u & E & Hu). exists u. split; [done|]. destruct (r_task _ b); subst; simpl in *; lia.
Qed.
