(* ===== verification/StageRunner.v ===== *)
(** * Running a stage (crates/ci-worker/src/stage_runner.rs)

    Script locks, the layout of a stage's files on the worker, and the three
    phases of a stage. What the operating system and the processes answer is an
    argument; the log lines, locks and executions are a trace of actions, in the
    order in which they happen. *)

From Stdlib Require Import ZArith Lia Ascii.
From stdpp Require Import gmap strings list pretty.
From S2P Require Import Prelude Text StageModel LogStreamer Executor.

(** ** Locks *)

(** The worker's own [ScriptLockConfig]. *)
Record LockConfig := {
  lk_enabled : bool;
  lk_lock_key : string;
  lk_timeout_secs : Z;
  lk_scope : string
}.

Definition LockConfig_default : LockConfig :=
  {| lk_enabled := false; lk_lock_key := EmptyString; lk_timeout_secs := 0; lk_scope := EmptyString |}.

Definition from_proto (proto : option ScriptLockConfig) : LockConfig :=
  match proto with
  | Some p =>
      if sl_enabled p then {|
        lk_enabled := true;
        lk_lock_key := sl_lock_key p;
        lk_timeout_secs := sl_timeout_secs p;
        lk_scope := if bool_decide (sl_scope p = EmptyString) then "worker" else sl_scope p
      |} else LockConfig_default
  | None => LockConfig_default
  end.

Definition resolve_key (lock_config : LockConfig) (env : gmap string string) : string :=
  foldl (fun key '(template, env_key) =>
    match env !! env_key with Some val => replace template val key | None => key end)
    (lk_lock_key lock_config)
    [("{{WORKER_ID}}", "WORKER_ID"); ("{{REPO_NAME}}", "REPO_NAME"); ("{{COMMIT_SHA}}", "COMMIT_SHA");
     ("{{BRANCH}}", "BRANCH"); ("{{STAGE_NAME}}", "STAGE_NAME"); ("{{JOB_GROUP_ID}}", "JOB_GROUP_ID")].

(** What happens while a stage runs. *)
Inductive phase := Pre | Cmd | Post.

#[export] Instance phase_eq_dec : EqDecision phase.
Proof. solve_decision. Defined.

Inductive action :=
| Log (line : string) (is_stderr : bool)
| Acquired (path : string)
| Released (path : string)
| Run (p : phase) (script : string) (env : gmap string string) (timeout : option Z) (cancellable : bool).

Definition lock_log (ts : string) (msg : string) (is_stderr : bool) : action :=
  Log ("[LOCK " +:+ ts +:+ "] " +:+ msg)%string is_stderr.

(** [char::is_alphanumeric]: decided here for ASCII; the Unicode table for the
    other characters is an argument. *)
Definition is_alphanumeric (unicode : string -> bool) (ch : string) : bool :=
  match ch with
  | String c EmptyString =>
      let n := N_of_ascii c in
      (((48 <=? n) && (n <=? 57)) || ((65 <=? n) && (n <=? 90)) || ((97 <=? n) && (n <=? 122)))%N
  | _ => unicode ch
  end.

Definition concat_str (l : list string) : string := foldr (fun a b => a +:+ b)%string EmptyString l.

Definition safe_key (unicode : string -> bool) (resolved_key : string) : string :=
  concat_str (take 200 ((fun ch =>
    if is_alphanumeric unicode ch || bool_decide (ch = "-") || bool_decide (ch = "_") then ch else "_") <$> chars resolved_key)).

Definition lock_path (unicode : string -> bool) (resolved_key : string) : string :=
  ("/tmp/chola-locks/" +:+ safe_key unicode resolved_key +:+ ".lock")%string.

(** The answers of the operating system: creating the directory and opening the
    file, the n-th [flock] attempt, and the milliseconds passed when the deadline
    is checked after it. *)
Inductive flock_answer := Locked | WouldBlock | FlockError (msg : string).

Record lock_oracle := {
  lo_dir : result unit string;
  lo_open : result unit string;
  lo_flock : nat -> flock_answer;
  lo_elapsed : nat -> Z;
  lo_ts : nat -> string;
  lo_unicode : string -> bool
}.

Fixpoint flock_loop (o : lock_oracle) (resolved_key : string) (timeout_secs : Z) (fuel n : nat)
    : option (result unit string * list action) :=
  match fuel with
  | O => None
  | S f =>
      match lo_flock o n with
      | Locked => Some (Ok tt, [lock_log (lo_ts o 1) ("Acquired flock: " +:+ resolved_key)%string false;
                                Acquired (lock_path (lo_unicode o) resolved_key)])
      | FlockError e => Some (Err ("flock failed: " +:+ e)%string, [])
      | WouldBlock =>
          if 1000 * Z.max timeout_secs 1 <=? lo_elapsed o n then
            Some (Err ("Lock timeout after " +:+ pretty timeout_secs +:+ "s: " +:+ resolved_key)%string,
                  [lock_log (lo_ts o 1) ("Timeout after " +:+ pretty timeout_secs +:+ "s: " +:+ resolved_key)%string true])
          else flock_loop o resolved_key timeout_secs f (S n)
      end
  end.

(** One attempt every 500 ms, so this many suffice. *)
Definition flock_fuel (timeout_secs : Z) : nat := S (Z.to_nat (2 * Z.max timeout_secs 1)).

Definition acquire_flock (o : lock_oracle) (resolved_key : string) (timeout_secs : Z)
    : option (result unit string * list action) :=
  match lo_dir o with
  | Err e => Some (Err e, [])
  | Ok _ =>
      let acquiring :=
        lock_log (lo_ts o 0) ("Acquiring flock: " +:+ resolved_key +:+ " (timeout " +:+ pretty timeout_secs +:+ "s)")%string false in
      match lo_open o with
      | Err e => Some (Err e, [acquiring])
      | Ok _ =>
          '(r, acts) ← flock_loop o resolved_key timeout_secs (flock_fuel timeout_secs) 0;
          Some (r, acquiring :: acts)
      end
  end.

(** A lock held by the controller: one RPC per attempt; an error is logged and
    tried again. *)
Inductive rpc_answer := RpcAcquired (acquired : bool) | RpcError (msg : string).

Record rpc_oracle := {
  ro_rpc : nat -> rpc_answer;
  ro_elapsed : nat -> Z;
  ro_ts : nat -> string
}.

Fixpoint controller_lock_loop (o : rpc_oracle) (resolved_key : string) (timeout_secs : Z) (fuel n : nat)
    : option (result unit string * list action) :=
  match fuel with
  | O => None
  | S f =>
      match ro_rpc o n with
      | RpcAcquired true =>
          Some (Ok tt, [lock_log (ro_ts o (S n)) ("Acquired controller lock: " +:+ resolved_key)%string false; Acquired resolved_key])
      | a =>
          let logged := match a with RpcError e => [lock_log (ro_ts o (S n)) ("Lock RPC error: " +:+ e)%string true] | _ => [] end in
          if 1000 * Z.max timeout_secs 1 <=? ro_elapsed o n then
            Some (Err ("Controller lock timeout after " +:+ pretty timeout_secs +:+ "s: " +:+ resolved_key)%string,
                  logged ++ [lock_log (ro_ts o (S n)) ("Timeout after " +:+ pretty timeout_secs +:+ "s: " +:+ resolved_key)%string true])
          else '(r, acts) ← controller_lock_loop o resolved_key timeout_secs f (S n);
               Some (r, logged ++ acts)
      end
  end.

Definition acquire_controller_lock (o : option rpc_oracle) (holder_id resolved_key : string) (timeout_secs : Z)
    : option (result unit string * list action) :=
  match o with
  | None => Some (Err "No gRPC client for controller lock", [])
  | Some o =>
      '(r, acts) ← controller_lock_loop o resolved_key timeout_secs (flock_fuel timeout_secs) 0;
      Some (r, lock_log (ro_ts o 0) ("Acquiring controller lock: " +:+ resolved_key +:+ " (timeout " +:+ pretty timeout_secs
                 +:+ "s, holder=" +:+ str_take 8 holder_id +:+ ")")%string false :: acts)
  end.

(** [acquire_lock], which no code calls. *)
Definition acquire_lock (config : LockConfig) (resolved_key : string) (o : lock_oracle) (client : option rpc_oracle)
    (holder_id : string) : option (result unit string * list action) :=
  if bool_decide (lk_scope config = "controller") then acquire_controller_lock client holder_id resolved_key (lk_timeout_secs config)
  else acquire_flock o resolved_key (lk_timeout_secs config).

(** ** Paths *)

(** [PathBuf::join] *)
Definition path_join (base component : string) : string :=
  if starts_with "/" component then component
  else if bool_decide (base = EmptyString) then component
  else if bool_decide (String.get (String.length base - 1) base = Some "/"%char) then (base +:+ component)%string
  else (base +:+ "/" +:+ component)%string.

(** [str::replace] of the two separators, a character each. *)
Fixpoint replace_separators (s : string) : string :=
  match s with
  | EmptyString => EmptyString
  | String c s' =>
      String (if bool_decide (c = "/"%char) || bool_decide (c = "\"%char) then "_"%char else c) (replace_separators s')
  end.

Definition sanitize_path_component (s : string) : string := replace_separators (replace ".." EmptyString s).

Definition log_path (log_dir job_group_id stage_name job_id : string) : string :=
  if negb (bool_decide (job_group_id = EmptyString)) && negb (bool_decide (stage_name = EmptyString)) then
    path_join (path_join log_dir (sanitize_path_component job_group_id)) (sanitize_path_component stage_name +:+ ".log")%string
  else path_join log_dir (sanitize_path_component job_id +:+ ".log")%string.

Record ResolvedStagePaths := {
  rp_log_path : string;
  rp_workspace_dir : string;
  rp_stages_dir : option string;
  rp_stage_dir : option string
}.

(** The two timestamps are ignored. *)
Definition resolve_paths (scratch_root log_dir work_dir : string) (group_created_at worker_startup_ts : option timestamp)
    (job_group_id stage_name job_id : string) : ResolvedStagePaths :=
  if negb (bool_decide (job_group_id = EmptyString)) then
    let group_root := path_join scratch_root (sanitize_path_component job_group_id) in
    let safe_stage :=
      if bool_decide (stage_name = EmptyString) then sanitize_path_component job_id else sanitize_path_component stage_name in
    let stages_dir := path_join group_root "stages" in
    {| rp_log_path := path_join (path_join group_root "logs") (safe_stage +:+ ".log")%string;
       rp_workspace_dir := path_join group_root "workspace";
       rp_stages_dir := Some stages_dir;
       rp_stage_dir :=
         if bool_decide (stage_name = EmptyString) || bool_decide (stage_name = "__cleanup__") then None
         else Some (path_join stages_dir safe_stage) |}
  else
    {| rp_log_path := log_path log_dir job_group_id stage_name job_id;
       rp_workspace_dir := work_dir;
       rp_stages_dir := None;
       rp_stage_dir := None |}.

Example resolve_paths_grouped :
  resolve_paths "/scratch" "/logs" "/work" None None "gid-1" "build" "job-1" = {|
    rp_log_path := "/scratch/gid-1/logs/build.log";
    rp_workspace_dir := "/scratch/gid-1/workspace";
    rp_stages_dir := Some "/scratch/gid-1/stages";
    rp_stage_dir := Some "/scratch/gid-1/stages/build" |}.
Proof. reflexivity. Qed.

(** Different stages of a group can share their files. *)
Example resolve_paths_collide :
  resolve_paths "/scratch" "/logs" "/work" None None "g" "a/b" "j1" = resolve_paths "/scratch" "/logs" "/work" None None "g" "a_b" "j2".
Proof. reflexivity. Qed.

(** ** The three phases *)

Inductive StageState := SSuccess | SFailed | SCancelled.

#[export] Instance StageState_eq_dec : EqDecision StageState.
Proof. solve_decision. Defined.

Record StageResult := {
  sr_pre_exit_code : option Z;
  sr_command_exit_code : Z;
  sr_post_exit_code : option Z;
  sr_final_state : StageState
}.

Definition mask_command_secrets (command : string) (secrets : list string) : string :=
  foldl (fun masked secret =>
    if negb (bool_decide (secret = EmptyString)) then replace secret "****" masked else masked) command secrets.

(** The answers for one stage: how each phase's process ends (or why it could
    not run), the seconds of the phase's budget already spent when it starts,
    and whether the budget's timer fired before the end. *)
Record stage_oracle := {
  so_pre_lock : lock_oracle;
  so_post_lock : lock_oracle;
  so_exec : phase -> result ending string;
  so_elapsed : phase -> Z;
  so_timer_fired : phase -> bool
}.

Definition phase_budget (l : LockConfig) : option Z :=
  if lk_enabled l && (0 <? lk_timeout_secs l) then Some (lk_timeout_secs l) else None.

Definition exec_code (r : result ending string) : result Z string :=
  match r with Ok e => Ok (exit_code_of e) | Err e => Err e end.

(** A script under its phase budget. *)
Definition run_script (o : stage_oracle) (p : phase) (label script : string) (env : gmap string string) (budget : option Z)
    : result Z string * list action :=
  let timeout := (fun total => saturating_sub total (so_elapsed o p)) <$> budget in
  (exec_code (so_exec o p),
   Run p script env timeout false ::
   match budget with
   | Some total =>
       if so_timer_fired o p then
         [Log (label +:+ " Phase timeout " +:+ pretty total +:+ "s exceeded — sending SIGTERM")%string true] else []
   | None => []
   end).

Definition post_environment (env : gmap string string) (command_exit_code : Z) (was_cancelled : bool) : gmap string string :=
  <["STAGE_WAS_CANCELLED" := if was_cancelled then "true" else "false"]>
    (<["STAGE_EXIT_CODE" := pretty command_exit_code]> env).

Definition running_log (label kind script : string) : action :=
  Log (label +:+ " Running " +:+ kind +:+ " (" +:+ pretty (length (str_lines script)) +:+ " lines)...")%string false.

Definition run_post_script (o : stage_oracle) (post_script : string) (environment : gmap string string)
    (command_exit_code : Z) (was_cancelled : bool) (lock_config : LockConfig) : option (option Z * list action) :=
  if bool_decide (post_script = EmptyString) then Some (None, [])
  else
    '(lock_acts, release) ← (if lock_config.(lk_enabled) then
       let resolved := resolve_key lock_config environment in
       '(r, acts) ← acquire_flock (so_post_lock o) resolved (lk_timeout_secs lock_config);
       Some (match r with
             | Ok _ => (acts, [Released (lock_path (lo_unicode (so_post_lock o)) resolved)])
             | Err e => (acts ++ [Log ("[LOCK] Post-script lock failed: " +:+ e)%string true], [])
             end)
     else Some ([], []));
    let '(r, run_acts) := run_script o Post "[POST]" post_script
                            (post_environment environment command_exit_code was_cancelled) (phase_budget lock_config) in
    let '(code, log) :=
      match r with
      | Ok code =>
          (code, if negb (code =? 0) then Log ("[POST] Post-script failed (exit code " +:+ pretty code +:+ ")")%string true
                 else Log "[POST] Post-script completed successfully" false)
      | Err e => (-1, Log ("[POST] Post-script error: " +:+ e)%string true)
      end in
    Some (Some code, lock_acts ++ [running_log "[POST]" "post-script" post_script] ++ run_acts ++ [log] ++ release).

(** Phase 1: the pre-script's exit code and whether the command may run. *)
Definition run_pre_script (o : stage_oracle) (pre_script : string) (environment : gmap string string) (pre_script_lock : LockConfig)
    : option (option Z * bool * list action) :=
  if bool_decide (pre_script = EmptyString) then Some (None, true, [])
  else
    let run (release : list action) :=
      let '(r, run_acts) := run_script o Pre "[PRE]" pre_script environment (phase_budget pre_script_lock) in
      let acts := [running_log "[PRE]" "pre-script" pre_script] ++ run_acts in
      match r with
      | Ok code =>
          if negb (code =? 0) then
            (Some code, false, acts ++ [Log ("[PRE] Pre-script failed (exit code " +:+ pretty code +:+ ")")%string true] ++ release)
          else (Some code, true, acts ++ [Log "[PRE] Pre-script completed successfully" false] ++ release)
      | Err _ => (Some (-1), false, acts ++ release)
      end in
    if pre_script_lock.(lk_enabled) then
      let resolved := resolve_key pre_script_lock environment in
      '(r, lock_acts) ← acquire_flock (so_pre_lock o) resolved (lk_timeout_secs pre_script_lock);
      match r with
      | Ok _ =>
          let '(code, go, acts) := run [Released (lock_path (lo_unicode (so_pre_lock o)) resolved)] in
          Some (code, go, lock_acts ++ acts)
      | Err e => Some (Some (-1), false, lock_acts ++ [Log ("[LOCK] Failed to acquire lock: " +:+ e)%string true])
      end
    else Some (run []).

(** Phase 2: the command's exit code and whether it was cancelled. *)
Definition run_command (o : stage_oracle) (command : string) (max_duration_secs : Z) (secret_values : list string)
    (environment : gmap string string) : Z * bool * list action :=
  let timeout := if 0 <? max_duration_secs then Some max_duration_secs else None in
  let acts := [Log ("[CMD] Running: " +:+ mask_command_secrets command secret_values)%string false;
               Run Cmd command environment timeout true] in
  match exec_code (so_exec o Cmd) with
  | Ok code => (code, code <? 0, acts)
  | Err _ => (-1, false, acts)
  end.

Definition run_stage (o : stage_oracle) (command pre_script post_script : string) (max_duration_secs : Z)
    (secret_values : list string) (environment : gmap string string) (pre_script_lock post_script_lock : LockConfig)
    : option (StageResult * list action) :=
  '(pre_exit_code, go, pre_acts) ← run_pre_script o pre_script environment pre_script_lock;
  if (go : bool) then
    let '(command_exit_code, was_cancelled, cmd_acts) := run_command o command max_duration_secs secret_values environment in
    '(post_exit_code, post_acts) ← run_post_script o post_script environment command_exit_code was_cancelled post_script_lock;
    Some ({| sr_pre_exit_code := pre_exit_code;
             sr_command_exit_code := command_exit_code;
             sr_post_exit_code := post_exit_code;
             sr_final_state :=
               if was_cancelled then SCancelled else if negb (command_exit_code =? 0) then SFailed else SSuccess |},
          pre_acts ++ cmd_acts ++ post_acts)
  else
    '(post_exit_code, post_acts) ← run_post_script o post_script environment (-1) false post_script_lock;
    Some ({| sr_pre_exit_code := pre_exit_code;
             sr_command_exit_code := -1;
             sr_post_exit_code := post_exit_code;
             sr_final_state := SFailed |},
          pre_acts ++ post_acts).

(** ** Waiting for a lock ends *)

(** The deadline is checked once per attempt, 500 ms apart. *)
Definition timely (o : lock_oracle) : Prop := forall n, 500 * Z.of_nat n <= lo_elapsed o n.

Lemma flock_loop_spec o key t : timely o ->
  forall fuel n, (flock_fuel t <= fuel + n)%nat -> (0 < fuel)%nat -> exists r acts,
    flock_loop o key t fuel n = Some (r, acts) /\
    match r with
    | Ok _ => exists m, (n <= m)%nat /\ lo_flock o m = Locked /\ (forall i, (n <= i < m)%nat -> lo_flock o i = WouldBlock) /\
        acts = [lock_log (lo_ts o 1) ("Acquired flock: " +:+ key)%string false; Acquired (lock_path (lo_unicode o) key)]
    | Err _ => (exists m, (exists e, lo_flock o m = FlockError e) \/ (lo_flock o m = WouldBlock /\ 1000 * Z.max t 1 <= lo_elapsed o m)) /\
        Forall (fun a => match a with Log _ _ => True | _ => False end) acts
    end.
Proof.
  intros Ht fuel. induction fuel as [|fuel IH]; intros n Hf Hp; [lia|]. cbn [flock_loop]. destruct (lo_flock o n) as [| |e] eqn:El.
  - eexists _, _. split; [reflexivity|]. exists n. split_and!; [done|done|lia|done].
  - destruct (Z.leb_spec (1000 * Z.max t 1) (lo_elapsed o n)).
    + eexists _, _. split; [reflexivity|]. split; [exists n; by right|by repeat constructor].
    + specialize (Ht n). unfold flock_fuel in *. destruct (IH (S n)) as (r & acts & E & Hr); [lia..|].
      exists r, acts. split; [done|]. destruct r as [u|e]; [|done]. destruct Hr as (m & Hm & Hl & Hw & Ha).
      exists m. split_and!; [lia|done| |done]. intros i Hi. destruct (decide (i = n)) as [->|]; [done|apply Hw; lia].
  - eexists _, _. split; [reflexivity|]. split; [exists n; eauto|constructor].
Qed.

(** Waiting for a script lock ends: with an attempt every half second, the
    attempts allowed by [flock_fuel] reach the deadline. The lock is granted
    exactly at an attempt the system granted, all earlier ones having found it
    taken; a refusal means that the directory or the file of the lock could not be
    opened, [flock] failed, or the whole timeout (a second at least) was waited, and holds nothing. *)
Theorem acquire_flock_ends (o : lock_oracle) (resolved_key : string) (timeout_secs : Z) :
  timely o ->
  exists r acts, acquire_flock o resolved_key timeout_secs = Some (r, acts) /\
    match r with
    | Ok _ => exists m, lo_flock o m = Locked /\ (forall i, (i < m)%nat -> lo_flock o i = WouldBlock) /\
        Acquired (lock_path (lo_unicode o) resolved_key) ∈ acts
    | Err _ => (lo_dir o <> Ok tt \/ lo_open o <> Ok tt \/ exists m, (exists e, lo_flock o m = FlockError e) \/
                  (lo_flock o m = WouldBlock /\ 1000 * Z.max timeout_secs 1 <= lo_elapsed o m)) /\
        forall p, Acquired p ∉ acts
    end.
Proof.
  intros Ht. unfold acquire_flock. destruct (lo_dir o) as [[]|e] eqn:Es; [destruct (lo_open o) as [[]|e] eqn:Eo|].
  - destruct (flock_loop_spec o resolved_key timeout_secs Ht (flock_fuel timeout_secs) 0) as (r & acts & E & Hr);
      [lia|unfold flock_fuel; lia|].
    rewrite E. simpl. eexists _, _. split; [reflexivity|]. destruct r as [[]|e].
    + destruct Hr as (m & _ & Hl & Hw & ->). exists m. split_and!; [done|intros i Hi; apply Hw; lia|]. right. right. left.
    + destruct Hr as [Hm Ha]. split; [by right; right|]. intros p [Hp|Hp]%elem_of_cons; [done|]. rewrite Forall_forall in Ha. by apply Ha in Hp.
  - eexists _, _. split; [reflexivity|]. split; [by right; left|]. by intros p [?|?%elem_of_nil]%elem_of_cons.
  - eexists _, _. split; [reflexivity|]. split; [by left|]. by intros p ?%elem_of_nil.
Qed.

Definition sample_lock (n : nat) : lock_oracle := {|
  lo_dir := Ok tt;
  lo_open := Ok tt;
  lo_flock i := if (i <? n)%nat then WouldBlock else Locked;
  lo_elapsed i := 500 * Z.of_nat i;
  lo_ts _ := "10:00:00.000";
  lo_unicode _ := false |}.

Lemma sample_lock_timely n : timely (sample_lock n).
Proof. intros i. simpl. lia. Qed.

Lemma acquire_flock_ends_witness :
  (exists acts, acquire_flock (sample_lock 3) "w1-chola/core" 2 = Some (Ok tt, acts) /\ Acquired "/tmp/chola-locks/w1-chola_core.lock" ∈ acts) /\
  (exists e acts, acquire_flock (sample_lock 9) "k" 2 = Some (Err e, acts) /\ forall p, Acquired p ∉ acts).
Proof.
  split.
  - destruct (acquire_flock_ends (sample_lock 3) "w1-chola/core" 2 (sample_lock_timely 3)) as ([[]|e] & acts & E & H).
    + destruct H as (m & _ & _ & Ha). by exists acts.
    + vm_compute in E. discriminate.
  - destruct (acquire_flock_ends (sample_lock 9) "k" 2 (sample_lock_timely 9)) as ([[]|e] & acts & E & H).
    + vm_compute in E. discriminate.
    + destruct H as [_ Ha]. by exists e, acts.
Defined.

(** ** What runs, and under which locks *)

(** The phases executed, each with the locks held then, and the locks left. *)
Fixpoint executions (held : list string) (acts : list action) : list (phase * list string) * list string :=
  match acts with
  | [] => ([], held)
  | Log _ _ :: acts' => executions held acts'
  | Acquired p :: acts' => executions (p :: held) acts'
  | Released p :: acts' => executions (filter (fun q => q <> p) held) acts'
  | Run p _ _ _ _ :: acts' => let '(xs, h) := executions held acts' in ((p, held) :: xs, h)
  end.

Lemma executions_app h a b :
  executions h (a ++ b) = let '(xs, h1) := executions h a in let '(ys, h2) := executions h1 b in (xs ++ ys, h2).
Proof.
  revert h. induction a as [|[] a IH]; intros h; simpl; [by destruct (executions h b)|apply IH..|].
  rewrite IH. destruct (executions h a) as [xs h1]. by destruct (executions h1 b).
Qed.

Lemma executions_logs h acts :
  Forall (fun a => match a with Log _ _ => True | _ => False end) acts -> executions h acts = ([], h).
Proof. intros H. induction H as [|[] acts Ha H IH]; simpl; done. Qed.

(** Whether the lock of a script is granted. *)
Definition lock_granted (o : lock_oracle) (l : LockConfig) (env : gmap string string) : bool :=
  match acquire_flock o (resolve_key l env) (lk_timeout_secs l) with Some (Ok _, _) => true | _ => false end.

Lemma acquire_executions o key t : timely o -> exists r acts,
  acquire_flock o key t = Some (r, acts) /\
  forall h, executions h acts = ([], if is_ok r then lock_path (lo_unicode o) key :: h else h).
Proof.
  intros Ht. unfold acquire_flock. destruct (lo_dir o) as [[]|e]; [destruct (lo_open o) as [[]|e]|]; [|by eexists _, _..].
  destruct (flock_loop_spec o key t Ht (flock_fuel t) 0) as (r & acts & E & Hr); [lia|unfold flock_fuel; lia|].
  rewrite E. simpl. eexists _, _. split; [reflexivity|]. intros h. simpl. destruct r as [[]|e].
  - by destruct Hr as (m & _ & _ & _ & ->).
  - destruct Hr as [_ Ha]. by apply executions_logs.
Qed.

Lemma filter_held p : filter (fun q : string => q <> p) [p] = [].
Proof. rewrite filter_cons_False; [done|]. intros H. by apply H. Qed.

(** The locks a script runs under. *)
Definition script_locks (o : lock_oracle) (l : LockConfig) (env : gmap string string) : list string :=
  if lk_enabled l && lock_granted o l env then [lock_path (lo_unicode o) (resolve_key l env)] else [].

Lemma run_script_executions o p label script env budget h :
  executions h (run_script o p label script env budget).2 = ([(p, h)], h).
Proof. unfold run_script. simpl. destruct budget; [destruct (so_timer_fired o p)|]; done. Qed.

Lemma run_post_executions o post env code cancelled l : timely (so_post_lock o) -> exists c acts,
  run_post_script o post env code cancelled l = Some (c, acts) /\ (c = None <-> post = EmptyString) /\
  executions [] acts = (if bool_decide (post = EmptyString) then [] else [(Post, script_locks (so_post_lock o) l env)], []).
Proof.
  intros Ht. unfold run_post_script. case_bool_decide as Hp; [by eexists _, _|].
  pose proof (run_script_executions o Post "[POST]" post (post_environment env code cancelled) (phase_budget l)) as Hx.
  destruct (run_script _ _ _ _ _ _) as [r racts]. simpl in Hx.
  unfold script_locks, lock_granted. destruct (lk_enabled l); simpl.
  - destruct (acquire_executions (so_post_lock o) (resolve_key l env) (lk_timeout_secs l) Ht) as (lr & lacts & El & Hl).
    rewrite El. simpl. destruct lr as [[]|e]; simpl in *; destruct r as [c|e']; simpl.
    all: eexists _, _; (split; [reflexivity|]); (split; [done|]); rewrite ?executions_app, Hl; simpl.
    all: rewrite executions_app, Hx; simpl; try destruct (negb _); simpl; by rewrite ?filter_held.
  - destruct r as [c|e']; simpl; eexists _, _; (split; [reflexivity|]); (split; [done|]).
    all: simpl; rewrite executions_app, Hx; simpl; by try destruct (negb _).
Qed.

(** The command runs unless a pre-script was refused its lock or failed. *)
Definition pre_passed (o : stage_oracle) (pre_script : string) (l : LockConfig) (env : gmap string string) : bool :=
  bool_decide (pre_script = EmptyString)
  || ((negb (lk_enabled l) || lock_granted (so_pre_lock o) l env) && match exec_code (so_exec o Pre) with Ok c => c =? 0 | Err _ => false end).

Definition pre_runs (o : stage_oracle) (pre_script : string) (l : LockConfig) (env : gmap string string) : list (phase * list string) :=
  if bool_decide (pre_script = EmptyString) || (lk_enabled l && negb (lock_granted (so_pre_lock o) l env)) then []
  else [(Pre, script_locks (so_pre_lock o) l env)].

Lemma run_pre_executions o pre env l : timely (so_pre_lock o) -> exists c acts,
  run_pre_script o pre env l = Some (c, pre_passed o pre l env, acts) /\ (c = None <-> pre = EmptyString) /\
  executions [] acts = (pre_runs o pre l env, []).
Proof.
  intros Ht. unfold run_pre_script, pre_passed, pre_runs.
  pose proof (run_script_executions o Pre "[PRE]" pre env (phase_budget l)) as Hx.
  assert (Hr : (run_script o Pre "[PRE]" pre env (phase_budget l)).1 = exec_code (so_exec o Pre)) by done.
  destruct (run_script _ _ _ _ _ _) as [r racts]. simpl in Hx, Hr. subst r.
  case_bool_decide as Hp; [by eexists _, _|]. simpl. unfold script_locks, lock_granted. destruct (lk_enabled l); simpl.
  - destruct (acquire_executions (so_pre_lock o) (resolve_key l env) (lk_timeout_secs l) Ht) as (lr & lacts & El & Hl).
    rewrite El. simpl. destruct lr as [[]|e]; simpl in *.
    + destruct (exec_code (so_exec o Pre)) as [c|e]; [destruct (c =? 0)|]; simpl.
      all: eexists _, _; (split; [reflexivity|]); (split; [done|]); rewrite ?executions_app, Hl; simpl.
      all: rewrite executions_app, Hx; simpl; by rewrite ?filter_held.
    + eexists _, _. split; [reflexivity|]. split; [done|]. by rewrite executions_app, Hl.
  - destruct (exec_code (so_exec o Pre)) as [c|e]; [destruct (c =? 0)|]; simpl.
    all: eexists _, _; (split; [reflexivity|]); (split; [done|]); simpl; by rewrite executions_app, Hx.
Qed.

Lemma run_stage_spec (o : stage_oracle) (command pre_script post_script : string) (max_duration_secs : Z)
    (secret_values : list string) (env : gmap string string) (pre_lock post_lock : LockConfig) :
  timely (so_pre_lock o) -> timely (so_post_lock o) ->
  exists r acts,
    run_stage o command pre_script post_script max_duration_secs secret_values env pre_lock post_lock = Some (r, acts) /\
    executions [] acts =
      (pre_runs o pre_script pre_lock env
       ++ (if pre_passed o pre_script pre_lock env then [(Cmd, [])] else [])
       ++ (if bool_decide (post_script = EmptyString) then [] else [(Post, script_locks (so_post_lock o) post_lock env)]), []) /\
    (sr_pre_exit_code r = None <-> pre_script = EmptyString) /\ (sr_post_exit_code r = None <-> post_script = EmptyString) /\
    (sr_command_exit_code r, sr_final_state r) =
      match pre_passed o pre_script pre_lock env, exec_code (so_exec o Cmd) with
      | true, Ok c => (c, if c <? 0 then SCancelled else if c =? 0 then SSuccess else SFailed)
      | _, _ => (-1, SFailed)
      end.
Proof.
  intros H1 H2. unfold run_stage.
  destruct (run_pre_executions o pre_script env pre_lock H1) as (pc & pacts & -> & Hpc & Hpx). simpl.
  destruct (pre_passed o pre_script pre_lock env).
  - unfold run_command.
    assert (Hk : forall code cancelled, exists qc qacts,
      run_post_script o post_script env code cancelled post_lock = Some (qc, qacts) /\ (qc = None <-> post_script = EmptyString) /\
      executions [] qacts = (if bool_decide (post_script = EmptyString) then [] else [(Post, script_locks (so_post_lock o) post_lock env)], []))
      by (intros; by apply run_post_executions).
    destruct (exec_code (so_exec o Cmd)) as [c|e].
    + destruct (Hk c (c <? 0)) as (qc & qacts & -> & Hqc & Hqx). simpl. eexists _, _. split; [reflexivity|].
      rewrite executions_app, Hpx. simpl. rewrite Hqx. split_and!; [done|done|done|]. simpl. by destruct (c <? 0), (c =? 0).
    + destruct (Hk (-1) false) as (qc & qacts & -> & Hqc & Hqx). simpl. eexists _, _. split; [reflexivity|].
      rewrite executions_app, Hpx. simpl. by rewrite Hqx.
  - destruct (run_post_executions o post_script env (-1) false post_lock H2) as (qc & qacts & -> & Hqc & Hqx). simpl.
    eexists _, _. split; [reflexivity|]. by rewrite executions_app, Hpx, Hqx.
Qed.

(** C20. What a stage does, on every path. The phases run in the order pre-script,
    command, post-script; the command runs unless a pre-script was refused its
    lock or did not exit with 0; a post-script, when there is one, always runs
    last, whether the pre-script failed, the command failed or was cancelled, or
    its own lock was refused. The pre-script holds its lock only while it runs,
    the command holds none, and every lock is released at the end. The command's
    exit code alone decides the outcome: success on 0, failure on a positive code
    or when it could not run, cancelled on a negative one; what the post-script
    does never changes it. *)
Theorem stage_outcome (o : stage_oracle) (command pre_script post_script : string) (max_duration_secs : Z)
    (secret_values : list string) (env : gmap string string) (pre_lock post_lock : LockConfig) :
  timely (so_pre_lock o) -> timely (so_post_lock o) ->
  exists r acts,
    run_stage o command pre_script post_script max_duration_secs secret_values env pre_lock post_lock = Some (r, acts) /\
    executions [] acts =
      (pre_runs o pre_script pre_lock env
       ++ (if pre_passed o pre_script pre_lock env then [(Cmd, [])] else [])
       ++ (if bool_decide (post_script = EmptyString) then [] else [(Post, script_locks (so_post_lock o) post_lock env)]), []) /\
    (sr_pre_exit_code r = None <-> pre_script = EmptyString) /\ (sr_post_exit_code r = None <-> post_script = EmptyString) /\
    (sr_command_exit_code r, sr_final_state r) =
      match pre_passed o pre_script pre_lock env, exec_code (so_exec o Cmd) with
      | true, Ok c => (c, if c <? 0 then SCancelled else if c =? 0 then SSuccess else SFailed)
      | _, _ => (-1, SFailed)
      end.
Proof. apply run_stage_spec. Qed.

Definition sample_stage (pre cmd : result ending string) : stage_oracle := {|
  so_pre_lock := sample_lock 2;
  so_post_lock := sample_lock 9;
  so_exec p := match p with Pre => pre | Cmd => cmd | Post => Ok (Exited (Some 3)) end;
  so_elapsed _ := 1;
  so_timer_fired _ := false |}.

Definition sample_script_lock (key : string) : LockConfig :=
  {| lk_enabled := true; lk_lock_key := key; lk_timeout_secs := 2; lk_scope := "worker" |}.

(** A failed pre-script and a successful command, both with a post-script that
    fails and does not get its lock. *)
Lemma stage_outcome_witness :
  (exists r acts, run_stage (sample_stage (Ok (Exited (Some 1))) (Ok (Exited (Some 0)))) "make" "setup" "clean" 0 [] ∅
      (sample_script_lock "pre") (sample_script_lock "post") = Some (r, acts) /\
    (executions [] acts).1 = [(Pre, ["/tmp/chola-locks/pre.lock"]); (Post, [])] /\ sr_final_state r = SFailed) /\
  (exists r acts, run_stage (sample_stage (Ok (Exited (Some 0))) (Ok (Exited (Some 0)))) "make" "setup" "clean" 0 [] ∅
      (sample_script_lock "pre") (sample_script_lock "post") = Some (r, acts) /\
    (executions [] acts).1 = [(Pre, ["/tmp/chola-locks/pre.lock"]); (Cmd, []); (Post, [])] /\ sr_final_state r = SSuccess).
Proof.
  split.
  - destruct (stage_outcome (sample_stage (Ok (Exited (Some 1))) (Ok (Exited (Some 0)))) "make" "setup" "clean" 0 [] ∅
      (sample_script_lock "pre") (sample_script_lock "post") (sample_lock_timely 2) (sample_lock_timely 9)) as (r & acts & E & Hx & _ & _ & Hf).
    exists r, acts. split; [done|]. rewrite Hx. split; [vm_compute; reflexivity|]. vm_compute in Hf. by destruct r; injection Hf.
  - destruct (stage_outcome (sample_stage (Ok (Exited (Some 0))) (Ok (Exited (Some 0)))) "make" "setup" "clean" 0 [] ∅
      (sample_script_lock "pre") (sample_script_lock "post") (sample_lock_timely 2) (sample_lock_timely 9)) as (r & acts & E & Hx & _ & _ & Hf).
    exists r, acts. split; [done|]. rewrite Hx. split; [vm_compute; reflexivity|]. vm_compute in Hf. by destruct r; injection Hf.
Defined.

(** A command that a signal ends (the OOM killer, say) counts as cancelled,
    although nobody cancelled it: its missing exit code becomes -1, and negative
    codes mean cancellation. *)
Lemma killed_command_is_cancelled o command pre post t secrets env l1 l2 :
  timely (so_pre_lock o) -> timely (so_post_lock o) -> pre_passed o pre l1 env = true -> so_exec o Cmd = Ok (Exited None) ->
  exists r acts, run_stage o command pre post t secrets env l1 l2 = Some (r, acts) /\ sr_final_state r = SCancelled.
Proof.
  intros H1 H2 Hp He. destruct (run_pre_executions o pre env l1 H1) as (pc & pacts & E1 & _ & _).
  destruct (run_post_executions o post env (status_code None) (status_code None <? 0) l2 H2) as (qc & qacts & E2 & _ & _).
  unfold run_stage. rewrite E1. simpl. rewrite Hp. unfold run_command. rewrite He. unfold exec_code, exit_code_of. rewrite E2. simpl. eauto.
Qed.

(** The scope of a lock has no influence: every lock is a file lock of the
    worker, also one whose scope says [controller]. *)
Lemma lock_scope_ignored o command pre post t secrets env l1 l2 s1 s2 :
  run_stage o command pre post t secrets env {| l1 with lk_scope := s1 |} {| l2 with lk_scope := s2 |} =
  run_stage o command pre post t secrets env l1 l2.
Proof. by destruct l1, l2. Qed.

(** ** Paths stay under the scratch root *)

(** A name that cannot leave the directory it is joined to. *)
Definition separator (c : ascii) : bool := bool_decide (c = "/"%char) || bool_decide (c = "\"%char).

Fixpoint has_dotdot (s : string) : bool :=
  match s with
  | EmptyString => false
  | String _ s' => starts_with ".." s || has_dotdot s'
  end.

Definition plain (s : string) : bool := str_forallb (fun c => negb (separator c)) s && negb (has_dotdot s).

Lemma starts_dot c s : starts_with ".." (String c s) = bool_decide ("."%char = c) && starts_with "." s.
Proof. simpl. destruct s; simpl; by rewrite ?andb_true_r. Qed.

(** After the first replacement no two dots are adjacent: a dot that stays is
    followed by something else, which stays too. *)
Lemma replace_dots fuel s : (String.length s <= fuel)%nat ->
  has_dotdot (replace_loop fuel ".." EmptyString s) = false /\
  (starts_with "." s = false -> starts_with "." (replace_loop fuel ".." EmptyString s) = false).
Proof.
  revert s. induction fuel as [|fuel IH]; intros s Hf; [by destruct s; simpl in *; [|lia]|].
  destruct s as [|c s]; [done|]. cbn [replace_loop].
  destruct (starts_with ".." (String c s)) eqn:Hs.
  - destruct s as [|d s]; [by rewrite starts_dot, andb_false_r in Hs|]. simpl in Hf.
    change (EmptyString +:+ ?x)%string with x. destruct (IH s) as [H _]; [lia|]. split; [exact H|].
    intros Hd. exfalso. rewrite starts_dot in Hs. apply andb_prop in Hs as [Hc _]. simpl in Hd. rewrite Hc in Hd. done.
  - simpl in Hf. destruct (IH s) as [H1 H2]; [lia|]. split; [|done].
    cbn [has_dotdot]. rewrite H1, orb_false_r, starts_dot. rewrite starts_dot in Hs.
    destruct (bool_decide _); [|done]. simpl in *. auto.
Qed.

Lemma replace_separators_sep s : str_forallb (fun c => negb (separator c)) (replace_separators s) = true.
Proof.
  induction s as [|c s IH]; [done|]. simpl. rewrite IH, andb_true_r. fold (separator c). by destruct (separator c) eqn:E; simpl; rewrite ?E.
Qed.

Lemma replace_separators_dot s : starts_with "." (replace_separators s) = starts_with "." s.
Proof.
  destruct s as [|c s]; [done|]. simpl. f_equal. fold (separator c).
  destruct (separator c) eqn:E; [|done]. unfold separator in E. rewrite !bool_decide_eq_false_2; [done| |done].
  intros <-. done.
Qed.

Lemma replace_separators_dotdot s : has_dotdot (replace_separators s) = has_dotdot s.
Proof.
  induction s as [|c s IH]; [done|]. cbn [replace_separators has_dotdot]. fold (separator c). rewrite IH, !starts_dot, replace_separators_dot.
  destruct (separator c) eqn:E; [|done]. unfold separator in E. rewrite !bool_decide_eq_false_2; [done| |done]. intros <-. done.
Qed.

Lemma sanitize_plain s : plain (sanitize_path_component s) = true.
Proof.
  unfold plain, sanitize_path_component. rewrite replace_separators_sep, replace_separators_dotdot.
  unfold replace. by rewrite (proj1 (replace_dots _ s (le_n _))).
Qed.

(** A plain name is kept as it is. *)
Lemma sanitize_id s : plain s = true -> sanitize_path_component s = s.
Proof.
  unfold plain, sanitize_path_component, replace. intros [Hs Hd]%andb_prop. apply negb_true_iff in Hd.
  assert (E : replace_loop (String.length s) ".." EmptyString s = s).
  { clear Hs. generalize (String.length s) as fuel. intros fuel. revert s Hd. induction fuel as [|fuel IH]; intros [|c s] Hd; [done..|].
    cbn [replace_loop has_dotdot] in *. apply orb_false_iff in Hd as [H1 H2]. by rewrite H1, IH. }
  rewrite E. clear E Hd. induction s as [|c s IH]; [done|]. simpl in *. apply andb_prop in Hs as [Hc Hs]. fold (separator c).
  apply negb_true_iff in Hc. by rewrite Hc, IH.
Qed.

Lemma plain_app_log s : plain s = true -> starts_with "/" (s +:+ ".log") = false.
Proof.
  intros [H _]%andb_prop. destruct s as [|c s]; [done|]. simpl in H. apply andb_prop in H as [H _].
  apply negb_true_iff in H. unfold separator in H. apply orb_false_iff in H as [H _].
  apply bool_decide_eq_false in H. simpl. by rewrite bool_decide_eq_false_2 by congruence.
Qed.

Lemma plain_relative s : plain s = true -> starts_with "/" s = false.
Proof.
  intros [H _]%andb_prop. destruct s as [|c s]; [done|]. simpl in H. apply andb_prop in H as [H _].
  apply negb_true_iff in H. unfold separator in H. apply orb_false_iff in H as [H _].
  apply bool_decide_eq_false in H. simpl. by rewrite bool_decide_eq_false_2 by congruence.
Qed.

(** A directory written without a final separator. *)
Definition proper_dir (d : string) : Prop := d <> EmptyString /\ String.get (String.length d - 1) d <> Some "/"%char.

Lemma path_join_proper d c : proper_dir d -> starts_with "/" c = false -> path_join d c = (d +:+ "/" +:+ c)%string.
Proof. intros [H1 H2] Hc. unfold path_join. by rewrite Hc, !bool_decide_eq_false_2. Qed.

Lemma get_last_app a b :
  String.get (String.length (a +:+ "/" +:+ b) - 1) (a +:+ "/" +:+ b) = String.get (String.length b) (String "/" b).
Proof.
  change ("/" +:+ b)%string with (String "/" b). rewrite str_length_app. simpl.
  replace (_ + S _ - 1)%nat with (String.length a + String.length b)%nat by lia.
  induction a as [|x a IH]; [done|]. exact IH.
Qed.

(** Where the file names of a group are written. *)
Definition group_dir (scratch_root job_group_id : string) : string :=
  let g := sanitize_path_component job_group_id in
  (scratch_root +:+ "/" +:+ (if bool_decide (g = EmptyString) then EmptyString else g +:+ "/"))%string.

Lemma path_join_group d gid c : proper_dir d -> starts_with "/" c = false ->
  path_join (path_join d (sanitize_path_component gid)) c = (group_dir d gid +:+ c)%string.
Proof.
  intros Hd Hc. unfold group_dir. pose proof (sanitize_plain gid) as Hp. set (g := sanitize_path_component gid) in *. clearbody g.
  rewrite (path_join_proper d g) by (done || by apply plain_relative).
  unfold path_join. rewrite Hc. destruct (bool_decide_reflect (g = EmptyString)) as [->|Hg]; cbv zeta.
  - rewrite bool_decide_eq_false_2.
    + rewrite bool_decide_eq_true_2; [by rewrite !str_app_assoc|]. by rewrite get_last_app.
    + intros E. apply (f_equal String.length) in E. rewrite str_length_app in E. simpl in E. lia.
  - rewrite bool_decide_eq_false_2.
    + rewrite bool_decide_eq_false_2; [by rewrite !str_app_assoc|]. rewrite get_last_app. intros E.
      assert (Hin : forall s, plain s = true -> s <> EmptyString -> String.get (String.length s - 1) s <> Some "/"%char).
      { clear. intros s [H _]%andb_prop. induction s as [|c s IH]; [done|]. intros _ E. simpl in H.
        apply andb_prop in H as [Hc H]. destruct s as [|d s].
        - injection E as ->. done.
        - apply (IH H); [done|]. simpl in *. by rewrite Nat.sub_0_r. }
      apply (Hin g Hp Hg). destruct g as [|x g]; [done|]. simpl in *. by rewrite Nat.sub_0_r.
    + intros E. apply (f_equal String.length) in E. rewrite str_length_app in E. simpl in E. lia.
Qed.

Lemma resolve_paths_spec (scratch_root log_dir work_dir : string) (created startup : option timestamp)
    (job_group_id stage_name job_id : string) :
  proper_dir scratch_root -> job_group_id <> EmptyString ->
  let p := resolve_paths scratch_root log_dir work_dir created startup job_group_id stage_name job_id in
  let name := if bool_decide (stage_name = EmptyString) then job_id else stage_name in
  exists g s, plain g = true /\ plain s = true /\
    (plain job_group_id = true -> g = job_group_id) /\ (plain name = true -> s = name) /\
    let dir := (scratch_root +:+ "/" +:+ (if bool_decide (g = EmptyString) then EmptyString else g +:+ "/"))%string in
    rp_log_path p = (dir +:+ "logs/" +:+ s +:+ ".log")%string /\
    rp_workspace_dir p = (dir +:+ "workspace")%string /\
    rp_stages_dir p = Some (dir +:+ "stages")%string /\
    rp_stage_dir p =
      (if bool_decide (stage_name = EmptyString) || bool_decide (stage_name = "__cleanup__") then None
       else Some (dir +:+ "stages/" +:+ s)%string).
Proof.
  intros Hd Hg p name. exists (sanitize_path_component job_group_id), (sanitize_path_component name).
  do 2 (split; [apply sanitize_plain|]). do 2 (split; [apply sanitize_id|]). intros dir.
  unfold p, resolve_paths. rewrite (bool_decide_eq_false_2 (job_group_id = EmptyString)) by done.
  change (negb false) with true. cbv iota.
  change dir with (group_dir scratch_root job_group_id). set (gd := group_dir scratch_root job_group_id).
  assert (Hjoin : forall c, starts_with "/" c = false ->
    path_join (path_join scratch_root (sanitize_path_component job_group_id)) c = (gd +:+ c)%string)
    by (intros c Hc; by apply path_join_group).
  assert (Hsub : forall w c, starts_with "/" c = false -> w <> EmptyString -> String.get (String.length w - 1) w <> Some "/"%char ->
    path_join (gd +:+ w) c = (gd +:+ w +:+ "/" +:+ c)%string).
  { intros w c Hc Hw Hl. rewrite path_join_proper; [by rewrite !str_app_assoc| |done]. split.
    - intros E. apply (f_equal String.length) in E. rewrite str_length_app in E. destruct w; [done|simpl in E; lia].
    - intros E. apply Hl. rewrite <- E. clear - Hw. destruct w as [|x w]; [done|]. rewrite str_length_app. simpl. rewrite Nat.sub_0_r.
      replace (_ + S _ - 1)%nat with (String.length gd + String.length w)%nat by lia.
      generalize gd as a. intros a. induction a as [|y a IH]; [done|]. exact IH. }
  assert (Es : (if bool_decide (stage_name = EmptyString) then sanitize_path_component job_id else sanitize_path_component stage_name)
    = sanitize_path_component name) by (unfold name; by case_bool_decide).
  cbn [rp_log_path rp_workspace_dir rp_stages_dir rp_stage_dir]. rewrite Es, !Hjoin by done.
  pose proof (sanitize_plain name) as Hp. split_and!; [|done|done|].
  - rewrite (Hsub "logs") by (done || by apply plain_app_log). done.
  - destruct (_ || _); [done|]. rewrite (Hsub "stages") by (done || by apply plain_relative). done.
Qed.

(** The files of a grouped stage stay in the directory of its group: whatever
    the group id, stage name and job id are, the log, the workspace and the stage
    directory are the group's directory under the scratch root followed by fixed
    names and by one component made from the stage (or job) name, and no
    component has a separator or two adjacent dots; an id without those is kept
    as it is. Clean-up stages and stages without a name have no directory. *)
Theorem resolve_paths_confined (scratch_root log_dir work_dir : string) (created startup : option timestamp)
    (job_group_id stage_name job_id : string) :
  proper_dir scratch_root -> job_group_id <> EmptyString ->
  let p := resolve_paths scratch_root log_dir work_dir created startup job_group_id stage_name job_id in
  let name := if bool_decide (stage_name = EmptyString) then job_id else stage_name in
  exists g s, plain g = true /\ plain s = true /\
    (plain job_group_id = true -> g = job_group_id) /\ (plain name = true -> s = name) /\
    let dir := (scratch_root +:+ "/" +:+ (if bool_decide (g = EmptyString) then EmptyString else g +:+ "/"))%string in
    rp_log_path p = (dir +:+ "logs/" +:+ s +:+ ".log")%string /\
    rp_workspace_dir p = (dir +:+ "workspace")%string /\
    rp_stages_dir p = Some (dir +:+ "stages")%string /\
    rp_stage_dir p =
      (if bool_decide (stage_name = EmptyString) || bool_decide (stage_name = "__cleanup__") then None
       else Some (dir +:+ "stages/" +:+ s)%string).
Proof. apply resolve_paths_spec. Qed.

Lemma resolve_paths_confined_witness :
  let p := resolve_paths "/scratch" "/logs" "/work" None None "../../etc" "a/../../b" "j" in
  exists g s, plain g = true /\ plain s = true /\ rp_log_path p = ("/scratch/" +:+ g +:+ "/logs/" +:+ s +:+ ".log")%string.
Proof.
  intros p. destruct (resolve_paths_confined "/scratch" "/logs" "/work" None None "../../etc" "a/../../b" "j")
    as (g & s & Hg & Hs & _ & _ & Hl & _).
  - split; [discriminate|]. vm_compute. discriminate.
  - discriminate.
  - exists g, s. split_and!; [done|done|]. fold p in Hl. rewrite Hl. destruct (bool_decide_reflect (g = EmptyString)) as [->|Hne].
    + exfalso. vm_compute in Hl. discriminate.
    + by rewrite !str_app_assoc.
Defined.
