(* ===== verification/Reconnect.v ===== *)
(** * The worker's reconnection (crates/ci-worker/src/reconnect.rs)

    The jobs a worker reports when it reconnects, and the retry loop with its
    exponential back-off. A [Duration] is its number of nanoseconds; the
    controller's answers and the random jitter are arguments, and the sleeps are
    the effects. *)

From Stdlib Require Import ZArith Lia SpecFloat.
From stdpp Require Import strings list pretty.
From S2P Require Import Prelude F64.

(** ** Durations *)

Definition from_millis (ms : Z) : Z := ms * 1000000.
Definition as_millis (d : Z) : Z := d / 1000000.

(** [Duration::as_secs_f64] *)
Definition as_secs_f64 (d : Z) : f64 :=
  F64.add (F64.of_Z (d / 1000000000)) (F64.div (F64.of_Z (d mod 1000000000)) (F64.of_Z 1000000000)).

(** [n / d] to the nearest integer, ties to even. *)
Definition round_half_even (n d : Z) : Z :=
  let q := n / d in
  let r := n mod d in
  if 2 * r <? d then q else if d <? 2 * r then q + 1 else if Z.even q then q else q + 1.

(** [Duration::from_secs_f64], which panics on a negative, infinite or too large
    number. *)
Definition from_secs_f64 (x : f64) : option Z :=
  match x with
  | S754_zero _ => Some 0
  | S754_finite false m e =>
      let n := Zpos m * 1000000000 in
      let d := if 0 <=? e then n * 2 ^ e else round_half_even n (2 ^ (- e)) in
      if d <? 2 ^ 64 * 1000000000 then Some d else None
  | _ => None
  end.

(** ** Configuration and state *)

Record ReconnectConfig := {
  rc_initial_backoff : Z;
  rc_max_backoff : Z;
  rc_multiplier : f64;
  rc_max_attempts : Z
}.

Definition ReconnectConfig_default : ReconnectConfig := {|
  rc_initial_backoff := from_millis 500;
  rc_max_backoff := secs 30;
  rc_multiplier := F64.of_decimal false 15 (-1);
  rc_max_attempts := 0
|}.

(** [message RunningJobInfo], [ReconnectRequest], [LogResumeDirective] and
    [ReconnectResponse] *)
Record RunningJobInfo := {
  rj_job_id : string;
  rj_state : Z;
  rj_log_offset : Z
}.

Record ReconnectRequest := {
  rq_worker_id : string;
  rq_running_jobs : list RunningJobInfo
}.

Record LogResumeDirective := {
  lr_job_id : string;
  lr_resume_from_offset : Z
}.

Record ReconnectResponse := {
  rp_log_resumes : list LogResumeDirective;
  rp_accepted : bool;
  rp_message : string
}.

(** The numbers of [enum JobState]: [JOB_STATE_RUNNING] is 3. *)
Definition PROTO_RUNNING : Z := 3.

(** [WorkerJobState::running_jobs] *)
Abbreviation WorkerJobState := (list RunningJobInfo) (only parsing).

Definition register_job (job_id : string) (log_offset : Z) (s : WorkerJobState) : WorkerJobState :=
  filter (fun j => rj_job_id j <> job_id) s
  ++ [{| rj_job_id := job_id; rj_state := PROTO_RUNNING; rj_log_offset := log_offset |}].

Definition complete_job (job_id : string) (s : WorkerJobState) : WorkerJobState :=
  filter (fun j => rj_job_id j <> job_id) s.

(** [iter_mut().find(..)]: the first entry only. *)
Fixpoint update_job_offset (job_id : string) (log_offset : Z) (s : WorkerJobState) : WorkerJobState :=
  match s with
  | [] => []
  | j :: s' =>
      if bool_decide (rj_job_id j = job_id) then {| j with rj_log_offset := log_offset |} :: s'
      else j :: update_job_offset job_id log_offset s'
  end.

Definition build_request (worker_id : string) (s : WorkerJobState) : ReconnectRequest :=
  {| rq_worker_id := worker_id; rq_running_jobs := s |}.

Definition process_resume_directives (response : ReconnectResponse) : list (string * Z) :=
  (fun d => (lr_job_id d, lr_resume_from_offset d)) <$> rp_log_resumes response.

Definition should_migrate_stage (allow_worker_migration stage_completed : bool) : bool :=
  allow_worker_migration && negb stage_completed.

(** ** The retry loop *)

(** How the call ends: the response and the number of attempts, the error after
    the last one, or a panic of [from_secs_f64]. *)
Inductive outcome :=
| Reconnected (response : ReconnectResponse) (attempts : Z)
| GaveUp (message : string)
| Panicked.

(** The next back-off; [jitter r] is the number drawn from [0..r]. *)
Definition next_backoff (config : ReconnectConfig) (jitter : Z -> Z) (current_backoff : Z) : option Z :=
  scaled ← from_secs_f64 (F64.mul (as_secs_f64 current_backoff) (rc_multiplier config));
  let b := Z.min scaled (rc_max_backoff config) in
  let jitter_range := as_u64 (as_millis b) / 4 in
  if 0 <? jitter_range then Some (Z.min (b + from_millis (jitter jitter_range)) (rc_max_backoff config)) else Some b.

(** [call n] is the answer to the n-th request, [jitter n] the n-th draw. *)
Section Loop.
Context (config : ReconnectConfig) (call : nat -> result ReconnectResponse string) (jitter : nat -> Z -> Z).

Fixpoint reconnect_loop (fuel n : nat) (attempts current_backoff : Z) : option (outcome * list Z) :=
  match fuel with
  | O => None
  | S f =>
      let attempts := u32_add attempts 1 in
      match call n with
      | Ok response => Some (Reconnected response attempts, [])
      | Err e =>
          if (0 <? rc_max_attempts config) && (rc_max_attempts config <=? attempts) then
            Some (GaveUp ("Reconnect failed after " +:+ pretty attempts +:+ " attempts: " +:+ e)%string, [])
          else
            match next_backoff config (jitter n) current_backoff with
            | None => Some (Panicked, [current_backoff])
            | Some b =>
                '(o, sleeps) ← reconnect_loop f (S n) attempts b;
                Some (o, current_backoff :: sleeps)
            end
      end
  end.

Definition reconnect (fuel : nat) : option (outcome * list Z) :=
  reconnect_loop fuel 0 0 (rc_initial_backoff config).
End Loop.

(** Ten failures under the default configuration, without jitter. *)
Example default_backoffs :
  option_map (fun r => map as_millis (snd r)) (reconnect ReconnectConfig_default
     (fun n => if (n <? 12)%nat then Err "refused" else Ok {| rp_log_resumes := []; rp_accepted := true; rp_message := "" |})
     (fun _ _ => 0) 13)
  = Some [500; 750; 1125; 1687; 2531; 3796; 5695; 8542; 12814; 19221; 28832; 30000].
Proof. vm_compute. reflexivity. Qed.

(** ** What is reported *)

(** A job is reported once. *)
Lemma register_job_nodup job_id off s :
  NoDup (rj_job_id <$> s) -> NoDup (rj_job_id <$> register_job job_id off s).
Proof.
  intros H. unfold register_job. rewrite fmap_app. apply NoDup_app. split_and!.
  - by apply NoDup_fmap_filter.
  - intros i (j & -> & [Hne _]%list_elem_of_filter)%list_elem_of_fmap [Hi|Hi%elem_of_nil]%elem_of_cons; [|done]. by apply Hne.
  - simpl. repeat constructor. by apply not_elem_of_nil.
Qed.

Lemma update_job_offset_ids job_id off s : rj_job_id <$> update_job_offset job_id off s = rj_job_id <$> s.
Proof. induction s as [|j s IH]; [done|]. simpl. case_bool_decide; [done|]. by rewrite !fmap_cons, IH. Qed.

(** ** The loop ends *)

Lemma next_backoff_le config jitter b b' : next_backoff config jitter b = Some b' -> b' <= rc_max_backoff config.
Proof.
  unfold next_backoff. intros (s & _ & H)%bind_Some. cbv zeta in H. destruct (0 <? _); injection H as <-; lia.
Qed.

(** Reconnecting ends: with a limit on the attempts, after at most that many;
    without one, at the first answer. It succeeds exactly with the first request
    that is answered, and gives up exactly when every allowed request failed. It
    sleeps once between two requests, never longer than the larger of the
    initial and the maximal back-off, so the total wait is bounded. *)
Theorem reconnect_ends (config : ReconnectConfig) (call : nat -> result ReconnectResponse string) (jitter : nat -> Z -> Z)
    (fuel : nat) :
  Z.of_nat fuel < 2 ^ 32 ->
  (0 < rc_max_attempts config <= Z.of_nat fuel \/ exists k, (k < fuel)%nat /\ is_ok (call k) = true) ->
  exists o sleeps, reconnect config call jitter fuel = Some (o, sleeps) /\
    Forall (fun d => d <= Z.max (rc_initial_backoff config) (rc_max_backoff config)) sleeps /\
    (forall i, (i < length sleeps)%nat -> is_ok (call i) = false) /\
    match o with
    | Reconnected r attempts => call (length sleeps) = Ok r /\ attempts = Z.of_nat (length sleeps) + 1
    | GaveUp _ => 0 < rc_max_attempts config /\ rc_max_attempts config = Z.of_nat (length sleeps) + 1 /\ is_ok (call (length sleeps)) = false
    | Panicked => exists i b, next_backoff config (jitter i) b = None
    end.
Proof.
  intros Hsmall Hend. unfold reconnect.
  set (top := Z.max (rc_initial_backoff config) (rc_max_backoff config)).
  assert (H : forall f n b, (f + n = fuel)%nat -> b <= top -> (0 < rc_max_attempts config -> Z.of_nat n < rc_max_attempts config) ->
    (0 < rc_max_attempts config <= Z.of_nat fuel \/ exists k, (n <= k < fuel)%nat /\ is_ok (call k) = true) ->
    exists o sleeps, reconnect_loop config call jitter f n (Z.of_nat n) b = Some (o, sleeps) /\
      Forall (fun d => d <= top) sleeps /\ (forall i, (n <= i < n + length sleeps)%nat -> is_ok (call i) = false) /\
      match o with
      | Reconnected r attempts => call (n + length sleeps)%nat = Ok r /\ attempts = Z.of_nat (n + length sleeps) + 1
      | GaveUp _ => 0 < rc_max_attempts config /\ rc_max_attempts config = Z.of_nat (n + length sleeps) + 1 /\ is_ok (call (n + length sleeps)%nat) = false
      | Panicked => exists i b, next_backoff config (jitter i) b = None
      end).
  - induction f as [|f IH]; intros n b Hf Hb Hlt Hk.
    { destruct Hk as [Hk|(k & Hk & _)]; [specialize (Hlt ltac:(lia)); lia|lia]. }
    cbn [reconnect_loop]. rewrite u32_add_small by lia. destruct (call n) as [r|e] eqn:Ec.
    + eexists _, _. split; [reflexivity|]. simpl. rewrite Nat.add_0_r. split_and!; [constructor|lia|done|lia].
    + destruct ((0 <? _) && _) eqn:Hmax.
      * apply andb_prop in Hmax as [H1%Z.ltb_lt H2%Z.leb_le]. specialize (Hlt H1).
        eexists _, _. split; [reflexivity|]. simpl. rewrite Nat.add_0_r, Ec. split_and!; [constructor|lia|done|lia|done].
      * assert (Hmax' : 0 < rc_max_attempts config -> Z.of_nat (S n) < rc_max_attempts config).
        { intros H1. apply andb_false_iff in Hmax as [H2%Z.ltb_ge|H2%Z.leb_gt]; lia. }
        destruct (next_backoff config (jitter n) b) as [b'|] eqn:Eb.
        -- pose proof (next_backoff_le _ _ _ _ Eb) as Hb'. destruct (IH (S n) b') as (o & sleeps & E & Hs & Hi & Ho); [lia|lia|done| |].
           { destruct Hk as [Hk|(k & Hk & Hok)]; [by left|right]. exists k. split; [|done].
             destruct (decide (k = n)) as [->|]; [by rewrite Ec in Hok|lia]. }
           replace (Z.of_nat n + 1) with (Z.of_nat (S n)) by lia. rewrite E. simpl. eexists _, _. split; [reflexivity|].
           simpl. rewrite <- plus_n_Sm. split_and!; [by constructor| |exact Ho].
           intros i Hin. destruct (decide (i = n)) as [->|]; [by rewrite Ec|apply Hi; lia].
        -- eexists _, _. split; [reflexivity|]. simpl. split_and!; [by repeat constructor| |eauto].
           intros i Hin. assert (i = n) as -> by lia. by rewrite Ec.
  - destruct (H fuel 0%nat (rc_initial_backoff config)) as (o & sleeps & E & Hs & Hi & Ho); [lia|lia|lia| |].
    + destruct Hend as [?|(k & ? & ?)]; [by left|right; exists k; split; [lia|done]].
    + exists o, sleeps. split; [exact E|]. split; [done|]. split; [intros i Hin; apply Hi; lia|exact Ho].
Qed.

(** Three refusals with a limit of three; two refusals without a limit. *)
Lemma reconnect_ends_witness :
  (exists sleeps m, reconnect {| ReconnectConfig_default with rc_max_attempts := 3 |} (fun _ => Err "refused") (fun _ r => r - 1) 3
      = Some (GaveUp m, sleeps) /\ length sleeps = 2%nat) /\
  (exists sleeps r, reconnect ReconnectConfig_default (fun n => if (n <? 2)%nat then Err "refused" else
      Ok {| rp_log_resumes := []; rp_accepted := true; rp_message := "" |}) (fun _ r => 0) 5
      = Some (Reconnected r 3, sleeps) /\ Forall (fun d => d <= secs 30) sleeps).
Proof.
  split.
  - destruct (reconnect_ends {| ReconnectConfig_default with rc_max_attempts := 3 |} (fun _ => Err "refused") (fun _ r => r - 1) 3)
      as (o & sleeps & E & _ & _ & Ho); [lia|simpl; lia|].
    destruct o as [r a|m|]; [by destruct Ho| |by vm_compute in E]. exists sleeps, m. split; [done|]. simpl in Ho. lia.
  - destruct (reconnect_ends ReconnectConfig_default (fun n => if (n <? 2)%nat then Err "refused" else
      Ok {| rp_log_resumes := []; rp_accepted := true; rp_message := "" |}) (fun _ r => 0) 5)
      as (o & sleeps & E & Hs & _ & Ho); [lia|right; exists 2%nat; split; [lia|done]|].
    destruct o as [r a|m|]; [|by destruct Ho|by vm_compute in E]. exists sleeps, r.
    assert (length sleeps = 2%nat) as Hl by (vm_compute in E; by injection E as _ _ <-). destruct Ho as [_ ->]. rewrite Hl in E. split; [exact E|]. exact Hs.
Defined.

(** Jitter is lost at the cap: once the scaled back-off reaches the maximum,
    every worker waits exactly the maximum, whatever it draws. *)
Lemma no_jitter_at_cap config jitter b scaled :
  from_secs_f64 (F64.mul (as_secs_f64 b) (rc_multiplier config)) = Some scaled -> rc_max_backoff config <= scaled ->
  (forall r, 0 <= jitter r) -> next_backoff config jitter b = Some (rc_max_backoff config).
Proof.
  intros E Hle Hj. unfold next_backoff. rewrite E. simpl. rewrite Z.min_r by lia.
  destruct (0 <? _); [|done]. f_equal. unfold from_millis. specialize (Hj (as_u64 (as_millis (rc_max_backoff config)) / 4)). lia.
Qed.
