(* ===== verification/Agent.v ===== *)
(** * The worker agent (crates/ci-worker/src/agent.rs)

    The list of running jobs and the handling of assignments, the life of a job
    from its start to its final report, the session loop, and the description of
    the machine sent at registration. Processes, the controller's answers, the
    disks and the file system are arguments. *)

From Stdlib Require Import ZArith Lia Ascii.
From stdpp Require Import gmap strings list pretty sorting relations fin_maps.
From S2P Require Import Prelude Text Config F64 WorkerModel StageModel WorkerRegistry JobRegistry JobModel.
From S2P Require Import LogStreamer Executor StageRunner Reconnect.

(** ** Running jobs *)

(** The receiving end of a job's cancel channel: whether it still exists, and the
    one message the channel can hold. *)
Record RunningJobState := {
  rs_job_id : string;
  rs_log_offset : Z;
  rs_cancel_open : bool;
  rs_cancel_buffer : option Z
}.

Abbreviation RunningJobs := (list RunningJobState) (only parsing).

Record JobContext := {
  ctx_worker_id : string;
  ctx_job_id : string;
  ctx_command : string;
  ctx_workspace_dir : string;
  ctx_stage_dir : option string;
  ctx_log_path : string;
  ctx_pre_script : string;
  ctx_post_script : string;
  ctx_max_duration_secs : Z;
  ctx_job_group_id : string;
  ctx_stage_name : string;
  ctx_secret_values : list string;
  ctx_environment : gmap string string;
  ctx_pre_script_lock : LockConfig;
  ctx_post_script_lock : LockConfig
}.

Record StatusReport := {
  sp_state : Z;
  sp_message : string;
  sp_exit_code : Z;
  sp_phase : string;
  sp_pre_exit_code : Z;
  sp_post_exit_code : Z
}.

(** The numbers of [enum JobState]. *)
Definition PROTO_SUCCESS : Z := 4.
Definition PROTO_FAILED : Z := 5.
Definition PROTO_CANCELLED : Z := 6.

(** ** Purging the files of a group *)

Inductive removal := Gone | NotFound | RemoveFailed (msg : string).

Definition purge_targets (group_id scratch_root log_dir work_dir : string) : list string :=
  [path_join scratch_root group_id; path_join log_dir group_id; path_join work_dir group_id].

Definition join_with (sep : string) (l : list string) : string :=
  match l with [] => EmptyString | x :: l' => foldl (fun acc s => acc +:+ sep +:+ s)%string x l' end.

(** The paths removed and the outcome. *)
Definition purge_group_dirs (remove : string -> removal) (group_id scratch_root log_dir work_dir : string)
    : list string * result unit string :=
  let targets := purge_targets group_id scratch_root log_dir work_dir in
  let failures := omap (fun path => match remove path with
                                    | RemoveFailed e => Some (path +:+ ": " +:+ e)%string
                                    | _ => None
                                    end) targets in
  (targets, if bool_decide (failures = []) then Ok tt else Err (join_with "; " failures)).

Definition purge_ack (now : Z) (worker_id gid : string) (outcome : result unit string) : JobStatusUpdate := {|
  su_worker_id := worker_id;
  su_job_id := EmptyString;
  su_state := match outcome with Ok _ => PROTO_SUCCESS | Err _ => PROTO_FAILED end;
  su_message := match outcome with Ok _ => EmptyString | Err msg => msg end;
  su_exit_code := 0;
  su_timestamp_unix := now;
  su_job_group_id := gid;
  su_stage_name := EmptyString;
  su_phase := EmptyString;
  su_pre_exit_code := 0;
  su_post_exit_code := 0;
  su_purge_ack := true |}.

(** ** Assignments *)

Definition secret_values_of (a : JobAssignment) : list string :=
  filter (fun v => v <> EmptyString) (omap (fun key => ja_environment a !! key) (ja_secret_env_keys a)).

Definition insert_some (k : string) (v : option string) (m : gmap string string) : gmap string string :=
  match v with Some s => <[k := s]> m | None => m end.

Definition stage_environment (config : WorkerConfig) (a : JobAssignment) (p : ResolvedStagePaths) : gmap string string :=
  let env1 := <["CHOLA_REPOS_DIR" := repos_dir (execution config)]> (ja_environment a) in
  let env2 := <["CHOLA_WORKSPACE_DIR" := rp_workspace_dir p]> env1 in
  let env3 := <["CHOLA_WORK_DIR" := rp_workspace_dir p]> env2 in
  let env4 := insert_some "CHOLA_STAGES_DIR" (rp_stages_dir p) env3 in
  let env5 :=
    if negb (bool_decide (ja_stage_name a = EmptyString)) && negb (bool_decide (ja_stage_name a = "__cleanup__"))
    then <["CHOLA_STAGE_NAME" := ja_stage_name a]> env4 else env4 in
  let env6 := insert_some "CHOLA_STAGE_DIR" (rp_stage_dir p) env5 in
  <["WORKER_ID" := wc_worker_id config]> env6.

Definition job_context (config : WorkerConfig) (parse_rfc3339 : string -> option timestamp) (startup : option timestamp)
    (a : JobAssignment) : JobContext :=
  let created := if bool_decide (ja_group_created_at a = EmptyString) then None else parse_rfc3339 (ja_group_created_at a) in
  let p := resolve_paths (scratch_root (execution config)) (ex_log_dir (execution config)) (work_dir (execution config))
             created startup (ja_job_group_id a) (ja_stage_name a) (ja_job_id a) in {|
  ctx_worker_id := wc_worker_id config;
  ctx_job_id := ja_job_id a;
  ctx_command := ja_command a;
  ctx_workspace_dir := rp_workspace_dir p;
  ctx_stage_dir := rp_stage_dir p;
  ctx_log_path := rp_log_path p;
  ctx_pre_script := ja_pre_script a;
  ctx_post_script := ja_post_script a;
  ctx_max_duration_secs := ja_max_duration_secs a;
  ctx_job_group_id := ja_job_group_id a;
  ctx_stage_name := ja_stage_name a;
  ctx_secret_values := secret_values_of a;
  ctx_environment := stage_environment config a p;
  ctx_pre_script_lock := from_proto (ja_pre_script_lock a);
  ctx_post_script_lock := from_proto (ja_post_script_lock a) |}.

(** What handling an assignment does. [CancelStalled] is a cancel that finds the
    channel full: the send, and with it the session loop, waits until the job
    takes the first signal. *)
Inductive handling :=
| Purged (removed : list string) (ack : JobStatusUpdate)
| CancelSent (job_id : string) (signal : Z)
| CancelStalled (job_id : string) (signal : Z)
| CancelDropped (job_id : string)
| CancelUnknown (job_id : string)
| AlreadyRunning (job_id : string)
| Spawned (ctx : JobContext).

(** [Sender::send] on the channel of the first job with this id. *)
Fixpoint send_cancel (job_id : string) (signal : Z) (jobs : RunningJobs) : handling * RunningJobs :=
  match jobs with
  | [] => (CancelUnknown job_id, [])
  | j :: jobs' =>
      if bool_decide (rs_job_id j = job_id) then
        if negb (rs_cancel_open j) then (CancelDropped job_id, jobs)
        else match rs_cancel_buffer j with
             | Some _ => (CancelStalled job_id signal, jobs)
             | None => (CancelSent job_id signal, {| j with rs_cancel_buffer := Some signal |} :: jobs')
             end
      else let '(h, jobs'') := send_cancel job_id signal jobs' in (h, j :: jobs'')
  end.

Definition handle_job_assignment (config : WorkerConfig) (parse_rfc3339 : string -> option timestamp) (startup : option timestamp)
    (remove : string -> removal) (now : Z) (a : JobAssignment) (jobs : RunningJobs) : handling * RunningJobs :=
  match ja_purge_group_files a with
  | Some purge =>
      let gid := pg_group_id purge in
      let '(removed, outcome) := purge_group_dirs remove gid (scratch_root (execution config)) (ex_log_dir (execution config)) (work_dir (execution config)) in
      (Purged removed (purge_ack now (wc_worker_id config) gid outcome), jobs)
  | None =>
      match ja_cancel a with
      | Some cancel => send_cancel (ja_job_id a) (if 0 <? ca_signal cancel then ca_signal cancel else 15) jobs
      | None =>
          if existsb (fun j => bool_decide (rs_job_id j = ja_job_id a)) jobs then (AlreadyRunning (ja_job_id a), jobs)
          else (Spawned (job_context config parse_rfc3339 startup a),
                jobs ++ [{| rs_job_id := ja_job_id a; rs_log_offset := 0; rs_cancel_open := true; rs_cancel_buffer := None |}])
      end
  end.

(** The end of a job's task. *)
Definition finish_job (job_id : string) (jobs : RunningJobs) : RunningJobs := filter (fun j => rs_job_id j <> job_id) jobs.

(** The first job with this id. *)
Fixpoint set_log_offset (job_id : string) (off : Z) (jobs : RunningJobs) : RunningJobs :=
  match jobs with
  | [] => []
  | j :: jobs' =>
      if bool_decide (rs_job_id j = job_id) then {| j with rs_log_offset := off |} :: jobs' else j :: set_log_offset job_id off jobs'
  end.

Definition handle_resume_directives (directives : list (string * Z)) (jobs : RunningJobs) : RunningJobs :=
  foldl (fun js '(job_id, off) => set_log_offset job_id off js) jobs directives.

(** ** Reports *)

Definition status_update (now : Z) (ctx : JobContext) (report : StatusReport) : JobStatusUpdate := {|
  su_worker_id := ctx_worker_id ctx;
  su_job_id := ctx_job_id ctx;
  su_state := sp_state report;
  su_message := sp_message report;
  su_exit_code := sp_exit_code report;
  su_timestamp_unix := now;
  su_job_group_id := ctx_job_group_id ctx;
  su_stage_name := ctx_stage_name ctx;
  su_phase := sp_phase report;
  su_pre_exit_code := sp_pre_exit_code report;
  su_post_exit_code := sp_post_exit_code report;
  su_purge_ack := false |}.

Definition determine_final_state_from_stage (r : StageResult) : StatusReport :=
  let pre_exit_code := default 0 (sr_pre_exit_code r) in
  let post_exit_code := default 0 (sr_post_exit_code r) in
  let phase :=
    match sr_pre_exit_code r with
    | Some c => if negb (c =? 0) then "pre_script" else "command"
    | None => "command"
    end in
  let '(state, message) :=
    match sr_final_state r with
    | SSuccess =>
        (PROTO_SUCCESS, if negb (post_exit_code =? 0)
                        then ("Stage completed successfully (post-script exited " +:+ pretty post_exit_code +:+ ")")%string
                        else "Stage completed successfully")
    | SFailed => (PROTO_FAILED, ("Stage failed in phase: " +:+ phase +:+ " (exit code " +:+ pretty (sr_command_exit_code r) +:+ ")")%string)
    | SCancelled => (PROTO_CANCELLED, "Stage cancelled or timed out")
    end in
  {| sp_state := state; sp_message := message; sp_exit_code := sr_command_exit_code r; sp_phase := phase;
     sp_pre_exit_code := pre_exit_code; sp_post_exit_code := post_exit_code |}.

Definition signal_name (signal : Z) : string :=
  match signal with 2 => "SIGINT" | 9 => "SIGKILL" | 15 => "SIGTERM" | _ => "unknown signal" end.

Definition command_report (state : Z) (code : Z) (message : string) : StatusReport :=
  {| sp_state := state; sp_message := message; sp_exit_code := code; sp_phase := "command";
     sp_pre_exit_code := 0; sp_post_exit_code := 0 |}.

Definition determine_final_state_from_executor (r : result Z string) : StatusReport :=
  match r with
  | Ok code =>
      if code <? 0 then command_report PROTO_CANCELLED code ("Job cancelled by " +:+ signal_name (- code) +:+ " signal")%string
      else if code =? 0 then command_report PROTO_SUCCESS 0 "Job completed successfully"
      else command_report PROTO_FAILED code ("Job failed with exit code " +:+ pretty code)%string
  | Err e => command_report PROTO_FAILED (-1) ("Job execution error: " +:+ e)%string
  end.

Definition started_report : StatusReport := command_report PROTO_RUNNING 0 "Job started".

(** [Path::parent] of a path without a final separator: what precedes the last
    component; the root has no parent. *)
Fixpoint last_slash (s : string) : option nat :=
  match s with
  | EmptyString => None
  | String c s' =>
      match last_slash s' with
      | Some n => Some (S n)
      | None => if bool_decide (c = "/"%char) then Some O else None
      end
  end.

Definition path_parent (p : string) : option string :=
  if bool_decide (p = "/") || bool_decide (p = EmptyString) then None
  else match last_slash p with
       | Some O => Some "/"
       | Some n => Some (str_take n p)
       | None => Some EmptyString
       end.

Definition command_work_dir (ctx : JobContext) : string :=
  if bool_decide (ctx_stage_name ctx = "__cleanup__") then default (ctx_workspace_dir ctx) (path_parent (ctx_workspace_dir ctx))
  else ctx_workspace_dir ctx.

(** The final report is tried three times. [accepted n] is whether the n-th
    attempt succeeds; the result is the number of attempts and whether one did. *)
Fixpoint report_final (accepted : nat -> bool) (tries n : nat) : nat * bool :=
  match tries with
  | O => (n, false)
  | S t => if accepted n then (S n, true) else report_final accepted t (S n)
  end.

(** One job: the updates sent, in order, the final state, and the running jobs
    with the job's log offset. [streamed] is the byte count of the log streamer,
    0 when it fails. *)
Definition run_job_with_streaming (clk : clock) (ctx : JobContext) (o : stage_oracle) (streamed : Z) (accepted : nat -> bool)
    (jobs : RunningJobs) : option (list JobStatusUpdate * Z * RunningJobs) :=
  let has_stage_scripts := negb (bool_decide (ctx_pre_script ctx = EmptyString)) || negb (bool_decide (ctx_post_script ctx = EmptyString)) in
  report ← (if has_stage_scripts || (0 <? ctx_max_duration_secs ctx) then
      '(r, _) ← run_stage o (ctx_command ctx) (ctx_pre_script ctx) (ctx_post_script ctx) (ctx_max_duration_secs ctx)
                  (ctx_secret_values ctx) (ctx_environment ctx) (ctx_pre_script_lock ctx) (ctx_post_script_lock ctx);
      Some (determine_final_state_from_stage r)
    else Some (determine_final_state_from_executor (exec_code (so_exec o Cmd))));
  let final_report := {| report with sp_message := (sp_message report +:+ " (" +:+ pretty streamed +:+ " bytes of logs)")%string |} in
  let '(attempts, _) := report_final accepted 3 0 in
  Some (status_update (clk O) ctx started_report :: ((fun n => status_update (clk (S n)) ctx final_report) <$> seq 0 attempts),
        sp_state report, set_log_offset (ctx_job_id ctx) streamed jobs).

(** ** Metrics *)

Record WorkerMetrics := {
  jobs_executed : Z;
  jobs_succeeded : Z;
  jobs_failed : Z;
  jobs_cancelled : Z;
  active_jobs : Z
}.

Definition WorkerMetrics_new : WorkerMetrics :=
  {| jobs_executed := 0; jobs_succeeded := 0; jobs_failed := 0; jobs_cancelled := 0; active_jobs := 0 |}.

(** [fetch_add] and [fetch_sub] wrap. *)
Definition job_started (m : WorkerMetrics) : WorkerMetrics :=
  {| m with active_jobs := active_jobs m + 1; jobs_executed := u64_add (jobs_executed m) 1 |}.

Definition job_ended (state : Z) (m : WorkerMetrics) : WorkerMetrics :=
  let m1 := {| m with active_jobs := active_jobs m - 1 |} in
  if state =? PROTO_SUCCESS then {| m1 with jobs_succeeded := u64_add (jobs_succeeded m1) 1 |}
  else if state =? PROTO_CANCELLED then {| m1 with jobs_cancelled := u64_add (jobs_cancelled m1) 1 |}
  else {| m1 with jobs_failed := u64_add (jobs_failed m1) 1 |}.

(** ** The description of the machine *)

(** A disk as [sysinfo] lists it. *)
Record Disk := {
  dk_mount_point : string;
  dk_name : string;
  dk_file_system : string;
  dk_total_space : Z;
  dk_available_space : Z
}.

Definition u64_sub (a b : Z) : Z := wrap 64 (a - b).

Definition disk_info (d : Disk) : DiskInfo := {|
  di_mount_point := dk_mount_point d;
  di_device := dk_name d;
  di_fs_type := dk_file_system d;
  di_total_mb := dk_total_space d / 1024 / 1024;
  di_used_mb := u64_sub (dk_total_space d) (dk_available_space d) / 1024 / 1024;
  di_available_mb := dk_available_space d / 1024 / 1024 |}.

Definition is_noise (d : Disk) : bool :=
  bool_decide (dk_file_system d ∈ ["tmpfs"; "devtmpfs"; "efivarfs"; "squashfs"; "vfat"])
  || starts_with "/snap/" (dk_mount_point d) || starts_with "/sys/" (dk_mount_point d) || starts_with "/boot" (dk_mount_point d).

(** [entry(device).and_modify(..).or_insert(..)] *)
Definition keep_shortest (by_device : gmap string DiskInfo) (d : Disk) : gmap string DiskInfo :=
  if is_noise d then by_device
  else match by_device !! dk_name d with
       | Some existing =>
           if (String.length (dk_mount_point d) <? String.length (di_mount_point existing))%nat
           then <[dk_name d := disk_info d]> by_device else by_device
       | None => <[dk_name d := disk_info d]> by_device
       end.

Definition by_mount_point (a b : DiskInfo) : comparison := str_cmp (di_mount_point a) (di_mount_point b).

Section Machine.
Context `{HI : HashIter}.

Definition collect_disk_details (disks : list Disk) (tracked_paths : list string) : list DiskInfo :=
  if negb (bool_decide (tracked_paths = [])) then
    disk_info <$> filter (fun d => dk_mount_point d ∈ tracked_paths) disks
  else sort_by by_mount_point (hvalues (foldl keep_shortest ∅ disks)).

Definition sum_u64 (l : list Z) : Z := foldl u64_add 0 l.

(** [real_cpu] and [total_memory] are what [sysinfo] reports. *)
Definition register_request (config : WorkerConfig) (real_cpu total_memory : Z) (disks : list Disk) : RegisterRequest :=
  let real_memory_mb := total_memory / 1024 / 1024 in
  let disk_details := collect_disk_details disks (tracked_disk_paths config) in
  let total_disk_mb := sum_u64 (di_total_mb <$> disk_details) in
  let t := default EmptyString (wc_token config) in {|
  rr_worker_id := wc_worker_id config;
  rr_hostname := wc_hostname config;
  rr_total_cpu := if 0 <? real_cpu then real_cpu else rs_total_cpu (resources config);
  rr_total_memory_mb := if 0 <? real_memory_mb then real_memory_mb else u64_mul (rs_total_memory_gb (resources config)) 1024;
  rr_total_disk_mb := if 0 <? total_disk_mb then total_disk_mb else u64_mul (rs_total_disk_gb (resources config)) 1024;
  rr_disk_type := rs_disk_type (resources config);
  rr_supported_job_types := supported_job_types (capabilities config);
  rr_docker_enabled := docker_enabled (capabilities config);
  rr_labels := [];
  rr_disk_details := disk_details;
  rr_registration_token := if starts_with "chola_reg_" t then t else EmptyString;
  rr_worker_token := if starts_with "chola_reg_" t then EmptyString else t |}.

(** What a session sends first: a registration when nothing runs, else the
    running jobs. *)
Definition session_opening (config : WorkerConfig) (real_cpu total_memory : Z) (disks : list Disk) (jobs : RunningJobs)
    : RegisterRequest + ReconnectRequest :=
  match jobs with
  | [] => inl (register_request config real_cpu total_memory disks)
  | _ => inr {| rq_worker_id := wc_worker_id config;
                rq_running_jobs := (fun j => {| rj_job_id := rs_job_id j; rj_state := PROTO_RUNNING; rj_log_offset := rs_log_offset j |}) <$> jobs |}
  end.

Definition collect_system_metrics (cpu load_one : f64) (used_memory : Z) (disks : list Disk) (tracked_paths : list string) : f64 * Z * Z * f64 :=
  (cpu, used_memory / 1024 / 1024, sum_u64 (di_used_mb <$> collect_disk_details disks tracked_paths), load_one).

(** The disks are listed twice. *)
Definition heartbeat_message (config : WorkerConfig) (now : Z) (cpu load_one : f64) (used_memory : Z) (disks disks' : list Disk)
    (jobs : RunningJobs)
    : HeartbeatMessage :=
  let '(c, mem, disk, load) := collect_system_metrics cpu load_one used_memory disks (tracked_disk_paths config) in {|
  hm_worker_id := wc_worker_id config;
  hm_used_cpu_percent := c;
  hm_used_memory_mb := mem;
  hm_used_disk_mb := disk;
  hm_running_job_ids := rs_job_id <$> jobs;
  hm_system_load := load;
  hm_timestamp_unix := now;
  hm_disk_details := collect_disk_details disks' (tracked_disk_paths config) |}.
End Machine.

Definition controller_http_url (config : WorkerConfig) : string :=
  match http_url (wc_controller config) with
  | Some url => url
  | None =>
      let addr := address (wc_controller config) in
      let fix rfind (s : string) : option nat :=
        match s with
        | EmptyString => None
        | String c s' =>
            match rfind s' with
            | Some n => Some (S n)
            | None => if bool_decide (c = ":"%char) then Some O else None
            end
        end in
      match rfind addr with
      | Some colon => (str_take colon addr +:+ ":8080")%string
      | None => (addr +:+ ":8080")%string
      end
  end.

(** ** Sessions *)

Definition is_fatal (err_msg : string) : bool :=
  existsb (fun m => match find_str m err_msg with Some _ => true | None => false end)
    ["AlreadyExists"; "already has an active connection"; "Unauthenticated"; "Registration token required";
     "Invalid worker token"; "Worker not registered"; "permission_denied"].

(** The outer loop: [session n jobs] is how the n-th session ends and the jobs
    running then, [reconnection n] how the reconnection after it ends. The result
    is the outcome of [run] and the running jobs. *)
Section Run.
Context (session : nat -> RunningJobs -> result unit string * RunningJobs) (reconnection : nat -> outcome).

Fixpoint run_loop (fuel n : nat) (jobs : RunningJobs) : option (result unit string * RunningJobs) :=
  match fuel with
  | O => None
  | S f =>
      match session n jobs with
      | (Ok _, jobs') => Some (Ok tt, jobs')
      | (Err err_msg, jobs') =>
          if is_fatal err_msg then Some (Err err_msg, jobs')
          else match reconnection n with
               | Reconnected response _ => run_loop f (S n) (handle_resume_directives (process_resume_directives response) jobs')
               | GaveUp m => Some (Err m, [])
               | Panicked => Some (Err "panicked", jobs')
               end
      end
  end.
End Run.

(** The back-off of the agent's reconnections. *)
Definition agent_reconnect_config (config : WorkerConfig) : ReconnectConfig := {|
  rc_initial_backoff := from_millis (initial_delay_ms (wc_reconnect config));
  rc_max_backoff := from_millis (max_delay_ms (wc_reconnect config));
  rc_multiplier := F64.of_decimal false 15 (-1);
  rc_max_attempts := max_attempts (wc_reconnect config) |}.

(** ** A job runs once *)

(** The agent with, as a ghost, the jobs whose tasks are running. *)
Record agent := {
  ag_jobs : RunningJobs;
  ag_tasks : list string
}.

Definition tasks_after (h : handling) (tasks : list string) : list string :=
  match h with Spawned ctx => tasks ++ [ctx_job_id ctx] | _ => tasks end.

(** Assignments are handled one at a time by the session loop; tasks change the
    list in between: they record their log offset, take a cancel signal, drop the
    channel, and end. *)
Inductive agent_step (config : WorkerConfig) (ag : agent) : agent -> Prop :=
| as_assign parse startup remove now a h jobs' :
    handle_job_assignment config parse startup remove now a (ag_jobs ag) = (h, jobs') ->
    agent_step config ag {| ag_jobs := jobs'; ag_tasks := tasks_after h (ag_tasks ag) |}
| as_finish job_id tasks' :
    ag_tasks ag ≡ₚ job_id :: tasks' ->
    agent_step config ag {| ag_jobs := finish_job job_id (ag_jobs ag); ag_tasks := tasks' |}
| as_offset job_id off :
    agent_step config ag {| ag_jobs := set_log_offset job_id off (ag_jobs ag); ag_tasks := ag_tasks ag |}
| as_resume directives :
    agent_step config ag {| ag_jobs := handle_resume_directives directives (ag_jobs ag); ag_tasks := ag_tasks ag |}
| as_channel jobs' :
    rs_job_id <$> jobs' = rs_job_id <$> ag_jobs ag ->
    agent_step config ag {| ag_jobs := jobs'; ag_tasks := ag_tasks ag |}.

Lemma set_log_offset_ids job_id off jobs : rs_job_id <$> set_log_offset job_id off jobs = rs_job_id <$> jobs.
Proof. induction jobs as [|j jobs IH]; [done|]. simpl. case_bool_decide; [done|]. by rewrite !fmap_cons, IH. Qed.

Lemma resume_ids ds jobs : rs_job_id <$> handle_resume_directives ds jobs = rs_job_id <$> jobs.
Proof.
  unfold handle_resume_directives. revert jobs. induction ds as [|[i off] ds IH]; intros jobs; [done|].
  simpl. by rewrite IH, set_log_offset_ids.
Qed.

Lemma send_cancel_ids job_id signal jobs :
  rs_job_id <$> (send_cancel job_id signal jobs).2 = rs_job_id <$> jobs /\
  (forall tasks, tasks_after (send_cancel job_id signal jobs).1 tasks = tasks).
Proof.
  induction jobs as [|j jobs [IH1 IH2]]; [done|]. simpl. case_bool_decide.
  - destruct (rs_cancel_open j); simpl; [|done]. by destruct (rs_cancel_buffer j).
  - destruct (send_cancel job_id signal jobs) as [h jobs']. cbn [fst snd] in *. split; [by rewrite !fmap_cons, IH1|done].
Qed.

Lemma finish_job_ids job_id jobs : rs_job_id <$> finish_job job_id jobs = filter (fun i => i <> job_id) (rs_job_id <$> jobs).
Proof.
  unfold finish_job. induction jobs as [|j l IH]; [done|]. rewrite fmap_cons, !filter_cons.
  destruct (decide (rs_job_id j <> job_id)); [by rewrite fmap_cons, IH|done].
Qed.

(** C17. A job never runs twice at the same time, whatever the controller sends:
    along any sequence of assignments (repeated ones, cancels and purges
    included), ends of tasks, log offsets and reconnections, every running job
    has exactly one task, and the list of running jobs is the list of tasks. *)
Theorem job_runs_once (config : WorkerConfig) (ag : agent) :
  rtc (agent_step config) {| ag_jobs := []; ag_tasks := [] |} ag ->
  NoDup (ag_tasks ag) /\ ag_tasks ag ≡ₚ rs_job_id <$> ag_jobs ag.
Proof.
  intros Hr.
  assert (Hstep : forall a b, agent_step config a b -> NoDup (ag_tasks a) /\ ag_tasks a ≡ₚ rs_job_id <$> ag_jobs a ->
    NoDup (ag_tasks b) /\ ag_tasks b ≡ₚ rs_job_id <$> ag_jobs b).
  { intros x y [parse startup remove now a h jobs' E|job_id tasks' Ht|job_id off|ds|jobs' E] [Hn Hp]; simpl.
    - unfold handle_job_assignment in E. destruct (ja_purge_group_files a) as [p|].
      { destruct (purge_group_dirs _ _ _ _ _). by injection E as <- <-. }
      destruct (ja_cancel a) as [c|].
      { destruct (send_cancel_ids (ja_job_id a) (if 0 <? ca_signal c then ca_signal c else 15) (ag_jobs x)) as [H1 H2].
        rewrite E in H1, H2. simpl in *. by rewrite H1, H2. }
      destruct (existsb _ _) eqn:Hex; injection E as <- <-; [done|]. simpl. rewrite fmap_app.
      split; [|by rewrite Hp]. apply NoDup_app. split_and!; [done| |apply NoDup_singleton].
      intros i Hi ->%list_elem_of_singleton. rewrite Hp in Hi. apply list_elem_of_fmap in Hi as (j & Hj & Hin).
      assert (Ht : existsb (fun j => bool_decide (rs_job_id j = ja_job_id a)) (ag_jobs x) = true); [|congruence].
      apply existsb_exists. exists j. split; [by apply list_elem_of_In|]. by apply bool_decide_eq_true_2.
    - rewrite Ht in Hn. apply NoDup_cons in Hn as [Hni Hn]. split; [done|].
      rewrite finish_job_ids, <- Hp, Ht, filter_cons_False by (intros H; by apply H). rewrite filter_all; [done|].
      intros i Hi ->. done.
    - by rewrite set_log_offset_ids.
    - by rewrite resume_ids.
    - by rewrite E. }
  remember {| ag_jobs := []; ag_tasks := [] |} as a0 eqn:E0.
  assert (H0 : NoDup (ag_tasks a0) /\ ag_tasks a0 ≡ₚ rs_job_id <$> ag_jobs a0) by (subst a0; split; [constructor|done]).
  clear E0. induction Hr as [|x y z Hxy _ IH]; eauto.
Qed.

(** ** The outcome reaches the controller *)

(** The state and exit code a job must be recorded with. *)
Definition verdict (o : stage_oracle) (ctx : JobContext) : JobState * Z :=
  match pre_passed o (ctx_pre_script ctx) (ctx_pre_script_lock ctx) (ctx_environment ctx), exec_code (so_exec o Cmd) with
  | true, Ok c => (if c <? 0 then JCancelled else if c =? 0 then JSuccess else JFailed, c)
  | _, _ => (JFailed, -1)
  end.

Lemma report_final_spec accepted tries n :
  (exists k, (n <= k < n + tries)%nat /\ accepted k = true) ->
  exists k, report_final accepted tries n = (S k, true) /\ accepted k = true /\ (n <= k < n + tries)%nat /\
    (forall i, (n <= i < k)%nat -> accepted i = false).
Proof.
  revert n. induction tries as [|t IH]; intros n (k & Hk & Ha); [lia|]. simpl. destruct (accepted n) eqn:En.
  - exists n. split_and!; [done|done|lia|lia|intros i Hi; lia].
  - destruct (IH (S n)) as (k' & E & Ha' & Hk' & Hi).
    { exists k. split; [|done]. destruct (decide (k = n)) as [->|]; [congruence|lia]. }
    exists k'. split_and!; [done|done|lia|lia|]. intros i Hin. destruct (decide (i = n)) as [->|]; [done|apply Hi; lia].
Qed.

Lemma stage_report_verdict o ctx r acts : timely (so_pre_lock o) -> timely (so_post_lock o) ->
  run_stage o (ctx_command ctx) (ctx_pre_script ctx) (ctx_post_script ctx) (ctx_max_duration_secs ctx)
    (ctx_secret_values ctx) (ctx_environment ctx) (ctx_pre_script_lock ctx) (ctx_post_script_lock ctx) = Some (r, acts) ->
  let report := determine_final_state_from_stage r in
  (state_of_code (sp_state report), sp_exit_code report) = verdict o ctx.
Proof.
  intros H1 H2 E. destruct (run_stage_spec o (ctx_command ctx) (ctx_pre_script ctx) (ctx_post_script ctx) (ctx_max_duration_secs ctx)
    (ctx_secret_values ctx) (ctx_environment ctx) (ctx_pre_script_lock ctx) (ctx_post_script_lock ctx) H1 H2)
    as (r' & acts' & E' & _ & _ & _ & Hv).
  rewrite E in E'. injection E' as <- <-. unfold verdict, determine_final_state_from_stage.
  destruct (pre_passed _ _ _ _); [destruct (exec_code _) as [c|e]|]; injection Hv as Hc Hs; rewrite Hc, Hs; [|done..].
  by destruct (c <? 0), (c =? 0).
Qed.

(** C15. What a job did is what the controller records: if one of the three tries
    of the final report is accepted, the last update sent is the accepted one,
    and the controller's job registry, updated with it, has the job in state
    success exactly when every pre-script passed and the command exited with 0,
    cancelled when the command's code is negative, failed otherwise, with the
    command's exit code; neither the post-script nor the log stream matters. *)
Theorem outcome_reaches_controller (clk : clock) (ctx : JobContext) (o : stage_oracle) (streamed : Z) (accepted : nat -> bool)
    (jobs : RunningJobs) :
  timely (so_pre_lock o) -> timely (so_post_lock o) -> (exists k, (k < 3)%nat /\ accepted k = true) ->
  exists ups st jobs' u k, run_job_with_streaming clk ctx o streamed accepted jobs = Some (ups, st, jobs') /\
    ups !! S k = Some u /\ length ups = (k + 2)%nat /\ accepted k = true /\
    forall now (m : JobRegistry) job, m !! ctx_job_id ctx = Some job ->
      exists job', update_status now u m !! ctx_job_id ctx = Some job' /\
        (j_state job', j_exit_code job') = ((verdict o ctx).1, Some (verdict o ctx).2) /\ state_of_code st = (verdict o ctx).1.
Proof.
  intros H1 H2 (k0 & Hk0 & Ha0). unfold run_job_with_streaming.
  destruct (report_final_spec accepted 3 0) as (k & Erep & Hk & Hlt & _); [exists k0; split; [lia|done]|].
  set (has := _ || (0 <? ctx_max_duration_secs ctx)).
  assert (Hrep : exists report, (if has then
      '(r, _) ← run_stage o (ctx_command ctx) (ctx_pre_script ctx) (ctx_post_script ctx) (ctx_max_duration_secs ctx)
                  (ctx_secret_values ctx) (ctx_environment ctx) (ctx_pre_script_lock ctx) (ctx_post_script_lock ctx);
      Some (determine_final_state_from_stage r)
    else Some (determine_final_state_from_executor (exec_code (so_exec o Cmd)))) = Some report /\
    (state_of_code (sp_state report), sp_exit_code report) = verdict o ctx).
  { destruct has eqn:Hhas.
    - destruct (run_stage_spec o (ctx_command ctx) (ctx_pre_script ctx) (ctx_post_script ctx) (ctx_max_duration_secs ctx)
        (ctx_secret_values ctx) (ctx_environment ctx) (ctx_pre_script_lock ctx) (ctx_post_script_lock ctx) H1 H2) as (r & acts & E & _).
      exists (determine_final_state_from_stage r). split; [by rewrite E|by apply (stage_report_verdict o ctx r acts)].
    - eexists. split; [reflexivity|]. unfold has in Hhas. apply orb_false_iff in Hhas as [Hs _].
      apply orb_false_iff in Hs as [Hp _]. apply negb_false_iff in Hp. unfold verdict, pre_passed. rewrite Hp. simpl.
      unfold determine_final_state_from_executor. destruct (exec_code (so_exec o Cmd)) as [c|e]; [|done].
      destruct (c <? 0); [done|]. destruct (Z.eqb_spec c 0) as [->|]; done. }
  destruct Hrep as (report & -> & Hv).
  eexists _, _, _, _, k. split; [cbn [mbind option_bind]; rewrite Erep; reflexivity|]. split_and!.
  - rewrite lookup_cons, list_lookup_fmap, lookup_seq_lt by lia. reflexivity.
  - simpl. rewrite length_fmap, length_seq. lia.
  - done.
  - intros now m job Hm. eexists. split; [by apply lookup_alter_Some; left; eauto|]. simpl. by rewrite <- Hv.
Qed.

Definition sample_ctx : JobContext := {|
  ctx_worker_id := "w1"; ctx_job_id := "j1"; ctx_command := "make"; ctx_workspace_dir := "/s/g/workspace"; ctx_stage_dir := None;
  ctx_log_path := "/s/g/logs/build.log"; ctx_pre_script := "setup"; ctx_post_script := "clean"; ctx_max_duration_secs := 60;
  ctx_job_group_id := "g"; ctx_stage_name := "build"; ctx_secret_values := []; ctx_environment := ∅;
  ctx_pre_script_lock := LockConfig_default; ctx_post_script_lock := LockConfig_default |}.

(** The second report is accepted; the post-script exits with 3. *)
Lemma outcome_reaches_controller_witness :
  exists ups st jobs' u, run_job_with_streaming (fun n => Z.of_nat n) sample_ctx (sample_stage (Ok (Exited (Some 0))) (Ok (Exited (Some 0)))) 12
    (fun k => (k =? 1)%nat) [] = Some (ups, st, jobs') /\ ups !! 2%nat = Some u /\
    forall now job, exists job', update_status now u {[ "j1" := job ]} !! "j1" = Some job' /\ j_state job' = JSuccess.
Proof.
  destruct (outcome_reaches_controller (fun n => Z.of_nat n) sample_ctx (sample_stage (Ok (Exited (Some 0))) (Ok (Exited (Some 0)))) 12
    (fun k => (k =? 1)%nat) [] (sample_lock_timely 2) (sample_lock_timely 9)) as (ups & st & jobs' & u & k & E & Hu & _ & Hk & H).
  { exists 1%nat. split; [lia|done]. }
  apply Nat.eqb_eq in Hk as ->. exists ups, st, jobs', u. split_and!; [done|done|]. intros now job.
  destruct (H now {[ "j1" := job ]} job) as (job' & Ej & Hs & _); [apply lookup_singleton_eq|].
  exists job'. split; [exact Ej|]. injection Hs as -> _. vm_compute. reflexivity.
Defined.

Definition sample_config : WorkerConfig := {|
  wc_worker_id := "w1"; wc_hostname := "host"; wc_controller := {| address := "http://controller"; cn_tls := None; http_url := None |};
  resources := ResourcesConfig_de 8 16 100 None;
  capabilities := {| supported_job_types := []; docker_enabled := false; capability_labels := [] |};
  heartbeat := HeartbeatConfig_default;
  execution := {| work_dir := "/d/jobs"; ex_log_dir := "/d/logs"; repos_dir := "/d/repos"; scratch_root := "/d/scratch" |};
  wc_logging := LoggingConfig_default; wc_reconnect := WorkerReconnect_default; wc_token := None; wc_http_port := 8081;
  tracked_disk_paths := [] |}.

Definition sample_assignment (job_id : string) : JobAssignment := {|
  ja_job_id := job_id; ja_command := "make"; ja_job_type := "common"; ja_required_cpu := 0; ja_required_memory_mb := 0;
  ja_required_disk_mb := 0; ja_isolation_required := false; ja_branch_id := ""; ja_environment := ∅; ja_cancel := None;
  ja_job_group_id := "g"; ja_stage_name := "build"; ja_pre_script := ""; ja_post_script := ""; ja_max_duration_secs := 0;
  ja_secret_env_keys := []; ja_pre_script_lock := None; ja_post_script_lock := None; ja_purge_group_files := None; ja_group_created_at := "" |}.

Definition assign (a : JobAssignment) (jobs : RunningJobs) : handling * RunningJobs :=
  handle_job_assignment sample_config (fun _ => None) None (fun _ => Gone) 0 a jobs.

(** The same assignment twice. *)
Lemma job_runs_once_witness :
  let ag := {| ag_jobs := (assign (sample_assignment "j1") (assign (sample_assignment "j1") []).2).2; ag_tasks := ["j1"] |} in
  NoDup (ag_tasks ag) /\ ag_tasks ag ≡ₚ rs_job_id <$> ag_jobs ag.
Proof.
  intros ag. apply (job_runs_once sample_config ag).
  apply (rtc_l _ _ {| ag_jobs := (assign (sample_assignment "j1") []).2; ag_tasks := ["j1"] |});
    [|apply (rtc_l _ _ ag); [|reflexivity]].
  - apply (as_assign sample_config {| ag_jobs := []; ag_tasks := [] |} (fun _ => None) None (fun _ => Gone) 0 (sample_assignment "j1")
      (assign (sample_assignment "j1") []).1). reflexivity.
  - apply (as_assign sample_config {| ag_jobs := (assign (sample_assignment "j1") []).2; ag_tasks := ["j1"] |} (fun _ => None) None (fun _ => Gone) 0
      (sample_assignment "j1") (AlreadyRunning "j1")). reflexivity.
Defined.

Definition cancel_assignment (job_id : string) : JobAssignment :=
  {| (sample_assignment job_id) with ja_cancel := Some {| ca_job_id := job_id; ca_reason := "user"; ca_signal := 0 |} |}.

(** The channel holds one signal and is read only while the command runs: a
    second cancel of a job that is still in its pre-script stalls the session
    loop, with the list of running jobs locked for reading. *)
Example second_cancel_stalls :
  let jobs := (assign (cancel_assignment "j1") (assign (sample_assignment "j1") []).2).2 in
  (assign (cancel_assignment "j1") jobs).1 = CancelStalled "j1" 15.
Proof. reflexivity. Qed.

(** The REST address derived from a controller address without a port keeps only
    the scheme. *)
Example http_url_without_port : controller_http_url sample_config = "http:8080".
Proof. reflexivity. Qed.

(** ** Purging removes what stages wrote *)

(** [q] is the directory [d] or lies below it. *)
Definition below (d q : string) : bool := bool_decide (q = d) || starts_with (d +:+ "/") q.

(** Purging a group removes everything its stages wrote, and touches nothing
    else: for a group id that is a plain file name, the paths removed are the
    directories of that name in the scratch, log and work roots, whatever the
    removals answer; the log, workspace and stage directories
    of every stage and job of the group lie below the first; and the purge is
    acknowledged as successful exactly when no removal failed. *)
Theorem purge_covers_stages (config : WorkerConfig) (parse : string -> option timestamp) (startup created : option timestamp)
    (remove : string -> removal) (now : Z) (a : JobAssignment) (gid : string) (jobs : RunningJobs) :
  ja_purge_group_files a = Some {| pg_group_id := gid |} -> plain gid = true -> gid <> EmptyString ->
  proper_dir (scratch_root (execution config)) -> proper_dir (ex_log_dir (execution config)) -> proper_dir (work_dir (execution config)) ->
  exists ack, handle_job_assignment config parse startup remove now a jobs =
      (Purged [(scratch_root (execution config) +:+ "/" +:+ gid)%string; (ex_log_dir (execution config) +:+ "/" +:+ gid)%string;
               (work_dir (execution config) +:+ "/" +:+ gid)%string] ack, jobs) /\
    su_purge_ack ack = true /\ su_job_group_id ack = gid /\
    (su_state ack = PROTO_SUCCESS <-> forall p, p ∈ purge_targets gid (scratch_root (execution config)) (ex_log_dir (execution config)) (work_dir (execution config)) ->
       forall e, remove p <> RemoveFailed e) /\
    forall stage_name job_id,
      let p := resolve_paths (scratch_root (execution config)) (ex_log_dir (execution config)) (work_dir (execution config)) created startup gid stage_name job_id in
      let d := (scratch_root (execution config) +:+ "/" +:+ gid)%string in
      below d (rp_log_path p) = true /\ below d (rp_workspace_dir p) = true /\
      (forall q, rp_stage_dir p = Some q \/ rp_stages_dir p = Some q -> below d q = true).
Proof.
  intros Ha Hp Hne H1 H2 H3. unfold handle_job_assignment. rewrite Ha. cbn [pg_group_id]. unfold purge_group_dirs.
  set (fails := omap _ _). assert (Hj : forall d, proper_dir d -> path_join d gid = (d +:+ "/" +:+ gid)%string).
  { intros d Hd. apply path_join_proper; [done|by apply plain_relative]. }
  eexists. split; [unfold purge_targets; rewrite !Hj by done; reflexivity|]. split_and!; [done|done| |].
  - assert (Hf : fails = [] <-> forall p, p ∈ purge_targets gid (scratch_root (execution config)) (ex_log_dir (execution config)) (work_dir (execution config)) ->
      forall e, remove p <> RemoveFailed e).
    { unfold fails. generalize (purge_targets gid (scratch_root (execution config)) (ex_log_dir (execution config)) (work_dir (execution config))) as l.
      intros l. split.
      - intros E p Hin e He. assert (Hx : (p +:+ ": " +:+ e)%string ∈ omap (fun path => match remove path with
          RemoveFailed e => Some (path +:+ ": " +:+ e)%string | _ => None end) l) by (apply list_elem_of_omap; exists p; by rewrite He).
        rewrite E in Hx. by apply elem_of_nil in Hx.
      - intros H. destruct (omap _ l) as [|x xs] eqn:E; [done|]. assert (Hx : x ∈ x :: xs) by left. rewrite <- E in Hx.
        apply list_elem_of_omap in Hx as (p & Hin & Hr). specialize (H p Hin). destruct (remove p); try done. by destruct (H msg). }
    rewrite <- Hf. unfold purge_ack. simpl. case_bool_decide; simpl; split; try done.
  - intros stage_name job_id. cbv zeta.
    destruct (resolve_paths_spec (scratch_root (execution config)) (ex_log_dir (execution config)) (work_dir (execution config)) created startup
      gid stage_name job_id H1 Hne) as (g & s & _ & _ & Hg & _ & Hl & Hw & Hss & Hs). rewrite (Hg Hp) in *.
    rewrite (bool_decide_eq_false_2 (gid = EmptyString)) in Hl, Hw, Hss, Hs by done.
    assert (Hb : forall x, below (scratch_root (execution config) +:+ "/" +:+ gid)
      ((scratch_root (execution config) +:+ "/" +:+ gid +:+ "/") +:+ x) = true).
    { intros x. unfold below. rewrite <- !str_app_assoc, !str_app_assoc. apply orb_true_iff. right.
      rewrite <- !str_app_assoc. apply starts_with_app. }
    rewrite Hl, Hw. split_and!; [apply Hb|apply Hb|]. rewrite Hss, Hs. intros q [E|E].
    + destruct (_ || _); [done|]. injection E as <-. apply Hb.
    + injection E as <-. apply Hb.
Qed.

Lemma purge_covers_stages_witness :
  let a := {| (sample_assignment "") with ja_purge_group_files := Some {| pg_group_id := "g-1" |} |} in
  exists ack, handle_job_assignment sample_config (fun _ => None) None (fun _ => Gone) 0 a [] =
    (Purged ["/d/scratch/g-1"; "/d/logs/g-1"; "/d/jobs/g-1"] ack, []) /\
    below "/d/scratch/g-1" (rp_log_path (resolve_paths "/d/scratch" "/d/logs" "/d/jobs" None None "g-1" "../x" "j")) = true.
Proof.
  intros a. destruct (purge_covers_stages sample_config (fun _ => None) None None (fun _ => Gone) 0 a "g-1" []) as (ack & E & _ & _ & _ & H);
    [reflexivity|reflexivity|discriminate|split; [discriminate|vm_compute; discriminate]..|].
  exists ack. split; [exact E|]. destruct (H "../x" "j") as [Hb _]. exact Hb.
Defined.

(** Nothing checks the group id of a purge: the empty one names the three roots. *)
Example purge_without_id : purge_targets "" "/d/scratch" "/d/logs" "/d/jobs" = ["/d/scratch/"; "/d/logs/"; "/d/jobs/"].
Proof. reflexivity. Qed.

(** ** The disks reported do not depend on the hash map *)

Lemma by_mount_point_total l : cmp_total_on by_mount_point l.
Proof.
  unfold cmp_total_on, cmp_le, by_mount_point. split.
  - intros x y _ _. rewrite (str_cmp_antisym (di_mount_point x)). destruct (str_cmp _ _); simpl; auto.
  - intros x y z _ _ _. apply str_cmp_trans.
Qed.

(** The disk kept for a device: the first with the shortest mount point. *)
Definition shorter (dev : string) (best : option Disk) (d : Disk) : option Disk :=
  if is_noise d || negb (bool_decide (dk_name d = dev)) then best
  else match best with
       | Some b => if (String.length (dk_mount_point d) <? String.length (dk_mount_point b))%nat then Some d else best
       | None => Some d
       end.

Lemma keep_shortest_lookup disks dev m best :
  m !! dev = disk_info <$> best ->
  foldl keep_shortest m disks !! dev = disk_info <$> foldl (shorter dev) best disks.
Proof.
  revert m best. induction disks as [|d disks IH]; intros m best H; [done|]. simpl. apply IH.
  unfold keep_shortest, shorter. destruct (is_noise d); [done|]. simpl. case_bool_decide as Hn; simpl.
  - subst dev. rewrite H. destruct best as [b|]; simpl; [|by rewrite lookup_insert_eq].
    destruct (_ <? _)%nat; [by rewrite lookup_insert_eq|done].
  - destruct (m !! dk_name d) as [e|]; [destruct (_ <? _)%nat|]; by rewrite ?lookup_insert_ne by done.
Qed.

Lemma shorter_spec dev disks best : match foldl (shorter dev) best disks with
  | Some d => (best = Some d \/ (d ∈ disks /\ is_noise d = false /\ dk_name d = dev)) /\
      (forall b, best = Some b -> (String.length (dk_mount_point d) <= String.length (dk_mount_point b))%nat) /\
      (forall d', d' ∈ disks -> is_noise d' = false -> dk_name d' = dev ->
         (String.length (dk_mount_point d) <= String.length (dk_mount_point d'))%nat)
  | None => best = None /\ forall d', d' ∈ disks -> is_noise d' = false -> dk_name d' <> dev
  end.
Proof.
  revert best. induction disks as [|x disks IH]; intros best.
  { simpl. destruct best as [b|]; [split_and!; [by left|by intros ? [= <-]|]|split; [done|]]; by intros d' ?%elem_of_nil. }
  simpl. specialize (IH (shorter dev best x)).
  assert (Hx : match shorter dev best x with
    | Some y => (best = Some y \/ (y = x /\ is_noise x = false /\ dk_name x = dev)) /\
        (forall b, best = Some b -> (String.length (dk_mount_point y) <= String.length (dk_mount_point b))%nat) /\
        (is_noise x = false -> dk_name x = dev -> (String.length (dk_mount_point y) <= String.length (dk_mount_point x))%nat)
    | None => best = None /\ (is_noise x = false -> dk_name x <> dev)
    end).
  { unfold shorter. destruct (is_noise x) eqn:En; simpl; [destruct best; split_and!; auto; naive_solver|].
    case_bool_decide as Hn; simpl; [|destruct best; split_and!; auto; naive_solver].
    destruct best as [b|]; [|split_and!; auto; naive_solver].
    destruct (Nat.ltb_spec (String.length (dk_mount_point x)) (String.length (dk_mount_point b))); split_and!; auto; intros; simplify_eq; lia. }
  destruct (foldl (shorter dev) (shorter dev best x) disks) as [d|].
  - destruct IH as (Hd & Hb & Hall). split_and!.
    + destruct Hd as [E|(Hin & ? & ?)]; [|right; split_and!; [by right|done|done]]. rewrite E in Hx.
      destruct Hx as ([?|(-> & ? & ?)] & _); [by left|right; split_and!; [by left|done|done]].
    + intros b Eb. destruct (shorter dev best x) as [y|] eqn:Ey; [|by destruct Hx; congruence].
      etrans; [by apply Hb|]. by apply Hx.
    + intros d' [->|Hin]%elem_of_cons Hn Hname; [|by apply Hall].
      destruct (shorter dev best x) as [y|]; [|by destruct Hx as [_ Hx]; destruct (Hx Hn)]. etrans; [by apply Hb|]. by apply Hx.
  - destruct IH as [IH1 IH2]. rewrite IH1 in Hx. destruct Hx as [Hx1 Hx2]. split; [done|].
    intros d' [->|Hin]%elem_of_cons; [done|by apply IH2].
Qed.

(** The disks a worker reports are a function of its disks: with distinct
    mount points, the list is the same for every iteration order of the hash map
    it is collected in. It is ordered by mount point, has every device with a
    mount that is not noise, once, and for each the shortest of its mounts. *)
Theorem disk_details_deterministic (HI1 HI2 : HashIter) (disks : list Disk) :
  NoDup (dk_mount_point <$> disks) ->
  let details := collect_disk_details (HI := HI1) disks [] in
  details = collect_disk_details (HI := HI2) disks [] /\
  StronglySorted (cmp_le by_mount_point) details /\ NoDup (di_device <$> details) /\
  (forall i, i ∈ details -> exists d, d ∈ disks /\ is_noise d = false /\ i = disk_info d /\
     forall d', d' ∈ disks -> is_noise d' = false -> dk_name d' = dk_name d ->
       (String.length (dk_mount_point d) <= String.length (dk_mount_point d'))%nat) /\
  (forall d, d ∈ disks -> is_noise d = false -> dk_name d ∈ di_device <$> details).
Proof.
  intros Hnd details. unfold details, collect_disk_details. simpl. set (m := foldl keep_shortest ∅ disks).
  assert (Hm : forall dev, m !! dev = disk_info <$> foldl (shorter dev) None disks) by (intros dev; by apply keep_shortest_lookup).
  assert (Hin : forall (HI : HashIter) i, i ∈ hvalues m <-> exists dev d, foldl (shorter dev) None disks = Some d /\ i = disk_info d).
  { intros HI i. rewrite elem_of_hvalues. setoid_rewrite Hm. setoid_rewrite fmap_Some. done. }
  assert (Hsrc : forall dev d, foldl (shorter dev) None disks = Some d -> d ∈ disks /\ is_noise d = false /\ dk_name d = dev /\
    forall d', d' ∈ disks -> is_noise d' = false -> dk_name d' = dev -> (String.length (dk_mount_point d) <= String.length (dk_mount_point d'))%nat).
  { intros dev d E. pose proof (shorter_spec dev disks None) as H. rewrite E in H. destruct H as ([?|(? & ? & ?)] & _ & ?); [done|auto]. }
  assert (Huniq : forall x y, x ∈ hvalues (HI := HI1) m -> y ∈ hvalues (HI := HI1) m -> di_mount_point x = di_mount_point y -> x = y).
  { intros x y (dev & d & E & ->)%Hin (dev' & d' & E' & ->)%Hin Hmp. f_equal. simpl in Hmp.
    destruct (Hsrc _ _ E) as [H1 _], (Hsrc _ _ E') as [H2 _].
    apply list_elem_of_lookup in H1 as [i Hi]. apply list_elem_of_lookup in H2 as [j Hj].
    assert (i = j) as ->; [|congruence]. eapply (NoDup_lookup (dk_mount_point <$> disks)); [done|rewrite list_lookup_fmap, Hi; done|].
    rewrite list_lookup_fmap, Hj. simpl. by rewrite Hmp. }
  split_and!.
  - apply sort_by_unique; [|apply by_mount_point_total|].
    + unfold hvalues. by rewrite (hiter_perm (HashIter := HI1) m), (hiter_perm (HashIter := HI2) m).
    + intros x y Hx Hy H1 H2. apply Huniq; [done..|]. apply str_cmp_eq. unfold cmp_le, by_mount_point in *.
      rewrite str_cmp_antisym in H2. destruct (str_cmp (di_mount_point x) (di_mount_point y)); done.
  - apply sort_by_sorted, by_mount_point_total.
  - rewrite sort_by_perm. assert (Hdev : forall k i, (k, i) ∈ hiter (HashIter := HI1) m -> di_device i = k).
    { intros k i Hk. apply elem_of_hiter in Hk. rewrite Hm in Hk. apply fmap_Some in Hk as (d & E & ->).
      by destruct (Hsrc _ _ E) as (_ & _ & ? & _). }
    assert (Hk : di_device <$> hvalues (HI := HI1) m = hkeys (HI := HI1) m).
    { unfold hvalues, hkeys. revert Hdev. generalize (hiter (HashIter := HI1) m) as l. intros l. induction l as [|[k i] l IH]; intros H; [done|].
      rewrite !fmap_cons. simpl. rewrite (H k i) by left. f_equal. apply IH. intros k' i' Hk'. apply H. by right. }
    rewrite Hk. apply NoDup_hkeys.
  - intros i Hi. rewrite elem_of_sort_by in Hi. apply Hin in Hi as (dev & d & E & ->).
    destruct (Hsrc _ _ E) as (H1 & H2 & <- & H3). exists d. auto.
  - intros d Hd Hn. rewrite sort_by_perm. pose proof (shorter_spec (dk_name d) disks None) as H.
    destruct (foldl (shorter (dk_name d)) None disks) as [d0|] eqn:E; [|by destruct H as [_ H]; destruct (H d Hd Hn)].
    destruct (Hsrc _ _ E) as (_ & _ & Hname & _). apply list_elem_of_fmap. exists (disk_info d0).
    split; [by rewrite <- Hname|]. apply Hin. eauto.
Qed.

Definition sample_disks : list Disk := [
  {| dk_mount_point := "/data/cache"; dk_name := "/dev/sdb"; dk_file_system := "ext4"; dk_total_space := 2097152; dk_available_space := 1048576 |};
  {| dk_mount_point := "/run"; dk_name := "tmpfs"; dk_file_system := "tmpfs"; dk_total_space := 1048576; dk_available_space := 1048576 |};
  {| dk_mount_point := "/"; dk_name := "/dev/sda"; dk_file_system := "ext4"; dk_total_space := 4194304; dk_available_space := 1048576 |};
  {| dk_mount_point := "/data"; dk_name := "/dev/sdb"; dk_file_system := "ext4"; dk_total_space := 2097152; dk_available_space := 1048576 |}].

Example sample_disk_details : di_mount_point <$> collect_disk_details (HI := map_iter) sample_disks [] = ["/"; "/data"].
Proof. vm_compute. reflexivity. Qed.

Lemma disk_details_deterministic_witness :
  NoDup (di_device <$> collect_disk_details (HI := map_iter) sample_disks []) /\
  "/dev/sdb" ∈ di_device <$> collect_disk_details (HI := map_iter) sample_disks [].
Proof.
  destruct (disk_details_deterministic map_iter map_iter sample_disks) as (_ & _ & H1 & _ & H2).
  - vm_compute. repeat (constructor; [by rewrite ?elem_of_cons, ?elem_of_nil; intros H; repeat destruct H as [H|H]; discriminate H || done|]). constructor.
  - split; [exact H1|]. apply (H2 {| dk_mount_point := "/data"; dk_name := "/dev/sdb"; dk_file_system := "ext4"; dk_total_space := 2097152; dk_available_space := 1048576 |}).
    + do 3 right. left.
    + reflexivity.
Defined.
