(* ===== verification/LogAggregator.v ===== *)
(** * The controller's log aggregator
    (crates/ci-controller/src/log_aggregator.rs, [stream_logs] of grpc_server.rs)

    A broadcast channel is its identity and the chunks sent on it so far; a
    receiver is a channel's identity with the number of chunks sent before it
    subscribed. Log files are a map from path to contents; whether the file can
    be opened and written is an argument of the append. [finalize] and
    [cleanup_old_logs] take the reading of the clock. *)

From Stdlib Require Import ZArith Lia Ascii.
From stdpp Require Import gmap strings list fin_maps.
From S2P Require Import Prelude Text LogStreamer.

Definition MAX_BUFFERED_BYTES_PER_JOB : Z := 50 * 1024 * 1024.

Record LogChunkData := {
  cd_worker_id : string;
  cd_offset : Z;
  cd_data : string;
  cd_timestamp_unix : Z
}.

Record channel := {
  chan_id : nat;
  chan_sent : list LogChunkData
}.

Record receiver := {
  rx_chan : nat;
  rx_from : nat
}.

Record JobLogState := {
  last_offset_of : Z;
  total_bytes : Z;
  complete : bool;
  log_data : string;
  broadcast_tx : channel;
  finalized_at : option timestamp
}.

Record LogAggregator := {
  jobs : gmap string JobLogState;
  log_dir : option string;
  uuid_aliases : gmap string string;
  job_log_paths : gmap string string;
  next_chan : nat;
  disk : gmap string string
}.

Definition LogAggregator_new (log_dir : option string) : LogAggregator := {|
  jobs := ∅; log_dir := log_dir; uuid_aliases := ∅; job_log_paths := ∅; next_chan := 0; disk := ∅
|}.

Definition register_alias (uuid job_id : string) (a : LogAggregator) : LogAggregator :=
  {| a with uuid_aliases := <[uuid := job_id]> (uuid_aliases a) |}.

Definition register_log_path (job_id group_id stage_name : string) (a : LogAggregator) : LogAggregator :=
  {| a with job_log_paths := <[job_id := (group_id +:+ "/" +:+ stage_name +:+ ".log")%string]> (job_log_paths a) |}.

Definition resolve_job_id (id : string) (a : LogAggregator) : string := default id (uuid_aliases a !! id).

Definition fresh_state (chan : nat) : JobLogState := {|
  last_offset_of := 0;
  total_bytes := 0;
  complete := false;
  log_data := EmptyString;
  broadcast_tx := {| chan_id := chan; chan_sent := [] |};
  finalized_at := None
|}.

Definition send (c : LogChunkData) (ch : channel) : channel := {| ch with chan_sent := chan_sent ch ++ [c] |}.

Definition len (s : string) : Z := Z.of_nat (String.length s).

Definition log_path_of (dir job_id : string) (a : LogAggregator) : string :=
  match job_log_paths a !! job_id with
  | Some structured => (dir +:+ "/" +:+ structured)%string
  | None => (dir +:+ "/" +:+ job_id +:+ ".log")%string
  end.

(** [entry(job_id).or_insert_with(..)], then the reset of a fresh run. *)
Definition entry_state (job_id : string) (offset : Z) (a : LogAggregator) : JobLogState * nat :=
  let '(state, chan) :=
    match jobs a !! job_id with
    | Some state => (state, next_chan a)
    | None => (fresh_state (next_chan a), S (next_chan a))
    end in
  if bool_decide (offset = 0) && (0 <? last_offset_of state) then (fresh_state chan, S chan) else (state, chan).

Definition append_chunk (disk_ok : bool) (job_id worker_id : string) (offset : Z) (data : string)
    (timestamp_unix : Z) (a : LogAggregator) : Z * LogAggregator :=
  let '(state, chan) := entry_state job_id offset a in
  let put st dsk := {| a with jobs := <[job_id := st]> (jobs a); next_chan := chan; disk := dsk |} in
  if offset <? last_offset_of state then (last_offset_of state, put state (disk a))
  else
    let chunk := {| cd_worker_id := worker_id; cd_offset := offset; cd_data := data;
                    cd_timestamp_unix := timestamp_unix |} in
    let state1 := {| state with
      last_offset_of := u64_add offset (len data);
      total_bytes := u64_add (total_bytes state) (len data) |} in
    let full := MAX_BUFFERED_BYTES_PER_JOB <? len (log_data state1) + len data in
    match log_dir a with
    | None =>
        let state2 := if full then state1 else {| state1 with log_data := (log_data state1 +:+ data)%string |} in
        let state3 := {| state2 with broadcast_tx := send chunk (broadcast_tx state2) |} in
        (last_offset_of state3, put state3 (disk a))
    | Some dir =>
        let kept :=
          if full then
            let overflow := len (log_data state1) + len data - MAX_BUFFERED_BYTES_PER_JOB in
            let drain := Z.min overflow (len (log_data state1)) in
            str_drop (Z.to_nat drain) (log_data state1)
          else log_data state1 in
        let path := log_path_of dir job_id a in
        let dsk := if disk_ok then <[path := (default EmptyString (disk a !! path) +:+ data)%string]> (disk a)
                   else disk a in
        let state3 := {| state1 with
          log_data := (kept +:+ data)%string;
          broadcast_tx := send chunk (broadcast_tx state1) |} in
        (last_offset_of state3, put state3 dsk)
    end.

Definition last_offset (job_id : string) (a : LogAggregator) : Z :=
  match jobs a !! resolve_job_id job_id a with Some s => last_offset_of s | None => 0 end.

Definition finalize (now : timestamp) (job_id : string) (a : LogAggregator) : LogAggregator :=
  {| a with jobs := alter (fun s => {| s with complete := true; finalized_at := Some now |}) job_id (jobs a) |}.

Definition is_complete (job_id : string) (a : LogAggregator) : bool :=
  match jobs a !! resolve_job_id job_id a with Some s => complete s | None => false end.

Definition get_log_data (job_id : string) (a : LogAggregator) : string :=
  match jobs a !! resolve_job_id job_id a with Some s => log_data s | None => EmptyString end.

(** The bytes of [get_log_string], before their decoding as text: the buffer,
    or else the structured file, or else the flat file. *)
Definition get_log_bytes (job_id : string) (a : LogAggregator) : string :=
  let data := get_log_data job_id a in
  if negb (bool_decide (data = EmptyString)) then data
  else
    match log_dir a with
    | None => EmptyString
    | Some dir =>
        let id := resolve_job_id job_id a in
        let structured := path ← job_log_paths a !! id; disk a !! (dir +:+ "/" +:+ path)%string in
        match structured with
        | Some contents => contents
        | None => default EmptyString (disk a !! (dir +:+ "/" +:+ id +:+ ".log")%string)
        end
    end.

Definition buffered_from (from_offset : Z) (state : JobLogState) : list LogChunkData :=
  let actual_offset := if len (log_data state) <? from_offset then len (log_data state) else from_offset in
  let chunk off data :=
    {| cd_worker_id := EmptyString; cd_offset := off; cd_data := data; cd_timestamp_unix := 0 |} in
  if bool_decide (actual_offset = 0) then
    if negb (bool_decide (log_data state = EmptyString)) then [chunk 0 (log_data state)] else []
  else if actual_offset <? len (log_data state) then
    [chunk actual_offset (str_drop (Z.to_nat actual_offset) (log_data state))]
  else [].

Definition subscribe (job_id : string) (from_offset : Z) (a : LogAggregator)
    : list LogChunkData * receiver * bool * LogAggregator :=
  let id := resolve_job_id job_id a in
  match jobs a !! id with
  | Some state =>
      (buffered_from from_offset state,
       {| rx_chan := chan_id (broadcast_tx state); rx_from := length (chan_sent (broadcast_tx state)) |},
       complete state, a)
  | None =>
      ([], {| rx_chan := next_chan a; rx_from := 0 |}, false,
       {| a with jobs := <[id := fresh_state (next_chan a)]> (jobs a); next_chan := S (next_chan a) |})
  end.

(** Buffers of finalized jobs that have reached the age are dropped. *)
Definition expired (now max_age_secs : Z) (s : JobLogState) : Prop :=
  complete s = true /\ match finalized_at s with
                       | Some t => max_age_secs < num_seconds (now - t)
                       | None => False
                       end.

#[export] Instance expired_dec now age s : Decision (expired now age s).
Proof. unfold expired. destruct (finalized_at s); apply _. Defined.

Definition cleanup_old_logs `{HI : HashIter} (now max_age_secs : Z) (a : LogAggregator) : LogAggregator :=
  let to_remove := (filter (fun ks => expired now max_age_secs ks.2) (hiter (jobs a))).*1 in
  {| a with jobs := foldl (fun m id => delete id m) (jobs a) to_remove |}.

(** [stream_logs]: the chunks in order, then [finalize] of the last job seen;
    [disk_ok] says which disk writes succeed, [now] is the clock at the end. *)
Fixpoint consume (disk_ok : nat -> bool) (n : nat) (chunks : list LogChunk) (last : string * Z) (a : LogAggregator)
    : (string * Z) * LogAggregator :=
  match chunks with
  | [] => (last, a)
  | c :: cs =>
      let '(off, a') :=
        append_chunk (disk_ok n) (lc_job_id c) (lc_worker_id c) (lc_offset c) (lc_data c) (lc_timestamp_unix c) a in
      consume disk_ok (S n) cs (lc_job_id c, off) a'
  end.

Definition stream_logs (disk_ok : nat -> bool) (now : timestamp) (chunks : list LogChunk) (a : LogAggregator)
    : (string * Z) * LogAggregator :=
  let '((job_id, off), a') := consume disk_ok 0 chunks (EmptyString, 0) a in
  ((job_id, off), finalize now job_id a').

(** ** One append *)

Definition job_state (job_id : string) (a : LogAggregator) : option JobLogState := jobs a !! job_id.

Lemma str_drop_0 s : str_drop 0 s = s.
Proof. by destruct s. Qed.

Lemma append_dup disk_ok job w off data ts a st :
  jobs a !! job = Some st -> 0 < off < last_offset_of st ->
  append_chunk disk_ok job w off data ts a = (last_offset_of st, a).
Proof.
  intros Hj Hoff. unfold append_chunk, entry_state. rewrite Hj.
  rewrite (bool_decide_eq_false_2 (off = 0)) by lia. simpl.
  destruct (Z.ltb_spec off (last_offset_of st)); [|lia].
  f_equal. destruct a. simpl in *. f_equal. by apply insert_id.
Qed.

(** The state of the job that a chunk is appended to: its own, unless the
    chunk starts a fresh run. *)
Definition run_state (job : string) (off : Z) (a : LogAggregator) : JobLogState := (entry_state job off a).1.

Lemma run_state_fresh job a :
  (forall st, jobs a !! job = Some st -> last_offset_of st = 0 -> log_data st = EmptyString /\ total_bytes st = 0) ->
  (forall st, jobs a !! job = Some st -> 0 <= last_offset_of st) ->
  log_data (run_state job 0 a) = EmptyString /\ last_offset_of (run_state job 0 a) = 0 /\
  total_bytes (run_state job 0 a) = 0.
Proof.
  intros Hz Hnn. unfold run_state, entry_state. destruct (jobs a !! job) as [st|] eqn:Hj; simpl.
  - destruct (Z.ltb_spec 0 (last_offset_of st)); simpl; [done|].
    specialize (Hnn st eq_refl). destruct (Hz st eq_refl) as [H1 H2]; [lia|].
    split_and!; [done|lia|done].
  - done.
Qed.

(** The last bytes that fit the bound. *)
Definition tail_fit (s : string) : string := str_drop (Z.to_nat (len s - MAX_BUFFERED_BYTES_PER_JOB)) s.

Lemma str_drop_app_le n a b : (n <= String.length a)%nat -> str_drop n (a +:+ b) = (str_drop n a +:+ b)%string.
Proof.
  revert a. induction n as [|n IH]; intros a Hn; [by rewrite !str_drop_0|].
  destruct a as [|c a]; simpl in Hn; [lia|]. rewrite str_cons_app. simpl. apply IH. lia.
Qed.

Lemma len_app a b : len (a +:+ b) = len a + len b.
Proof. unfold len. rewrite str_length_app. lia. Qed.

Lemma len_nonneg a : 0 <= len a.
Proof. unfold len. lia. Qed.

Lemma len_drop n a : len (str_drop n a) = Z.max 0 (len a - Z.of_nat n).
Proof. unfold len. rewrite str_length_drop. lia. Qed.

Lemma tail_fit_le s : len s <= MAX_BUFFERED_BYTES_PER_JOB -> tail_fit s = s.
Proof. intros H. unfold tail_fit. rewrite Z2Nat.nonpos by lia. apply str_drop_0. Qed.

Lemma tail_fit_len s : len (tail_fit s) = Z.min (len s) MAX_BUFFERED_BYTES_PER_JOB.
Proof. unfold tail_fit. rewrite len_drop. pose proof (len_nonneg s). unfold MAX_BUFFERED_BYTES_PER_JOB. lia. Qed.

(** Draining the overflow keeps the tail of the whole log. *)
Lemma tail_fit_app s d :
  len d <= MAX_BUFFERED_BYTES_PER_JOB ->
  (str_drop (Z.to_nat (Z.min (len (tail_fit s) + len d - MAX_BUFFERED_BYTES_PER_JOB) (len (tail_fit s))))
     (tail_fit s) +:+ d)%string = tail_fit (s +:+ d).
Proof.
  intros Hd. rewrite tail_fit_len. unfold tail_fit. rewrite len_app, str_drop_drop.
  pose proof (len_nonneg s) as H1. pose proof (len_nonneg d) as H2.
  rewrite <- str_drop_app_le.
  - f_equal. unfold MAX_BUFFERED_BYTES_PER_JOB in *. lia.
  - unfold len in *. unfold MAX_BUFFERED_BYTES_PER_JOB in *. lia.
Qed.

(** ** The invariant *)

Definition log_state_wf (st : JobLogState) : Prop :=
  0 <= last_offset_of st /\
  (last_offset_of st = 0 -> log_data st = EmptyString /\ total_bytes st = 0) /\
  len (log_data st) <= MAX_BUFFERED_BYTES_PER_JOB.

Definition agg_wf (a : LogAggregator) : Prop := map_Forall (fun _ => log_state_wf) (jobs a).

(** A chunk that a transport message can carry. *)
Definition chunk_wf (off : Z) (data : string) : Prop :=
  0 <= off /\ off + len data < 2 ^ 64 /\ len data <= MAX_BUFFERED_BYTES_PER_JOB.

Lemma fresh_state_wf n : log_state_wf (fresh_state n).
Proof. by repeat split. Qed.

Lemma run_state_wf job off a : agg_wf a -> log_state_wf (run_state job off a).
Proof.
  intros Ha. unfold run_state, entry_state. destruct (jobs a !! job) as [st|] eqn:Hj.
  - destruct (_ && _); [apply fresh_state_wf|exact (Ha _ _ Hj)].
  - destruct (_ && _); apply fresh_state_wf.
Qed.

(** [append_chunk] with the job's entry made explicit. *)
Lemma append_chunk_eq disk_ok job w off data ts a :
  exists st dsk chan, append_chunk disk_ok job w off data ts a =
    (last_offset_of st, {| a with jobs := <[job := st]> (jobs a); next_chan := chan; disk := dsk |}) /\
    let st0 := run_state job off a in
    if off <? last_offset_of st0 then st = st0 /\ dsk = disk a
    else
      last_offset_of st = u64_add off (len data) /\
      total_bytes st = u64_add (total_bytes st0) (len data) /\
      complete st = complete st0 /\ finalized_at st = finalized_at st0 /\
      log_data st =
        match log_dir a with
        | None => if MAX_BUFFERED_BYTES_PER_JOB <? len (log_data st0) + len data then log_data st0
                  else (log_data st0 +:+ data)%string
        | Some _ =>
            (str_drop (Z.to_nat (Z.min (len (log_data st0) + len data - MAX_BUFFERED_BYTES_PER_JOB)
                                       (len (log_data st0)))) (log_data st0) +:+ data)%string
        end.
Proof.
  unfold append_chunk, run_state. destruct (entry_state job off a) as [st0 chan]. cbn [fst].
  destruct (off <? last_offset_of st0); [by eexists _, _, _|].
  destruct (log_dir a) as [dir|].
  - eexists _, _, _. split; [reflexivity|]. cbn. split_and!; try done. f_equal.
    destruct (Z.ltb_spec MAX_BUFFERED_BYTES_PER_JOB (len (log_data st0) + len data)); [done|].
    rewrite (Z2Nat.nonpos (Z.min _ _)) by lia. by rewrite str_drop_0.
  - eexists _, _, _. split; [reflexivity|]. cbn.
    destruct (MAX_BUFFERED_BYTES_PER_JOB <? _); by split_and!.
Qed.

Lemma append_wf disk_ok job w off data ts a :
  agg_wf a -> chunk_wf off data -> agg_wf (append_chunk disk_ok job w off data ts a).2.
Proof.
  intros Ha (Ho & Hlt & Hd).
  destruct (append_chunk_eq disk_ok job w off data ts a) as (st & dsk & chan & -> & Hst). cbv zeta in Hst.
  apply map_Forall_insert_2; [|done]. pose proof (run_state_wf job off a Ha) as (H1 & H2 & H3).
  destruct (Z.ltb_spec off (last_offset_of (run_state job off a))); [by destruct Hst as [-> _]|].
  destruct Hst as (Hl & Ht & _ & _ & Hdata). pose proof (len_nonneg data) as Hn.
  rewrite u64_add_small in Hl by lia. split_and!; [lia| |].
  - intros Hz. assert (len data = 0 /\ off = 0) as [Hd0 Hoff] by lia.
    destruct H2 as [E1 E2]; [lia|]. rewrite Hdata, Ht, E1, E2, Hd0.
    assert (data = EmptyString) as -> by (destruct data; [done|unfold len in Hd0; simpl in Hd0; lia]).
    split; [by destruct (log_dir a)|done].
  - rewrite Hdata. destruct (log_dir a).
    + rewrite len_app, len_drop. unfold MAX_BUFFERED_BYTES_PER_JOB in *. lia.
    + destruct (Z.ltb_spec MAX_BUFFERED_BYTES_PER_JOB (len (log_data (run_state job off a)) + len data));
        [done|]. rewrite len_app. lia.
Qed.

Lemma foldl_delete_subseteq {A} ids (m : gmap string A) : foldl (fun m id => delete id m) m ids ⊆ m.
Proof.
  revert m. induction ids as [|id ids IH]; intros m; simpl; [done|]. etrans; [apply IH|apply delete_subseteq].
Qed.

Inductive agg_step `{HI : HashIter} : LogAggregator -> LogAggregator -> Prop :=
| agg_alias u j a : agg_step a (register_alias u j a)
| agg_path j g s a : agg_step a (register_log_path j g s a)
| agg_append ok j w off data ts a : chunk_wf off data -> agg_step a (append_chunk ok j w off data ts a).2
| agg_finalize now j a : agg_step a (finalize now j a)
| agg_subscribe j off a : agg_step a (subscribe j off a).2
| agg_cleanup now age a : agg_step a (cleanup_old_logs now age a).

(** Memory stays bounded: whatever sequence of appends, subscriptions,
    finalizations and clean-ups happens, no job's buffer exceeds 50 MB (chunks
    themselves being within the bound), and a job at offset 0 has an empty
    buffer. *)
Theorem buffer_bounded `{HI : HashIter} (a a' : LogAggregator) :
  agg_wf a -> rtc agg_step a a' -> agg_wf a'.
Proof.
  intros Ha Hs. induction Hs as [|a a1 a2 Hstep _ IH]; [done|]. apply IH. clear IH.
  destruct Hstep as [u j a|j g s a|ok j w off data ts a Hc|now j a|j off a|now age a]; try done.
  - by apply append_wf.
  - intros k st Hk. simpl in Hk.
    apply lookup_alter_Some in Hk as [(-> & st0 & Hst0 & ->)|[_ Hk]]; [exact (Ha _ _ Hst0)|exact (Ha _ _ Hk)].
  - unfold subscribe. destruct (jobs a !! _); [done|]. simpl.
    apply map_Forall_insert_2; [apply fresh_state_wf|done].
  - intros k st Hk. apply (Ha k). eapply lookup_weaken; [exact Hk|apply foldl_delete_subseteq].
Qed.

Lemma buffer_bounded_witness :
  agg_wf (append_chunk true "j" "w" 0 "hello" 7 (LogAggregator_new (Some "/logs"))).2.
Proof.
  apply (buffer_bounded (HI := map_iter) (LogAggregator_new (Some "/logs"))); [apply map_Forall_empty|].
  apply rtc_once, agg_append. by repeat split.
Defined.

(** ** A whole stream *)

(** The buffer can keep the log: it spills to disk, or the log is within the
    bound. *)
Definition fits_buffer (txt : string) (a : LogAggregator) : Prop :=
  is_Some (log_dir a) \/ len txt <= MAX_BUFFERED_BYTES_PER_JOB.

(** The aggregator has received the log [txt] of [job], and holds it, up to the
    buffer's bound, if the buffer can keep it. *)
Definition holds (job txt : string) (a : LogAggregator) : Prop :=
  exists st, jobs a !! job = Some st /\ last_offset_of st = len txt /\
    (fits_buffer txt a -> log_data st = tail_fit txt).

Lemma fits_prefix txt d a : fits_buffer (txt +:+ d) a -> fits_buffer txt a.
Proof. intros [H|H]; [by left|right]. rewrite len_app in H. pose proof (len_nonneg d). lia. Qed.

Lemma fits_same_dir txt a a' : log_dir a' = log_dir a -> fits_buffer txt a' -> fits_buffer txt a.
Proof. unfold fits_buffer. by intros ->. Qed.

(** Appending the next chunk of the log [txt] at the state [st0]. *)
Lemma append_next disk_ok job w data ts txt a :
  last_offset_of (run_state job (len txt) a) = len txt ->
  (fits_buffer txt a -> log_data (run_state job (len txt) a) = tail_fit txt) ->
  len (txt +:+ data) < 2 ^ 64 -> len data <= MAX_BUFFERED_BYTES_PER_JOB ->
  let '(off, a') := append_chunk disk_ok job w (len txt) data ts a in
  off = len (txt +:+ data) /\ holds job (txt +:+ data) a' /\ log_dir a' = log_dir a /\
  (forall k, k <> job -> jobs a' !! k = jobs a !! k).
Proof.
  intros Hoff Hdata Hlen Hd. rewrite len_app in Hlen.
  destruct (append_chunk_eq disk_ok job w (len txt) data ts a) as (st & dsk & chan & -> & Hst). cbv zeta in Hst.
  rewrite Hoff, Z.ltb_irrefl in Hst. destruct Hst as (Hl & _ & _ & _ & Hlog).
  pose proof (len_nonneg txt). pose proof (len_nonneg data).
  rewrite u64_add_small in Hl by lia. rewrite <- len_app in Hl.
  split_and!; [done| |done|intros k Hk; simpl; by rewrite lookup_insert_ne].
  exists st. simpl. rewrite lookup_insert_eq. split_and!; [done|done|]. intros Hfit.
  apply (fits_same_dir _ a) in Hfit; [|done]. rewrite Hlog, (Hdata (fits_prefix _ _ _ Hfit)).
  destruct (log_dir a) eqn:Hdir; [by apply tail_fit_app|].
  destruct Hfit as [[? Hx]|Hfit]; [congruence|]. rewrite len_app in Hfit.
  rewrite (tail_fit_le txt) by lia.
  destruct (Z.ltb_spec MAX_BUFFERED_BYTES_PER_JOB (len txt + len data)); [lia|].
  rewrite tail_fit_le; [done|]. rewrite len_app. lia.
Qed.

(** A job that holds a non-empty log stays in the same run. *)
Lemma run_state_holds job txt a :
  holds job txt a -> txt <> EmptyString ->
  last_offset_of (run_state job (len txt) a) = len txt /\
  (fits_buffer txt a -> log_data (run_state job (len txt) a) = tail_fit txt).
Proof.
  intros (st & Hj & Ho & Hd) Hne. unfold run_state, entry_state. rewrite Hj.
  rewrite bool_decide_eq_false_2; [done|]. destruct txt; [done|]. unfold len. simpl. lia.
Qed.

Lemma consume_holds disk_ok n chunks job txt last a :
  holds job txt a -> txt <> EmptyString ->
  contiguous (len txt) chunks -> Forall (fun c => lc_job_id c = job) chunks ->
  Forall (fun c => len (lc_data c) <= MAX_BUFFERED_BYTES_PER_JOB) chunks ->
  len (txt +:+ chunks_data chunks) < 2 ^ 64 ->
  let '(last', a') := consume disk_ok n chunks last a in
  last' = (if decide (chunks = []) then last else (job, len (txt +:+ chunks_data chunks))) /\
  holds job (txt +:+ chunks_data chunks) a' /\
  (forall k, k <> job -> jobs a' !! k = jobs a !! k).
Proof.
  revert n txt last a. induction chunks as [|c cs IH]; intros n txt last a Hh Hne Hc Hj Hb Hlen.
  { simpl. by rewrite str_app_nil_r. }
  simpl in Hc. destruct Hc as (Ho & Hcne & Hc). apply Forall_cons in Hj as [Hjc Hj]. apply Forall_cons in Hb as [Hbc Hb].
  change (chunks_data (c :: cs)) with (lc_data c +:+ chunks_data cs)%string in *.
  rewrite <- str_app_assoc in *. simpl consume. rewrite Hjc, Ho.
  destruct (run_state_holds job txt a Hh Hne) as [Hr1 Hr2].
  assert (Hle : len (txt +:+ lc_data c) <= len ((txt +:+ lc_data c) +:+ chunks_data cs)).
  { rewrite (len_app _ (chunks_data cs)). pose proof (len_nonneg (chunks_data cs)). lia. }
  pose proof (append_next (disk_ok n) job (lc_worker_id c) (lc_data c) (lc_timestamp_unix c) txt a
    Hr1 Hr2 ltac:(lia) Hbc) as Hn.
  destruct (append_chunk _ job _ (len txt) _ _ a) as [off a1]. destruct Hn as (-> & Hh1 & Hdir & Hk).
  assert (Hne1 : (txt +:+ lc_data c)%string <> EmptyString) by (by destruct txt).
  assert (Hc1 : contiguous (len (txt +:+ lc_data c)) cs) by (by rewrite len_app).
  specialize (IH (S n) _ (job, len (txt +:+ lc_data c)) a1 Hh1 Hne1 Hc1 Hj Hb Hlen).
  destruct (consume disk_ok (S n) cs _ a1) as [last' a']. destruct IH as (-> & Hh' & Hk').
  split_and!; [|done|intros k Hne'; by rewrite Hk', Hk].
  destruct (decide (cs = [])) as [->|]; [by rewrite str_app_nil_r|done].
Qed.

Lemma append_log_dir disk_ok job w off data ts a :
  log_dir (append_chunk disk_ok job w off data ts a).2 = log_dir a.
Proof. by destruct (append_chunk_eq disk_ok job w off data ts a) as (st & dsk & chan & -> & _). Qed.

Lemma consume_log_dir disk_ok n chunks last a : log_dir (consume disk_ok n chunks last a).2 = log_dir a.
Proof.
  revert n last a. induction chunks as [|c cs IH]; intros n last a; [done|]. simpl.
  pose proof (append_log_dir (disk_ok n) (lc_job_id c) (lc_worker_id c) (lc_offset c) (lc_data c)
    (lc_timestamp_unix c) a) as H. destruct (append_chunk _ _ _ _ _ _ a) as [off a']. by rewrite IH.
Qed.

(** The first chunk of a run, whatever the job's earlier state. *)
Lemma run_state_start job a :
  agg_wf a -> last_offset_of (run_state job 0 a) = 0 /\ log_data (run_state job 0 a) = EmptyString.
Proof.
  intros Ha. destruct (run_state_fresh job a) as (H1 & H2 & _); [| |done].
  - intros st Hst Hz. by apply (Ha _ _ Hst).
  - intros st Hst. apply (Ha _ _ Hst).
Qed.

Lemma consume_all disk_ok chunks job last a :
  agg_wf a -> chunks <> [] -> contiguous 0 chunks -> Forall (fun c => lc_job_id c = job) chunks ->
  Forall (fun c => len (lc_data c) <= MAX_BUFFERED_BYTES_PER_JOB) chunks ->
  len (chunks_data chunks) < 2 ^ 64 ->
  let '(last', a') := consume disk_ok 0 chunks last a in
  last' = (job, len (chunks_data chunks)) /\ holds job (chunks_data chunks) a' /\
  (forall k, k <> job -> jobs a' !! k = jobs a !! k).
Proof.
  intros Ha Hne Hc Hj Hb Hlen. destruct chunks as [|c cs]; [done|]. simpl in Hc.
  destruct Hc as (Ho & Hcne & Hc). apply Forall_cons in Hj as [Hjc Hj]. apply Forall_cons in Hb as [Hbc Hb].
  change (chunks_data (c :: cs)) with (lc_data c +:+ chunks_data cs)%string in *.
  destruct (run_state_start job a Ha) as [Hr1 Hr2]. simpl consume. rewrite Hjc, Ho.
  assert (Hle : len (lc_data c) <= len (lc_data c +:+ chunks_data cs)).
  { rewrite len_app. pose proof (len_nonneg (chunks_data cs)). lia. }
  pose proof (append_next (disk_ok 0%nat) job (lc_worker_id c) (lc_data c) (lc_timestamp_unix c) EmptyString a
    Hr1 (fun _ => Hr2) ltac:(change (EmptyString +:+ lc_data c)%string with (lc_data c); lia) Hbc) as Hn.
  change (len EmptyString) with 0 in Hn.
  change (EmptyString +:+ lc_data c)%string with (lc_data c) in Hn.
  destruct (append_chunk _ job _ 0 _ _ a) as [off a1]. destruct Hn as (-> & Hh1 & Hdir & Hk).
  pose proof (consume_holds disk_ok 1 cs job (lc_data c) (job, len (lc_data c)) a1 Hh1 Hcne Hc Hj Hb Hlen) as H.
  destruct (consume disk_ok 1 cs _ a1) as [last' a']. destruct H as (-> & Hh' & Hk').
  split_and!; [|done|intros k Hne'; by rewrite Hk', Hk].
  destruct (decide (cs = [])) as [->|]; [by rewrite str_app_nil_r|done].
Qed.

(** What [stream_logs] leaves of the log [txt] of job [j]. *)
Definition log_received (end_time : Z) (j txt : string) (a a' : LogAggregator) : Prop :=
  (exists st, jobs a' !! j = Some st /\ last_offset_of st = len txt /\ complete st = true /\
     finalized_at st = Some end_time /\ (fits_buffer txt a -> log_data st = tail_fit txt)) /\
  (forall k, k <> j -> jobs a' !! k = jobs a !! k).

(** C9. From executor to aggregator: when all of the streamer's chunks for a job
    reach [stream_logs] in order (a log shorter than 2^64 bytes, no chunk over
    50 MB, an aggregator whose buffers are within their bound), the offset
    acknowledged is the length of the masked log, which is the offset the worker
    computed. If the masked log is not empty, the job is marked complete at that
    length, any earlier run of the same job id is replaced, and every other job
    is left alone; its buffer is the whole masked log if that has at most 50 MB,
    and its last 50 MB if it is longer and a log directory is configured. (A
    longer log without a directory is acknowledged in full but not kept whole.)
    If the masked log is empty no chunk is sent, nothing is acknowledged, and no
    job, this one included, is created, completed or changed, but one with the
    empty id, should there be one. *)
Theorem logs_arrive_intact (config : LogStreamerConfig) (w j : string) (secrets : list string)
    (es : list event) (now end_time : Z) (disk_ok : nat -> bool) (a : LogAggregator) :
  agg_wf a -> Forall running es ->
  let txt := events_text secrets es in
  let '(sent, chunks) := stream config w j secrets (es ++ [Closed now true]) in
  len txt < 2 ^ 64 ->
  Forall (fun c => len (lc_data c) <= MAX_BUFFERED_BYTES_PER_JOB) chunks ->
  let '((job, acked), a') := stream_logs disk_ok end_time chunks a in
  acked = len txt /\ sent = len txt /\
  if decide (txt = EmptyString)
  then chunks = [] /\ forall k, k <> EmptyString -> jobs a' !! k = jobs a !! k
  else job = j /\ log_received end_time j txt a a'.
Proof.
  intros Ha Hr txt. pose proof (stream_spec config w j secrets es now Hr) as Hs.
  destruct (stream config w j secrets (es ++ [Closed now true])) as [sent chunks].
  intros Hlen Hb. destruct (Hs Hlen) as (Hc & Hd & Hsent & Hids). fold txt in Hd, Hsent.
  destruct (decide (txt = EmptyString)) as [He|Hne].
  { assert (chunks = []) as ->.
    { destruct chunks as [|c cs]; [done|]. destruct Hc as (_ & Hcne & _). rewrite He in Hd.
      change (chunks_data (c :: cs)) with (lc_data c +:+ chunks_data cs)%string in Hd. by destruct (lc_data c). }
    simpl. rewrite He. split_and!; [done|by rewrite Hsent, He|done|]. intros k Hk. by rewrite lookup_alter_ne. }
  assert (Hcs : chunks <> []) by (intros ->; by rewrite <- Hd in Hne).
  assert (Hj : Forall (fun c => lc_job_id c = j) chunks) by (eapply Forall_impl; [exact Hids|]; by intros ? []).
  rewrite <- Hd in Hlen.
  pose proof (consume_all disk_ok chunks j (EmptyString, 0) a Ha Hcs Hc Hj Hb Hlen) as H.
  pose proof (consume_log_dir disk_ok 0 chunks (EmptyString, 0) a) as Hdir.
  unfold stream_logs. destruct (consume disk_ok 0 chunks _ a) as [last a1]. destruct H as (-> & Hh & Hk).
  rewrite Hd in *. destruct Hh as (st & Hst & Ho & Hlog). split_and!; [done|done|done|split].
  - simpl. rewrite lookup_alter_eq, Hst. eexists. split_and!; [done|done|done|done|].
    intros Hf. apply Hlog. by apply (fits_same_dir _ a1 a).
  - intros k Hk'. simpl. rewrite lookup_alter_ne by done. by apply Hk.
Qed.

(** A log of twenty bytes without a log directory, and an empty one. *)
Lemma logs_arrive_intact_witness :
  (let '((job, acked), a') := stream_logs (fun _ => true) 9
     (stream LogStreamerConfig_default "w" "j" ["abc"] (sample_events ++ [Closed 5 true])).2
     (LogAggregator_new None) in
   acked = 20 /\ job = "j" /\
   log_received 9 "j" (events_text ["abc"] sample_events) (LogAggregator_new None) a') /\
  (stream_logs (fun _ => true) 9 (stream LogStreamerConfig_default "w" "j" [] [Closed 5 true]).2
     (LogAggregator_new None)).1.2 = 0.
Proof.
  split.
  - pose proof (logs_arrive_intact LogStreamerConfig_default "w" "j" ["abc"] sample_events 5 9 (fun _ => true)
      (LogAggregator_new None) (map_Forall_empty _) ltac:(repeat constructor)) as H.
    destruct (stream LogStreamerConfig_default "w" "j" ["abc"] (sample_events ++ [Closed 5 true]))
      as [sent chunks] eqn:E.
    assert (Hc : chunks = (stream LogStreamerConfig_default "w" "j" ["abc"] (sample_events ++ [Closed 5 true])).2)
      by (by rewrite E).
    vm_compute in Hc. cbn [snd]. cbv zeta in H.
    specialize (H ltac:(vm_compute; reflexivity) ltac:(rewrite Hc; repeat constructor; vm_compute; discriminate)).
    destruct (stream_logs _ _ chunks _) as [[job acked] a']. destruct H as (-> & _ & H).
    split; [reflexivity|]. exact H.
  - apply (logs_arrive_intact LogStreamerConfig_default "w" "j" [] [] 5 9 (fun _ => true) (LogAggregator_new None)
      (map_Forall_empty _)); [constructor|reflexivity|constructor].
Defined.

(** ** Duplicates, holes and offsets *)

(** A replayed chunk is ignored: a chunk whose offset lies strictly inside
    the acknowledged prefix changes nothing, on disk or in memory, and returns
    the offset to resume from; only a chunk at offset 0 restarts the job's log. *)
Theorem replayed_chunk_ignored (disk_ok : bool) (job w : string) (off : Z) (data : string) (ts : Z)
    (a : LogAggregator) (st : JobLogState) :
  jobs a !! job = Some st -> 0 < off < last_offset_of st ->
  append_chunk disk_ok job w off data ts a = (last_offset_of st, a).
Proof. apply append_dup. Qed.

Lemma replayed_chunk_ignored_witness :
  let a := (append_chunk true "j" "w" 0 "hello" 7 (LogAggregator_new None)).2 in
  append_chunk true "j" "w" 2 "llo" 8 a = (5, a).
Proof.
  intros a.
  apply (replayed_chunk_ignored true "j" "w" 2 "llo" 8 a
    {| last_offset_of := 5; total_bytes := 5; complete := false; log_data := "hello";
       broadcast_tx := {| chan_id := 0; chan_sent := [{| cd_worker_id := "w"; cd_offset := 0; cd_data := "hello";
                                                          cd_timestamp_unix := 7 |}] |};
       finalized_at := None |}); [vm_compute; reflexivity|vm_compute; split; reflexivity].
Defined.

(** Without a log directory a chunk that does not fit the buffer is
    dropped, but buffering does not stop: a later, shorter chunk that fits is
    appended right after the old data, and the buffer has a silent hole in the
    place of the dropped chunk. *)
Theorem overflow_leaves_hole (ok1 ok2 : bool) (job w d1 d2 : string) (t1 t2 : Z) (a : LogAggregator)
    (st : JobLogState) :
  jobs a !! job = Some st -> log_dir a = None -> 0 < last_offset_of st ->
  last_offset_of st + len d1 + len d2 < 2 ^ 64 ->
  MAX_BUFFERED_BYTES_PER_JOB < len (log_data st) + len d1 ->
  len (log_data st) + len d2 <= MAX_BUFFERED_BYTES_PER_JOB ->
  let '(o1, a1) := append_chunk ok1 job w (last_offset_of st) d1 t1 a in
  let '(o2, a2) := append_chunk ok2 job w o1 d2 t2 a1 in
  o2 = last_offset_of st + len d1 + len d2 /\
  get_log_data job {| a2 with uuid_aliases := ∅ |} = (log_data st +:+ d2)%string.
Proof.
  intros Hj Hdir Hpos Hlen Hbig Hsmall. pose proof (len_nonneg d1). pose proof (len_nonneg d2).
  assert (Hrun : forall b s, jobs b !! job = Some s -> 0 < last_offset_of s ->
    run_state job (last_offset_of s) b = s).
  { intros b s Hb Hs. unfold run_state, entry_state. rewrite Hb, bool_decide_eq_false_2 by lia. done. }
  destruct (append_chunk_eq ok1 job w (last_offset_of st) d1 t1 a) as (s1 & k1 & c1 & -> & H1). cbv zeta in H1.
  rewrite (Hrun a st Hj Hpos), Z.ltb_irrefl, Hdir in H1. destruct H1 as (Ho1 & _ & _ & _ & Hd1).
  rewrite u64_add_small in Ho1 by lia.
  destruct (Z.ltb_spec MAX_BUFFERED_BYTES_PER_JOB (len (log_data st) + len d1)); [|lia].
  set (a1 := {| a with jobs := _; next_chan := _; disk := _ |}).
  assert (Hj1 : jobs a1 !! job = Some s1) by apply lookup_insert_eq.
  destruct (append_chunk_eq ok2 job w (last_offset_of s1) d2 t2 a1) as (s2 & k2 & c2 & -> & H2). cbv zeta in H2.
  rewrite (Hrun a1 s1 Hj1 ltac:(lia)), Z.ltb_irrefl in H2. simpl log_dir in H2. rewrite Hdir in H2.
  destruct H2 as (Ho2 & _ & _ & _ & Hd2). rewrite u64_add_small in Ho2 by lia. rewrite Hd1 in Hd2.
  destruct (Z.ltb_spec MAX_BUFFERED_BYTES_PER_JOB (len (log_data st) + len d2)); [lia|].
  split; [lia|]. unfold get_log_data, resolve_job_id. simpl. by rewrite lookup_empty; simpl; rewrite lookup_insert_eq.
Qed.

Fixpoint str_repeat (c : ascii) (n : nat) : string :=
  match n with O => EmptyString | S n' => String c (str_repeat c n') end.

Lemma len_repeat c n : len (str_repeat c n) = Z.of_nat n.
Proof. unfold len. f_equal. induction n as [|n IH]; simpl; [done|by rewrite IH]. Qed.

(** A job whose buffer is one byte short of full. *)
Definition nearly_full : JobLogState :=
  {| (fresh_state 0) with
    last_offset_of := MAX_BUFFERED_BYTES_PER_JOB - 1;
    log_data := str_repeat "x" (Z.to_nat (MAX_BUFFERED_BYTES_PER_JOB - 1)) |}.

Lemma nearly_full_len : len (log_data nearly_full) = MAX_BUFFERED_BYTES_PER_JOB - 1.
Proof.
  change (log_data nearly_full) with (str_repeat "x" (Z.to_nat (MAX_BUFFERED_BYTES_PER_JOB - 1))).
  rewrite len_repeat, Z2Nat.id; [done|]. by unfold MAX_BUFFERED_BYTES_PER_JOB.
Qed.

Lemma overflow_leaves_hole_witness :
  let a := {| (LogAggregator_new None) with jobs := {[ "j" := nearly_full ]} |} in
  let '(o1, a1) := append_chunk true "j" "w" (last_offset_of nearly_full) "ab" 1 a in
  let '(o2, a2) := append_chunk true "j" "w" o1 "c" 2 a1 in
  o2 = last_offset_of nearly_full + len "ab" + len "c" /\
  get_log_data "j" {| a2 with uuid_aliases := ∅ |} = (log_data nearly_full +:+ "c")%string.
Proof.
  intros a. apply (overflow_leaves_hole true true "j" "w" "ab" "c" 1 2 a nearly_full);
    [apply lookup_singleton_eq|reflexivity|..]; rewrite ?nearly_full_len; reflexivity || discriminate.
Defined.

(** Subscribers count offsets in the buffer, not in the log: once a
    disk-backed buffer has been drained, a subscriber that asks for the bytes
    from [off] on gets, labelled [off], the bytes from [drained + off] on. *)
Theorem subscribe_offset_is_buffer_relative (txt : string) (st : JobLogState) (off : Z) :
  log_data st = tail_fit txt -> MAX_BUFFERED_BYTES_PER_JOB < len txt -> 0 < off < MAX_BUFFERED_BYTES_PER_JOB ->
  buffered_from off st =
    [{| cd_worker_id := EmptyString; cd_offset := off;
        cd_data := str_drop (Z.to_nat (len txt - MAX_BUFFERED_BYTES_PER_JOB + off)) txt;
        cd_timestamp_unix := 0 |}].
Proof.
  intros Hd Hlen Hoff. unfold buffered_from. rewrite Hd, tail_fit_len, Z.min_r by lia.
  destruct (Z.ltb_spec MAX_BUFFERED_BYTES_PER_JOB off); [lia|].
  rewrite bool_decide_eq_false_2 by lia. destruct (Z.ltb_spec off MAX_BUFFERED_BYTES_PER_JOB); [|lia].
  unfold tail_fit. rewrite str_drop_drop. repeat f_equal. lia.
Qed.

Lemma subscribe_offset_is_buffer_relative_witness :
  let txt := str_repeat "x" (Z.to_nat (MAX_BUFFERED_BYTES_PER_JOB + 5)) in
  let st := {| (fresh_state 0) with log_data := tail_fit txt |} in
  buffered_from 3 st =
    [{| cd_worker_id := EmptyString; cd_offset := 3;
        cd_data := str_drop (Z.to_nat (len txt - MAX_BUFFERED_BYTES_PER_JOB + 3)) txt;
        cd_timestamp_unix := 0 |}].
Proof.
  intros txt st. assert (Hl : len txt = MAX_BUFFERED_BYTES_PER_JOB + 5).
  { unfold txt. rewrite len_repeat, Z2Nat.id; [reflexivity|discriminate]. }
  apply (subscribe_offset_is_buffer_relative txt st 3); [reflexivity|rewrite Hl; reflexivity|split; reflexivity].
Defined.
