(* ===== verification/Controller.v ===== *)
(** * The controller's state and the handlers that close groups
    (crates/ci-controller/src/grpc_server.rs, main.rs)

    [Controller] is the part of [ControllerState] that the handlers share: the
    three registries, the log aggregator and the workers' job streams (each open
    or closed at the other end), behind their locks. A section of a handler that runs under
    one lock is one function; what reaches the database, Redis, the workers or
    the metrics is appended to [effects] in the order of the calls (their
    failures are only logged, except for the one retried write).

    The theorems are about the resource ledger: each worker's allocation
    counters against the sum over the active groups reserved on it. *)

From Stdlib Require Import ZArith Lia.
From stdpp Require Import gmap strings list fin_maps pretty sets.
From S2P Require Import Prelude WorkerModel JobModel StageModel WorkerRegistry JobRegistry JobGroupRegistry LogAggregator.

Inductive Effect :=
| DbJobState (job_id state : string) (exit_code : option Z) (worker_id : string)
| DbJobReason (job_id reason : string)
| DbStageResources (stage_config_id repo_id job_id : Uuid) (duration_secs : option Z) (exit_code : Z)
| DbGroupState (group_id : Uuid) (state : JobGroupState) (reason : option string)
| DbCancelJobs (group_id : Uuid)
| DbCleanupOrphans
| DbCreateGroup (group : JobGroup)
| DbCreateJob (job : DbJob)
| DbUpsertWorker (row : WorkerRow)
| DbTokenUse (token_id : Uuid)
| DbAudit (user_id : Uuid) (username action resource_type resource_id : string)
| DbWebhookDelivery (webhook_id : Uuid) (event : string) (status_code : option Z) (error : option string)
| RedisReserve (worker_id : string) (group_id : Uuid)
| RedisRelease (worker_id : string) (group_id : Uuid)
| RedisReleaseForce (worker_id : string)
| RedisReleaseKey (worker_id group_id : string)
| RedisRefreshTtl (worker_id : string) (group_id : Uuid)
| PostScript (group_id : Uuid) (worker_id : string) (repo_id : option Uuid) (branch commit_sha : option string)
    (state : JobGroupState)
| Notify (repo_id : Uuid) (event : string) (group_id : Uuid) (branch commit_sha : option string) (state : JobGroupState)
| Dispatch (worker_id : string) (assignment : JobAssignment)
| WakeScheduler
| PurgeAck (worker_id group_id : string)
| Metric (name : string).

Record Controller := {
  workers : WorkerRegistry;
  jobs : JobRegistry;
  jgroups : JobGroupRegistry;
  logs : LogAggregator;
  job_stream_senders : gmap string bool;
  token_hashes : gset string;
  has_storage : bool;
  has_redis : bool;
  effects : list Effect
}.

Definition emit (es : list Effect) (c : Controller) : Controller := {| c with effects := effects c ++ es |}.
Definition with_workers (f : WorkerRegistry -> WorkerRegistry) (c : Controller) : Controller :=
  {| c with workers := f (workers c) |}.
Definition with_groups (f : JobGroupRegistry -> JobGroupRegistry) (c : Controller) : Controller :=
  {| c with jgroups := f (jgroups c) |}.

Definition db (es : list Effect) (c : Controller) : list Effect := if has_storage c then es else [].
Definition redis (es : list Effect) (c : Controller) : list Effect := if has_redis c then es else [].

(** A clock read from its k-th reading on. *)
Definition from_reading (k : nat) (clk : clock) : clock := fun n => clk (k + n)%nat.

(** ** Releasing a group's resources *)

Definition has_alloc (a : AllocatedResources) : bool := (0 <? ar_cpu a) || (0 <? ar_memory_mb a) || (0 <? ar_disk_mb a).

Definition release_alloc (a : AllocatedResources) : WorkerState -> WorkerState :=
  release (ar_cpu a) (ar_memory_mb a) (ar_disk_mb a).

Definition release_on (wid : string) (a : AllocatedResources) (wr : WorkerRegistry) : WorkerRegistry :=
  if has_alloc a then alter (release_alloc a) wid wr else wr.

(** ** report_job_status *)

Definition state_str (code : Z) : string :=
  match code with
  | 3 => "running" | 4 => "success" | 5 => "failed" | 6 => "cancelled" | 2 => "assigned" | _ => "unknown"
  end.

(** The state the group's copy of the job gets. *)
Definition model_state (code : Z) : JobState :=
  match code with 4 => JSuccess | 5 => JFailed | 6 => JCancelled | 3 => JRunning | _ => JUnknown end.

Definition reported_terminal (code : Z) : bool := (code =? 4) || (code =? 5) || (code =? 6).

Definition report_metrics (code : Z) : list Effect :=
  if code =? 4 then [Metric "inc_jobs_completed"; Metric "dec_active_stages"]
  else if code =? 5 then [Metric "inc_jobs_failed"; Metric "inc_stage_failures"; Metric "dec_active_stages"]
  else if code =? 6 then [Metric "inc_jobs_cancelled"; Metric "dec_active_stages"]
  else [].

Definition report_reason (req : JobStatusUpdate) : string :=
  if su_state req =? 4 then completed_reason
  else if su_state req =? 5 then failed_reason (su_exit_code req)
  else if su_state req =? 6 then "Cancelled"
  else EmptyString.

(** What phase 1 collects about a completed group. *)
Record completion := {
  c_state : JobGroupState;
  c_worker : option string;
  c_repo : option Uuid;
  c_branch : option string;
  c_commit_sha : option string;
  c_alloc : AllocatedResources;
  c_reason : option string
}.

Section Reports.
Context (uuid_v5 : string -> string) (parse_uuid : string -> option Uuid).

Definition persist_report (db_ok : bool) (req : JobStatusUpdate) : list Effect :=
  let str := state_str (su_state req) in
  let exit_code :=
    if negb (su_exit_code req =? 0) || bool_decide (str = "success") || bool_decide (str = "failed")
    then Some (su_exit_code req) else None in
  let write := DbJobState (uuid_v5 (su_job_id req)) str exit_code (su_worker_id req) in
  (if db_ok then [write] else [write; write]) ++
  (if negb (bool_decide (report_reason req = EmptyString))
   then [DbJobReason (uuid_v5 (su_job_id req)) (report_reason req)] else []).

Definition record_resources (now : timestamp) (req : JobStatusUpdate) (c : Controller) : list Effect :=
  if reported_terminal (su_state req) then
    match jobs c !! su_job_id req with
    | Some job =>
        match j_stage_config_id job with
        | Some cfg =>
            let repo := default 0%N (gid ← j_job_group_id job; g ← get_group gid (jgroups c); g_repo_id g) in
            [DbStageResources cfg repo (default 0%N (parse_uuid (su_job_id req)))
               ((fun start => as_i32 (num_seconds (now - start))) <$> j_started_at job) (su_exit_code req)]
        | None => []
        end
    | None => []
    end
  else [].

(** Phase 1, under the group registry's lock. *)
Definition report_to_group (clk : clock) (gid : Uuid) (req : JobStatusUpdate) (r : JobGroupRegistry)
    : option completion * JobGroupRegistry :=
  let r1 := update_job_in_group uuid_v5 clk gid (su_job_id req) (model_state (su_state req))
              (Some (su_exit_code req)) r in
  let r2 := touch_activity (clk 2%nat) gid r1 in
  let '(out, r3) := check_group_completion (from_reading 3 clk) gid r2 in
  ((fun st => {|
      c_state := st;
      c_worker := on_group_completed gid r3;
      c_repo := g ← get_group gid r3; g_repo_id g;
      c_branch := g ← get_group gid r3; g_branch g;
      c_commit_sha := g ← get_group gid r3; g_commit_sha g;
      c_alloc := default AllocatedResources_default (g_allocated_resources <$> get_group gid r3);
      c_reason := g ← get_group gid r3; g_status_reason g
    |}) <$> out, r3).

(** Phase 2, without the lock. *)
Definition close_group (gid : Uuid) (info : completion) (c : Controller) : Controller :=
  let c1 := emit [Metric "dec_active_builds"] c in
  let c2 :=
    match c_worker info with
    | Some wid =>
        let c2 := emit [PostScript gid wid (c_repo info) (c_branch info) (c_commit_sha info) (c_state info)] c1 in
        let c3 := with_workers (release_on wid (c_alloc info)) c2 in
        emit (redis [RedisRelease wid gid] c3) c3
    | None => c1
    end in
  let event := if bool_decide (c_state info = GSuccess) then "on_success" else "on_failure" in
  emit (db (DbGroupState gid (c_state info) (c_reason info) ::
            match c_repo info with
            | Some repo => [Notify repo event gid (c_branch info) (c_commit_sha info) (c_state info)]
            | None => []
            end) c2) c2.

Definition report_job_status (clk : clock) (db_ok : bool) (req : JobStatusUpdate) (c : Controller) : Controller :=
  if su_purge_ack req then emit [PurgeAck (su_worker_id req) (su_job_group_id req)] c
  else
    let c1 := {| c with jobs := update_status (clk O) req (jobs c) |} in
    let c2 := emit (report_metrics (su_state req)) c1 in
    let c3 := emit (db (persist_report db_ok req) c2) c2 in
    let c4 := emit (db (record_resources (clk 1%nat) req c3) c3) c3 in
    match (if negb (bool_decide (su_job_group_id req = EmptyString)) then parse_uuid (su_job_group_id req) else None) with
    | None => c4
    | Some gid =>
        let '(info, r) := report_to_group (from_reading 2 clk) gid req (jgroups c4) in
        let c5 := {| c4 with jgroups := r |} in
        match info with
        | Some i => close_group gid i c5
        | None => c5
        end
    end.
End Reports.

(** ** The background tasks *)

Section Tasks.
Context `{HI : HashIter}.

(** [reconcile_worker_allocations] *)
Definition sum_allocs (gs : list JobGroup) : Z * Z * Z :=
  foldl (fun '(cpu, mem, disk) g =>
           if negb (JobGroupState_is_terminal (g_state g)) then
             (u32_add cpu (ar_cpu (g_allocated_resources g)),
              u64_add mem (ar_memory_mb (g_allocated_resources g)),
              u64_add disk (ar_disk_mb (g_allocated_resources g)))
           else (cpu, mem, disk)) (0, 0, 0) gs.

Definition set_alloc (sum : Z * Z * Z) (w : WorkerState) : WorkerState :=
  let '(cpu, mem, disk) := sum in
  if bool_decide ((ws_allocated_cpu w, ws_allocated_memory_mb w, ws_allocated_disk_mb w) = sum) then w
  else {| w with ws_allocated_cpu := cpu; ws_allocated_memory_mb := mem; ws_allocated_disk_mb := disk |}.

Definition reconcile_worker_allocations (c : Controller) : Controller :=
  let worker_ids := (fun w => wi_worker_id (ws_info w)) <$> all_workers (workers c) in
  with_workers (fun wr =>
    foldl (fun wr' wid => alter (set_alloc (sum_allocs (get_groups_for_worker wid (jgroups c)))) wid wr')
      wr worker_ids) c.

(** [restore_allocations] *)
Definition restore_group (wid : string) (wr : WorkerRegistry) (g : JobGroup) : WorkerRegistry :=
  let a := g_allocated_resources g in
  if has_alloc a then alter (fun w => (allocate (ar_cpu a) (ar_memory_mb a) (ar_disk_mb a) w).2) wid wr else wr.

Definition restore_allocations (wid : string) (r : JobGroupRegistry) (wr : WorkerRegistry) : WorkerRegistry :=
  foldl (restore_group wid) wr (get_groups_for_worker wid r).

(** The stuck-group reaper: groups running, unchanged, for four hours. *)
Definition stuck_reason : string := "Group stuck: running for more than 4 hours".

Definition num_hours (d : Z) : Z := Z.quot d (3600 * 1000000000).

Definition is_stuck (now : timestamp) (g : JobGroup) : bool :=
  bool_decide (g_state g = GRunning) && (4 <=? num_hours (now - g_updated_at g)).

Definition fail_stuck (clk : Uuid -> clock) (r : JobGroupRegistry) (gid : Uuid) : JobGroupRegistry :=
  alter_group (set_reason stuck_reason) gid (update_state (clk gid) gid GFailed r).2.

Definition reap_stuck_groups (now : timestamp) (clk : Uuid -> clock) (c : Controller) : Controller :=
  let stuck := g_id <$> filter (fun g => is_stuck now g = true) (active_groups (jgroups c)) in
  let c1 := with_groups (fun r => foldl (fail_stuck clk) r stuck) c in
  emit (db (stuck ≫= fun gid => [DbGroupState gid GFailed (Some stuck_reason); DbCancelJobs gid]) c1) c1.

(** [reap_stale_reservations]: the groups are collected under the read lock
    and closed one by one later. *)
Record stale_group := {
  sg_id : Uuid;
  sg_worker : option string;
  sg_alloc : AllocatedResources;
  sg_repo : option Uuid;
  sg_branch : option string;
  sg_commit_sha : option string;
  sg_was_reserved : bool
}.

Definition is_stale_group (now idle_timeout stall_timeout : Z) (r : JobGroupRegistry) (g : JobGroup) : bool :=
  let idle_secs := Z.max 0 (num_seconds (now - g_last_activity_at g)) in
  match g_state g with
  | GReserved => idle_timeout <? idle_secs
  | GRunning =>
      if existsb is_stale (get_jobs_for_group (g_id g) r) then false else stall_timeout <? idle_secs
  | _ => false
  end.

Definition collect_stale (now idle_timeout stall_timeout : Z) (r : JobGroupRegistry) : list stale_group :=
  (fun g => {| sg_id := g_id g; sg_worker := g_reserved_worker_id g; sg_alloc := g_allocated_resources g;
               sg_repo := g_repo_id g; sg_branch := g_branch g; sg_commit_sha := g_commit_sha g;
               sg_was_reserved := bool_decide (g_state g = GReserved) |}) <$>
    filter (fun g => is_stale_group now idle_timeout stall_timeout r g = true) (active_groups r).

Definition reap_reason (idle_timeout stall_timeout : Z) (s : stale_group) : string :=
  (if sg_was_reserved s
   then "Reservation expired: no stage submitted within " +:+ pretty idle_timeout +:+ "s"
   else "Reservation expired: no activity for " +:+ pretty stall_timeout +:+ "s after last stage")%string.

(** The section under the group registry's lock that ends a group. *)
Definition end_group (st : JobGroupState) (clk : clock) (gid : Uuid) (reason : string) (r : JobGroupRegistry)
    : JobGroupRegistry :=
  fail_group_jobs (from_reading 2 clk) gid reason
    (alter_group (set_reason reason) gid (update_state clk gid st r).2).

Definition expire_group (clk : clock) (gid : Uuid) (reason : string) (r : JobGroupRegistry) : JobGroupRegistry :=
  end_group GExpired clk gid reason r.

Definition reap_one (clk : clock) (idle_timeout stall_timeout : Z) (s : stale_group) (c : Controller) : Controller :=
  let reason := reap_reason idle_timeout stall_timeout s in
  let c1 := with_groups (expire_group clk (sg_id s) reason) c in
  let c2 :=
    match sg_worker s with
    | Some wid =>
        let c2 := emit [PostScript (sg_id s) wid (sg_repo s) (sg_branch s) (sg_commit_sha s) GExpired] c1 in
        let c3 := with_workers (release_on wid (sg_alloc s)) c2 in
        emit (redis [RedisRelease wid (sg_id s)] c3) c3
    | None => c1
    end in
  emit (db [DbGroupState (sg_id s) GExpired (Some reason); DbCancelJobs (sg_id s)] c2
        ++ [Metric "dec_active_builds"]) c2.

Definition reap_stale_reservations (clk : Uuid -> clock) (now idle_timeout stall_timeout : Z) (c : Controller) : Controller :=
  foldl (fun c' s => reap_one (clk (sg_id s)) idle_timeout stall_timeout s c') c
    (collect_stale now idle_timeout stall_timeout (jgroups c)).

(** The heartbeat task, for one worker that timed out. *)
Definition death_reason (wid : string) : string := ("Worker " +:+ wid +:+ " disconnected (heartbeat timeout)")%string.

Definition fail_on_death (clk : Uuid -> clock) (reason : string) (st : JobGroupRegistry * (Z * Z * Z)) (gid : Uuid)
    : JobGroupRegistry * (Z * Z * Z) :=
  let '(r, (cpu, mem, disk)) := st in
  let r1 := fail_group_jobs (clk gid) gid reason r in
  match get_group gid r1 with
  | Some g =>
      let a := g_allocated_resources g in
      (alter_group (set_reason reason) gid r1,
       (u32_add cpu (ar_cpu a), u64_add mem (ar_memory_mb a), u64_add disk (ar_disk_mb a)))
  | None => (r1, (cpu, mem, disk))
  end.

Definition bury_worker (clk : Uuid -> clock) (wid : string) (c : Controller) : Controller :=
  let reason := death_reason wid in
  let to_fail := (handle_worker_death wid (jgroups c)).2 in
  let '(r, (cpu, mem, disk)) := foldl (fail_on_death clk reason) (jgroups c, (0, 0, 0)) to_fail in
  let c1 := emit ((fun _ => Metric "dec_active_builds") <$> to_fail) {| c with jgroups := r |} in
  let c2 := with_workers (release_on wid {| ar_cpu := cpu; ar_memory_mb := mem; ar_disk_mb := disk |}) c1 in
  let c3 := emit (db (to_fail ≫= fun gid => [DbGroupState gid GFailed (Some reason); DbCancelJobs gid]) c2) c2 in
  emit (redis [RedisReleaseForce wid] c3) c3.

(** One tick of the task. *)
Definition heartbeat_tick (now : timestamp) (clk : Uuid -> clock) (job_now : string -> timestamp)
    (hb_timeout : Z) (c : Controller) : Controller :=
  let '(timed_out, wr) := check_heartbeat_timeouts now hb_timeout (workers c) in
  let c1 := {| c with workers := wr |} in
  match timed_out with
  | [] => c1
  | _ =>
      let c2 := emit [Metric "set_connected_workers"] c1 in
      let c3 := foldl (fun c' wid =>
        let '(marked, js) := mark_unknown_for_worker job_now wid (jobs c') in
        emit (repeat (Metric "dec_active_stages") marked) {| c' with jobs := js |}) c2 timed_out in
      foldl (fun c' wid => bury_worker clk wid c') c3 timed_out
  end.
End Tasks.

(** ** The resource ledger *)

Inductive resource := CPU | MEM | DISK.

Definition amount (k : resource) (a : AllocatedResources) : Z :=
  match k with CPU => ar_cpu a | MEM => ar_memory_mb a | DISK => ar_disk_mb a end.

Definition counter (k : resource) (w : WorkerState) : Z :=
  match k with
  | CPU => ws_allocated_cpu w
  | MEM => ws_allocated_memory_mb w
  | DISK => ws_allocated_disk_mb w
  end.

Definition width (k : resource) : Z := match k with CPU => 32 | _ => 64 end.

(** What a group charges to a worker: its allocation while it is active there. *)
Definition charge (k : resource) (wid : string) (g : JobGroup) : Z :=
  if is_active g && bool_decide (g_reserved_worker_id g = Some wid) then amount k (g_allocated_resources g) else 0.

Definition total (f : JobGroup -> Z) (m : gmap Uuid JobGroup) : Z := map_fold (fun _ g acc => f g + acc) 0 m.

Definition ledger (k : resource) (wid : string) (r : JobGroupRegistry) : Z := total (charge k wid) (groups r).

Definition allocs_ok (r : JobGroupRegistry) : Prop :=
  map_Forall (fun _ g => forall k, 0 <= amount k (g_allocated_resources g)) (groups r).

(** Each worker's counters are what its active groups add up to. *)
Definition balanced (c : Controller) : Prop :=
  forall wid w k, workers c !! wid = Some w ->
    counter k w = ledger k wid (jgroups c) /\ ledger k wid (jgroups c) < 2 ^ width k.

(** The same, up to a surplus of the counters, given per resource and worker. *)
Definition accounted (s : resource -> string -> Z) (c : Controller) : Prop :=
  forall wid w k, workers c !! wid = Some w ->
    counter k w = ledger k wid (jgroups c) + s k wid /\ counter k w < 2 ^ width k.

Definition no_surplus : resource -> string -> Z := fun _ _ => 0.

(** A surplus increased by an allocation on one worker. *)
Definition bump (s : resource -> string -> Z) (a : AllocatedResources) (wid : string) : resource -> string -> Z :=
  fun k w => s k w + if decide (w = wid) then amount k a else 0.

Definition nonneg (s : resource -> string -> Z) : Prop := forall k wid, 0 <= s k wid.

Lemma balanced_accounted c : balanced c <-> accounted no_surplus c.
Proof.
  split; intros H wid w k Hw; destruct (H wid w k Hw); unfold no_surplus in *; split; lia.
Qed.

Lemma no_surplus_nonneg : nonneg no_surplus.
Proof. done. Qed.

Lemma total_insert_new f m gid g : m !! gid = None -> total f (<[gid := g]> m) = f g + total f m.
Proof. intros H. unfold total. rewrite map_fold_insert_L; [done|intros; lia|done]. Qed.

Lemma total_delete f m gid g : m !! gid = Some g -> total f m = f g + total f (delete gid m).
Proof.
  intros H. rewrite <- (insert_delete_id m gid g H) at 1. apply total_insert_new, lookup_delete_eq.
Qed.

Lemma total_insert f m gid g g' : m !! gid = Some g -> total f (<[gid := g']> m) = total f m - f g + f g'.
Proof.
  intros H. rewrite <- insert_delete_eq, total_insert_new by apply lookup_delete_eq.
  rewrite (total_delete f m gid g H). lia.
Qed.

Lemma total_nonneg f m : map_Forall (fun _ g => 0 <= f g) m -> 0 <= total f m.
Proof.
  induction m as [|gid g m Hm IH] using map_ind; intros Hf; [done|].
  rewrite total_insert_new by done. apply map_Forall_insert in Hf as [Hg Hf]; [|done]. specialize (IH Hf). lia.
Qed.

Lemma total_ge f m gid g : map_Forall (fun _ g => 0 <= f g) m -> m !! gid = Some g -> f g <= total f m.
Proof.
  intros Hf Hg. rewrite (total_delete f m gid g Hg).
  pose proof (total_nonneg f (delete gid m) (map_Forall_delete _ _ _ Hf)). lia.
Qed.

Lemma total_ext f f' m : map_Forall (fun _ g => f g = f' g) m -> total f m = total f' m.
Proof.
  induction m as [|gid g m Hm IH] using map_ind; intros Hf; [done|].
  apply map_Forall_insert in Hf as [Hg Hf]; [|done]. rewrite !total_insert_new by done. rewrite Hg, IH; done.
Qed.

Lemma charge_nonneg k wid r : allocs_ok r -> map_Forall (fun _ g => 0 <= charge k wid g) (groups r).
Proof.
  intros H gid g Hg. specialize (H gid g Hg k). unfold charge. by destruct (_ && _).
Qed.

(** Replacing one group changes the ledger by the difference of the charges. *)
Lemma ledger_change k wid gid r r' g g' :
  groups r !! gid = Some g -> groups r' !! gid = Some g' ->
  (forall gid', gid' <> gid -> groups r' !! gid' = groups r !! gid') ->
  ledger k wid r' = ledger k wid r - charge k wid g + charge k wid g'.
Proof.
  intros Hg Hg' Ho. unfold ledger. rewrite <- (total_insert (charge k wid) (groups r) gid g g' Hg). f_equal.
  apply map_eq. intros i. destruct (decide (i = gid)) as [->|Hne].
  - by rewrite lookup_insert_eq.
  - by rewrite lookup_insert_ne, Ho.
Qed.

Lemma ledger_same k wid r r' : groups r' = groups r -> ledger k wid r' = ledger k wid r.
Proof. unfold ledger. by intros ->. Qed.

(** ** Releasing *)

Lemma counter_release k a w :
  counter k (release_alloc a w) = saturating_sub (counter k w) (amount k a).
Proof. by destruct k. Qed.

Lemma release_on_lookup wid a wr wid' :
  (forall k, 0 <= amount k a) ->
  (forall w k, wr !! wid' = Some w -> 0 <= counter k w) ->
  forall w', release_on wid a wr !! wid' = Some w' ->
  exists w, wr !! wid' = Some w /\ ws_info w' = ws_info w /\
    forall k, counter k w' = if decide (wid' = wid) then saturating_sub (counter k w) (amount k a) else counter k w.
Proof.
  intros Ha Hw w'. unfold release_on. destruct (has_alloc a) eqn:Hh.
  - intros [(-> & w & Hw0 & ->)|[Hne Hw']]%lookup_alter_Some.
    + exists w. split_and!; [done|done|]. intros k. rewrite decide_True by done. apply counter_release.
    + exists w'. split_and!; [done|done|]. intros k. by rewrite decide_False.
  - intros Hw'. exists w'. split_and!; [done|done|]. intros k. destruct (decide _); [|done].
    assert (Hz : amount k a = 0).
    { unfold has_alloc in Hh. rewrite !orb_false_iff, !Z.ltb_ge in Hh.
      pose proof (Ha k). destruct k; simpl in *; lia. }
    specialize (Hw w' k Hw'). unfold saturating_sub. lia.
Qed.

Lemma charge_active k wid g :
  is_active g = true -> g_reserved_worker_id g = Some wid -> charge k wid g = amount k (g_allocated_resources g).
Proof. intros Ha Hw. unfold charge. by rewrite Ha, Hw, bool_decide_eq_true_2. Qed.

Lemma charge_inactive k wid g : is_active g = false -> charge k wid g = 0.
Proof. intros H. unfold charge. by rewrite H. Qed.

Lemma charge_elsewhere k wid wid' g : g_reserved_worker_id g = Some wid -> wid' <> wid -> charge k wid' g = 0.
Proof. intros H Hne. unfold charge. rewrite H, bool_decide_eq_false_2 by congruence. by rewrite andb_false_r. Qed.

Lemma charge_same k wid g g' :
  g_state g' = g_state g -> g_reserved_worker_id g' = g_reserved_worker_id g ->
  g_allocated_resources g' = g_allocated_resources g -> charge k wid g' = charge k wid g.
Proof. intros H1 H2 H3. unfold charge, is_active. by rewrite H1, H2, H3. Qed.

Lemma charge_unassigned k wid g : g_reserved_worker_id g = None -> charge k wid g = 0.
Proof. intros H. unfold charge. rewrite H, bool_decide_eq_false_2 by done. by rewrite andb_false_r. Qed.

Lemma charge_nothing k wid g : g_allocated_resources g = AllocatedResources_default -> charge k wid g = 0.
Proof. intros H. unfold charge. rewrite H. destruct (_ && _); by destruct k. Qed.

Lemma ledger_nonneg k wid r : allocs_ok r -> 0 <= ledger k wid r.
Proof. intros H. by apply total_nonneg, charge_nonneg. Qed.

(** Closing a group moves its charge from the ledger to the surplus. *)
Lemma close_accounted s c r' gid g g' wid :
  accounted s c -> groups (jgroups c) !! gid = Some g -> groups r' !! gid = Some g' ->
  (forall gid', gid' <> gid -> groups r' !! gid' = groups (jgroups c) !! gid') ->
  is_active g = true -> is_active g' = false -> g_reserved_worker_id g = Some wid ->
  accounted (bump s (g_allocated_resources g) wid) {| c with jgroups := r' |}.
Proof.
  intros Hb Hg Hg' Ho Ha Ha' Hw wid' w k Hl. simpl in *. destruct (Hb wid' w k Hl) as [Hbal Hbd]. split; [|done].
  rewrite (ledger_change k wid' gid _ _ g g' Hg Hg' Ho), (charge_inactive k wid' g' Ha'). unfold bump.
  destruct (decide (wid' = wid)) as [->|Hne].
  - rewrite (charge_active k wid g Ha Hw). lia.
  - rewrite (charge_elsewhere k wid wid' g Hw Hne). lia.
Qed.

(** Releasing pays a surplus back. *)
Lemma release_accounted s c a wid :
  nonneg s -> accounted (bump s a wid) c -> allocs_ok (jgroups c) -> (forall k, 0 <= amount k a) ->
  accounted s {| c with workers := release_on wid a (workers c) |}.
Proof.
  intros Hs Hb Hok Hpos wid' w' k Hl. simpl in *.
  assert (Hcnt : forall w k, workers c !! wid' = Some w -> 0 <= counter k w).
  { intros w k0 Hw0. destruct (Hb wid' w k0 Hw0) as [-> _]. pose proof (ledger_nonneg k0 wid' _ Hok).
    pose proof (Hs k0 wid'). pose proof (Hpos k0). unfold bump. destruct (decide _); lia. }
  destruct (release_on_lookup wid a (workers c) wid' Hpos Hcnt w' Hl) as (w & Hw0 & _ & ->).
  destruct (Hb wid' w k Hw0) as [Hbal Hbd]. pose proof (ledger_nonneg k wid' _ Hok).
  pose proof (Hs k wid'). pose proof (Hpos k). unfold bump in Hbal.
  destruct (decide (wid' = wid)); unfold saturating_sub; lia.
Qed.

(** A change that keeps each group's charges keeps the accounts. *)
Lemma accounted_same_charge s c r' gid g g' :
  accounted s c -> groups (jgroups c) !! gid = Some g -> groups r' !! gid = Some g' ->
  (forall gid', gid' <> gid -> groups r' !! gid' = groups (jgroups c) !! gid') ->
  (forall k wid, charge k wid g' = charge k wid g) ->
  accounted s {| c with jgroups := r' |}.
Proof.
  intros Hb Hg Hg' Ho Hc wid w k Hw. simpl in *. rewrite (ledger_change k wid gid _ _ g g' Hg Hg' Ho), Hc.
  destruct (Hb wid w k Hw). split; lia.
Qed.

(** Effects, jobs and metrics are off the books. *)
Lemma accounted_books s c c' :
  workers c' = workers c -> groups (jgroups c') = groups (jgroups c) -> accounted s c -> accounted s c'.
Proof. unfold accounted, ledger. by intros -> ->. Qed.

Lemma allocs_ok_step r r' gid g g' :
  allocs_ok r -> groups r !! gid = Some g -> groups r' !! gid = Some g' ->
  g_allocated_resources g' = g_allocated_resources g ->
  (forall gid', gid' <> gid -> groups r' !! gid' = groups r !! gid') -> allocs_ok r'.
Proof.
  intros Hok Hg Hg' Ha Ho gid' x Hx. destruct (decide (gid' = gid)) as [->|Hne].
  - assert (x = g') as -> by congruence. rewrite Ha. exact (Hok _ _ Hg).
  - rewrite Ho in Hx by done. exact (Hok _ _ Hx).
Qed.

(** A group that is closed and released, or that has no worker to credit. *)
Lemma settle_accounted s c c' gid g g' :
  nonneg s -> accounted s c -> allocs_ok (jgroups c) ->
  groups (jgroups c) !! gid = Some g -> groups (jgroups c') !! gid = Some g' ->
  (forall gid', gid' <> gid -> groups (jgroups c') !! gid' = groups (jgroups c) !! gid') ->
  is_active g = true -> is_active g' = false -> g_reserved_worker_id g' = g_reserved_worker_id g ->
  g_allocated_resources g' = g_allocated_resources g ->
  workers c' = match g_reserved_worker_id g with
               | Some wid => release_on wid (g_allocated_resources g) (workers c)
               | None => workers c
               end ->
  accounted s c'.
Proof.
  intros Hs Hb Hok Hg Hg' Ho Ha Ha' Hre Hal Ew.
  assert (Hok' : allocs_ok (jgroups c')) by (by apply (allocs_ok_step (jgroups c) _ gid g g')).
  destruct (g_reserved_worker_id g) as [wid|] eqn:Hw.
  - apply (accounted_books s {| c with jgroups := jgroups c';
      workers := release_on wid (g_allocated_resources g) (workers c) |}); [done|done|].
    apply (release_accounted s {| c with jgroups := jgroups c' |} (g_allocated_resources g) wid Hs);
      [|done|exact (Hok _ _ Hg)]. by apply (close_accounted s c (jgroups c') gid g g').
  - apply (accounted_books s {| c with jgroups := jgroups c' |}); [done|done|].
    apply (accounted_same_charge s c _ gid g g' Hb Hg Hg' Ho). intros k w. by rewrite !charge_unassigned.
Qed.

(** ** Reports *)

(** Stages are submitted to running groups: an active group that has a job is
    [Running]. *)
Definition serving (r : JobGroupRegistry) : Prop :=
  forall gid g j js, groups r !! gid = Some g -> group_jobs r !! gid = Some (j :: js) ->
    is_active g = true -> g_state g = GRunning.

Lemma update_first_nil p f l : update_first p f l = [] -> l = [].
Proof. destruct l as [|j l]; simpl; [done|]. by destruct (p j). Qed.

Lemma completion_outcome_some reserved jobs st :
  completion_outcome reserved jobs = Some st ->
  jobs <> [] /\ (st = GFailed \/ st = GCancelled \/ st = GSuccess).
Proof. unfold completion_outcome. repeat case_decide; intros [= <-]; auto. Qed.

Lemma report_to_group_cases uuid_v5 clk gid req r :
  serving r ->
  let '(info, r3) := report_to_group uuid_v5 clk gid req r in
  (forall gid', gid' <> gid -> groups r3 !! gid' = groups r !! gid') /\
  match groups r !! gid with
  | None => info = None /\ groups r3 = groups r
  | Some g => exists g', groups r3 !! gid = Some g' /\
      g_allocated_resources g' = g_allocated_resources g /\
      g_reserved_worker_id g' = g_reserved_worker_id g /\
      match info with
      | None => g_state g' = g_state g
      | Some i => is_active g = true /\ is_active g' = false /\ c_state i = g_state g' /\
          c_worker i = g_reserved_worker_id g /\ c_alloc i = g_allocated_resources g
      end
  end.
Proof.
  intros Hs. unfold report_to_group.
  set (r1 := update_job_in_group _ _ _ _ _ _ r). set (r2 := touch_activity _ gid r1).
  assert (Hoth : forall gid', gid' <> gid -> groups r2 !! gid' = groups r !! gid').
  { intros gid' Hne. simpl. by rewrite lookup_alter_ne. }
  destruct (groups r !! gid) as [g|] eqn:Hg.
  2: { assert (H2 : groups r2 !! gid = None) by (simpl; by rewrite lookup_alter_eq, Hg).
       unfold check_group_completion. rewrite H2. simpl. split; [done|]. split; [done|].
       apply map_eq. intros i. destruct (decide (i = gid)) as [->|Hne]; [by rewrite lookup_alter_eq, Hg|].
       by rewrite lookup_alter_ne. }
  set (g2 := {| g with g_last_activity_at := clk 2%nat |}).
  assert (H2 : groups r2 !! gid = Some g2) by (simpl; by rewrite lookup_alter_eq, Hg).
  destruct (is_active g) eqn:Ha.
  2: { unfold check_group_completion. rewrite H2. unfold is_active in Ha. apply negb_false_iff in Ha.
       simpl JobGroupState_is_terminal. rewrite Ha. simpl fmap. split; [done|]. by exists g2. }
  destruct (group_jobs r2 !! gid) as [jobs2|] eqn:Hj2.
  2: { unfold check_group_completion. rewrite H2, Hj2.
       destruct (JobGroupState_is_terminal (g_state g2)); (split; [done|]; by exists g2). }
  pose proof (check_group_completion_value (from_reading 3 clk) gid r2 g2 jobs2 H2 Hj2 Ha) as (Hv & _ & Hfr & Hout).
  destruct (check_group_completion (from_reading 3 clk) gid r2) as [out r3]. simpl in Hv, Hfr, Hout.
  split; [intros gid' Hne; by rewrite Hfr, Hoth|].
  destruct (completion_outcome (g_reserved_stages g) jobs2) as [st|] eqn:Ho; subst out.
  2: { subst r3. by exists g2. }
  destruct Hout as [reason Hr3]. apply completion_outcome_some in Ho as [Hne Hst].
  assert (Hrun : g_state g = GRunning).
  { simpl in Hj2. rewrite lookup_alter_eq in Hj2. destruct (group_jobs r !! gid) as [[|j js]|] eqn:Hj; [| |done].
    - injection Hj2 as <-. done.
    - by apply (Hs gid g j js). }
  simpl g_state in Hr3. rewrite Hrun in Hr3.
  assert (Hval : valid_transition GRunning st = true) by (destruct Hst as [->|[->| ->]]; done).
  rewrite Hval in Hr3. eexists. split; [exact Hr3|]. split_and!; [done|done|].
  assert (Hterm : JobGroupState_is_terminal st = true) by (destruct Hst as [->|[->| ->]]; done).
  simpl fmap. cbn [c_state c_worker c_alloc]. unfold on_group_completed, get_group. rewrite Hr3. simpl.
  rewrite Hterm. unfold is_active. simpl. by rewrite Hterm.
Qed.

Lemma close_group_books gid info c :
  jgroups (close_group gid info c) = jgroups c /\
  workers (close_group gid info c) =
    match c_worker info with Some wid => release_on wid (c_alloc info) (workers c) | None => workers c end.
Proof. unfold close_group. by destruct (c_worker info). Qed.

(** Reports keep the accounts, whatever the surplus. *)
Lemma report_accounted uuid_v5 parse_uuid clk db_ok req s c :
  nonneg s -> accounted s c -> allocs_ok (jgroups c) -> serving (jgroups c) ->
  accounted s (report_job_status uuid_v5 parse_uuid clk db_ok req c).
Proof.
  intros Hn Hb Hok Hs. unfold report_job_status. destruct (su_purge_ack req); [by apply (accounted_books s c)|].
  set (c4 := emit _ (emit _ _)). assert (H4 : workers c4 = workers c /\ jgroups c4 = jgroups c) by done.
  destruct H4 as [Hw4 Hj4]. clearbody c4.
  assert (Hb4 : accounted s c4) by (apply (accounted_books s c); [done|by rewrite Hj4|done]).
  destruct (if negb _ then _ else _) as [gid|]; [|done].
  rewrite Hj4. pose proof (report_to_group_cases uuid_v5 (from_reading 2 clk) gid req (jgroups c) Hs) as H.
  destruct (report_to_group _ _ _ _ _) as [info r3]. destruct H as [Hoth H].
  rewrite <- Hj4 in *. destruct (groups (jgroups c4) !! gid) as [g|] eqn:Hg.
  2: { destruct H as [-> Hr]. by apply (accounted_books s c4). }
  destruct H as (g' & Hg' & Hal & Hre & Hi). destruct info as [i|].
  2: { apply (accounted_same_charge s c4 r3 gid g g' Hb4 Hg Hg' Hoth). intros k wid. by apply charge_same. }
  destruct Hi as (Ha & Ha' & _ & Hcw & Hca).
  destruct (close_group_books gid i {| c4 with jgroups := r3 |}) as [E1 E2]. rewrite Hcw, Hca in E2.
  apply (settle_accounted s c4 _ gid g g'); rewrite ?E1; done.
Qed.

(** [owner]'s counters went down by exactly [a]; no other worker's changed. *)
Definition paid_back (owner : option string) (a : AllocatedResources) (wr wr' : WorkerRegistry) : Prop :=
  dom wr' = dom wr /\
  forall id w', wr' !! id = Some w' -> exists w, wr !! id = Some w /\ ws_info w' = ws_info w /\
    forall k, counter k w' = counter k w - if decide (owner = Some id) then amount k a else 0.

Lemma dom_release_on wid a wr : dom (release_on wid a wr) = dom wr.
Proof. unfold release_on. destruct (has_alloc a); [apply dom_alter_L|done]. Qed.

(** On balanced books the release does not saturate. *)
Lemma release_paid_back c gid g :
  balanced c -> allocs_ok (jgroups c) -> groups (jgroups c) !! gid = Some g -> is_active g = true ->
  paid_back (g_reserved_worker_id g) (g_allocated_resources g) (workers c)
    match g_reserved_worker_id g with
    | Some wid => release_on wid (g_allocated_resources g) (workers c)
    | None => workers c
    end.
Proof.
  intros Hb Hok Hg Ha. destruct (g_reserved_worker_id g) as [wid|] eqn:Hw.
  2: { split; [done|]. intros id w' Hl. exists w'. split_and!; [done|done|]. intros k. rewrite decide_False by done. lia. }
  split; [apply dom_release_on|]. intros id w' Hl.
  assert (Hcnt : forall w k, workers c !! id = Some w -> 0 <= counter k w).
  { intros w k Hx. destruct (Hb id w k Hx) as [-> _]. by apply ledger_nonneg. }
  destruct (release_on_lookup wid _ _ id (Hok _ _ Hg) Hcnt w' Hl) as (w & Hx & Hi & Hk).
  exists w. split_and!; [done|done|]. intros k. rewrite Hk. destruct (decide (id = wid)) as [->|Hne].
  - rewrite decide_True by done. destruct (Hb wid w k Hx) as [Hc _].
    pose proof (total_ge _ _ gid g (charge_nonneg k wid _ Hok) Hg) as Hge.
    rewrite (charge_active k wid g Ha Hw) in Hge. unfold ledger in Hc. unfold saturating_sub. lia.
  - rewrite decide_False by congruence. lia.
Qed.

(** No group is closed and no worker credited. *)
Definition releases_nothing (c c' : Controller) : Prop :=
  workers c' = workers c /\
  forall gid, (is_active <$> groups (jgroups c') !! gid) = (is_active <$> groups (jgroups c) !! gid).

(** Group [gid] alone is closed, and its allocation alone paid back. *)
Definition releases_group (gid : Uuid) (c c' : Controller) : Prop :=
  exists g g', groups (jgroups c) !! gid = Some g /\ is_active g = true /\
    groups (jgroups c') !! gid = Some g' /\ is_active g' = false /\
    (forall gid', gid' <> gid -> groups (jgroups c') !! gid' = groups (jgroups c) !! gid') /\
    paid_back (g_reserved_worker_id g) (g_allocated_resources g) (workers c) (workers c').

Lemma releases_nothing_books c c' :
  workers c' = workers c -> groups (jgroups c') = groups (jgroups c) -> releases_nothing c c'.
Proof. intros H E. split; [done|]. by rewrite E. Qed.

Lemma report_release_cases uuid_v5 parse_uuid clk db_ok req c :
  balanced c -> allocs_ok (jgroups c) -> serving (jgroups c) ->
  let c' := report_job_status uuid_v5 parse_uuid clk db_ok req c in
  releases_nothing c c' \/
  exists gid, parse_uuid (su_job_group_id req) = Some gid /\ releases_group gid c c'.
Proof.
  intros Hb Hok Hs. unfold report_job_status. destruct (su_purge_ack req); [by left|].
  set (c4 := emit _ (emit _ _)). assert (H4 : workers c4 = workers c /\ jgroups c4 = jgroups c) by done.
  destruct H4 as [Hw4 Hj4]. clearbody c4. case_bool_decide; simpl negb; cbv iota; [left; by apply releases_nothing_books; rewrite ?Hj4|].
  destruct (parse_uuid _) as [gid|]; [|left; by apply releases_nothing_books; rewrite ?Hj4].
  rewrite Hj4. pose proof (report_to_group_cases uuid_v5 (from_reading 2 clk) gid req (jgroups c) Hs) as H'.
  destruct (report_to_group _ _ _ _ _) as [info r3]. destruct H' as [Hoth H'].
  destruct (groups (jgroups c) !! gid) as [g|] eqn:Hg.
  2: { destruct H' as [-> Hr]. left. by apply releases_nothing_books. }
  destruct H' as (g' & Hg' & Hal & Hre & Hi). destruct info as [i|].
  2: { left. split; [done|]. intros gid'. simpl. destruct (decide (gid' = gid)) as [->|Hne]; [|by rewrite Hoth].
       rewrite Hg, Hg'. simpl. unfold is_active. by rewrite Hi. }
  destruct Hi as (Ha & Ha' & _ & Hcw & Hca). right. exists gid. split; [done|]. exists g, g'.
  destruct (close_group_books gid i {| c4 with jgroups := r3 |}) as [E1 E2]. rewrite E1, E2, Hcw, Hca. simpl. rewrite Hw4.
  split_and!; try done. by apply (release_paid_back c gid).
Qed.

(** C4. Status reports keep the books. Suppose every worker's counters equal the
    sum of the allocations of the active groups reserved on it, no allocation
    is negative, and every active group that has a job is running. Then after
    any report the counters equal those sums again, and the report either
    releases nothing (every worker as before, every group as active as before)
    or closes the group it names: that group was active and is terminal now, no
    other group changed, and the counters of its worker went down by exactly its
    allocation while no other worker's did. A report for a group that is
    terminal already, such as a repetition of the one that closed it, releases
    nothing. *)
Theorem report_keeps_ledger (uuid_v5 : string -> string) (parse_uuid : string -> option Uuid) (clk : clock)
    (db_ok : bool) (req : JobStatusUpdate) (c : Controller) :
  balanced c -> allocs_ok (jgroups c) -> serving (jgroups c) ->
  let c' := report_job_status uuid_v5 parse_uuid clk db_ok req c in
  balanced c' /\
  (releases_nothing c c' \/
   exists gid, parse_uuid (su_job_group_id req) = Some gid /\ releases_group gid c c') /\
  (forall gid g, parse_uuid (su_job_group_id req) = Some gid -> groups (jgroups c) !! gid = Some g ->
     is_active g = false -> releases_nothing c c').
Proof.
  intros Hb Hok Hs c'. pose proof (report_release_cases uuid_v5 parse_uuid clk db_ok req c Hb Hok Hs) as H.
  split_and!; [|done|].
  - rewrite !balanced_accounted in *.
    by apply (report_accounted uuid_v5 parse_uuid clk db_ok req no_surplus c no_surplus_nonneg).
  - intros gid g Hp Hg Ha. destruct H as [H|(gid' & Hp' & g1 & _ & Hg1 & Ha1 & _)]; [done|]. congruence.
Qed.

(** ** A concrete state *)

Definition busy_job (st : JobState) : Job :=
  {| (Job_new 0 "j" "make" JTCommon 1 1 1) with j_state := st; j_stage_name := Some "build" |}.

Definition busy_group (gid : Uuid) (w : string) (cpu mem : Z) : JobGroup :=
  {| (JobGroup_new_with_id 0 gid None None None "api") with
    g_reserved_worker_id := Some w;
    g_allocated_resources := {| ar_cpu := cpu; ar_memory_mb := mem; ar_disk_mb := 0 |};
    g_reserved_stages := ["build"] |}.

(** A worker that runs one group, its counters at the group's allocation. *)
Definition busy_controller (st : JobState) : Controller := {|
  workers := {[ "w" := {| (sample_worker "w") with ws_allocated_cpu := 2; ws_allocated_memory_mb := 100 |} ]};
  jobs := add_job (busy_job st) JobRegistry_new;
  jgroups := add_job_to_group 7%N (busy_job st) (add_group (busy_group 7%N "w" 2 100) JobGroupRegistry_new);
  logs := LogAggregator_new None;
  job_stream_senders := ∅;
  token_hashes := ∅; has_storage := false;
  has_redis := false;
  effects := []
|}.

Lemma busy_balanced st : balanced (busy_controller st).
Proof.
  intros wid w k Hw. simpl in Hw. apply lookup_singleton_Some in Hw as [<- <-].
  destruct k; split; vm_compute; reflexivity.
Qed.

Lemma busy_allocs st : allocs_ok (jgroups (busy_controller st)).
Proof. apply map_Forall_insert_2; [|apply map_Forall_empty]. intros []; simpl; lia. Qed.

Lemma busy_serving st : serving (jgroups (busy_controller st)).
Proof.
  intros gid g j js Hg _ _. simpl in Hg. apply lookup_insert_Some in Hg as [[_ <-]|[_ Hg]]; [done|].
  by rewrite lookup_empty in Hg.
Qed.

Definition done_report : JobStatusUpdate := {|
  su_worker_id := "w"; su_job_id := "j"; su_state := 4; su_message := ""; su_exit_code := 0;
  su_timestamp_unix := 9; su_job_group_id := "7"; su_stage_name := "build"; su_phase := "command";
  su_pre_exit_code := 0; su_post_exit_code := 0; su_purge_ack := false
|}.

(** The report that closes the group gives its 2 CPUs back. *)
Lemma report_keeps_ledger_witness :
  let c := report_job_status (fun s => s) (fun _ => Some 7%N) (fun _ => 9) true done_report (busy_controller JRunning) in
  balanced c /\ releases_group 7%N (busy_controller JRunning) c /\ (counter CPU <$> workers c !! "w") = Some 0.
Proof.
  intros c. assert (E : (counter CPU <$> workers c !! "w") = Some 0) by (vm_compute; reflexivity).
  destruct (report_keeps_ledger (fun s => s) (fun _ => Some 7%N) (fun _ => 9) true done_report (busy_controller JRunning)
    (busy_balanced _) (busy_allocs _) (busy_serving _)) as (Hb & Hr & _). fold c in Hb, Hr.
  split; [exact Hb|]. split; [|exact E]. destruct Hr as [[Hw _]|(gid & [= <-] & Hg)]; [|exact Hg].
  rewrite Hw in E. vm_compute in E. discriminate E.
Defined.

(** ** Reconciliation *)

Definition sumf {A : Type} (f : A -> Z) (l : list A) : Z := foldr (fun g acc => f g + acc) 0 l.

Lemma sumf_cons {A} (f : A -> Z) x l : sumf f (x :: l) = f x + sumf f l.
Proof. done. Qed.

Lemma sumf_perm {A} (f : A -> Z) l l' : l ≡ₚ l' -> sumf f l = sumf f l'.
Proof. induction 1; rewrite ?sumf_cons; lia. Qed.

Lemma sumf_fmap {A B} (h : B -> A) (f : A -> Z) l : sumf f (h <$> l) = sumf (fun b => f (h b)) l.
Proof. induction l as [|b l IH]; [done|]. by rewrite fmap_cons, !sumf_cons, IH. Qed.

Lemma sumf_filter {A} (P : A -> Prop) `{!forall x, Decision (P x)} (f : A -> Z) l :
  sumf f (filter P l) = sumf (fun x => if decide (P x) then f x else 0) l.
Proof.
  induction l as [|x l IH]; [done|]. rewrite filter_cons, sumf_cons, <- IH.
  case_decide; rewrite ?sumf_cons; lia.
Qed.

Lemma sumf_nonneg {A} (f : A -> Z) l : (forall x, x ∈ l -> 0 <= f x) -> 0 <= sumf f l.
Proof.
  induction l as [|x l IH]; intros H; [done|]. rewrite sumf_cons.
  assert (0 <= f x) by (apply H; left). assert (0 <= sumf f l) by (apply IH; intros; apply H; by right). lia.
Qed.

Lemma sumf_ext {A} (f f' : A -> Z) l : (forall x, f x = f' x) -> sumf f l = sumf f' l.
Proof. intros H. induction l as [|x l IH]; [done|]. by rewrite !sumf_cons, H, IH. Qed.

Lemma total_list `{HI : HashIter} f (m : gmap Uuid JobGroup) : total f m = sumf f (hvalues m).
Proof.
  unfold hvalues. rewrite sumf_fmap, (sumf_perm _ _ _ (hiter_perm m)).
  unfold total. rewrite map_fold_foldr. induction (map_to_list m) as [|[k g] l IH]; [done|].
  rewrite sumf_cons, <- IH. done.
Qed.

(** The ledger is the sum over the groups that the registry lists. *)
Lemma ledger_groups `{HI : HashIter} k wid r :
  ledger k wid r = sumf (fun g => amount k (g_allocated_resources g)) (get_groups_for_worker wid r).
Proof.
  unfold ledger. rewrite total_list. unfold get_groups_for_worker. rewrite !sumf_filter. apply sumf_ext.
  intros g. unfold charge. repeat case_decide; simpl; try case_bool_decide; try done;
    destruct (is_active g); done.
Qed.

Lemma sum_allocs_exact l cpu mem disk :
  let s k := sumf (fun g => amount k (g_allocated_resources g)) l in
  Forall (fun g => is_active g = true /\ forall k, 0 <= amount k (g_allocated_resources g)) l ->
  0 <= cpu -> 0 <= mem -> 0 <= disk ->
  cpu + s CPU < 2 ^ 32 -> mem + s MEM < 2 ^ 64 -> disk + s DISK < 2 ^ 64 ->
  foldl (fun '(cpu, mem, disk) g =>
           if negb (JobGroupState_is_terminal (g_state g)) then
             (u32_add cpu (ar_cpu (g_allocated_resources g)),
              u64_add mem (ar_memory_mb (g_allocated_resources g)),
              u64_add disk (ar_disk_mb (g_allocated_resources g)))
           else (cpu, mem, disk)) (cpu, mem, disk) l = (cpu + s CPU, mem + s MEM, disk + s DISK).
Proof.
  revert cpu mem disk. induction l as [|g l IH]; intros cpu mem disk s Hl H1 H2 H3 Hc Hm Hd.
  { unfold s. cbn. f_equal; [f_equal|]; lia. }
  apply Forall_cons in Hl as [[Ha Hg] Hl].
  assert (Hnn : forall k, 0 <= sumf (fun g => amount k (g_allocated_resources g)) l).
  { intros k. apply sumf_nonneg. rewrite Forall_forall in Hl. intros x Hx. by apply Hl. }
  assert (Hs : forall k, s k = amount k (g_allocated_resources g) +
    sumf (fun g => amount k (g_allocated_resources g)) l) by done.
  rewrite !Hs. rewrite Hs in Hc, Hm, Hd. clearbody s.
  pose proof (Hg CPU) as G1. pose proof (Hg MEM) as G2. pose proof (Hg DISK) as G3.
  pose proof (Hnn CPU). pose proof (Hnn MEM). pose proof (Hnn DISK).
  change (amount CPU (g_allocated_resources g)) with (ar_cpu (g_allocated_resources g)) in *.
  change (amount MEM (g_allocated_resources g)) with (ar_memory_mb (g_allocated_resources g)) in *.
  change (amount DISK (g_allocated_resources g)) with (ar_disk_mb (g_allocated_resources g)) in *.
  unfold is_active in Ha. cbn [foldl]. rewrite Ha.
  rewrite u32_add_small, !u64_add_small by lia. rewrite IH by (done || lia). f_equal; [f_equal|]; lia.
Qed.

Lemma set_alloc_counters cpu mem disk w :
  let w' := set_alloc (cpu, mem, disk) w in
  ws_info w' = ws_info w /\ counter CPU w' = cpu /\ counter MEM w' = mem /\ counter DISK w' = disk.
Proof. unfold set_alloc. case_bool_decide as E; [|done]. injection E as <- <- <-. done. Qed.

Lemma set_alloc_idem s w : set_alloc s (set_alloc s w) = set_alloc s w.
Proof.
  destruct s as [[cpu mem] disk]. destruct (set_alloc_counters cpu mem disk w) as (_ & H1 & H2 & H3).
  set (w' := set_alloc (cpu, mem, disk) w) in *. clearbody w'. simpl in H1, H2, H3.
  unfold set_alloc. by rewrite H1, H2, H3, bool_decide_eq_true_2.
Qed.

Definition ledger_fits (r : JobGroupRegistry) : Prop := forall k wid, ledger k wid r < 2 ^ width k.

Lemma sum_allocs_ledger `{HI : HashIter} r wid :
  allocs_ok r -> (forall k, ledger k wid r < 2 ^ width k) ->
  sum_allocs (get_groups_for_worker wid r) = (ledger CPU wid r, ledger MEM wid r, ledger DISK wid r).
Proof.
  intros Hok Hfit. unfold sum_allocs.
  assert (Hall : Forall (fun g => is_active g = true /\ forall k, 0 <= amount k (g_allocated_resources g))
    (get_groups_for_worker wid r)).
  { apply Forall_forall. intros g Hg. unfold get_groups_for_worker in Hg.
    rewrite !list_elem_of_filter, elem_of_hvalues in Hg. destruct Hg as (Ha & _ & gid & Hgid).
    split; [done|]. exact (Hok _ _ Hgid). }
  pose proof (Hfit CPU) as F1. pose proof (Hfit MEM) as F2. pose proof (Hfit DISK) as F3.
  rewrite !ledger_groups in *. simpl width in *. rewrite sum_allocs_exact by (done || lia). by rewrite !Z.add_0_l.
Qed.

Definition keys_match (wr : WorkerRegistry) : Prop := map_Forall (fun id w => wi_worker_id (ws_info w) = id) wr.

Lemma reconcile_lookup `{HI : HashIter} c wid :
  keys_match (workers c) -> allocs_ok (jgroups c) -> (forall k, ledger k wid (jgroups c) < 2 ^ width k) ->
  workers (reconcile_worker_allocations c) !! wid =
    set_alloc (ledger CPU wid (jgroups c), ledger MEM wid (jgroups c), ledger DISK wid (jgroups c)) <$> workers c !! wid.
Proof.
  intros Hk Hok Hfit. simpl. rewrite <- sum_allocs_ledger by done.
  set (F := fun wid => set_alloc (sum_allocs (get_groups_for_worker wid (jgroups c)))).
  set (ids := (fun w => wi_worker_id (ws_info w)) <$> all_workers (workers c)).
  change (foldl (fun m' k => alter (F k) k m') (workers c) ids !! wid = F wid <$> workers c !! wid).
  rewrite (lookup_foldl_alter_key F) by (intros; apply set_alloc_idem).
  case_decide as Hin; [done|]. destruct (workers c !! wid) as [w|] eqn:Hw; [|done]. destruct Hin.
  unfold ids. rewrite list_elem_of_fmap. exists w. split; [by rewrite (Hk _ _ Hw)|]. apply elem_of_hvalues. eauto.
Qed.

Lemma reconcile_exact `{HI : HashIter} c :
  keys_match (workers c) -> allocs_ok (jgroups c) -> ledger_fits (jgroups c) ->
  balanced (reconcile_worker_allocations c).
Proof.
  intros Hk Hok Hfit wid w' k Hw'. split; [|apply Hfit].
  rewrite reconcile_lookup in Hw' by done. apply fmap_Some in Hw' as (w & _ & ->).
  edestruct set_alloc_counters as (_ & H1 & H2 & H3). by destruct k.
Qed.

(** The reconciler repairs any drift: from whatever counters the workers
    have, one run makes each worker's counters equal to the sum over its active
    groups (sums that fit their machine width), in any iteration order; on
    books that balance already it changes nothing. *)
Theorem reconcile_balances `{HI : HashIter} (c : Controller) :
  keys_match (workers c) -> allocs_ok (jgroups c) -> ledger_fits (jgroups c) ->
  balanced (reconcile_worker_allocations c) /\
  (balanced c -> reconcile_worker_allocations c = c).
Proof.
  intros Hk Hok Hfit. split; [by apply reconcile_exact|]. intros Hb.
  assert (E : workers (reconcile_worker_allocations c) = workers c).
  { apply map_eq. intros wid. rewrite reconcile_lookup by done. destruct (workers c !! wid) as [w|] eqn:Hw; [|done].
    destruct (Hb wid w CPU Hw) as [<- _], (Hb wid w MEM Hw) as [<- _], (Hb wid w DISK Hw) as [<- _].
    simpl. unfold set_alloc. by rewrite bool_decide_eq_true_2. }
  destruct c. cbn [workers] in E. unfold reconcile_worker_allocations, with_workers in *. simpl in *. by rewrite E.
Qed.

Definition drifted : Controller :=
  with_workers (alter (fun w => {| w with ws_allocated_cpu := 7 |}) "w") (busy_controller JRunning).

Lemma reconcile_balances_witness : balanced (reconcile_worker_allocations (HI := map_iter) drifted).
Proof.
  apply (reconcile_balances (HI := map_iter) drifted).
  - intros id w Hw. unfold drifted, with_workers, busy_controller in Hw. cbn [workers] in Hw.
    apply lookup_alter_Some in Hw as [(<- & w0 & Hw & ->)|[Hne Hw]];
      apply lookup_singleton_Some in Hw as [Hid <-]; [reflexivity|by destruct Hne].
  - exact (busy_allocs JRunning).
  - intros k wid. unfold ledger. change (groups (jgroups drifted)) with (<[7%N := busy_group 7%N "w" 2 100]> (∅ : gmap Uuid JobGroup)).
    rewrite total_insert_new by done. unfold charge. destruct k; simpl; case_bool_decide; reflexivity.
Defined.

(** ** The reapers *)

Lemma fail_stuck_one clk r gid g :
  groups r !! gid = Some g ->
  exists g', groups (fail_stuck clk r gid) !! gid = Some g' /\ g_state g' = GFailed /\
    g_reserved_worker_id g' = g_reserved_worker_id g /\ g_allocated_resources g' = g_allocated_resources g.
Proof.
  intros Hg. unfold fail_stuck. rewrite (update_then_reason (clk gid) gid GFailed r g stuck_reason Hg).
  rewrite valid_to_failure by auto. by eexists.
Qed.

Lemma fail_stuck_other clk r gid gid' :
  gid' <> gid -> groups (fail_stuck clk r gid) !! gid' = groups r !! gid'.
Proof. intros Hne. unfold fail_stuck. simpl. rewrite lookup_alter_ne by done. by apply update_state_other. Qed.

(** The stuck-group reaper fails a group that has run for four hours without
    releasing its resources: when it closes one stuck group on balanced books,
    the counters of the group's worker stay where they were, above the ledger by
    exactly the group's allocation, until the reconciler runs. *)
Theorem stuck_reaper_leaks (clk : Uuid -> clock) (c : Controller) (gid : Uuid) (g : JobGroup) (wid : string)
    (w : WorkerState) (k : resource) :
  balanced c -> groups (jgroups c) !! gid = Some g -> g_state g = GRunning ->
  g_reserved_worker_id g = Some wid -> workers c !! wid = Some w ->
  let c' := with_groups (fun r => fail_stuck clk r gid) c in
  workers c' !! wid = Some w /\
  counter k w = ledger k wid (jgroups c') + amount k (g_allocated_resources g).
Proof.
  intros Hb Hg Hs Hw Hwk c'. split; [done|].
  destruct (fail_stuck_one clk (jgroups c) gid g Hg) as (g' & Hg' & Hst & _).
  simpl jgroups. rewrite (ledger_change k wid gid (jgroups c) _ g g' Hg Hg') by (intros; by apply fail_stuck_other).
  rewrite (charge_active k wid g) by (unfold is_active; by rewrite ?Hs).
  replace (charge k wid g') with 0 by (unfold charge, is_active; by rewrite Hst).
  destruct (Hb wid w k Hwk). lia.
Qed.

Lemma stuck_reaper_leaks_witness :
  let c' := reap_stuck_groups (HI := map_iter) (secs 14400) (fun _ _ => secs 14400) (busy_controller JRunning) in
  (counter CPU <$> workers c' !! "w") = Some (ledger CPU "w" (jgroups c') + 2) /\ ledger CPU "w" (jgroups c') = 0.
Proof.
  assert (E : reap_stuck_groups (HI := map_iter) (secs 14400) (fun _ _ => secs 14400) (busy_controller JRunning) =
    with_groups (fun r => fail_stuck (fun _ _ => secs 14400) r 7%N) (busy_controller JRunning)) by (vm_compute; reflexivity).
  rewrite E. split; [|vm_compute; reflexivity].
  destruct (stuck_reaper_leaks (fun _ _ => secs 14400) (busy_controller JRunning) 7%N (busy_group 7%N "w" 2 100) "w"
    {| (sample_worker "w") with ws_allocated_cpu := 2; ws_allocated_memory_mb := 100 |} CPU (busy_balanced _)
    ltac:(reflexivity) ltac:(reflexivity) ltac:(reflexivity) ltac:(reflexivity)) as [H1 H2].
  rewrite H1. exact (f_equal Some H2).
Defined.

(** Whatever failing state the group is given, failing its jobs leaves it failed. *)
Lemma end_group_one st clk gid reason r g :
  st = GFailed \/ st = GCancelled \/ st = GExpired -> groups r !! gid = Some g ->
  exists g', groups (end_group st clk gid reason r) !! gid = Some g' /\ g_state g' = GFailed /\
    g_reserved_worker_id g' = g_reserved_worker_id g /\ g_allocated_resources g' = g_allocated_resources g.
Proof.
  intros Hst Hg. unfold end_group, fail_group_jobs.
  set (r1 := alter_group _ gid _).
  assert (H1 : exists g1, groups r1 !! gid = Some g1 /\ g_reserved_worker_id g1 = g_reserved_worker_id g /\
            g_allocated_resources g1 = g_allocated_resources g).
  { unfold r1. rewrite (update_then_reason clk gid st r g reason Hg), valid_to_failure by auto. by eexists. }
  destruct H1 as (g1 & H1 & Hw1 & Ha1).
  set (r2 := alter_jobs _ gid r1). assert (H2 : groups r2 !! gid = Some g1) by done.
  rewrite (update_state_eq _ _ _ r2 g1 H2), valid_to_failure by auto. simpl. rewrite lookup_insert_eq.
  eexists. split; [reflexivity|]. by split_and!.
Qed.

Lemma end_group_other st clk gid reason r gid' :
  gid' <> gid -> groups (end_group st clk gid reason r) !! gid' = groups r !! gid'.
Proof.
  intros Hne. unfold end_group, fail_group_jobs. rewrite update_state_other by done. simpl.
  rewrite lookup_alter_ne by done. by apply update_state_other.
Qed.

Lemma end_group_jobs st clk gid reason r :
  group_jobs (end_group st clk gid reason r) = alter (fmap (fail_job (clk 2%nat) reason)) gid (group_jobs r).
Proof. unfold end_group, fail_group_jobs. rewrite update_state_jobs. simpl. by rewrite update_state_jobs. Qed.

Lemma expire_group_one clk gid reason r g :
  groups r !! gid = Some g ->
  exists g', groups (expire_group clk gid reason r) !! gid = Some g' /\ g_state g' = GFailed /\
    g_reserved_worker_id g' = g_reserved_worker_id g /\ g_allocated_resources g' = g_allocated_resources g.
Proof. apply end_group_one. auto. Qed.

Lemma expire_group_other clk gid reason r gid' :
  gid' <> gid -> groups (expire_group clk gid reason r) !! gid' = groups r !! gid'.
Proof. apply end_group_other. Qed.

Lemma reap_one_books clk idle stall s c :
  jgroups (reap_one clk idle stall s c) = expire_group clk (sg_id s) (reap_reason idle stall s) (jgroups c) /\
  workers (reap_one clk idle stall s c) =
    match sg_worker s with Some wid => release_on wid (sg_alloc s) (workers c) | None => workers c end.
Proof. unfold reap_one. by destruct (sg_worker s). Qed.

Lemma reap_one_accounted clk idle stall z s c g :
  nonneg z -> accounted z c -> allocs_ok (jgroups c) ->
  groups (jgroups c) !! sg_id s = Some g -> is_active g = true ->
  sg_worker s = g_reserved_worker_id g -> sg_alloc s = g_allocated_resources g ->
  accounted z (reap_one clk idle stall s c).
Proof.
  intros Hz Hb Hok Hg Ha Hw Hal. destruct (reap_one_books clk idle stall s c) as [E1 E2].
  destruct (expire_group_one clk (sg_id s) (reap_reason idle stall s) (jgroups c) g Hg)
    as (g' & Hg' & Hst & Hwk & Hal').
  rewrite Hw, Hal in E2. apply (settle_accounted z c _ (sg_id s) g g'); rewrite ?E1; try done.
  - intros; by apply expire_group_other.
  - unfold is_active. by rewrite Hst.
Qed.

(** A snapshot entry that still describes an active group. *)
Definition snapshot_of (r : JobGroupRegistry) (s : stale_group) : Prop :=
  exists g, groups r !! sg_id s = Some g /\ is_active g = true /\
    sg_worker s = g_reserved_worker_id g /\ sg_alloc s = g_allocated_resources g.

Lemma reap_all_accounted clk idle stall l z c :
  nonneg z -> accounted z c -> allocs_ok (jgroups c) -> NoDup (sg_id <$> l) -> Forall (snapshot_of (jgroups c)) l ->
  accounted z (foldl (fun c' s => reap_one (clk (sg_id s)) idle stall s c') c l).
Proof.
  intros Hz. revert c. induction l as [|s l IH]; intros c Hb Hok Hnd Hl; [done|]. simpl.
  apply Forall_cons in Hl as [(g & Hg & Ha & Hw & Hal) Hl]. apply NoDup_cons in Hnd as [Hs Hnd].
  destruct (reap_one_books (clk (sg_id s)) idle stall s c) as [E1 _].
  destruct (expire_group_one (clk (sg_id s)) (sg_id s) (reap_reason idle stall s) (jgroups c) g Hg)
    as (g' & Hg' & _ & _ & Hal').
  apply IH; [by apply (reap_one_accounted _ _ _ _ _ _ g)| |done|]; rewrite E1.
  - apply (allocs_ok_step (jgroups c) _ (sg_id s) g g'); [done..|]. intros; by apply expire_group_other.
  - apply Forall_forall. intros s' Hs'. rewrite Forall_forall in Hl.
    destruct (Hl s' Hs') as (g1 & Hg1 & Hrest). exists g1. rewrite expire_group_other; [done|].
    intros Heq. apply Hs. rewrite <- Heq. by apply list_elem_of_fmap_2.
Qed.

Lemma active_groups_ids `{HI : HashIter} (P : JobGroup -> Prop) `{!forall g, Decision (P g)} r :
  groups_wf r -> NoDup (g_id <$> filter P (active_groups r)).
Proof.
  intros Hw. apply (sublist_NoDup _ (g_id <$> hvalues (groups r))).
  - replace (g_id <$> hvalues (groups r)) with (hkeys (groups r)); [apply NoDup_hkeys|].
    unfold hkeys, hvalues. rewrite <- list_fmap_compose. apply list_fmap_ext.
    intros i [k g] Hi. simpl. apply list_elem_of_lookup_2, elem_of_hiter in Hi. symmetry. by apply Hw.
  - apply fmap_sublist. etrans; apply sublist_filter.
Qed.

Lemma collect_stale_snapshot `{HI : HashIter} now idle stall r :
  groups_wf r -> NoDup (sg_id <$> collect_stale now idle stall r) /\ Forall (snapshot_of r) (collect_stale now idle stall r).
Proof.
  intros Hw. split.
  - unfold collect_stale. rewrite <- list_fmap_compose. by apply active_groups_ids.
  - apply Forall_forall. intros s Hs. unfold collect_stale in Hs. apply list_elem_of_fmap in Hs as (g & -> & Hg).
    unfold active_groups in Hg. rewrite !list_elem_of_filter, elem_of_hvalues in Hg.
    destruct Hg as (_ & Ha & gid & Hgid). destruct (Hw _ _ Hgid) as [Hid _]. exists g. simpl. by rewrite Hid.
Qed.

Lemma reap_stale_accounted `{HI : HashIter} clk now idle stall z c :
  nonneg z -> accounted z c -> allocs_ok (jgroups c) -> groups_wf (jgroups c) ->
  accounted z (reap_stale_reservations clk now idle stall c).
Proof.
  intros Hz Hb Hok Hw. destruct (collect_stale_snapshot now idle stall _ Hw) as [Hnd Hall]. by apply reap_all_accounted.
Qed.

(** What a run over a snapshot does to the groups. *)
Lemma reap_all_groups clk idle stall l c gid :
  let c' := foldl (fun c' s => reap_one (clk (sg_id s)) idle stall s c') c l in
  (gid ∉ sg_id <$> l -> groups (jgroups c') !! gid = groups (jgroups c) !! gid) /\
  (forall g, gid ∈ sg_id <$> l -> groups (jgroups c) !! gid = Some g ->
     exists g', groups (jgroups c') !! gid = Some g' /\ g_state g' = GFailed).
Proof.
  revert c. induction l as [|s l IH]; intros c; [split; [done|by intros g ?%not_elem_of_nil]|]. simpl.
  destruct (reap_one_books (clk (sg_id s)) idle stall s c) as [E1 _].
  destruct (IH (reap_one (clk (sg_id s)) idle stall s c)) as [IH1 IH2]. rewrite E1 in IH1, IH2. split.
  - intros [Hne Hni]%not_elem_of_cons. rewrite IH1 by done. by apply expire_group_other.
  - intros g Hin Hg. assert (Hg1 : exists g1, groups (expire_group (clk (sg_id s)) (sg_id s) (reap_reason idle stall s)
      (jgroups c)) !! gid = Some g1 /\ (gid = sg_id s -> g_state g1 = GFailed)).
    { destruct (decide (gid = sg_id s)) as [->|Hne].
      - edestruct expire_group_one as (g' & Hg' & Hst & _); [exact Hg|]. by exists g'.
      - exists g. by rewrite expire_group_other. }
    destruct Hg1 as (g1 & Hg1 & Hst). destruct (decide (gid ∈ sg_id <$> l)) as [Hl|Hl]; [by apply (IH2 g1)|].
    exists g1. rewrite IH1 by done. split; [done|]. apply Hst. by apply elem_of_cons in Hin as [|].
Qed.

(** Exactly the stale groups fail. *)
Lemma reap_stale_groups `{HI : HashIter} clk now idle stall c gid g :
  groups_wf (jgroups c) -> groups (jgroups c) !! gid = Some g ->
  let c' := reap_stale_reservations clk now idle stall c in
  if is_active g && is_stale_group now idle stall (jgroups c) g
  then exists g', groups (jgroups c') !! gid = Some g' /\ g_state g' = GFailed
  else groups (jgroups c') !! gid = Some g.
Proof.
  intros Hw Hg c'. unfold c', reap_stale_reservations.
  assert (Hin : gid ∈ sg_id <$> collect_stale now idle stall (jgroups c) <->
    is_active g && is_stale_group now idle stall (jgroups c) g = true).
  { unfold collect_stale. rewrite <- list_fmap_compose, list_elem_of_fmap, andb_true_iff. split.
    - intros (g1 & -> & H1). simpl in Hg. unfold active_groups in H1. rewrite !list_elem_of_filter, elem_of_hvalues in H1.
      destruct H1 as (H1 & H2 & gid1 & Hg1). destruct (Hw _ _ Hg1) as [Hid _]. rewrite Hid in Hg. by simplify_eq.
    - intros [Ha Hs]. exists g. destruct (Hw _ _ Hg) as [Hid _]. split; [done|].
      unfold active_groups. rewrite !list_elem_of_filter, elem_of_hvalues. eauto. }
  destruct (reap_all_groups clk idle stall (collect_stale now idle stall (jgroups c)) c gid) as [H1 H2].
  destruct (is_active g && _); [apply (H2 g); [by apply Hin|done]|]. rewrite H1; [done|]. by intros ?%Hin.
Qed.

(** Reaping keeps the books: a sweep of the reservation reaper over a quiet
    controller, for any clock and timeouts, fails every stale group (reserved
    and idle, or running with no running job and stalled), leaves every other
    group as it is, and leaves every worker's counters equal to the sum over its
    remaining active groups. *)
Theorem stale_reaper_keeps_ledger `{HI : HashIter} (clk : Uuid -> clock) (now idle stall : Z) (c : Controller) :
  balanced c -> allocs_ok (jgroups c) -> groups_wf (jgroups c) ->
  let c' := reap_stale_reservations clk now idle stall c in
  balanced c' /\
  forall gid g, groups (jgroups c) !! gid = Some g ->
    if is_active g && is_stale_group now idle stall (jgroups c) g
    then exists g', groups (jgroups c') !! gid = Some g' /\ g_state g' = GFailed
    else groups (jgroups c') !! gid = Some g.
Proof.
  intros Hb Hok Hw c'. split.
  - apply balanced_accounted, (reap_stale_accounted clk now idle stall no_surplus c no_surplus_nonneg); [|done..].
    by apply balanced_accounted.
  - intros gid g Hg. by apply reap_stale_groups.
Qed.

Lemma busy_wf st : groups_wf (jgroups (busy_controller st)).
Proof. apply ok_add_job, ok_add_group; [by intros Ht|]. split; apply map_Forall_empty. Qed.

Lemma stale_reaper_keeps_ledger_witness :
  let c := reap_stale_reservations (HI := map_iter) (fun _ _ => secs 100) (secs 100) 10 10 (busy_controller JSuccess) in
  balanced c /\ (counter CPU <$> workers c !! "w") = Some 0.
Proof.
  split; [|vm_compute; reflexivity].
  apply (stale_reaper_keeps_ledger (HI := map_iter) _ _ _ _ _ (busy_balanced _) (busy_allocs _) (busy_wf _)).
Defined.

(** The reaper does not look again: for a snapshot entry whose group was
    completed and released in the meantime, it turns the stored [Success] into
    [Failed], reports [Expired] to the database and releases the allocation a
    second time, so that the worker's counters fall below the ledger by up to
    that amount. *)
Theorem stale_snapshot_releases_twice (clk : clock) (idle stall : Z) (s : stale_group) (c : Controller)
    (g : JobGroup) (wid : string) (w : WorkerState) :
  balanced c -> groups (jgroups c) !! sg_id s = Some g -> g_state g = GSuccess ->
  sg_worker s = Some wid -> has_alloc (sg_alloc s) = true -> workers c !! wid = Some w ->
  let c' := reap_one clk idle stall s c in
  (exists g', groups (jgroups c') !! sg_id s = Some g' /\ g_state g' = GFailed) /\
  (has_storage c = true ->
     DbGroupState (sg_id s) GExpired (Some (reap_reason idle stall s)) ∈ effects c') /\
  (forall k, ledger k wid (jgroups c') = ledger k wid (jgroups c)) /\
  exists w', workers c' !! wid = Some w' /\
    forall k, counter k w' = saturating_sub (ledger k wid (jgroups c')) (amount k (sg_alloc s)).
Proof.
  intros Hb Hg Hst Hw Hal Hwk c'. destruct (reap_one_books clk idle stall s c) as [E1 E2]. rewrite Hw in E2.
  destruct (expire_group_one clk (sg_id s) (reap_reason idle stall s) (jgroups c) g Hg) as (g' & Hg' & Hst' & _).
  assert (Hl : forall k, ledger k wid (jgroups c') = ledger k wid (jgroups c)).
  { intros k. unfold c'. rewrite E1, (ledger_change k wid (sg_id s) (jgroups c) _ g g' Hg Hg')
      by (intros; by apply expire_group_other).
    unfold charge, is_active. rewrite Hst, Hst'. simpl. lia. }
  split; [unfold c'; rewrite E1; eauto|]. split; [|split; [done|]].
  { intros Hsto. unfold c', reap_one, db. rewrite Hw. simpl. rewrite Hsto. set_solver. }
  exists (release_alloc (sg_alloc s) w). split.
  - unfold c'. rewrite E2. unfold release_on. by rewrite Hal, lookup_alter_eq, Hwk.
  - intros k. rewrite counter_release, Hl. by destruct (Hb wid w k Hwk) as [-> _].
Qed.

(** Two groups on one worker; the first has just completed. *)
Definition half_done : Controller :=
  let c := busy_controller JRunning in
  with_groups (fun r => add_group {| (busy_group 8%N "w" 3 100) with g_state := GSuccess |} r) c.

Lemma stale_snapshot_releases_twice_witness :
  let s := {| sg_id := 8%N; sg_worker := Some "w"; sg_alloc := {| ar_cpu := 3; ar_memory_mb := 100; ar_disk_mb := 0 |};
              sg_repo := None; sg_branch := None; sg_commit_sha := None;
              sg_was_reserved := false |} in
  let c' := reap_one (fun _ => 9) 10 10 s half_done in
  ledger CPU "w" (jgroups c') = 2 /\ exists w', workers c' !! "w" = Some w' /\ counter CPU w' = 0.
Proof.
  intros s c'. assert (Hb : balanced half_done).
  { intros wid w k Hw. unfold half_done, with_groups, busy_controller in Hw. cbn [workers] in Hw.
    apply lookup_singleton_Some in Hw as [<- <-]. destruct k; split; vm_compute; reflexivity. }
  destruct (stale_snapshot_releases_twice (fun _ => 9) 10 10 s half_done
    {| (busy_group 8%N "w" 3 100) with g_state := GSuccess |} "w"
    {| (sample_worker "w") with ws_allocated_cpu := 2; ws_allocated_memory_mb := 100 |}
    Hb ltac:(reflexivity) ltac:(reflexivity) ltac:(reflexivity) ltac:(reflexivity) ltac:(reflexivity))
    as (_ & _ & Hl & w' & Hw' & Hk).
  assert (E : ledger CPU "w" (jgroups c') = 2) by (vm_compute; reflexivity).
  split; [exact E|]. exists w'. split; [exact Hw'|]. rewrite (Hk CPU). vm_compute. reflexivity.
Defined.

(** ** Worker death *)

Definition acc3 (k : resource) (t : Z * Z * Z) : Z :=
  let '(cpu, mem, disk) := t in match k with CPU => cpu | MEM => mem | DISK => disk end.

Lemma fail_group_one clk gid reason r g :
  groups r !! gid = Some g ->
  exists g', groups (fail_group_jobs clk gid reason r) !! gid = Some g' /\ g_state g' = GFailed /\
    g_reserved_worker_id g' = g_reserved_worker_id g /\ g_allocated_resources g' = g_allocated_resources g.
Proof.
  intros Hg. unfold fail_group_jobs. set (r2 := alter_jobs _ gid r).
  assert (H2 : groups r2 !! gid = Some g) by done.
  rewrite (update_state_eq _ _ _ r2 g H2), valid_to_failure by auto. simpl. rewrite lookup_insert_eq. by eexists.
Qed.

Lemma fail_group_other clk gid reason r gid' :
  gid' <> gid -> groups (fail_group_jobs clk gid reason r) !! gid' = groups r !! gid'.
Proof. intros Hne. unfold fail_group_jobs. by rewrite update_state_other. Qed.

(** One failed group: its charge moves from the ledger to the totals. *)
Lemma fail_on_death_one clk reason r t gid g wid :
  groups r !! gid = Some g -> is_active g = true -> g_reserved_worker_id g = Some wid ->
  (forall k, 0 <= amount k (g_allocated_resources g)) ->
  (forall k, 0 <= acc3 k t /\ acc3 k t + amount k (g_allocated_resources g) < 2 ^ width k) ->
  let '(r', t') := fail_on_death clk reason (r, t) gid in
  (exists g', groups r' !! gid = Some g' /\ g_allocated_resources g' = g_allocated_resources g) /\
  (forall gid', gid' <> gid -> groups r' !! gid' = groups r !! gid') /\
  (forall k, acc3 k t' = acc3 k t + amount k (g_allocated_resources g)) /\
  (forall k w, ledger k w r' = ledger k w r - if decide (w = wid) then amount k (g_allocated_resources g) else 0).
Proof.
  intros Hg Ha Hw Hpos Hacc. destruct t as [[cpu mem] disk]. unfold fail_on_death, get_group.
  destruct (fail_group_one (clk gid) gid reason r g Hg) as (g1 & Hg1 & Hst1 & Hw1 & Hal1). rewrite Hg1.
  set (r' := alter_group _ gid _).
  assert (Hg' : groups r' !! gid = Some (set_reason reason g1)) by (simpl; by rewrite lookup_alter_eq, Hg1).
  assert (Ho : forall gid', gid' <> gid -> groups r' !! gid' = groups r !! gid').
  { intros gid' Hne. simpl. rewrite lookup_alter_ne by done. by apply fail_group_other. }
  split_and!; [by exists (set_reason reason g1)|done| |].
  - intros k. rewrite Hal1. destruct (Hacc k) as [H1 H2], k; simpl in *; unfold u32_add, u64_add;
      (rewrite wrap_small; [done|]); (match goal with |- context [ar_cpu ?a] => pose proof (Hpos CPU)
      | |- context [ar_memory_mb ?a] => pose proof (Hpos MEM) | |- _ => pose proof (Hpos DISK) end); simpl in *; lia.
  - intros k w. rewrite (ledger_change k w gid r r' g _ Hg Hg' Ho).
    replace (charge k w (set_reason reason g1)) with 0 by (unfold charge, is_active; simpl; by rewrite Hst1).
    unfold charge. rewrite Ha, Hw. simpl. destruct (decide (w = wid)) as [->|Hne].
    + rewrite bool_decide_eq_true_2 by done. lia.
    + rewrite bool_decide_eq_false_2 by congruence. lia.
Qed.

Lemma fail_all_on_death clk reason wid gids r t (L : resource -> Z) :
  NoDup gids -> Forall (active_on wid r) gids -> allocs_ok r ->
  (forall k, 0 <= acc3 k t /\ acc3 k t + ledger k wid r = L k) -> (forall k, L k < 2 ^ width k) ->
  let '(r', t') := foldl (fail_on_death clk reason) (r, t) gids in
  allocs_ok r' /\ (forall k, 0 <= acc3 k t' /\ acc3 k t' + ledger k wid r' = L k) /\
  (forall k w, w <> wid -> ledger k w r' = ledger k w r).
Proof.
  revert r t. induction gids as [|gid gids IH]; intros r t Hnd Hact Hok Hacc HL; [done|].
  apply NoDup_cons in Hnd as [Hni Hnd]. apply Forall_cons in Hact as [(g & Hg & Hw & Ha) Hact].
  assert (Hge : forall k, amount k (g_allocated_resources g) <= ledger k wid r).
  { intros k. rewrite <- (charge_active k wid g Ha Hw). unfold ledger.
    apply (total_ge _ _ gid); [by apply charge_nonneg|done]. }
  assert (Hb : forall k, 0 <= acc3 k t /\ acc3 k t + amount k (g_allocated_resources g) < 2 ^ width k).
  { intros k. destruct (Hacc k). specialize (HL k). specialize (Hge k). lia. }
  pose proof (fail_on_death_one clk reason r t gid g wid Hg Ha Hw (Hok _ _ Hg) Hb) as H1.
  cbn [foldl]. destruct (fail_on_death clk reason (r, t) gid) as [r1 t1].
  destruct H1 as ((g' & Hg' & Hal) & Ho & Ht & Hl).
  assert (Hok1 : allocs_ok r1) by (by apply (allocs_ok_step r r1 gid g g')).
  assert (Hact1 : Forall (active_on wid r1) gids).
  { apply Forall_forall. intros x Hx. rewrite Forall_forall in Hact. destruct (Hact x Hx) as (gx & Hgx & Hrest).
    exists gx. rewrite Ho; [done|]. by intros ->. }
  assert (Hacc1 : forall k, 0 <= acc3 k t1 /\ acc3 k t1 + ledger k wid r1 = L k).
  { intros k. rewrite Ht, Hl, decide_True by done. destruct (Hacc k). pose proof (Hok _ _ Hg k). lia. }
  specialize (IH r1 t1 Hnd Hact1 Hok1 Hacc1 HL).
  destruct (foldl _ (r1, t1) gids) as [r' t']. destruct IH as (I1 & I2 & I3). split_and!; [done|done|].
  intros k w Hne. rewrite I3, Hl, decide_False by done. lia.
Qed.

(** The failed groups' charges become surplus, and their release pays it back. *)
Lemma bury_accounted `{HI : HashIter} clk wid z c :
  nonneg z -> accounted z c -> (forall k, ledger k wid (jgroups c) < 2 ^ width k) -> allocs_ok (jgroups c) ->
  groups_wf (jgroups c) -> accounted z (bury_worker clk wid c).
Proof.
  intros Hz Hb Hfit Hok Hwf. unfold bury_worker.
  set (to_fail := (handle_worker_death wid (jgroups c)).2).
  assert (Hnd : NoDup to_fail).
  { apply NoDup_ListNoDup, List.NoDup_filter, NoDup_ListNoDup. by apply NoDup_group_ids. }
  assert (Hact : Forall (active_on wid (jgroups c)) to_fail).
  { apply Forall_forall. intros gid Hgid. apply list_elem_of_In, filter_In in Hgid as [Hgid _].
    rewrite <- list_elem_of_In in Hgid. by apply groups_for_worker_iff. }
  pose proof (fail_all_on_death clk (death_reason wid) wid to_fail (jgroups c) (0, 0, 0)
    (fun k => ledger k wid (jgroups c)) Hnd Hact Hok) as H.
  destruct (foldl _ _ to_fail) as [r [[cpu mem] disk]].
  destruct H as (Hok' & Hacc & Hother); [intros []; simpl; lia|done|].
  set (a := {| ar_cpu := cpu; ar_memory_mb := mem; ar_disk_mb := disk |}).
  assert (Hamt : forall k, amount k a = acc3 k (cpu, mem, disk)) by (by intros []).
  apply (accounted_books z {| c with jgroups := r; workers := release_on wid a (workers c) |}); [done|done|].
  apply (release_accounted z {| c with jgroups := r |} a wid Hz); [|done|intros k; rewrite Hamt; apply Hacc].
  intros w x k Hx. cbn [workers jgroups] in *. destruct (Hb w x k Hx) as [Hbal Hlt]. split; [|done].
  unfold bump. destruct (decide (w = wid)) as [->|Hne].
  - destruct (Hacc k) as [_ H2]. cbv beta in H2. rewrite Hamt. lia.
  - rewrite Hother by done. lia.
Qed.

(** The death of a worker keeps the books: of its active groups, those with
    nothing left to hand over are failed and their allocations, summed over all
    of them, are released once on the dead worker; the groups that wait for a
    migration stay charged to it, and no other worker's account moves. *)
Theorem worker_death_keeps_ledger `{HI : HashIter} (clk : Uuid -> clock) (wid : string) (c : Controller) :
  balanced c -> ledger_fits (jgroups c) -> allocs_ok (jgroups c) -> groups_wf (jgroups c) ->
  balanced (bury_worker clk wid c).
Proof.
  rewrite !balanced_accounted. intros Hb Hfit Hok Hwf. apply (bury_accounted clk wid no_surplus c no_surplus_nonneg Hb); [intros k; apply Hfit|done|done].
Qed.

Lemma worker_death_keeps_ledger_witness :
  let c := bury_worker (HI := map_iter) (fun _ _ => 9) "w" (busy_controller JRunning) in
  balanced c /\ (counter CPU <$> workers c !! "w") = Some 0.
Proof.
  split; [|vm_compute; reflexivity].
  apply (worker_death_keeps_ledger (HI := map_iter) (fun _ _ => 9) "w" (busy_controller JRunning)
    (busy_balanced _)); [|apply busy_allocs|apply busy_wf].
  intros k wid. unfold ledger.
  change (groups (jgroups (busy_controller JRunning))) with (<[7%N := busy_group 7%N "w" 2 100]> (∅ : gmap Uuid JobGroup)).
  rewrite total_insert_new by done. unfold charge. destruct k; simpl; case_bool_decide; reflexivity.
Defined.
