(* ===== verification/Dispatch.v ===== *)
(** * Submitting and dispatching stages
    ([prepend_global_pre_script], [build_job_assignment],
    [dispatch_job_for_worker] and [do_submit_stage] of
    crates/ci-controller/src/grpc_server.rs)

    [do_submit_stage] reads the group registry several times, each under a read
    lock of its own: [seen k] is what its k-th reading finds. It then adds the
    job to both registries, wakes the job streams and sends the assignment.
    [SubmitAnswers] holds the answers of the database. The uuid, regex and chrono
    crates, and the [Debug] form of a list of strings, are parameters. *)

From Stdlib Require Import ZArith Lia Ascii.
From stdpp Require Import gmap strings list fin_maps pretty sets.
From S2P Require Import Prelude Text WorkerModel JobModel StageModel Dag Scheduler WorkerRegistry JobRegistry JobGroupRegistry.
From S2P Require Import LogStreamer LogAggregator Controller.

(** ** prepend_global_pre_script *)

Definition quote (s : string) : string := (String "034" s +:+ String "034" EmptyString)%string.

Definition newline : string := String "010" EmptyString.

Definition unlines (l : list string) : string := foldr (fun s acc => (s +:+ newline +:+ acc)%string) EmptyString l.

(** Save and unset a variable, then restore it. *)
Definition save_var (v : string) : string := unlines [
  ("if [ " +:+ quote ("${" +:+ v +:+ "+x}") +:+ " = x ]; then")%string;
  ("__" +:+ v +:+ "_SAVED=" +:+ quote ("$" +:+ v))%string;
  ("unset " +:+ v)%string;
  "else";
  ("__" +:+ v +:+ "_SAVED=" +:+ quote EmptyString)%string;
  "fi"].

Definition restore_var (v : string) : string := unlines [
  ("if [ -n " +:+ quote ("$__" +:+ v +:+ "_SAVED") +:+ " ]; then")%string;
  ("export " +:+ v +:+ "=" +:+ quote ("$__" +:+ v +:+ "_SAVED"))%string;
  "else";
  ("unset " +:+ v)%string;
  "fi";
  ("unset __" +:+ v +:+ "_SAVED")%string].

Definition ends_with_newline (s : string) : bool :=
  bool_decide (String.get (pred (String.length s)) s = Some "010"%char).

Definition prepend_global_pre_script (global_pre stage_pre : string) : string :=
  (save_var "CHOLA_STAGE_DIR" +:+ save_var "CHOLA_STAGE_NAME" +:+ global_pre
   +:+ (if ends_with_newline global_pre then EmptyString else newline)
   +:+ restore_var "CHOLA_STAGE_DIR" +:+ restore_var "CHOLA_STAGE_NAME" +:+ stage_pre)%string.

(** ** build_job_assignment *)

Definition build_job_assignment (uuid_to_string : Uuid -> string) (job : Job) (group_created_at : string)
    : JobAssignment := {|
  ja_job_id := j_job_id job;
  ja_command := j_command job;
  ja_job_type := JobType_to_string (j_job_type job);
  ja_required_cpu := j_required_cpu job;
  ja_required_memory_mb := j_required_memory_mb job;
  ja_required_disk_mb := j_required_disk_mb job;
  ja_isolation_required := j_isolation_required job;
  ja_branch_id := default EmptyString (j_branch_id job);
  ja_environment := j_environment job;
  ja_cancel := None;
  ja_job_group_id := default EmptyString (uuid_to_string <$> j_job_group_id job);
  ja_stage_name := default EmptyString (j_stage_name job);
  ja_pre_script := default EmptyString (j_pre_script job);
  ja_post_script := default EmptyString (j_post_script job);
  ja_max_duration_secs := default 0 (j_max_duration_secs job);
  ja_secret_env_keys := [];
  ja_pre_script_lock := None;
  ja_post_script_lock := None;
  ja_purge_group_files := None;
  ja_group_created_at := group_created_at
|}.

(** ** dispatch_job_for_worker *)

(** Highest priority first, then oldest. *)
Definition queue_cmp (a b : Job) : comparison :=
  then_with (j_priority b ?= j_priority a) (j_created_at a ?= j_created_at b).

Definition targeted_elsewhere (worker_id : string) (j : Job) : bool :=
  match j_assigned_worker j with Some w => negb (bool_decide (w = worker_id)) | None => false end.

Definition explicitly_targeted (worker_id : string) (j : Job) : bool :=
  match j_assigned_worker j with Some w => bool_decide (w = worker_id) | None => false end.

(** The predicate of [find_map]. *)
Definition suits (scheduler : BestFitScheduler) (worker_id : string) (w : WorkerState) (j : Job) : bool :=
  negb (targeted_elsewhere worker_id j) &&
  (explicitly_targeted worker_id j || bool_decide (is_Some (select_worker scheduler j [w]))).

Section Dispatching.
Context `{HI : HashIter} (uuid_to_string : Uuid -> string) (to_rfc3339 : timestamp -> string).

Definition created_at_of (gid : Uuid) (r : JobGroupRegistry) : string :=
  default EmptyString ((fun g => to_rfc3339 (g_created_at g)) <$> get_group gid r).

(** [open] says whether the stream's receiver is still there; the result is
    [false] when the loop must stop. *)
Definition dispatch_job_for_worker (now : timestamp) (nvme : bool) (worker_id : string) (open : bool) (c : Controller)
    : bool * Controller :=
  let scheduler := {| nvme_preference := nvme; branch_affinity := true |} in
  match workers c !! worker_id with
  | None => (true, c)
  | Some w =>
      match list_find (fun j => suits scheduler worker_id w j = true) (sort_by queue_cmp (queued_jobs (jobs c))) with
      | None => (true, c)
      | Some (_, j) =>
          match assign_job now (j_job_id j) worker_id (jobs c) with
          | (Some job, js) =>
              let created := default EmptyString ((fun gid => created_at_of gid (jgroups c)) <$> j_job_group_id job) in
              let c1 := {| c with jobs := js |} in
              if open then (true, emit [Dispatch worker_id (build_job_assignment uuid_to_string job created)] c1)
              else (false, c1)
          | (None, js) => (true, {| c with jobs := js |})
          end
      end
  end.
End Dispatching.

(** ** do_submit_stage *)

Record SubmitStageRequest := {
  sq_job_group_id : string;
  sq_job_id : string;
  sq_stage_name : string;
  sq_command_override : string;
  sq_environment : gmap string string
}.

Record SubmitStageResponse := {
  sp_job_id : string;
  sp_stage_name : string;
  sp_accepted : bool;
  sp_message : string
}.

Record SubmitAnswers := {
  sa_dependencies : result (gmap string (list string)) string;
  sa_stage_config : result (option StageConfig) string;
  sa_command_blacklist : result (list string) string;
  sa_variables : result (list PipelineVariable) string;
  sa_scripts : result (list StageScript) string;
  sa_repo : result (option Repo) string;
  sa_repo_again : result (option Repo) string
}.

(** The command, by the stage's command mode. *)
Definition resolve_command (sc : option StageConfig) (req : SubmitStageRequest) : result string Status :=
  let user := sq_command_override req in
  match sc with
  | Some sc =>
      if bool_decide (sc_command_mode sc = "fixed") then
        match sc_command sc with
        | Some cmd => Ok cmd
        | None => Err (invalid_argument "Stage has no configured command")
        end
      else if bool_decide (sc_command_mode sc = "optional") then
        if negb (bool_decide (user = EmptyString)) then Ok user
        else
          match sc_command sc with
          | Some cmd => Ok cmd
          | None => Err (invalid_argument "Stage has no configured command and none provided")
          end
      else if bool_decide (sc_command_mode sc = "required") then
        if bool_decide (user = EmptyString) then Err (invalid_argument "This stage requires a command from the user")
        else Ok user
      else Ok (default EmptyString (sc_command sc))
  | None =>
      if negb (bool_decide (user = EmptyString)) then Ok user
      else Ok ("echo 'Running stage: " +:+ replace "'" "'\''" (sq_stage_name req) +:+ "'")%string
  end.

(** The pipeline variables: a variable of the request wins; the secret names in
    order. *)
Definition add_variables (vars : list PipelineVariable) (env : gmap string string) : gmap string string :=
  foldl (fun env v => or_insert (pv_name v) (pv_value v) env) env vars.

Definition secret_names (vars : list PipelineVariable) : list string :=
  pv_name <$> filter (fun v => pv_is_secret v = true) vars.

Definition script_lock (s : StageScript) : option ScriptLockConfig :=
  if ss_lock_enabled s then
    Some {| sl_enabled := true; sl_lock_key := default EmptyString (ss_lock_key s);
            sl_timeout_secs := ss_lock_timeout_secs s; sl_scope := ss_script_scope s |}
  else None.

Definition worker_script (kind : string) (scripts : list StageScript) : option StageScript :=
  snd <$> list_find (fun s => ss_script_type s = kind /\ ss_script_scope s = "worker") scripts.

Definition script_of (s : option StageScript) : string := default EmptyString (ss_script <$> s).

(** The repo's global script, put in front of the first stage's. *)
Definition with_global_pre (repo : option Repo) (is_first : bool) (pre : string) (lock : option ScriptLockConfig)
    : string * option ScriptLockConfig :=
  match repo with
  | Some repo =>
      match global_pre_script repo with
      | Some body =>
          if bool_decide (global_pre_script_scope repo ∈ ["worker"; "both"]) && is_first then
            (prepend_global_pre_script body pre,
             match lock with
             | None =>
                 if global_pre_script_lock_enabled repo then
                   Some {| sl_enabled := true; sl_lock_key := default EmptyString (global_pre_script_lock_key repo);
                           sl_timeout_secs := global_pre_script_lock_timeout_secs repo;
                           sl_scope := global_pre_script_scope repo |}
                 else None
             | Some l => Some l
             end)
          else (pre, lock)
      | None => (pre, lock)
      end
  | None => (pre, lock)
  end.

(** [environment.insert] of an optional value. *)
Definition insert_opt (k : string) (v : option string) (env : gmap string string) : gmap string string :=
  match v with Some v => <[k := v]> env | None => env end.

(** What the read-only first part decides. *)
Record stage_plan := {
  st_group : Uuid;
  st_worker : string;
  st_priority : Z;
  st_job_id : string;
  st_config : option StageConfig;
  st_command : string;
  st_env : gmap string string;
  st_secrets : list string;
  st_pre : string;
  st_post : string;
  st_pre_lock : option ScriptLockConfig;
  st_post_lock : option ScriptLockConfig
}.

Section Submit.
Context (regex_match : string -> string -> option bool) (uuid_to_string : Uuid -> string)
  (parse_str : string -> result Uuid string) (uuid_v5 : string -> string) (to_rfc3339 : timestamp -> string)
  (debug_list : list string -> string).

(** The database, when there is one and the group has a repo. *)
Definition repo_storage (st : option SubmitAnswers) (repo : option Uuid) : option SubmitAnswers :=
  match repo with Some _ => st | None => None end.

(** The group and its worker. *)
Definition find_group (req : SubmitStageRequest) (r : JobGroupRegistry) (gid : Uuid)
    : result (string * option Uuid * Z) Status :=
  match get_group gid r with
  | None => Err (not_found ("Job group " +:+ sq_job_group_id req +:+ " not found")%string)
  | Some g =>
      match g_reserved_worker_id g with
      | None => Err (failed_precondition ("Job group " +:+ sq_job_group_id req +:+ " has no reserved worker")%string)
      | Some wid => Ok (wid, g_repo_id g, g_priority g)
      end
  end.

(** The stages it depends on have succeeded. *)
Definition check_dependencies (db : option SubmitAnswers) (req : SubmitStageRequest) (r : JobGroupRegistry) (gid : Uuid)
    : result unit Status :=
  let depends_on :=
    match db with
    | Some a => default [] (unwrap_or ∅ (sa_dependencies a) !! sq_stage_name req)
    | None => []
    end in
  if negb (bool_decide (depends_on = [])) && negb (can_submit_stage gid depends_on r) then
    Err (failed_precondition ("Stage '" +:+ sq_stage_name req +:+ "' dependencies not yet satisfied: "
                              +:+ debug_list depends_on)%string)
  else Ok tt.

(** It was not submitted before. *)
Definition check_not_submitted (req : SubmitStageRequest) (r : JobGroupRegistry) (gid : Uuid) : result unit Status :=
  match list_find (fun j => j_stage_name j = Some (sq_stage_name req)) (get_jobs_for_group gid r) with
  | Some (_, existing) =>
      Err (already_exists ("Stage '" +:+ sq_stage_name req +:+ "' is already " +:+ JobState_to_string (j_state existing)
             +:+ " in group " +:+ uuid_to_string gid +:+ " (retry requires a new reservation)")%string)
  | None => Ok tt
  end.

Definition check_command (db : option SubmitAnswers) (command : string) : result unit Status :=
  let patterns := match db with Some a => unwrap_or [] (sa_command_blacklist a) | None => [] end in
  match list_find (fun pat => regex_match pat command = Some true) patterns with
  | Some (_, pat) => Err (permission_denied ("Command blocked by blacklist rule: " +:+ pat)%string)
  | None => Ok tt
  end.

(** The build context added to the environment. *)
Definition add_context (db : option SubmitAnswers) (req : SubmitStageRequest) (r : JobGroupRegistry) (gid : Uuid)
    (env : gmap string string) : gmap string string :=
  let env1 := <["STAGE_NAME" := sq_stage_name req]> (<["JOB_GROUP_ID" := uuid_to_string gid]> env) in
  let env2 :=
    match get_group gid r with
    | Some g => insert_opt "BRANCH" (g_branch g) (insert_opt "COMMIT_SHA" (g_commit_sha g) env1)
    | None => env1
    end in
  match db with
  | Some a =>
      match sa_repo_again a with
      | Ok (Some repo) => <["REPO_NAME" := repo_name repo]> (<["REPO_URL" := repo_url repo]> env2)
      | _ => env2
      end
  | None => env2
  end.

Definition prepare_stage (st : option SubmitAnswers) (req : SubmitStageRequest) (seen : nat -> JobGroupRegistry)
    : result stage_plan Status :=
  match parse_str (sq_job_group_id req) with
  | Err e => Err (invalid_argument ("Invalid job_group_id: " +:+ e)%string)
  | Ok gid =>
      let? (wid, repo_id, priority) := find_group req (seen 0%nat) gid in
      let db := repo_storage st repo_id in
      let? _ := check_dependencies db req (seen 1%nat) gid in
      let? _ := check_not_submitted req (seen 2%nat) gid in
      let job_id :=
        if bool_decide (sq_job_id req = EmptyString) then (uuid_to_string gid +:+ "-" +:+ sq_stage_name req)%string
        else sq_job_id req in
      let config := match db with Some a => unwrap_or None (sa_stage_config a) | None => None end in
      let? command := resolve_command config req in
      let? _ := check_command db command in
      let vars := match db with Some a => unwrap_or [] (sa_variables a) | None => [] end in
      let scripts :=
        match st, config with Some a, Some _ => unwrap_or [] (sa_scripts a) | _, _ => [] end in
      let pre := worker_script "pre" scripts in
      let post := worker_script "post" scripts in
      let is_first :=
        match get_group gid (seen 3%nat) with Some g => bool_decide (g_state g = GReserved) | None => false end in
      let repo := match db with Some a => unwrap_or None (sa_repo a) | None => None end in
      let '(pre_script, pre_lock) := with_global_pre repo is_first (script_of pre) (pre ≫= script_lock) in
      Ok {| st_group := gid; st_worker := wid; st_priority := priority; st_job_id := job_id; st_config := config;
            st_command := command; st_env := add_context db req (seen 4%nat) gid (add_variables vars (sq_environment req));
            st_secrets := secret_names vars; st_pre := pre_script; st_post := script_of post;
            st_pre_lock := pre_lock; st_post_lock := post ≫= script_lock |}
  end.

Definition max_duration_of (p : stage_plan) : Z := match st_config p with Some sc => sc_max_duration_secs sc | None => 0 end.

Definition stage_job (now : timestamp) (req : SubmitStageRequest) (p : stage_plan) : Job :=
  {| (Job_new now (st_job_id p) (st_command p) JTCommon 0 0 0) with
    j_job_group_id := Some (st_group p);
    j_stage_name := Some (sq_stage_name req);
    j_stage_config_id := sc_id <$> st_config p;
    j_assigned_worker := Some (st_worker p);
    j_environment := st_env p;
    j_state := JQueued;
    j_priority := st_priority p;
    j_required_labels := match st_config p with Some sc => sc_required_labels sc | None => [] end;
    j_pre_script := non_empty (st_pre p);
    j_post_script := non_empty (st_post p);
    j_max_duration_secs := if 0 <? max_duration_of p then Some (max_duration_of p) else None |}.

(** The section under the group registry's write lock. *)
Definition enter_group (clk : clock) (gid : Uuid) (job : Job) (r : JobGroupRegistry) : bool * JobGroupRegistry :=
  let was := match get_group gid r with Some g => bool_decide (g_state g = GReserved) | None => false end in
  let r1 := if was then (update_state clk gid GRunning r).2 else r in
  (was, touch_activity (clk 2%nat) gid (add_job_to_group gid job r1)).

Definition db_job (now : timestamp) (req : SubmitStageRequest) (p : stage_plan) : DbJob := {|
  dj_id := uuid_v5 (st_job_id p); dj_job_group_id := st_group p; dj_stage_config_id := sc_id <$> st_config p;
  dj_stage_name := sq_stage_name req; dj_command := st_command p; dj_pre_script := non_empty (st_pre p);
  dj_post_script := non_empty (st_post p); dj_worker_id := Some (st_worker p); dj_state := "queued";
  dj_exit_code := None; dj_pre_exit_code := None; dj_post_exit_code := None; dj_log_path := None;
  dj_started_at := None; dj_completed_at := None; dj_retry_count := 0; dj_status_reason := None;
  dj_created_at := now; dj_updated_at := now
|}.

Definition stage_assignment (req : SubmitStageRequest) (p : stage_plan) (created_at : string) : JobAssignment := {|
  ja_job_id := st_job_id p; ja_command := st_command p; ja_job_type := "common"; ja_required_cpu := 0;
  ja_required_memory_mb := 0; ja_required_disk_mb := 0; ja_isolation_required := false; ja_branch_id := EmptyString;
  ja_environment := st_env p; ja_cancel := None; ja_job_group_id := uuid_to_string (st_group p);
  ja_stage_name := sq_stage_name req; ja_pre_script := st_pre p; ja_post_script := st_post p;
  ja_max_duration_secs := max_duration_of p; ja_secret_env_keys := st_secrets p; ja_pre_script_lock := st_pre_lock p;
  ja_post_script_lock := st_post_lock p; ja_purge_group_files := None; ja_group_created_at := created_at
|}.

(** From the two registries to the reply. *)
Definition enter_stage (clk : clock) (st : option SubmitAnswers) (req : SubmitStageRequest) (p : stage_plan) (seen5 : JobGroupRegistry) (c : Controller)
    : Controller :=
  let gid := st_group p in
  let job := stage_job (clk O) req p in
  let '(was_reserved, r) := enter_group (from_reading 1 clk) gid job (jgroups c) in
  let c1 := {| c with jgroups := r |} in
  let stored es := match st with Some _ => es | None => [] end in
  let c2 := emit (if was_reserved then stored [DbGroupState gid GRunning None] else []) c1 in
  let c3 := {| c2 with jobs := add_job job (jobs c2) |} in
  let c4 := emit [Metric "inc_stages_submitted"; Metric "inc_active_stages"] c3 in
  let c5 := emit (stored [DbCreateJob (db_job (clk 4%nat) req p)]) c4 in
  let c6 := {| c5 with logs :=
    register_log_path (st_job_id p) (uuid_to_string gid) (sq_stage_name req)
      (register_alias (uuid_v5 (st_job_id p)) (st_job_id p) (logs c5)) |} in
  let c7 := emit [WakeScheduler] c6 in
  let created := default EmptyString ((fun g => to_rfc3339 (g_created_at g)) <$> get_group gid seen5) in
  let c8 := emit (match job_stream_senders c7 !! st_worker p with
                  | Some true => [Dispatch (st_worker p) (stage_assignment req p created)]
                  | _ => []
                  end) c7 in
  emit (redis [RedisRefreshTtl (st_worker p) gid] c8) c8.

Definition do_submit_stage (clk : clock) (st : option SubmitAnswers) (req : SubmitStageRequest)
    (seen : nat -> JobGroupRegistry) (c : Controller) : result SubmitStageResponse Status * Controller :=
  match prepare_stage st req seen with
  | Err e => (Err e, c)
  | Ok p =>
      (Ok {| sp_job_id := st_job_id p; sp_stage_name := sq_stage_name req; sp_accepted := true;
             sp_message := "Stage submitted successfully" |},
       enter_stage clk st req p (seen 5%nat) c)
  end.
End Submit.

(** ** Submission *)

Section SubmitFacts.
Context (regex_match : string -> string -> option bool) (uuid_to_string : Uuid -> string)
  (parse_str : string -> result Uuid string) (debug_list : list string -> string).

(** Every stage that [s] depends on has a successful job in the group. *)
Definition deps_done (db : option SubmitAnswers) (s : string) (jobs : list Job) : Prop :=
  forall a deps, db = Some a -> unwrap_or ∅ (sa_dependencies a) !! s = Some deps ->
    forall d, d ∈ deps -> exists j, j ∈ jobs /\ j_stage_name j = Some d /\ j_state j = JSuccess.

Lemma can_submit_done gid deps r :
  can_submit_stage gid deps r = true -> forall d, d ∈ deps ->
  exists j, j ∈ get_jobs_for_group gid r /\ j_stage_name j = Some d /\ j_state j = JSuccess.
Proof.
  unfold can_submit_stage, get_jobs_for_group. intros H d Hd. destruct deps as [|d0 deps]; [by apply not_elem_of_nil in Hd|].
  destruct (group_jobs r !! gid) as [jobs|]; [|done]. rewrite forallb_forall in H.
  specialize (H d (proj1 (list_elem_of_In _ _) Hd)). apply existsb_exists in H as (j & Hj & H).
  rewrite andb_true_iff, !bool_decide_eq_true in H. exists j. rewrite list_elem_of_In. simpl. tauto.
Qed.

Lemma check_dependencies_ok db req r gid :
  check_dependencies debug_list db req r gid = Ok tt -> deps_done db (sq_stage_name req) (get_jobs_for_group gid r).
Proof.
  unfold check_dependencies. intros H a deps -> Hdeps d Hd. rewrite Hdeps in H. simpl in H.
  destruct (can_submit_stage gid deps r) eqn:Hc; [by apply (can_submit_done gid deps)|].
  case_bool_decide as Hn; [subst; by apply not_elem_of_nil in Hd|done].
Qed.

Lemma check_not_submitted_ok req r gid :
  check_not_submitted uuid_to_string req r gid = Ok tt ->
  forall j, j ∈ get_jobs_for_group gid r -> j_stage_name j <> Some (sq_stage_name req).
Proof.
  unfold check_not_submitted. destruct (list_find _ _) as [[i j0]|] eqn:Hf; [done|]. intros _ j Hj.
  apply list_find_None in Hf. rewrite Forall_forall in Hf. by apply Hf.
Qed.

Lemma check_not_submitted_err req r gid j :
  j ∈ get_jobs_for_group gid r -> j_stage_name j = Some (sq_stage_name req) ->
  exists msg, check_not_submitted uuid_to_string req r gid = Err (already_exists msg).
Proof.
  intros Hj Hs. unfold check_not_submitted. destruct (list_find _ _) as [[i j0]|] eqn:Hf; [eauto|].
  apply list_find_None in Hf. rewrite Forall_forall in Hf. by destruct (Hf j Hj).
Qed.

(** What an accepted submission has checked. *)
Lemma prepare_stage_ok st req seen p :
  prepare_stage regex_match uuid_to_string parse_str debug_list st req seen = Ok p ->
  parse_str (sq_job_group_id req) = Ok (st_group p) /\
  (exists g, get_group (st_group p) (seen 0%nat) = Some g /\ g_reserved_worker_id g = Some (st_worker p) /\
     g_priority g = st_priority p /\
     deps_done (repo_storage st (g_repo_id g)) (sq_stage_name req) (get_jobs_for_group (st_group p) (seen 1%nat))) /\
  (forall j, j ∈ get_jobs_for_group (st_group p) (seen 2%nat) -> j_stage_name j <> Some (sq_stage_name req)) /\
  st_job_id p = (if bool_decide (sq_job_id req = EmptyString)
                 then (uuid_to_string (st_group p) +:+ "-" +:+ sq_stage_name req)%string else sq_job_id req) /\
  resolve_command (st_config p) req = Ok (st_command p).
Proof.
  unfold prepare_stage. destruct (parse_str _) as [gid|e]; [|done].
  intros ([[wid repo] pri] & Hg & H)%rbind_Ok_inv. apply rbind_Ok_inv in H as ([] & Hdep & H).
  apply rbind_Ok_inv in H as ([] & Hsub & H). cbv zeta in H. apply rbind_Ok_inv in H as (cmd & Hcmd & H).
  apply rbind_Ok_inv in H as ([] & _ & H). destruct (with_global_pre _ _ _ _) as [pre lock]. injection H as <-.
  cbn [st_group st_worker st_priority st_job_id st_config st_command].
  unfold find_group in Hg. destruct (get_group gid (seen 0%nat)) as [g|] eqn:Eg; [|done].
  destruct (g_reserved_worker_id g) as [wid'|] eqn:Ew; [|done]. injection Hg as -> <- <-.
  split_and!; [done| | |done|done].
  - exists g. split_and!; [done|done|done|]. by apply check_dependencies_ok.
  - by apply check_not_submitted_ok.
Qed.

Lemma enter_stage_books (uuid_v5 : string -> string) (to_rfc3339 : timestamp -> string) clk st req p seen5 c :
  let c' := enter_stage uuid_to_string uuid_v5 to_rfc3339 clk st req p seen5 c in
  workers c' = workers c /\
  jgroups c' = (enter_group (from_reading 1 clk) (st_group p) (stage_job (clk O) req p) (jgroups c)).2 /\
  jobs c' = add_job (stage_job (clk O) req p) (jobs c) /\
  job_stream_senders c' = job_stream_senders c.
Proof. unfold enter_stage. destruct (enter_group _ _ _ _) as [was r]. done. Qed.

(** The write section: the job is appended, a reserved group starts running. *)
Definition entered (gid : Uuid) (job : Job) (r r' : JobGroupRegistry) : Prop :=
  (forall gid', gid' <> gid -> groups r' !! gid' = groups r !! gid' /\ group_jobs r' !! gid' = group_jobs r !! gid') /\
  group_jobs r' !! gid = Some (get_jobs_for_group gid r ++ [job]) /\
  (groups r !! gid = None -> groups r' !! gid = None) /\
  (forall g, groups r !! gid = Some g -> exists g', groups r' !! gid = Some g' /\
     g_state g' = (if bool_decide (g_state g = GReserved) then GRunning else g_state g) /\
     g_reserved_worker_id g' = g_reserved_worker_id g /\ g_allocated_resources g' = g_allocated_resources g /\
     g_id g' = g_id g).

Lemma enter_group_spec clk gid job r : entered gid job r (enter_group clk gid job r).2.
Proof.
  unfold entered, enter_group, get_group, get_jobs_for_group, update_state. destruct (groups r !! gid) as [g|] eqn:Hg; simpl.
  2: { split_and!; [|by rewrite lookup_insert_eq|by rewrite lookup_alter_eq, Hg|done].
       intros gid' Hne. by rewrite lookup_alter_ne, lookup_insert_ne. }
  case_bool_decide as Hs; simpl.
  - rewrite Hs. simpl. split_and!; [|by rewrite lookup_insert_eq|done|].
    + intros gid' Hne. by rewrite lookup_alter_ne, !lookup_insert_ne.
    + intros ? [= <-]. rewrite lookup_alter_eq, lookup_insert_eq. eexists. split; [done|]. rewrite Hs. by split_and!.
  - split_and!; [|by rewrite lookup_insert_eq|done|].
    + intros gid' Hne. by rewrite lookup_alter_ne, lookup_insert_ne.
    + intros ? [= <-]. rewrite lookup_alter_eq, Hg. eexists. split; [done|].
      rewrite bool_decide_eq_false_2 by done. by split_and!.
Qed.
End SubmitFacts.

(** C13. Submitting a stage, branch by branch. A refused submission changes
    nothing. An accepted one found the group with its reserved worker, every
    stage it depends on successful and no job of the stage in the group; it adds
    one queued job, targeted at that worker, to the job registry and at the end
    of the group's list, and starts a reserved group; a group in any other state,
    even a terminal one, keeps its state. No worker, other job or other group is
    touched. *)
Theorem submit_stage_spec (regex_match : string -> string -> option bool) (uuid_to_string : Uuid -> string)
    (parse_str : string -> result Uuid string) (uuid_v5 : string -> string) (to_rfc3339 : timestamp -> string)
    (debug_list : list string -> string) (clk : clock) (st : option SubmitAnswers) (req : SubmitStageRequest)
    (seen : nat -> JobGroupRegistry) (c : Controller) :
  match do_submit_stage regex_match uuid_to_string parse_str uuid_v5 to_rfc3339 debug_list clk st req seen c with
  | (Err _, c') => c' = c
  | (Ok rs, c') => exists gid g wid job,
      parse_str (sq_job_group_id req) = Ok gid /\
      groups (seen 0%nat) !! gid = Some g /\ g_reserved_worker_id g = Some wid /\
      deps_done (repo_storage st (g_repo_id g)) (sq_stage_name req) (get_jobs_for_group gid (seen 1%nat)) /\
      (forall j, j ∈ get_jobs_for_group gid (seen 2%nat) -> j_stage_name j <> Some (sq_stage_name req)) /\
      j_job_id job = sp_job_id rs /\ j_state job = JQueued /\ j_assigned_worker job = Some wid /\
      j_stage_name job = Some (sq_stage_name req) /\ j_job_group_id job = Some gid /\
      workers c' = workers c /\ jobs c' = <[sp_job_id rs := job]> (jobs c) /\
      group_jobs (jgroups c') !! gid = Some (get_jobs_for_group gid (jgroups c) ++ [job]) /\
      (forall g0, groups (jgroups c) !! gid = Some g0 -> exists g', groups (jgroups c') !! gid = Some g' /\
         g_state g' = if bool_decide (g_state g0 = GReserved) then GRunning else g_state g0) /\
      (forall gid', gid' <> gid -> groups (jgroups c') !! gid' = groups (jgroups c) !! gid' /\
         group_jobs (jgroups c') !! gid' = group_jobs (jgroups c) !! gid')
  end.
Proof.
  unfold do_submit_stage. destruct (prepare_stage _ _ _ _ _ _ _) as [p|e] eqn:Hp; [|done].
  apply prepare_stage_ok in Hp as (Hgid & (g & Hg & Hw & _ & Hdeps) & Hnew & _).
  destruct (enter_stage_books uuid_to_string uuid_v5 to_rfc3339 clk st req p (seen 5%nat) c) as (E1 & E2 & E3 & _).
  destruct (enter_group_spec (from_reading 1 clk) (st_group p) (stage_job (clk O) req p) (jgroups c))
    as (S1 & S2 & _ & S4).
  exists (st_group p), g, (st_worker p), (stage_job (clk O) req p). rewrite E1, E2, E3.
  split_and!; try done.
  intros g0 Hg0. destruct (S4 g0 Hg0) as (g' & Hg' & Hst & _). eauto.
Qed.

(** A stage runs once per group: after an accepted submission, while the
    group still lists its stages, every further submission of that stage to that
    group is refused and changes nothing. *)
Theorem resubmission_refused (regex_match : string -> string -> option bool) (uuid_to_string : Uuid -> string)
    (parse_str : string -> result Uuid string) (uuid_v5 : string -> string) (to_rfc3339 : timestamp -> string)
    (debug_list : list string -> string) (clk clk' : clock) (st st' : option SubmitAnswers)
    (req req' : SubmitStageRequest) (seen : nat -> JobGroupRegistry) (c c1 c2 : Controller) (rs : SubmitStageResponse)
    (gid : Uuid) :
  do_submit_stage regex_match uuid_to_string parse_str uuid_v5 to_rfc3339 debug_list clk st req seen c = (Ok rs, c1) ->
  parse_str (sq_job_group_id req) = Ok gid -> parse_str (sq_job_group_id req') = Ok gid ->
  sq_stage_name req' = sq_stage_name req ->
  (forall j, j ∈ get_jobs_for_group gid (jgroups c1) ->
     exists j', j' ∈ get_jobs_for_group gid (jgroups c2) /\ j_stage_name j' = j_stage_name j) ->
  exists e, do_submit_stage regex_match uuid_to_string parse_str uuid_v5 to_rfc3339 debug_list clk' st' req'
              (fun _ => jgroups c2) c2 = (Err e, c2).
Proof.
  intros E Hgid Hgid' Hstage Hkeep. unfold do_submit_stage in *.
  destruct (prepare_stage _ _ _ _ st req seen) as [p|e] eqn:Hp; [|done].
  apply prepare_stage_ok in Hp as (Hp & _). assert (st_group p = gid) as Hg by congruence.
  destruct (enter_stage_books uuid_to_string uuid_v5 to_rfc3339 clk st req p (seen 5%nat) c) as (_ & E2 & _).
  injection E as _ E. rewrite E in E2.
  destruct (enter_group_spec (from_reading 1 clk) (st_group p) (stage_job (clk O) req p) (jgroups c)) as (_ & S2 & _).
  destruct (Hkeep (stage_job (clk O) req p)) as (j' & Hj' & Hs').
  { unfold get_jobs_for_group. rewrite E2, <- Hg, S2. simpl. set_solver. }
  destruct (check_not_submitted_err uuid_to_string req' (jgroups c2) gid j' Hj') as [msg Hmsg].
  { rewrite Hs', Hstage. done. }
  assert (He : exists e, prepare_stage regex_match uuid_to_string parse_str debug_list st' req' (fun _ => jgroups c2) = Err e).
  { unfold prepare_stage. rewrite Hgid'. destruct (find_group req' (jgroups c2) gid) as [[[wid repo] pri]|e]; simpl; [|eauto].
    destruct (check_dependencies _ _ _ _ _) as [[]|e]; simpl; [|eauto]. rewrite Hmsg. simpl. eauto. }
  destruct He as [e ->]. eauto.
Qed.

(** ** Dispatch *)

(** [a] is served no later than [b]. *)
Definition served_before (a b : Job) : Prop :=
  j_priority b < j_priority a \/ (j_priority b = j_priority a /\ j_created_at a <= j_created_at b).

Lemma queue_cmp_le a b : cmp_le queue_cmp a b <-> served_before a b.
Proof.
  unfold cmp_le, queue_cmp, then_with, served_before.
  destruct (Z.compare_spec (j_priority b) (j_priority a)); [|split; [by left|done]|split; [done|lia]].
  destruct (Z.compare_spec (j_created_at a) (j_created_at b)); split; intros; try done; lia.
Qed.

Lemma queue_cmp_total l : cmp_total_on queue_cmp l.
Proof. split; intros; rewrite !queue_cmp_le in *; unfold served_before in *; lia. Qed.

(** The first match in the sorted queue. *)
Lemma find_served (P : Job -> Prop) `{!forall j, Decision (P j)} l :
  match list_find P (sort_by queue_cmp l) with
  | Some (_, j) => j ∈ l /\ P j /\ forall j', j' ∈ l -> P j' -> served_before j j'
  | None => forall j, j ∈ l -> ~ P j
  end.
Proof.
  pose proof (sort_by_sorted _ l (queue_cmp_total l)) as Hs.
  destruct (list_find P (sort_by queue_cmp l)) as [[i j]|] eqn:Hf.
  - apply list_find_Some in Hf as (Hi & Hp & Hmin). split_and!; [|done|].
    { eapply elem_of_sort_by, list_elem_of_lookup_2, Hi. }
    intros j' Hj' Hp'. apply (elem_of_sort_by queue_cmp), list_elem_of_lookup in Hj' as [i' Hi'].
    apply queue_cmp_le. destruct (decide (i < i')%nat) as [Hlt|Hge]; [by eapply sorted_lookup|].
    destruct (decide (i' = i)) as [->|Hne]; [|by destruct (Hmin i' j' Hi' ltac:(lia))].
    simplify_eq. apply queue_cmp_le. unfold served_before. lia.
  - apply list_find_None in Hf. rewrite (sort_by_perm queue_cmp l), Forall_forall in Hf. exact Hf.
Qed.

Lemma elem_of_queued `{HI : HashIter} j m :
  jobs_keyed m -> j ∈ queued_jobs m <-> m !! j_job_id j = Some j /\ j_state j = JQueued.
Proof.
  intros Hk. unfold queued_jobs. rewrite list_elem_of_filter, elem_of_hvalues. split.
  - intros (Hs & id & Hid). by rewrite (Hk _ _ Hid).
  - intros [Hid Hs]. eauto.
Qed.

Lemma suits_spec s wid w j :
  suits s wid w j = true -> j_assigned_worker j = Some wid \/ (j_assigned_worker j = None /\ eligible j w = true).
Proof.
  unfold suits, targeted_elsewhere, explicitly_targeted. destruct (j_assigned_worker j) as [w'|].
  - case_bool_decide as E; [subst; by left|done].
  - simpl. case_bool_decide as E; [|done]. destruct E as [x E]. intros _. right. split; [done|].
    apply best_fit_eligible in E as [Hx He]. by apply list_elem_of_singleton in Hx as ->.
Qed.

(** A poll of a worker's job stream serves it correctly: it either changes
    nothing, because the worker is unknown or no queued job suits it, or it takes
    the suitable queued job that comes first (highest priority, then oldest),
    which is targeted at this worker or is untargeted and fits it, marks it as
    assigned to the worker and, if the stream is open, sends it there once. Jobs
    targeted at other workers are never taken and no other job changes. *)
Theorem dispatch_serves_first `{HI : HashIter} (uuid_to_string : Uuid -> string) (to_rfc3339 : timestamp -> string)
    (now : timestamp) (nvme : bool) (wid : string) (open : bool) (c : Controller) :
  jobs_keyed (jobs c) ->
  let sched := {| nvme_preference := nvme; branch_affinity := true |} in
  let '(more, c') := dispatch_job_for_worker uuid_to_string to_rfc3339 now nvme wid open c in
  (more = true /\ c' = c /\
     forall w id j, workers c !! wid = Some w -> jobs c !! id = Some j -> j_state j = JQueued -> suits sched wid w j = false) \/
  exists w id j, workers c !! wid = Some w /\ jobs c !! id = Some j /\ j_state j = JQueued /\
    (j_assigned_worker j = Some wid \/ (j_assigned_worker j = None /\ eligible j w = true)) /\
    (forall id' j', jobs c !! id' = Some j' -> j_state j' = JQueued -> suits sched wid w j' = true -> served_before j j') /\
    more = open /\ workers c' = workers c /\ jgroups c' = jgroups c /\
    jobs c' = <[id := assign_to now wid j]> (jobs c) /\
    exists created, effects c' = effects c ++
      (if open then [Dispatch wid (build_job_assignment uuid_to_string (assign_to now wid j) created)] else []).
Proof.
  intros Hk sched. unfold dispatch_job_for_worker. destruct (workers c !! wid) as [w|] eqn:Hw; [|by left].
  pose proof (find_served (fun j => suits sched wid w j = true) (queued_jobs (jobs c))) as Hf. fold sched.
  destruct (list_find _ _) as [[i j]|].
  - destruct Hf as (Hj & Hs & Hbest). apply elem_of_queued in Hj as [Hid Hq]; [|done].
    unfold assign_job. rewrite Hid, bool_decide_eq_true_2 by done.
    assert (Hb : forall id' j', jobs c !! id' = Some j' -> j_state j' = JQueued -> suits sched wid w j' = true ->
      served_before j j').
    { intros id' j' Hj' Hq' Hs'. apply Hbest; [|done]. apply elem_of_queued; [done|]. by rewrite (Hk _ _ Hj'). }
    pose proof (suits_spec _ _ _ _ Hs) as Hs'.
    destruct open; right; exists w, (j_job_id j), j; repeat (match goal with |- _ /\ _ => split end; [first [exact Hs'|exact Hb|done]|]).
    + by eexists.
    + exists EmptyString. symmetry. apply app_nil_r.
  - left. split_and!; [done|done|]. intros w' id j [= <-] Hid Hq.
    destruct (suits sched wid w j) eqn:Hs; [|done]. destruct (Hf j); [|done].
    apply elem_of_queued; [done|]. by rewrite (Hk _ _ Hid).
Qed.

(** ** The two deliveries of a submitted stage *)

(** The poll that a submission wakes up delivers the stage a second time,
    without its secrets: after an accepted submission to a worker whose stream is
    open, with no other job queued, the assignment sent by [do_submit_stage]
    names the secret variables and carries the script locks, but the job is still
    queued and targeted at the worker, so the next poll of that stream sends it
    again with the same command and environment and with no secret names and no
    locks. A worker that starts the polled copy masks nothing. *)
Theorem polled_copy_drops_secrets `{HI : HashIter} (regex_match : string -> string -> option bool)
    (uuid_to_string : Uuid -> string) (parse_str : string -> result Uuid string) (uuid_v5 : string -> string)
    (to_rfc3339 : timestamp -> string) (debug_list : list string -> string) (clk : clock) (now : timestamp) (nvme : bool)
    (st : option SubmitAnswers) (req : SubmitStageRequest) (seen : nat -> JobGroupRegistry) (c c1 : Controller)
    (rs : SubmitStageResponse) (p : stage_plan) (w : WorkerState) :
  prepare_stage regex_match uuid_to_string parse_str debug_list st req seen = Ok p ->
  do_submit_stage regex_match uuid_to_string parse_str uuid_v5 to_rfc3339 debug_list clk st req seen c = (Ok rs, c1) ->
  jobs_keyed (jobs c) -> map_Forall (fun _ j => j_state j <> JQueued) (jobs c) ->
  workers c !! st_worker p = Some w -> job_stream_senders c !! st_worker p = Some true ->
  let '(more, c2) := dispatch_job_for_worker uuid_to_string to_rfc3339 now nvme (st_worker p) true c1 in
  exists a1 a2,
    Dispatch (st_worker p) a1 ∈ effects c1 /\ effects c2 = effects c1 ++ [Dispatch (st_worker p) a2] /\
    ja_job_id a2 = ja_job_id a1 /\ ja_command a2 = ja_command a1 /\ ja_environment a2 = ja_environment a1 /\
    ja_secret_env_keys a1 = st_secrets p /\ ja_pre_script_lock a1 = st_pre_lock p /\
    ja_secret_env_keys a2 = [] /\ ja_pre_script_lock a2 = None /\ ja_post_script_lock a2 = None.
Proof.
  intros Hp E Hk Hq Hw Hopen. unfold do_submit_stage in E. rewrite Hp in E. injection E as _ E.
  destruct (enter_stage_books uuid_to_string uuid_v5 to_rfc3339 clk st req p (seen 5%nat) c) as (E1 & _ & E3 & _).
  rewrite E in E1, E3. set (job := stage_job (clk O) req p) in *.
  assert (Hk1 : jobs_keyed (jobs c1)) by (rewrite E3; by apply map_Forall_insert_2).
  assert (Hd : exists created, Dispatch (st_worker p) (stage_assignment uuid_to_string req p created) ∈ effects c1).
  { rewrite <- E. unfold enter_stage. destruct (enter_group _ _ _ _) as [was r]. simpl. rewrite Hopen. eexists.
    apply elem_of_app. left. apply elem_of_app. right. by apply list_elem_of_singleton. }
  destruct Hd as [created Hd].
  unfold dispatch_job_for_worker. rewrite E1, Hw. set (sched := {| nvme_preference := nvme; branch_affinity := true |}).
  pose proof (find_served (fun j => suits sched (st_worker p) w j = true) (queued_jobs (jobs c1))) as Hf.
  assert (Hjob : forall j, j ∈ queued_jobs (jobs c1) <-> j = job).
  { intros j. rewrite elem_of_queued by done. rewrite E3. unfold add_job. split.
    - intros [Hid Hs]. apply lookup_insert_Some in Hid as [[_ <-]|[_ Hid]]; [done|]. by destruct (Hq _ _ Hid).
    - intros ->. by rewrite lookup_insert_eq. }
  assert (Hsuits : suits sched (st_worker p) w job = true).
  { unfold suits, targeted_elsewhere, explicitly_targeted. simpl. by rewrite bool_decide_eq_true_2. }
  destruct (list_find _ _) as [[i j]|]; [|by destruct (Hf job); [apply Hjob|]].
  destruct Hf as (Hj & _). apply Hjob in Hj as ->.
  assert (Hid : jobs c1 !! j_job_id job = Some job) by (rewrite E3; apply lookup_insert_eq).
  unfold assign_job. rewrite Hid, bool_decide_eq_true_2 by done. eexists _, _. split; [exact Hd|]. by split_and!.
Qed.

(** ** A concrete submission *)

Definition reserved_group : JobGroup :=
  {| (JobGroup_new_with_id 0 7%N (Some 1%N) None None "api") with
    g_state := GReserved; g_reserved_worker_id := Some "w"; g_reserved_stages := ["build"] |}.

Definition reserved_controller : Controller := {|
  workers := {[ "w" := sample_worker "w" ]}; jobs := JobRegistry_new;
  jgroups := add_group reserved_group JobGroupRegistry_new; logs := LogAggregator_new None;
  job_stream_senders := {[ "w" := true ]}; token_hashes := ∅; has_storage := true; has_redis := false; effects := []
|}.

Definition build_request : SubmitStageRequest := {|
  sq_job_group_id := "7"; sq_job_id := ""; sq_stage_name := "build"; sq_command_override := "make";
  sq_environment := ∅
|}.

(** A repo with one secret variable. *)
Definition secret_answers : SubmitAnswers := {|
  sa_dependencies := Ok ∅; sa_stage_config := Ok None; sa_command_blacklist := Ok [];
  sa_variables := Ok [{| pv_name := "TOKEN"; pv_value := "hunter2"; pv_is_secret := true |}];
  sa_scripts := Ok []; sa_repo := Ok None; sa_repo_again := Ok None
|}.

Definition sample_submit (req : SubmitStageRequest) (c : Controller) : result SubmitStageResponse Status * Controller :=
  do_submit_stage (fun _ _ => None) (fun _ => "7") (fun _ => Ok 7%N) (fun s => s) (fun _ => "") (fun _ => "")
    (fun _ => 9) (Some secret_answers) req (fun _ => jgroups c) c.

Definition build_reply : SubmitStageResponse := {|
  sp_job_id := "7-build"; sp_stage_name := "build"; sp_accepted := true; sp_message := "Stage submitted successfully"
|}.

Lemma resubmission_refused_witness :
  let c1 := (sample_submit build_request reserved_controller).2 in
  exists e, sample_submit build_request c1 = (Err e, c1).
Proof.
  intros c1. apply (resubmission_refused (fun _ _ => None) (fun _ => "7") (fun _ => Ok 7%N) (fun s => s) (fun _ => "")
    (fun _ => "") (fun _ => 9) (fun _ => 9) (Some secret_answers) (Some secret_answers) build_request build_request
    (fun _ => jgroups reserved_controller) reserved_controller c1 c1 build_reply 7%N).
  - vm_compute. reflexivity.
  - reflexivity.
  - reflexivity.
  - reflexivity.
  - intros j Hj. exists j. split; [exact Hj|reflexivity].
Defined.

Lemma dispatch_serves_first_witness :
  let c1 := (sample_submit build_request reserved_controller).2 in
  jobs_keyed (jobs c1) /\
  (dispatch_job_for_worker (HI := map_iter) (fun _ => "7") (fun _ => "") 9 false "w" true c1).2 <> c1.
Proof.
  intros c1. assert (Hk : jobs_keyed (jobs c1)).
  { apply map_Forall_insert_2; [reflexivity|apply map_Forall_empty]. }
  split; [exact Hk|].
  pose proof (dispatch_serves_first (HI := map_iter) (fun _ => "7") (fun _ => "") 9 false "w" true c1 Hk) as H.
  destruct (dispatch_job_for_worker _ _ _ _ _ _ _) as [more c2].
  destruct H as [(_ & _ & H)|(w & id & j & _ & _ & _ & _ & _ & _ & _ & _ & _ & created & Hef)].
  - exfalso. destruct (jobs c1 !! "7-build") as [j|] eqn:Hj; [|vm_compute in Hj; discriminate Hj].
    specialize (H (sample_worker "w") "7-build" j eq_refl Hj). vm_compute in Hj. injection Hj as <-.
    discriminate (H eq_refl).
  - simpl. intros ->. apply (f_equal length) in Hef. rewrite length_app in Hef. simpl in Hef. lia.
Defined.

Lemma polled_copy_drops_secrets_witness :
  let c1 := (sample_submit build_request reserved_controller).2 in
  let c2 := (dispatch_job_for_worker (HI := map_iter) (fun _ => "7") (fun _ => "") 9 false "w" true c1).2 in
  exists a1 a2, Dispatch "w" a1 ∈ effects c1 /\ effects c2 = effects c1 ++ [Dispatch "w" a2] /\
    ja_secret_env_keys a1 = ["TOKEN"] /\ ja_secret_env_keys a2 = [].
Proof.
  intros c1 c2.
  destruct (prepare_stage (fun _ _ => None) (fun _ => "7") (fun _ => Ok 7%N) (fun _ => "") (Some secret_answers)
    build_request (fun _ => jgroups reserved_controller)) as [p|e] eqn:Hp; [|vm_compute in Hp; discriminate Hp].
  assert (Hw : st_worker p = "w") by (vm_compute in Hp; injection Hp as <-; reflexivity).
  assert (Hs : st_secrets p = ["TOKEN"]) by (vm_compute in Hp; injection Hp as <-; reflexivity).
  pose proof (polled_copy_drops_secrets (HI := map_iter) (fun _ _ => None) (fun _ => "7") (fun _ => Ok 7%N) (fun s => s)
    (fun _ => "") (fun _ => "") (fun _ => 9) 9 false (Some secret_answers) build_request
    (fun _ => jgroups reserved_controller) reserved_controller c1 build_reply p (sample_worker "w") Hp
    ltac:(vm_compute; reflexivity) (map_Forall_empty _) (map_Forall_empty _)) as H.
  rewrite Hw in H. specialize (H eq_refl eq_refl). unfold c2.
  destruct (dispatch_job_for_worker _ _ _ _ _ _ _) as [more c3].
  destruct H as (a1 & a2 & H1 & H2 & _ & _ & _ & H3 & _ & H4 & _).
  exists a1, a2. split; [exact H1|]. split; [exact H2|]. rewrite H3, Hs. split; [reflexivity|exact H4].
Defined.
