(* ===== verification/Reservation.v ===== *)
(** * Reserving a worker
    ([compute_resource_needs] and [do_reserve_worker] of
    crates/ci-controller/src/grpc_server.rs)

    The handler asks the database nine questions; [Answers] holds whatever the
    database answers to each, in call order ([None] when there is no storage).
    It reads the worker registry under a read lock ([seen]) and allocates under a
    later write lock, so the registry may have changed in between; it adds the
    group to the group registry later still. [do_reserve_worker] runs the three
    sections in a row; the theorems on interleavings use the sections. The regex
    crate and the spelling of ids are parameters. *)

From Stdlib Require Import ZArith Lia Sorted.
From stdpp Require Import gmap strings list fin_maps pretty sets.
From S2P Require Import Prelude WorkerModel JobModel StageModel Dag Scheduler WorkerRegistry JobRegistry JobGroupRegistry LogAggregator QueryParser Controller.

(** [message ReserveWorkerRequest], [StageInfo] and [ReserveWorkerResponse] *)
Record ReserveWorkerRequest := {
  rq_repo_name : string;
  rq_repo_url : string;
  rq_branch : string;
  rq_commit_sha : string;
  rq_stages : list string;
  rq_priority : Z;
  rq_idempotency_key : string
}.

Record StageInfo := {
  si_stage_name : string;
  si_command : string;
  si_required_cpu : Z;
  si_required_memory_mb : Z;
  si_required_disk_mb : Z;
  si_max_duration_secs : Z;
  si_parallel_group : string;
  si_job_type : string;
  si_depends_on : list string
}.

Record ReserveWorkerResponse := {
  rs_job_group_id : string;
  rs_worker_id : string;
  rs_stages : list StageInfo;
  rs_success : bool;
  rs_message : string
}.

Record Answers := {
  get_repo_by_name : result (option Repo) string;
  get_stage_configs : result (list StageConfig) string;
  get_stage_dependencies : result (gmap string (list string)) string;
  find_by_idempotency_key : result (option JobGroup) string;
  needs_repo : result (option Repo) string;
  needs_configs : result (list StageConfig) string;
  branch_blacklist : result (list string) string;
  count_active_groups : result Z string;
  find_superseded_groups : result (list Uuid) string;
  recount_active_groups : result Z string
}.

(** ** compute_resource_needs *)

Definition max_of (f : StageConfig -> Z) (l : list StageConfig) : Z := foldr (fun s acc => Z.max (Z.max 0 (f s)) acc) 0 l.

Definition compute_resource_needs (st : option Answers) (req : ReserveWorkerRequest) : AllocatedResources :=
  match st with
  | None => AllocatedResources_default
  | Some db =>
      match needs_repo db with
      | Ok (Some _) =>
          let configs := unwrap_or [] (needs_configs db) in
          let relevant :=
            if bool_decide (rq_stages req = []) then configs
            else filter (fun s => sc_stage_name s ∈ rq_stages req) configs in
          {| ar_cpu := max_of sc_required_cpu relevant;
             ar_memory_mb := max_of sc_required_memory_mb relevant;
             ar_disk_mb := max_of sc_required_disk_mb relevant |}
      | _ => AllocatedResources_default
      end
  end.

(** ** Selection and allocation *)

Definition has_resource_req (n : AllocatedResources) : bool := has_alloc n.

Definition has_capacity (n : AllocatedResources) (w : WorkerState) : bool :=
  if negb (has_resource_req n) then true
  else (ar_cpu n <=? available_cpu w) && (ar_memory_mb n <=? available_memory_mb w) && (ar_disk_mb n <=? free_disk_mb w).

Definition free_of (w : WorkerState) : Z := u64_add (u64_add (available_cpu w) (available_memory_mb w)) (free_disk_mb w).

Definition priority_of (wr : WorkerRegistry) (id : string) : Z :=
  default 0 ((fun w => wi_priority (ws_info w)) <$> wr !! id).

Definition free_capacity (wr : WorkerRegistry) (id : string) : Z := default 0 (free_of <$> wr !! id).

(** Highest priority first, then most free resources. *)
Definition reserve_cmp (wr : WorkerRegistry) (a b : string) : comparison :=
  then_with (priority_of wr b ?= priority_of wr a) (free_capacity wr b ?= free_capacity wr a).

(** The first worker in order that grants the allocation. *)
Fixpoint allocate_first (n : AllocatedResources) (ids : list string) (wr : WorkerRegistry)
    : option string * WorkerRegistry :=
  match ids with
  | [] => (None, wr)
  | wid :: ids' =>
      match wr !! wid with
      | Some w =>
          if negb (has_resource_req n) then (Some wid, wr)
          else
            match allocate (ar_cpu n) (ar_memory_mb n) (ar_disk_mb n) w with
            | (true, w') => (Some wid, <[wid := w']> wr)
            | (false, _) => allocate_first n ids' wr
            end
      | None => allocate_first n ids' wr
      end
  end.

(** The write-locked section. *)
Definition allocate_worker (n : AllocatedResources) (candidate_ids : list string) (wr : WorkerRegistry)
    : option string * WorkerRegistry :=
  allocate_first n (sort_by (reserve_cmp wr) candidate_ids) wr.

(** ** The handler *)

(** What the first sections decide. *)
Record plan := {
  pl_repo_id : Uuid;
  pl_max_concurrent : Z;
  pl_cancel_superseded : bool;
  pl_effective : list string;
  pl_dropped : list string;
  pl_deps : gmap string (list string)
}.

Definition reply (group worker : string) (stages : list StageInfo) (success : bool) (msg : string)
    : ReserveWorkerResponse :=
  {| rs_job_group_id := group; rs_worker_id := worker; rs_stages := stages; rs_success := success; rs_message := msg |}.

Abbreviation Reply := (result (ReserveWorkerResponse * list string) Status) (only parsing).

Definition build_stage_info (deps : gmap string (list string)) (name : string) : StageInfo := {|
  si_stage_name := name; si_command := EmptyString; si_required_cpu := 0; si_required_memory_mb := 0;
  si_required_disk_mb := 0; si_max_duration_secs := 0; si_parallel_group := EmptyString; si_job_type := "common";
  si_depends_on := default [] (deps !! name)
|}.

Section Reserve.
Context `{HI : HashIter} (regex_match : string -> string -> option bool) (uuid_to_string : Uuid -> string).

(** Repo lookup and stage filter; [fresh_repo] is the id drawn when there is
    no repo row to use. *)
Definition reserve_plan (fresh_repo : Uuid) (st : option Answers) (req : ReserveWorkerRequest)
    : ReserveWorkerResponse * list string + plan :=
  let lookup :=
    match st with
    | Some db =>
        match get_repo_by_name db with
        | Ok (Some repo) => Some (repo_id repo, max_concurrent_builds repo, cancel_superseded repo)
        | Ok None => None
        | Err _ => Some (fresh_repo, 0, false)
        end
    | None => Some (fresh_repo, 0, false)
    end in
  match lookup with
  | None =>
      inl (reply EmptyString EmptyString [] false
             ("Repo '" +:+ rq_repo_name req +:+ "' not found — create it in the DB first")%string, [])
  | Some (rid, mx, cancel) =>
      let '(effective, dropped) :=
        if bool_decide (rq_stages req = []) then ([], [])
        else
          match st with
          | Some db =>
              let known := sc_stage_name <$> unwrap_or [] (get_stage_configs db) in
              let named := filter (fun s => s <> EmptyString) (rq_stages req) in
              (filter (fun s => s ∈ known) named, filter (fun s => s ∉ known) named)
          | None => (rq_stages req, [])
          end in
      if negb (bool_decide (rq_stages req = [])) && bool_decide (effective = []) then
        inl (reply EmptyString EmptyString [] true
               ("No configured stages for repo '" +:+ rq_repo_name req +:+ "'. Skipped: " +:+ join ", " dropped)%string,
             dropped)
      else
        inr {| pl_repo_id := rid; pl_max_concurrent := mx; pl_cancel_superseded := cancel;
               pl_effective := effective; pl_dropped := dropped;
               pl_deps := match st with Some db => unwrap_or ∅ (get_stage_dependencies db) | None => ∅ end |}
  end.

(** The idempotency cache. *)
Definition cached_group (st : option Answers) (req : ReserveWorkerRequest) (p : plan) (seen : WorkerRegistry)
    : option (ReserveWorkerResponse * list string) :=
  if negb (bool_decide (rq_idempotency_key req = EmptyString)) then
    match st with
    | Some db =>
        match find_by_idempotency_key db with
        | Ok (Some existing) =>
            let connected :=
              match g_reserved_worker_id existing ≫= fun wid => seen !! wid with
              | Some w => bool_decide (ws_status w = Connected)
              | None => false
              end in
            if connected then
              Some (reply (uuid_to_string (g_id existing)) (default EmptyString (g_reserved_worker_id existing))
                      (build_stage_info (pl_deps p) <$> pl_effective p) true
                      "Existing active group returned (idempotency key match)", pl_dropped p)
            else None
        | _ => None
        end
    | None => None
    end
  else None.

Definition candidates (n : AllocatedResources) (seen : WorkerRegistry) : list string :=
  (fun w => wi_worker_id (ws_info w)) <$> filter (fun w => has_capacity n w = true) (connected_workers seen).

(** Blacklist, concurrency limit and stage graph: the database writes made,
    and the refusal if there is one. *)
Definition blacklisted (st : option Answers) (req : ReserveWorkerRequest) : bool :=
  match st with
  | Some db =>
      negb (bool_decide (rq_branch req = EmptyString)) &&
      existsb (fun pat => bool_decide (regex_match pat (rq_branch req) = Some true)) (unwrap_or [] (branch_blacklist db))
  | None => false
  end.

Definition limit_message (p : plan) : string :=
  ("Max concurrent builds (" +:+ pretty (pl_max_concurrent p) +:+ ") reached for repo")%string.

Definition superseded_reason : string := "Superseded by newer build on same branch".

Definition concurrency (st : option Answers) (req : ReserveWorkerRequest) (p : plan) : list Effect * bool :=
  if 0 <? pl_max_concurrent p then
    match st with
    | Some db =>
        let active := unwrap_or 0 (count_active_groups db) in
        if pl_max_concurrent p <=? active then
          if pl_cancel_superseded p && negb (bool_decide (rq_branch req = EmptyString)) then
            let superseded := unwrap_or [] (find_superseded_groups db) in
            ((fun gid => DbGroupState gid GCancelled (Some superseded_reason)) <$> superseded,
             pl_max_concurrent p <=? unwrap_or active (recount_active_groups db))
          else ([], true)
        else ([], false)
    | None => ([], false)
    end
  else ([], false).

Definition admission (st : option Answers) (req : ReserveWorkerRequest) (p : plan) (worker_id : string)
    : list Effect * option Status :=
  if blacklisted st req then
    ([], Some (failed_precondition
           ("Branch '" +:+ rq_branch req +:+ "' is blacklisted on worker '" +:+ worker_id +:+ "'")%string))
  else
    let '(es, over) := concurrency st req p in
    if over then (es, Some (resource_exhausted (limit_message p)))
    else
      match validate_dag (pl_deps p) with
      | Some (Err n) =>
          (es, Some (invalid_argument ("Stage dependency cycle detected involving '" +:+ n +:+ "'")%string))
      | _ => (es, None)
      end.

Definition new_group (clk : clock) (gid : Uuid) (req : ReserveWorkerRequest) (p : plan) (n : AllocatedResources)
    (worker_id : string) : JobGroup :=
  {| (JobGroup_new (clk O) gid (pl_repo_id p) (non_empty (rq_branch req)) (non_empty (rq_commit_sha req))) with
    g_id := gid;
    g_reserved_worker_id := Some worker_id;
    g_state := GReserved;
    g_priority := rq_priority req;
    g_idempotency_key := non_empty (rq_idempotency_key req);
    g_allocated_resources := n;
    g_reserved_stages := pl_effective p;
    g_updated_at := clk 1%nat |}.

Definition success_message (req : ReserveWorkerRequest) (p : plan) : string :=
  if bool_decide (pl_dropped p = []) then "Worker reserved successfully"
  else ("Worker reserved successfully. Skipped (not configured for repo '" +:+ rq_repo_name req +:+ "'): "
        +:+ join ", " (pl_dropped p))%string.

(** From the selected worker to the reply. *)
Definition commit_group (clk : clock) (gid : Uuid) (st : option Answers) (req : ReserveWorkerRequest) (p : plan)
    (n : AllocatedResources) (worker_id : string) (c : Controller) : Reply * Controller :=
  let c1 := emit (redis [RedisReserve worker_id gid] c) c in
  let '(es, refusal) := admission st req p worker_id in
  let c2 := emit es c1 in
  match refusal with
  | Some status => (Err status, c2)
  | None =>
      let g := new_group clk gid req p n worker_id in
      let c3 := emit (match st with Some _ => [DbCreateGroup g] | None => [] end) c2 in
      let c4 := with_groups (add_group g) c3 in
      let c5 := emit [Metric "inc_worker_reservations"; Metric "inc_active_builds"] c4 in
      (Ok (reply (uuid_to_string gid) worker_id (build_stage_info (pl_deps p) <$> pl_effective p) true
             (success_message req p), pl_dropped p), c5)
  end.

Definition no_worker (msg : string) : Reply := Ok (reply EmptyString EmptyString [] false msg, []).

Definition do_reserve_worker (clk : clock) (gid fresh_repo : Uuid) (st : option Answers)
    (req : ReserveWorkerRequest) (seen : WorkerRegistry) (c : Controller) : Reply * Controller :=
  match reserve_plan fresh_repo st req with
  | inl r => (Ok r, c)
  | inr p =>
      match cached_group st req p seen with
      | Some r => (Ok r, c)
      | None =>
          let n := compute_resource_needs st req in
          if bool_decide (connected_workers seen = []) then (no_worker "No connected workers available", c)
          else
            let ids := candidates n seen in
            if bool_decide (ids = []) then (no_worker "No workers with sufficient resources available", c)
            else
              match allocate_worker n ids (workers c) with
              | (None, wr) =>
                  (no_worker "No workers with sufficient resources available", {| c with workers := wr |})
              | (Some worker_id, wr) => commit_group clk gid st req p n worker_id {| c with workers := wr |}
              end
      end
  end.
End Reserve.

(** ** Allocation *)

(** The worker grants the allocation. *)
Definition accepts (n : AllocatedResources) (wr : WorkerRegistry) (id : string) : bool :=
  match wr !! id with
  | Some w => negb (has_resource_req n) || (allocate (ar_cpu n) (ar_memory_mb n) (ar_disk_mb n) w).1
  | None => false
  end.

(** The registry once [id] has granted it. *)
Definition grant (n : AllocatedResources) (id : string) (wr : WorkerRegistry) : WorkerRegistry :=
  if has_resource_req n
  then alter (fun w => (allocate (ar_cpu n) (ar_memory_mb n) (ar_disk_mb n) w).2) id wr
  else wr.

Lemma allocate_first_spec n ids wr :
  match allocate_first n ids wr with
  | (Some id, wr') => exists before after, ids = before ++ id :: after /\ accepts n wr id = true /\
      Forall (fun x => accepts n wr x = false) before /\ wr' = grant n id wr
  | (None, wr') => wr' = wr /\ Forall (fun x => accepts n wr x = false) ids
  end.
Proof.
  induction ids as [|id ids IH]; [done|]. simpl.
  assert (Hskip : accepts n wr id = false ->
    match allocate_first n ids wr with
    | (Some id', wr') => exists before after, id :: ids = before ++ id' :: after /\ accepts n wr id' = true /\
        Forall (fun x => accepts n wr x = false) before /\ wr' = grant n id' wr
    | (None, wr') => wr' = wr /\ Forall (fun x => accepts n wr x = false) (id :: ids)
    end).
  { intros Hid. destruct (allocate_first n ids wr) as [[id'|] wr'].
    - destruct IH as (b & a & -> & H1 & H2 & H3). exists (id :: b), a. split_and!; [done|done| |done]. by constructor.
    - destruct IH as [-> H]. split; [done|]. by constructor. }
  unfold accepts at 1 in Hskip. destruct (wr !! id) as [w|] eqn:Hw; [|by apply Hskip].
  destruct (has_resource_req n) eqn:Hn; simpl in *.
  - destruct (allocate _ _ _ w) as [[] w'] eqn:Ha; [|by apply Hskip].
    exists [], ids. split_and!; [done| |done|].
    + unfold accepts. by rewrite Hw, Ha, orb_true_r.
    + unfold grant. rewrite Hn. apply map_eq. intros i. destruct (decide (i = id)) as [->|Hne].
      * by rewrite lookup_insert_eq, lookup_alter_eq, Hw, fmap_Some_2 with (x := w), Ha.
      * by rewrite lookup_insert_ne, lookup_alter_ne.
  - exists [], ids. split_and!; [done| |done|].
    + unfold accepts. by rewrite Hw, Hn.
    + unfold grant. by rewrite Hn.
Qed.

(** [a] is at least as good a choice as [b]. *)
Definition preferred (wr : WorkerRegistry) (a b : string) : Prop :=
  priority_of wr b < priority_of wr a \/
  (priority_of wr b = priority_of wr a /\ free_capacity wr b <= free_capacity wr a).

Lemma reserve_cmp_le wr a b : cmp_le (reserve_cmp wr) a b <-> preferred wr a b.
Proof.
  unfold cmp_le, reserve_cmp, then_with, preferred.
  destruct (Z.compare_spec (priority_of wr b) (priority_of wr a)); [|split; [by left|done]|split; [done|lia]].
  destruct (Z.compare_spec (free_capacity wr b) (free_capacity wr a)); split; intros; try done; lia.
Qed.

Lemma reserve_cmp_total wr l : cmp_total_on (reserve_cmp wr) l.
Proof. split; intros; rewrite !reserve_cmp_le in *; unfold preferred in *; lia. Qed.

Lemma strongly_sorted_split {A : Type} (R : A -> A -> Prop) l1 x l2 y :
  StronglySorted R (l1 ++ x :: l2) -> y ∈ l2 -> R x y.
Proof.
  induction l1 as [|z l1 IH]; simpl; intros Hs Hy; inversion Hs as [|? ? Hs' Hf]; subst; [|by apply IH].
  rewrite Forall_forall in Hf. by apply Hf.
Qed.

Lemma allocate_worker_cases n ids wr :
  match allocate_worker n ids wr with
  | (Some id, wr') => id ∈ ids /\ accepts n wr id = true /\ wr' = grant n id wr /\
      (forall x, x ∈ ids -> accepts n wr x = true -> preferred wr id x)
  | (None, wr') => wr' = wr /\ Forall (fun x => accepts n wr x = false) ids
  end.
Proof.
  unfold allocate_worker. pose proof (allocate_first_spec n (sort_by (reserve_cmp wr) ids) wr) as H.
  destruct (allocate_first n _ wr) as [[id|] wr'].
  - destruct H as (b & a & E & Hid & Hb & ->).
    pose proof (sort_by_sorted _ ids (reserve_cmp_total wr ids)) as Hs. rewrite E in Hs.
    assert (Hin : forall x, x ∈ ids <-> x ∈ b ++ id :: a) by (intros x; by rewrite <- E, elem_of_sort_by).
    split_and!; [apply Hin; set_solver|done|done|].
    intros x Hx Hax. apply Hin, elem_of_app in Hx as [Hx|[->|Hx]%elem_of_cons].
    + rewrite Forall_forall in Hb. by rewrite (Hb x Hx) in Hax.
    + unfold preferred. lia.
    + apply reserve_cmp_le. by apply (strongly_sorted_split _ b id a).
  - destruct H as [-> H]. split; [done|]. by rewrite (sort_by_perm (reserve_cmp wr) ids) in H.
Qed.

(** ** The books *)

Lemma max_of_nonneg f l : 0 <= max_of f l.
Proof. unfold max_of. induction l; simpl; lia. Qed.

Lemma needs_nonneg st req k : 0 <= amount k (compute_resource_needs st req).
Proof.
  unfold compute_resource_needs. destruct st as [db|]; [|by destruct k].
  destruct (needs_repo db) as [[]|]; [|by destruct k..]. destruct k; simpl; apply max_of_nonneg.
Qed.

Definition needs_fit (n : AllocatedResources) (w : WorkerState) : Prop :=
  no_overflow w (ar_cpu n) (ar_memory_mb n) (ar_disk_mb n).

(** What a grant does to the worker's record. *)
Lemma grant_lookup n id wr w :
  wr !! id = Some w -> worker_wf w -> needs_fit n w -> (forall k, 0 <= amount k n) -> accepts n wr id = true ->
  exists w', grant n id wr !! id = Some w' /\ worker_wf w' /\ ws_info w' = ws_info w /\
    (has_resource_req n = true -> within_caps w') /\
    (forall k, counter k w' = counter k w + amount k n /\ counter k w + amount k n < 2 ^ width k).
Proof.
  intros Hw Hwf Hfit Hpos Hacc. unfold accepts in Hacc. rewrite Hw in Hacc.
  assert (Hlt : forall k, counter k w + amount k n < 2 ^ width k) by (destruct Hfit as (?&?&?&?&?&?); by intros []).
  unfold grant. destruct (has_resource_req n) eqn:Hn; simpl in Hacc.
  - destruct (allocate (ar_cpu n) (ar_memory_mb n) (ar_disk_mb n) w) as [b w'] eqn:Ha. simpl in Hacc. subst b.
    destruct (allocate_wf _ _ _ _ _ _ Hwf Ha) as (Hwf' & Hinfo & _ & Hcap & _). exists w'.
    split_and!; [by rewrite lookup_alter_eq, Hw; simpl; rewrite Ha|done|done|auto|].
    intros k. split; [|apply Hlt]. rewrite (allocate_eq _ _ _ _ Hwf Hfit) in Ha.
    destruct (decide _); [|done]. injection Ha as <-. by destruct k.
  - exists w. split_and!; [done|done|done|done|]. intros k. split; [|apply Hlt].
    assert (amount k n = 0); [|lia]. unfold has_resource_req, has_alloc in Hn.
    rewrite !orb_false_iff, !Z.ltb_ge in Hn. pose proof (Hpos k). destruct k; simpl in *; lia.
Qed.

Lemma grant_other n id wr id' : id' <> id -> grant n id wr !! id' = wr !! id'.
Proof. intros H. unfold grant. destruct (has_resource_req n); [by rewrite lookup_alter_ne|done]. Qed.

(** Worker [id] alone was charged, with exactly [n]. *)
Definition charged (n : AllocatedResources) (id : string) (wr wr' : WorkerRegistry) : Prop :=
  (forall x, x <> id -> wr' !! x = wr !! x) /\
  exists w w', wr !! id = Some w /\ wr' !! id = Some w' /\ ws_info w' = ws_info w /\
    (forall k, counter k w' = counter k w + amount k n) /\ (has_resource_req n = true -> within_caps w').

Lemma grant_charged n id wr w :
  wr !! id = Some w -> worker_wf w -> needs_fit n w -> (forall k, 0 <= amount k n) -> accepts n wr id = true ->
  charged n id wr (grant n id wr).
Proof.
  intros Hw Hwf Hfit Hpos Hacc. split; [intros; by apply grant_other|].
  destruct (grant_lookup n id wr w Hw Hwf Hfit Hpos Hacc) as (w' & Hw' & _ & Hi & Hc & Hk).
  exists w, w'. split_and!; try done. intros k. apply Hk.
Qed.

(** The controller once the write-locked section has picked [id]. *)
Definition allocated (n : AllocatedResources) (id : string) (c : Controller) : Controller :=
  with_workers (grant n id) c.

(** The workers are well-formed and the request cannot overflow their counters. *)
Definition roomy (n : AllocatedResources) (c : Controller) : Prop :=
  map_Forall (fun _ w => worker_wf w /\ needs_fit n w) (workers c).

Lemma accepts_lookup n wr id : accepts n wr id = true -> exists w, wr !! id = Some w.
Proof. unfold accepts. destruct (wr !! id); [eauto|done]. Qed.

(** The grant is a surplus until a group accounts for it. *)
Lemma allocated_accounted s n id c :
  accounted s c -> roomy n c -> (forall k, 0 <= amount k n) -> accepts n (workers c) id = true ->
  accounted (bump s n id) (allocated n id c).
Proof.
  intros Hb Hr Hpos Hacc id' x k Hx. simpl in Hx. destruct (accepts_lookup _ _ _ Hacc) as [w Hw].
  destruct (Hr _ _ Hw) as [Hwf Hfit]. unfold bump. simpl jgroups. destruct (decide (id' = id)) as [->|Hne].
  - destruct (grant_lookup n id _ w Hw Hwf Hfit Hpos Hacc) as (w' & Hw' & _ & _ & _ & Hk).
    assert (x = w') as -> by congruence. destruct (Hk k) as [H1 H2], (Hb id w k Hw). lia.
  - rewrite grant_other in Hx by done. destruct (Hb id' x k Hx). lia.
Qed.

(** Recording the group settles it. *)
Lemma add_group_accounted s n id g c :
  accounted (bump s n id) c -> groups (jgroups c) !! g_id g = None -> is_active g = true ->
  g_reserved_worker_id g = Some id -> g_allocated_resources g = n ->
  accounted s (with_groups (add_group g) c).
Proof.
  intros Hb Hnew Ha Hwk Hal id' x k Hx. simpl in Hx.
  assert (E : ledger k id' (jgroups (with_groups (add_group g) c)) = charge k id' g + ledger k id' (jgroups c)).
  { unfold ledger. simpl. by apply total_insert_new. }
  rewrite E. destruct (Hb id' x k Hx) as [Hbal Hlt]. unfold bump in Hbal. destruct (decide (id' = id)) as [->|Hne].
  - rewrite (charge_active k id g Ha Hwk), Hal. lia.
  - rewrite (charge_elsewhere k id id' g Hwk Hne). lia.
Qed.

Section Outcome.
Context `{HI : HashIter} (regex_match : string -> string -> option bool) (uuid_to_string : Uuid -> string).

(** The two ways [commit_group] ends. *)
Lemma commit_group_cases clk gid st req p n id c r c' :
  commit_group regex_match uuid_to_string clk gid st req p n id c = (r, c') ->
  workers c' = workers c /\
  match r with
  | Err _ => jgroups c' = jgroups c /\ (admission regex_match st req p id).2 <> None
  | Ok (rs, dropped) =>
      jgroups c' = add_group (new_group clk gid req p n id) (jgroups c) /\ dropped = pl_dropped p /\
      rs = reply (uuid_to_string gid) id (build_stage_info (pl_deps p) <$> pl_effective p) true (success_message req p)
  end.
Proof.
  unfold commit_group. destruct (admission _ _ _ _ _) as [es [status|]]; intros [= <- <-]; by split_and!.
Qed.

(** The ways the handler ends: with an answer and nothing touched, or with a
    worker that granted the allocation. *)
Lemma do_reserve_worker_cases clk gid fr st req seen c r c' :
  do_reserve_worker regex_match uuid_to_string clk gid fr st req seen c = (r, c') ->
  (c' = c /\ exists rs d, r = Ok (rs, d) /\
     (rs_success rs = true -> rs_stages rs = [] /\ rs_worker_id rs = EmptyString \/
        exists g, rs_job_group_id rs = uuid_to_string (g_id g))) \/
  exists p id, reserve_plan fr st req = inr p /\ cached_group uuid_to_string st req p seen = None /\
    id ∈ candidates (compute_resource_needs st req) seen /\
    accepts (compute_resource_needs st req) (workers c) id = true /\
    commit_group regex_match uuid_to_string clk gid st req p (compute_resource_needs st req) id
      (allocated (compute_resource_needs st req) id c) = (r, c').
Proof.
  unfold do_reserve_worker. destruct (reserve_plan fr st req) as [[rs d]|p] eqn:Hp.
  { intros [= <- <-]. left. split; [done|]. exists rs, d. split; [done|]. intros Hs. left.
    unfold reserve_plan in Hp. repeat case_match; simplify_eq/=; done. }
  destruct (cached_group _ st req p seen) as [[rs d]|] eqn:Hcg.
  { intros [= <- <-]. left. split; [done|]. exists rs, d. split; [done|]. intros _. right.
    unfold cached_group in Hcg. repeat case_match; simplify_eq/=; eauto. }
  set (n := compute_resource_needs st req). unfold no_worker.
  repeat (case_match; [intros [= <- <-]; left; split; [done|]; by eexists _, _|]).
  pose proof (allocate_worker_cases n (candidates n seen) (workers c)) as Ha.
  destruct (allocate_worker n _ _) as [[id|] wr].
  - destruct Ha as (Hin & Hacc & -> & _). intros Hc. right. by exists p, id.
  - destruct Ha as [-> _]. intros [= <- <-]. left. destruct c. split; [done|]. by eexists _, _.
Qed.
End Outcome.

(** ** Properties *)

(** [id] can host the request, on unbounded integers. *)
Definition can_host (n : AllocatedResources) (wr : WorkerRegistry) (id : string) : Prop :=
  exists w, wr !! id = Some w /\
    (has_resource_req n = false \/ fits w (ar_cpu n) (ar_memory_mb n) (ar_disk_mb n)).

Lemma accepts_can_host n wr id :
  map_Forall (fun _ w => worker_wf w /\ needs_fit n w) wr -> accepts n wr id = true <-> can_host n wr id.
Proof.
  intros Hr. unfold accepts, can_host. destruct (wr !! id) as [w|] eqn:Hw; [|split; [done|by intros (? & [=] & _)]].
  destruct (Hr _ _ Hw) as [Hwf Hfit]. rewrite (allocate_eq w _ _ _ Hwf Hfit).
  rewrite orb_true_iff, negb_true_iff. split.
  - intros [H|H]; exists w; (split; [done|]); [by left|right]. by destruct (decide (fits w _ _ _)).
  - intros (w' & [= <-] & [H|H]); [by left|right]. by rewrite decide_True.
Qed.

Definition best_host (n : AllocatedResources) (wr : WorkerRegistry) (ids : list string) (id : string) : Prop :=
  id ∈ ids /\ can_host n wr id /\ forall x, x ∈ ids -> can_host n wr x -> preferred wr id x.

(** C11. The write-locked selection refines "the best candidate that can host the
    request". Suppose the workers' records are well-formed, with counters that
    the request (never negative) cannot overflow. Then, whatever
    the registry has become since the candidates were collected (workers gone,
    reserved or reconfigured), it picks a candidate that can host the request
    now and that no other such candidate beats in priority, then in free
    resources. That worker's counters go up by exactly the request (and stay
    within its caps, if the request asks for anything), and no other worker
    changes. It gives up, leaving the registry as it is, only when no candidate
    can host the request. *)
Theorem allocate_worker_refines_best_host (n : AllocatedResources) (ids : list string) (wr : WorkerRegistry) :
  map_Forall (fun _ w => worker_wf w /\ needs_fit n w) wr ->
  match allocate_worker n ids wr with
  | (Some id, wr') => best_host n wr ids id /\ charged n id wr wr'
  | (None, wr') => wr' = wr /\ forall x, x ∈ ids -> ~ can_host n wr x
  end.
Proof.
  intros Hr. pose proof (allocate_worker_cases n ids wr) as H.
  destruct (allocate_worker n ids wr) as [[id|] wr'].
  - destruct H as (Hin & Hacc & -> & Hbest). destruct (accepts_lookup _ _ _ Hacc) as [w Hw].
    destruct (Hr _ _ Hw) as [Hwf Hfit]. split.
    2: { apply (grant_charged n id wr w); [done..| |done]. destruct Hfit as (?&?&?&?&?&?). by intros []. }
    split_and!; [done|by apply accepts_can_host|]. intros x Hx Hh. apply Hbest; [done|by apply accepts_can_host].
  - destruct H as [-> H]. split; [done|]. intros x Hx. rewrite <- accepts_can_host by done.
    rewrite Forall_forall in H. by rewrite (H x Hx).
Qed.

Definition two_workers : WorkerRegistry :=
  {[ "a" := {| (sample_worker "a") with ws_allocated_cpu := 3 |}; "b" := sample_worker "b" ]}.

Definition need (cpu mem : Z) : AllocatedResources := {| ar_cpu := cpu; ar_memory_mb := mem; ar_disk_mb := 0 |}.

Lemma small_needs_fit n wid cpu :
  0 <= ar_cpu n < 1000 -> 0 <= ar_memory_mb n < 1000 -> 0 <= ar_disk_mb n < 1000 -> 0 <= cpu < 1000 ->
  worker_wf {| (sample_worker wid) with ws_allocated_cpu := cpu |} /\
  needs_fit n {| (sample_worker wid) with ws_allocated_cpu := cpu |}.
Proof.
  intros. split.
  - constructor; [apply sample_info_wf|unfold u32, u64; simpl; lia..].
  - unfold needs_fit, no_overflow. simpl. lia.
Qed.

(** "a" was a candidate but has no room any more; "b" is charged. *)
Lemma allocate_worker_refines_best_host_witness :
  let '(o, wr') := allocate_worker (need 2 10) ["a"; "b"] two_workers in
  o = Some "b" /\ best_host (need 2 10) two_workers ["a"; "b"] "b" /\ charged (need 2 10) "b" two_workers wr'.
Proof.
  assert (Hr : map_Forall (fun _ w => worker_wf w /\ needs_fit (need 2 10) w) two_workers).
  { apply map_Forall_insert_2; [apply (small_needs_fit _ "a" 3); simpl; lia|].
    apply map_Forall_singleton. apply (small_needs_fit _ "b" 0); simpl; lia. }
  pose proof (allocate_worker_refines_best_host (need 2 10) ["a"; "b"] two_workers Hr) as H.
  assert (E : (allocate_worker (need 2 10) ["a"; "b"] two_workers).1 = Some "b") by (vm_compute; reflexivity).
  destruct (allocate_worker _ _ two_workers) as [o wr']. simpl in E. subst o. split; [reflexivity|exact H].
Defined.

(** What a successful reservation leaves behind. *)
Definition reserved_for (gid : Uuid) (n : AllocatedResources) (rs : ReserveWorkerResponse) (c c' : Controller) : Prop :=
  charged n (rs_worker_id rs) (workers c) (workers c') /\
  exists g, jgroups c' = add_group g (jgroups c) /\ g_id g = gid /\ g_state g = GReserved /\
    g_reserved_worker_id g = Some (rs_worker_id rs) /\ g_allocated_resources g = n /\
    g_reserved_stages g = si_stage_name <$> rs_stages rs.

Lemma stage_names deps (l : list string) : si_stage_name <$> (build_stage_info deps <$> l) = l.
Proof. induction l as [|s l IH]; [done|]. by rewrite !fmap_cons, IH. Qed.

(** C3. A reservation keeps the books. Suppose every worker's counters equal the
    sum over its active groups, the workers' records are well-formed with
    counters that the request's needs cannot overflow, and the id drawn for the
    group is fresh. Then, for any answers of the database and any earlier view
    of the workers, a call that does not end in an error either changes nothing,
    or succeeds: it adds one [Reserved] group under the fresh id, on the worker
    it names, with the granted stages and the request's needs as its
    allocation; that worker's counters went up by exactly those needs (and are
    within its caps, when the needs are not all zero: a request without needs
    is placed whatever the caps have become), and no other worker's record
    changed. In both cases every worker's counters are again the sum over its
    active groups. *)
Theorem reserve_keeps_ledger `{HI : HashIter} (regex_match : string -> string -> option bool)
    (uuid_to_string : Uuid -> string) (clk : clock) (gid fresh_repo : Uuid) (st : option Answers)
    (req : ReserveWorkerRequest) (seen : WorkerRegistry) (c c' : Controller)
    (rs : ReserveWorkerResponse) (dropped : list string) :
  balanced c -> roomy (compute_resource_needs st req) c -> groups (jgroups c) !! gid = None ->
  do_reserve_worker regex_match uuid_to_string clk gid fresh_repo st req seen c = (Ok (rs, dropped), c') ->
  balanced c' /\
  (c' = c \/ (rs_success rs = true /\ reserved_for gid (compute_resource_needs st req) rs c c')).
Proof.
  intros Hb Hr Hnew E. apply do_reserve_worker_cases in E as [[-> _]|(p & id & _ & _ & _ & Hacc & E)]; [by auto|].
  set (n := compute_resource_needs st req) in *.
  apply commit_group_cases in E as (Ew & Ej & _ & ->). set (g := new_group clk gid req p n id) in *. split.
  - apply balanced_accounted. rewrite balanced_accounted in Hb.
    apply (accounted_books _ (with_groups (add_group g) (allocated n id c))); [done|by rewrite Ej|].
    apply (add_group_accounted _ n id); [|done..]. apply allocated_accounted; [done|done|apply needs_nonneg|done].
  - right. split; [done|]. destruct (accepts_lookup _ _ _ Hacc) as [w0 Hw0]. destruct (Hr _ _ Hw0) as [Hwf Hfit].
    split; [rewrite Ew; by apply (grant_charged n id _ w0 Hw0 Hwf Hfit (needs_nonneg st req))|].
    exists g. split_and!; try done. symmetry. apply stage_names.
Qed.

(** A refused reservation leaks: whenever the handler ends in an error
    (blacklisted branch, concurrency limit, dependency cycle), it has already
    charged a worker with the request's needs and no group accounts for them:
    the worker's counters stay above the ledger by exactly the needs, until the
    reconciler runs. *)
Theorem refused_reservation_leaks `{HI : HashIter} (regex_match : string -> string -> option bool)
    (uuid_to_string : Uuid -> string) (clk : clock) (gid fresh_repo : Uuid) (st : option Answers)
    (req : ReserveWorkerRequest) (seen : WorkerRegistry) (c c' : Controller) (status : Status) :
  balanced c -> roomy (compute_resource_needs st req) c ->
  do_reserve_worker regex_match uuid_to_string clk gid fresh_repo st req seen c = (Err status, c') ->
  jgroups c' = jgroups c /\
  exists id w, workers c' !! id = Some w /\
    forall k, counter k w = ledger k id (jgroups c') + amount k (compute_resource_needs st req).
Proof.
  intros Hb Hr E. apply do_reserve_worker_cases in E as [[_ (rs & d & [=] & _)]|(p & id & _ & _ & _ & Hacc & E)].
  set (n := compute_resource_needs st req) in *.
  apply balanced_accounted in Hb.
  pose proof (allocated_accounted _ n id c Hb Hr (needs_nonneg st req) Hacc) as Hp.
  apply commit_group_cases in E as (Ew & Ej & _). split; [done|].
  apply (accounted_books _ _ c') in Hp; [|done|by rewrite Ej].
  destruct (accepts_lookup _ _ _ Hacc) as [w0 Hw0]. destruct (Hr _ _ Hw0) as [Hwf Hfit].
  destruct (grant_lookup n id _ w0 Hw0 Hwf Hfit (needs_nonneg st req) Hacc) as (w & Hw & _).
  assert (Hw' : workers c' !! id = Some w) by (by rewrite Ew).
  exists id, w. split; [done|]. intros k. destruct (Hp id w k Hw') as [-> _].
  unfold bump, no_surplus. rewrite decide_True by done. lia.
Qed.

(** The reconciler races with reservations: if it runs between the section
    that charges the worker and the one that records the group, it erases the
    charge (no group accounts for it yet), and once the group is recorded the
    worker's counters are below the ledger by the group's whole allocation. *)
Theorem reconcile_erases_reservation `{HI : HashIter} (regex_match : string -> string -> option bool)
    (uuid_to_string : Uuid -> string) (clk : clock) (gid : Uuid) (st : option Answers) (req : ReserveWorkerRequest)
    (p : plan) (n : AllocatedResources) (id : string) (c c' : Controller) (out : ReserveWorkerResponse * list string) :
  keys_match (workers (allocated n id c)) -> allocs_ok (jgroups c) -> ledger_fits (jgroups c) ->
  groups (jgroups c) !! gid = None -> accepts n (workers c) id = true ->
  commit_group regex_match uuid_to_string clk gid st req p n id (reconcile_worker_allocations (allocated n id c))
    = (Ok out, c') ->
  exists w, workers c' !! id = Some w /\ forall k, counter k w = ledger k id (jgroups c') - amount k n.
Proof.
  intros Hk Hok Hfit Hnew Hacc E.
  pose proof (reconcile_lookup (allocated n id c) id Hk Hok (fun k => Hfit k id)) as El.
  apply commit_group_cases in E as (Ew & Ej). destruct out as [rs d]. destruct Ej as [Ej _].
  assert (Hw : exists w, workers (allocated n id c) !! id = Some w).
  { unfold accepts in Hacc. destruct (workers c !! id) as [w|] eqn:Hw; [|done]. simpl. unfold grant.
    destruct (has_resource_req n); [|eauto]. rewrite lookup_alter_eq, Hw. simpl. eauto. }
  destruct Hw as [w Hw]. rewrite Hw in El. simpl fmap in El. rewrite Ew. eexists. split; [exact El|].
  intros k. rewrite Ej.
  assert (Hl : ledger k id (add_group (new_group clk gid req p n id) (jgroups c)) =
               amount k n + ledger k id (jgroups c)).
  { unfold ledger. simpl groups. rewrite total_insert_new by done. f_equal.
    unfold charge. by rewrite bool_decide_eq_true_2. }
  change (jgroups (reconcile_worker_allocations (allocated n id c))) with (jgroups c). rewrite Hl.
  change (jgroups (allocated n id c)) with (jgroups c).
  destruct (set_alloc_counters (ledger CPU id (jgroups c)) (ledger MEM id (jgroups c)) (ledger DISK id (jgroups c)) w)
    as (_ & H1 & H2 & H3). destruct k; [etrans; [exact H1|]|etrans; [exact H2|]|etrans; [exact H3|]]; lia.
Qed.

(** ** Retries *)

(** Two database states that agree on the request's repo and stages. *)
Definition same_config (db db' : Answers) : Prop :=
  get_repo_by_name db' = get_repo_by_name db /\ get_stage_configs db' = get_stage_configs db /\
  get_stage_dependencies db' = get_stage_dependencies db.

Lemma reserve_plan_same fr fr' db db' req p :
  same_config db db' -> reserve_plan fr (Some db) req = inr p ->
  exists p', reserve_plan fr' (Some db') req = inr p' /\ pl_effective p' = pl_effective p /\
    pl_dropped p' = pl_dropped p /\ pl_deps p' = pl_deps p.
Proof.
  unfold reserve_plan. intros (E1 & E2 & E3). rewrite E1, E2, E3.
  destruct (get_repo_by_name db) as [[repo|]|]; [|done|];
    (destruct (if bool_decide (rq_stages req = []) then _ else _) as [eff dr];
     destruct (_ && _); [done|]; intros [= <-]; by eexists).
Qed.

(** Retrying with the same idempotency key is harmless: once a reservation
    has recorded its group, a second call with the same request, while the
    database finds that group under the key and the worker is still connected,
    returns the same group, worker, stages and skipped stages, and changes
    nothing, whatever the controller and the workers look like by then. *)
Theorem retry_returns_reservation `{HI : HashIter} (regex_match : string -> string -> option bool)
    (uuid_to_string : Uuid -> string) (clk clk' : clock) (gid gid' fr fr' : Uuid) (db db' : Answers)
    (req : ReserveWorkerRequest) (seen seen' : WorkerRegistry) (c c1 c2 : Controller)
    (rs : ReserveWorkerResponse) (dropped : list string) (g : JobGroup) (w : WorkerState) :
  do_reserve_worker regex_match uuid_to_string clk gid fr (Some db) req seen c = (Ok (rs, dropped), c1) ->
  groups (jgroups c) !! gid = None -> groups (jgroups c1) !! gid = Some g ->
  rq_idempotency_key req <> EmptyString -> same_config db db' -> find_by_idempotency_key db' = Ok (Some g) ->
  seen' !! rs_worker_id rs = Some w -> ws_status w = Connected ->
  do_reserve_worker regex_match uuid_to_string clk' gid' fr' (Some db') req seen' c2 =
    (Ok (reply (rs_job_group_id rs) (rs_worker_id rs) (rs_stages rs) true
           "Existing active group returned (idempotency key match)", dropped), c2).
Proof.
  intros E Hnew Hg Hkey Hcfg Hfind Hw Hconn.
  apply do_reserve_worker_cases in E as [[-> _]|(p & id & Hp & _ & _ & _ & E)]; [congruence|].
  apply commit_group_cases in E as (_ & Ej & -> & ->). rewrite Ej in Hg. simpl in Hg.
  rewrite lookup_insert_eq in Hg. injection Hg as <-. simpl in Hw.
  destruct (reserve_plan_same fr fr' db db' req p Hcfg Hp) as (p' & Hp' & H1 & H2 & H3).
  unfold do_reserve_worker. rewrite Hp'. unfold cached_group. rewrite bool_decide_eq_false_2 by done.
  rewrite Hfind. simpl. rewrite Hw, Hconn, bool_decide_eq_true_2 by done. by rewrite H1, H2, H3.
Qed.

(** ** A concrete call *)

Definition sample_request : ReserveWorkerRequest := {|
  rq_repo_name := "api"; rq_repo_url := ""; rq_branch := "main"; rq_commit_sha := "c0ffee";
  rq_stages := ["build"; "checkout-scm"]; rq_priority := 0; rq_idempotency_key := "k1"
|}.

Definition sample_repo : Repo := {|
  repo_id := 1%N; repo_name := "api"; repo_url := ""; max_concurrent_builds := 2; cancel_superseded := false;
  global_pre_script := None; global_pre_script_scope := "worker"; global_pre_script_lock_enabled := false;
  global_pre_script_lock_key := None; global_pre_script_lock_timeout_secs := 60; global_post_script := None; global_post_script_scope := "worker"; global_post_script_lock_enabled := false; global_post_script_lock_key := None; global_post_script_lock_timeout_secs := 120
|}.

Definition sample_stage : StageConfig := {|
  sc_id := 2%N; sc_repo_id := 1%N; sc_stage_name := "build"; sc_command := Some "make"; sc_required_cpu := 3;
  sc_required_memory_mb := 100; sc_required_disk_mb := 0; sc_max_duration_secs := 0; sc_execution_order := 0;
  sc_parallel_group := None; sc_allow_worker_migration := false; sc_job_type := "common"; sc_depends_on := [];
  sc_required_labels := []; sc_max_retries := 0; sc_command_mode := "fixed"; sc_created_at := 0; sc_updated_at := 0
|}.

(** A database with [active] groups of the repo, whose stage [build] needs 3
    CPUs; [deps] are the stage dependencies. *)
Definition sample_answers (active : Z) (deps : gmap string (list string)) (found : option JobGroup) : Answers :=
  let cfg := [sample_stage] in {|
  get_repo_by_name := Ok (Some sample_repo);
  get_stage_configs := Ok cfg;
  get_stage_dependencies := Ok deps;
  find_by_idempotency_key := Ok found;
  needs_repo := Ok (Some sample_repo);
  needs_configs := Ok cfg;
  branch_blacklist := Ok [];
  count_active_groups := Ok active;
  find_superseded_groups := Ok [];
  recount_active_groups := Ok active
|}.

Definition idle_controller : Controller := {|
  workers := {[ "w" := sample_worker "w" ]}; jobs := JobRegistry_new; jgroups := JobGroupRegistry_new;
  logs := LogAggregator_new None; job_stream_senders := {[ "w" := true ]};
  token_hashes := ∅; has_storage := true; has_redis := false; effects := []
|}.

Lemma idle_balanced : balanced idle_controller.
Proof.
  intros wid w k Hw. simpl in Hw. apply lookup_singleton_Some in Hw as [<- <-].
  destruct k; split; vm_compute; reflexivity.
Qed.

Lemma idle_roomy active deps found : roomy (compute_resource_needs (Some (sample_answers active deps found)) sample_request) idle_controller.
Proof. apply map_Forall_singleton. apply (small_needs_fit _ "w" 0); vm_compute; split; congruence. Qed.

Definition sample_call (active : Z) (deps : gmap string (list string)) (found : option JobGroup) (c : Controller)
    : Reply * Controller :=
  do_reserve_worker (HI := map_iter) (fun _ _ => None) (fun _ => "gid") (fun _ => 9) 5%N 6%N
    (Some (sample_answers active deps found)) sample_request (workers idle_controller) c.

Definition response_of (r : Reply) : ReserveWorkerResponse :=
  match r with Ok (rs, _) => rs | Err _ => reply "" "" [] false "" end.

Lemma reserve_keeps_ledger_witness :
  let c' := (sample_call 0 ∅ None idle_controller).2 in
  balanced c' /\ (counter CPU <$> workers c' !! "w") = Some 3 /\ ledger CPU "w" (jgroups c') = 3.
Proof.
  intros c'. assert (E : (counter CPU <$> workers c' !! "w") = Some 3) by (vm_compute; reflexivity).
  split; [|split; [exact E|vm_compute; reflexivity]].
  apply (reserve_keeps_ledger (HI := map_iter) (fun _ _ => None) (fun _ => "gid") (fun _ => 9) 5%N 6%N
    (Some (sample_answers 0 ∅ None)) sample_request (workers idle_controller) idle_controller c'
    (response_of (sample_call 0 ∅ None idle_controller).1) ["checkout-scm"] idle_balanced (idle_roomy 0 ∅ None)).
  - vm_compute. reflexivity.
  - vm_compute. reflexivity.
Defined.

Definition self_dependency : gmap string (list string) := {[ "build" := ["build"] ]}.

(** The stage depends on itself: refused, with the worker charged. *)
Lemma refused_reservation_leaks_witness :
  let c' := (sample_call 0 self_dependency None idle_controller).2 in
  jgroups c' = JobGroupRegistry_new /\ exists id w, workers c' !! id = Some w /\ counter CPU w = ledger CPU id (jgroups c') + 3.
Proof.
  intros c'. destruct (refused_reservation_leaks (HI := map_iter) (fun _ _ => None) (fun _ => "gid") (fun _ => 9) 5%N 6%N
    (Some (sample_answers 0 self_dependency None)) sample_request (workers idle_controller) idle_controller c'
    (invalid_argument "Stage dependency cycle detected involving 'build'")
    idle_balanced (idle_roomy 0 self_dependency None) ltac:(vm_compute; reflexivity)) as (Hj & id & w & Hw & Hk).
  split; [exact Hj|]. exists id, w. split; [exact Hw|exact (Hk CPU)].
Defined.

Definition sample_plan : plan := {|
  pl_repo_id := 1%N; pl_max_concurrent := 0; pl_cancel_superseded := false; pl_effective := ["build"];
  pl_dropped := []; pl_deps := ∅
|}.

(** Two reservations of 3 CPUs on a worker whose cap is 4: the first is erased
    while it is pending, and the second is granted. *)
Lemma reconcile_erases_reservation_witness :
  let commit gid c := commit_group (HI := map_iter) (fun _ _ => None) (fun _ => "gid") (fun _ => 9) gid None
                        sample_request sample_plan (need 3 0) "w" c in
  let c1 := (commit 5%N (reconcile_worker_allocations (HI := map_iter) (allocated (need 3 0) "w" idle_controller))).2 in
  let c2 := (commit 6%N {| c1 with workers := (allocate_worker (need 3 0) ["w"] (workers c1)).2 |}).2 in
  (exists w, workers c1 !! "w" = Some w /\ counter CPU w = ledger CPU "w" (jgroups c1) - 3) /\
  (allocate_worker (need 3 0) ["w"] (workers c1)).1 = Some "w" /\
  ledger CPU "w" (jgroups c2) = 6 /\ (cpu_cap <$> workers c2 !! "w") = Some 4.
Proof.
  intros commit c1 c2. split; [|vm_compute; split_and!; reflexivity].
  destruct (reconcile_erases_reservation (HI := map_iter) (fun _ _ => None) (fun _ => "gid") (fun _ => 9) 5%N None
    sample_request sample_plan (need 3 0) "w" idle_controller c1
    (reply "gid" "w" [build_stage_info ∅ "build"] true "Worker reserved successfully", [])) as (w & Hw & Hk).
  - intros id w Hw. unfold allocated, with_workers, idle_controller, grant in Hw. cbn [workers] in Hw.
    apply lookup_alter_Some in Hw as [(<- & w0 & Hw & ->)|[Hne Hw]];
      apply lookup_singleton_Some in Hw as [Hid <-]; [reflexivity|by destruct Hne].
  - apply map_Forall_empty.
  - intros [] wid; vm_compute; reflexivity.
  - reflexivity.
  - vm_compute. reflexivity.
  - vm_compute. reflexivity.
  - exists w. split; [exact Hw|exact (Hk CPU)].
Defined.

Lemma retry_returns_reservation_witness :
  let '(r1, c1) := sample_call 0 ∅ None idle_controller in
  let g := groups (jgroups c1) !! 5%N in
  match sample_call 1 ∅ g c1 with
  | (Ok (rs, dropped), c2) => rs_worker_id rs = "w" /\ dropped = ["checkout-scm"] /\ c2 = c1
  | (Err _, _) => False
  end.
Proof.
  destruct (sample_call 0 ∅ None idle_controller) as [r1 c1] eqn:E.
  assert (Hr : r1 = Ok (response_of r1, ["checkout-scm"])).
  { change r1 with (r1, c1).1. rewrite <- E. vm_compute. reflexivity. }
  assert (Hg : exists g, groups (jgroups c1) !! 5%N = Some g).
  { change c1 with (r1, c1).2. rewrite <- E. vm_compute. eauto. }
  assert (Hw : rs_worker_id (response_of r1) = "w") by (change r1 with (r1, c1).1; rewrite <- E; vm_compute; reflexivity).
  destruct Hg as [g Hg]. cbv zeta. rewrite Hg. unfold sample_call at 1.
  rewrite (retry_returns_reservation (HI := map_iter) (fun _ _ => None) (fun _ => "gid") (fun _ => 9) (fun _ => 9) 5%N 5%N
    6%N 6%N (sample_answers 0 ∅ None) (sample_answers 1 ∅ (Some g)) sample_request (workers idle_controller)
    (workers idle_controller) idle_controller c1 c1 (response_of r1) ["checkout-scm"] g (sample_worker "w")).
  - cbn [rs_worker_id reply]. split; [exact Hw|split; reflexivity].
  - etrans; [exact E|]. by rewrite <- Hr.
  - reflexivity.
  - exact Hg.
  - discriminate.
  - by split_and!.
  - reflexivity.
  - rewrite Hw. reflexivity.
  - reflexivity.
Defined.
