(* ===== verification/Session.v ===== *)
(** * Workers' sessions and clients' requests
    (the [Orchestrator] handlers register, heartbeat, job_stream, reconnect,
    get_job_status, submit_job, cancel_job and get_job_group_status of
    crates/ci-controller/src/grpc_server.rs, its [auth_interceptor] and
    [dispatch_global_post_script], and [upsert_worker] of storage.rs)

    A handler takes the answers of the database ([None] when there is none) and
    returns its reply with the new state. The hash of a token, the version-5
    UUID of a string and the spellings of ids are parameters; the random part of
    a new token is an argument. *)

From Stdlib Require Import ZArith Lia.
From stdpp Require Import gmap strings list fin_maps pretty sets.
From S2P Require Import Prelude Text Config F64 WorkerModel JobModel StageModel Scheduler WorkerRegistry JobRegistry JobGroupRegistry.
From S2P Require Import LogStreamer StageRunner Reconnect Agent LogAggregator Controller Dispatch Reservation.

(** ** auth_interceptor *)

(** [authorization] is the header when it is present and printable. *)
Definition auth_interceptor (sha256_hex : string -> string) (config : AuthConfig) (token_hashes : gset string)
    (authorization : option string) : result unit Status :=
  if negb (auth_enabled config) then Ok tt
  else
    let auth := default EmptyString authorization in
    let bearer := default EmptyString (strip_prefix "Bearer " auth) in
    if starts_with "chola_svc_" bearer || starts_with "chola_wkr_" bearer then
      if bool_decide (sha256_hex bearer ∈ token_hashes) then Ok tt else Err (unauthenticated "Invalid token")
    else
      let token := default EmptyString (auth_token config) in
      if negb (bool_decide (token = EmptyString)) && bool_decide (auth = ("Bearer " +:+ token)%string) then Ok tt
      else Err (unauthenticated "Valid token required (chola_wkr_ or chola_svc_)").

(** ** Registration *)

Record RegisterResponse := {
  rg_accepted : bool;
  rg_message : string;
  rg_heartbeat_interval_secs : Z;
  rg_worker_token : string;
  rg_assigned_worker_id : string
}.

Record RegisterAnswers := {
  get_token_worker_id : result (option string) string;
  get_worker_by_token_hash : result (option WorkerRow) string;
  get_worker_row : string -> result (option WorkerRow) string;
  validate_registration_token : result Uuid string;
  upsert_result : WorkerRow -> result WorkerRow string
}.

(** The limits an administrator set, for [update_priority_limits]. *)
Definition row_limits (row : WorkerRow) : LimitUpdate := {|
  lu_priority := Some (wk_priority row);
  lu_max_cpu := Some (as_u32 <$> wk_max_cpu row);
  lu_max_memory_mb := Some (as_u64 <$> wk_max_memory_mb row);
  lu_max_disk_mb := Some (as_u64 <$> wk_max_disk_mb row);
  lu_max_cpu_percent := Some (wk_max_cpu_percent row);
  lu_max_memory_percent := Some (wk_max_memory_percent row);
  lu_max_disk_percent := Some (wk_max_disk_percent row)
|}.

Definition new_worker_row (clk : clock) (req : RegisterRequest) (hash : string) (token_id : Uuid) : WorkerRow := {|
  wk_worker_id := rr_worker_id req;
  wk_hostname := Some (rr_hostname req);
  wk_total_cpu := Some (as_i32 (rr_total_cpu req));
  wk_total_memory_mb := Some (as_i64 (rr_total_memory_mb req));
  wk_total_disk_mb := Some (as_i64 (rr_total_disk_mb req));
  wk_disk_type := Some (rr_disk_type req);
  wk_supported_job_types := Some (rr_supported_job_types req);
  wk_docker_enabled := rr_docker_enabled req;
  wk_status := "connected";
  wk_last_heartbeat_at := Some (clk 0%nat);
  wk_registered_at := clk 1%nat;
  wk_labels := Some (rr_labels req);
  wk_system_info := None;
  wk_worker_token_hash := Some hash;
  wk_registration_token_id := Some token_id;
  wk_approved := true;
  wk_description := None;
  wk_priority := 0;
  wk_max_cpu := None;
  wk_max_memory_mb := None;
  wk_max_disk_mb := None;
  wk_max_cpu_percent := None;
  wk_max_memory_percent := None;
  wk_max_disk_percent := None
|}.

Definition or_else {A : Type} (a b : option A) : option A := match a with Some _ => a | None => b end.

(** The [ON CONFLICT] clause of [upsert_worker]: the row there is afterwards. A
    column that is not assigned keeps its value; [COALESCE] is [or_else], except
    for the priority, which is never NULL. *)
Definition upsert_worker (existing : option WorkerRow) (excluded : WorkerRow) : WorkerRow :=
  match existing with
  | None => excluded
  | Some old => {| old with
      wk_hostname := wk_hostname excluded;
      wk_total_cpu := wk_total_cpu excluded;
      wk_total_memory_mb := wk_total_memory_mb excluded;
      wk_total_disk_mb := wk_total_disk_mb excluded;
      wk_disk_type := wk_disk_type excluded;
      wk_supported_job_types := wk_supported_job_types excluded;
      wk_docker_enabled := wk_docker_enabled excluded;
      wk_status := wk_status excluded;
      wk_last_heartbeat_at := wk_last_heartbeat_at excluded;
      wk_labels := wk_labels excluded;
      wk_worker_token_hash := or_else (wk_worker_token_hash excluded) (wk_worker_token_hash old);
      wk_registration_token_id := or_else (wk_registration_token_id excluded) (wk_registration_token_id old);
      wk_description := or_else (wk_description excluded) (wk_description old);
      wk_priority := wk_priority excluded;
      wk_max_cpu := or_else (wk_max_cpu excluded) (wk_max_cpu old);
      wk_max_memory_mb := or_else (wk_max_memory_mb excluded) (wk_max_memory_mb old);
      wk_max_disk_mb := or_else (wk_max_disk_mb excluded) (wk_max_disk_mb old);
      wk_max_cpu_percent := or_else (wk_max_cpu_percent excluded) (wk_max_cpu_percent old);
      wk_max_memory_percent := or_else (wk_max_memory_percent excluded) (wk_max_memory_percent old);
      wk_max_disk_percent := or_else (wk_max_disk_percent excluded) (wk_max_disk_percent old) |}
  end.

Section Register.
Context `{HI : HashIter} (sha256_hex : string -> string).

(** The section under the registry's lock. *)
Definition enroll (now : timestamp) (worker_id : string) (req : RegisterRequest) (limits : option WorkerRow) (c : Controller)
    : Controller :=
  with_workers (fun wr =>
    let wr1 := register_with_id now worker_id req wr in
    let wr2 := match limits with Some row => (update_priority_limits worker_id (row_limits row) wr1).2 | None => wr1 end in
    restore_allocations worker_id (jgroups c) wr2) c.

Definition cache_token (hash : string) (c : Controller) : Controller := {| c with token_hashes := {[ hash ]} ∪ token_hashes c |}.

Definition register_reply (hb_interval : Z) (msg token worker_id : string) : RegisterResponse :=
  {| rg_accepted := true; rg_message := msg; rg_heartbeat_interval_secs := hb_interval; rg_worker_token := token;
     rg_assigned_worker_id := worker_id |}.

(** Flow B: a permanent worker token. *)
Definition bound_worker (a : RegisterAnswers) : result string Status :=
  match get_token_worker_id a with
  | Err e => Err (internal ("Token lookup failed: " +:+ e)%string)
  | Ok (Some id) => Ok id
  | Ok None =>
      match get_worker_by_token_hash a with
      | Ok (Some row) => Ok (wk_worker_id row)
      | Ok None => Err (unauthenticated "Invalid worker token")
      | Err e => Err (internal ("Worker lookup failed: " +:+ e)%string)
      end
  end.

Definition approved_row (a : RegisterAnswers) (worker_id : string) : result (option WorkerRow) Status :=
  match get_worker_row a worker_id with
  | Ok (Some row) => if negb (wk_approved row) then Err (permission_denied "Worker is not approved") else Ok (Some row)
  | Ok None => Ok None
  | Err e => Err (internal ("Worker approval check failed: " +:+ e)%string)
  end.

Definition register_with_token (clk : clock) (hb_interval : Z) (a : RegisterAnswers) (req : RegisterRequest) (c : Controller)
    : result RegisterResponse Status * Controller :=
  match (let? worker_id := bound_worker a in let? row := approved_row a worker_id in Ok (worker_id, row)) with
  | Err e => (Err e, c)
  | Ok (worker_id, row) =>
      (Ok (register_reply hb_interval "Worker authenticated" EmptyString worker_id),
       enroll (clk 0%nat) worker_id req row (cache_token (sha256_hex (rr_worker_token req)) c))
  end.

(** Flow A: a one-time registration token; [random_hex] is the random part of
    the token drawn for the worker. *)
Definition register_first (clk : clock) (hb_interval : Z) (random_hex : string) (a : RegisterAnswers) (req : RegisterRequest)
    (c : Controller) : result RegisterResponse Status * Controller :=
  match validate_registration_token a with
  | Err e => (Err (unauthenticated ("Invalid or expired registration token: " +:+ e)%string), c)
  | Ok token_id =>
      let worker_token := ("chola_wkr_" +:+ random_hex)%string in
      let hash := sha256_hex worker_token in
      let row := new_worker_row clk req hash token_id in
      match upsert_result a row with
      | Err e => (Err (internal ("Failed to persist worker: " +:+ e)%string), c)
      | Ok persisted =>
          let c1 := emit [DbUpsertWorker row; DbTokenUse token_id] (cache_token hash c) in
          (Ok (register_reply hb_interval "Worker registered successfully" worker_token (rr_worker_id req)),
           enroll (clk 2%nat) (rr_worker_id req) req (Some persisted) c1)
      end
  end.

(** [storage] is [None] without a database. *)
Definition register (clk : clock) (auth : AuthConfig) (hb_interval : Z) (random_hex : string) (storage : option RegisterAnswers)
    (req : RegisterRequest) (c : Controller) : result RegisterResponse Status * Controller :=
  match storage with
  | Some a =>
      if negb (bool_decide (rr_worker_token req = EmptyString)) then register_with_token clk hb_interval a req c
      else if negb (bool_decide (rr_registration_token req = EmptyString)) then register_first clk hb_interval random_hex a req c
      else if auth_enabled auth then (Err (unauthenticated "Registration token required"), c)
      else (Ok (register_reply hb_interval "Worker registered (no auth)" EmptyString (rr_worker_id req)),
            enroll (clk 0%nat) (rr_worker_id req) req None c)
  | None =>
      if auth_enabled auth then (Err (unauthenticated "Registration token required"), c)
      else (Ok (register_reply hb_interval "Worker registered (no auth)" EmptyString (rr_worker_id req)),
            enroll (clk 0%nat) (rr_worker_id req) req None c)
  end.
End Register.

(** ** heartbeat and job_stream *)

(** The task reads heartbeats until the acknowledgement [n] cannot be sent. *)
Fixpoint heartbeat (clk : clock) (acked : nat -> bool) (n : nat) (msgs : list HeartbeatMessage) (c : Controller) : Controller :=
  match msgs with
  | [] => c
  | msg :: msgs' =>
      let c1 := with_workers (update_heartbeat (clk n) msg) c in
      if acked n then heartbeat clk acked (S n) msgs' c1 else c1
  end.

(** A second stream is refused while the first is open. *)
Definition open_job_stream (worker_id : string) (c : Controller) : result unit Status * Controller :=
  match job_stream_senders c !! worker_id with
  | Some true => (Err (already_exists ("Worker " +:+ worker_id +:+ " already has an active connection")%string), c)
  | _ => (Ok tt, {| c with job_stream_senders := <[worker_id := true]> (job_stream_senders c) |})
  end.

(** The end of the stream's task. *)
Definition close_job_stream (worker_id : string) (c : Controller) : Controller :=
  {| c with job_stream_senders := delete worker_id (job_stream_senders c) |}.

(** ** reconnect *)

Definition worker_bearer (authorization : option string) : option string :=
  match authorization ≫= strip_prefix "Bearer " with
  | Some token => if starts_with "chola_wkr_" token || starts_with "chola_svc_" token then Some token else None
  | None => None
  end.

(** The token must be bound to the worker it claims to be; [bound] is the
    database's answer for its hash. *)
Definition check_binding (authorization : option string) (bound : option (result (option string) string)) (worker_id : string)
    : result unit Status :=
  match worker_bearer authorization, bound with
  | Some _, Some (Ok (Some id)) =>
      if bool_decide (id = worker_id) then Ok tt
      else Err (permission_denied ("Token is bound to worker '" +:+ id +:+ "', not '" +:+ worker_id +:+ "'")%string)
  | Some _, Some (Err e) => Err (internal ("Token identity check failed: " +:+ e)%string)
  | _, _ => Ok tt
  end.

Definition log_resumes (worker_id : string) (running : list RunningJobInfo) (js : JobRegistry) (l : LogAggregator)
    : list LogResumeDirective :=
  omap (fun r =>
    job ← get_job (rj_job_id r) js;
    if bool_decide (j_assigned_worker job = Some worker_id)
    then Some {| lr_job_id := rj_job_id r; lr_resume_from_offset := last_offset (rj_job_id r) l |} else None) running.

Definition reconnect (authorization : option string) (bound : option (result (option string) string)) (req : ReconnectRequest)
    (c : Controller) : result ReconnectResponse Status * Controller :=
  match check_binding authorization bound (rq_worker_id req) with
  | Err e => (Err e, c)
  | Ok _ =>
      let c1 := with_workers (mark_reconnected (rq_worker_id req)) c in
      (Ok {| rp_log_resumes := log_resumes (rq_worker_id req) (rq_running_jobs req) (Controller.jobs c1) (logs c1);
             rp_accepted := true; rp_message := "Reconnection accepted" |}, c1)
  end.

(** ** Jobs submitted on their own *)

Record SubmitJobRequest := {
  sj_job_id : string;
  sj_command : string;
  sj_job_type : string;
  sj_required_cpu : Z;
  sj_required_memory_mb : Z;
  sj_required_disk_mb : Z;
  sj_isolation_required : bool;
  sj_branch_id : string;
  sj_environment : gmap string string
}.

Record SubmitJobResponse := {
  so_accepted : bool;
  so_message : string;
  so_job_id : string
}.

Definition job_type_of (s : string) : JobType :=
  if bool_decide (s = "heavy") then JTHeavy
  else if bool_decide (s = "nix") then JTNix
  else if bool_decide (s = "test") then JTTest
  else JTCommon.

(** [uuid_v5] is the version-5 UUID in the OID namespace. *)
Section Jobs.
Context (uuid_v5 : string -> Uuid) (uuid_to_string : Uuid -> string).

Definition adhoc_job (now : timestamp) (peer : string) (req : SubmitJobRequest) : Job :=
  {| (Job_new now (sj_job_id req) (sj_command req) (job_type_of (sj_job_type req)) (sj_required_cpu req)
        (sj_required_memory_mb req) (sj_required_disk_mb req)) with
     j_isolation_required := sj_isolation_required req;
     j_branch_id := non_empty (sj_branch_id req);
     j_environment := sj_environment req;
     j_submitter_connection_id := Some peer;
     j_job_group_id := Some (uuid_v5 (sj_job_id req)) |}.

Definition adhoc_group (now : timestamp) (req : SubmitJobRequest) : JobGroup :=
  JobGroup_new_with_id now (uuid_v5 (sj_job_id req)) None (non_empty (sj_branch_id req)) None "cli".

Definition db_job_id (req : SubmitJobRequest) : Uuid := uuid_v5 ("job-" +:+ sj_job_id req)%string.

Definition adhoc_db_job (now : timestamp) (req : SubmitJobRequest) : DbJob := {|
  dj_id := uuid_to_string (db_job_id req);
  dj_job_group_id := uuid_v5 (sj_job_id req);
  dj_stage_config_id := None;
  dj_stage_name := "default";
  dj_command := sj_command req;
  dj_pre_script := None;
  dj_post_script := None;
  dj_worker_id := None;
  dj_state := "queued";
  dj_exit_code := None;
  dj_pre_exit_code := None;
  dj_post_exit_code := None;
  dj_log_path := None;
  dj_started_at := None;
  dj_completed_at := None;
  dj_retry_count := 0;
  dj_status_reason := None;
  dj_created_at := now;
  dj_updated_at := now
|}.

Definition submit_job (clk : clock) (peer : string) (req : SubmitJobRequest) (c : Controller) : SubmitJobResponse * Controller :=
  let gid := uuid_v5 (sj_job_id req) in
  let job := adhoc_job (clk 0%nat) peer req in
  let c1 := {| c with
    jgroups := add_job_to_group gid job (add_group (adhoc_group (clk 1%nat) req) (jgroups c));
    Controller.jobs := add_job job (Controller.jobs c);
    logs := register_log_path (sj_job_id req) (uuid_to_string gid) "default"
              (register_alias (uuid_to_string (db_job_id req)) (sj_job_id req) (logs c)) |} in
  let es :=
    [Metric "inc_jobs_submitted"; Metric "inc_active_stages"]
    ++ db [DbCreateGroup (adhoc_group (clk 2%nat) req); DbCreateJob (adhoc_db_job (clk 2%nat) req)] c1
    ++ [WakeScheduler] in
  ({| so_accepted := true; so_message := "Job queued successfully"; so_job_id := sj_job_id req |}, emit es c1).

(** ** get_job_status *)

Record GetJobStatusResponse := {
  gs_found : bool;
  gs_job_id : string;
  gs_state : Z;
  gs_message : string;
  gs_exit_code : Z
}.

Definition job_state_to_proto (s : JobState) : Z :=
  match s with JQueued => 1 | JAssigned => 2 | JRunning => 3 | JSuccess => 4 | JFailed => 5 | JCancelled => 6 | JUnknown => 0 end.

Definition db_state_to_proto (s : string) : Z :=
  if bool_decide (s = "success") then 4
  else if bool_decide (s = "failed") then 5
  else if bool_decide (s = "cancelled") then 6
  else if bool_decide (s = "running") then 3
  else if bool_decide (s = "assigned") then 2
  else 0.

(** [get_job_row] answers for the version-5 UUID of the id. *)
Definition get_job_status (storage : option (Uuid -> result (option DbJob) string)) (job_id : string) (c : Controller)
    : GetJobStatusResponse :=
  match get_job job_id (Controller.jobs c) with
  | Some job => {|
      gs_found := true; gs_job_id := j_job_id job; gs_state := job_state_to_proto (j_state job);
      gs_message := ("Job state: " +:+ JobState_to_string (j_state job))%string;
      gs_exit_code := default 0 (j_exit_code job) |}
  | None =>
      match storage with
      | Some get_job_row =>
          match get_job_row (uuid_v5 job_id) with
          | Ok (Some row) => {|
              gs_found := true; gs_job_id := job_id; gs_state := db_state_to_proto (dj_state row);
              gs_message := default ("Job state: " +:+ dj_state row)%string (dj_status_reason row);
              gs_exit_code := default 0 (dj_exit_code row) |}
          | _ => {| gs_found := false; gs_job_id := job_id; gs_state := 0; gs_message := "Job not found"; gs_exit_code := 0 |}
          end
      | None => {| gs_found := false; gs_job_id := job_id; gs_state := 0; gs_message := "Job not found"; gs_exit_code := 0 |}
      end
  end.
End Jobs.

(** ** dispatch_global_post_script *)

(** The messages that carry a directive only. *)
Definition blank_assignment : JobAssignment := {|
  ja_job_id := EmptyString;
  ja_command := EmptyString;
  ja_job_type := EmptyString;
  ja_required_cpu := 0;
  ja_required_memory_mb := 0;
  ja_required_disk_mb := 0;
  ja_isolation_required := false;
  ja_branch_id := EmptyString;
  ja_environment := ∅;
  ja_cancel := None;
  ja_job_group_id := EmptyString;
  ja_stage_name := EmptyString;
  ja_pre_script := EmptyString;
  ja_post_script := EmptyString;
  ja_max_duration_secs := 0;
  ja_secret_env_keys := [];
  ja_pre_script_lock := None;
  ja_post_script_lock := None;
  ja_purge_group_files := None;
  ja_group_created_at := EmptyString
|}.

Definition build_cancel_assignment (job_id reason : string) : JobAssignment :=
  {| blank_assignment with ja_job_id := job_id; ja_cancel := Some {| ca_job_id := job_id; ca_reason := reason; ca_signal := 2 |} |}.

Definition build_purge_assignment (group_id : string) : JobAssignment :=
  {| blank_assignment with ja_job_group_id := group_id; ja_purge_group_files := Some {| pg_group_id := group_id |} |}.

Definition set_opt (k : string) (v : option string) (env : gmap string string) : gmap string string :=
  match v with Some v => <[k := v]> env | None => env end.

Section PostScript.
Context (uuid_to_string : Uuid -> string).

Definition cleanup_env (gid : Uuid) (repo : Repo) (branch commit_sha : option string) (st : JobGroupState) : gmap string string :=
  <["GROUP_STATE" := JobGroupState_to_string st]>
    (<["STAGE_WAS_CANCELLED" := if bool_decide (st = GCancelled) then "true" else "false"]>
      (<["STAGE_EXIT_CODE" := if bool_decide (st = GSuccess) then "0" else "1"]>
        (set_opt "COMMIT_SHA" commit_sha
          (set_opt "BRANCH" branch
            (<["REPO_URL" := repo_url repo]> (<["REPO_NAME" := repo_name repo]> {[ "JOB_GROUP_ID" := uuid_to_string gid ]})))))).

Definition cleanup_assignment (gid : Uuid) (repo : Repo) (script : string) (branch commit_sha : option string) (st : JobGroupState)
    : JobAssignment :=
  {| blank_assignment with
     ja_job_id := (uuid_to_string gid +:+ "-__cleanup__")%string;
     ja_command := "true";
     ja_job_type := "common";
     ja_environment := cleanup_env gid repo branch commit_sha st;
     ja_job_group_id := uuid_to_string gid;
     ja_stage_name := "__cleanup__";
     ja_pre_script := script;
     ja_max_duration_secs := 300;
     ja_pre_script_lock :=
       if global_post_script_lock_enabled repo then
         Some {| sl_enabled := true; sl_lock_key := default EmptyString (global_post_script_lock_key repo);
                 sl_timeout_secs := global_post_script_lock_timeout_secs repo;
                 sl_scope := global_post_script_scope repo |}
       else None |}.

(** The clean-up job, if the repo has a script for workers. *)
Definition post_script_job (storage : option (Uuid -> result (option Repo) string)) (gid : Uuid) (repo_id : option Uuid)
    (branch commit_sha : option string) (st : JobGroupState) : option JobAssignment :=
  rid ← repo_id;
  get_repo ← storage;
  match get_repo rid with
  | Ok (Some repo) =>
      match global_post_script repo with
      | Some script =>
          if bool_decide (script = EmptyString) then None
          else if bool_decide (global_post_script_scope repo ∈ ["worker"; "both"])
          then Some (cleanup_assignment gid repo script branch commit_sha st) else None
      | None => None
      end
  | _ => None
  end.

Definition dispatch_global_post_script (storage : option (Uuid -> result (option Repo) string)) (gid : Uuid) (worker_id : string)
    (repo_id : option Uuid) (branch commit_sha : option string) (st : JobGroupState) (c : Controller) : Controller :=
  match post_script_job storage gid repo_id branch commit_sha st with
  | Some a => if default false (job_stream_senders c !! worker_id) then emit [Dispatch worker_id a] c else c
  | None => c
  end.

(** ** cancel_job *)

Record CancelJobRequest := {
  cr_job_id : string;
  cr_job_group_id : string;
  cr_reason : string
}.

Record CancelJobResponse := {
  cj_accepted : bool;
  cj_message : string
}.

Definition cancel_reply (accepted : bool) (msg : string) : CancelJobResponse := {| cj_accepted := accepted; cj_message := msg |}.

Definition cancel_reason (req : CancelJobRequest) : string := ("Cancelled via gRPC: " +:+ cr_reason req)%string.

Definition cancel_group (clk : clock) (storage : option (Uuid -> result (option Repo) string)) (gid : Uuid) (req : CancelJobRequest)
    (c : Controller) : result CancelJobResponse Status * Controller :=
  match get_group gid (jgroups c) with
  | None => (Err (not_found ("Job group " +:+ cr_job_group_id req +:+ " not found")%string), c)
  | Some g =>
      if JobGroupState_is_terminal (g_state g) then (Ok (cancel_reply false "Job group already in terminal state"), c)
      else
        let c1 := with_groups (end_group GCancelled clk gid (cancel_reason req)) c in
        let c2 :=
          match g_reserved_worker_id g with
          | Some wid =>
              let c' := dispatch_global_post_script storage gid wid (g_repo_id g) (g_branch g) (g_commit_sha g) GCancelled c1 in
              emit (redis [RedisRelease wid gid] c') (with_workers (release_on wid (g_allocated_resources g)) c')
          | None => c1
          end in
        (Ok (cancel_reply true ("Job group " +:+ cr_job_group_id req +:+ " cancelled")%string),
         emit (db [DbGroupState gid GCancelled (Some (cancel_reason req)); DbCancelJobs gid] c2) c2)
  end.

Definition cancel_one (now : timestamp) (req : CancelJobRequest) (c : Controller) : result CancelJobResponse Status * Controller :=
  let '(worker, js) := JobRegistry.cancel_job now (cr_job_id req) (cr_reason req) (Controller.jobs c) in
  let c1 := {| c with Controller.jobs := js |} in
  match worker with
  | Some wid =>
      (Ok (cancel_reply true ("Job " +:+ cr_job_id req +:+ " cancelled")%string),
       if default false (job_stream_senders c1 !! wid)
       then emit [Dispatch wid (build_cancel_assignment (cr_job_id req) (cr_reason req))] c1 else c1)
  | None =>
      match get_job (cr_job_id req) js with
      | None => (Err (not_found ("Job " +:+ cr_job_id req +:+ " not found")%string), c1)
      | Some _ => (Ok (cancel_reply false "Job already in terminal state"), c1)
      end
  end.

(** [parse_uuid] is [Uuid::parse_str]. *)
Definition cancel_job (parse_uuid : string -> option Uuid) (clk : clock) (storage : option (Uuid -> result (option Repo) string))
    (req : CancelJobRequest) (c : Controller) : result CancelJobResponse Status * Controller :=
  if negb (bool_decide (cr_job_group_id req = EmptyString)) && bool_decide (cr_job_id req = EmptyString) then
    match parse_uuid (cr_job_group_id req) with
    | None => (Err (invalid_argument "Invalid job_group_id UUID"), c)
    | Some gid => cancel_group clk storage gid req c
    end
  else cancel_one (clk 0%nat) req c.

(** ** get_job_group_status *)

Record StageStatus := {
  sg_job_id : string;
  sg_stage_name : string;
  sg_state : string;
  sg_exit_code : Z;
  sg_worker_id : string;
  sg_started_at : Z;
  sg_completed_at : Z
}.

Record GetJobGroupStatusResponse := {
  gg_job_group_id : string;
  gg_state : string;
  gg_worker_id : string;
  gg_stages : list StageStatus
}.

(** [DateTime::timestamp]: whole seconds, rounded down. *)
Definition unix_seconds (t : timestamp) : Z := t / 1000000000.

Definition stage_status (job : Job) : StageStatus := {|
  sg_job_id := j_job_id job;
  sg_stage_name := default EmptyString (j_stage_name job);
  sg_state := JobState_to_string (j_state job);
  sg_exit_code := default 0 (j_exit_code job);
  sg_worker_id := default EmptyString (j_assigned_worker job);
  sg_started_at := default 0 (unix_seconds <$> j_started_at job);
  sg_completed_at := default 0 (unix_seconds <$> j_completed_at job)
|}.

Definition group_status (gid : Uuid) (g : JobGroup) (stages : list StageStatus) : GetJobGroupStatusResponse := {|
  gg_job_group_id := uuid_to_string gid;
  gg_state := JobGroupState_to_string (g_state g);
  gg_worker_id := default EmptyString (g_reserved_worker_id g);
  gg_stages := stages
|}.

Definition get_job_group_status (parse_str : string -> result Uuid string) (storage : option (Uuid -> result (option JobGroup) string))
    (job_group_id : string) (c : Controller) : result GetJobGroupStatusResponse Status :=
  match parse_str job_group_id with
  | Err e => Err (invalid_argument ("Invalid job_group_id: " +:+ e)%string)
  | Ok gid =>
      match get_group gid (jgroups c) with
      | Some g => Ok (group_status gid g (stage_status <$> get_jobs_for_group gid (jgroups c)))
      | None =>
          match storage with
          | Some get_row =>
              match get_row gid with
              | Ok (Some g) => Ok (group_status gid g [])
              | _ => Err (not_found ("Job group " +:+ job_group_id +:+ " not found")%string)
              end
          | None => Err (not_found ("Job group " +:+ job_group_id +:+ " not found")%string)
          end
      end
  end.
End PostScript.

(** ** Restoring allocations *)

(** What a list of groups adds to a worker's counters. *)
Definition load (k : resource) (l : list JobGroup) : Z := sumf (fun g => amount k (g_allocated_resources g)) l.

(** The groups fit the worker. *)
Record restorable (w : WorkerState) (l : list JobGroup) : Prop := {
  rt_cpu : counter CPU w + load CPU l <= cpu_cap w;
  rt_mem : counter MEM w + load MEM l <= memory_cap w;
  rt_width : counter DISK w + load DISK l < 2 ^ 64;
  rt_disk : Forall (fun g => ar_disk_mb (g_allocated_resources g) <= free_disk_mb w) l
}.

Definition nonneg_groups (l : list JobGroup) : Prop := Forall (fun g => forall k, 0 <= amount k (g_allocated_resources g)) l.

Lemma load_nonneg k l : nonneg_groups l -> 0 <= load k l.
Proof. intros Hl. apply sumf_nonneg. intros g Hg. unfold nonneg_groups in Hl. rewrite Forall_forall in Hl. by apply Hl. Qed.

(** One group that fits is charged in full. *)
Lemma charge_one a w :
  worker_wf w -> (forall k, 0 <= amount k a) -> counter CPU w + amount CPU a <= cpu_cap w ->
  counter MEM w + amount MEM a <= memory_cap w -> counter DISK w + amount DISK a < 2 ^ 64 -> ar_disk_mb a <= free_disk_mb w ->
  let w' := if has_alloc a then (allocate (ar_cpu a) (ar_memory_mb a) (ar_disk_mb a) w).2 else w in
  worker_wf w' /\ ws_info w' = ws_info w /\ free_disk_mb w' = free_disk_mb w /\ ws_status w' = ws_status w /\
  forall k, counter k w' = counter k w + amount k a.
Proof.
  intros Hwf Ha Hc Hm Hd Hf. pose proof (Ha CPU). pose proof (Ha MEM). pose proof (Ha DISK). simpl in *.
  pose proof (cpu_cap_bounds w (ww_info w Hwf)) as Bc. pose proof (memory_cap_bounds w (ww_info w Hwf)) as Bm.
  destruct (ww_info w Hwf) as [I1 I2 _ _ _ _]. unfold u32 in I1. destruct (has_alloc a) eqn:E.
  - rewrite allocate_eq; [|done|unfold no_overflow; lia]. rewrite decide_True by (unfold fits; lia). simpl.
    split_and!; [|done|done|done|by intros []]. destruct Hwf as [Hi W1 W2 W3]. unfold u32, u64 in *.
    split; simpl; unfold u32, u64; [done|lia..].
  - unfold has_alloc in E. apply orb_false_iff in E as [[E1 E2]%orb_false_iff E3].
    apply Z.ltb_ge in E1, E2, E3. split_and!; [done..|]. intros []; simpl; lia.
Qed.

Lemma restore_groups wid l : forall (wr : WorkerRegistry) w,
  wr !! wid = Some w -> worker_wf w -> nonneg_groups l -> restorable w l ->
  let wr' := foldl (restore_group wid) wr l in
  (forall id, id <> wid -> wr' !! id = wr !! id) /\
  exists w', wr' !! wid = Some w' /\ worker_wf w' /\ ws_info w' = ws_info w /\ ws_status w' = ws_status w /\
    forall k, counter k w' = counter k w + load k l.
Proof.
  induction l as [|g l IH]; intros wr w Hw Hwf Hl Hr.
  { split; [done|]. exists w. split_and!; [done..|]. intros k. unfold load, sumf. simpl. lia. }
  apply Forall_cons in Hl as [Hg Hl]. destruct Hr as [R1 R2 R3 R4]. apply Forall_cons in R4 as [R4 R5].
  unfold load in *. rewrite sumf_cons in R1, R2, R3.
  pose proof (load_nonneg CPU l Hl). pose proof (load_nonneg MEM l Hl). pose proof (load_nonneg DISK l Hl). unfold load in *.
  set (a := g_allocated_resources g) in *.
  destruct (charge_one a w Hwf Hg ltac:(lia) ltac:(lia) ltac:(lia) R4) as (Hwf1 & Hi & Hf & Hs & Hk). cbv zeta in *.
  set (w1 := if has_alloc a then _ else w) in *. destruct (caps_info w1 w Hi) as (E1 & E2 & _).
  assert (Hr1 : restorable w1 l).
  { split; unfold load; rewrite ?Hk, ?E1, ?E2; [lia..|]. by rewrite Hf. }
  set (wr1 := restore_group wid wr g).
  assert (Hw1 : wr1 !! wid = Some w1) by (unfold wr1, restore_group, w1; fold a; destruct (has_alloc a); rewrite ?lookup_alter_eq, Hw; done).
  destruct (IH wr1 w1 Hw1 Hwf1 Hl Hr1) as (Ho & w' & Hw' & ? & ? & ? & Hk'). split.
  - intros id Hne. simpl. fold wr1. rewrite Ho by done. unfold wr1, restore_group. fold a. by destruct (has_alloc a); rewrite ?lookup_alter_ne.
  - exists w'. simpl. fold wr1. split_and!; [done|done|congruence|congruence|]. intros k. rewrite Hk', Hk. unfold load, sumf. simpl. fold a. lia.
Qed.

(** What fits or not, restoring touches counters only. *)
Lemma restore_info wid l : forall (wr : WorkerRegistry) w,
  wr !! wid = Some w ->
  exists w', foldl (restore_group wid) wr l !! wid = Some w' /\ ws_info w' = ws_info w /\ ws_status w' = ws_status w.
Proof.
  induction l as [|g l IH]; intros wr w Hw; [eauto|]. simpl. set (a := g_allocated_resources g).
  set (f := fun w => (allocate (ar_cpu a) (ar_memory_mb a) (ar_disk_mb a) w).2).
  assert (Hf : ws_info (f w) = ws_info w /\ ws_status (f w) = ws_status w)
    by (unfold f, allocate; by destruct (_ || _); [|destruct (_ && _)]).
  destruct (IH (restore_group wid wr g) (if has_alloc a then f w else w)) as (w' & Hw' & ? & ?).
  - unfold restore_group. fold a f. by destruct (has_alloc a); rewrite ?lookup_alter_eq, Hw.
  - exists w'. split; [done|]. destruct (has_alloc a); naive_solver congruence.
Qed.

Section Restoring.
Context `{HI : HashIter}.

(** The groups that [restore_allocations] finds. *)
Definition hosts (w : WorkerState) (id : string) (r : JobGroupRegistry) : Prop :=
  info_wf (ws_info w) /\ ledger CPU id r <= cpu_cap w /\ ledger MEM id r <= memory_cap w /\ ledger DISK id r < 2 ^ 64 /\
  map_Forall (fun _ g => is_active g = true -> g_reserved_worker_id g = Some id ->
    ar_disk_mb (g_allocated_resources g) <= disk_cap w) (groups r).

Lemma groups_of_worker id r g : g ∈ get_groups_for_worker id r ->
  is_active g = true /\ g_reserved_worker_id g = Some id /\ exists gid, groups r !! gid = Some g.
Proof. unfold get_groups_for_worker. rewrite !list_elem_of_filter, elem_of_hvalues. tauto. Qed.

(** Charging a worker that starts at zero with its active groups. *)
Lemma restored_spec id r (wr : WorkerRegistry) w0 :
  allocs_ok r -> wr !! id = Some w0 -> ws_last_heartbeat w0 = None -> (forall k, counter k w0 = 0) ->
  exists w', restore_allocations id r wr !! id = Some w' /\ ws_info w' = ws_info w0 /\ ws_status w' = ws_status w0 /\
    (hosts w' id r -> worker_wf w' /\ within_caps w' /\ forall k, counter k w' = ledger k id r).
Proof.
  intros Hok Hw0 Hhb Hk. unfold restore_allocations. set (l := get_groups_for_worker id r).
  assert (Hnn : nonneg_groups l).
  { apply Forall_forall. intros g Hg. apply groups_of_worker in Hg as (_ & _ & gid & Hg). exact (Hok _ _ Hg). }
  destruct (restore_info id l _ w0 Hw0) as (w' & Hw' & Hi & Hs).
  exists w'. split_and!; [done..|]. intros (Hwf & H1 & H2 & H3 & H4). rewrite Hi in Hwf.
  destruct (caps_info w' w0 Hi) as (E1 & E2 & E3). rewrite E1 in H1. rewrite E2 in H2.
  assert (Hwf0 : worker_wf w0).
  { pose proof (Hk CPU). pose proof (Hk MEM). pose proof (Hk DISK). simpl in *. split; unfold u32, u64; [done|lia..]. }
  destruct (restore_groups id l _ w0 Hw0 Hwf0 Hnn) as (_ & w1 & Hw1 & Hwf1 & Hi1 & _ & Hk1).
  - rewrite !(ledger_groups _ id) in *. fold l in H1, H2, H3. split; rewrite ?Hk; unfold load; [lia..|].
    apply Forall_forall. intros g Hg. apply groups_of_worker in Hg as (Ha & Hr & gid & Hg).
    pose proof (H4 gid g Hg Ha Hr) as H5. simpl in H5. rewrite E3 in H5. unfold free_disk_mb. rewrite Hhb.
    destruct (disk_cap_bounds w0 Hwf). lia.
  - assert (w' = w1) as -> by congruence.
    assert (Hcnt : forall k, counter k w1 = ledger k id r).
    { intros k. rewrite Hk1, Hk, ledger_groups. fold l. unfold load. lia. }
    split_and!; [done| |done]. pose proof (Hcnt CPU) as C1. pose proof (Hcnt MEM) as C2. simpl in C1, C2.
    split; rewrite ?C1, ?C2, ?E1, ?E2; done.
Qed.

Lemma restore_others id r (wr : WorkerRegistry) id' : id' <> id -> restore_allocations id r wr !! id' = wr !! id'.
Proof.
  intros Hne. unfold restore_allocations. revert wr. induction (get_groups_for_worker id r) as [|g l IH]; intros wr; [done|].
  simpl. rewrite IH. unfold restore_group. by destruct (has_alloc _); rewrite ?lookup_alter_ne by done.
Qed.
End Restoring.

Section Registration.
Context `{HI : HashIter} (sha256_hex : string -> string).

Lemma enroll_books now id req limits c : exists w0,
  workers (enroll now id req limits c) = restore_allocations id (jgroups c) (<[id := w0]> (workers c)) /\
  wi_worker_id (ws_info w0) = id /\ ws_status w0 = Connected /\ ws_last_heartbeat w0 = None /\ forall k, counter k w0 = 0.
Proof.
  unfold enroll, with_workers, register_with_id. simpl. destruct limits as [row|].
  - unfold update_priority_limits. rewrite lookup_insert_eq. simpl. rewrite insert_insert_eq. eexists. split; [reflexivity|].
    by split_and!; [..|intros []].
  - eexists. split; [reflexivity|]. by split_and!; [..|intros []].
Qed.

Lemma enroll_spec now id req limits c :
  allocs_ok (jgroups c) ->
  let c' := enroll now id req limits c in
  jgroups c' = jgroups c /\ (forall id', id' <> id -> workers c' !! id' = workers c !! id') /\
  exists w', workers c' !! id = Some w' /\ ws_status w' = Connected /\ wi_worker_id (ws_info w') = id /\
    (hosts w' id (jgroups c) -> worker_wf w' /\ within_caps w' /\ forall k, counter k w' = ledger k id (jgroups c)).
Proof.
  intros Hok. cbv zeta. split; [done|]. destruct (enroll_books now id req limits c) as (w0 & -> & Hid & Hst & Hhb & Hk). split.
  - intros id' Hne. rewrite restore_others by done. by rewrite lookup_insert_ne.
  - destruct (restored_spec id (jgroups c) (<[id := w0]> (workers c)) w0 Hok (lookup_insert_eq _ _ _) Hhb Hk) as (w' & Hw' & Hi & Hs & Hh).
    exists w'. split_and!; [done|congruence|congruence|done].
Qed.

(** The surplus of a worker that registers is forgotten. *)
Definition settled (id : string) (s : resource -> string -> Z) : resource -> string -> Z :=
  fun k wid => if decide (wid = id) then 0 else s k wid.

Lemma enroll_accounted now id req limits c s :
  allocs_ok (jgroups c) -> accounted s c ->
  (forall w', workers (enroll now id req limits c) !! id = Some w' -> hosts w' id (jgroups c)) ->
  accounted (settled id s) (enroll now id req limits c).
Proof.
  intros Hok Hb Hh. destruct (enroll_spec now id req limits c Hok) as (E1 & Ho & w' & Hw' & _ & _ & Hk).
  destruct (Hk (Hh w' Hw')) as (_ & _ & Hcnt). intros x w k Hx. rewrite E1. unfold settled. destruct (decide (x = id)) as [->|Hne].
  - assert (w = w') as -> by congruence. split; [rewrite Hcnt, Z.add_0_r; reflexivity|]. rewrite Hcnt. destruct (Hh w' Hw') as (Hi & H1 & H2 & H3 & _).
    pose proof (cpu_cap_bounds w' Hi). pose proof (memory_cap_bounds w' Hi). destruct Hi as [I1 I2 _ _ _ _].
    unfold u32 in I1. destruct k; simpl in *; lia.
  - rewrite Ho in Hx by done. exact (Hb x w k Hx).
Qed.

Lemma register_enrolls clk auth hb hex storage req c reply c' :
  register sha256_hex clk auth hb hex storage req c = (Ok reply, c') ->
  exists now limits c1, c' = enroll now (rg_assigned_worker_id reply) req limits c1 /\
    workers c1 = workers c /\ jgroups c1 = jgroups c /\ rg_accepted reply = true.
Proof.
  unfold register, register_with_token, register_first. intros H.
  repeat (case_match; simplify_eq; try done); eexists _, _, _; (split; [reflexivity|]); done.
Qed.

(** Registering a worker, for the first time or again, restores its books:
    whatever token it comes with, an accepted registration changes no group and
    no other worker, and leaves the worker connected under the identity it was
    given. If the caps it has now host the active groups reserved on it, then its
    counters are the sum over these groups (they start at zero, and each group is
    charged again), so a balanced controller stays balanced. *)
Theorem register_keeps_ledger (clk : clock) (auth : AuthConfig) (hb_interval : Z) (random_hex : string)
    (storage : option RegisterAnswers) (req : RegisterRequest) (c : Controller) (reply : RegisterResponse) (c' : Controller) :
  register sha256_hex clk auth hb_interval random_hex storage req c = (Ok reply, c') -> allocs_ok (jgroups c) ->
  let id := rg_assigned_worker_id reply in
  jgroups c' = jgroups c /\ (forall id', id' <> id -> workers c' !! id' = workers c !! id') /\
  exists w', workers c' !! id = Some w' /\ ws_status w' = Connected /\ wi_worker_id (ws_info w') = id /\
    (hosts w' id (jgroups c) ->
       within_caps w' /\ (forall k, counter k w' = ledger k id (jgroups c)) /\ (balanced c -> balanced c')).
Proof.
  intros H Hok id. destruct (register_enrolls _ _ _ _ _ _ _ _ _ H) as (now & limits & c1 & -> & Ew & Eg & _). fold id.
  rewrite <- Eg in Hok. destruct (enroll_spec now id req limits c1 Hok) as (E1 & Ho & w' & Hw' & Hs & Hid & Hh).
  rewrite <- Eg. split; [done|]. split; [by rewrite <- Ew|]. exists w'. split_and!; [done..|]. intros Hhosts.
  destruct (Hh Hhosts) as (_ & Hcap & Hk). split_and!; [done..|]. rewrite !balanced_accounted. intros Hb.
  assert (Ha : accounted (settled id no_surplus) (enroll now id req limits c1)).
  { apply enroll_accounted; [done|by apply (accounted_books no_surplus c); rewrite ?Ew, ?Eg|]. intros w2 Hw2.
    by replace w2 with w' by congruence. }
  intros x w k Hx. pose proof (Ha x w k Hx) as Hx1. unfold settled, no_surplus in *. destruct (decide (x = id)); simpl in *; done.
Qed.
End Registration.

(** ** Tokens *)

(** A token with a known prefix passes when its hash is known. *)
Lemma interceptor_known sha config hashes token :
  starts_with "chola_wkr_" token = true -> sha token ∈ hashes ->
  auth_interceptor sha config hashes (Some ("Bearer " +:+ token)%string) = Ok tt.
Proof.
  intros Hp Hh. unfold auth_interceptor. destruct (auth_enabled config); [|done]. cbv zeta. unfold default, id.
  rewrite (strip_prefix_app "Bearer " token), Hp, orb_true_r. cbv iota. simpl negb. cbv iota. by rewrite bool_decide_eq_true_2.
Qed.

(** C21. With authentication on, nobody becomes a worker without a token: a
    refused registration changes nothing, and an accepted one either presented a
    worker token, and then registers the worker that the database binds to it,
    which is not an unapproved one, or presented a valid registration token, and
    then registers the identity it asked for and hands out a fresh token. In
    both cases the interceptor lets the worker's next calls through when its
    token has the worker prefix, which a fresh one has. *)
Theorem registration_needs_token `{HI : HashIter} (sha256_hex : string -> string) (clk : clock) (auth : AuthConfig)
    (hb_interval : Z) (random_hex : string) (storage : option RegisterAnswers) (req : RegisterRequest) (c : Controller) :
  auth_enabled auth = true ->
  match register sha256_hex clk auth hb_interval random_hex storage req c with
  | (Err _, c') => c' = c
  | (Ok reply, c') =>
      exists a, storage = Some a /\
      ((rr_worker_token req <> EmptyString /\ bound_worker a = Ok (rg_assigned_worker_id reply) /\
        (forall row, get_worker_row a (rg_assigned_worker_id reply) = Ok (Some row) -> wk_approved row = true) /\
        (starts_with "chola_wkr_" (rr_worker_token req) = true ->
           auth_interceptor sha256_hex auth (token_hashes c') (Some ("Bearer " +:+ rr_worker_token req)%string) = Ok tt)) \/
       (rr_worker_token req = EmptyString /\ rr_registration_token req <> EmptyString /\
        (exists id, validate_registration_token a = Ok id) /\ rg_assigned_worker_id reply = rr_worker_id req /\
        auth_interceptor sha256_hex auth (token_hashes c') (Some ("Bearer " +:+ rg_worker_token reply)%string) = Ok tt))
  end.
Proof.
  intros Hen. unfold register. destruct storage as [a|]; [|by rewrite Hen].
  case_bool_decide as Hw; simpl negb; cbv iota; [case_bool_decide as Hr; simpl negb; cbv iota|].
  - by rewrite Hen.
  - unfold register_first. destruct (validate_registration_token a) as [token_id|e] eqn:Ev; [|done].
    destruct (upsert_result a _) as [row|e]; [|done]. exists a. split; [done|]. right. split_and!; [done..|eauto|done|].
    apply interceptor_known; [apply starts_with_app|]. simpl. set_solver.
  - unfold register_with_token, approved_row. destruct (bound_worker a) as [id|e] eqn:Eb; [|done]. simpl.
    assert (Hk : forall hash c0, hash ∈ token_hashes (cache_token hash c0)) by (intros; simpl; set_solver).
    destruct (get_worker_row a id) as [[row|]|e] eqn:Ew; [destruct (wk_approved row) eqn:Ea|..]; simpl; try done;
      (exists a; split; [done|]; left; split_and!; [done|done|naive_solver congruence|]; intros Hp;
       apply interceptor_known; [done|apply Hk]).
Qed.

(** Registering again with a registration token resets the priority that an
    administrator set: the row inserted has priority 0, and a number is never
    NULL. The other limits survive. *)
Lemma reregistration_resets_priority clk req hash token_id old :
  let row := upsert_worker (Some old) (new_worker_row clk req hash token_id) in
  wk_priority row = 0 /\ wk_max_cpu row = wk_max_cpu old /\ wk_approved row = wk_approved old.
Proof. done. Qed.

(** ** Cancelling *)

Section Cancelling.
Context (uuid_to_string : Uuid -> string) (parse_uuid : string -> option Uuid).

Lemma post_script_books storage gid wid repo branch sha st c :
  let c' := dispatch_global_post_script uuid_to_string storage gid wid repo branch sha st c in
  workers c' = workers c /\ jgroups c' = jgroups c /\ Controller.jobs c' = Controller.jobs c.
Proof. cbv zeta. unfold dispatch_global_post_script. by repeat case_match. Qed.

Lemma cancel_group_books clk storage gid req c g :
  groups (jgroups c) !! gid = Some g -> is_active g = true ->
  let '(r, c') := cancel_group uuid_to_string clk storage gid req c in
  r = Ok (cancel_reply true ("Job group " +:+ cr_job_group_id req +:+ " cancelled")%string) /\
  jgroups c' = end_group GCancelled clk gid (cancel_reason req) (jgroups c) /\
  Controller.jobs c' = Controller.jobs c /\
  workers c' = match g_reserved_worker_id g with
               | Some wid => release_on wid (g_allocated_resources g) (workers c)
               | None => workers c
               end.
Proof.
  intros Hg Ha. unfold cancel_group, get_group. rewrite Hg. unfold is_active in Ha. destruct (JobGroupState_is_terminal _); [done|].
  destruct (g_reserved_worker_id g) as [wid|]; [|done].
  pose proof (post_script_books storage gid wid (g_repo_id g) (g_branch g) (g_commit_sha g) GCancelled
    (with_groups (end_group GCancelled clk gid (cancel_reason req)) c)) as (E1 & E2 & E3).
  split_and!; [done|exact E2|exact E3|]. simpl. by rewrite E1.
Qed.

Lemma cancel_group_accounted clk storage gid req c g s :
  groups (jgroups c) !! gid = Some g -> is_active g = true -> nonneg s -> allocs_ok (jgroups c) -> accounted s c ->
  accounted s (cancel_group uuid_to_string clk storage gid req c).2.
Proof.
  intros Hg Ha Hs Hok Hb. pose proof (cancel_group_books clk storage gid req c g Hg Ha) as H.
  destruct (cancel_group _ _ _ _ _ _) as [r c']. destruct H as (_ & E1 & _ & E2).
  destruct (end_group_one GCancelled clk gid (cancel_reason req) (jgroups c) g ltac:(auto) Hg) as (g' & Hg' & Hst & Hw & Hal).
  apply (settle_accounted s c c' gid g g'); rewrite ?E1; try done.
  - intros; by apply end_group_other.
  - unfold is_active. by rewrite Hst.
Qed.

Lemma fail_job_ended now reason j : ended (fail_job now reason j) = true.
Proof. unfold fail_job. by destruct (ended j) eqn:E. Qed.

(** Cancelling a build settles it: the request is accepted, every job of the
    group has ended and the group is no longer active, no other group changes,
    the worker gets back exactly what the group held (a balanced controller stays
    balanced), and a second request is refused and changes nothing. In memory
    the group ends as failed, whereas the database is told cancelled; and the job
    registry is not touched, so a stage still queued there remains to be
    dispatched. *)
Theorem cancel_settles_group (clk : clock) (storage : option (Uuid -> result (option Repo) string)) (req : CancelJobRequest)
    (c : Controller) (gid : Uuid) (g : JobGroup) :
  cr_job_id req = EmptyString -> cr_job_group_id req <> EmptyString -> parse_uuid (cr_job_group_id req) = Some gid ->
  groups (jgroups c) !! gid = Some g -> is_active g = true -> allocs_ok (jgroups c) ->
  let '(r, c') := cancel_job uuid_to_string parse_uuid clk storage req c in
  (exists msg, r = Ok (cancel_reply true msg)) /\
  (exists g', groups (jgroups c') !! gid = Some g' /\ g_state g' = GFailed) /\
  Forall (fun j => ended j = true) (get_jobs_for_group gid (jgroups c')) /\
  (forall gid', gid' <> gid -> groups (jgroups c') !! gid' = groups (jgroups c) !! gid') /\
  (balanced c -> balanced c') /\ Controller.jobs c' = Controller.jobs c /\
  cancel_job uuid_to_string parse_uuid clk storage req c' = (Ok (cancel_reply false "Job group already in terminal state"), c').
Proof.
  intros Hj Hne Hp Hg Ha Hok. unfold cancel_job. rewrite Hj, Hp, bool_decide_eq_false_2 by done. simpl.
  pose proof (cancel_group_books clk storage gid req c g Hg Ha) as H.
  pose proof (cancel_group_accounted clk storage gid req c g no_surplus Hg Ha no_surplus_nonneg Hok) as Hacc.
  destruct (cancel_group _ clk storage gid req c) as [r c'] eqn:E. destruct H as (-> & E1 & E2 & _). simpl in Hacc.
  destruct (end_group_one GCancelled clk gid (cancel_reason req) (jgroups c) g ltac:(auto) Hg) as (g' & Hg' & Hst & _).
  rewrite E1. split_and!; [by eexists|by exists g'| | | |done|].
  - unfold get_jobs_for_group. rewrite end_group_jobs, lookup_alter_eq. destruct (group_jobs (jgroups c) !! gid); simpl; [|done].
    apply Forall_fmap, Forall_forall. intros j _. apply fail_job_ended.
  - intros. by apply end_group_other.
  - by rewrite !balanced_accounted.
  - unfold cancel_group, get_group. by rewrite E1, Hg', Hst.
Qed.

(** Cancelling a job that is still queued takes effect, and is reported as
    refused. *)
Lemma queued_cancel_misreported clk storage req c job :
  cr_job_id req <> EmptyString -> Controller.jobs c !! cr_job_id req = Some job -> j_state job = JQueued ->
  let '(r, c') := cancel_job uuid_to_string parse_uuid clk storage req c in
  r = Ok (cancel_reply false "Job already in terminal state") /\
  exists job', Controller.jobs c' !! cr_job_id req = Some job' /\ j_state job' = JCancelled.
Proof.
  intros Hne Hj Hq. unfold cancel_job. rewrite (bool_decide_eq_false_2 (cr_job_id req = _)), andb_false_r by done.
  unfold cancel_one, JobRegistry.cancel_job. rewrite Hj, Hq. unfold get_job. rewrite lookup_insert_eq. split; [done|].
  eexists. simpl. by rewrite lookup_insert_eq.
Qed.
End Cancelling.

(** Submitting a job under an id in use, running or not, starts it over: the
    registry forgets what it knew, and the group lists the job once more. *)
Lemma resubmitted_job_starts_over uuid_v5 uuid_to_string clk peer req storage c :
  let c' := (submit_job uuid_v5 uuid_to_string clk peer req c).2 in
  gs_state (get_job_status uuid_v5 storage (sj_job_id req) c') = 1 /\
  length (get_jobs_for_group (uuid_v5 (sj_job_id req)) (jgroups c')) =
    S (length (get_jobs_for_group (uuid_v5 (sj_job_id req)) (jgroups c))).
Proof.
  unfold submit_job, get_job_status, get_job, add_job, get_jobs_for_group. simpl. rewrite !lookup_insert_eq. split; [done|].
  simpl. rewrite length_app. simpl. destruct (group_jobs (jgroups c) !! uuid_v5 (sj_job_id req)) eqn:E; simpl.
  - rewrite E. simpl. lia.
  - rewrite lookup_insert_eq. done.
Qed.

(** ** Reconnecting *)

(** A worker that reconnects gets back its own jobs where the controller left
    off: the request is refused if its token is bound to another worker;
    otherwise the worker is connected again, and the directives are for exactly
    those of the jobs it reports that the controller still has assigned to it,
    each from the last offset the controller has recorded. A chunk sent from
    there is not a replay: it is appended, and moves the offset by its length. *)
Theorem reconnect_resumes_jobs (authorization : option string) (bound : option (result (option string) string))
    (req : ReconnectRequest) (c : Controller) (resp : ReconnectResponse) (c' : Controller) :
  reconnect authorization bound req c = (Ok resp, c') ->
  (forall token id, worker_bearer authorization = Some token -> bound = Some (Ok (Some id)) -> id = rq_worker_id req) /\
  workers c' = alter (set_status Connected) (rq_worker_id req) (workers c) /\ jgroups c' = jgroups c /\
  (forall job_id off, {| lr_job_id := job_id; lr_resume_from_offset := off |} ∈ rp_log_resumes resp <->
     job_id ∈ rj_job_id <$> rq_running_jobs req /\ off = last_offset job_id (logs c) /\
     exists job, Controller.jobs c !! job_id = Some job /\ j_assigned_worker job = Some (rq_worker_id req)) /\
  (forall d disk_ok data ts, d ∈ rp_log_resumes resp -> uuid_aliases (logs c) !! lr_job_id d = None ->
     0 <= lr_resume_from_offset d -> lr_resume_from_offset d + len data < 2 ^ 64 -> 
     (append_chunk disk_ok (lr_job_id d) (rq_worker_id req) (lr_resume_from_offset d) data ts (logs c)).1 =
       lr_resume_from_offset d + len data).
Proof.
  unfold reconnect. intros H.
  destruct (check_binding authorization bound (rq_worker_id req)) as [[]|e] eqn:Ec; [|done]. injection H as <- <-. simpl.
  assert (Hin : forall d, d ∈ log_resumes (rq_worker_id req) (rq_running_jobs req) (Controller.jobs c) (logs c) <->
    lr_job_id d ∈ rj_job_id <$> rq_running_jobs req /\ lr_resume_from_offset d = last_offset (lr_job_id d) (logs c) /\
    exists job, Controller.jobs c !! lr_job_id d = Some job /\ j_assigned_worker job = Some (rq_worker_id req)).
  { intros d. unfold log_resumes, get_job. rewrite list_elem_of_omap, list_elem_of_fmap. split.
    - intros (r & Hr & E). destruct (Controller.jobs c !! rj_job_id r) as [job|] eqn:Ej; [|done]. simpl in E.
      case_bool_decide as Ea; [|done]. injection E as <-. simpl. eauto 10.
    - intros ((r & Er & Hr) & Eo & job & Ej & Ea). exists r. split; [done|]. rewrite <- Er, Ej. simpl.
      rewrite bool_decide_eq_true_2 by done. destruct d as [i o]. simpl in *. by subst. }
  split_and!; [|done|done|intros job_id off; exact (Hin _)|].
  - intros token id Ht ->. unfold check_binding in Ec. rewrite Ht in Ec. by case_bool_decide.
  - intros d disk_ok data ts Hd Hal H0 H1. apply Hin in Hd as (_ & Eo & _).
    unfold last_offset, resolve_job_id in Eo. rewrite Hal in Eo. simpl in Eo.
    destruct (append_chunk_eq disk_ok (lr_job_id d) (rq_worker_id req) (lr_resume_from_offset d) data ts (logs c))
      as (st & dsk & chan & -> & Hst). cbv zeta in Hst.
    assert (Hlt : (lr_resume_from_offset d <? last_offset_of (run_state (lr_job_id d) (lr_resume_from_offset d) (logs c))) = false).
    { apply Z.ltb_ge. unfold run_state, entry_state. destruct (LogAggregator.jobs (logs c) !! lr_job_id d) as [st'|]; simpl.
      - destruct (bool_decide _ && _); simpl; lia.
      - rewrite andb_false_r. simpl. lia. }
    rewrite Hlt in Hst. destruct Hst as [Hst _]. simpl. rewrite Hst. apply u64_add_small; unfold len in *; lia.
Qed.

(** ** What the worker makes of the controller's directives *)

(** The messages the controller builds mean to the worker what they should: a
    cancel directive goes to the running job it names, as SIGINT; a purge
    directive removes the group's directories and is acknowledged for that group;
    and the clean-up job of a finished group is spawned like a stage, with the
    repo's script as its pre-script, [true] as its command, and the group's
    outcome in its environment. *)
Theorem directives_understood (uuid_to_string : Uuid -> string) (config : WorkerConfig) (parse_rfc3339 : string -> option timestamp)
    (startup : option timestamp) (remove : string -> removal) (now : Z) (running : RunningJobs) :
  (forall job_id reason,
     handle_job_assignment config parse_rfc3339 startup remove now (build_cancel_assignment job_id reason) running =
       send_cancel job_id 2 running) /\
  (forall gid, exists removed ack,
     handle_job_assignment config parse_rfc3339 startup remove now (build_purge_assignment gid) running = (Purged removed ack, running) /\
     removed = (purge_group_dirs remove gid (scratch_root (execution config)) (ex_log_dir (execution config)) (work_dir (execution config))).1 /\
     su_purge_ack ack = true /\ su_job_group_id ack = gid) /\
  (forall storage gid repo_id branch sha st a,
     post_script_job uuid_to_string storage gid repo_id branch sha st = Some a ->
     Forall (fun j => rs_job_id j <> ja_job_id a) running ->
     exists ctx running', handle_job_assignment config parse_rfc3339 startup remove now a running = (Spawned ctx, running') /\
       (exists get rid repo script, storage = Some get /\ repo_id = Some rid /\ get rid = Ok (Some repo) /\
          global_post_script repo = Some script /\ ctx_pre_script ctx = script /\ script <> EmptyString) /\
       ctx_command ctx = "true" /\ ctx_post_script ctx = EmptyString /\ ja_environment a !! "GROUP_STATE" = Some (JobGroupState_to_string st)).
Proof.
  split_and!; [done| |].
  - intros gid. unfold handle_job_assignment. simpl.
    destruct (purge_group_dirs remove gid (scratch_root (execution config)) (ex_log_dir (execution config))
      (work_dir (execution config))) as [removed outcome]. by eexists _, _.
  - intros storage gid repo_id branch sha st a H Hfresh. unfold post_script_job in H.
    destruct repo_id as [rid|]; [|done]. destruct storage as [get|]; [|done]. simpl in H.
    destruct (get rid) as [[repo|]|e] eqn:Eg; [|done..]. destruct (global_post_script repo) as [script|] eqn:Es; [|done].
    case_bool_decide as Hs; [done|]. case_bool_decide; [|done]. injection H as <-.
    unfold handle_job_assignment. simpl ja_purge_group_files. simpl ja_cancel. cbv iota.
    assert (Hn : existsb (fun j => bool_decide (rs_job_id j = ja_job_id (cleanup_assignment uuid_to_string gid repo script branch sha st)))
      running = false).
    { apply not_true_iff_false. rewrite existsb_exists. intros (j & Hj & E). apply bool_decide_eq_true in E.
      rewrite Forall_forall in Hfresh. apply list_elem_of_In in Hj. by apply (Hfresh j Hj). }
    rewrite Hn. eexists _, _. split; [reflexivity|]. split_and!; [by eexists _, _, _, _|reflexivity..|].
    simpl. unfold cleanup_env. apply lookup_insert_eq.
Qed.

(** ** Concrete calls *)

(** A worker that registers again while it runs a group. *)
Definition again : RegisterRequest := {|
  rr_worker_id := "w"; rr_hostname := "host"; rr_total_cpu := 8; rr_total_memory_mb := 16384; rr_total_disk_mb := 100000;
  rr_disk_type := "nvme"; rr_supported_job_types := []; rr_docker_enabled := false; rr_labels := []; rr_disk_details := [];
  rr_registration_token := "invite"; rr_worker_token := EmptyString |}.

Definition auth_off : AuthConfig := {| AuthConfig_default with auth_enabled := false |}.

Definition sample_register (auth : AuthConfig) (storage : option RegisterAnswers) : result RegisterResponse Status * Controller :=
  register (HI := map_iter) (fun s => s) (fun _ => 9) auth 30 "ff" storage again (busy_controller JRunning).

Definition sample_answers : RegisterAnswers := {|
  get_token_worker_id := Ok None;
  get_worker_by_token_hash := Ok None;
  get_worker_row := fun _ => Ok None;
  validate_registration_token := Ok 3%N;
  upsert_result := fun row => Ok (upsert_worker None row)
|}.

Lemma register_keeps_ledger_witness :
  let c' := (sample_register auth_off (Some sample_answers)).2 in
  balanced c' /\ counter CPU <$> workers c' !! "w" = Some 2.
Proof.
  intros c'. assert (E : sample_register auth_off (Some sample_answers) =
    (Ok (register_reply 30 "Worker registered successfully" "chola_wkr_ff" "w"), c')) by (vm_compute; reflexivity).
  destruct (register_keeps_ledger (HI := map_iter) (fun s => s) (fun _ => 9) auth_off 30 "ff" (Some sample_answers) again
    (busy_controller JRunning) _ c' E (busy_allocs _)) as (_ & _ & w' & Hw' & _ & _ & H).
  assert (Hh : hosts w' "w" (jgroups (busy_controller JRunning))).
  { vm_compute in Hw'. injection Hw' as <-. split; [split; unfold u32, u64; simpl; try discriminate; lia|].
    split_and!; [vm_compute; congruence..|vm_compute; reflexivity|]. apply map_Forall_insert_2; [|apply map_Forall_empty].
    intros _ _. vm_compute. congruence. }
  destruct (H Hh) as (_ & Hk & Hb). split; [exact (Hb (busy_balanced _))|]. change (rg_assigned_worker_id _) with "w" in Hw'.
  rewrite Hw'. simpl. f_equal. exact (Hk CPU).
Defined.

(** With authentication on, the registration token gets it in. *)
Lemma registration_needs_token_witness :
  exists reply, (sample_register AuthConfig_default (Some sample_answers)).1 = Ok reply /\ rg_worker_token reply = "chola_wkr_ff" /\
    auth_interceptor (fun s => s) AuthConfig_default (token_hashes (sample_register AuthConfig_default (Some sample_answers)).2)
      (Some "Bearer chola_wkr_ff") = Ok tt.
Proof.
  pose proof (registration_needs_token (HI := map_iter) (fun s => s) (fun _ => 9) AuthConfig_default 30 "ff" (Some sample_answers)
    again (busy_controller JRunning) eq_refl) as H.
  assert (E : exists c', register (HI := map_iter) (fun s => s) (fun _ => 9) AuthConfig_default 30 "ff" (Some sample_answers) again
    (busy_controller JRunning) = (Ok (register_reply 30 "Worker registered successfully" "chola_wkr_ff" "w"), c')
    /\ c' = (sample_register AuthConfig_default (Some sample_answers)).2)
    by (eexists; split; [vm_compute; reflexivity|vm_compute; reflexivity]).
  destruct E as (c' & E & Ec). rewrite E in H. destruct H as (a & _ & [(Hw & _)|(_ & _ & _ & _ & H)]); [by destruct Hw|].
  exists (register_reply 30 "Worker registered successfully" "chola_wkr_ff" "w"). rewrite Ec in H, E. split; [|split; [reflexivity|exact H]].
  exact (f_equal fst E).
Defined.

Definition cancel_seven : CancelJobRequest := {| cr_job_id := EmptyString; cr_job_group_id := "7"; cr_reason := "stop" |}.

Definition seven (s : string) : option Uuid := if bool_decide (s = "7") then Some 7%N else None.

Lemma cancel_settles_group_witness :
  let c' := (cancel_job (fun _ => "7") seven (fun _ => 9) None cancel_seven (busy_controller JRunning)).2 in
  balanced c' /\ counter CPU <$> workers c' !! "w" = Some 0.
Proof.
  intros c'. split; [|vm_compute; reflexivity].
  pose proof (cancel_settles_group (fun _ => "7") seven (fun _ => 9) None cancel_seven (busy_controller JRunning) 7%N
    (busy_group 7%N "w" 2 100) eq_refl ltac:(discriminate) ltac:(vm_compute; reflexivity) ltac:(reflexivity) ltac:(reflexivity)
    (busy_allocs _)) as H.
  subst c'. destruct (cancel_job _ _ _ _ _ _) as [r c']. apply H, busy_balanced.
Defined.

(** A stage that was queued when its group was cancelled is still handed out. *)
Definition queued_stage : Job :=
  {| (Job_new 0 "7-build" "make" JTCommon 0 0 0) with j_job_group_id := Some 7%N; j_stage_name := Some "build"; j_assigned_worker := Some "w" |}.

Example cancelled_stage_dispatched :
  let c := {| (busy_controller JRunning) with Controller.jobs := add_job queued_stage JobRegistry_new; job_stream_senders := {[ "w" := true ]} |} in
  let c' := (cancel_job (fun _ => "7") seven (fun _ => 9) None cancel_seven c).2 in
  option_map g_state (groups (jgroups c') !! 7%N) = Some GFailed /\
  exists a, last (effects (dispatch_job_for_worker (HI := map_iter) (fun _ => "7") (fun _ => "") 9 false "w" true c').2) = Some (Dispatch "w" a) /\
    ja_job_id a = "7-build".
Proof. split; [vm_compute; reflexivity|]. eexists. split; vm_compute; reflexivity. Qed.

Definition running_job : Job := assign_to 0 "w" (Job_new 0 "j" "make" JTCommon 0 0 0).

Lemma reconnect_resumes_jobs_witness :
  let c := {| (busy_controller JRunning) with Controller.jobs := add_job running_job JobRegistry_new;
              logs := (append_chunk true "j" "w" 0 "hello" 0 (LogAggregator_new None)).2 |} in
  let req := {| rq_worker_id := "w"; rq_running_jobs := [{| rj_job_id := "j"; rj_state := 3; rj_log_offset := 0 |}] |} in
  exists resp c', reconnect None None req c = (Ok resp, c') /\
    {| lr_job_id := "j"; lr_resume_from_offset := 5 |} ∈ rp_log_resumes resp.
Proof.
  intros c req. eexists _, _. split; [vm_compute; reflexivity|].
  match goal with |- _ ∈ rp_log_resumes ?r => set (resp := r) end.
  assert (E : reconnect None None req c = (Ok resp, (reconnect None None req c).2)) by (vm_compute; reflexivity).
  destruct (reconnect_resumes_jobs None None req c resp _ E) as (_ & _ & _ & H & _). apply H.
  split_and!; [left|vm_compute; reflexivity|]. exists running_job. split; [vm_compute; reflexivity|reflexivity].
Defined.

(** A worker that comes back with fewer CPUs than its group holds: the refusal of
    the allocation is ignored, so everything counts as free. *)
Example shrunk_worker_looks_free :
  let req := {| again with rr_total_cpu := 1 |} in
  let c' := (register (HI := map_iter) (fun s => s) (fun _ => 9) auth_off 30 "ff" None req (busy_controller JRunning)).2 in
  (counter CPU <$> workers c' !! "w") = Some 0 /\ ledger CPU "w" (jgroups c') = 2.
Proof. split; vm_compute; reflexivity. Qed.
