(* ===== verification/RedisStore.v ===== *)
(** * The Redis store (crates/ci-controller/src/redis_store.rs, reservation.rs)

    Redis itself is behind the type class [Redis]: the commands the store uses on
    a keyspace, with what their documentation says about them as laws. The store
    is then the keys it builds and the commands it sends. [ok k] says whether the
    k-th command of an operation is answered; an operation that is not answered
    stops with an error, and keeps what it did. The expiry of keys with a time to
    live is a separate event, [expire]. *)

From Stdlib Require Import ZArith Lia Ascii.
From stdpp Require Import gmap strings list fin_maps pretty sets.
From S2P Require Import Prelude Text.

(** ** Redis *)

Class Redis (S : Type) := {
  sadd : string -> string -> S -> S;
  srem : string -> string -> S -> S;
  sismember : string -> string -> S -> bool;
  smembers : string -> S -> list string;
  rget : string -> S -> option string;
  set_ex : string -> string -> Z -> S -> S;
  set_nx_ex : string -> string -> Z -> S -> bool * S;
  del : string -> S -> S;
  keys : (string -> bool) -> S -> list string;
  expire : string -> S -> S
}.

(** What the documentation promises. A key holds a string or a set. *)
Class RedisLaws (S : Type) `{Redis S} := {
  sismember_sadd k x k' x' s : sismember k x (sadd k' x' s) = bool_decide (k = k' /\ x = x') || sismember k x s;
  sismember_srem k x k' x' s : sismember k x (srem k' x' s) = negb (bool_decide (k = k' /\ x = x')) && sismember k x s;
  sismember_del k x k' s : k <> k' -> sismember k x (del k' s) = sismember k x s;
  sismember_expire k x k' s : k <> k' -> sismember k x (expire k' s) = sismember k x s;
  sismember_set_nx k x k' v t s : k <> k' -> sismember k x (set_nx_ex k' v t s).2 = sismember k x s;
  elem_of_smembers k x s : x ∈ smembers k s <-> sismember k x s = true;
  set_nx_free k v t s : rget k s = None -> (set_nx_ex k v t s).1 = true /\ rget k (set_nx_ex k v t s).2 = Some v;
  set_nx_held k v t s w : rget k s = Some w -> set_nx_ex k v t s = (false, s);
  rget_set_nx_other k k' v t s : k <> k' -> rget k (set_nx_ex k' v t s).2 = rget k s;
  rget_del k k' s : rget k (del k' s) = if decide (k = k') then None else rget k s;
  rget_expire k k' s : rget k (expire k' s) = if decide (k = k') then None else rget k s;
  rget_set_ex k k' v t s : rget k (set_ex k' v t s) = if decide (k = k') then Some v else rget k s;
  elem_of_keys p k s : k ∈ keys p s -> p k = true
}.

(** ** Keys *)

Fixpoint join (sep : string) (parts : list string) : string :=
  match parts with
  | [] => EmptyString
  | [p] => p
  | p :: parts' => (p +:+ sep +:+ join sep parts')%string
  end.

Definition key (prefix : string) (parts : list string) : string := (prefix +:+ join ":" parts)%string.

Definition reservation_key (prefix worker_id group_id : string) : string :=
  key prefix ["worker"; "reservation"; worker_id; group_id].

Definition lock_key (prefix lock_name : string) : string := key prefix ["lock"; lock_name].

Definition queue_key (prefix worker_id : string) : string := key prefix ["purge"; "queue"; worker_id].

Definition inflight_key (prefix worker_id group_id : string) : string := key prefix ["purge"; "inflight"; worker_id; group_id].

(** A [KEYS] pattern that is a literal followed by a star, when the literal has
    no special character. *)
Definition star_pattern (lit k : string) : bool := starts_with lit k.

(** [parse_worker_death_key] *)
Definition parse_worker_death_key (k prefix : string) : option string := strip_prefix (prefix +:+ "worker:alive:") k.

(** ** Operations *)

Section Store.
Context {S : Type} `{Redis S} (prefix : string).

Definition reserve_worker (ok : bool) (worker_id group_id : string) (ttl_secs : Z) (s : S) : result unit string * S :=
  if ok then (Ok tt, set_ex (reservation_key prefix worker_id group_id) "1" ttl_secs s) else (Err "redis", s).

Definition release_worker_reservation (ok : bool) (worker_id group_id : string) (s : S) : result unit string * S :=
  if ok then (Ok tt, del (reservation_key prefix worker_id group_id) s) else (Err "redis", s).

(** The keys found are deleted one by one, until a command fails. *)
Fixpoint del_all (ok : nat -> bool) (n : nat) (ks : list string) (s : S) : result unit string * S :=
  match ks with
  | [] => (Ok tt, s)
  | k :: ks' => if ok n then del_all ok (Datatypes.S n) ks' (del k s) else (Err "redis", s)
  end.

Definition release_all_worker_reservations (ok : nat -> bool) (worker_id : string) (s : S) : result nat string * S :=
  if ok 0%nat then
    let ks := keys (star_pattern (key prefix ["worker"; "reservation"; worker_id; EmptyString])) s in
    let '(r, s') := del_all ok 1 ks s in
    (match r with Ok _ => Ok (length ks) | Err e => Err e end, s')
  else (Err "redis", s).

(** [get_worker_reservations] and [scan_all_reservations] *)
Definition get_worker_reservations (ok : bool) (worker_id : string) (s : S) : result (list string) string :=
  let p := key prefix ["worker"; "reservation"; worker_id; EmptyString] in
  if ok then Ok (omap (strip_prefix p) (keys (star_pattern p) s)) else Err "redis".

Definition reservation_of_key (k : string) : option (string * string) :=
  suffix ← strip_prefix (key prefix ["worker"; "reservation"; EmptyString]) k; split_once ":" suffix.

Definition scan_all_reservations (ok : bool) (s : S) : result (list (string * string)) string :=
  if ok then Ok (omap reservation_of_key (keys (star_pattern (key prefix ["worker"; "reservation"; EmptyString])) s))
  else Err "redis".

(** Locks: [acquire_lock] draws its owner; the release is a script, run
    atomically. *)
Definition acquire_lock_with_holder (ok : bool) (lock_name holder_id : string) (ttl_secs : Z) (s : S) : result bool string * S :=
  if ok then let '(b, s') := set_nx_ex (lock_key prefix lock_name) holder_id ttl_secs s in (Ok b, s')
  else (Err "redis", s).

Definition release_lock_with_holder (ok : bool) (lock_name holder_id : string) (s : S) : result bool string * S :=
  if ok then
    if bool_decide (rget (lock_key prefix lock_name) s = Some holder_id)
    then (Ok true, del (lock_key prefix lock_name) s) else (Ok false, s)
  else (Err "redis", s).

Definition acquire_lock (ok : bool) (owner lock_name : string) (ttl_secs : Z) (s : S) : result (option string) string * S :=
  match acquire_lock_with_holder ok lock_name owner ttl_secs s with
  | (Ok b, s') => (Ok (if b then Some owner else None), s')
  | (Err e, s') => (Err e, s')
  end.

Definition release_lock (ok : bool) (lock_name owner : string) (s : S) : result bool string * S :=
  release_lock_with_holder ok lock_name owner s.

Definition release_lock_force (ok : bool) (lock_name : string) (s : S) : result unit string * S :=
  if ok then (Ok tt, del (lock_key prefix lock_name) s) else (Err "redis", s).

(** The purge queue. *)
Definition enqueue_purge (ok : nat -> bool) (worker_id group_id : string) (s : S) : result unit string * S :=
  if ok 0%nat then
    let s1 := sadd (queue_key prefix worker_id) group_id s in
    if ok 1%nat then (Ok tt, (set_nx_ex (inflight_key prefix worker_id group_id) "1" 3600 s1).2) else (Err "redis", s1)
  else (Err "redis", s).

Definition dequeue_purges (ok : bool) (worker_id : string) (s : S) : result (list string) string :=
  if ok then Ok (smembers (queue_key prefix worker_id) s) else Err "redis".

Definition ack_purge (ok : nat -> bool) (worker_id group_id : string) (s : S) : result unit string * S :=
  if ok 0%nat then
    let s1 := srem (queue_key prefix worker_id) group_id s in
    if ok 1%nat then (Ok tt, del (inflight_key prefix worker_id group_id) s1) else (Err "redis", s1)
  else (Err "redis", s).

Definition is_purge_pending (ok : bool) (worker_id group_id : string) (s : S) : result bool string :=
  if ok then Ok (sismember (queue_key prefix worker_id) group_id s) else Err "redis".
End Store.

(** reservation.rs: the store under the group's id. *)
Section Reservations.
Context {S : Type} `{Redis S} (prefix : string) (uuid_to_string : Uuid -> string).

Definition reservation_reserve (ok : bool) (worker_id : string) (gid : Uuid) (ttl_secs : Z) (s : S) : result unit string * S :=
  reserve_worker prefix ok worker_id (uuid_to_string gid) ttl_secs s.

Definition reservation_release (ok : bool) (worker_id : string) (gid : Uuid) (s : S) : result unit string * S :=
  release_worker_reservation prefix ok worker_id (uuid_to_string gid) s.

Definition reservation_release_force (ok : nat -> bool) (worker_id : string) (s : S) : result unit string * S :=
  let '(r, s') := release_all_worker_reservations prefix ok worker_id s in
  (match r with Ok _ => Ok tt | Err e => Err e end, s').
End Reservations.

(** ** Locks exclude *)

Section Locks.
Context {S : Type} `{RedisLaws S} (prefix : string).

(** What clients do to one lock while others go on: the holder's key is gone when
    its time has run out. *)
Inductive lock_event :=
| Acquire (holder : string)
| Release (holder : string)
| TimeOut.

Definition lock_step (name : string) (s : S) (e : lock_event) : option bool * S :=
  match e with
  | Acquire h => let '(r, s') := acquire_lock_with_holder prefix true name h 60 s in (match r with Ok b => Some b | Err _ => None end, s')
  | Release h => let '(r, s') := release_lock_with_holder prefix true name h s in (match r with Ok b => Some b | Err _ => None end, s')
  | TimeOut => (None, expire (lock_key prefix name) s)
  end.

(** The specification: a cell that holds a holder or nothing. *)
Definition cell_step (c : option string) (e : lock_event) : option bool * option string :=
  match e, c with
  | Acquire h, None => (Some true, Some h)
  | Acquire _, Some h => (Some false, Some h)
  | Release h, Some h' => if decide (h = h') then (Some true, None) else (Some false, Some h')
  | Release _, None => (Some false, None)
  | TimeOut, _ => (None, None)
  end.

Fixpoint run {A : Type} (step : A -> lock_event -> option bool * A) (a : A) (es : list lock_event) : list (option bool) * A :=
  match es with
  | [] => ([], a)
  | e :: es' => let '(r, a') := step a e in let '(rs, a'') := run step a' es' in (r :: rs, a'')
  end.

Lemma lock_step_refines name s e :
  let '(r, s') := lock_step name s e in
  cell_step (rget (lock_key prefix name) s) e = (r, rget (lock_key prefix name) s').
Proof.
  destruct e as [h|h|]; simpl.
  - unfold acquire_lock_with_holder. destruct (rget (lock_key prefix name) s) as [w|] eqn:E.
    + by rewrite (set_nx_held _ _ _ _ w E), E.
    + destruct (set_nx_free (lock_key prefix name) h 60 s E) as [E1 E2].
      destruct (set_nx_ex _ h 60 s) as [b s']. simpl in *. by rewrite E1, E2.
  - unfold release_lock_with_holder. destruct (rget (lock_key prefix name) s) as [w|] eqn:E.
    + destruct (decide (h = w)) as [->|Hne].
      * rewrite bool_decide_eq_true_2 by done. by rewrite rget_del, decide_True by done.
      * rewrite bool_decide_eq_false_2 by congruence. by rewrite E.
    + rewrite bool_decide_eq_false_2 by done. by rewrite E.
  - by rewrite rget_expire, decide_True by done.
Qed.

(** C23. The distributed lock is a lock: whatever clients do to it, in any order,
    with keys expiring at any time, the answers are those of a cell with at most
    one holder, so that an acquisition succeeds exactly when nobody holds the
    lock, and only the holder's release frees it. *)
Theorem lock_refines_cell (name : string) (s : S) (es : list lock_event) :
  let '(answers, s') := run (lock_step name) s es in
  run cell_step (rget (lock_key prefix name) s) es = (answers, rget (lock_key prefix name) s').
Proof.
  revert s. induction es as [|e es IH]; intros s; [done|]. simpl.
  pose proof (lock_step_refines name s e) as Hs. destruct (lock_step name s e) as [r s1]. rewrite Hs.
  specialize (IH s1). destruct (run (lock_step name) s1 es) as [rs s2]. by rewrite IH.
Qed.
End Locks.

(** ** Reservation keys *)

Lemma reservation_key_eq prefix wid gid :
  reservation_key prefix wid gid = (key prefix ["worker"; "reservation"; EmptyString] +:+ (wid +:+ String ":" gid))%string.
Proof. unfold reservation_key, key. simpl. by rewrite !str_app_assoc. Qed.

(** Scanning recovers what was reserved, for worker ids without a colon. *)
Lemma reservation_roundtrip prefix wid gid :
  has_char ":" wid = false -> reservation_of_key prefix (reservation_key prefix wid gid) = Some (wid, gid).
Proof.
  intros Hw. unfold reservation_of_key. rewrite reservation_key_eq, strip_prefix_app. simpl. by apply split_once_app.
Qed.

(** With one, the reservation is attributed to another worker, and releasing all
    reservations of that worker covers it. *)
Example reservation_colon :
  reservation_of_key "chola:" (reservation_key "chola:" "rack1:w" "g") = Some ("rack1", "w:g") /\
  star_pattern (key "chola:" ["worker"; "reservation"; "rack1"; EmptyString]) (reservation_key "chola:" "rack1:w" "g") = true.
Proof. split; reflexivity. Qed.

(** ** A keyspace *)

Record keyspace := {
  ks_sets : gmap string (gset string);
  ks_strings : gmap string string
}.

Definition members_of (k : string) (s : keyspace) : gset string := default ∅ (ks_sets s !! k).

#[export] Instance map_redis : Redis keyspace := {
  sadd k x s := {| s with ks_sets := <[k := {[ x ]} ∪ members_of k s]> (ks_sets s) |};
  srem k x s := {| s with ks_sets := <[k := members_of k s ∖ {[ x ]}]> (ks_sets s) |};
  sismember k x s := bool_decide (x ∈ members_of k s);
  smembers k s := elements (members_of k s);
  rget k s := ks_strings s !! k;
  set_ex k v t s := {| s with ks_strings := <[k := v]> (ks_strings s) |};
  set_nx_ex k v t s :=
    match ks_strings s !! k with
    | Some _ => (false, s)
    | None => (true, {| s with ks_strings := <[k := v]> (ks_strings s) |})
    end;
  del k s := {| ks_sets := delete k (ks_sets s); ks_strings := delete k (ks_strings s) |};
  keys p s := filter (fun k => p k = true) (elements (dom (ks_sets s) ∪ dom (ks_strings s)));
  expire k s := {| ks_sets := delete k (ks_sets s); ks_strings := delete k (ks_strings s) |}
}.

Lemma members_insert k k' m s :
  members_of k {| s with ks_sets := <[k' := m]> (ks_sets s) |} = if decide (k = k') then m else members_of k s.
Proof.
  unfold members_of. simpl. destruct (decide (k = k')) as [->|Hne]; [by rewrite lookup_insert_eq|by rewrite lookup_insert_ne].
Qed.

#[export] Instance map_redis_laws : RedisLaws keyspace.
Proof.
  split; simpl.
  - intros. rewrite members_insert. case_decide; subst; repeat case_bool_decide; set_solver.
  - intros. rewrite members_insert. case_decide; subst; repeat case_bool_decide; set_solver.
  - intros. unfold members_of. simpl. by rewrite lookup_delete_ne.
  - intros. unfold members_of. simpl. by rewrite lookup_delete_ne.
  - intros. by case_match.
  - intros. rewrite elem_of_elements. by case_bool_decide.
  - intros. rewrite H. simpl. by rewrite lookup_insert_eq.
  - intros. by rewrite H.
  - intros. case_match; [done|]. simpl. by rewrite lookup_insert_ne.
  - intros. case_decide; subst; [by rewrite lookup_delete_eq|by rewrite lookup_delete_ne].
  - intros. case_decide; subst; [by rewrite lookup_delete_eq|by rewrite lookup_delete_ne].
  - intros. case_decide; subst; [by rewrite lookup_insert_eq|by rewrite lookup_insert_ne].
  - intros p k s Hk. by apply list_elem_of_filter in Hk as [? _].
Qed.

(** Two holders, a release by the wrong one, a time-out. *)
Lemma lock_refines_cell_witness :
  let es := [Acquire "a"; Acquire "b"; Release "b"; TimeOut; Acquire "b"; Release "a"] in
  run cell_step None es = ([Some true; Some false; Some false; None; Some true; Some false], Some "b") /\
  (run (lock_step (S := keyspace) "p:" "l") {| ks_sets := ∅; ks_strings := ∅ |} es).1 = (run cell_step None es).1.
Proof.
  intros es. split; [reflexivity|].
  pose proof (lock_refines_cell (S := keyspace) "p:" "l" {| ks_sets := ∅; ks_strings := ∅ |} es) as H.
  destruct (run (lock_step _ _) _ es) as [rs s']. change (rget (lock_key "p:" "l") {| ks_sets := ∅; ks_strings := ∅ |}) with (@None string) in H.
  by rewrite H.
Defined.
