(* ===== verification/Retention.v ===== *)
(** * Retention and the purge of builds' files
    (crates/ci-controller/src/retention.rs; [drain_pending_purges],
    [handle_purge_ack], [all_workers_acked], [stamp_files_purged_if_pending] and
    force_retention_tick of grpc_server.rs; [resolve_setting] of state.rs)

    The database is a record of its answers; what a sweep does to the files and
    the database is a list of actions. Redis is the store of [RedisStore]. *)

From Stdlib Require Import ZArith Lia.
From stdpp Require Import gmap strings list fin_maps pretty sets.
From S2P Require Import Prelude Text Config F64 WorkerModel JobModel StageModel WorkerRegistry JobRegistry.
From S2P Require Import StageRunner Agent Controller RedisStore Session.

(** ** Settings *)

(** [settings] is what the database answers, [None] without one. *)
Definition resolve_setting (settings : option (result (gmap string string) string)) (k config_default : string) : string :=
  match settings with
  | Some (Ok m) => default config_default (m !! k)
  | _ => config_default
  end.

Definition resolve_setting_u64 (settings : option (result (gmap string string) string)) (k : string) (config_default : Z) : Z :=
  default config_default (parse_u64 (resolve_setting settings k (pretty config_default))).

(** [str::parse::<bool>] and [bool::to_string] *)
Definition parse_bool (s : string) : option bool :=
  if bool_decide (s = "true") then Some true else if bool_decide (s = "false") then Some false else None.

Definition bool_to_string (b : bool) : string := if b then "true" else "false".

Definition resolve_setting_bool (settings : option (result (gmap string string) string)) (k : string) (config_default : bool) : bool :=
  default config_default (parse_bool (resolve_setting settings k (bool_to_string config_default))).

(** ** Sweeps *)

Record RunOnceOpts := {
  run_t1_opt : bool;
  run_t2_opt : bool;
  run_t3_opt : bool
}.

Definition RunOnceOpts_all : RunOnceOpts := {| run_t1_opt := true; run_t2_opt := true; run_t3_opt := true |}.

Record RunOnceResult := {
  t1_purged : Z;
  t2_archived : Z;
  t3_deleted : Z
}.

Inductive purge_action :=
| RemoveDir (path : string)
| MarkPurged (group_ids : list Uuid)
| Archive (group_ids : list Uuid)
| DeleteArchive (group_ids : list Uuid).

(** The queries (with the age in days and a limit) and updates of storage.rs that
    a sweep makes; an update answers with the number of rows. *)
Record Database := {
  find_groups_for_t1 : Z -> Z -> result (list Uuid) string;
  find_groups_for_t2 : Z -> Z -> result (list Uuid) string;
  find_archive_for_t3 : Z -> Z -> result (list Uuid) string;
  find_excess_groups_per_repo : Z -> result (list Uuid) string;
  workers_for_group : Uuid -> result (list string) string;
  mark_files_purged : list Uuid -> result Z string;
  archive_groups_batch : list Uuid -> result Z string;
  delete_archive_batch : list Uuid -> result Z string
}.

(** A worker counts as reachable by its last heartbeat. *)
Definition is_live (now heartbeat_timeout_secs : Z) (wr : WorkerRegistry) (wid : string) : bool :=
  match wr !! wid with
  | Some w =>
      match ws_last_heartbeat w with
      | Some hb => num_seconds (now - hb_timestamp hb) <? heartbeat_timeout_secs
      | None => false
      end
  | None => false
  end.

Definition filter_live_workers (now heartbeat_timeout_secs : Z) (wr : WorkerRegistry) (owners : list string) : list string :=
  filter (fun wid => is_live now heartbeat_timeout_secs wr wid = true) owners.

Section Sweep.
Context {S : Type} `{Redis S} (prefix : string) (uuid_to_string : Uuid -> string).

(** [ok g w k]: is the k-th command of the enqueueing of group [g] for worker
    [w] answered? *)
Definition enqueue_all (ok : Uuid -> string -> nat -> bool) (gid : Uuid) (live : list string) (s : S) : S :=
  foldl (fun s wid => (enqueue_purge prefix (ok gid wid) wid (uuid_to_string gid) s).2) s live.

(** The loop over the candidates: the groups to stamp at once, and the store. *)
Definition fan_step (ok : Uuid -> string -> nat -> bool) (db : Database) (now timeout : Z) (wr : WorkerRegistry)
    (st : list Uuid * S) (gid : Uuid) : list Uuid * S :=
  let live := filter_live_workers now timeout wr (unwrap_or [] (workers_for_group db gid)) in
  if bool_decide (live = []) then (st.1 ++ [gid], st.2) else (st.1, enqueue_all ok gid live st.2).

Definition fan_out (ok : Uuid -> string -> nat -> bool) (db : Database) (now timeout : Z) (wr : WorkerRegistry)
    (candidates : list Uuid) (s : S) : list Uuid * S :=
  foldl (fan_step ok db now timeout wr) ([], s) candidates.

(** [mark_files_purged] of a list that is not empty, with its [?]. *)
Definition stamp_now (db : Database) (gids : list Uuid) : result Z string * list purge_action :=
  (mark_files_purged db gids, [MarkPurged gids]).

Definition run_t1 (ok : Uuid -> string -> nat -> bool) (db : Database) (now timeout : Z) (wr : WorkerRegistry)
    (log_dir : option string) (t1_days : Z) (enable_worker_fanout : bool) (redis : option S)
    : result Z string * list purge_action * option S :=
  match find_groups_for_t1 db t1_days 100 with
  | Err e => (Err e, [], redis)
  | Ok [] => (Ok 0, [], redis)
  | Ok candidates =>
      let removed := match log_dir with
                     | Some dir => (fun gid => RemoveDir (dir +:+ "/" +:+ uuid_to_string gid)%string) <$> candidates
                     | None => []
                     end in
      if enable_worker_fanout then
        match redis with
        | None => let '(r, acts) := stamp_now db candidates in (r, removed ++ acts, None)
        | Some s =>
            let '(stamp, s') := fan_out ok db now timeout wr candidates s in
            if bool_decide (stamp = []) then (Ok 0, removed, Some s')
            else let '(r, acts) := stamp_now db stamp in (r, removed ++ acts, Some s')
        end
      else let '(r, acts) := stamp_now db candidates in (r, removed ++ acts, redis)
  end.

(** Batches of at most n groups. *)
Fixpoint chunks_loop {A : Type} (fuel n : nat) (l : list A) : list (list A) :=
  match fuel, l with
  | _, [] => []
  | O, _ => []
  | Datatypes.S f, _ => take n l :: chunks_loop f n (drop n l)
  end.

Definition chunks {A : Type} (n : nat) (l : list A) : list (list A) := chunks_loop (length l) n l.

Fixpoint archive_all (db : Database) (batches : list (list Uuid)) (total : Z) : result Z string * list purge_action :=
  match batches with
  | [] => (Ok total, [])
  | b :: bs =>
      match archive_groups_batch db b with
      | Err e => (Err e, [Archive b])
      | Ok n => let '(r, acts) := archive_all db bs (u64_add total n) in (r, Archive b :: acts)
      end
  end.

Definition archive_excess (db : Database) (max_per_repo total : Z) : result Z string * list purge_action :=
  if 0 <? max_per_repo then
    match find_excess_groups_per_repo db max_per_repo with
    | Err e => (Err e, [])
    | Ok excess => archive_all db (chunks 100 excess) total
    end
  else (Ok total, []).

Definition run_t2 (db : Database) (t2_days max_per_repo : Z) : result Z string * list purge_action :=
  match find_groups_for_t2 db t2_days 100 with
  | Err e => (Err e, [])
  | Ok [] => archive_excess db max_per_repo 0
  | Ok candidates =>
      match archive_groups_batch db candidates with
      | Err e => (Err e, [Archive candidates])
      | Ok n => let '(r, acts) := archive_excess db max_per_repo (u64_add 0 n) in (r, Archive candidates :: acts)
      end
  end.

Definition run_t3 (db : Database) (t3_days : Z) : result Z string * list purge_action :=
  match find_archive_for_t3 db t3_days 100 with
  | Err e => (Err e, [])
  | Ok [] => (Ok 0, [])
  | Ok candidates => (delete_archive_batch db candidates, [DeleteArchive candidates])
  end.

(** The tier ages in force: a setting of the database, else the default. *)
Definition tier_days (settings : option (result (gmap string string) string)) (k : string) (fallback : Z) : Z :=
  as_i32 (resolve_setting_u64 settings k (as_u64 fallback)).

Definition tiers (settings : option (result (gmap string string) string)) (fallback : RetentionConfig) : Z * Z * Z :=
  (tier_days settings "retention.t1_purge_files_after_days" (t1_purge_files_after_days fallback),
   tier_days settings "retention.t2_archive_after_days" (t2_archive_after_days fallback),
   tier_days settings "retention.t3_delete_archive_after_days" (t3_delete_archive_after_days fallback)).

(** What a sweep runs against. *)
Record Sweep := {
  sw_ok : Uuid -> string -> nat -> bool;
  sw_settings : option (result (gmap string string) string);
  sw_now : timestamp;
  sw_timeout : Z;
  sw_workers : WorkerRegistry;
  sw_log_dir : option string
}.

Definition run_once (sw : Sweep) (db : option Database) (fallback : RetentionConfig) (opts : RunOnceOpts) (redis : option S)
    : result RunOnceResult string * list purge_action * option S :=
  match db with
  | None => (Err "No storage", [], redis)
  | Some db =>
      let run_all := negb (run_t1_opt opts) && negb (run_t2_opt opts) && negb (run_t3_opt opts) in
      let '(t1, t2, t3) := tiers (sw_settings sw) fallback in
      let max_per_repo := tier_days (sw_settings sw) "retention.max_builds_per_repo" (max_builds_per_repo fallback) in
      let fanout := resolve_setting_bool (sw_settings sw) "retention.enable_worker_fanout" (enable_worker_fanout fallback) in
      let '(r1, acts1, redis1) :=
        if run_t1_opt opts || run_all
        then run_t1 (sw_ok sw) db (sw_now sw) (sw_timeout sw) (sw_workers sw) (sw_log_dir sw) t1 fanout redis
        else (Ok 0, [], redis) in
      match r1 with
      | Err e => (Err e, acts1, redis1)
      | Ok n1 =>
          let '(r2, acts2) := if run_t2_opt opts || run_all then run_t2 db t2 max_per_repo else (Ok 0, []) in
          match r2 with
          | Err e => (Err e, acts1 ++ acts2, redis1)
          | Ok n2 =>
              let '(r3, acts3) := if run_t3_opt opts || run_all then run_t3 db t3 else (Ok 0, []) in
              match r3 with
              | Err e => (Err e, acts1 ++ acts2 ++ acts3, redis1)
              | Ok n3 => (Ok {| t1_purged := as_i64 n1; t2_archived := as_i64 n2; t3_deleted := as_i64 n3 |}, acts1 ++ acts2 ++ acts3, redis1)
              end
          end
      end
  end.

(** A tick of the background loop: nothing runs unless the tiers are positive and
    in order. *)
Definition tick_once (sw : Sweep) (db : option Database) (fallback : RetentionConfig) (redis : option S)
    : result unit string * list purge_action * option S :=
  let '(t1, t2, t3) := tiers (sw_settings sw) fallback in
  if (t1 <=? 0) || (t2 <=? 0) || (t3 <=? 0) then (Ok tt, [], redis)
  else if (t2 <=? t1) || (t3 <=? t2) then (Ok tt, [], redis)
  else
    let '(r, acts, redis') := run_once sw db fallback RunOnceOpts_all redis in
    (match r with Ok _ => Ok tt | Err e => Err e end, acts, redis').

Record ForceRetentionTickResponse := {
  ft_t1_purged : Z;
  ft_t2_archived : Z;
  ft_t3_deleted : Z;
  ft_message : string
}.

Definition force_retention_tick (sw : Sweep) (db : option Database) (opts : RunOnceOpts) (redis : option S)
    : result ForceRetentionTickResponse Status * list purge_action * option S :=
  match db with
  | None => (Err (unavailable "Storage not configured"), [], redis)
  | Some _ =>
      let '(r, acts, redis') := run_once sw db RetentionConfig_default opts redis in
      (match r with
       | Err e => Err (internal ("Retention sweep failed: " +:+ e)%string)
       | Ok n => Ok {| ft_t1_purged := t1_purged n; ft_t2_archived := t2_archived n; ft_t3_deleted := t3_deleted n;
                       ft_message := ("T1 purged=" +:+ pretty (t1_purged n) +:+ " T2 archived=" +:+ pretty (t2_archived n)
                                      +:+ " T3 deleted=" +:+ pretty (t3_deleted n))%string |}
       end, acts, redis')
  end.

(** ** The purge protocol *)

Context (parse_uuid : string -> option Uuid).

(** What a worker that opens its job stream is sent; [sent n] says whether the
    n-th message can be sent. *)
Fixpoint send_purges (sent : nat -> bool) (n : nat) (queued : list string) : list JobAssignment :=
  match queued with
  | [] => []
  | g :: gs =>
      match parse_uuid g with
      | None => send_purges sent n gs
      | Some _ => if sent n then build_purge_assignment g :: send_purges sent (Datatypes.S n) gs else []
      end
  end.

Definition drain_pending_purges (ok : bool) (sent : nat -> bool) (worker_id : string) (redis : option S) : list JobAssignment :=
  match redis with
  | None => []
  | Some s => send_purges sent 0 (unwrap_or [] (dequeue_purges prefix ok worker_id s))
  end.

(** The loop over the owners. *)
Fixpoint acked_by (ok : string -> bool) (now timeout : Z) (wr : WorkerRegistry) (gid : Uuid) (s : S) (owners : list string) : bool :=
  match owners with
  | [] => true
  | wid :: ws =>
      if is_live now timeout wr wid then
        match is_purge_pending prefix (ok wid) wid (uuid_to_string gid) s with
        | Ok false => acked_by ok now timeout wr gid s ws
        | Ok true | Err _ => false
        end
      else acked_by ok now timeout wr gid s ws
  end.

Definition all_workers_acked (ok : string -> bool) (db : option Database) (now timeout : Z) (wr : WorkerRegistry) (s : S) (gid : Uuid)
    : bool :=
  match db with
  | None => true
  | Some db =>
      match workers_for_group db gid with
      | Ok owners => acked_by ok now timeout wr gid s owners
      | Err _ => false
      end
  end.

Definition stamp_files_purged_if_pending (db : option Database) (gids : list Uuid) : list purge_action :=
  match db with Some _ => [MarkPurged gids] | None => [] end.

Record JobStatusAck := {
  ak_ok : bool;
  ak_message : string
}.

Definition handle_purge_ack (ack_ok : nat -> bool) (pending_ok : string -> bool) (db : option Database) (now timeout : Z)
    (wr : WorkerRegistry) (req : JobStatusUpdate) (redis : option S) : JobStatusAck * list purge_action * option S :=
  match parse_uuid (su_job_group_id req) with
  | None => ({| ak_ok := false; ak_message := "invalid group_id" |}, [], redis)
  | Some gid =>
      if su_state req =? PROTO_FAILED then
        ({| ak_ok := true; ak_message := "purge ack (failed; queued for retry)" |}, [], redis)
      else
        match redis with
        | None => ({| ak_ok := true; ak_message := "purge ack (no redis)" |}, stamp_files_purged_if_pending db [gid], None)
        | Some s =>
            let '(_, s') := ack_purge prefix ack_ok (su_worker_id req) (su_job_group_id req) s in
            let acts := if all_workers_acked pending_ok db now timeout wr s' gid then stamp_files_purged_if_pending db [gid] else [] in
            ({| ak_ok := true; ak_message := "purge ack" |}, acts, Some s')
        end
  end.
End Sweep.

(** ** T1 *)

Section Purging.
Context {S : Type} `{RedisLaws S} (prefix : string) (uuid_to_string : Uuid -> string).

Definition pending (wid g : string) (s : S) : bool := sismember (queue_key prefix wid) g s.

Lemma queue_not_inflight wid wid' g : queue_key prefix wid <> inflight_key prefix wid' g.
Proof. unfold queue_key, inflight_key, key. intros E%(inj (String.append prefix)). discriminate E. Qed.

Lemma queue_key_inj wid wid' : queue_key prefix wid = queue_key prefix wid' -> wid = wid'.
Proof. unfold queue_key, key. intros E%(inj (String.append prefix)). by injection E. Qed.

Lemma pending_enqueue ok wid g s wid' g' :
  pending wid' g' (enqueue_purge prefix ok wid g s).2 =
    (ok 0%nat && bool_decide (wid' = wid /\ g' = g)) || pending wid' g' s.
Proof.
  unfold enqueue_purge, pending. destruct (ok 0%nat); [|done].
  assert (E : bool_decide (queue_key prefix wid' = queue_key prefix wid /\ g' = g) = bool_decide (wid' = wid /\ g' = g)).
  { apply bool_decide_ext. split; intros [E ->]; [by apply queue_key_inj in E|by subst]. }
  destruct (ok 1%nat); simpl; rewrite ?sismember_set_nx by apply queue_not_inflight; by rewrite sismember_sadd, E.
Qed.

Lemma pending_ack ok wid g s wid' g' :
  pending wid' g' (ack_purge prefix ok wid g s).2 = negb (ok 0%nat && bool_decide (wid' = wid /\ g' = g)) && pending wid' g' s.
Proof.
  unfold ack_purge, pending. destruct (ok 0%nat); [|done].
  assert (E : bool_decide (queue_key prefix wid' = queue_key prefix wid /\ g' = g) = bool_decide (wid' = wid /\ g' = g)).
  { apply bool_decide_ext. split; intros [E ->]; [by apply queue_key_inj in E|by subst]. }
  destruct (ok 1%nat); simpl; rewrite ?sismember_del by apply queue_not_inflight; by rewrite sismember_srem, E.
Qed.

Lemma enqueue_all_spec ok gid live s wid g :
  pending wid g (enqueue_all prefix uuid_to_string ok gid live s) = true <->
  (wid ∈ live /\ ok gid wid 0%nat = true /\ g = uuid_to_string gid) \/ pending wid g s = true.
Proof.
  unfold enqueue_all. revert s. induction live as [|x live IH]; intros s; simpl; [set_solver|].
  rewrite IH, pending_enqueue, orb_true_iff, andb_true_iff, bool_decide_eq_true, elem_of_cons. naive_solver.
Qed.

Definition live_owners (db : Database) (now timeout : Z) (wr : WorkerRegistry) (gid : Uuid) : list string :=
  filter_live_workers now timeout wr (unwrap_or [] (workers_for_group db gid)).

Lemma fan_out_loop ok db now timeout wr candidates : forall stamp s,
  let '(stamp', s') := foldl (fan_step prefix uuid_to_string ok db now timeout wr) (stamp, s) candidates in
  (forall gid, gid ∈ stamp' <-> gid ∈ stamp \/ (gid ∈ candidates /\ live_owners db now timeout wr gid = [])) /\
  (forall wid g, pending wid g s' = true <-> pending wid g s = true \/
     exists gid, gid ∈ candidates /\ wid ∈ live_owners db now timeout wr gid /\ ok gid wid 0%nat = true /\ g = uuid_to_string gid).
Proof.
  induction candidates as [|x l IH]; intros stamp s; simpl; [set_solver|].
  unfold fan_step at 2. fold (live_owners db now timeout wr x). simpl. case_bool_decide as Hx.
  - specialize (IH (stamp ++ [x]) s). destruct (foldl _ _ l) as [stamp' s']. destruct IH as [I1 I2]. split.
    + intros gid. rewrite I1, elem_of_app, list_elem_of_singleton, elem_of_cons. naive_solver.
    + intros wid g. rewrite I2. split.
      * intros [?|(gid & Hin & ?)]; [by left|]. right. exists gid. split; [by right|done].
      * intros [?|(gid & Hc & Hin & ?)]; [by left|]. right. exists gid. split; [|done].
        apply elem_of_cons in Hc as [->|Hc]; [|done]. rewrite Hx in Hin. by apply not_elem_of_nil in Hin.
  - specialize (IH stamp (enqueue_all prefix uuid_to_string ok x (live_owners db now timeout wr x) s)).
    destruct (foldl _ _ l) as [stamp' s']. destruct IH as [I1 I2]. split.
    + intros gid. rewrite I1, elem_of_cons. naive_solver.
    + intros wid g. rewrite I2, enqueue_all_spec. split.
      * intros [[(? & ? & ?)|?]|(gid & Hc & ?)]; [|by left|].
        -- right. exists x. split_and!; [by left|done..].
        -- right. exists gid. split; [by right|done].
      * intros [?|(gid & [->|Hc]%elem_of_cons & ?)]; [by left; right|left; left; naive_solver|].
        right. by exists gid.
Qed.

Lemma fan_out_spec ok db now timeout wr candidates s stamp s' :
  fan_out prefix uuid_to_string ok db now timeout wr candidates s = (stamp, s') ->
  (forall gid, gid ∈ stamp <-> gid ∈ candidates /\ live_owners db now timeout wr gid = []) /\
  (forall wid g, pending wid g s' = true <-> pending wid g s = true \/
     exists gid, gid ∈ candidates /\ wid ∈ live_owners db now timeout wr gid /\ ok gid wid 0%nat = true /\ g = uuid_to_string gid).
Proof.
  intros E. pose proof (fan_out_loop ok db now timeout wr candidates [] s) as Hs. unfold fan_out in E. rewrite E in Hs.
  destruct Hs as [H1 H2]. split; [|exact H2]. intros gid. rewrite H1. set_solver.
Qed.

(** Files are not forgotten: a sweep that fans out tells every reachable
    worker that ran a stage of an old build to remove its files, and counts as
    purged exactly the builds that no reachable worker owns. Whatever was queued
    stays queued, and nothing else is queued; on the controller only the
    directories of these builds are removed. *)
Theorem t1_tells_every_owner (ok : Uuid -> string -> nat -> bool) (db : Database) (now timeout : Z) (wr : WorkerRegistry)
    (log_dir : option string) (t1_days : Z) (candidates : list Uuid) (s : S) :
  find_groups_for_t1 db t1_days 100 = Ok candidates ->
  let '(r, acts, redis') := run_t1 prefix uuid_to_string ok db now timeout wr log_dir t1_days true (Some s) in
  exists s', redis' = Some s' /\
  (forall wid g, pending wid g s' = true <-> pending wid g s = true \/
     exists gid, gid ∈ candidates /\ wid ∈ live_owners db now timeout wr gid /\ ok gid wid 0%nat = true /\ g = uuid_to_string gid) /\
  (forall gids, MarkPurged gids ∈ acts -> forall gid, gid ∈ gids <-> gid ∈ candidates /\ live_owners db now timeout wr gid = []) /\
  (forall gid, gid ∈ candidates -> live_owners db now timeout wr gid = [] -> exists gids, gid ∈ gids /\ MarkPurged gids ∈ acts) /\
  (forall path, RemoveDir path ∈ acts -> exists dir gid, log_dir = Some dir /\ gid ∈ candidates /\
     path = (dir +:+ "/" +:+ uuid_to_string gid)%string).
Proof.
  intros Hf. unfold run_t1. rewrite Hf.
  destruct candidates as [|c0 cs].
  { exists s. split_and!; [done|set_solver|set_solver|set_solver|set_solver]. }
  set (l := c0 :: cs). set (removed := match log_dir with Some _ => _ | None => _ end).
  assert (Hrem : forall a, a ∈ removed -> exists dir gid, log_dir = Some dir /\ gid ∈ l /\
    a = RemoveDir (dir +:+ "/" +:+ uuid_to_string gid)%string).
  { intros a Ha. unfold removed in Ha. destruct log_dir as [dir|]; [|by apply not_elem_of_nil in Ha].
    apply list_elem_of_fmap in Ha as (gid & -> & Hg). eauto. }
  assert (Hmark : forall gids, MarkPurged gids ∉ removed) by (intros gids Ha; by destruct (Hrem _ Ha) as (? & ? & _ & _ & ?)).
  destruct (fan_out prefix uuid_to_string ok db now timeout wr l s) as [stamp s'] eqn:E.
  apply fan_out_spec in E as [Hst Hpend].
  assert (Hpath : forall path (acts : list purge_action), (forall p, RemoveDir p ∈ acts -> False) ->
    RemoveDir path ∈ removed ++ acts -> exists dir gid, log_dir = Some dir /\ gid ∈ l /\ path = (dir +:+ "/" +:+ uuid_to_string gid)%string).
  { intros path acts Hno [Ha|Ha]%elem_of_app; [|by apply Hno in Ha]. destruct (Hrem _ Ha) as (dir & gid & ? & ? & [= ->]). eauto. }
  case_bool_decide as Hn.
  - exists s'. split_and!; [done|exact Hpend|intros gids Ha; by apply Hmark in Ha| |].
    + intros gid Hg Hl. assert (Hin : gid ∈ stamp) by (by apply Hst). rewrite Hn in Hin. by apply not_elem_of_nil in Hin.
    + intros path Ha. apply (Hpath path []); [set_solver|by rewrite app_nil_r].
  - simpl. exists s'. split_and!; [done|exact Hpend| | |].
    + intros gids [Ha|Ha]%elem_of_app; [by apply Hmark in Ha|]. apply list_elem_of_singleton in Ha as [= ->]. exact Hst.
    + intros gid Hg Hl. exists stamp. split; [by apply Hst|]. apply elem_of_app. right. by left.
    + intros path. apply Hpath. intros p Ha. by apply list_elem_of_singleton in Ha.
Qed.

(** ** The purge protocol *)

Lemma send_purges_all (parse_uuid : string -> option Uuid) queued n g :
  g ∈ queued -> is_Some (parse_uuid g) -> build_purge_assignment g ∈ send_purges parse_uuid (fun _ => true) n queued.
Proof.
  intros Hg [gid Hp]. revert n. induction queued as [|q qs IH]; intros n; simpl; [by apply not_elem_of_nil in Hg|].
  apply elem_of_cons in Hg as [<-|Hg].
  - rewrite Hp. by left.
  - destruct (parse_uuid q); [right|]; by apply IH.
Qed.

Lemma acked_by_spec ok now timeout wr gid s owners :
  acked_by prefix uuid_to_string ok now timeout wr gid s owners = true ->
  forall wid, wid ∈ owners -> is_live now timeout wr wid = true -> pending wid (uuid_to_string gid) s = false.
Proof.
  induction owners as [|w ws IH]; simpl; intros H' wid Hin Hl; [by apply not_elem_of_nil in Hin|].
  apply elem_of_cons in Hin as [->|Hin].
  - rewrite Hl in H'. unfold is_purge_pending in H'. destruct (ok w); [|done]. by destruct (sismember _ _ s) eqn:E.
  - destruct (is_live now timeout wr w); [|by apply IH]. unfold is_purge_pending in H'.
    destruct (ok w); [|done]. destruct (sismember _ _ s); [done|by apply IH].
Qed.

(** C24. The purge protocol does what it is for. A worker that opens its job stream
    is sent a directive for every group queued for it. If it could remove the
    group's directories, its acknowledgement takes exactly this entry from the
    queue; otherwise nothing changes, and the directive is sent again with the
    next stream. By the acknowledgement the group is stamped as purged only when
    the database has named the group's owners and none of them that is live
    still has it queued. (The sweep that fills the queues stamps by a rule of
    its own, which this does not cover.) *)
Theorem purge_round (parse_uuid : string -> option Uuid) (config : WorkerConfig) (parse_rfc3339 : string -> option timestamp)
    (startup : option timestamp) (remove : string -> removal) (now : Z) (running : RunningJobs) (pending_ok : string -> bool)
    (db : option Database) (now' timeout : Z) (wr : WorkerRegistry) (gid : Uuid) (s : S) :
  let g := uuid_to_string gid in let wid := wc_worker_id config in
  parse_uuid g = Some gid -> pending wid g s = true ->
  build_purge_assignment g ∈ drain_pending_purges prefix parse_uuid true (fun _ => true) wid (Some s) /\
  exists removed ack, handle_job_assignment config parse_rfc3339 startup remove now (build_purge_assignment g) running =
    (Purged removed ack, running) /\
  let '(_, acts, redis') :=
    handle_purge_ack prefix uuid_to_string parse_uuid (fun _ => true) pending_ok db now' timeout wr ack (Some s) in
  match (purge_group_dirs remove g (scratch_root (execution config)) (ex_log_dir (execution config)) (work_dir (execution config))).2 with
  | Err _ => acts = [] /\ redis' = Some s
  | Ok _ => exists s', redis' = Some s' /\
      (forall wid' g', pending wid' g' s' = true <-> pending wid' g' s = true /\ (wid' <> wid \/ g' <> g)) /\
      (acts = [] \/ acts = [MarkPurged [gid]] /\
        exists d, db = Some d /\ exists owners, workers_for_group d gid = Ok owners /\
          forall w, w ∈ owners -> is_live now' timeout wr w = true -> pending w g s' = false)
  end.
Proof.
  intros g wid Hp Hpend. split.
  { apply send_purges_all; [|by rewrite Hp]. unfold dequeue_purges. simpl. by apply elem_of_smembers. }
  unfold handle_job_assignment. simpl ja_purge_group_files. cbv iota. simpl pg_group_id.
  destruct (purge_group_dirs remove g _ _ _) as [removed outcome]. eexists _, _. split; [reflexivity|].
  unfold handle_purge_ack. simpl su_job_group_id. rewrite Hp. destruct outcome as [[]|e]; simpl; [|done].
  fold wid g. pose proof (pending_ack (fun _ => true) wid g s) as Ha.
  simpl in Ha. set (s' := del (inflight_key prefix wid g) _) in *. exists s'. split; [done|]. split.
  - intros wid' g'. rewrite Ha, andb_true_iff, negb_true_iff, bool_decide_eq_false. destruct (decide (wid' = wid)), (decide (g' = g)); naive_solver.
  - unfold all_workers_acked. destruct db as [d|]; simpl; [|by left].
    destruct (workers_for_group d gid) as [owners|e] eqn:Eo; [|by left].
    destruct (acked_by _ _ _ _ _ _ _ _ _) eqn:Eack; [|by left]. right. split; [done|]. exists d. split; [done|].
    exists owners. split; [done|]. exact (acked_by_spec _ _ _ _ _ _ _ Eack).
Qed.
End Purging.

(** ** Tiers *)

(** The background loop deletes and archives nothing unless the tiers are
    positive and in order. *)
Lemma tick_guarded {S : Type} `{Redis S} prefix us (sw : Sweep) db fallback (redis : option S) :
  let '(_, acts, redis') := tick_once prefix us sw db fallback redis in
  acts = [] /\ redis' = redis \/
  let '(t1, t2, t3) := tiers (sw_settings sw) fallback in 0 < t1 < t2 /\ t2 < t3.
Proof.
  unfold tick_once. destruct (tiers _ _) as [[t1 t2] t3].
  destruct (Z.leb_spec t1 0), (Z.leb_spec t2 0), (Z.leb_spec t3 0); simpl; auto.
  destruct (Z.leb_spec t2 t1), (Z.leb_spec t3 t2); simpl; auto. destruct (run_once _ _ _ _ _ _ _) as [[r acts] redis']. right. lia.
Qed.

(** The surplus is archived in batches of at most 100, each group once. *)
Lemma chunks_concat {A : Type} n (l : list A) : (0 < n)%nat -> concat (chunks n l) = l /\ Forall (fun b => (length b <= n)%nat) (chunks n l).
Proof.
  intros Hn. unfold chunks. assert (Hf : (length l <= length l)%nat) by lia. revert Hf. generalize (length l) at 2 3 4.
  intros fuel. revert l. induction fuel as [|f IH]; intros l Hf; destruct l as [|x l]; try done; [simpl in Hf; lia|].
  destruct n as [|n]; [lia|]. change (chunks_loop (Datatypes.S f) (Datatypes.S n) (x :: l)) with
    (take (Datatypes.S n) (x :: l) :: chunks_loop f (Datatypes.S n) (drop (Datatypes.S n) (x :: l))).
  destruct (IH (drop (Datatypes.S n) (x :: l))) as [E1 E2]; [rewrite length_drop; simpl in *; lia|]. split.
  - etransitivity; [|apply (take_drop (Datatypes.S n))]. by rewrite <- E1 at 2.
  - constructor; [rewrite length_take; lia|done].
Qed.

Lemma archive_all_covers db batches total :
  match archive_all db batches total with (Ok _, acts) => acts = Archive <$> batches | (Err _, _) => True end.
Proof.
  revert total. induction batches as [|b bs IH]; intros total; [done|]. simpl.
  destruct (archive_groups_batch db b) as [n|]; [|done]. specialize (IH (u64_add total n)).
  destruct (archive_all db bs _) as [[r|] acts]; [|done]. by rewrite IH.
Qed.

(** ** Concrete sweeps *)

Definition empty_keyspace : keyspace := {| ks_sets := ∅; ks_strings := ∅ |}.

Definition show_id (gid : Uuid) : string := pretty gid.

(** Group 1 ran on the reachable worker [w], group 2 on a worker that is gone,
    and the database does not say about group 3. *)
Definition sample_db : Database := {|
  find_groups_for_t1 := fun _ _ => Ok [1%N; 2%N; 3%N];
  find_groups_for_t2 := fun _ _ => Ok [];
  find_archive_for_t3 := fun _ _ => Ok [];
  find_excess_groups_per_repo := fun _ => Ok [];
  workers_for_group := fun gid => if decide (gid = 1%N) then Ok ["w"] else if decide (gid = 2%N) then Ok ["gone"] else Err "timeout";
  mark_files_purged := fun gids => Ok (Z.of_nat (length gids));
  archive_groups_batch := fun gids => Ok (Z.of_nat (length gids));
  delete_archive_batch := fun gids => Ok (Z.of_nat (length gids))
|}.

Definition beat (now : timestamp) : HeartbeatMessage := {|
  hm_worker_id := "w"; hm_used_cpu_percent := F64.of_Z 0; hm_used_memory_mb := 0; hm_used_disk_mb := 0; hm_running_job_ids := [];
  hm_system_load := F64.of_Z 0; hm_timestamp_unix := 0; hm_disk_details := [] |}.

Definition sample_fleet : WorkerRegistry := update_heartbeat 0 (beat 0) {[ "w" := sample_worker "w" ]}.

(** An error of the database counts as no owners: group 3 is stamped. *)
Example unknown_owners_stamped :
  (run_t1 "p:" show_id (fun _ _ _ => true) sample_db 0 60 sample_fleet (Some "/logs") 7 true (Some empty_keyspace)).1.2 =
    [RemoveDir "/logs/1"; RemoveDir "/logs/2"; RemoveDir "/logs/3"; MarkPurged [2%N; 3%N]].
Proof. vm_compute. reflexivity. Qed.

Lemma t1_tells_every_owner_witness :
  exists s', (run_t1 "p:" show_id (fun _ _ _ => true) sample_db 0 60 sample_fleet (Some "/logs") 7 true (Some empty_keyspace)).2 = Some s' /\
    pending "p:" "w" "1" s' = true.
Proof.
  pose proof (t1_tells_every_owner "p:" show_id (fun _ _ _ => true) sample_db 0 60 sample_fleet (Some "/logs") 7 [1%N; 2%N; 3%N]
    empty_keyspace eq_refl) as H.
  destruct (run_t1 _ _ _ _ _ _ _ _ _ _ _) as [[r acts] redis']. destruct H as (s' & E & Hp & _). exists s'. split; [exact E|].
  apply Hp. right. exists 1%N. split_and!; [left|vm_compute; left|reflexivity|reflexivity].
Defined.

Definition one_id (s : string) : option Uuid := if bool_decide (s = "1") then Some 1%N else None.

Definition queued_store : keyspace := sadd (queue_key "p:" (wc_worker_id sample_config)) "1" empty_keyspace.

Lemma purge_round_witness :
  build_purge_assignment "1" ∈ drain_pending_purges "p:" one_id true (fun _ => true) (wc_worker_id sample_config) (Some queued_store) /\
  exists removed ack, handle_job_assignment sample_config (fun _ => None) None (fun _ => Gone) 0 (build_purge_assignment "1") [] =
    (Purged removed ack, []) /\
    (handle_purge_ack "p:" show_id one_id (fun _ => true) (fun _ => true) (Some sample_db) 0 60 sample_fleet ack (Some queued_store)).1.2 =
      [MarkPurged [1%N]].
Proof.
  destruct (purge_round "p:" show_id one_id sample_config (fun _ => None) None (fun _ => Gone) 0 [] (fun _ => true) (Some sample_db)
    0 60 sample_fleet 1%N queued_store ltac:(vm_compute; reflexivity) ltac:(vm_compute; reflexivity)) as [H1 (removed & ack & H2 & _)].
  split; [exact H1|]. exists removed, ack. split; [exact H2|]. vm_compute in H2. injection H2 as <- <-. vm_compute. reflexivity.
Defined.

(** The administrator's call runs whatever the tiers are, and knows nothing of
    the configured ones: here the setting asks for an age of 0 days. *)
Example forced_tick_unguarded :
  let settings := Some (Ok {[ "retention.t1_purge_files_after_days" := "0" ]}) in
  let sw := {| sw_ok := fun _ _ _ => true; sw_settings := settings; sw_now := 0; sw_timeout := 60; sw_workers := sample_fleet;
               sw_log_dir := None |} in
  let opts := {| run_t1_opt := true; run_t2_opt := false; run_t3_opt := false |} in
  (tiers settings RetentionConfig_default).1.1 = 0 /\
  (tick_once "p:" show_id sw (Some sample_db) RetentionConfig_default (Some empty_keyspace)).1.2 = [] /\
  (force_retention_tick "p:" show_id sw (Some sample_db) opts (Some empty_keyspace)).1.2 = [MarkPurged [1%N; 2%N; 3%N]].
Proof. split_and!; vm_compute; reflexivity. Qed.
