(* ===== verification/Json.v ===== *)
(** * JSON values (serde_json)

    The [Value] type with the accessors the handlers use, and the object notation
    of the [json!] macro: an object is the list of its fields, whose names are
    distinct. *)

From Stdlib Require Import ZArith.
From stdpp Require Import gmap strings list.
From S2P Require Import Prelude F64.

Inductive Json :=
| Null
| Bool (b : bool)
| Num (z : Z)
| Float (x : f64)
| Str (s : string)
| Arr (l : list Json)
| Obj (fields : list (string * Json)).

(** [Value::get] of a name, [as_str], [as_bool], [as_i64] *)
Definition assoc {A : Type} (k : string) (l : list (string * A)) : option A :=
  snd <$> head (filter (fun kv => kv.1 = k) l).

Definition jget (k : string) (v : Json) : option Json := match v with Obj l => assoc k l | _ => None end.
Definition as_str (v : Json) : option string := match v with Str s => Some s | _ => None end.
Definition as_bool (v : Json) : option bool := match v with Bool b => Some b | _ => None end.
Definition as_int (v : Json) : option Z :=
  match v with Num z => if (- 2 ^ 63 <=? z) && (z <? 2 ^ 63) then Some z else None | _ => None end.

(** Serialization of [Option], [Vec] and strings. *)
Definition jopt {A : Type} (f : A -> Json) (o : option A) : Json := match o with Some a => f a | None => Null end.
Definition jarr {A : Type} (f : A -> Json) (l : list A) : Json := Arr (f <$> l).
Definition jstrs (l : list string) : Json := jarr Str l.

(** An object with further fields. *)
Definition jwith (v : Json) (fields : list (string * Json)) : Json :=
  match v with Obj l => Obj (l ++ fields) | _ => v end.

Lemma assoc_app {A : Type} k (l l' : list (string * A)) :
  assoc k (l ++ l') = match assoc k l with Some a => Some a | None => assoc k l' end.
Proof. unfold assoc. rewrite filter_app. by destruct (filter _ l). Qed.
