(* ===== verification/Web.v ===== *)
(** * The HTTP side: who may do what, and how often
    (crates/ci-controller/src/rate_limit.rs, csrf.rs, auth/middleware.rs,
    auth/jwt.rs, api/date_parse.rs; ci-core models/user.rs)

    The parts of a request that the middleware reads are arguments: its headers
    as optional printable strings, its method, path and query. Signatures, hashes
    and the database answer through parameters. *)

From Stdlib Require Import ZArith Lia Ascii.
From stdpp Require Import gmap strings list fin_maps pretty.
From S2P Require Import Prelude Text.

(** ** rate_limit.rs *)

Section RateLimit.
Context {Ip : Type} `{Countable Ip}.

Record RateLimiter := {
  rl_state : gmap Ip (Z * Z);
  rl_max_requests : Z;
  rl_window : Z
}.

Definition RateLimiter_new (max_requests window : Z) : RateLimiter :=
  {| rl_state := ∅; rl_max_requests := max_requests; rl_window := window |}.

(** [now] is the reading of the monotonic clock; [duration_since] saturates. *)
Definition check (now : Z) (ip : Ip) (l : RateLimiter) : bool * RateLimiter :=
  let '(count, start) := default (0, now) (rl_state l !! ip) in
  let put entry := {| l with rl_state := <[ip := entry]> (rl_state l) |} in
  if rl_window l <=? saturating_sub now start then (true, put (1, now))
  else if count <? rl_max_requests l then (true, put (u32_add count 1, start))
  else (false, put (count, start)).
End RateLimit.

(** [extract_ip]: the connection, else the first forwarded address that parses,
    else the unspecified address. *)
Definition first_field (c : ascii) (s : string) : string :=
  match split_once c s with Some (a, _) => a | None => s end.

Definition extract_ip {Ip : Type} (parse_ip : string -> option Ip) (unspecified : Ip) (connect_info : option Ip)
    (x_forwarded_for : option string) : Ip :=
  match connect_info with
  | Some ip => ip
  | None => default unspecified (s ← x_forwarded_for; parse_ip (trim (first_field "," s)))
  end.

(** ** csrf.rs *)

Inductive Method := GET | HEAD | OPTIONS | POST | PUT | DELETE | PATCH.

Definition is_mutating (m : Method) : bool := match m with POST | PUT | DELETE => true | _ => false end.

(** [str::split_once] of [://] *)
Definition after_scheme (origin : string) : string :=
  match find_str "://" origin with Some i => str_drop (i + 3) origin | None => origin end.

(** A header that is there but not printable gives no value. *)
Record Headers := {
  h_origin : option (option string);
  h_host : option (option string);
  h_forwarded_host : option (option string)
}.

Definition header_str (h : option (option string)) : option string := h ≫= id.

Definition origin_allowed (origin : string) (headers : Headers) (allowed : list string) : bool :=
  if existsb (fun a => bool_decide (a = origin)) allowed then true
  else
    let origin_host := after_scheme origin in
    let req_host := default EmptyString
      ((fun h => trim (first_field "," h)) <$>
         header_str (match h_forwarded_host headers with Some h => Some h | None => h_host headers end)) in
    negb (bool_decide (req_host = EmptyString)) && bool_decide (to_ascii_lowercase origin_host = to_ascii_lowercase req_host).

(** Whether the request goes on. *)
Definition csrf_middleware (allowed : list string) (m : Method) (path : string) (headers : Headers) : bool :=
  if is_mutating m && negb (starts_with "/api/v1/webhooks" path) then
    let origin := default EmptyString (header_str (h_origin headers)) in
    bool_decide (origin = EmptyString) || origin_allowed origin headers allowed
  else true.

(** ** models/user.rs *)

Inductive UserRole := SuperAdmin | Admin | Operator | Viewer.

#[export] Instance UserRole_eq_dec : EqDecision UserRole.
Proof. solve_decision. Defined.

Definition from_db_str (s : string) : UserRole :=
  if bool_decide (s = "super_admin") then SuperAdmin
  else if bool_decide (s = "admin") then Admin
  else if bool_decide (s = "operator") then Operator
  else Viewer.

Definition as_db_str (r : UserRole) : string :=
  match r with SuperAdmin => "super_admin" | Admin => "admin" | Operator => "operator" | Viewer => "viewer" end.

Definition can_manage_users (r : UserRole) : bool := match r with SuperAdmin => true | _ => false end.
Definition can_manage_repos (r : UserRole) : bool := match r with SuperAdmin | Admin => true | _ => false end.
Definition can_cancel_jobs (r : UserRole) : bool := match r with SuperAdmin | Admin => true | _ => false end.
Definition can_trigger_builds (r : UserRole) : bool := match r with Viewer => false | _ => true end.
Definition can_manage_workers (r : UserRole) : bool := match r with SuperAdmin | Admin => true | _ => false end.

Record User := {
  u_id : Uuid;
  u_username : string;
  u_password_hash : string;
  u_display_name : option string;
  u_role : UserRole;
  u_active : bool;
  u_created_at : timestamp;
  u_updated_at : timestamp
}.

(** ** auth/middleware.rs *)

Record AuthUser := {
  au_user_id : Uuid;
  au_username : string;
  au_role : UserRole
}.

(** [StatusCode] with the message. *)
Inductive AuthError := UNAUTHORIZED (msg : string) | INTERNAL_SERVER_ERROR (msg : string).

Record DbWorkerToken := {
  wt_id : Uuid;
  wt_name : string;
  wt_token_hash : string;
  wt_scope : string;
  wt_created_by : option string;
  wt_expires_at : option timestamp;
  wt_max_uses : Z;
  wt_uses : Z;
  wt_active : bool;
  wt_created_at : timestamp;
  wt_worker_id : option string
}.

Record Claims := {
  cl_sub : string;
  cl_username : string;
  cl_role : string;
  cl_jti : string;
  cl_exp : Z;
  cl_iat : Z
}.

(** [encode_token]'s claims, with the drawn [jti]. *)
Definition new_claims (uuid_to_string : Uuid -> string) (now_secs : Z) (jti : string) (user : User) (expiry_secs : Z) : Claims := {|
  cl_sub := uuid_to_string (u_id user);
  cl_username := u_username user;
  cl_role := as_db_str (u_role user);
  cl_jti := jti;
  cl_exp := u64_add now_secs expiry_secs;
  cl_iat := now_secs
|}.

(** The questions to the database. *)
Record AuthStorage := {
  get_worker_token_by_hash : string -> result (option DbWorkerToken) string;
  get_api_key_by_hash : string -> result (option Uuid) string;
  get_user : Uuid -> result (option User) string;
  is_session_valid : string -> result bool string
}.

Section Auth.
Context (sha256_hex : string -> string) (decode_token : string -> string -> result Claims string)
  (parse_uuid : string -> option Uuid).

Definition resolve_runner_token (now : timestamp) (storage : option AuthStorage) (raw_key : string) : result AuthUser AuthError :=
  match storage with
  | None => Err (UNAUTHORIZED "Storage unavailable")
  | Some st =>
      match get_worker_token_by_hash st (sha256_hex raw_key) with
      | Err _ => Err (INTERNAL_SERVER_ERROR "Token lookup failed")
      | Ok None => Err (UNAUTHORIZED "Invalid runner token")
      | Ok (Some token) =>
          if negb (wt_active token) then Err (UNAUTHORIZED "Runner token is inactive")
          else if negb (bool_decide (wt_scope token = "runner")) then Err (UNAUTHORIZED "Invalid runner token")
          else if match wt_expires_at token with Some exp => exp <? now | None => false end
          then Err (UNAUTHORIZED "Runner token has expired")
          else Ok {| au_user_id := 0%N; au_username := ("runner:" +:+ wt_name token)%string; au_role := Operator |}
      end
  end.

Definition resolve_api_key (storage : option AuthStorage) (raw_key : string) : result AuthUser AuthError :=
  match storage with
  | None => Err (UNAUTHORIZED "Storage unavailable")
  | Some st =>
      match get_api_key_by_hash st (sha256_hex raw_key) with
      | Err _ => Err (INTERNAL_SERVER_ERROR "Key lookup failed")
      | Ok None => Err (UNAUTHORIZED "Invalid API key")
      | Ok (Some owner) =>
          match get_user st owner with
          | Err _ => Err (INTERNAL_SERVER_ERROR "User lookup failed")
          | Ok None => Err (UNAUTHORIZED "API key owner not found")
          | Ok (Some user) =>
              if negb (u_active user) then Err (UNAUTHORIZED "Account is disabled")
              else Ok {| au_user_id := u_id user; au_username := u_username user; au_role := u_role user |}
          end
      end
  end.

(** The first query parameter named token. *)
Fixpoint split_fuel (fuel : nat) (c : ascii) (s : string) : list string :=
  match fuel with
  | O => [s]
  | S f => match split_once c s with Some (a, b) => a :: split_fuel f c b | None => [s] end
  end.

Definition str_split (c : ascii) (s : string) : list string := split_fuel (String.length s) c s.

Definition query_token (query : option string) : option string :=
  q ← query; head (omap (strip_prefix "token=") (str_split "&" q)).

Definition resolve_jwt (jwt_secret : string) (storage : option AuthStorage) (token : string) : result AuthUser AuthError :=
  match decode_token jwt_secret token with
  | Err e => Err (UNAUTHORIZED ("Invalid token: " +:+ e)%string)
  | Ok claims =>
      let valid := match storage with
                   | Some st => match is_session_valid st (cl_jti claims) with Ok b => b | Err _ => false end
                   | None => true
                   end in
      if negb valid then Err (UNAUTHORIZED "Session revoked or expired")
      else
        match parse_uuid (cl_sub claims) with
        | None => Err (UNAUTHORIZED "Invalid user ID in token")
        | Some id => Ok {| au_user_id := id; au_username := cl_username claims; au_role := from_db_str (cl_role claims) |}
        end
  end.

(** [from_request_parts] *)
Definition authenticate (now : timestamp) (enabled : bool) (jwt_secret : string) (storage : option AuthStorage)
    (x_api_key authorization query : option string) : result AuthUser AuthError :=
  if negb enabled then Ok {| au_user_id := 0%N; au_username := "anonymous"; au_role := SuperAdmin |}
  else
    match x_api_key with
    | Some raw_key =>
        if starts_with "chola_svc_" raw_key then resolve_runner_token now storage raw_key else resolve_api_key storage raw_key
    | None =>
        let auth := match authorization with
                    | Some h => Some h
                    | None => (fun t => "Bearer " +:+ t)%string <$> query_token query
                    end in
        match auth with
        | None => Err (UNAUTHORIZED "Missing Authorization header")
        | Some auth_header =>
            match strip_prefix "Bearer chola_svc_" auth_header with
            | Some rest => resolve_runner_token now storage ("chola_svc_" +:+ rest)%string
            | None =>
                match strip_prefix "Bearer chola_" auth_header with
                | Some raw_key => resolve_api_key storage ("chola_" +:+ raw_key)%string
                | None =>
                    match strip_prefix "Bearer " auth_header with
                    | None => Err (UNAUTHORIZED "Invalid Authorization header format")
                    | Some token => resolve_jwt jwt_secret storage token
                    end
                end
            end
        end
    end.
End Auth.

(** ** api/date_parse.rs *)

Inductive ApiError :=
| BadRequest (msg : string)
| Unauthorized (msg : string)
| Forbidden (msg : string)
| NotFound (msg : string)
| Conflict (msg : string)
| Internal (msg : string)
| StorageUnavailable.

(** A call may panic, in chrono's arithmetic. *)
Inductive outcome (A : Type) := Returns (r : result A ApiError) | Panics.
Arguments Returns {A} r.
Arguments Panics {A}.

(** A product of two [i64] values, which wraps in a release build. *)
Definition i64_mul (a b : Z) : Z := wrap 64 (a * b + 2 ^ 63) - 2 ^ 63.

Definition unit_secs (u : string) : option Z :=
  if bool_decide (u = "s") then Some 1
  else if bool_decide (u = "m") then Some 60
  else if bool_decide (u = "h") then Some 3600
  else if bool_decide (u = "d") then Some 86400
  else if bool_decide (u = "w") then Some (7 * 86400)
  else if bool_decide (u = "M") then Some (30 * 86400)
  else if bool_decide (u = "y") then Some (365 * 86400)
  else None.

Definition is_ascii_digit (s : string) : bool :=
  match s with String c _ => match digit_val c with Some _ => true | None => false end | EmptyString => false end.

Section Dates.
(** The [Debug] forms of strings and characters. *)
Context (debug debug_char : string -> string).

(** [n * 7 * 86_400] multiplies twice; both products wrap, so their order does
    not matter. *)
Definition unit_to_duration (u : string) (n : Z) (original : string) : result Z ApiError :=
  match unit_secs u with
  | Some k => Ok (i64_mul n k)
  | None => Err (BadRequest ("Invalid relative date " +:+ debug original +:+ ": unknown unit " +:+ debug_char u
                             +:+ " — use one of s/m/h/d/w/M/y")%string)
  end.

(** [Utc::now() + Duration::seconds(n)], [None] when chrono panics. *)
Context (now : timestamp) (later : Z -> option timestamp).

Definition relative_error (s what : string) : result (option timestamp) ApiError :=
  Err (BadRequest ("Invalid relative date " +:+ debug s +:+ ": " +:+ what)%string).

Definition try_parse_relative (s : string) : outcome (option timestamp) :=
  let lower := to_ascii_lowercase s in
  if bool_decide (lower = "now") then Returns (Ok (Some now))
  else if negb (starts_with "now" lower) then Returns (Ok None)
  else
    let rest := let r := str_drop 3 s in trim_start (String.length r) r in
    let sign := match rest with String "+" _ => Some 1 | String "-" _ => Some (-1) | _ => None end in
    match sign with
    | None => Returns (relative_error s "expected `now`, `now+<n><unit>`, or `now-<n><unit>`")
    | Some sign =>
        let after_sign := let r := str_drop 1 rest in trim_start (String.length r) r in
        let digit_end := default (String.length after_sign) (find_at (fun t => negb (is_ascii_digit t)) after_sign) in
        if (digit_end =? 0)%nat then Returns (relative_error s "missing numeric amount")
        else
          match parse_i64 (str_take digit_end after_sign) with
          | None => Returns (Err (BadRequest ("Invalid amount in " +:+ debug s)%string))
          | Some n =>
              let unit_str := let r := str_drop digit_end after_sign in trim_start (String.length r) r in
              if bool_decide (unit_str = EmptyString) then Returns (relative_error s "missing unit (s/m/h/d/w/M/y)")
              else if (1 <? length (chars unit_str))%nat
              then Returns (relative_error s ("unknown unit " +:+ debug unit_str +:+ " — use one of s/m/h/d/w/M/y")%string)
              else
                match unit_to_duration unit_str n s with
                | Err e => Returns (Err e)
                | Ok duration =>
                    match later (i64_mul sign duration) with
                    | Some dt => Returns (Ok (Some dt))
                    | None => Panics
                    end
                end
          end
    end.

(** The absolute forms, in order: RFC 3339, minutes, seconds, a date with its
    end. *)
Context (parse_rfc3339 : string -> option timestamp) (parse_minutes parse_seconds : string -> option timestamp)
  (parse_date : string -> option timestamp).

Definition parse_flexible_datetime (field value : string) (end_of_day : bool) : outcome timestamp :=
  let trimmed := trim value in
  match try_parse_relative trimmed with
  | Panics => Panics
  | Returns (Err e) => Returns (Err e)
  | Returns (Ok (Some dt)) => Returns (Ok dt)
  | Returns (Ok None) =>
      match parse_rfc3339 trimmed with
      | Some dt => Returns (Ok dt)
      | None =>
          match parse_minutes trimmed with
          | Some dt => Returns (Ok dt)
          | None =>
              match parse_seconds trimmed with
              | Some dt => Returns (Ok dt)
              | None =>
                  match parse_date trimmed with
                  | Some day => Returns (Ok (if end_of_day then day + secs 86399 else day))
                  | None => Returns (Err (BadRequest ("Invalid " +:+ field
                      +:+ " (expected now/now±<n><unit>, RFC3339, ISO datetime, or YYYY-MM-DD): " +:+ debug value)%string))
                  end
              end
          end
      end
  end.
End Dates.

(** ** The rate limit *)

(** How many elements pass a test. *)
Fixpoint count_of (p : Z -> bool) (l : list Z) : Z :=
  match l with [] => 0 | x :: l' => (if p x then 1 else 0) + count_of p l' end.

Lemma count_of_app p l l' : count_of p (l ++ l') = count_of p l + count_of p l'.
Proof. induction l as [|x l IH]; simpl; [lia|]. rewrite IH. lia. Qed.

(** A test that passes less counts less; one covered by two, at most their sum. *)
Lemma count_of_le p q l : (forall x, x ∈ l -> p x = true -> q x = true) -> count_of p l <= count_of q l.
Proof.
  induction l as [|x l IH]; intros Hpq; simpl; [lia|].
  pose proof (IH (fun y Hy => Hpq y (list_elem_of_further _ _ _ Hy))). pose proof (Hpq x ltac:(by left)).
  destruct (p x), (q x); try lia; naive_solver.
Qed.

Lemma count_of_cover p q r l : (forall x, x ∈ l -> p x = true -> q x = true \/ r x = true) -> count_of p l <= count_of q l + count_of r l.
Proof.
  induction l as [|x l IH]; intros Hpq; simpl; [lia|].
  pose proof (IH (fun y Hy => Hpq y (list_elem_of_further _ _ _ Hy))). pose proof (Hpq x ltac:(by left)).
  destruct (p x), (q x), (r x); try lia; naive_solver.
Qed.

Lemma count_of_nonneg p l : 0 <= count_of p l.
Proof. induction l as [|x l IH]; simpl; [lia|]. destruct (p x); lia. Qed.

Definition in_span (lo hi x : Z) : bool := (lo <=? x) && (x <? hi).

Section RateBound.
Context {Ip : Type} `{Countable Ip}.

(** A run of requests, each with its time: the answers to those of one address. *)
Fixpoint serve (ip : Ip) (reqs : list (Z * Ip)) (l : RateLimiter (Ip:=Ip)) : list (Z * bool) :=
  match reqs with
  | [] => []
  | (now, x) :: reqs' =>
      let '(b, l1) := check now x l in
      (if bool_decide (x = ip) then [(now, b)] else []) ++ serve ip reqs' l1
  end.

Definition let_through (out : list (Z * bool)) : list Z := omap (fun o : Z * bool => if o.2 then Some o.1 else None) out.

(** The clock does not go back. *)
Fixpoint in_order (last : Z) (reqs : list (Z * Ip)) : Prop :=
  match reqs with [] => True | (now, _) :: reqs' => last <= now /\ in_order now reqs' end.

Lemma check_other (now : Z) (x ip : Ip) (l : RateLimiter (Ip:=Ip)) : x <> ip ->
  let l' := (check now x l).2 in
  rl_state l' !! ip = rl_state l !! ip /\ rl_max_requests l' = rl_max_requests l /\ rl_window l' = rl_window l.
Proof.
  intros Hne. unfold check. destruct (default (0, now) (rl_state l !! x)) as [count start].
  destruct (_ <=? _); [|destruct (_ <? _)]; simpl; by rewrite lookup_insert_ne.
Qed.

(** The window of an address, given the times [past] at which its requests were
    let through, none after [last]. *)
Record windowed (ip : Ip) (l : RateLimiter (Ip:=Ip)) (past : list Z) (last : Z) : Prop := {
  wd_past : forall x, x ∈ past -> x <= last;
  wd_bound : forall t, count_of (in_span t (t + rl_window l)) past <= 2 * Z.max 1 (rl_max_requests l);
  wd_entry : match rl_state l !! ip with
             | None => past = []
             | Some (n, start) =>
                 start <= last /\ 0 <= n <= Z.max 1 (rl_max_requests l) /\ count_of (fun x => start <=? x) past = n /\
                 (forall x, x ∈ past -> x < start + rl_window l) /\
                 forall t, start - rl_window l < t -> count_of (in_span t start) past <= Z.max 1 (rl_max_requests l)
             end
}.

Lemma windowed_other (ip x : Ip) (now : Z) (l : RateLimiter (Ip:=Ip)) past last : x <> ip -> last <= now -> windowed ip l past last -> windowed ip (check now x l).2 past now.
Proof.
  intros Hne Hle [H1 H2 H3]. destruct (check_other now x ip l Hne) as (E1 & E2 & E3). split.
  - intros y Hy. specialize (H1 y Hy). lia.
  - by rewrite E2, E3.
  - rewrite E1, E2, E3. destruct (rl_state l !! ip) as [[n start]|]; [|done]. destruct H3 as (? & ?). split; [lia|done].
Qed.

(** The three things a request of the address does to its entry. *)
Definition put (ip : Ip) (entry : Z * Z) (l : RateLimiter (Ip:=Ip)) : RateLimiter (Ip:=Ip) := {|
  rl_state := <[ip := entry]> (rl_state l);
  rl_max_requests := rl_max_requests l;
  rl_window := rl_window l
|}.

Lemma count_none p l : (forall x, x ∈ l -> p x = false) -> count_of p l = 0.
Proof.
  induction l as [|x l IH]; intros Hp; simpl; [done|]. rewrite (Hp x) by (by left). rewrite IH; [done|].
  intros y Hy. apply Hp. by right.
Qed.

Ltac in_spans := unfold in_span; rewrite ?andb_true_iff, ?Z.leb_le, ?Z.ltb_lt; lia.

(** Nobody is let through before the window of the last request is over, so a
    window opens with nothing in it. *)
Lemma windowed_opens (ip : Ip) (now : Z) l past last :
  0 < rl_window l -> last <= now -> (forall x, x ∈ past -> x < now) -> windowed ip l past last ->
  (forall t, now - rl_window l < t -> count_of (in_span t now) past <= Z.max 1 (rl_max_requests l)) ->
  windowed ip (put ip (1, now) l) (past ++ [now]) now.
Proof.
  intros HW Hle Hlt [H1 H2 H3] Hb. split; simpl.
  - intros x [Hx%Hlt|Hx%list_elem_of_singleton]%elem_of_app; lia.
  - intros t. rewrite count_of_app. simpl. destruct (in_span t (t + rl_window l) now) eqn:E; [|specialize (H2 t); lia].
    assert (Ht : t <= now < t + rl_window l) by (revert E; in_spans). specialize (Hb t ltac:(lia)).
    assert (count_of (in_span t (t + rl_window l)) past <= count_of (in_span t now) past); [|lia]. apply count_of_le.
    intros x Hx. specialize (Hlt x Hx). in_spans.
  - rewrite lookup_insert_eq. split; [lia|]. split; [lia|]. split; [|split].
    + rewrite count_of_app. simpl. rewrite Z.leb_refl, count_none; [done|]. intros x Hx%Hlt. by apply Z.leb_gt.
    + intros x [Hx%Hlt|Hx%list_elem_of_singleton]%elem_of_app; lia.
    + intros t Ht. rewrite count_of_app. simpl. unfold in_span at 2. rewrite Z.ltb_irrefl, andb_false_r.
      specialize (Hb t Ht). lia.
Qed.

Lemma windowed_counts (ip : Ip) (now : Z) l past last n start :
  rl_state l !! ip = Some (n, start) -> last <= now -> now < start + rl_window l -> n < rl_max_requests l ->
  windowed ip l past last -> windowed ip (put ip (n + 1, start) l) (past ++ [now]) now.
Proof.
  intros El Hle Hw Hlt [H1 H2 H3]. rewrite El in H3. destruct H3 as (Hs & Hn & Hc & Hend & Hb). split; simpl.
  - intros x [Hx%H1|Hx%list_elem_of_singleton]%elem_of_app; lia.
  - intros t. rewrite count_of_app. simpl. destruct (in_span t (t + rl_window l) now) eqn:E; [|specialize (H2 t); lia].
    assert (Ht : t <= now < t + rl_window l) by (revert E; in_spans). specialize (Hb t ltac:(lia)).
    pose proof (count_of_cover (in_span t (t + rl_window l)) (in_span t start) (fun x => start <=? x) past) as Hcov.
    rewrite Hc in Hcov. assert (count_of (in_span t (t + rl_window l)) past <= count_of (in_span t start) past + n); [|lia].
    apply Hcov. intros x Hx. in_spans.
  - rewrite lookup_insert_eq. split; [lia|]. split; [lia|]. split; [|split].
    + rewrite count_of_app, Hc. simpl. destruct (Z.leb_spec start now); lia.
    + intros x [Hx%Hend|Hx%list_elem_of_singleton]%elem_of_app; lia.
    + intros t Ht. rewrite count_of_app. simpl. unfold in_span at 2. destruct (Z.ltb_spec now start); [lia|].
      rewrite andb_false_r. specialize (Hb t Ht). lia.
Qed.

Lemma windowed_refuses (ip : Ip) (now : Z) l past last n start :
  default (0, now) (rl_state l !! ip) = (n, start) -> 0 < rl_window l -> last <= now ->
  windowed ip l past last -> windowed ip (put ip (n, start) l) past now.
Proof.
  intros El HW Hle [H1 H2 H3]. split; simpl.
  - intros x Hx. specialize (H1 x Hx). lia.
  - done.
  - rewrite lookup_insert_eq. destruct (rl_state l !! ip) as [[n' start']|]; simplify_eq/=.
    + destruct H3 as (? & ?). split; [lia|done].
    + split; [lia|]. split; [lia|]. split_and!; try done; intros; simpl; try lia. by apply not_elem_of_nil in H0.
Qed.

(** What a request of the address does. *)
Lemma windowed_check (ip : Ip) (now : Z) (l : RateLimiter (Ip:=Ip)) past last :
  0 < rl_window l -> 0 <= rl_max_requests l < 2 ^ 32 -> last <= now -> windowed ip l past last ->
  windowed ip (check now ip l).2 (if (check now ip l).1 then past ++ [now] else past) now /\
  ((check now ip l).1 = false -> rl_max_requests l <= count_of (in_span (now - rl_window l + 1) (now + 1)) past).
Proof.
  intros HW HM Hle Hwd. pose proof (windowed_refuses ip now l past last) as Href. unfold check.
  destruct (default (0, now) (rl_state l !! ip)) as [n start] eqn:El. specialize (Href n start eq_refl HW Hle Hwd).
  assert (He : rl_state l !! ip = Some (n, start) \/ (n = 0 /\ start = now /\ past = [])).
  { destruct Hwd as [_ _ H3]. destruct (rl_state l !! ip) as [[n' start']|]; simplify_eq/=; auto. }
  unfold saturating_sub. destruct (Z.leb_spec (rl_window l) (Z.max 0 (now - start))) as [Hw|Hw]; simpl.
  - split; [|done]. destruct He as [He|(-> & -> & ->)]; [|lia]. destruct (Hwd) as [H1 H2 H3]. rewrite He in H3.
    destruct H3 as (Hs & Hn & Hc & Hend & Hb). eapply windowed_opens; eauto.
    + intros x Hx%Hend. lia.
    + intros t Ht. transitivity n; [|lia]. rewrite <- Hc. apply count_of_le. intros x Hx. in_spans.
  - destruct (Z.ltb_spec n (rl_max_requests l)) as [Hlt|Hge]; simpl.
    + split; [|done]. destruct He as [He|(-> & -> & ->)].
      * assert (Hn : 0 <= n) by (destruct Hwd as [_ _ H3]; rewrite He in H3; lia). rewrite u32_add_small by lia.
        eapply windowed_counts; eauto. destruct Hwd as [_ _ H3]. rewrite He in H3. lia.
      * change (u32_add 0 1) with 1. eapply (windowed_opens _ _ l []); eauto; simpl; [|lia].
        intros x Hx. by apply not_elem_of_nil in Hx.
    + split; [done|]. intros _. destruct He as [He|(-> & -> & ->)]; [|simpl; lia]. destruct Hwd as [H1 H2 H3].
      rewrite He in H3. destruct H3 as (Hs & Hn & Hc & Hend & Hb). transitivity n; [lia|]. rewrite <- Hc.
      apply count_of_le. intros x Hx. specialize (H1 x Hx). in_spans.
Qed.
Lemma check_kept (now : Z) (x : Ip) l : rl_max_requests (check now x l).2 = rl_max_requests l /\ rl_window (check now x l).2 = rl_window l.
Proof. unfold check. destruct (default (0, now) (rl_state l !! x)). by destruct (_ <=? _); [|destruct (_ <? _)]. Qed.

Lemma let_through_app out out' : let_through (out ++ out') = let_through out ++ let_through out'.
Proof. apply omap_app. Qed.

Lemma serve_windowed (ip : Ip) reqs l past last :
  0 < rl_window l -> 0 <= rl_max_requests l < 2 ^ 32 -> in_order last reqs -> windowed ip l past last ->
  (forall t, count_of (in_span t (t + rl_window l)) (past ++ let_through (serve ip reqs l)) <= 2 * Z.max 1 (rl_max_requests l)) /\
  (forall pre now post, serve ip reqs l = pre ++ (now, false) :: post ->
     rl_max_requests l <= count_of (in_span (now - rl_window l + 1) (now + 1)) (past ++ let_through pre)).
Proof.
  revert l past last. induction reqs as [|[now x] reqs IH]; intros l past last HW HM Hord Hwd; simpl.
  { rewrite app_nil_r. split; [apply Hwd|]. by intros []. }
  destruct Hord as [Hle Hord]. destruct (check_kept now x l) as [E1 E2]. specialize (IH (check now x l).2).
  rewrite E1, E2 in IH. destruct (decide (x = ip)) as [->|Hne].
  - destruct (windowed_check ip now l past last HW HM Hle Hwd) as [Hwd' Href].
    destruct (check now ip l) as [b l1]. simpl in *. rewrite bool_decide_true by done.
    destruct (IH _ _ HW HM Hord Hwd') as [IH1 IH2]. split.
    + intros t. specialize (IH1 t). destruct b; simpl; [|done]. by rewrite <- app_assoc in IH1.
    + intros [|[n' b'] pre] now' post Hout; simpl in Hout; simplify_eq.
      * simpl. rewrite app_nil_r. by apply Href.
      * destruct b'; simpl; [|by apply (IH2 pre now' post)]. specialize (IH2 pre now' post).
        rewrite <- app_assoc in IH2. by apply IH2.
  - pose proof (windowed_other ip x now l past last Hne Hle Hwd) as Hwd'. destruct (check now x l) as [b l1]. simpl in *.
    rewrite bool_decide_false by done. by apply (IH past now).
Qed.

(** The answers to an address depend on nothing the others do. *)
Lemma serve_own (ip : Ip) reqs l l' :
  rl_state l !! ip = rl_state l' !! ip -> rl_max_requests l = rl_max_requests l' -> rl_window l = rl_window l' ->
  serve ip reqs l = serve ip (filter (fun r => r.2 = ip) reqs) l'.
Proof.
  revert l l'. induction reqs as [|[now x] reqs IH]; intros l l' E1 E2 E3; [done|]. rewrite filter_cons. simpl.
  case_decide as Hx.
  - subst x. simpl. rewrite bool_decide_true by done. unfold check. rewrite E1, E2, E3.
    destruct (default (0, now) (rl_state l' !! ip)) as [count start].
    destruct (_ <=? _); [|destruct (_ <? _)]; simpl; f_equal; (apply IH; simpl; [by rewrite !lookup_insert_eq|done..]).
  - destruct (check_other now x ip l Hx) as (G1 & G2 & G3). destruct (check now x l) as [b l1]. simpl in *.
    rewrite bool_decide_false by done. apply IH; congruence.
Qed.
End RateBound.

(** Each address has a budget of its own: in any span as long as the window,
    wherever it starts, at most twice the configured number of its requests are
    let through, a request is refused only when the configured number was let
    through within the last window, and requests of other addresses change
    nothing. *)
Theorem rate_limit_window {Ip : Type} `{Countable Ip} (max window : Z) (ip : Ip) (reqs : list (Z * Ip)) (start : Z)
    (Hwindow : 0 < window) (Hmax : 0 <= max < 2 ^ 32) (Hclock : in_order start reqs) :
  let out := serve ip reqs (RateLimiter_new max window) in
  (forall t, count_of (in_span t (t + window)) (let_through out) <= 2 * Z.max 1 max) /\
  (forall pre now post, out = pre ++ (now, false) :: post ->
     max <= count_of (in_span (now - window + 1) (now + 1)) (let_through pre)) /\
  out = serve ip (filter (fun r => r.2 = ip) reqs) (RateLimiter_new max window).
Proof.
  destruct (serve_windowed ip reqs (RateLimiter_new max window) [] start) as [H1 H2]; try done.
  { split; simpl; [|intros; lia|by rewrite lookup_empty]. intros x Hx. by apply not_elem_of_nil in Hx. }
  split; [exact H1|]. split; [exact H2|]. by apply serve_own.
Qed.

(** Two a second: the burst at the end of one window and the start of the next
    lets four through within 600 ms. *)
Definition burst : list (Z * N) := [(0, 1%N); (900, 1%N); (950, 2%N); (950, 1%N); (1000, 1%N); (1400, 1%N); (1500, 1%N)].

Lemma rate_limit_window_witness :
  serve 1%N burst (RateLimiter_new 2 1000)
    = [(0, true); (900, true); (950, false); (1000, true); (1400, true); (1500, false)] /\
  2 <= count_of (in_span (950 - 1000 + 1) (950 + 1)) [0; 900].
Proof.
  split; [by vm_compute|]. destruct (rate_limit_window 2 1000 1%N burst 0) as (_ & Href & _); [lia|lia|cbn; lia|].
  apply (Href [(0, true); (900, true)] 950 [(1000, true); (1400, true); (1500, false)]). by vm_compute.
Defined.

(** ** Who may act *)

Lemma from_as_db_str r : from_db_str (as_db_str r) = r.
Proof. by destruct r. Qed.

Section Who.
Context (sha256_hex : string -> string) (decode_token : string -> string -> result Claims string)
  (parse_uuid : string -> option Uuid).

(** The secret a request presents as an API key or runner token. *)
Inductive presents (x_api_key authorization query : option string) (raw : string) : Prop :=
| by_key : x_api_key = Some raw -> presents x_api_key authorization query raw
| by_header : x_api_key = None -> authorization = Some ("Bearer " +:+ raw)%string -> presents x_api_key authorization query raw
| by_query : x_api_key = None -> authorization = None -> query_token query = Some raw -> presents x_api_key authorization query raw.

Lemma resolve_runner_token_inv now storage raw u :
  resolve_runner_token sha256_hex now storage raw = Ok u ->
  exists st token, storage = Some st /\ get_worker_token_by_hash st (sha256_hex raw) = Ok (Some token) /\
    wt_active token = true /\ wt_scope token = "runner" /\ (forall exp, wt_expires_at token = Some exp -> now <= exp) /\
    u = {| au_user_id := 0%N; au_username := ("runner:" +:+ wt_name token)%string; au_role := Operator |}.
Proof.
  unfold resolve_runner_token. destruct storage as [st|]; [|done].
  destruct (get_worker_token_by_hash st _) as [[token|]|] eqn:E; [|done..].
  destruct (wt_active token) eqn:Ea; [|done]. simpl. case_bool_decide as Hs; [|done]. simpl.
  destruct (wt_expires_at token) as [exp|] eqn:Ee; [destruct (Z.ltb_spec exp now); [done|]|]; intros [= <-];
    exists st, token; split_and!; auto; intros exp' Hexp; simplify_eq; lia.
Qed.

Lemma resolve_api_key_inv storage raw u :
  resolve_api_key sha256_hex storage raw = Ok u ->
  exists st owner user, storage = Some st /\ get_api_key_by_hash st (sha256_hex raw) = Ok (Some owner) /\
    get_user st owner = Ok (Some user) /\ u_active user = true /\
    u = {| au_user_id := u_id user; au_username := u_username user; au_role := u_role user |}.
Proof.
  unfold resolve_api_key. destruct storage as [st|]; [|done].
  destruct (get_api_key_by_hash st _) as [[owner|]|] eqn:E1; [|done..].
  destruct (get_user st owner) as [[user|]|] eqn:E2; [|done..]. destruct (u_active user) eqn:Ea; [|done].
  intros [= <-]. eauto 10.
Qed.

Lemma resolve_jwt_inv jwt_secret storage token u :
  resolve_jwt decode_token parse_uuid jwt_secret storage token = Ok u ->
  exists claims, decode_token jwt_secret token = Ok claims /\
    (forall st, storage = Some st -> is_session_valid st (cl_jti claims) = Ok true) /\
    parse_uuid (cl_sub claims) = Some (au_user_id u) /\ au_username u = cl_username claims /\
    au_role u = from_db_str (cl_role claims).
Proof.
  unfold resolve_jwt. destruct (decode_token jwt_secret token) as [claims|]; [|done].
  destruct storage as [st|].
  - destruct (is_session_valid st (cl_jti claims)) as [[|]|] eqn:Ev; [|done..]. simpl.
    destruct (parse_uuid (cl_sub claims)) as [id|] eqn:Eu; [|done]. intros [= <-]. exists claims. split_and!; auto. by intros ? [= <-].
  - simpl. destruct (parse_uuid (cl_sub claims)) as [id|] eqn:Eu; [|done]. intros [= <-]. exists claims. by split_and!.
Qed.
End Who.

Lemma strip_prefix_inv p s r : strip_prefix p s = Some r -> s = (p +:+ r)%string.
Proof. unfold strip_prefix. destruct (starts_with p s) eqn:E; [|done]. intros [= <-]. apply starts_with_spec in E as [rest ->]. by rewrite str_drop_app. Qed.

(** With authentication on, a request acts as somebody only by presenting an
    active, unexpired runner token of the runner scope, which gives an operator
    and never more; the API key of an active account, which gives that account's
    role; or a signed token whose session is not revoked, which gives the role
    written in it. With authentication off everybody is a super-admin. *)
Theorem who_may_act (sha256_hex : string -> string) (decode_token : string -> string -> result Claims string)
    (parse_uuid : string -> option Uuid) now enabled jwt_secret storage x_api_key authorization query u
    (Hok : authenticate sha256_hex decode_token parse_uuid now enabled jwt_secret storage x_api_key authorization query = Ok u) :
  (enabled = false /\ au_role u = SuperAdmin) \/
  enabled = true /\
  ((exists raw st token, presents x_api_key authorization query raw /\ storage = Some st /\
      get_worker_token_by_hash st (sha256_hex raw) = Ok (Some token) /\ wt_active token = true /\
      wt_scope token = "runner" /\ (forall exp, wt_expires_at token = Some exp -> now <= exp) /\ au_role u = Operator) \/
   (exists raw st owner user, presents x_api_key authorization query raw /\ storage = Some st /\
      get_api_key_by_hash st (sha256_hex raw) = Ok (Some owner) /\ get_user st owner = Ok (Some user) /\
      u_active user = true /\ au_user_id u = u_id user /\ au_role u = u_role user) \/
   (exists raw claims, x_api_key = None /\ presents x_api_key authorization query raw /\
      decode_token jwt_secret raw = Ok claims /\
      (forall st, storage = Some st -> is_session_valid st (cl_jti claims) = Ok true) /\
      parse_uuid (cl_sub claims) = Some (au_user_id u) /\ au_role u = from_db_str (cl_role claims))).
Proof.
  assert (Hrunner : forall raw, presents x_api_key authorization query raw ->
    resolve_runner_token sha256_hex now storage raw = Ok u -> exists raw st token,
      presents x_api_key authorization query raw /\ storage = Some st /\
      get_worker_token_by_hash st (sha256_hex raw) = Ok (Some token) /\ wt_active token = true /\
      wt_scope token = "runner" /\ (forall exp, wt_expires_at token = Some exp -> now <= exp) /\ au_role u = Operator).
  { intros raw Hp (st & token & ? & ? & ? & ? & ? & ->)%resolve_runner_token_inv. by exists raw, st, token. }
  assert (Hkey : forall raw, presents x_api_key authorization query raw ->
    resolve_api_key sha256_hex storage raw = Ok u -> exists raw st owner user,
      presents x_api_key authorization query raw /\ storage = Some st /\
      get_api_key_by_hash st (sha256_hex raw) = Ok (Some owner) /\ get_user st owner = Ok (Some user) /\
      u_active user = true /\ au_user_id u = u_id user /\ au_role u = u_role user).
  { intros raw Hp (st & owner & user & ? & ? & ? & ? & ->)%resolve_api_key_inv. by exists raw, st, owner, user. }
  unfold authenticate in Hok. destruct enabled; cbn [negb] in Hok; [|left; by injection Hok as <-].
  right. split; [done|]. revert Hok. destruct x_api_key as [raw_key|].
  { destruct (starts_with "chola_svc_" raw_key); intros Hok; [left; apply (Hrunner raw_key)|right; left; apply (Hkey raw_key)];
      by try apply by_key. }
  assert (Hheader : forall h raw, match authorization with
    | Some h => Some h | None => (fun t => "Bearer " +:+ t)%string <$> query_token query end = Some h ->
    h = ("Bearer " +:+ raw)%string -> presents None authorization query raw).
  { intros h raw Hh ->. destruct authorization as [h'|]; [apply by_header; congruence|]. apply fmap_Some in Hh as (t & Ht & Heq).
    apply (inj (String.append "Bearer ")) in Heq as <-. by apply by_query. }
  destruct (match authorization with Some h => Some h | None => (fun t => "Bearer " +:+ t)%string <$> query_token query end)
    as [h|]; [|done]. specialize (fun raw => Hheader h raw eq_refl).
  destruct (strip_prefix "Bearer chola_svc_" h) as [rest|] eqn:E1; intros Hok.
  { left. by apply (Hrunner _ (Hheader _ (strip_prefix_inv _ _ _ E1))). }
  revert Hok. destruct (strip_prefix "Bearer chola_" h) as [rest|] eqn:E2; intros Hok.
  { right. left. by apply (Hkey _ (Hheader _ (strip_prefix_inv _ _ _ E2))). }
  revert Hok. destruct (strip_prefix "Bearer " h) as [token|] eqn:E3; intros Hok; [|done]. right. right.
  apply resolve_jwt_inv in Hok as (claims & ? & ? & ? & ? & ?). exists token, claims. split_and!; auto.
  by apply (Hheader _), strip_prefix_inv.
Qed.

(** A runner token presented in the header. *)
Definition one_token : AuthStorage := {|
  get_worker_token_by_hash h := Ok (if bool_decide (h = "h:chola_svc_7") then
    Some {| wt_id := 7%N; wt_name := "ci"; wt_token_hash := h; wt_scope := "runner"; wt_created_by := None; wt_expires_at := Some 100;
            wt_max_uses := 0; wt_uses := 3; wt_active := true; wt_created_at := 0; wt_worker_id := None |} else None);
  get_api_key_by_hash _ := Ok None;
  get_user _ := Ok None;
  is_session_valid _ := Ok false
|}.

Lemma who_may_act_witness : exists token,
  get_worker_token_by_hash one_token "h:chola_svc_7" = Ok (Some token) /\ wt_active token = true.
Proof.
  destruct (who_may_act (fun s => "h:" +:+ s)%string (fun _ _ => Err "no") (fun _ => None) 50 true "s" (Some one_token) None
    (Some "Bearer chola_svc_7") None {| au_user_id := 0%N; au_username := "runner:ci"; au_role := Operator |} ltac:(by vm_compute))
    as [[? _]|[_ [(raw & st & token & Hp & Hst & Htok & Hact & _)|[(raw & st & owner & user & Hp & Hst & Hk & _)|(raw & claims & _ & _ & Hd & _)]]]];
    simplify_eq/=. case_bool_decide; [|done]. eauto.
Defined.

(** What [encode_token] writes is read back as the same user with the role of
    then: neither the account's later role nor its later deactivation is asked
    for, only whether the session was revoked. *)
Lemma session_is_the_user uuid_to_string parse_uuid now_secs jti expiry user st token secret decode_token :
  (forall id : Uuid, parse_uuid (uuid_to_string id : string) = Some id) ->
  decode_token secret token = Ok (new_claims uuid_to_string now_secs jti user expiry) ->
  is_session_valid st jti = Ok true ->
  resolve_jwt decode_token parse_uuid secret (Some st) token
    = Ok {| au_user_id := u_id user; au_username := u_username user; au_role := u_role user |}.
Proof. intros Hid Hd Hs. unfold resolve_jwt. rewrite Hd. simpl. rewrite Hs. simpl. by rewrite Hid, from_as_db_str. Qed.

(** A request with no [Origin] passes, and so does any whose [Origin] names the
    host it says it was sent to; nothing else passes unlisted. *)
Lemma csrf_passes allowed m path h : is_mutating m = true -> starts_with "/api/v1/webhooks" path = false ->
  csrf_middleware allowed m path h = true ->
  default EmptyString (header_str (h_origin h)) = EmptyString \/
  (exists origin, header_str (h_origin h) = Some origin /\
     (origin ∈ allowed \/ exists host, host <> EmptyString /\ to_ascii_lowercase (after_scheme origin) = to_ascii_lowercase host /\
        Some host = (fun h => trim (first_field "," h)) <$>
          header_str (match h_forwarded_host h with Some x => Some x | None => h_host h end))).
Proof.
  intros Hm Hp. unfold csrf_middleware. rewrite Hm, Hp. simpl.
  destruct (header_str (h_origin h)) as [origin|] eqn:Eo; [|by left]. rewrite orb_true_iff, bool_decide_eq_true.
  intros [?|Ho]; [by left|right]. exists origin. split; [done|]. simpl in Ho. unfold origin_allowed in Ho. revert Ho.
  destruct (existsb _ allowed) eqn:Ea; intros Ho.
  - left. apply existsb_exists in Ea as (a & Ha & Heq%bool_decide_eq_true). subst a. by apply list_elem_of_In.
  - right. apply andb_true_iff in Ho as [Hne%negb_true_iff%bool_decide_eq_false Heq%bool_decide_eq_true].
    destruct (header_str (match h_forwarded_host h with Some x => Some x | None => h_host h end)) as [host|]; [|done]. by eexists.
Qed.

(** [PATCH] is not counted as mutating. *)
Example patch_passes : csrf_middleware [] PATCH "/api/v1/users"
  {| h_origin := Some (Some "https://evil.example"); h_host := Some (Some "ci.example"); h_forwarded_host := None |} = true.
Proof. reflexivity. Qed.

(** A client that may set [X-Forwarded-Host] itself names the host it is
    compared with. *)
Example forwarded_host_trusted : csrf_middleware [] POST "/api/v1/users"
  {| h_origin := Some (Some "https://evil.example"); h_host := Some (Some "ci.example");
     h_forwarded_host := Some (Some "evil.example, ci.example") |} = true.
Proof. by vm_compute. Qed.

(** ** Relative dates *)

Fixpoint spaces (n : nat) : string := match n with O => EmptyString | S n' => String " " (spaces n') end.

Lemma trim_spaces n s fuel : white_len s = O -> (n <= fuel)%nat -> trim_start fuel (spaces n +:+ s) = s.
Proof.
  revert fuel. induction n as [|n IH]; intros fuel Hs Hf.
  - change (spaces 0 +:+ s)%string with s. destruct fuel as [|fuel]; [done|]. cbn [trim_start]. by rewrite Hs.
  - destruct fuel as [|fuel]; [lia|]. apply (IH fuel Hs). lia.
Qed.

Lemma trim_spaces_all n s : white_len s = O -> trim_start (String.length (spaces n +:+ s)) (spaces n +:+ s) = s.
Proof.
  intros Hs. apply trim_spaces; [done|]. rewrite str_length_app. assert (String.length (spaces n) = n) as ->; [|lia].
  induction n; simpl; congruence.
Qed.

Lemma lower_app a b : to_ascii_lowercase (a +:+ b) = (to_ascii_lowercase a +:+ to_ascii_lowercase b)%string.
Proof. induction a as [|c a IH]; [done|]. change (to_ascii_lowercase (String c a +:+ b)) with (String (ascii_lower c) (to_ascii_lowercase (a +:+ b))). by rewrite IH. Qed.

Lemma lower_length a : String.length (to_ascii_lowercase a) = String.length a.
Proof. induction a; simpl; congruence. Qed.

(** Where the digits stop. *)
Lemma digits_end ds rest acc n : digits_val acc ds = Some n -> is_ascii_digit rest = false ->
  default (String.length (ds +:+ rest)) (find_at (fun t => negb (is_ascii_digit t)) (ds +:+ rest)) = String.length ds.
Proof.
  intros Hd Hr.
  assert (Hf : rest = EmptyString /\ find_at (fun t => negb (is_ascii_digit t)) (ds +:+ rest) = None \/
    find_at (fun t => negb (is_ascii_digit t)) (ds +:+ rest) = Some (String.length ds)).
  { revert acc Hd. induction ds as [|c ds IH]; intros acc Hd.
    - destruct rest as [|c rest]; [by left|]. right. change (EmptyString +:+ String c rest)%string with (String c rest).
      cbn [find_at]. by rewrite Hr.
    - simpl in Hd. destruct (digit_val c) as [d|] eqn:Ed; [|done]. simpl in Hd.
      change (String c ds +:+ rest)%string with (String c (ds +:+ rest)). cbn [find_at is_ascii_digit]. rewrite Ed. cbn [negb].
      destruct (IH _ Hd) as [[-> E]|E]; rewrite E; auto. }
  destruct Hf as [[-> Hf]|Hf]; rewrite Hf; simpl; [|done]. rewrite str_length_app. simpl. lia.
Qed.

Lemma parse_i64_digits ds n : ds <> EmptyString -> digits_val 0 ds = Some n -> n < 2 ^ 63 -> parse_i64 ds = Some n.
Proof.
  intros Hne Hd Hn. pose proof (digits_val_bounds 0 ds n ltac:(lia) Hd). unfold parse_i64, parse_signed.
  destruct ds as [|c ds]; [done|]. assert (Hc : digit_val c <> None) by (simpl in Hd; by destruct (digit_val c)).
  assert (Hread : (if bool_decide (String c ds = EmptyString) then None else v ← digits_val 0 (String c ds);
    (if (- 2 ^ (64 - 1) <=? v) && (v <? 2 ^ (64 - 1)) then Some v else None)) = Some n).
  { rewrite bool_decide_false by done. rewrite Hd. cbn [mbind option_bind]. change (2 ^ (64 - 1)) with (2 ^ 63).
    by rewrite (proj2 (Z.leb_le _ _)), (proj2 (Z.ltb_lt _ _)) by lia. }
  destruct c as [[] [] [] [] [] [] [] []]; try exact Hread; by elim Hc.
Qed.

Lemma i64_mul_small a b : - 2 ^ 63 <= a * b < 2 ^ 63 -> i64_mul a b = a * b.
Proof. intros Hab. unfold i64_mul. rewrite wrap_small by lia. lia. Qed.

Lemma digit_not_white s : is_ascii_digit s = true -> white_len s = O.
Proof. destruct s as [|[[] [] [] [] [] [] [] []] s]; try done; by destruct s as [|d [|e s]]. Qed.

Lemma sign_not_white (minus : bool) s : white_len (String (if minus then "-" else "+")%char s) = O.
Proof. by destruct minus, s as [|d [|e s]]. Qed.

Lemma digits_start ds rest n : ds <> EmptyString -> digits_val 0 ds = Some n -> is_ascii_digit (ds +:+ rest) = true.
Proof.
  destruct ds as [|c ds]; [done|]. intros _ Hd. simpl in Hd. change (String c ds +:+ rest)%string with (String c (ds +:+ rest)).
  simpl. by destruct (digit_val c).
Qed.

Lemma unit_secs_inv u k : unit_secs u = Some k -> u ∈ ["s"; "m"; "h"; "d"; "w"; "M"; "y"] /\ 0 < k.
Proof.
  unfold unit_secs. repeat (case_bool_decide; [intros [= <-]; subst; split; [|lia]; repeat constructor|]). done.
Qed.

Lemma unit_shape u : u ∈ ["s"; "m"; "h"; "d"; "w"; "M"; "y"] ->
  u <> EmptyString /\ length (chars u) = 1%nat /\ white_len u = O /\ is_ascii_digit u = false.
Proof. rewrite !elem_of_cons, elem_of_nil. intros [->|[->|[->|[->|[->|[->|[->|[]]]]]]]]; done. Qed.

(** [now], in any case, a sign, decimal digits of value [n] and a unit, with
    spaces where the parser skips them, is the instant [n] units later or
    earlier, as long as the number of seconds fits an [i64]; beyond chrono's
    range of dates the call panics. *)
Theorem relative_date_means (debug debug_char : string -> string) (now : timestamp) (later : Z -> option timestamp)
    (nw ds u : string) (a b c : nat) (minus : bool) (n k : Z)
    (Hnow : to_ascii_lowercase nw = "now") (Hds : ds <> EmptyString) (Hn : digits_val 0 ds = Some n)
    (Hu : unit_secs u = Some k) (Hfits : n * k < 2 ^ 63) :
  try_parse_relative debug debug_char now later
      (nw +:+ (spaces a +:+ String (if minus then "-" else "+")%char (spaces b +:+ (ds +:+ (spaces c +:+ u)))))
    = match later (if minus then - (n * k) else n * k) with Some dt => Returns (Ok (Some dt)) | None => Panics end.
Proof.
  destruct (unit_secs_inv u k Hu) as [Hin Hk]. destruct (unit_shape u Hin) as (Hne & Hone & Hwhite & Hdig).
  pose proof (digits_val_bounds 0 ds n ltac:(lia) Hn) as Hn0.
  assert (H3 : String.length nw = 3%nat) by (by rewrite <- lower_length, Hnow).
  unfold try_parse_relative. rewrite lower_app, Hnow.
  rewrite bool_decide_false.
  2: { intros E%(f_equal String.length). rewrite str_length_app, lower_length, str_length_app in E. simpl in E. lia. }
  rewrite starts_with_app. cbn [negb]. rewrite <- H3, str_drop_app, trim_spaces_all by apply sign_not_white.
  assert (Hsign : match String (if minus then "-" else "+")%char (spaces b +:+ (ds +:+ (spaces c +:+ u))) with
                  | String "+" _ => Some 1 | String "-" _ => Some (-1) | _ => None end = Some (if minus then -1 else 1))
    by (by destruct minus).
  rewrite Hsign. cbn [str_drop].
  rewrite trim_spaces_all by (eapply digit_not_white, digits_start; eauto).
  rewrite (digits_end ds (spaces c +:+ u) 0 n Hn) by (by destruct c).
  destruct (Nat.eqb_spec (String.length ds) 0) as [E|_]; [by destruct ds|].
  rewrite str_take_app, (parse_i64_digits ds n Hds Hn) by nia.
  rewrite str_drop_app, trim_spaces_all by done. rewrite bool_decide_false by done. rewrite Hone. cbn [Nat.ltb Nat.leb].
  unfold unit_to_duration. rewrite Hu. rewrite (i64_mul_small n k) by nia.
  rewrite i64_mul_small by (destruct minus; nia).
  by replace ((if minus then -1 else 1) * (n * k)) with (if minus then - (n * k) else n * k) by (destruct minus; lia).
Qed.

Definition chrono_later (now : timestamp) (n : Z) : option timestamp :=
  if Z.abs n <=? 8 * 10 ^ 15 / 1000 then Some (now + secs n) else None.

(** An amount whose seconds wrap is read as another instant: some 584 thousand
    million years from now is 26 days ago. *)
Example far_future_wraps : try_parse_relative id id 0 (chrono_later 0) "now+584942417355y" = Returns (Ok (Some (secs (-2271616)))).
Proof. by vm_compute. Qed.

Lemma relative_date_means_witness :
  try_parse_relative id id 1000 (chrono_later 1000) "NOW - 36 h" = Returns (Ok (Some (1000 + secs (- 129600)))).
Proof.
  exact (relative_date_means id id 1000 (chrono_later 1000) "NOW" "36" "h" 1 1 1 true 36 3600 ltac:(reflexivity) ltac:(done)
    ltac:(reflexivity) ltac:(reflexivity) ltac:(lia)).
Defined.
