(* ===== verification/Handlers.v ===== *)
(** * The common shape of the handlers
    (crates/ci-controller/src/api: the handlers over one table or a few)

    A handler checks the caller's role, validates its body, asks for the database,
    makes one statement, and turns what it answers into a reply. Bodies are
    decoded from JSON as serde's derived implementations do: fields by name,
    absent options as [None], defaults where the struct names one. [ok] says
    whether the database answers; what it does not answer changes nothing. *)

From Stdlib Require Import ZArith Lia.
From stdpp Require Import gmap strings list pretty.
From S2P Require Import Prelude Text F64 Json Web.

(** ** Decoding *)

(** serde: an [i32], a list, an [Option], which is [None] on null, and a field
    with its default; without one the field is required. *)
Definition de_i32 (v : Json) : option Z :=
  match v with Num z => if (- 2 ^ 31 <=? z) && (z <? 2 ^ 31) then Some z else None | _ => None end.
Definition de_strs (v : Json) : option (list string) := match v with Arr l => mapM as_str l | _ => None end.
Definition de_option {A : Type} (de : Json -> option A) (v : Json) : option (option A) :=
  match v with Null => Some None | _ => Some <$> de v end.
Definition field {A : Type} (j : Json) (k : string) (de : Json -> option A) (absent : option A) : option A :=
  match jget k j with Some v => de v | None => absent end.
Definition opt_field {A : Type} (j : Json) (k : string) (de : Json -> option A) : option (option A) := field j k (de_option de) (Some None).

(** [Option<Option<String>>]: null is the outer [None]. *)
Definition nested_field (j : Json) (k : string) : option (option (option string)) := opt_field j k (de_option as_str).

(** ** Validation *)

Definition byte_len (s : string) : Z := Z.of_nat (String.length s).

(** [if let Some(ref x) = ..] *)
Definition if_some {A : Type} (o : option A) (check : A -> result unit ApiError) : result unit ApiError :=
  match o with Some a => check a | None => Ok tt end.

(** [if x.is_empty()] and [if x.len() > max_len] *)
Definition sized (n : Z) (s : string) : Prop := s <> EmptyString /\ byte_len s <= n.

(** ** Handlers *)

Abbreviation Reply T := (result Json ApiError * option T)%type (only parsing).

(** The caller's role, the validation, the database. *)
Definition guarded {T : Type} (auth : AuthUser) (checked : result unit ApiError) (st : option T)
    (run : T -> result Json ApiError * T) : Reply T :=
  if negb (can_manage_repos (au_role auth)) then (Err (Forbidden "Insufficient permissions"), st)
  else
    match checked, st with
    | Err e, _ => (Err e, st)
    | Ok _, None => (Err StorageUnavailable, st)
    | Ok _, Some t => let '(r, t') := run t in (r, Some t')
    end.

(** A statement that is answered, its error, or its value. *)
Definition answered {A T : Type} (ok : bool) (t : T) (r : result A string * T) (k : A -> result Json ApiError)
    : result Json ApiError * T :=
  if ok then match r with (Ok a, t') => (k a, t') | (Err e, t') => (Err (Internal e), t') end
  else (Err (Internal "database"), t).

Definition found {A : Type} (missing : string) (o : option A) (k : A -> Json) : result Json ApiError :=
  match o with Some a => Ok (k a) | None => Err (NotFound missing) end.

Definition deleted (missing : string) (hit : bool) : result Json ApiError :=
  if hit then Ok (Obj [("deleted", Json.Bool true)]) else Err (NotFound missing).

(** A handler that reads: only the database is asked for. *)
Definition reading {T : Type} (ok : bool) (st : option T) (k : T -> result Json ApiError) : result Json ApiError :=
  match st with
  | None => Err StorageUnavailable
  | Some t => if ok then k t else Err (Internal "database")
  end.

(** ** Facts *)

(** A guarded statement changes the tables only when its checks passed and the
    database answered. *)
Lemma guarded_statement {A T : Type} auth checked ok (t t' : T) (r : T -> result A string * T) k :
  (guarded auth checked (Some t) (fun t => answered ok t (r t) k)).2 = Some t' ->
  t' = t \/ checked = Ok tt /\ can_manage_repos (au_role auth) = true /\ t' = (r t).2.
Proof.
  unfold guarded, answered. destruct (can_manage_repos _); simpl; [|intros [= ->]; by left].
  destruct checked as [[]|]; [|intros [= ->]; by left]. destruct ok; [|intros [= ->]; by left].
  destruct (r t) as [[a|e] t0]; intros [= ->]; right; done.
Qed.

Lemma check_if_some {A : Type} (P : A -> Prop) (check : A -> result unit ApiError) (o : option A) (d : A) :
  (forall a, check a = Ok tt -> P a) -> if_some o check = Ok tt -> P d -> P (default d o).
Proof. destruct o; simpl; auto. Qed.

Lemma check_seq (r : result unit ApiError) (k : unit -> result unit ApiError) : rbind r k = Ok tt -> r = Ok tt /\ k tt = Ok tt.
Proof. destruct r as [[]|]; [done|discriminate]. Qed.

Lemma check_seq_any {A : Type} (r : result A ApiError) (k : result unit ApiError) : rbind r (fun _ => k) = Ok tt -> k = Ok tt.
Proof. by destruct r. Qed.

Ltac checks H :=
  repeat match type of H with rbind _ _ = Ok tt => apply check_seq in H as [? H]; cbn beta in * end.

Lemma null_is_absent j k : jget k j = Some Null -> nested_field j k = Some None.
Proof. unfold nested_field, opt_field, field. by intros ->. Qed.

