(* ===== verification/WorkerStore.v ===== *)
(** * The tables of workers and of their tokens
    (crates/ci-controller/src/storage.rs: the statements on [worker_tokens] and
    on single rows of [workers])

    A table is the collection of its rows. A statement acts on it as the database
    defines: INSERT fails on a duplicate of a unique index (the primary keys,
    [token_hash], and [worker_id] where it is not NULL) or on a value too long
    for its column, UPDATE and DELETE act on the rows that match, and a
    transaction that fails changes nothing. Ids and times that the database draws
    are arguments. *)

From Stdlib Require Import ZArith Lia.
From stdpp Require Import gmap strings list fin_maps.
From S2P Require Import Prelude Text F64 WorkerModel JobModel StageModel WorkerRegistry JobRegistry JobGroupRegistry.
From S2P Require Import LogAggregator Controller Session Web.

Record Tables := {
  worker_tokens : list DbWorkerToken;
  worker_rows : gmap string WorkerRow
}.

Definition with_tokens (f : list DbWorkerToken -> list DbWorkerToken) (t : Tables) : Tables :=
  {| t with worker_tokens := f (worker_tokens t) |}.

(** ** worker_tokens *)

(** [VARCHAR(n)] *)
Definition fits (n : nat) (s : string) : bool := (length (chars s) <=? n)%nat.
Definition opt_fits (n : nat) (s : option string) : bool := match s with Some s => fits n s | None => true end.

(** A row that shares the key of one of the unique indexes with another. *)
Definition clashes (row old : DbWorkerToken) : bool :=
  bool_decide (wt_id row = wt_id old) || bool_decide (wt_token_hash row = wt_token_hash old)
  || match wt_worker_id row with Some w => bool_decide (wt_worker_id old = Some w) | None => false end.

Definition insert_token (row : DbWorkerToken) (tokens : list DbWorkerToken) : result (list DbWorkerToken) string :=
  if negb (fits 255 (wt_name row) && fits 64 (wt_token_hash row) && fits 20 (wt_scope row)
           && opt_fits 255 (wt_created_by row) && opt_fits 255 (wt_worker_id row))
  then Err "value too long"
  else if existsb (clashes row) tokens then Err "duplicate key"
  else Ok (tokens ++ [row]).

Definition new_token (id : Uuid) (now : timestamp) (name token_hash scope : string) (created_by : option string)
    (expires_at : option timestamp) (max_uses : Z) (worker_id : option string) : DbWorkerToken := {|
  wt_id := id;
  wt_name := name;
  wt_token_hash := token_hash;
  wt_scope := scope;
  wt_created_by := created_by;
  wt_expires_at := expires_at;
  wt_max_uses := max_uses;
  wt_uses := 0;
  wt_active := true;
  wt_created_at := now;
  wt_worker_id := worker_id
|}.

Definition create_worker_token (id : Uuid) (now : timestamp) (name token_hash scope : string) (created_by : option string)
    (expires_at : option timestamp) (max_uses : Z) (worker_id : option string) (t : Tables) : result DbWorkerToken string * Tables :=
  let row := new_token id now name token_hash scope created_by expires_at max_uses worker_id in
  match insert_token row (worker_tokens t) with
  | Ok tokens => (Ok row, with_tokens (fun _ => tokens) t)
  | Err e => (Err e, t)
  end.

Definition token_by_hash (hash : string) (t : Tables) : option DbWorkerToken :=
  head (filter (fun row => wt_token_hash row = hash) (worker_tokens t)).

Definition token_worker_id (hash : string) (t : Tables) : option string := token_by_hash hash t ≫= wt_worker_id.

(** [ORDER BY created_at DESC] *)
Definition list_worker_tokens (t : Tables) : list DbWorkerToken :=
  sort_by (fun a b => wt_created_at b ?= wt_created_at a) (worker_tokens t).

(** The row with an id, updated. *)
Definition update_token (f : DbWorkerToken -> DbWorkerToken) (id : Uuid) (t : Tables) : Tables :=
  with_tokens (fmap (fun row => if bool_decide (wt_id row = id) then f row else row)) t.

(** The addition fails beyond the range of INT. *)
Definition increment_worker_token_uses (id : Uuid) (t : Tables) : result unit string * Tables :=
  if existsb (fun row => bool_decide (wt_id row = id) && (2 ^ 31 - 1 <=? wt_uses row)) (worker_tokens t)
  then (Err "integer out of range", t)
  else (Ok tt, update_token (fun row => {| row with wt_uses := wt_uses row + 1 |}) id t).

Definition update_worker_token_active (id : Uuid) (active : bool) (t : Tables) : Tables :=
  update_token (fun row => {| row with wt_active := active |}) id t.

Definition delete_worker_token (id : Uuid) (t : Tables) : bool * Tables :=
  (existsb (fun row => bool_decide (wt_id row = id)) (worker_tokens t),
   with_tokens (filter (fun row => wt_id row <> id)) t).

Definition deactivate_token (worker_id : string) (row : DbWorkerToken) : DbWorkerToken :=
  if bool_decide (wt_worker_id row = Some worker_id) && wt_active row
  then {| row with wt_active := false; wt_worker_id := None |} else row.

Definition deactivate_tokens_for_worker (worker_id : string) (t : Tables) : Tables :=
  with_tokens (fmap (deactivate_token worker_id)) t.

Definition validate_registration_token (now : timestamp) (hash : string) (t : Tables) : result DbWorkerToken string :=
  match token_by_hash hash t with
  | None => Err "Registration token not found"
  | Some token =>
      if negb (wt_active token) then Err "Registration token is inactive"
      else if match wt_expires_at token with Some exp => exp <? now | None => false end then Err "Registration token has expired"
      else if (0 <? wt_max_uses token) && (wt_max_uses token <=? wt_uses token) then Err "Registration token has reached max uses"
      else Ok token
  end.

(** ** workers *)

Record RegisterWorkerRequest := {
  rw_worker_id : string;
  rw_hostname : string;
  rw_labels : option (list string);
  rw_description : option string;
  rw_priority : option Z;
  rw_max_cpu : option Z;
  rw_max_memory_mb : option Z;
  rw_max_disk_mb : option Z;
  rw_max_cpu_percent : option Z;
  rw_max_memory_percent : option Z;
  rw_max_disk_percent : option Z
}.

(** The row [register_worker] inserts, the defaults of the table included. *)
Definition registered_row (now : timestamp) (w : RegisterWorkerRequest) : WorkerRow := {|
  wk_worker_id := rw_worker_id w;
  wk_hostname := Some (rw_hostname w);
  wk_total_cpu := None;
  wk_total_memory_mb := None;
  wk_total_disk_mb := None;
  wk_disk_type := None;
  wk_supported_job_types := None;
  wk_docker_enabled := false;
  wk_status := "offline";
  wk_last_heartbeat_at := None;
  wk_registered_at := now;
  wk_labels := Some (default [] (rw_labels w));
  wk_system_info := Some "{}";
  wk_worker_token_hash := None;
  wk_registration_token_id := None;
  wk_approved := true;
  wk_description := rw_description w;
  wk_priority := default 0 (rw_priority w);
  wk_max_cpu := rw_max_cpu w;
  wk_max_memory_mb := rw_max_memory_mb w;
  wk_max_disk_mb := rw_max_disk_mb w;
  wk_max_cpu_percent := rw_max_cpu_percent w;
  wk_max_memory_percent := rw_max_memory_percent w;
  wk_max_disk_percent := rw_max_disk_percent w
|}.

(** Its [ON CONFLICT] clause. *)
Definition reregistered_row (existing : option WorkerRow) (excluded : WorkerRow) : WorkerRow :=
  match existing with
  | None => excluded
  | Some old => {| old with
      wk_hostname := wk_hostname excluded;
      wk_labels := wk_labels excluded;
      wk_description := or_else (wk_description excluded) (wk_description old);
      wk_priority := wk_priority excluded;
      wk_max_cpu := or_else (wk_max_cpu excluded) (wk_max_cpu old);
      wk_max_memory_mb := or_else (wk_max_memory_mb excluded) (wk_max_memory_mb old);
      wk_max_disk_mb := or_else (wk_max_disk_mb excluded) (wk_max_disk_mb old);
      wk_max_cpu_percent := or_else (wk_max_cpu_percent excluded) (wk_max_cpu_percent old);
      wk_max_memory_percent := or_else (wk_max_memory_percent excluded) (wk_max_memory_percent old);
      wk_max_disk_percent := or_else (wk_max_disk_percent excluded) (wk_max_disk_percent old) |}
  end.

Definition drop_tokens_of (worker_id : string) (tokens : list DbWorkerToken) : list DbWorkerToken :=
  filter (fun row => wt_worker_id row <> Some worker_id) tokens.

Definition register_worker (id : Uuid) (now : timestamp) (w : RegisterWorkerRequest) (token_name token_hash created_by : string)
    (t : Tables) : result unit string * Tables :=
  if negb (fits 255 (rw_worker_id w) && fits 255 (rw_hostname w)) then (Err "value too long", t)
  else
    let row := new_token id now token_name token_hash "dedicated" (Some created_by) None 0 (Some (rw_worker_id w)) in
    match insert_token row (drop_tokens_of (rw_worker_id w) (worker_tokens t)) with
    | Err e => (Err e, t)
    | Ok tokens =>
        (Ok tt, {| worker_tokens := tokens;
                   worker_rows := <[rw_worker_id w := reregistered_row (worker_rows t !! rw_worker_id w) (registered_row now w)]>
                                    (worker_rows t) |})
    end.

Definition update_row (f : WorkerRow -> WorkerRow) (worker_id : string) (t : Tables) : Tables :=
  {| t with worker_rows := alter f worker_id (worker_rows t) |}.

Definition update_worker_approved (worker_id : string) (approved : bool) (t : Tables) : Tables :=
  update_row (fun row => {| row with wk_approved := approved |}) worker_id t.

Definition update_worker_metadata (worker_id info : string) (t : Tables) : Tables :=
  update_row (fun row => {| row with wk_system_info := Some info |}) worker_id t.

Definition update_worker_labels (worker_id : string) (labels : list string) (t : Tables) : Tables :=
  update_row (fun row => {| row with wk_labels := Some labels |}) worker_id t.

Record UpdateLimitsRequest := {
  ul_priority : option Z;
  ul_max_cpu : option Z;
  ul_max_memory_mb : option Z;
  ul_max_disk_mb : option Z;
  ul_max_cpu_percent : option Z;
  ul_max_memory_percent : option Z;
  ul_max_disk_percent : option Z
}.

(** [CASE WHEN provided THEN NULLIF(value, 0) ELSE column END] *)
Definition set_limit (value column : option Z) : option Z :=
  match value with Some v => if v =? 0 then None else Some v | None => column end.

Definition update_worker_priority_limits (worker_id : string) (u : UpdateLimitsRequest) (t : Tables) : option WorkerRow * Tables :=
  let t' := update_row (fun row => {| row with
    wk_priority := default (wk_priority row) (ul_priority u);
    wk_max_cpu := set_limit (ul_max_cpu u) (wk_max_cpu row);
    wk_max_memory_mb := set_limit (ul_max_memory_mb u) (wk_max_memory_mb row);
    wk_max_disk_mb := set_limit (ul_max_disk_mb u) (wk_max_disk_mb row);
    wk_max_cpu_percent := set_limit (ul_max_cpu_percent u) (wk_max_cpu_percent row);
    wk_max_memory_percent := set_limit (ul_max_memory_percent u) (wk_max_memory_percent row);
    wk_max_disk_percent := set_limit (ul_max_disk_percent u) (wk_max_disk_percent row) |}) worker_id t in
  (worker_rows t' !! worker_id, t').

Definition get_worker (worker_id : string) (t : Tables) : option WorkerRow := worker_rows t !! worker_id.

Definition worker_by_token_hash (hash : string) (t : Tables) : option WorkerRow :=
  snd <$> head (filter (fun kv => wk_worker_token_hash kv.2 = Some hash) (map_to_list (worker_rows t))).

(** [load_workers] and [list_workers]: [ORDER BY worker_id] is an order of the
    database's collation; it is left open. *)
Definition load_workers `{HI : HashIter} (t : Tables) : list WorkerRow := hvalues (worker_rows t).

Definition delete_worker (worker_id : string) (t : Tables) : bool * Tables :=
  (bool_decide (is_Some (worker_rows t !! worker_id)),
   {| worker_tokens := drop_tokens_of worker_id (worker_tokens t); worker_rows := delete worker_id (worker_rows t) |}).

(** What a registration asks of the tables. *)
Definition register_answers (now : timestamp) (hash : string) (t : Tables) : RegisterAnswers := {|
  get_token_worker_id := Ok (token_worker_id hash t);
  get_worker_by_token_hash := Ok (worker_by_token_hash hash t);
  get_worker_row id := Ok (get_worker id t);
  Session.validate_registration_token :=
    match validate_registration_token now hash t with Ok token => Ok (wt_id token) | Err e => Err e end;
  upsert_result row := Ok (Session.upsert_worker (get_worker (wk_worker_id row) t) row)
|}.

(** ** The indexes hold *)

Record tables_wf (t : Tables) : Prop := {
  tw_ids : NoDup (wt_id <$> worker_tokens t);
  tw_hashes : NoDup (wt_token_hash <$> worker_tokens t);
  tw_workers : NoDup (omap wt_worker_id (worker_tokens t));
  tw_rows : forall id row, worker_rows t !! id = Some row -> wk_worker_id row = id
}.

(** No clash means new keys. *)
Lemma no_clash row tokens : existsb (clashes row) tokens = false ->
  (wt_id row ∉ (wt_id <$> tokens)) /\ (wt_token_hash row ∉ (wt_token_hash <$> tokens)) /\
  forall w, wt_worker_id row = Some w -> w ∉ omap wt_worker_id tokens.
Proof.
  intros Hc. assert (H : forall old, old ∈ tokens -> clashes row old = false).
  { intros old Ho. destruct (clashes row old) eqn:E; [|done]. rewrite <- Hc. symmetry. apply existsb_exists.
    exists old. split; [by apply list_elem_of_In|done]. }
  unfold clashes in H. split_and!.
  - intros (old & E & Ho)%list_elem_of_fmap. apply H in Ho. rewrite !orb_false_iff, bool_decide_eq_false in Ho. tauto.
  - intros (old & E & Ho)%list_elem_of_fmap. apply H in Ho. rewrite !orb_false_iff, !bool_decide_eq_false in Ho. tauto.
  - intros w Hw (old & Ho & E)%list_elem_of_omap. apply H in Ho. rewrite Hw, !orb_false_iff, !bool_decide_eq_false in Ho. tauto.
Qed.

Lemma insert_token_cases row tokens :
  (exists e, insert_token row tokens = Err e) \/
  insert_token row tokens = Ok (tokens ++ [row]) /\ existsb (clashes row) tokens = false.
Proof. unfold insert_token. destruct (negb _); [eauto|]. destruct (existsb _ _); eauto. Qed.

Lemma insert_keeps tokens row :
  NoDup (wt_id <$> tokens) -> NoDup (wt_token_hash <$> tokens) -> NoDup (omap wt_worker_id tokens) ->
  existsb (clashes row) tokens = false ->
  NoDup (wt_id <$> (tokens ++ [row])) /\ NoDup (wt_token_hash <$> (tokens ++ [row])) /\ NoDup (omap wt_worker_id (tokens ++ [row])).
Proof.
  intros H1 H2 H3 (N1 & N2 & N3)%no_clash. rewrite omap_app, !fmap_app. simpl. split_and!.
  - apply NoDup_app. split_and!; [done| |apply NoDup_singleton]. set_solver.
  - apply NoDup_app. split_and!; [done| |apply NoDup_singleton]. set_solver.
  - destruct (wt_worker_id row) as [w|]; simpl; [|by rewrite app_nil_r].
    apply NoDup_app. split_and!; [done| |apply NoDup_singleton]. specialize (N3 w eq_refl). set_solver.
Qed.

(** Rows that are dropped, or lose their worker. *)
Lemma filter_keeps (P : DbWorkerToken -> Prop) `{forall r, Decision (P r)} tokens :
  NoDup (wt_id <$> tokens) -> NoDup (wt_token_hash <$> tokens) -> NoDup (omap wt_worker_id tokens) ->
  NoDup (wt_id <$> filter P tokens) /\ NoDup (wt_token_hash <$> filter P tokens) /\ NoDup (omap wt_worker_id (filter P tokens)).
Proof.
  assert (Hs : filter P tokens `sublist_of` tokens) by apply sublist_filter.
  intros H1 H2 H3. split_and!.
  - eapply sublist_NoDup; [exact H1|]. by apply fmap_sublist.
  - eapply sublist_NoDup; [exact H2|]. by apply fmap_sublist.
  - eapply sublist_NoDup; [exact H3|]. clear -Hs. induction Hs as [|r l1 l2 Hs IH|r l1 l2 Hs IH]; simpl; [done| |].
    + destruct (wt_worker_id r); [by apply sublist_skip|done].
    + destruct (wt_worker_id r); [by apply sublist_cons|done].
Qed.

Lemma map_keeps (f : DbWorkerToken -> DbWorkerToken) tokens :
  (forall r, wt_id (f r) = wt_id r /\ wt_token_hash (f r) = wt_token_hash r /\ (wt_worker_id (f r) = wt_worker_id r \/ wt_worker_id (f r) = None)) ->
  NoDup (wt_id <$> tokens) -> NoDup (wt_token_hash <$> tokens) -> NoDup (omap wt_worker_id tokens) ->
  NoDup (wt_id <$> (f <$> tokens)) /\ NoDup (wt_token_hash <$> (f <$> tokens)) /\ NoDup (omap wt_worker_id (f <$> tokens)).
Proof.
  intros Hf H1 H2 H3. rewrite <- !list_fmap_compose. split_and!.
  - rewrite (list_fmap_ext _ wt_id tokens); [done|]. intros i r _. apply Hf.
  - rewrite (list_fmap_ext _ wt_token_hash tokens); [done|]. intros i r _. apply Hf.
  - eapply sublist_NoDup; [exact H3|]. clear -Hf. induction tokens as [|r l IH]; simpl; [done|].
    destruct (Hf r) as (_ & _ & [->| ->]); destruct (wt_worker_id r); simpl; try apply sublist_skip; try apply sublist_cons; exact IH.
Qed.

(** Every statement that changes the tables. *)
Inductive table_step (t : Tables) : Tables -> Prop :=
| ts_create id now name hash scope by_ exp uses wid : table_step t (create_worker_token id now name hash scope by_ exp uses wid t).2
| ts_use id : table_step t (increment_worker_token_uses id t).2
| ts_active id b : table_step t (update_worker_token_active id b t)
| ts_delete_token id : table_step t (delete_worker_token id t).2
| ts_deactivate wid : table_step t (deactivate_tokens_for_worker wid t)
| ts_register id now w name hash by_ : table_step t (register_worker id now w name hash by_ t).2
| ts_approve wid b : table_step t (update_worker_approved wid b t)
| ts_metadata wid info : table_step t (update_worker_metadata wid info t)
| ts_labels wid ls : table_step t (update_worker_labels wid ls t)
| ts_limits wid u : table_step t (update_worker_priority_limits wid u t).2
| ts_delete wid : table_step t (delete_worker wid t).2
| ts_upsert row : table_step t {| t with worker_rows := <[wk_worker_id row := upsert_worker (get_worker (wk_worker_id row) t) row]> (worker_rows t) |}.

Lemma update_row_wf f wid t : (forall row, wk_worker_id (f row) = wk_worker_id row) -> tables_wf t -> tables_wf (update_row f wid t).
Proof.
  intros Hf [H1 H2 H3 H4]. split; simpl; [done..|]. intros id row.
  intros [(<- & row0 & Hr & ->)|[_ Hr]]%lookup_alter_Some; [rewrite Hf|]; by apply H4.
Qed.

Lemma table_step_wf t t' : table_step t t' -> tables_wf t -> tables_wf t'.
Proof.
  intros Hs Hwf. pose proof Hwf as [H1 H2 H3 H4]. destruct Hs.
  - unfold create_worker_token. destruct (insert_token_cases (new_token id now name hash scope by_ exp uses wid) (worker_tokens t))
      as [[e ->]|[-> Hc]]; [done|]. destruct (insert_keeps _ _ H1 H2 H3 Hc) as (? & ? & ?). by split.
  - unfold increment_worker_token_uses. destruct (existsb _ _); [done|].
    destruct (map_keeps (fun row => if bool_decide (wt_id row = id) then {| row with wt_uses := wt_uses row + 1 |} else row) (worker_tokens t))
      as (? & ? & ?); [intros r; case_bool_decide; auto|done..|]. by split.
  - destruct (map_keeps (fun row => if bool_decide (wt_id row = id) then {| row with wt_active := b |} else row) (worker_tokens t))
      as (? & ? & ?); [intros r; case_bool_decide; auto|done..|]. by split.
  - destruct (filter_keeps (fun row => wt_id row <> id) (worker_tokens t)) as (? & ? & ?); [done..|]. by split.
  - destruct (map_keeps (deactivate_token wid) (worker_tokens t)) as (? & ? & ?);
      [intros r; unfold deactivate_token; destruct (_ && _); auto|done..|]. by split.
  - unfold register_worker. destruct (negb _); [done|].
    destruct (filter_keeps (fun row => wt_worker_id row <> Some (rw_worker_id w)) (worker_tokens t)) as (N1 & N2 & N3); [done..|].
    destruct (insert_token_cases (new_token id now name hash "dedicated" (Some by_) None 0 (Some (rw_worker_id w)))
      (drop_tokens_of (rw_worker_id w) (worker_tokens t))) as [[e ->]|[-> Hc]]; [done|].
    destruct (insert_keeps _ _ N1 N2 N3 Hc) as (? & ? & ?). split; simpl; [done..|]. intros k row.
    intros [(<- & <-)|[_ Hr]]%lookup_insert_Some; [|by apply H4].
    destruct (worker_rows t !! rw_worker_id w) as [old|] eqn:E; simpl; [by apply H4|done].
  - by apply update_row_wf.
  - by apply update_row_wf.
  - by apply update_row_wf.
  - by apply update_row_wf.
  - unfold delete_worker, drop_tokens_of. destruct (filter_keeps (fun row => wt_worker_id row <> Some wid) (worker_tokens t)) as (? & ? & ?); [done..|].
    split; simpl; [done..|]. intros k row [_ Hr]%lookup_delete_Some. by apply H4.
  - split; simpl; [done..|]. intros k r. intros [(<- & <-)|[_ Hr]]%lookup_insert_Some; [|by apply H4].
    unfold get_worker. destruct (worker_rows t !! wk_worker_id row) as [old|] eqn:E; simpl; [by apply H4|done].
Qed.
