(* ===== verification/Analytics.v ===== *)
(** * Analytics
    (crates/ci-controller/src/api/analytics_handlers.rs; AnalyticsFilters and the
    trend queries of storage.rs)

    The texts of the queries and what is bound to them are built here, and the
    summary that the handler computes; the rows the database answers with are
    arguments. *)

From Stdlib Require Import ZArith Lia Ascii SpecFloat.
From stdpp Require Import strings list pretty.
From S2P Require Import Prelude Text F64 QueryLexer QueryParser QueryCompile Sql Json Web.

Inductive AnalyticsWindow :=
| Range (from to : timestamp)
| LastDays (days : Z).

Inductive Granularity := Hour | Day.

Definition as_sql_unit (g : Granularity) : string := match g with Hour => "hour" | Day => "day" end.

Record AnalyticsFilters := {
  af_window : AnalyticsWindow;
  af_repo_id : option Uuid;
  af_branch : option string;
  af_stage_name : option string;
  af_exit_code : option Z;
  af_granularity : Granularity
}.

(** ** Plans *)

Definition window_clauses (column : string) (w : AnalyticsWindow) : list Clause :=
  match w with
  | Range from to => [clause (column +:+ " >= ") (PTime from) ""; clause (column +:+ " <= ") (PTime to) ""]
  | LastDays d => [clause (column +:+ " > NOW() - make_interval(days => ") (PInt d) ")"]
  end%string.

Definition job_groups_clauses (f : AnalyticsFilters) (prefix : string) (extras : list string) : list Clause :=
  let p := if bool_decide (prefix = EmptyString) then EmptyString else (prefix +:+ ".")%string in
  let job (rest : string) := ("EXISTS (SELECT 1 FROM jobs j_f WHERE j_f.job_group_id = " +:+ p +:+ "id AND j_f." +:+ rest)%string in
  (plain <$> extras) ++ window_clauses (p +:+ "created_at")%string (af_window f) ++
  when (af_repo_id f) (fun u => clause (p +:+ "repo_id = ")%string (PUuid u) "") ++
  when (af_branch f) (fun b => clause (p +:+ "branch = ")%string (PText b) "") ++
  when (af_stage_name f) (fun s => clause (job "stage_name = ") (PText s) ")") ++
  when (af_exit_code f) (fun code =>
    if code =? -1 then plain (job "exit_code IS NOT NULL AND j_f.exit_code != 0)") else clause (job "exit_code = ") (PInt code) ")").

Definition jobs_clauses (f : AnalyticsFilters) (j sc jg : string) (extras : list string) : list Clause :=
  (plain <$> extras) ++ window_clauses (j +:+ ".created_at")%string (af_window f) ++
  when (af_repo_id f) (fun u => clause (sc +:+ ".repo_id = ")%string (PUuid u) "") ++
  when (af_branch f) (fun b => clause (jg +:+ ".branch = ")%string (PText b) "") ++
  when (af_stage_name f) (fun s => clause (j +:+ ".stage_name = ")%string (PText s) "") ++
  when (af_exit_code f) (fun code =>
    if code =? -1 then plain (j +:+ ".exit_code IS NOT NULL AND " +:+ j +:+ ".exit_code != 0")%string
    else clause (j +:+ ".exit_code = ")%string (PInt code) "").

Definition plan (cs : list Clause) : AnalyticsPlan :=
  let '(ts, idx) := numbered 0 cs in {| ap_where := where_clause ts; next_idx := S idx |}.

Definition plan_for_job_groups (f : AnalyticsFilters) (prefix : string) (extras : list string) : AnalyticsPlan :=
  plan (job_groups_clauses f prefix extras).

Definition plan_for_jobs (f : AnalyticsFilters) (j sc jg : string) (extras : list string) : AnalyticsPlan :=
  plan (jobs_clauses f j sc jg extras).

(** [bind_for_job_groups], also [bind_for_jobs] *)
Definition bind_filters (f : AnalyticsFilters) : list SqlValue :=
  let bind {A : Type} (o : option A) (g : A -> SqlValue) := match o with Some a => [g a] | None => [] end in
  match af_window f with Range from to => [PTime from; PTime to] | LastDays d => [PInt d] end ++
  bind (af_repo_id f) PUuid ++ bind (af_branch f) PText ++ bind (af_stage_name f) PText ++
  match af_exit_code f with Some code => if code =? -1 then [] else [PInt code] | None => [] end.

(** ** The queries of storage.rs; [s] is the schema *)

Definition bucket (g : Granularity) (column : string) : string :=
  ("DATE_TRUNC('" +:+ as_sql_unit g +:+ "', " +:+ column +:+ ")")%string.

(** Quotes inside the format. *)
Definition dq : string := String "034" EmptyString.
Definition iso_format : string := ("'YYYY-MM-DD" +:+ dq +:+ "T" +:+ dq +:+ "HH24:MI:SS" +:+ dq +:+ "Z" +:+ dq +:+ "'")%string.

Definition as_date (g : Granularity) (column : string) : string :=
  ("SELECT TO_CHAR(" +:+ bucket g column +:+ " AT TIME ZONE 'UTC', " +:+ iso_format +:+ ") as date, ")%string.

Definition by_bucket (g : Granularity) (column : string) : string :=
  (" GROUP BY " +:+ bucket g column +:+ " ORDER BY " +:+ bucket g column)%string.

Definition get_build_trends (s : string) (f : AnalyticsFilters) (chql : option SqlFragment) : BoundQuery :=
  let p := merge_chql (plan_for_job_groups f "" []) chql None in
  let g := af_granularity f in
  {| q_text := ((as_date g "created_at"
       +:+ "COUNT(*)::bigint as total, COUNT(*) FILTER (WHERE state = 'success')::bigint as success, COUNT(*) FILTER (WHERE state = 'failed')::bigint as failed FROM "
       +:+ s +:+ ".job_groups ") +:+ ap_where p +:+ by_bucket g "created_at")%string;
     q_binds := bind_filters f ++ chql_binds chql |}.

Definition get_duration_trends (s : string) (f : AnalyticsFilters) (chql : option SqlFragment) : BoundQuery :=
  let p := merge_chql (plan_for_job_groups f "" ["completed_at IS NOT NULL"%string]) chql None in
  let g := af_granularity f in
  {| q_text := ((as_date g "created_at"
       +:+ "COALESCE(AVG(EXTRACT(EPOCH FROM (completed_at - created_at)))::bigint, 0) as avg_duration_secs, COALESCE(PERCENTILE_CONT(0.95) WITHIN GROUP (ORDER BY EXTRACT(EPOCH FROM (completed_at - created_at)))::bigint, 0) as p95_duration_secs FROM "
       +:+ s +:+ ".job_groups ") +:+ ap_where p +:+ by_bucket g "created_at")%string;
     q_binds := bind_filters f ++ chql_binds chql |}.

Definition get_slowest_stages (s : string) (f : AnalyticsFilters) (limit : Z) (chql : option SqlFragment) : BoundQuery :=
  let p := merge_chql (plan_for_jobs f "j" "sc" "jg" ["j.completed_at IS NOT NULL"; "j.started_at IS NOT NULL"]%string) chql (Some "jg"%string) in
  {| q_text := (("SELECT sc.stage_name, r.repo_name, COALESCE(AVG(EXTRACT(EPOCH FROM (j.completed_at - j.started_at)))::bigint, 0) as avg_secs FROM "
       +:+ s +:+ ".jobs j JOIN " +:+ s +:+ ".stage_configs sc ON j.stage_config_id = sc.id JOIN " +:+ s +:+ ".repos r ON sc.repo_id = r.id LEFT JOIN "
       +:+ s +:+ ".job_groups jg ON j.job_group_id = jg.id ") +:+ ap_where p
       +:+ " GROUP BY sc.stage_name, r.repo_name ORDER BY avg_secs DESC LIMIT " +:+ param (next_idx p))%string;
     q_binds := bind_filters f ++ chql_binds chql ++ [PInt limit] |}.

Definition get_most_failing_repos (s : string) (f : AnalyticsFilters) (limit : Z) (chql : option SqlFragment) : BoundQuery :=
  let p := merge_chql (plan_for_job_groups f "jg" []) chql (Some "jg"%string) in
  {| q_text := (("SELECT r.repo_name, COUNT(*)::bigint as total, COUNT(*) FILTER (WHERE jg.state = 'failed')::bigint as failed FROM "
       +:+ s +:+ ".job_groups jg JOIN " +:+ s +:+ ".repos r ON jg.repo_id = r.id ") +:+ ap_where p
       +:+ " GROUP BY r.repo_name ORDER BY failed DESC LIMIT " +:+ param (next_idx p))%string;
     q_binds := bind_filters f ++ chql_binds chql ++ [PInt limit] |}.

Definition get_queue_wait_trends (s : string) (f : AnalyticsFilters) (chql : option SqlFragment) : BoundQuery :=
  let p := merge_chql (plan_for_jobs f "j" "sc" "jg" ["j.started_at IS NOT NULL"%string]) chql (Some "jg"%string) in
  let g := af_granularity f in
  {| q_text := ((as_date g "j.created_at"
       +:+ "COALESCE(AVG(EXTRACT(EPOCH FROM (j.started_at - j.created_at)))::bigint, 0) as avg_wait_secs FROM "
       +:+ s +:+ ".jobs j LEFT JOIN " +:+ s +:+ ".stage_configs sc ON j.stage_config_id = sc.id LEFT JOIN "
       +:+ s +:+ ".job_groups jg ON j.job_group_id = jg.id ") +:+ ap_where p +:+ by_bucket g "j.created_at")%string;
     q_binds := bind_filters f ++ chql_binds chql |}.

(** ** analytics_handlers.rs *)

Record AnalyticsParams := {
  an_days : option Z;
  an_from : option string;
  an_to : option string;
  an_repo_id : option Uuid;
  an_branch : option string;
  an_stage_name : option string;
  an_exit_code : option Z;
  an_granularity : option string
}.

Definition AUTO_HOUR_MAX_DAYS : Z := 7.

Definition auto_granularity (from to : timestamp) : Granularity :=
  if to - from <=? secs (AUTO_HOUR_MAX_DAYS * 86400) then Hour else Day.

Definition resolve_granularity (mode : option string) (from to : timestamp) : Granularity :=
  match to_ascii_lowercase <$> mode with
  | Some m => if bool_decide (m = "hour"%string) then Hour else if bool_decide (m = "day"%string) then Day else auto_granularity from to
  | None => auto_granularity from to
  end.

Definition some_text (o : option string) : option string := s ← o; if bool_decide (s = EmptyString) then None else Some s.

Section Params.
(** [parse_flexible_datetime] of [Web] with its parsers; chrono's subtraction of
    days, [None] when it panics. *)
Context (dates : string -> string -> bool -> outcome timestamp) (minus_days : timestamp -> Z -> option timestamp).

Definition date_then {A : Type} (field v : string) (end_of_day : bool) (k : timestamp -> outcome A) : outcome A :=
  match dates field v end_of_day with Returns (Ok t) => k t | Returns (Err e) => Returns (Err e) | Panics => Panics end.

Definition days_param (p : AnalyticsParams) : Z := clamp 1 365 (default 30 (an_days p)).

Definition window_from_params (now : timestamp) (p : AnalyticsParams) : outcome AnalyticsWindow :=
  match an_from p, an_to p with
  | Some f, Some t => date_then "from" f false (fun from => date_then "to" t true (fun to => Returns (Ok (Range from to))))
  | Some f, None => date_then "from" f false (fun from => Returns (Ok (Range from now)))
  | None, Some t =>
      date_then "to" t true (fun to =>
        match minus_days to (days_param p) with Some from => Returns (Ok (Range from to)) | None => Panics end)
  | None, None => Returns (Ok (LastDays (days_param p)))
  end.

Definition window_bounds (w : AnalyticsWindow) (now : timestamp) : option (timestamp * timestamp) :=
  match w with
  | Range from to => Some (from, to)
  | LastDays days => from ← minus_days now days; Some (from, now)
  end.

Definition filters_from_params (now now' : timestamp) (p : AnalyticsParams) : outcome AnalyticsFilters :=
  match window_from_params now p with
  | Panics => Panics
  | Returns (Err e) => Returns (Err e)
  | Returns (Ok w) =>
      match window_bounds w now' with
      | None => Panics
      | Some (from, to) =>
          Returns (Ok {| af_window := w; af_repo_id := an_repo_id p; af_branch := some_text (an_branch p);
                         af_stage_name := some_text (an_stage_name p); af_exit_code := an_exit_code p;
                         af_granularity := resolve_granularity (an_granularity p) from to |})
      end
  end.
End Params.

(** What the database answers. *)
Record AnalyticsAnswers := {
  aa_build_trends : list (string * (Z * Z * Z));
  aa_duration_trends : list (string * (Z * Z));
  aa_slowest_stages : list (string * string * Z);
  aa_failing_repos : list (string * (Z * Z));
  aa_worker_utilization : list (string * option string * string * (Z * Z));
  aa_queue_wait : list (string * Z)
}.

(** [i64] sums wrap; the mean is an integer division. *)
Definition i64_sum (l : list Z) : Z := foldl (fun a x => as_i64 (a + x)) 0 l.
Definition mean (l : list Z) : Z := match l with [] => 0 | _ => Z.quot (i64_sum l) (Z.of_nat (length l)) end.

(** [f64::round]: to the nearest integer, halves away from zero. *)
Definition f64_round (x : f64) : f64 :=
  match x with
  | S754_finite s m e =>
      if 0 <=? e then x
      else
        let q := (2 * Z.pos m + 2 ^ (- e)) / 2 ^ (1 - e) in
        if q =? 0 then S754_zero s else F64.of_Z (if s then - q else q)
  | _ => x
  end.

Definition success_rate (total_success total_builds : Z) : f64 :=
  if 0 <? total_builds
  then F64.div (f64_round (F64.mul (F64.div (F64.of_Z total_success) (F64.of_Z total_builds)) (F64.of_Z 1000))) (F64.of_Z 10)
  else F64.of_Z 0.

Definition summary (a : AnalyticsAnswers) : list (string * Json) :=
  let builds := i64_sum ((fun x => x.2.1.1) <$> aa_build_trends a) in
  let success := i64_sum ((fun x => x.2.1.2) <$> aa_build_trends a) in [
  ("total_builds", Num builds); ("success_rate", Float (success_rate success builds));
  ("avg_duration_secs", Num (mean ((fun x => x.2.1) <$> aa_duration_trends a)));
  ("avg_queue_wait_secs", Num (mean (snd <$> aa_queue_wait a)))]%string.

Definition get_analytics (filters : outcome AnalyticsFilters) (chql : result (option SqlFragment) ApiError)
    (query : AnalyticsFilters -> option SqlFragment -> result AnalyticsAnswers string) (has_storage : bool) : outcome Json :=
  if negb has_storage then Returns (Err StorageUnavailable)
  else
    match filters with
    | Panics => Panics
    | Returns (Err e) => Returns (Err e)
    | Returns (Ok f) =>
        match chql with
        | Err e => Returns (Err e)
        | Ok frag =>
            match query f frag with
            | Err e => Returns (Err (Internal ("Analytics query failed: " +:+ e)%string))
            | Ok a => Returns (Ok (Obj [
                ("summary", Obj (summary a));
                ("build_trends", jarr (fun x => Obj [("date", Str x.1); ("total", Num x.2.1.1); ("success", Num x.2.1.2); ("failed", Num x.2.2)]) (aa_build_trends a));
                ("duration_trends", jarr (fun x => Obj [("date", Str x.1); ("avg_duration_secs", Num x.2.1); ("p95_duration_secs", Num x.2.2)]) (aa_duration_trends a));
                ("slowest_stages", jarr (fun x => Obj [("stage_name", Str x.1.1); ("repo_name", Str x.1.2); ("avg_secs", Num x.2)]) (aa_slowest_stages a));
                ("failing_repos", jarr (fun x => Obj [("repo_name", Str x.1); ("total", Num x.2.1); ("failed", Num x.2.2)]) (aa_failing_repos a));
                ("worker_utilization", jarr (fun x => Obj [("worker_id", Str x.1.1.1); ("hostname", jopt Str x.1.1.2); ("status", Str x.1.2);
                   ("active_jobs", Num x.2.1); ("total_jobs_30d", Num x.2.2)]) (aa_worker_utilization a));
                ("queue_wait_trends", jarr (fun x => Obj [("date", Str x.1); ("avg_wait_secs", Num x.2)]) (aa_queue_wait a))]%string))
            end
        end
    end.

(** ** What the queries say *)

Lemma window_clauses_ok column w : no_params column -> Forall clause_ok (window_clauses column w).
Proof. intros Hc. destruct w; repeat constructor; apply clause_is_ok; try done; by apply no_params_app. Qed.

Lemma plain_clauses_ok extras : Forall no_params extras -> Forall clause_ok (plain <$> extras).
Proof. intros H. apply Forall_fmap. eapply Forall_impl; [exact H|]. intros e He. by apply plain_is_ok. Qed.

Lemma job_groups_clauses_ok f prefix extras : no_params prefix -> Forall no_params extras -> Forall clause_ok (job_groups_clauses f prefix extras).
Proof.
  intros Hp He. unfold job_groups_clauses. cbv zeta.
  assert (Hd : no_params (if bool_decide (prefix = EmptyString) then EmptyString else prefix +:+ ".")%string)
    by (case_bool_decide; [done|by apply no_params_app]).
  repeat apply Forall_app_2; [by apply plain_clauses_ok|by apply window_clauses_ok, no_params_app|..];
    apply Forall_when; intros a; try (destruct (a =? -1));
    (apply clause_is_ok || apply plain_is_ok); try done; repeat apply no_params_app; done.
Qed.

Lemma jobs_clauses_ok f j sc jg extras : no_params j -> no_params sc -> no_params jg -> Forall no_params extras ->
  Forall clause_ok (jobs_clauses f j sc jg extras).
Proof.
  intros Hj Hs Hg He. unfold jobs_clauses.
  repeat apply Forall_app_2; [by apply plain_clauses_ok|by apply window_clauses_ok, no_params_app|..];
    apply Forall_when; intros a; try (destruct (a =? -1));
    (apply clause_is_ok || apply plain_is_ok); try done; repeat apply no_params_app; done.
Qed.

Lemma extras_bind extras : clause_binds (plain <$> extras) = [].
Proof. by induction extras. Qed.

Lemma job_groups_bind f prefix extras : clause_binds (job_groups_clauses f prefix extras) = bind_filters f.
Proof.
  unfold job_groups_clauses. cbv zeta. unfold clause_binds. rewrite omap_app. fold (clause_binds (plain <$> extras)). rewrite extras_bind.
  rewrite !omap_app. unfold bind_filters. destruct f as [[from to|d] [u|] [b|] [s|] [e|] g]; simpl; try done; by destruct (e =? -1).
Qed.

Lemma jobs_bind f j sc jg extras : clause_binds (jobs_clauses f j sc jg extras) = bind_filters f.
Proof.
  unfold jobs_clauses, clause_binds. rewrite omap_app. fold (clause_binds (plain <$> extras)). rewrite extras_bind.
  rewrite !omap_app. unfold bind_filters. destruct f as [[from to|d] [u|] [b|] [s|] [e|] g]; simpl; try done; by destruct (e =? -1).
Qed.

(** The WHERE clause of a plan with its fragment, and the parameter that follows. *)
Lemma inline_plan show cs chql wrap more rest : Forall clause_ok cs -> chql_fits chql -> no_params (default EmptyString wrap) ->
  starts_digit rest = false ->
  let p := merge_chql (plan cs) chql wrap in
  inline show (clause_binds cs ++ chql_binds chql ++ more) (ap_where p +:+ rest) =
    (spliced show (where_clause (said show <$> cs)) chql wrap +:+ inline show (clause_binds cs ++ chql_binds chql ++ more) rest)%string /\
  next_idx p = S (length (clause_binds cs ++ chql_binds chql)).
Proof.
  intros Hok Hf Hw Hr. pose proof (inline_where show _ cs chql wrap more rest Hok Hf Hw eq_refl Hr) as H. unfold plan.
  by destruct (numbered 0 cs).
Qed.

Lemma inline_last show pre v : inline show (pre ++ [v]) (param (S (length pre))) = show v.
Proof.
  rewrite <- (str_app_nil_r (param _)). rewrite (inline_param show _ (length pre) v); [apply str_app_nil_r| |done].
  by rewrite lookup_app_r, Nat.sub_diag by lia.
Qed.

Lemma bucket_plain g column : no_params column -> no_params (bucket g column).
Proof. intros H. unfold bucket. destruct g; repeat apply no_params_app; done. Qed.

Lemma as_date_plain g column : no_params column -> no_params (as_date g column).
Proof. intros H. unfold as_date, bucket. destruct g; repeat apply no_params_app; done. Qed.

Lemma by_bucket_plain g column : no_params column -> no_params (by_bucket g column).
Proof. intros H. unfold by_bucket, bucket. destruct g; repeat apply no_params_app; done. Qed.

Lemma inline_end show bs s : no_params s -> inline show bs s = s.
Proof. intros H. rewrite <- (str_app_nil_r s) at 1. rewrite (inline_plain show bs s EmptyString H). apply str_app_nil_r. Qed.

(** A query says the clauses [cs] and the fragment with every value in its place,
    between a text without parameters and [tail], and then its limit. *)
Definition says (show : SqlValue -> string) (q : BoundQuery) (cs : list Clause) (chql : option SqlFragment) (wrap : option string)
    (tail : string) (limit : option Z) : Prop :=
  exists head, no_params head /\
    q_text q = (head +:+ ap_where (merge_chql (plan cs) chql wrap) +:+ tail +:+
                match limit with Some _ => param (next_idx (merge_chql (plan cs) chql wrap)) | None => EmptyString end)%string /\
    inline show (q_binds q) (q_text q) =
      (head +:+ spliced show (where_clause (said show <$> cs)) chql wrap +:+ tail +:+
       match limit with Some n => show (PInt n) | None => EmptyString end)%string.

Lemma query_says show q cs chql wrap head tail limit :
  Forall clause_ok cs -> chql_fits chql -> no_params (default EmptyString wrap) -> no_params head -> no_params tail ->
  starts_digit tail = false -> tail <> EmptyString ->
  q_text q = (head +:+ ap_where (merge_chql (plan cs) chql wrap) +:+ tail +:+
              match limit with Some _ => param (next_idx (merge_chql (plan cs) chql wrap)) | None => EmptyString end)%string ->
  q_binds q = clause_binds cs ++ chql_binds chql ++ match limit with Some n => [PInt n] | None => [] end ->
  says show q cs chql wrap tail limit.
Proof.
  intros Hok Hf Hw Hh Ht Hd Hne Et Eb. exists head. split; [done|]. split; [exact Et|]. rewrite Et, Eb, (inline_plain show _ head) by done. f_equal.
  set (last := match limit with Some _ => _ | None => EmptyString end).
  assert (Hr : starts_digit (tail +:+ last) = false) by (by destruct tail).
  destruct (inline_plan show cs chql wrap (match limit with Some n => [PInt n] | None => [] end) (tail +:+ last)%string Hok Hf Hw Hr) as [-> Hn].
  f_equal. rewrite (inline_plain show _ tail) by done. f_equal. unfold last. destruct limit as [n|]; [|done].
  rewrite Hn, app_assoc. apply inline_last.
Qed.

Ltac plain_text := repeat match goal with |- no_params (String.append _ _) => apply no_params_app end; try exact eq_refl; try assumption.

(** The five queries that take filters each say their filters and the ChQL
    expression with every value at its own place, and the limit in its own. *)
Lemma analytics_says (show : SqlValue -> string) (s : string) (f : AnalyticsFilters) (limit : Z) (chql : option SqlFragment) :
  no_params s -> chql_fits chql ->
  let g := af_granularity f in
  says show (get_build_trends s f chql) (job_groups_clauses f "" []) chql None (by_bucket g "created_at") None /\
  says show (get_duration_trends s f chql) (job_groups_clauses f "" ["completed_at IS NOT NULL"%string]) chql None
    (by_bucket g "created_at") None /\
  says show (get_slowest_stages s f limit chql) (jobs_clauses f "j" "sc" "jg" ["j.completed_at IS NOT NULL"; "j.started_at IS NOT NULL"]%string)
    chql (Some "jg"%string) " GROUP BY sc.stage_name, r.repo_name ORDER BY avg_secs DESC LIMIT " (Some limit) /\
  says show (get_most_failing_repos s f limit chql) (job_groups_clauses f "jg" []) chql (Some "jg"%string)
    " GROUP BY r.repo_name ORDER BY failed DESC LIMIT " (Some limit) /\
  says show (get_queue_wait_trends s f chql) (jobs_clauses f "j" "sc" "jg" ["j.started_at IS NOT NULL"%string]) chql (Some "jg"%string)
    (by_bucket g "j.created_at") None.
Proof.
  intros Hs Hf. cbv zeta. set (g := af_granularity f).
  assert (Hjg : forall p extras, no_params p -> Forall no_params extras -> Forall clause_ok (job_groups_clauses f p extras))
    by (intros; by apply job_groups_clauses_ok).
  assert (Hj : forall extras, Forall no_params extras -> Forall clause_ok (jobs_clauses f "j" "sc" "jg" extras)) by (intros; by apply jobs_clauses_ok).
  assert (Hd : forall column, no_params column -> no_params (as_date g column)) by (intros; by apply as_date_plain).
  assert (Hb : forall column, no_params column -> no_params (by_bucket g column)) by (intros; by apply by_bucket_plain).
  split_and!.
  - eapply query_says; [by apply Hjg|exact Hf|done| |by apply Hb|done|done
      |unfold get_build_trends; cbn [q_text]; rewrite (str_app_nil_r (by_bucket _ _)); reflexivity|by rewrite job_groups_bind, app_nil_r].
    plain_text; by apply Hd.
  - eapply query_says; [apply Hjg; by repeat constructor|exact Hf|done| |by apply Hb|done|done
      |unfold get_duration_trends; cbn [q_text]; rewrite (str_app_nil_r (by_bucket _ _)); reflexivity|by rewrite job_groups_bind, app_nil_r].
    plain_text; by apply Hd.
  - eapply query_says; [apply Hj; by repeat constructor|exact Hf|done| |done|done|done
      |unfold get_slowest_stages; cbn [q_text]; reflexivity|by rewrite jobs_bind].
    plain_text.
  - eapply query_says; [by apply Hjg|exact Hf|done| |done|done|done
      |unfold get_most_failing_repos; cbn [q_text]; reflexivity|by rewrite job_groups_bind].
    plain_text.
  - eapply query_says; [apply Hj; by repeat constructor|exact Hf|done| |by apply Hb|done|done
      |unfold get_queue_wait_trends; cbn [q_text]; rewrite (str_app_nil_r (by_bucket _ _)); reflexivity|by rewrite jobs_bind, app_nil_r].
    plain_text; by apply Hd.
Qed.

(** ** Examples *)

Definition stage_filter : AnalyticsFilters := {|
  af_window := LastDays 30; af_repo_id := None; af_branch := None; af_stage_name := Some "test"%string; af_exit_code := None;
  af_granularity := Day |}.

Definition shown_text (v : SqlValue) : string := match v with PText s => "'" +:+ s +:+ "'" | PInt z => pretty z | _ => EmptyString end%string.

(** In the subquery the bare [id] is the job's: [job_groups] has no alias here, so
    no column but [j_f.id] is in reach. *)
Example stage_filter_compares_job_id :
  where_clause (said shown_text <$> job_groups_clauses stage_filter "" []) =
  "WHERE created_at > NOW() - make_interval(days => 30) AND EXISTS (SELECT 1 FROM jobs j_f WHERE j_f.job_group_id = id AND j_f.stage_name = 'test')"%string.
Proof. vm_compute. reflexivity. Qed.

Example rates : (F64.to_string (success_rate 2 3), F64.to_string (success_rate 1 16), F64.to_string (success_rate 0 0)) = ("66.7", "6.3", "0")%string.
Proof. vm_compute. reflexivity. Qed.

(** The cases of the module's tests. *)
Example granularities :
  let d n := secs (n * 86400) in
  (auto_granularity 0 (d 1), auto_granularity 0 (d 7), auto_granularity 0 (d 8), auto_granularity 0 (d 7 + secs 1),
   resolve_granularity (Some "HOUR"%string) 0 (d 90), resolve_granularity (Some "day"%string) 0 (d 1),
   resolve_granularity (Some "week"%string) 0 (d 30)) = (Hour, Hour, Day, Day, Hour, Day, Day).
Proof. vm_compute. reflexivity. Qed.

(** Without dates, or with an end alone, the window is one of 1 to 365 days. *)
Lemma window_length dates minus_days now p w : an_from p = None -> window_from_params dates minus_days now p = Returns (Ok w) ->
  exists d, 1 <= d <= 365 /\ (w = LastDays d \/ exists from to, w = Range from to /\ minus_days to d = Some from).
Proof.
  unfold window_from_params. intros -> H. exists (days_param p). split; [apply clamp_bounds; lia|].
  destruct (an_to p) as [t|]; [|left; congruence]. right. unfold date_then in H. destruct (dates "to"%string t true) as [[to|e]|]; try done.
  destruct (minus_days to (days_param p)) as [from|] eqn:E; [|done]. injection H as <-. eauto.
Qed.
