(* ===== verification/BuildStore.v ===== *)
(** * The tables of builds and of their archive
    (crates/ci-controller/src/storage.rs: job groups, jobs, concurrency queries,
    retention; migrations 002 to 034)

    The live tables are keyed maps; the archive tables, which have no key, are
    lists of rows with the time of archiving. The four tables of further rows of
    a build (reservations, artifacts, test results, approval gates) are one list
    of tagged rows. A statement acts as the database defines: it fails as a whole
    when a constraint would be violated. The order in which a query without ORDER
    BY returns its rows is left open. *)

From Stdlib Require Import ZArith Lia.
From stdpp Require Import gmap strings list fin_maps.
From S2P Require Import Prelude F64 WorkerModel JobModel StageModel WorkerRegistry JobRegistry JobGroupRegistry.
From S2P Require Import LogAggregator Controller Session Json Web WorkerStore.

Record GroupRow := {
  gr_id : Uuid;
  gr_repo_id : option Uuid;
  gr_branch : option string;
  gr_commit_sha : option string;
  gr_trigger_source : string;
  gr_reserved_worker_id : option string;
  gr_state : string;
  gr_priority : Z;
  gr_pr_number : option Z;
  gr_pinned : bool;
  gr_idempotency_key : option string;
  gr_allocated_cpu : option Z;
  gr_allocated_memory_mb : option Z;
  gr_allocated_disk_mb : option Z;
  gr_reserved_stages : option (list string);
  gr_status_reason : option string;
  gr_created_at : timestamp;
  gr_updated_at : timestamp;
  gr_completed_at : option timestamp;
  gr_files_purged_at : option timestamp
}.

Inductive child_table := approval_gates | test_results | artifacts | worker_reservations.

#[export] Instance child_table_eq_dec : EqDecision child_table.
Proof. solve_decision. Defined.

(** A row that belongs to a build; its other columns are kept as they are. *)
Record Child := {
  ch_table : child_table;
  ch_id : Uuid;
  ch_group : Uuid;
  ch_columns : Json
}.

Record Builds := {
  job_groups : gmap Uuid GroupRow;
  jobs_table : gmap string DbJob;
  children : list Child;
  job_groups_archive : list (timestamp * GroupRow);
  jobs_archive : list (timestamp * DbJob);
  children_archive : list (timestamp * Child)
}.

Definition with_rows (f : gmap Uuid GroupRow -> gmap Uuid GroupRow) (b : Builds) : Builds := {| b with job_groups := f (job_groups b) |}.
Definition with_job_rows (f : gmap string DbJob -> gmap string DbJob) (b : Builds) : Builds := {| b with jobs_table := f (jobs_table b) |}.

(** ** Rows and records *)

Definition map_job_group (r : GroupRow) : JobGroup := {|
  g_id := gr_id r;
  g_repo_id := gr_repo_id r;
  g_branch := gr_branch r;
  g_commit_sha := gr_commit_sha r;
  g_trigger_source := gr_trigger_source r;
  g_reserved_worker_id := gr_reserved_worker_id r;
  g_state := JobGroupState_from_str (gr_state r);
  g_priority := gr_priority r;
  g_pr_number := gr_pr_number r;
  g_idempotency_key := gr_idempotency_key r;
  g_allocated_resources := {|
    ar_cpu := as_u32 (default 0 (gr_allocated_cpu r));
    ar_memory_mb := as_u64 (default 0 (gr_allocated_memory_mb r));
    ar_disk_mb := as_u64 (default 0 (gr_allocated_disk_mb r)) |};
  g_reserved_stages := default [] (gr_reserved_stages r);
  g_status_reason := gr_status_reason r;
  g_created_at := gr_created_at r;
  g_updated_at := gr_updated_at r;
  g_completed_at := gr_completed_at r;
  g_last_activity_at := gr_updated_at r
|}.

(** What [create_job_group] binds, and the defaults of the other columns. *)
Definition group_row (g : JobGroup) : GroupRow := {|
  gr_id := g_id g;
  gr_repo_id := g_repo_id g;
  gr_branch := g_branch g;
  gr_commit_sha := g_commit_sha g;
  gr_trigger_source := g_trigger_source g;
  gr_reserved_worker_id := g_reserved_worker_id g;
  gr_state := JobGroupState_to_string (g_state g);
  gr_priority := g_priority g;
  gr_pr_number := g_pr_number g;
  gr_pinned := false;
  gr_idempotency_key := g_idempotency_key g;
  gr_allocated_cpu := Some (as_i32 (ar_cpu (g_allocated_resources g)));
  gr_allocated_memory_mb := Some (as_i64 (ar_memory_mb (g_allocated_resources g)));
  gr_allocated_disk_mb := Some (as_i64 (ar_disk_mb (g_allocated_resources g)));
  gr_reserved_stages := Some (g_reserved_stages g);
  gr_status_reason := g_status_reason g;
  gr_created_at := g_created_at g;
  gr_updated_at := g_updated_at g;
  gr_completed_at := None;
  gr_files_purged_at := None
|}.

(** ** Writing groups *)

Definition has_key (k : string) (m : gmap Uuid GroupRow) : bool :=
  existsb (fun kv => bool_decide (gr_idempotency_key kv.2 = Some k)) (map_to_list m).

(** Columns, primary key, the unique index on the idempotency key, the repo. *)
Definition insert_group (repo_exists : Uuid -> bool) (row : GroupRow) (m : gmap Uuid GroupRow) : result (gmap Uuid GroupRow) string :=
  if negb (opt_fits 255 (gr_branch row) && opt_fits 64 (gr_commit_sha row) && fits 100 (gr_trigger_source row)
           && opt_fits 255 (gr_reserved_worker_id row) && opt_fits 255 (gr_idempotency_key row))
  then Err "value too long"
  else if bool_decide (is_Some (m !! gr_id row)) then Err "duplicate key"
  else if match gr_idempotency_key row with Some k => has_key k m | None => false end then Err "duplicate key"
  else if match gr_repo_id row with Some r => negb (repo_exists r) | None => false end then Err "foreign key"
  else Ok (<[gr_id row := row]> m).

Definition create_job_group (repo_exists : Uuid -> bool) (group : JobGroup) (b : Builds) : result JobGroup string * Builds :=
  match insert_group repo_exists (group_row group) (job_groups b) with
  | Ok m => (Ok (map_job_group (group_row group)), with_rows (fun _ => m) b)
  | Err e => (Err e, b)
  end.

(** COALESCE of a new value and the column *)
Definition coalesce {A : Type} (new old : option A) : option A := match new with Some a => Some a | None => old end.

Definition state_row (now : timestamp) (state : JobGroupState) (reason : option string) (row : GroupRow) : GroupRow := {| row with
  gr_state := JobGroupState_to_string state;
  gr_updated_at := now;
  gr_completed_at := coalesce (if JobGroupState_is_terminal state then Some now else None) (gr_completed_at row);
  gr_status_reason := coalesce reason (gr_status_reason row) |}.

Definition update_job_group_state (now : timestamp) (id : Uuid) (state : JobGroupState) (reason : option string) (b : Builds)
    : option JobGroup * Builds :=
  let b' := with_rows (alter (state_row now state reason) id) b in (map_job_group <$> job_groups b' !! id, b').

Definition update_job_group_reason (now : timestamp) (id : Uuid) (reason : string) (b : Builds) : Builds :=
  with_rows (alter (fun row => {| row with gr_status_reason := Some reason; gr_updated_at := now |}) id) b.

Definition get_job_group (id : Uuid) (b : Builds) : option JobGroup := map_job_group <$> job_groups b !! id.

(** ** Writing jobs *)

(** [ON CONFLICT (id) DO UPDATE SET state, updated_at] *)
Definition create_job (config_exists : Uuid -> bool) (job : DbJob) (b : Builds) : result DbJob string * Builds :=
  let row := {| job with dj_exit_code := None; dj_pre_exit_code := None; dj_post_exit_code := None; dj_log_path := None;
                dj_started_at := None; dj_completed_at := None; dj_retry_count := 0 |} in
  if negb (fits 255 (dj_stage_name job) && opt_fits 255 (dj_worker_id job)) then (Err "value too long", b)
  else if negb (bool_decide (dj_state job ∈ ["queued"; "assigned"; "running"; "success"; "failed"; "cancelled"; "unknown"]))
  then (Err "check constraint", b)
  else
    match jobs_table b !! dj_id job with
    | Some old =>
        let row' := {| old with dj_state := dj_state job; dj_updated_at := dj_updated_at job |} in
        (Ok row', with_job_rows <[dj_id job := row']> b)
    | None =>
        if negb (bool_decide (is_Some (job_groups b !! dj_job_group_id job)))
           || match dj_stage_config_id job with Some c => negb (config_exists c) | None => false end
        then (Err "foreign key", b)
        else (Ok row, with_job_rows <[dj_id job := row]> b)
    end.

Definition job_state_row (now : timestamp) (state : string) (exit_code pre_exit_code post_exit_code : option Z)
    (worker_id : option string) (row : DbJob) : DbJob := {| row with
  dj_state := state;
  dj_exit_code := coalesce exit_code (dj_exit_code row);
  dj_pre_exit_code := coalesce pre_exit_code (dj_pre_exit_code row);
  dj_post_exit_code := coalesce post_exit_code (dj_post_exit_code row);
  dj_worker_id := coalesce worker_id (dj_worker_id row);
  dj_started_at := coalesce (if bool_decide (state = "running") then Some now else None) (dj_started_at row);
  dj_completed_at := coalesce (if bool_decide (state ∈ ["success"; "failed"; "cancelled"]) then Some now else None) (dj_completed_at row);
  dj_updated_at := now |}.

Definition update_job_state (now : timestamp) (id : string) (state : string) (exit_code pre_exit_code post_exit_code : option Z)
    (worker_id : option string) (b : Builds) : option DbJob * Builds :=
  let b' := with_job_rows (alter (job_state_row now state exit_code pre_exit_code post_exit_code worker_id) id) b in
  (jobs_table b' !! id, b').

Definition update_job_reason (now : timestamp) (id reason : string) (b : Builds) : Builds :=
  with_job_rows (alter (fun row => {| row with dj_status_reason := Some reason; dj_updated_at := now |}) id) b.

(** Only a job that failed or was cancelled goes back to the queue. *)
Definition requeue (now : timestamp) (row : DbJob) : DbJob :=
  if bool_decide (dj_state row ∈ ["failed"; "cancelled"]) then {| row with
    dj_state := "queued"; dj_retry_count := dj_retry_count row + 1; dj_exit_code := None; dj_started_at := None;
    dj_completed_at := None; dj_updated_at := now |}
  else row.

Definition retry_job (now : timestamp) (id : string) (b : Builds) : option DbJob * Builds :=
  let hit := match jobs_table b !! id with Some row => bool_decide (dj_state row ∈ ["failed"; "cancelled"]) | None => false end in
  let b' := with_job_rows (alter (requeue now) id) b in (if hit then jobs_table b' !! id else None, b').

Definition open_job (row : DbJob) : bool := negb (bool_decide (dj_state row ∈ ["success"; "failed"; "cancelled"])).

Definition cancel_row (now : timestamp) (row : DbJob) : DbJob := {| row with
  dj_state := "cancelled"; dj_status_reason := coalesce (dj_status_reason row) (Some "Parent group terminated"); dj_updated_at := now |}.

Definition cancel_jobs_where (now : timestamp) (p : DbJob -> bool) (b : Builds) : Z * Builds :=
  let hit row := open_job row && p row in
  (Z.of_nat (size (filter (fun kv => hit kv.2 = true) (jobs_table b))),
   with_job_rows (fmap (fun row => if hit row then cancel_row now row else row)) b).

Definition cancel_jobs_for_group (now : timestamp) (gid : Uuid) : Builds -> Z * Builds :=
  cancel_jobs_where now (fun row => bool_decide (dj_job_group_id row = gid)).

Definition ended_states : list string := ["success"; "failed"; "cancelled"; "expired"].

Definition cleanup_orphaned_jobs (now : timestamp) (b : Builds) : Z * Builds :=
  cancel_jobs_where now (fun row => match job_groups b !! dj_job_group_id row with
                                    | Some g => bool_decide (gr_state g ∈ ended_states)
                                    | None => false
                                    end) b.

(** ** Queries *)

Section Queries.
Context `{HI : HashIter}.

Definition group_rows (p : GroupRow -> bool) (b : Builds) : list GroupRow := filter (fun row => p row = true) (hvalues (job_groups b)).
Definition job_rows (p : DbJob -> bool) (b : Builds) : list DbJob := filter (fun row => p row = true) (hvalues (jobs_table b)).

Definition find_by_idempotency_key (key : string) (b : Builds) : option JobGroup :=
  map_job_group <$> head (sort_by (fun x y => gr_created_at y ?= gr_created_at x)
    (group_rows (fun r => bool_decide (gr_idempotency_key r = Some key)
                          && negb (bool_decide (gr_state r ∈ ["success"; "failed"; "cancelled"]))) b)).

Definition get_jobs_for_group (gid : Uuid) (b : Builds) : list DbJob :=
  sort_by (fun x y => dj_created_at x ?= dj_created_at y) (job_rows (fun r => bool_decide (dj_job_group_id r = gid)) b).

Definition get_job_group_with_jobs (gid : Uuid) (b : Builds) : option (JobGroup * list DbJob) :=
  (fun g => (g, get_jobs_for_group gid b)) <$> get_job_group gid b.

(** The archived row is read without its reserved stages. *)
Definition get_job_group_with_jobs_or_archive (gid : Uuid) (b : Builds) : option (JobGroup * list DbJob * bool) :=
  match get_job_group_with_jobs gid b with
  | Some (g, jobs) => Some (g, jobs, false)
  | None =>
      row ← head (filter (fun r => gr_id r = gid) (snd <$> job_groups_archive b));
      Some (map_job_group {| row with gr_reserved_stages := None |},
            sort_by (fun x y => dj_created_at x ?= dj_created_at y)
              (filter (fun r => dj_job_group_id r = gid) (snd <$> jobs_archive b)), true)
  end.

Definition get_archive_timestamps (gid : Uuid) (b : Builds) : option (timestamp * option timestamp) :=
  (fun r => (r.1, gr_files_purged_at r.2)) <$> head (filter (fun r => gr_id r.2 = gid) (job_groups_archive b)).

Definition load_active_job_groups (b : Builds) : list JobGroup :=
  map_job_group <$> sort_by (fun x y => gr_created_at x ?= gr_created_at y)
    (group_rows (fun r => negb (bool_decide (gr_state r ∈ ended_states))) b).

Definition load_active_jobs (b : Builds) : list DbJob := sort_by (fun x y => dj_created_at x ?= dj_created_at y) (job_rows open_job b).

(** A group that counts against the limit of its repo. *)
Definition counts_as_active (repo_id : Uuid) (r : GroupRow) : bool :=
  bool_decide (gr_repo_id r = Some repo_id) && negb (bool_decide (gr_state r ∈ ["completed"; "failed"; "cancelled"])).

Definition count_active_groups_for_repo (repo_id : Uuid) (b : Builds) : Z := Z.of_nat (length (group_rows (counts_as_active repo_id) b)).

Definition find_superseded_groups (repo_id : Uuid) (branch : string) (exclude_id : Uuid) (b : Builds) : list Uuid :=
  gr_id <$> sort_by (fun x y => gr_created_at x ?= gr_created_at y)
    (group_rows (fun r => counts_as_active repo_id r && bool_decide (gr_branch r = Some branch)
                          && negb (bool_decide (gr_id r = exclude_id))) b).

(** ** Retention *)

Definition days (n : Z) : Z := secs (n * 86400).

(** [ROW_NUMBER() OVER (PARTITION BY repo_id ORDER BY created_at DESC)] *)
Fixpoint row_number (rows : list GroupRow) (r : GroupRow) : Z :=
  match rows with
  | [] => 1
  | x :: xs =>
      if bool_decide (gr_id x = gr_id r) then 1
      else if bool_decide (gr_repo_id x = gr_repo_id r) then 1 + row_number xs r else row_number xs r
  end.

Definition find_excess_groups_per_repo (max_per_repo : Z) (b : Builds) : list Uuid :=
  let rows := group_rows (fun r => bool_decide (gr_state r ∈ ["success"; "failed"; "cancelled"])) b in
  let ranked := sort_by (fun x y => gr_created_at y ?= gr_created_at x) rows in
  take 5000 (gr_id <$> filter (fun r => max_per_repo < row_number ranked r) rows).

(** Ended, and longer ago than that. *)
Definition ended_before (t : timestamp) (r : GroupRow) : bool :=
  bool_decide (gr_state r ∈ ended_states) && match gr_completed_at r with Some c => c <? t | None => false end.

Definition oldest_first (limit : Z) (p : GroupRow -> bool) (b : Builds) : list Uuid :=
  take (Z.to_nat limit) (gr_id <$> sort_by (fun x y => default 0 (gr_completed_at x) ?= default 0 (gr_completed_at y)) (group_rows p b)).

Definition find_groups_for_t1 (now t1_days limit : Z) (b : Builds) : list Uuid :=
  oldest_first limit (fun r => ended_before (now - days t1_days) r && bool_decide (gr_files_purged_at r = None)) b.

Definition find_groups_for_t2 (now t2_days limit : Z) (b : Builds) : list Uuid :=
  oldest_first limit (ended_before (now - days t2_days)) b.

Definition find_archive_for_t3 (now t3_days limit : Z) (b : Builds) : list Uuid :=
  take (Z.to_nat limit) ((fun r => gr_id r.2) <$> sort_by (fun x y => x.1 ?= y.1)
    (filter (fun r : timestamp * GroupRow => r.1 < now - days t3_days) (job_groups_archive b))).

(** The union of the live and the archived workers, in some order. *)
Definition workers_for_group (gid : Uuid) (b : Builds) : list string :=
  filter (fun w => w <> EmptyString)
    (remove_dups (omap dj_worker_id (filter (fun r => dj_job_group_id r = gid) (hvalues (jobs_table b) ++ (snd <$> jobs_archive b))))).

(** [archive_group_ids]: the number of groups moved. *)
Definition archive_groups_batch (now : timestamp) (ids : list Uuid) (b : Builds) : Z * Builds :=
  let moved := filter (fun row => gr_id row ∈ ids) (hvalues (job_groups b)) in
  (Z.of_nat (length moved), {|
    job_groups := filter (fun kv => gr_id kv.2 ∉ ids) (job_groups b);
    jobs_table := filter (fun kv => dj_job_group_id kv.2 ∉ ids) (jobs_table b);
    children := filter (fun c => ch_group c ∉ ids) (children b);
    job_groups_archive := job_groups_archive b ++ (pair now <$> moved);
    jobs_archive := jobs_archive b ++ (pair now <$> filter (fun row => dj_job_group_id row ∈ ids) (hvalues (jobs_table b)));
    children_archive := children_archive b ++ (pair now <$> filter (fun c => ch_group c ∈ ids) (children b))
  |}).

Definition delete_archive_batch (ids : list Uuid) (b : Builds) : Z * Builds :=
  (Z.of_nat (length (filter (fun r => gr_id r.2 ∈ ids) (job_groups_archive b))), {| b with
    job_groups_archive := filter (fun r => gr_id r.2 ∉ ids) (job_groups_archive b);
    jobs_archive := filter (fun r => dj_job_group_id r.2 ∉ ids) (jobs_archive b);
    children_archive := filter (fun r => ch_group r.2 ∉ ids) (children_archive b) |}).

Definition mark_files_purged (now purged_at : timestamp) (ids : list Uuid) (b : Builds) : Z * Builds :=
  let hit row := bool_decide (gr_id row ∈ ids) && bool_decide (gr_files_purged_at row = None) in
  (Z.of_nat (length (group_rows hit b)),
   with_rows (fmap (fun row => if hit row then {| row with gr_files_purged_at := Some purged_at; gr_updated_at := now |} else row)) b).
End Queries.

(** [unarchive_group_ids]: fails when a row cannot be put back. *)
Fixpoint try_fold {A B : Type} (f : A -> B -> result A string) (l : list B) (a : A) : result A string :=
  match l with [] => Ok a | x :: l' => let? a' := f a x in try_fold f l' a' end.

Definition put_group (m : gmap Uuid GroupRow) (row : GroupRow) : result (gmap Uuid GroupRow) string :=
  if bool_decide (is_Some (m !! gr_id row)) || match gr_idempotency_key row with Some k => has_key k m | None => false end
  then Err "duplicate key" else Ok (<[gr_id row := row]> m).

Definition put_job (live : gmap Uuid GroupRow) (m : gmap string DbJob) (row : DbJob) : result (gmap string DbJob) string :=
  if bool_decide (is_Some (m !! dj_id row)) then Err "duplicate key"
  else if bool_decide (live !! dj_job_group_id row = None) then Err "foreign key"
  else Ok (<[dj_id row := row]> m).

Definition put_child (live : gmap Uuid GroupRow) (cs : list Child) (row : Child) : result (list Child) string :=
  if existsb (fun c => bool_decide (ch_table c = ch_table row) && bool_decide (ch_id c = ch_id row)) cs then Err "duplicate key"
  else if bool_decide (live !! ch_group row = None) then Err "foreign key"
  else Ok (cs ++ [row]).

Definition unarchive_groups_batch (ids : list Uuid) (b : Builds) : result Z string * Builds :=
  let rows := snd <$> filter (fun r => gr_id r.2 ∈ ids) (job_groups_archive b) in
  let back :=
    let? live := try_fold put_group rows (job_groups b) in
    let? js := try_fold (put_job live) (snd <$> filter (fun r => dj_job_group_id r.2 ∈ ids) (jobs_archive b)) (jobs_table b) in
    let? cs := try_fold (put_child live) (snd <$> filter (fun r => ch_group r.2 ∈ ids) (children_archive b)) (children b) in
    Ok (live, js, cs) in
  match back with
  | Err e => (Err e, b)
  | Ok (live, js, cs) =>
      (Ok (Z.of_nat (length rows)), {| (delete_archive_batch ids b).2 with job_groups := live; jobs_table := js; children := cs |})
  end.

(** ** Rows hold what was recorded *)

Lemma state_string s : JobGroupState_from_str (JobGroupState_to_string s) = s.
Proof. by destruct s. Qed.

Lemma as_u32_of_i32 z : u32 z -> as_u32 (as_i32 z) = z.
Proof. unfold u32, as_u32, as_i32. intros Hz. unfold wrap. rewrite Zminus_mod_idemp_l. replace (z + 2 ^ 31 - 2 ^ 31) with z by lia. by apply Z.mod_small. Qed.

Lemma as_u64_of_i64 z : u64 z -> as_u64 (as_i64 z) = z.
Proof. unfold u64, as_u64, as_i64. intros Hz. unfold wrap. rewrite Zminus_mod_idemp_l. replace (z + 2 ^ 63 - 2 ^ 63) with z by lia. by apply Z.mod_small. Qed.

(** A group comes back as it was recorded, but for the end, which no insert
    writes, and the last activity, which is not a column. *)
Lemma group_row_reads_back g :
  u32 (ar_cpu (g_allocated_resources g)) -> u64 (ar_memory_mb (g_allocated_resources g)) -> u64 (ar_disk_mb (g_allocated_resources g)) ->
  map_job_group (group_row g) = {| g with g_completed_at := None; g_last_activity_at := g_updated_at g |}.
Proof.
  intros H1 H2 H3. destruct g as [id repo br sha src wid st pr prn key [cpu mem disk] stages reason cr up co la]. simpl in *.
  unfold map_job_group, group_row. simpl. by rewrite state_string, as_u32_of_i32, !as_u64_of_i64.
Qed.

(** ** What the constraints keep *)

Record builds_wf (b : Builds) : Prop := {
  bw_groups : forall id r, job_groups b !! id = Some r -> gr_id r = id;
  bw_jobs : forall id j, jobs_table b !! id = Some j -> dj_id j = id /\ is_Some (job_groups b !! dj_job_group_id j);
  bw_children : forall c, c ∈ children b -> is_Some (job_groups b !! ch_group c);
  bw_child_keys : NoDup ((fun c => (ch_table c, ch_id c)) <$> children b);
  bw_keys : forall i j ri rj k, job_groups b !! i = Some ri -> job_groups b !! j = Some rj ->
    gr_idempotency_key ri = Some k -> gr_idempotency_key rj = Some k -> i = j
}.

(** A build that is recorded, live or archived. *)
Definition recorded (b : Builds) (gid : Uuid) : Prop :=
  is_Some (job_groups b !! gid) \/ exists t r, (t, r) ∈ job_groups_archive b /\ gr_id r = gid.

(** A job of a build that is recorded with it. *)
Definition job_recorded (b : Builds) (gid : Uuid) (job_id : string) : Prop :=
  (exists j, jobs_table b !! job_id = Some j /\ dj_job_group_id j = gid) \/
  exists t j, (t, j) ∈ jobs_archive b /\ dj_id j = job_id /\ dj_job_group_id j = gid.

Lemma has_key_spec k m : has_key k m = true <-> exists i r, m !! i = Some r /\ gr_idempotency_key r = Some k.
Proof.
  unfold has_key. rewrite existsb_exists. split.
  - intros ([i r] & Hin%list_elem_of_In & Hk%bool_decide_eq_true). apply elem_of_map_to_list in Hin. eauto.
  - intros (i & r & Hi & Hk). exists (i, r). split; [by apply list_elem_of_In, elem_of_map_to_list|by apply bool_decide_eq_true].
Qed.

Lemma insert_group_cases rx row m :
  (exists e, insert_group rx row m = Err e) \/
  insert_group rx row m = Ok (<[gr_id row := row]> m) /\ m !! gr_id row = None /\
  (forall k, gr_idempotency_key row = Some k -> has_key k m = false).
Proof.
  unfold insert_group. destruct (negb _); [eauto|]. case_bool_decide as Hi; [eauto|].
  destruct (gr_idempotency_key row) as [k|] eqn:Ek.
  - destruct (has_key k m) eqn:Hk; [eauto|]. destruct (match gr_repo_id row with Some _ => _ | None => _ end); [eauto|].
    right. split_and!; [done|by apply eq_None_not_Some|]. by intros ? [= <-].
  - destruct (match gr_repo_id row with Some _ => _ | None => _ end); [eauto|].
    right. split_and!; [done|by apply eq_None_not_Some|done].
Qed.

Lemma insert_keeps_keys row m :
  (forall i j ri rj k, m !! i = Some ri -> m !! j = Some rj -> gr_idempotency_key ri = Some k -> gr_idempotency_key rj = Some k -> i = j) ->
  (forall k, gr_idempotency_key row = Some k -> has_key k m = false) ->
  forall i j ri rj k, <[gr_id row := row]> m !! i = Some ri -> <[gr_id row := row]> m !! j = Some rj ->
    gr_idempotency_key ri = Some k -> gr_idempotency_key rj = Some k -> i = j.
Proof.
  intros Hm Hk i j ri rj k Hi Hj Hki Hkj.
  assert (Hno : forall x r, m !! x = Some r -> gr_idempotency_key r = Some k -> gr_idempotency_key row = Some k -> False).
  { intros x r Hx Hr Hrow. specialize (Hk k Hrow). assert (has_key k m = true) by (apply has_key_spec; eauto). congruence. }
  apply lookup_insert_Some in Hi as [[<- <-]|[Hi1 Hi]], Hj as [[<- <-]|[Hj1 Hj]]; [done| | |by eapply Hm].
  - by destruct (Hno j rj).
  - by destruct (Hno i ri).
Qed.

(** Rows that change without their keys. *)
Lemma wf_alter_group f b id :
  (forall r, gr_id (f r) = gr_id r /\ gr_idempotency_key (f r) = gr_idempotency_key r) ->
  builds_wf b -> builds_wf (with_rows (alter f id) b).
Proof.
  intros Hf [H1 H2 H3 H4 H5]. split; simpl; [| | |done|].
  - intros i r [(<- & r0 & Hr & ->)|[_ Hr]]%lookup_alter_Some; [destruct (Hf r0) as [-> _]|]; by apply H1.
  - intros i j Hj. destruct (H2 i j Hj). split; [done|]. by apply lookup_alter_is_Some.
  - intros c Hc. by apply lookup_alter_is_Some, H3.
  - assert (Hb : forall i r k, alter f id (job_groups b) !! i = Some r -> gr_idempotency_key r = Some k ->
      exists r0, job_groups b !! i = Some r0 /\ gr_idempotency_key r0 = Some k).
    { intros i r k [(<- & r0 & Hr & ->)|[_ Hr]]%lookup_alter_Some Hk; [|eauto]. destruct (Hf r0) as [_ E]. exists r0. by rewrite <- E. }
    intros i j ri rj k Hi Hj Hki Hkj. destruct (Hb i ri k Hi Hki) as (? & ? & ?), (Hb j rj k Hj Hkj) as (? & ? & ?). by eapply H5.
Qed.

Lemma wf_fmap_group f b :
  (forall r, gr_id (f r) = gr_id r /\ gr_idempotency_key (f r) = gr_idempotency_key r) ->
  builds_wf b -> builds_wf (with_rows (fmap f) b).
Proof.
  intros Hf [H1 H2 H3 H4 H5]. split; simpl; [| | |done|].
  - intros i r. rewrite lookup_fmap. intros (r0 & Hr & ->)%fmap_Some. destruct (Hf r0) as [-> _]. by apply H1.
  - intros i j Hj. destruct (H2 i j Hj). split; [done|]. by rewrite lookup_fmap, fmap_is_Some.
  - intros c Hc. rewrite lookup_fmap, fmap_is_Some. by apply H3.
  - intros i j ri rj k. rewrite !lookup_fmap. intros (r0 & Hr & ->)%fmap_Some (r1 & Hr1 & ->)%fmap_Some.
    destruct (Hf r0) as [_ ->], (Hf r1) as [_ ->]. by apply H5.
Qed.

(** Jobs that change without their id and group. *)
Lemma wf_map_jobs (f : gmap string DbJob -> gmap string DbJob) b :
  (forall i j, f (jobs_table b) !! i = Some j ->
     exists j0, jobs_table b !! i = Some j0 /\ dj_id j = dj_id j0 /\ dj_job_group_id j = dj_job_group_id j0) ->
  builds_wf b -> builds_wf (with_job_rows f b).
Proof.
  intros Hf [H1 H2 H3 H4 H5]. split; simpl; [done| |done..].
  intros i j Hj. destruct (Hf i j Hj) as (j0 & Hj0 & -> & ->). by apply H2.
Qed.

Section Archive.
Context `{HI : HashIter}.

(** A column that is the key names each row once. *)
Lemma hvalues_keys {K : Type} `{Countable K} {V : Type} (f : V -> K) (m : gmap K V) :
  (forall i v, m !! i = Some v -> f v = i) -> f <$> hvalues m = hkeys m.
Proof.
  intros Hf. unfold hvalues, hkeys. rewrite <- list_fmap_compose. apply list_fmap_ext. intros n [k v] Hn. simpl.
  apply Hf, elem_of_hiter. by eapply list_elem_of_lookup_2.
Qed.

Lemma NoDup_filter_keys {K : Type} `{Countable K} {V : Type} (f : V -> K) (P : V -> Prop) `{forall v, Decision (P v)} (m : gmap K V) :
  (forall i v, m !! i = Some v -> f v = i) -> NoDup (f <$> filter P (hvalues m)).
Proof.
  intros Hf. eapply sublist_NoDup; [|apply fmap_sublist, sublist_filter]. rewrite (hvalues_keys f m Hf). apply NoDup_hkeys.
Qed.

Lemma elem_of_archived (ids : list Uuid) b row : builds_wf b ->
  row ∈ filter (fun row => gr_id row ∈ ids) (hvalues (job_groups b)) <-> gr_id row ∈ ids /\ job_groups b !! gr_id row = Some row.
Proof.
  intros [H1 _ _ _ _]. rewrite list_elem_of_filter, elem_of_hvalues. split; [|naive_solver].
  intros [Hin [k Hk]]. split; [done|]. by rewrite (H1 k row Hk).
Qed.

Lemma archive_live_groups now ids b gid : builds_wf b ->
  job_groups (archive_groups_batch now ids b).2 !! gid = if decide (gid ∈ ids) then None else job_groups b !! gid.
Proof.
  intros [H1 _ _ _ _]. simpl. rewrite map_lookup_filter. destruct (job_groups b !! gid) as [r|] eqn:E; simpl; [|by case_decide].
  rewrite (H1 gid r E). unfold guard. repeat case_decide; try done; by contradict H.
Qed.

Lemma archive_live_jobs now ids b id : 
  jobs_table (archive_groups_batch now ids b).2 !! id =
  match jobs_table b !! id with Some j => if decide (dj_job_group_id j ∈ ids) then None else Some j | None => None end.
Proof.
  simpl. rewrite map_lookup_filter. destruct (jobs_table b !! id) as [j|]; [|done]. simpl. unfold guard.
  repeat case_decide; try done; by contradict H.
Qed.

Lemma archive_wf now ids b : builds_wf b -> builds_wf (archive_groups_batch now ids b).2.
Proof.
  intros Hwf. pose proof Hwf as [H1 H2 H3 H4 H5]. split.
  - intros id r. rewrite archive_live_groups by done. case_decide; [done|]. by apply H1.
  - intros id j. rewrite archive_live_jobs. destruct (jobs_table b !! id) as [j'|] eqn:E; [|done]. case_decide as Hin; [done|].
    intros [= ->]. destruct (H2 id j E). split; [done|]. rewrite archive_live_groups by done. by rewrite decide_False.
  - intros c [Hin Hc]%list_elem_of_filter. rewrite archive_live_groups, decide_False by done. by apply H3.
  - eapply sublist_NoDup; [exact H4|]. apply fmap_sublist, sublist_filter.
  - intros i j ri rj k. rewrite !archive_live_groups by done. repeat case_decide; try done. apply H5.
Qed.

(** What enters the archive. *)
Lemma archived_groups now ids b t row : builds_wf b ->
  (t, row) ∈ job_groups_archive (archive_groups_batch now ids b).2 <->
  (t, row) ∈ job_groups_archive b \/ (t = now /\ gr_id row ∈ ids /\ job_groups b !! gr_id row = Some row).
Proof.
  intros Hwf. simpl. rewrite elem_of_app, list_elem_of_fmap. apply or_iff_compat_l. split.
  - intros (row' & [= -> ->] & Hin). by apply elem_of_archived in Hin.
  - intros (-> & Hin & Hr). exists row. split; [done|]. by apply elem_of_archived.
Qed.

Lemma archived_jobs now ids b t j :
  (t, j) ∈ jobs_archive (archive_groups_batch now ids b).2 <->
  (t, j) ∈ jobs_archive b \/ (t = now /\ dj_job_group_id j ∈ ids /\ exists id, jobs_table b !! id = Some j).
Proof.
  simpl. rewrite elem_of_app, list_elem_of_fmap. apply or_iff_compat_l. split.
  - intros (j' & [= -> ->] & [Hin Hj]%list_elem_of_filter). rewrite elem_of_hvalues in Hj. done.
  - intros (-> & Hin & Hj). exists j. split; [done|]. apply list_elem_of_filter. by rewrite elem_of_hvalues.
Qed.

(** Archiving loses nothing. *)
Lemma archive_recorded now ids b gid : builds_wf b -> recorded b gid -> recorded (archive_groups_batch now ids b).2 gid.
Proof.
  intros Hwf [[r Hr]|(t & r & Hin & Hr)].
  - destruct (decide (gid ∈ ids)) as [Hin|Hin].
    + right. exists now, r. pose proof (bw_groups _ Hwf gid r Hr) as E. split; [|done]. apply archived_groups; [done|].
      right. by rewrite E.
    + left. rewrite archive_live_groups, decide_False by done. eauto.
  - right. exists t, r. split; [|done]. apply archived_groups; [done|]. by left.
Qed.

Lemma archive_job_recorded now ids b gid id : builds_wf b -> job_recorded b gid id -> job_recorded (archive_groups_batch now ids b).2 gid id.
Proof.
  intros Hwf [(j & Hj & Hg)|(t & j & Hin & Hid & Hg)].
  - destruct (decide (gid ∈ ids)) as [Hin|Hin].
    + right. exists now, j. destruct (bw_jobs _ Hwf id j Hj) as [E _]. split_and!; [|done..]. apply archived_jobs. right.
      rewrite Hg. eauto.
    + left. exists j. rewrite archive_live_jobs, Hj, decide_False by (by rewrite Hg). done.
  - right. exists t, j. split_and!; [|done..]. apply archived_jobs. by left.
Qed.

(** ** Putting builds back *)

Lemma put_ok rows m big :
  (forall i r, big !! i = Some r -> gr_id r = i) ->
  (forall i j ri rj k, big !! i = Some ri -> big !! j = Some rj -> gr_idempotency_key ri = Some k -> gr_idempotency_key rj = Some k -> i = j) ->
  m ⊆ big -> (forall r, r ∈ rows -> big !! gr_id r = Some r /\ m !! gr_id r = None) -> NoDup (gr_id <$> rows) ->
  exists m', try_fold put_group rows m = Ok m' /\
    forall i, m' !! i = if decide (i ∈ (gr_id <$> rows)) then big !! i else m !! i.
Proof.
  intros Hids Hkeys. revert m. induction rows as [|r rows IH]; intros m Hm Hr Hnd.
  { exists m. split; [done|]. intros i. by rewrite decide_False by apply not_elem_of_nil. }
  destruct (Hr r) as [Hb Hno]; [by left|]. rewrite fmap_cons in Hnd. apply NoDup_cons in Hnd as [Hni Hnd].
  destruct (IH (<[gr_id r := r]> m)) as (m' & Hm' & Hl).
  - by apply insert_subseteq_l.
  - intros x Hx. destruct (Hr x) as [? Hx0]; [by right|]. split; [done|]. rewrite lookup_insert_ne; [done|].
    intros E. apply Hni. rewrite E. by apply list_elem_of_fmap_2.
  - done.
  - exists m'. split.
    + simpl. unfold put_group at 1. rewrite bool_decide_eq_false_2 by (rewrite Hno; by intros []).
      destruct (gr_idempotency_key r) as [k|] eqn:Ek; simpl; [|done].
      assert (has_key k m = false) as ->; [|done]. apply not_true_iff_false. intros (i & x & Hi & Hk)%has_key_spec.
      pose proof (lookup_weaken _ _ _ _ Hi Hm) as Hi'. assert (i = gr_id r) as -> by (by eapply Hkeys). congruence.
    + intros i. rewrite Hl, fmap_cons. destruct (decide (i = gr_id r)) as [->|Hne].
      * rewrite decide_False by done. rewrite decide_True by by left. by rewrite lookup_insert_eq.
      * rewrite lookup_insert_ne by done. repeat case_decide; try done; set_solver.
Qed.

Lemma put_jobs_ok live rows m big :
  (forall i j, big !! i = Some j -> dj_id j = i /\ is_Some (live !! dj_job_group_id j)) ->
  m ⊆ big -> (forall j, j ∈ rows -> big !! dj_id j = Some j /\ m !! dj_id j = None) -> NoDup (dj_id <$> rows) ->
  exists m', try_fold (put_job live) rows m = Ok m' /\
    forall i, m' !! i = if decide (i ∈ (dj_id <$> rows)) then big !! i else m !! i.
Proof.
  intros Hids. revert m. induction rows as [|r rows IH]; intros m Hm Hr Hnd.
  { exists m. split; [done|]. intros i. by rewrite decide_False by apply not_elem_of_nil. }
  destruct (Hr r) as [Hb Hno]; [by left|]. rewrite fmap_cons in Hnd. apply NoDup_cons in Hnd as [Hni Hnd].
  destruct (IH (<[dj_id r := r]> m)) as (m' & Hm' & Hl).
  - by apply insert_subseteq_l.
  - intros x Hx. destruct (Hr x) as [? Hx0]; [by right|]. split; [done|]. rewrite lookup_insert_ne; [done|].
    intros E. apply Hni. rewrite E. by apply list_elem_of_fmap_2.
  - done.
  - exists m'. split.
    + simpl. unfold put_job at 1. rewrite bool_decide_eq_false_2 by (rewrite Hno; by intros []).
      destruct (Hids _ _ Hb) as [_ [g Hg]]. rewrite Hg. simpl. done.
    + intros i. rewrite Hl, fmap_cons. destruct (decide (i = dj_id r)) as [->|Hne].
      * rewrite decide_False by done. rewrite decide_True by by left. by rewrite lookup_insert_eq.
      * rewrite lookup_insert_ne by done. repeat case_decide; try done; set_solver.
Qed.

Lemma put_children_ok live rows cs :
  (forall c, c ∈ rows -> is_Some (live !! ch_group c)) -> NoDup ((fun c => (ch_table c, ch_id c)) <$> (cs ++ rows)) ->
  try_fold (put_child live) rows cs = Ok (cs ++ rows).
Proof.
  revert cs. induction rows as [|r rows IH]; intros cs Hl Hnd; [simpl; by rewrite app_nil_r|].
  simpl. unfold put_child at 1. destruct (existsb _ cs) eqn:E.
  { apply existsb_exists in E as (c & Hc%list_elem_of_In & Hk). apply andb_true_iff in Hk as [H1%bool_decide_eq_true H2%bool_decide_eq_true].
    rewrite fmap_app in Hnd. apply NoDup_app in Hnd as (_ & Hd & _). exfalso. apply (Hd (ch_table r, ch_id r)); [|by left].
    apply list_elem_of_fmap. exists c. by rewrite H1, H2. }
  destruct (Hl r) as [g Hg]; [by left|]. rewrite Hg. simpl. rewrite (IH (cs ++ [r])); rewrite <- ?app_assoc; [done| |done].
  intros c Hc. apply Hl. by right.
Qed.

Lemma filter_disjoint {A : Type} (f : A -> Uuid) (ids : list Uuid) (l : list A) :
  (forall x, x ∈ l -> f x ∉ ids) -> filter (fun x => f x ∈ ids) l = [] /\ filter (fun x => f x ∉ ids) l = l.
Proof.
  intros H. split.
  - apply elem_of_nil_inv. intros x [H1 H2]%list_elem_of_filter. by apply (H x).
  - induction l as [|x l IH]; [done|]. rewrite filter_cons_True by (apply H; by left). f_equal. apply IH.
    intros y Hy. apply H. by right.
Qed.

(** The rows stamped at the archive's end come back out. *)
Lemma filter_stamped {A : Type} (f : A -> Uuid) (now : timestamp) (ids : list Uuid) (old : list (timestamp * A)) (rows : list A) :
  (forall x, x ∈ old -> f x.2 ∉ ids) -> (forall x, x ∈ rows -> f x ∈ ids) ->
  snd <$> filter (fun x => f x.2 ∈ ids) (old ++ (pair now <$> rows)) = rows /\
  filter (fun x => f x.2 ∉ ids) (old ++ (pair now <$> rows)) = old.
Proof.
  intros Ho Hr. rewrite !filter_app. destruct (filter_disjoint (fun x : timestamp * A => f x.2) ids old Ho) as [-> ->].
  assert (filter (fun x => f x.2 ∈ ids) (pair now <$> rows) = pair now <$> rows /\
          filter (fun x => f x.2 ∉ ids) (pair now <$> rows) = []) as [-> ->].
  { clear Ho. induction rows as [|x rows IH]; [done|]. destruct IH as [E1 E2]; [intros y Hy; apply Hr; by right|].
    assert (f x ∈ ids) by (apply Hr; by left). rewrite fmap_cons. split.
    - rewrite filter_cons_True by done. by rewrite E1.
    - rewrite filter_cons_False by (intros Hn; by apply Hn). done. }
  split; [|by rewrite app_nil_r]. simpl. rewrite <- list_fmap_compose. by rewrite list_fmap_id.
Qed.

(** The groups and the jobs of a batch fit where they were. *)
Lemma restore_group_rows now ids b : builds_wf b ->
  try_fold put_group (filter (fun row => gr_id row ∈ ids) (hvalues (job_groups b))) (job_groups (archive_groups_batch now ids b).2)
    = Ok (job_groups b).
Proof.
  intros Hwf. pose proof Hwf as [H1 H2 H3 H4 H5]. set (gs := filter _ _).
  destruct (put_ok gs (job_groups (archive_groups_batch now ids b).2) (job_groups b)) as (live & -> & Hl); [done|done| | | |].
  - apply map_filter_subseteq.
  - intros r Hr. apply elem_of_archived in Hr as [Hin Hr]; [|done]. split; [done|]. rewrite archive_live_groups by done.
    by rewrite decide_True.
  - by apply NoDup_filter_keys.
  - f_equal. apply map_eq. intros i. rewrite Hl. case_decide as Hi; [done|]. rewrite archive_live_groups by done.
    case_decide as Hids; [|done]. destruct (job_groups b !! i) as [r|] eqn:Er; [|done]. exfalso. apply Hi.
    rewrite <- (H1 i r Er). apply list_elem_of_fmap_2, elem_of_archived; [done|]. by rewrite (H1 i r Er).
Qed.

Lemma restore_job_rows now ids b : builds_wf b ->
  try_fold (put_job (job_groups b)) (filter (fun row => dj_job_group_id row ∈ ids) (hvalues (jobs_table b)))
    (jobs_table (archive_groups_batch now ids b).2) = Ok (jobs_table b).
Proof.
  intros [H1 H2 H3 H4 H5]. set (js := filter _ _).
  destruct (put_jobs_ok (job_groups b) js (jobs_table (archive_groups_batch now ids b).2) (jobs_table b)) as (m & -> & Hl);
    [done| | | |].
  - apply map_filter_subseteq.
  - intros j [Hin [k Hk]%elem_of_hvalues]%list_elem_of_filter. destruct (H2 k j Hk) as [-> _]. split; [done|].
    rewrite archive_live_jobs, Hk. by rewrite decide_True.
  - apply NoDup_filter_keys. intros i v Hv. by apply H2.
  - f_equal. apply map_eq. intros i. rewrite Hl. case_decide as Hi; [done|]. rewrite archive_live_jobs.
    destruct (jobs_table b !! i) as [j|] eqn:Ej; [|done]. case_decide as Hids; [|done]. exfalso. apply Hi.
    destruct (H2 i j Ej) as [<- _]. apply list_elem_of_fmap_2, list_elem_of_filter. split; [done|]. apply elem_of_hvalues. eauto.
Qed.

(** C28. Archiving a batch of builds and putting it back restores every table: when
    the constraints hold and the archive has nothing of these builds yet, the
    second call succeeds with the same number of builds, the live groups and jobs
    are the same row by row, the further rows are the same up to their order, and
    the archive is what it was. *)
Theorem archive_roundtrip (now : timestamp) (ids : list Uuid) (b : Builds) :
  builds_wf b ->
  (forall x, x ∈ job_groups_archive b -> gr_id x.2 ∉ ids) -> (forall x, x ∈ jobs_archive b -> dj_job_group_id x.2 ∉ ids) ->
  (forall x, x ∈ children_archive b -> ch_group x.2 ∉ ids) ->
  let '(n, b1) := archive_groups_batch now ids b in
  let '(r, b2) := unarchive_groups_batch ids b1 in
  r = Ok n /\ job_groups b2 = job_groups b /\ jobs_table b2 = jobs_table b /\ children b2 ≡ₚ children b /\
  job_groups_archive b2 = job_groups_archive b /\ jobs_archive b2 = jobs_archive b /\ children_archive b2 = children_archive b.
Proof.
  intros Hwf Ag Aj Ac. pose proof (restore_group_rows now ids b Hwf) as Rg. pose proof (restore_job_rows now ids b Hwf) as Rj.
  destruct (archive_groups_batch now ids b) as [n b1] eqn:E.
  set (gs := filter (fun row => gr_id row ∈ ids) (hvalues (job_groups b))) in *.
  set (js := filter (fun row => dj_job_group_id row ∈ ids) (hvalues (jobs_table b))) in *.
  set (cs := filter (fun c => ch_group c ∈ ids) (children b)).
  destruct (filter_stamped gr_id now ids _ gs Ag) as [Fg1 Fg2]; [by intros r [? _]%list_elem_of_filter|].
  destruct (filter_stamped dj_job_group_id now ids _ js Aj) as [Fj1 Fj2]; [by intros r [? _]%list_elem_of_filter|].
  destruct (filter_stamped ch_group now ids _ cs Ac) as [Fc1 Fc2]; [by intros r [? _]%list_elem_of_filter|].
  injection E as En <-. simpl in Rg, Rj.
  assert (Hperm : filter (fun c => ch_group c ∉ ids) (children b) ++ cs ≡ₚ children b)
    by (rewrite Permutation_app_comm; apply filter_app_complement).
  unfold unarchive_groups_batch. simpl. fold gs js cs. rewrite Fg1, Fj1, Fc1, Rg. simpl rbind. rewrite Rj. simpl rbind.
  rewrite put_children_ok; [| |rewrite Hperm; apply Hwf].
  - rewrite Fg2, Fj2, Fc2. by rewrite <- En.
  - intros c [_ Hc]%list_elem_of_filter. by apply Hwf.
Qed.
End Archive.

(** ** Nothing recorded is lost *)

Definition keys_unique (m : gmap Uuid GroupRow) : Prop :=
  forall i j ri rj k, m !! i = Some ri -> m !! j = Some rj -> gr_idempotency_key ri = Some k -> gr_idempotency_key rj = Some k -> i = j.

Lemma put_inv rows m m' :
  try_fold put_group rows m = Ok m' -> (forall i r, m !! i = Some r -> gr_id r = i) -> keys_unique m ->
  (forall i r, m' !! i = Some r -> gr_id r = i) /\ keys_unique m' /\ m ⊆ m' /\ forall r, r ∈ rows -> m' !! gr_id r = Some r.
Proof.
  revert m. induction rows as [|r rows IH]; intros m H Hid Hk.
  { injection H as <-. split_and!; [done|done|done|by intros r ?%not_elem_of_nil]. }
  simpl in H. unfold put_group at 1 in H. destruct (bool_decide _ || _) eqn:E; [done|]. simpl in H.
  apply orb_false_iff in E as [E1%bool_decide_eq_false Ek]. apply eq_None_not_Some in E1.
  destruct (IH _ H) as (I1 & I2 & I3 & I4).
  - intros i x [[<- <-]|[_ Hx]]%lookup_insert_Some; [done|by apply Hid].
  - intros i j ri rj k. apply insert_keeps_keys; [done|]. intros k' Hk'. by rewrite Hk' in Ek.
  - split_and!; [done|done| |].
    + etrans; [|exact I3]. by apply insert_subseteq.
    + intros x [->|Hx]%elem_of_cons; [|by apply I4]. eapply lookup_weaken; [|exact I3]. by rewrite lookup_insert_eq.
Qed.

Lemma put_jobs_inv live rows m m' :
  try_fold (put_job live) rows m = Ok m' -> (forall i j, m !! i = Some j -> dj_id j = i /\ is_Some (live !! dj_job_group_id j)) ->
  (forall i j, m' !! i = Some j -> dj_id j = i /\ is_Some (live !! dj_job_group_id j)) /\ m ⊆ m' /\
  forall j, j ∈ rows -> m' !! dj_id j = Some j.
Proof.
  revert m. induction rows as [|r rows IH]; intros m H Hid.
  { injection H as <-. split_and!; [done|done|by intros r ?%not_elem_of_nil]. }
  simpl in H. unfold put_job at 1 in H. case_bool_decide as E1; [done|]. case_bool_decide as E2; [done|]. simpl in H.
  apply eq_None_not_Some in E1. destruct (IH _ H) as (I1 & I3 & I4).
  - intros i x [[<- <-]|[_ Hx]]%lookup_insert_Some; [|by apply Hid]. split; [done|]. by apply not_eq_None_Some.
  - split_and!; [done| |].
    + etrans; [|exact I3]. by apply insert_subseteq.
    + intros x [->|Hx]%elem_of_cons; [|by apply I4]. eapply lookup_weaken; [|exact I3]. by rewrite lookup_insert_eq.
Qed.

Lemma put_children_inv live rows cs cs' :
  try_fold (put_child live) rows cs = Ok cs' -> NoDup ((fun c => (ch_table c, ch_id c)) <$> cs) ->
  (forall c, c ∈ cs -> is_Some (live !! ch_group c)) ->
  NoDup ((fun c => (ch_table c, ch_id c)) <$> cs') /\ forall c, c ∈ cs' -> is_Some (live !! ch_group c).
Proof.
  revert cs. induction rows as [|r rows IH]; intros cs H Hnd Hl; [by injection H as <-|].
  simpl in H. unfold put_child at 1 in H. destruct (existsb _ cs) eqn:E; [done|]. case_bool_decide as E2; [done|]. simpl in H.
  apply (IH _ H).
  - rewrite fmap_app. apply NoDup_app. split_and!; [done| |apply NoDup_singleton].
    intros x (c & -> & Hc)%list_elem_of_fmap [= E3 E4]%list_elem_of_singleton. apply not_true_iff_false in E. apply E, existsb_exists.
    exists c. split; [by apply list_elem_of_In|]. by rewrite !bool_decide_eq_true_2.
  - intros c [Hc| ->%list_elem_of_singleton]%elem_of_app; [by apply Hl|]. by apply not_eq_None_Some.
Qed.

Section Kept.
Context `{HI : HashIter}.

(** The statements of this file, and the arrival of a further row of a build. *)
Inductive builds_step (b : Builds) : Builds -> Prop :=
| st_create_group repos g : builds_step b (create_job_group repos g b).2
| st_group_state now id state reason : builds_step b (update_job_group_state now id state reason b).2
| st_group_reason now id reason : builds_step b (update_job_group_reason now id reason b)
| st_create_job configs job : builds_step b (create_job configs job b).2
| st_job_state now id state e1 e2 e3 w : builds_step b (update_job_state now id state e1 e2 e3 w b).2
| st_job_reason now id reason : builds_step b (update_job_reason now id reason b)
| st_retry now id : builds_step b (retry_job now id b).2
| st_cancel now gid : builds_step b (cancel_jobs_for_group now gid b).2
| st_cleanup now : builds_step b (cleanup_orphaned_jobs now b).2
| st_mark now t ids : builds_step b (mark_files_purged now t ids b).2
| st_child c cs : put_child (job_groups b) (children b) c = Ok cs -> builds_step b {| b with children := cs |}
| st_archive now ids : builds_step b (archive_groups_batch now ids b).2
| st_unarchive ids : builds_step b (unarchive_groups_batch ids b).2.

Lemma alter_job_rows (f : DbJob -> DbJob) (id : string) (m : gmap string DbJob) (i : string) (j : DbJob) :
  (forall r, dj_id (f r) = dj_id r /\ dj_job_group_id (f r) = dj_job_group_id r) -> alter f id m !! i = Some j ->
  exists j0, m !! i = Some j0 /\ dj_id j = dj_id j0 /\ dj_job_group_id j = dj_job_group_id j0.
Proof. intros Hf [(<- & j0 & Hj & ->)|[_ Hj]]%lookup_alter_Some; [|eauto]. destruct (Hf j0). eauto. Qed.

Lemma requeue_keys now r : dj_id (requeue now r) = dj_id r /\ dj_job_group_id (requeue now r) = dj_job_group_id r.
Proof. unfold requeue. by case_bool_decide. Qed.

Lemma cancel_wf now p b : builds_wf b -> builds_wf (cancel_jobs_where now p b).2.
Proof.
  apply wf_map_jobs. intros i j. rewrite lookup_fmap. intros (j0 & Hj & ->)%fmap_Some. exists j0. split; [done|]. by destruct (_ && _).
Qed.

Lemma mark_wf now t ids b : builds_wf b -> builds_wf (mark_files_purged now t ids b).2.
Proof. apply wf_fmap_group. intros r. by destruct (_ && _). Qed.

Lemma create_group_wf repos g b : builds_wf b -> builds_wf (create_job_group repos g b).2.
Proof.
  intros Hwf. unfold create_job_group. destruct (insert_group_cases repos (group_row g) (job_groups b)) as [[e ->]|(-> & Hno & Hk)]; [done|].
  destruct Hwf as [H1 H2 H3 H4 H5]. set (row := group_row g) in *. split; simpl; [| | |done|by apply insert_keeps_keys].
  - intros i r [[<- <-]|[_ Hr]]%lookup_insert_Some; [done|by apply H1].
  - intros i j Hj. destruct (H2 i j Hj). split; [done|]. by apply lookup_insert_is_Some'; right.
  - intros c Hc. apply lookup_insert_is_Some'. right. by apply H3.
Qed.

Lemma create_job_wf configs job b : builds_wf b -> builds_wf (create_job configs job b).2.
Proof.
  intros Hwf. unfold create_job. destruct (negb _); [done|]. destruct (negb _); [done|].
  destruct (jobs_table b !! dj_id job) as [old|] eqn:E.
  - apply wf_map_jobs; [|done]. intros i j [[<- <-]|[_ Hj]]%lookup_insert_Some; eauto.
  - destruct (_ || _) eqn:Hfk; [done|]. apply orb_false_iff in Hfk as [Hg _]. apply negb_false_iff, bool_decide_eq_true in Hg.
    destruct Hwf as [H1 H2 H3 H4 H5]. split; simpl; [done| |done..].
    intros i j [[<- <-]|[_ Hj]]%lookup_insert_Some; [done|by apply H2].
Qed.

Lemma unarchive_wf ids b : builds_wf b -> builds_wf (unarchive_groups_batch ids b).2.
Proof.
  intros Hwf. unfold unarchive_groups_batch. destruct (try_fold put_group _ _) as [live|e] eqn:Eg; [|done]. simpl.
  destruct (try_fold (put_job live) _ _) as [js|e] eqn:Ej; [|done]. simpl.
  destruct (try_fold (put_child live) _ _) as [cs|e] eqn:Ec; [|done]. simpl. destruct Hwf as [H1 H2 H3 H4 H5].
  destruct (put_inv _ _ _ Eg H1 H5) as (I1 & I2 & Isub & _).
  assert (Hlive : forall gid, is_Some (job_groups b !! gid) -> is_Some (live !! gid)) by (intros gid [r Hr]; exists r; by eapply lookup_weaken).
  destruct (put_jobs_inv _ _ _ _ Ej) as (J1 & _); [intros i j Hj; destruct (H2 i j Hj); auto|].
  destruct (put_children_inv _ _ _ _ Ec H4) as [C1 C2]; [auto|]. by split.
Qed.

Lemma builds_step_wf b b' : builds_step b b' -> builds_wf b -> builds_wf b'.
Proof.
  intros Hs Hwf. destruct Hs.
  - by apply create_group_wf.
  - by apply wf_alter_group.
  - by apply wf_alter_group.
  - by apply create_job_wf.
  - apply wf_map_jobs; [|done]. intros i j. by apply alter_job_rows.
  - apply wf_map_jobs; [|done]. intros i j. by apply alter_job_rows.
  - apply wf_map_jobs; [|done]. intros i j. apply alter_job_rows, requeue_keys.
  - by apply cancel_wf.
  - by apply cancel_wf.
  - by apply mark_wf.
  - destruct Hwf as [H1 H2 H3 H4 H5]. destruct (put_children_inv (job_groups b) [c] (children b) cs) as [C1 C2]; [by simpl; rewrite H|done..|].
    by split.
  - by apply archive_wf.
  - by apply unarchive_wf.
Qed.

(** Builds and jobs that stay where they are, with no change to the archive. *)
Definition stays (b b' : Builds) : Prop :=
  (forall gid, is_Some (job_groups b !! gid) -> is_Some (job_groups b' !! gid)) /\
  (forall id j, jobs_table b !! id = Some j -> exists j', jobs_table b' !! id = Some j' /\ dj_job_group_id j' = dj_job_group_id j) /\
  job_groups_archive b' = job_groups_archive b /\ jobs_archive b' = jobs_archive b.

Definition keeps_records (b b' : Builds) : Prop :=
  (forall gid, recorded b gid -> recorded b' gid) /\ (forall gid id, job_recorded b gid id -> job_recorded b' gid id).

Lemma stays_refl b : stays b b.
Proof. split_and!; eauto. Qed.

Lemma stays_keeps b b' : stays b b' -> keeps_records b b'.
Proof.
  intros (Hg & Hj & Ha & Hja). split.
  - intros gid [H|H]; [left; by apply Hg|right; by rewrite Ha].
  - intros gid id [(j & H & <-)|H]; [left; by destruct (Hj id j H) as (j' & ? & ?); eauto|right; by rewrite Hja].
Qed.

Lemma stays_rows b f : (forall gid, is_Some (job_groups b !! gid) -> is_Some (f (job_groups b) !! gid)) -> stays b (with_rows f b).
Proof. intros H. split_and!; simpl; eauto. Qed.

Lemma stays_jobs b f :
  (forall id j, jobs_table b !! id = Some j -> exists j', f (jobs_table b) !! id = Some j' /\ dj_job_group_id j' = dj_job_group_id j) ->
  stays b (with_job_rows f b).
Proof. intros H. split_and!; simpl; eauto. Qed.

Lemma alter_stays (f : DbJob -> DbJob) (id : string) (m : gmap string DbJob) (i : string) (j : DbJob) :
  (forall r, dj_job_group_id (f r) = dj_job_group_id r) -> m !! i = Some j ->
  exists j', alter f id m !! i = Some j' /\ dj_job_group_id j' = dj_job_group_id j.
Proof.
  intros Hf Hj. destruct (decide (id = i)) as [->|Hne].
  - exists (f j). by rewrite lookup_alter_eq, Hj.
  - exists j. by rewrite lookup_alter_ne.
Qed.

Lemma cancel_stays now p b : stays b (cancel_jobs_where now p b).2.
Proof.
  apply stays_jobs. intros id j Hj. rewrite lookup_fmap, Hj. simpl. eexists. split; [done|]. by destruct (_ && _).
Qed.

Lemma unarchive_keeps ids b : builds_wf b -> keeps_records b (unarchive_groups_batch ids b).2.
Proof.
  intros Hwf. unfold unarchive_groups_batch. destruct (try_fold put_group _ _) as [live|e] eqn:Eg; [|by apply stays_keeps, stays_refl]. simpl.
  destruct (try_fold (put_job live) _ _) as [js|e] eqn:Ej; [|by apply stays_keeps, stays_refl]. simpl.
  destruct (try_fold (put_child live) _ _) as [cs|e] eqn:Ec; [|by apply stays_keeps, stays_refl]. simpl. destruct Hwf as [H1 H2 H3 H4 H5].
  destruct (put_inv _ _ _ Eg H1 H5) as (I1 & I2 & Isub & Iin).
  destruct (put_jobs_inv _ _ _ _ Ej) as (J1 & Jsub & Jin).
  { intros i j Hj. destruct (H2 i j Hj) as [? [r Hr]]. split; [done|]. exists r. by eapply lookup_weaken. }
  split.
  - intros gid [[r Hr]|(t & r & Hin & <-)]; [left; exists r; by eapply lookup_weaken|].
    destruct (decide (gr_id r ∈ ids)) as [Hi|Hi].
    + left. exists r. apply Iin. apply list_elem_of_fmap. exists (t, r). split; [done|]. by apply list_elem_of_filter.
    + right. exists t, r. split; [|done]. by apply list_elem_of_filter.
  - intros gid id [(j & Hj & Hg)|(t & j & Hin & <- & <-)]; [left; exists j; split; [by eapply lookup_weaken|done]|].
    destruct (decide (dj_job_group_id j ∈ ids)) as [Hi|Hi].
    + left. exists j. split; [|done]. apply Jin. apply list_elem_of_fmap. exists (t, j). split; [done|]. by apply list_elem_of_filter.
    + right. exists t, j. split_and!; [|done..]. by apply list_elem_of_filter.
Qed.

Lemma create_job_stays configs job b : stays b (create_job configs job b).2.
Proof.
  unfold create_job. destruct (negb _); [apply stays_refl|]. destruct (negb _); [apply stays_refl|].
  destruct (jobs_table b !! dj_id job) as [old|] eqn:E.
  - apply stays_jobs. intros id j Hj. destruct (decide (id = dj_id job)) as [->|Hne].
    + rewrite lookup_insert_eq. eexists. split; [done|]. by rewrite E in Hj; injection Hj as ->.
    + exists j. by rewrite lookup_insert_ne.
  - destruct (_ || _); [apply stays_refl|]. apply stays_jobs. intros id j Hj. exists j. rewrite lookup_insert_ne; [done|]. by intros <-; rewrite E in Hj.
Qed.

Lemma create_group_stays repos g b : stays b (create_job_group repos g b).2.
Proof.
  unfold create_job_group. destruct (insert_group_cases repos (group_row g) (job_groups b)) as [[e ->]|(-> & _)]; [apply stays_refl|].
  apply stays_rows. intros gid H. apply lookup_insert_is_Some'. by right.
Qed.

Lemma builds_step_keeps b b' : builds_step b b' -> builds_wf b -> keeps_records b b'.
Proof.
  intros Hs Hwf. destruct Hs; try (by apply unarchive_keeps).
  1-10: apply stays_keeps.
  - apply create_group_stays.
  - apply stays_rows. intros gid. by rewrite lookup_alter_is_Some.
  - apply stays_rows. intros gid. by rewrite lookup_alter_is_Some.
  - apply create_job_stays.
  - apply stays_jobs. intros i j. by apply alter_stays.
  - apply stays_jobs. intros i j. by apply alter_stays.
  - apply stays_jobs. intros i j. apply alter_stays. intros r. apply requeue_keys.
  - apply cancel_stays.
  - apply cancel_stays.
  - apply stays_rows. intros gid. by rewrite lookup_fmap, fmap_is_Some.
  - apply stays_keeps. split_and!; simpl; eauto.
  - split; intros; [by apply archive_recorded|by apply archive_job_recorded].
Qed.

(** C27. No statement but the deletion of old archive rows ever loses a build: from
    tables that satisfy the constraints, whatever statements run - creating and
    updating groups and jobs, cancelling, purging, archiving, restoring - the
    constraints hold, every recorded build is still in the live table or in
    the archive, and every job is still recorded with its own build. *)
Theorem builds_kept (b b' : Builds) :
  rtc builds_step b b' -> builds_wf b ->
  builds_wf b' /\ (forall gid, recorded b gid -> recorded b' gid) /\
  (forall gid id, job_recorded b gid id -> job_recorded b' gid id).
Proof.
  induction 1 as [b|b b1 b2 Hs _ IH]; intros Hwf; [by split_and!|].
  destruct (builds_step_keeps b b1 Hs Hwf) as [Kg Kj], (IH (builds_step_wf b b1 Hs Hwf)) as (Hw & Ig & Ij).
  split_and!; [done|intros gid H; by apply Ig, Kg|intros gid id H; by apply Ij, Kj].
Qed.

(** ** Idempotency keys *)

Definition has_row_key (k : string) (gid : Uuid) (b : Builds) : Prop :=
  exists r, job_groups b !! gid = Some r /\ gr_idempotency_key r = Some k.

(** A statement that moves no build into or out of the archive. *)
Definition in_place (b b' : Builds) : Prop := builds_step b b' /\ job_groups_archive b' = job_groups_archive b.

Lemma alter_row_key (f : GroupRow -> GroupRow) k gid id b :
  (forall r, gr_idempotency_key (f r) = gr_idempotency_key r) -> has_row_key k gid b -> has_row_key k gid (with_rows (alter f id) b).
Proof.
  intros Hf (r & Hr & Hk). destruct (decide (id = gid)) as [->|Hne].
  - exists (f r). simpl. by rewrite lookup_alter_eq, Hr, Hf.
  - exists r. simpl. by rewrite lookup_alter_ne.
Qed.

Lemma archive_none now ids b gid : builds_wf b -> is_Some (job_groups b !! gid) ->
  job_groups_archive (archive_groups_batch now ids b).2 = job_groups_archive b -> gid ∉ ids.
Proof.
  intros Hwf [r Hr] Ha Hin. simpl in Ha. apply (f_equal length) in Ha. rewrite length_app, length_fmap in Ha.
  assert (Hmem : r ∈ filter (fun row => gr_id row ∈ ids) (hvalues (job_groups b))).
  { apply elem_of_archived; [done|]. by rewrite (bw_groups _ Hwf gid r Hr). }
  destruct (filter _ (hvalues _)); [by apply not_elem_of_nil in Hmem|simpl in Ha; lia].
Qed.

Lemma in_place_keeps_key k gid b b' : in_place b b' -> builds_wf b -> has_row_key k gid b -> has_row_key k gid b'.
Proof.
  intros [Hs Ha] Hwf Hkey. pose proof Hkey as (r & Hr & Hk). destruct Hs; try done.
  - unfold create_job_group. destruct (insert_group_cases repos (group_row g) (job_groups b)) as [[e ->]|(-> & Hno & _)]; [done|].
    exists r. split; [|done]. simpl. rewrite lookup_insert_ne; [done|]. simpl in Hno. intros <-. congruence.
  - by apply alter_row_key.
  - by apply alter_row_key.
  - unfold create_job. repeat case_match; exists r; done.
  - simpl. eexists. split; [simpl; by rewrite lookup_fmap, Hr|]. by destruct (_ && _).
  - exists r. rewrite archive_live_groups by done. rewrite decide_False; [done|]. eapply archive_none; eauto.
  - unfold unarchive_groups_batch. destruct (try_fold put_group _ _) as [live|e] eqn:Eg; [|done]. simpl.
    destruct (try_fold (put_job live) _ _) as [js|e]; [|done]. simpl. destruct (try_fold (put_child live) _ _) as [cs|e]; [|done].
    destruct (put_inv _ _ _ Eg (bw_groups _ Hwf) (bw_keys _ Hwf)) as (_ & _ & Isub & _). exists r. split; [|done]. by eapply lookup_weaken.
Qed.

Lemma key_refused repos g k b gid : has_row_key k gid b -> g_idempotency_key g = Some k ->
  exists e, create_job_group repos g b = (Err e, b).
Proof.
  intros (r & Hr & Hk) Hg. unfold create_job_group.
  destruct (insert_group_cases repos (group_row g) (job_groups b)) as [[e ->]|(_ & _ & Hno)]; [eauto|].
  specialize (Hno k Hg). assert (has_key k (job_groups b) = true) by (apply has_key_spec; eauto). congruence.
Qed.

Lemma ended_key_not_found k gid b r : builds_wf b -> job_groups b !! gid = Some r -> gr_idempotency_key r = Some k ->
  gr_state r ∈ ["success"; "failed"; "cancelled"] -> find_by_idempotency_key k b = None.
Proof.
  intros Hwf Hr Hk Hst. unfold find_by_idempotency_key, group_rows.
  replace (filter _ (hvalues (job_groups b))) with (@nil GroupRow); [done|]. symmetry. apply elem_of_nil_inv.
  intros x [[H1%bool_decide_eq_true H2%negb_true_iff%bool_decide_eq_false]%andb_true_iff [i Hi]%elem_of_hvalues]%list_elem_of_filter.
  apply H2. assert (i = gid) as -> by (eapply (bw_keys _ Hwf); eauto). congruence.
Qed.

(** An idempotency key is spent for as long as its build is in the live table,
    finished or not: after a group was recorded under a key, and whatever happened
    to it short of archiving, recording another group under the key is an error
    that changes nothing; and once the build has ended, the query by which a
    repeated request would find it answers that there is none. *)
Theorem key_outlives_build (repos : Uuid -> bool) (g g' g0 : JobGroup) (k : string) (b b1 b2 : Builds) :
  builds_wf b -> create_job_group repos g b = (Ok g0, b1) -> g_idempotency_key g = Some k ->
  rtc in_place b1 b2 -> g_idempotency_key g' = Some k ->
  (exists e, create_job_group repos g' b2 = (Err e, b2)) /\
  forall r, job_groups b2 !! g_id g = Some r ->
    gr_state r ∈ ["success"; "failed"; "cancelled"] -> find_by_idempotency_key k b2 = None.
Proof.
  intros Hwf Hc Hk Hs Hk'.
  assert (Hwf1 : builds_wf b1) by (pose proof (create_group_wf repos g b Hwf) as H; by rewrite Hc in H).
  assert (H1 : has_row_key k (g_id g) b1).
  { unfold create_job_group in Hc. destruct (insert_group_cases repos (group_row g) (job_groups b)) as [[e He]|(He & _)]; rewrite He in Hc; [done|].
    injection Hc as _ <-. exists (group_row g). split; [|done]. simpl. by rewrite lookup_insert_eq. }
  assert (H2 : builds_wf b2 /\ has_row_key k (g_id g) b2).
  { clear Hc. induction Hs as [b'|b1 b' b2 H _ IH]; [done|]. apply IH; [by eapply builds_step_wf; [apply H|]|by eapply in_place_keeps_key]. }
  destruct H2 as [Hwf2 H2]. split; [by eapply key_refused|].
  destruct H2 as (r & Hr & Hkr). intros r' Hr' Hst. rewrite Hr in Hr'. injection Hr' as <-. by eapply ended_key_not_found.
Qed.

End Kept.

(** ** Examples *)

Definition empty_builds : Builds := {|
  job_groups := ∅; jobs_table := ∅; children := []; job_groups_archive := []; jobs_archive := []; children_archive := [] |}.

Lemma empty_builds_wf : builds_wf empty_builds.
Proof. split; simpl; try done; [by intros c ?%not_elem_of_nil|apply NoDup_nil_2]. Qed.

Definition sample_build (gid : Uuid) (state : JobGroupState) (created : timestamp) : JobGroup :=
  {| (JobGroup_new_with_id created gid (Some 1%N) (Some "main") None "api") with
     g_state := state; g_idempotency_key := Some (if bool_decide (gid = 7%N) then "k" else "l") |}.

Definition sample_row (id : string) (gid : Uuid) (state : string) : DbJob := {|
  dj_id := id; dj_job_group_id := gid; dj_stage_config_id := None; dj_stage_name := "build"; dj_command := "make";
  dj_pre_script := None; dj_post_script := None; dj_worker_id := Some "w"; dj_state := state; dj_exit_code := None;
  dj_pre_exit_code := None; dj_post_exit_code := None; dj_log_path := None; dj_started_at := None; dj_completed_at := None;
  dj_retry_count := 0; dj_status_reason := None; dj_created_at := 0; dj_updated_at := 0 |}.

(** One build with one job. *)
Definition sample_group_table : Builds := (create_job_group (fun _ => true) (sample_build 7%N GRunning 0) empty_builds).2.

Definition sample_tables : Builds := (create_job (fun _ => true) (sample_row "j" 7%N "running") sample_group_table).2.

Lemma sample_builds_wf : builds_wf sample_tables.
Proof. apply create_job_wf, create_group_wf, empty_builds_wf. Qed.

(** The build is archived and comes back. *)
Lemma archive_roundtrip_witness :
  let '(n, b1) := archive_groups_batch (HI := map_iter) 9 [7%N] sample_tables in
  n = 1 /\ job_groups b1 = ∅ /\ job_groups (unarchive_groups_batch [7%N] b1).2 = job_groups sample_tables.
Proof.
  pose proof (archive_roundtrip (HI := map_iter) 9 [7%N] sample_tables sample_builds_wf) as H.
  destruct (archive_groups_batch (HI := map_iter) 9 [7%N] sample_tables) as [n b1] eqn:E.
  destruct (unarchive_groups_batch [7%N] b1) as [r b2]. split_and!.
  - apply (f_equal fst) in E. simpl in E. rewrite <- E. by vm_compute.
  - apply (f_equal snd) in E. simpl in E. rewrite <- E. by vm_compute.
  - destruct H as (_ & Hg & _); [by intros x ?%not_elem_of_nil..|]. exact Hg.
Defined.

(** Archiving moves the job with its build. *)
Lemma builds_kept_witness :
  let b' := (archive_groups_batch (HI := map_iter) 9 [7%N] sample_tables).2 in
  job_groups b' !! 7%N = None /\ recorded b' 7%N /\ job_recorded b' 7%N "j".
Proof.
  destruct (builds_kept (HI := map_iter) empty_builds (archive_groups_batch (HI := map_iter) 9 [7%N] sample_tables).2) as (_ & _ & _).
  - eapply rtc_l; [apply (st_create_group _ (fun _ => true) (sample_build 7%N GRunning 0))|].
    eapply rtc_l; [apply (st_create_job _ (fun _ => true) (sample_row "j" 7%N "running"))|]. apply rtc_once, st_archive.
  - apply empty_builds_wf.
  - destruct (builds_kept (HI := map_iter) sample_tables (archive_groups_batch (HI := map_iter) 9 [7%N] sample_tables).2) as (_ & Hr & Hj).
    + apply rtc_once, st_archive.
    + apply sample_builds_wf.
    + split_and!; [by vm_compute|apply Hr; left|apply Hj; left]; vm_compute; eauto.
Defined.

(** The build of a key ends, and the same request is turned down. *)
Lemma key_outlives_build_witness :
  let b2 := (update_job_group_state 5 7%N GSuccess None sample_tables).2 in
  find_by_idempotency_key (HI := map_iter) "k" sample_tables <> None /\
  find_by_idempotency_key (HI := map_iter) "k" b2 = None /\
  exists e, create_job_group (fun _ => true) {| (sample_build 8%N GRunning 9) with g_idempotency_key := Some "k" |} b2 = (Err e, b2).
Proof.
  destruct (key_outlives_build (HI := map_iter) (fun _ => true) (sample_build 7%N GRunning 0)
              {| (sample_build 8%N GRunning 9) with g_idempotency_key := Some "k" |}
              (map_job_group (group_row (sample_build 7%N GRunning 0))) "k" empty_builds sample_group_table
              (update_job_group_state 5 7%N GSuccess None sample_tables).2) as [Hc Hf].
  - apply empty_builds_wf.
  - by vm_compute.
  - done.
  - eapply rtc_l; [split; [apply (st_create_job _ (fun _ => true) (sample_row "j" 7%N "running"))|by vm_compute]|].
    apply rtc_once. split; [apply st_group_state|done].
  - done.
  - split_and!; [by vm_compute| |exact Hc]. eapply Hf; [by vm_compute|]. simpl. by left.
Defined.

(** T3 deletes what was archived, and nothing else. *)
Lemma delete_archive_batch_spec ids b :
  job_groups (delete_archive_batch ids b).2 = job_groups b /\ jobs_table (delete_archive_batch ids b).2 = jobs_table b /\
  (forall x, x ∈ job_groups_archive (delete_archive_batch ids b).2 <-> x ∈ job_groups_archive b /\ gr_id x.2 ∉ ids) /\
  (forall x, x ∈ jobs_archive (delete_archive_batch ids b).2 <-> x ∈ jobs_archive b /\ dj_job_group_id x.2 ∉ ids).
Proof. split_and!; [done..| |]; intros x; simpl; rewrite list_elem_of_filter; naive_solver. Qed.
