(* ===== verification/Catalog.v ===== *)
(** * The tables of repositories, stages and scripts
    (crates/ci-controller/src/storage.rs: repos, stage_configs, stage_scripts;
    migrations 001, 008, 009, 012, 014, 019, 024, 025, 031)

    Keyed maps of rows, as in [BuildStore]. A statement fails as a whole when a
    value is too long for its column or a constraint would be violated: the
    unique names, the unique script of a stage for a worker (where NULL differs
    from NULL), the CHECKs and the foreign keys. Deleting a repo takes its stages
    with it, and a stage its scripts; builds and jobs, which refer to them without
    a cascade, keep them from being deleted. The order of texts is the database's
    collation, given by a class. *)

From Stdlib Require Import ZArith Lia.
From stdpp Require Import gmap strings list fin_maps sorting.
From S2P Require Import Prelude Text F64 JobModel StageModel Scheduler Web WorkerStore BuildStore.

(** [ORDER BY] on a text column. *)
Class Collation := {
  collate : string -> string -> comparison;
  collate_total : forall a b, collate a b <> Gt \/ collate b a <> Gt;
  collate_trans : forall a b c, collate a b <> Gt -> collate b c <> Gt -> collate a c <> Gt
}.

(** The collation C. *)
Definition byte_collation : Collation.
Proof.
  refine {| collate := str_cmp; collate_trans := str_cmp_trans |}.
  intros a b. rewrite (str_cmp_antisym a b). destruct (str_cmp a b); [left|left|right]; done.
Defined.

(** A row is the record of [StageModel] with the remaining columns. *)
Record RepoRow := {
  rp_repo : Repo;
  rp_default_branch : string;
  rp_enabled : bool;
  rp_created_at : timestamp;
  rp_updated_at : timestamp
}.

Record ScriptRow := {
  sr_id : Uuid;
  sr_stage_config_id : Uuid;
  sr_worker_id : option string;
  sr_script : StageScript;
  sr_created_at : timestamp;
  sr_updated_at : timestamp
}.

Record Catalog := {
  repos_table : gmap Uuid RepoRow;
  stages_table : gmap Uuid StageConfig;
  scripts_table : gmap Uuid ScriptRow
}.

Definition empty_catalog : Catalog := {| repos_table := ∅; stages_table := ∅; scripts_table := ∅ |}.

Definition with_repos (m : gmap Uuid RepoRow) (cat : Catalog) : Catalog := {| cat with repos_table := m |}.
Definition with_stages (m : gmap Uuid StageConfig) (cat : Catalog) : Catalog := {| cat with stages_table := m |}.
Definition with_scripts (m : gmap Uuid ScriptRow) (cat : Catalog) : Catalog := {| cat with scripts_table := m |}.

(** ** repos *)

Definition rp_name (row : RepoRow) : string := repo_name (rp_repo row).

(** A row of another repo with the same name. *)
Definition repo_clash (row old : RepoRow) : bool :=
  bool_decide (rp_name old = rp_name row) && negb (bool_decide (repo_id (rp_repo old) = repo_id (rp_repo row))).

(** The columns' widths and the unique name; the row replaces the one of its id. *)
Definition write_repo (row : RepoRow) (m : gmap Uuid RepoRow) : result (gmap Uuid RepoRow) string :=
  let r := rp_repo row in
  if negb (fits 255 (repo_name r) && fits 100 (rp_default_branch row)
           && fits 10 (global_pre_script_scope r) && fits 10 (global_post_script_scope r)) then Err "value too long"
  else if map_any (repo_clash row) m then Err "duplicate key"
  else Ok (<[repo_id r := row]> m).

(** The row of an INSERT, with the defaults of the columns it does not name. *)
Definition new_repo (id : Uuid) (now : timestamp) (name url default_branch : string)
    (pre pre_scope post post_scope : option string) : RepoRow := {|
  rp_repo := {|
    repo_id := id; repo_name := name; repo_url := url; max_concurrent_builds := 0; cancel_superseded := false;
    global_pre_script := pre; global_pre_script_scope := default "worker"%string pre_scope;
    global_pre_script_lock_enabled := false; global_pre_script_lock_key := None; global_pre_script_lock_timeout_secs := 120;
    global_post_script := post; global_post_script_scope := default "worker"%string post_scope;
    global_post_script_lock_enabled := false; global_post_script_lock_key := None; global_post_script_lock_timeout_secs := 120 |};
  rp_default_branch := default_branch; rp_enabled := true; rp_created_at := now; rp_updated_at := now |}.

Definition create_repo (id : Uuid) (now : timestamp) (name url default_branch : string)
    (pre pre_scope post post_scope : option string) (cat : Catalog) : result RepoRow string * Catalog :=
  let row := new_repo id now name url default_branch pre pre_scope post post_scope in
  if bool_decide (is_Some (repos_table cat !! id)) then (Err "duplicate key", cat)
  else
    match write_repo row (repos_table cat) with
    | Ok m => (Ok row, with_repos m cat)
    | Err e => (Err e, cat)
    end.

(** The arguments of [update_repo], which are the fields of the request:
    [Some None] sets a column to NULL. *)
Record UpdateRepoRequest := {
  ur_repo_name : option string;
  ur_repo_url : option string;
  ur_default_branch : option string;
  ur_enabled : option bool;
  ur_max_concurrent_builds : option Z;
  ur_cancel_superseded : option bool;
  ur_global_pre_script : option (option string);
  ur_global_pre_script_scope : option string;
  ur_global_post_script : option (option string);
  ur_global_post_script_scope : option string;
  ur_global_pre_script_lock_enabled : option bool;
  ur_global_pre_script_lock_key : option (option string);
  ur_global_pre_script_lock_timeout_secs : option Z;
  ur_global_post_script_lock_enabled : option bool;
  ur_global_post_script_lock_key : option (option string);
  ur_global_post_script_lock_timeout_secs : option Z
}.

(** [COALESCE($n, column)], and [CASE WHEN $n THEN $m ELSE column END]. *)
Definition updated_repo (now : timestamp) (u : UpdateRepoRequest) (row : RepoRow) : RepoRow :=
  let r := rp_repo row in {|
  rp_repo := {|
    repo_id := repo_id r;
    repo_name := default (repo_name r) (ur_repo_name u);
    repo_url := default (repo_url r) (ur_repo_url u);
    max_concurrent_builds := default (max_concurrent_builds r) (ur_max_concurrent_builds u);
    cancel_superseded := default (cancel_superseded r) (ur_cancel_superseded u);
    global_pre_script := default (global_pre_script r) (ur_global_pre_script u);
    global_pre_script_scope := default (global_pre_script_scope r) (ur_global_pre_script_scope u);
    global_pre_script_lock_enabled := default (global_pre_script_lock_enabled r) (ur_global_pre_script_lock_enabled u);
    global_pre_script_lock_key := default (global_pre_script_lock_key r) (ur_global_pre_script_lock_key u);
    global_pre_script_lock_timeout_secs := default (global_pre_script_lock_timeout_secs r) (ur_global_pre_script_lock_timeout_secs u);
    global_post_script := default (global_post_script r) (ur_global_post_script u);
    global_post_script_scope := default (global_post_script_scope r) (ur_global_post_script_scope u);
    global_post_script_lock_enabled := default (global_post_script_lock_enabled r) (ur_global_post_script_lock_enabled u);
    global_post_script_lock_key := default (global_post_script_lock_key r) (ur_global_post_script_lock_key u);
    global_post_script_lock_timeout_secs := default (global_post_script_lock_timeout_secs r) (ur_global_post_script_lock_timeout_secs u) |};
  rp_default_branch := default (rp_default_branch row) (ur_default_branch u);
  rp_enabled := default (rp_enabled row) (ur_enabled u);
  rp_created_at := rp_created_at row;
  rp_updated_at := now |}.

Definition update_repo (id : Uuid) (now : timestamp) (u : UpdateRepoRequest) (cat : Catalog) : result (option RepoRow) string * Catalog :=
  match repos_table cat !! id with
  | None => (Ok None, cat)
  | Some row =>
      let row' := updated_repo now u row in
      match write_repo row' (repos_table cat) with
      | Ok m => (Ok (Some row'), with_repos m cat)
      | Err e => (Err e, cat)
      end
  end.

Definition get_repo (id : Uuid) (cat : Catalog) : option RepoRow := repos_table cat !! id.

(** ** stage_configs *)

Definition stage_clash (s old : StageConfig) : bool :=
  bool_decide (sc_repo_id old = sc_repo_id s) && bool_decide (sc_stage_name old = sc_stage_name s)
  && negb (bool_decide (sc_id old = sc_id s)).

Definition write_stage (s : StageConfig) (cat : Catalog) : result Catalog string :=
  if negb (fits 255 (sc_stage_name s) && opt_fits 100 (sc_parallel_group s) && fits 50 (sc_job_type s) && fits 20 (sc_command_mode s))
  then Err "value too long"
  else if map_any (stage_clash s) (stages_table cat) then Err "duplicate key"
  else if negb (bool_decide (is_Some (repos_table cat !! sc_repo_id s))) then Err "foreign key"
  else Ok (with_stages (<[sc_id s := s]> (stages_table cat)) cat).

(** The fields of the request to create a stage. *)
Record CreateStageRequest := {
  cs_stage_name : string;
  cs_command : option string;
  cs_required_cpu : Z;
  cs_required_memory_mb : Z;
  cs_required_disk_mb : Z;
  cs_max_duration_secs : Z;
  cs_execution_order : Z;
  cs_parallel_group : option string;
  cs_allow_worker_migration : bool;
  cs_job_type : string;
  cs_depends_on : list string;
  cs_required_labels : list string;
  cs_command_mode : string
}.

Definition new_stage (id : Uuid) (now : timestamp) (repo : Uuid) (b : CreateStageRequest) : StageConfig := {|
  sc_id := id; sc_repo_id := repo; sc_stage_name := cs_stage_name b; sc_command := cs_command b;
  sc_required_cpu := cs_required_cpu b; sc_required_memory_mb := cs_required_memory_mb b;
  sc_required_disk_mb := cs_required_disk_mb b; sc_max_duration_secs := cs_max_duration_secs b;
  sc_execution_order := cs_execution_order b; sc_parallel_group := cs_parallel_group b;
  sc_allow_worker_migration := cs_allow_worker_migration b; sc_job_type := cs_job_type b;
  sc_depends_on := cs_depends_on b; sc_required_labels := cs_required_labels b; sc_max_retries := 0;
  sc_command_mode := cs_command_mode b; sc_created_at := now; sc_updated_at := now |}.

Definition create_stage_config (id : Uuid) (now : timestamp) (repo : Uuid) (b : CreateStageRequest) (cat : Catalog)
    : result StageConfig string * Catalog :=
  let s := new_stage id now repo b in
  if bool_decide (is_Some (stages_table cat !! id)) then (Err "duplicate key", cat)
  else
    match write_stage s cat with
    | Ok cat' => (Ok s, cat')
    | Err e => (Err e, cat)
    end.

Record UpdateStageRequest := {
  us_stage_name : option string;
  us_command : option string;
  us_required_cpu : option Z;
  us_required_memory_mb : option Z;
  us_required_disk_mb : option Z;
  us_max_duration_secs : option Z;
  us_execution_order : option Z;
  us_parallel_group : option string;
  us_allow_worker_migration : option bool;
  us_job_type : option string;
  us_depends_on : option (list string);
  us_required_labels : option (list string);
  us_command_mode : option string
}.

(** The first of two values that is not NULL. *)
Definition coalesce_opt {A : Type} (x y : option A) : option A := match x with Some _ => x | None => y end.

Definition updated_stage (now : timestamp) (u : UpdateStageRequest) (s : StageConfig) : StageConfig := {|
  sc_id := sc_id s; sc_repo_id := sc_repo_id s;
  sc_stage_name := default (sc_stage_name s) (us_stage_name u);
  sc_command := coalesce_opt (us_command u) (sc_command s);
  sc_required_cpu := default (sc_required_cpu s) (us_required_cpu u);
  sc_required_memory_mb := default (sc_required_memory_mb s) (us_required_memory_mb u);
  sc_required_disk_mb := default (sc_required_disk_mb s) (us_required_disk_mb u);
  sc_max_duration_secs := default (sc_max_duration_secs s) (us_max_duration_secs u);
  sc_execution_order := default (sc_execution_order s) (us_execution_order u);
  sc_parallel_group := coalesce_opt (us_parallel_group u) (sc_parallel_group s);
  sc_allow_worker_migration := default (sc_allow_worker_migration s) (us_allow_worker_migration u);
  sc_job_type := default (sc_job_type s) (us_job_type u);
  sc_depends_on := default (sc_depends_on s) (us_depends_on u);
  sc_required_labels := default (sc_required_labels s) (us_required_labels u);
  sc_max_retries := sc_max_retries s;
  sc_command_mode := default (sc_command_mode s) (us_command_mode u);
  sc_created_at := sc_created_at s; sc_updated_at := now |}.

Definition update_stage_config (id : Uuid) (now : timestamp) (u : UpdateStageRequest) (cat : Catalog)
    : result (option StageConfig) string * Catalog :=
  match stages_table cat !! id with
  | None => (Ok None, cat)
  | Some s =>
      let s' := updated_stage now u s in
      match write_stage s' cat with
      | Ok cat' => (Ok (Some s'), cat')
      | Err e => (Err e, cat)
      end
  end.

Definition get_stage_config (id : Uuid) (cat : Catalog) : option StageConfig := stages_table cat !! id.

(** ** stage_scripts *)

(** NULL differs from NULL: only the scripts of one worker clash. *)
Definition script_clash (row old : ScriptRow) : bool :=
  match sr_worker_id row with
  | Some w =>
      bool_decide (sr_stage_config_id old = sr_stage_config_id row) && bool_decide (sr_worker_id old = Some w)
      && bool_decide (ss_script_type (sr_script old) = ss_script_type (sr_script row))
      && bool_decide (ss_script_scope (sr_script old) = ss_script_scope (sr_script row))
      && negb (bool_decide (sr_id old = sr_id row))
  | None => false
  end.

Definition write_script (row : ScriptRow) (cat : Catalog) : result Catalog string :=
  let s := sr_script row in
  if negb (opt_fits 255 (sr_worker_id row) && fits 10 (ss_script_type s) && fits 10 (ss_script_scope s)) then Err "value too long"
  else if negb (bool_decide (ss_script_type s ∈ ["pre"; "post"]) && bool_decide (ss_script_scope s ∈ ["worker"; "master"]))
  then Err "check constraint"
  else if map_any (script_clash row) (scripts_table cat) then Err "duplicate key"
  else if negb (bool_decide (is_Some (stages_table cat !! sr_stage_config_id row))) then Err "foreign key"
  else Ok (with_scripts (<[sr_id row := row]> (scripts_table cat)) cat).

Definition create_stage_script (id : Uuid) (now : timestamp) (stage : Uuid) (worker_id : option string) (s : StageScript)
    (cat : Catalog) : result ScriptRow string * Catalog :=
  let row := {| sr_id := id; sr_stage_config_id := stage; sr_worker_id := worker_id; sr_script := s;
                sr_created_at := now; sr_updated_at := now |} in
  if bool_decide (is_Some (scripts_table cat !! id)) then (Err "duplicate key", cat)
  else
    match write_script row cat with
    | Ok cat' => (Ok row, cat')
    | Err e => (Err e, cat)
    end.

Record UpdateScriptRequest := {
  up_script_type : option string;
  up_script_scope : option string;
  up_script : option string;
  up_worker_id : option (option string);
  up_lock_enabled : option bool;
  up_lock_key : option (option string);
  up_lock_timeout_secs : option Z
}.

Definition updated_script (now : timestamp) (u : UpdateScriptRequest) (row : ScriptRow) : ScriptRow :=
  let s := sr_script row in {|
  sr_id := sr_id row; sr_stage_config_id := sr_stage_config_id row;
  sr_worker_id := default (sr_worker_id row) (up_worker_id u);
  sr_script := {|
    ss_script_type := default (ss_script_type s) (up_script_type u);
    ss_script_scope := default (ss_script_scope s) (up_script_scope u);
    ss_script := default (ss_script s) (up_script u);
    ss_lock_enabled := default (ss_lock_enabled s) (up_lock_enabled u);
    ss_lock_key := default (ss_lock_key s) (up_lock_key u);
    ss_lock_timeout_secs := default (ss_lock_timeout_secs s) (up_lock_timeout_secs u) |};
  sr_created_at := sr_created_at row; sr_updated_at := now |}.

Definition update_stage_script (id : Uuid) (now : timestamp) (u : UpdateScriptRequest) (cat : Catalog)
    : result (option ScriptRow) string * Catalog :=
  match scripts_table cat !! id with
  | None => (Ok None, cat)
  | Some row =>
      let row' := updated_script now u row in
      match write_script row' cat with
      | Ok cat' => (Ok (Some row'), cat')
      | Err e => (Err e, cat)
      end
  end.

Definition delete_stage_script (id : Uuid) (cat : Catalog) : bool * Catalog :=
  (bool_decide (is_Some (scripts_table cat !! id)), with_scripts (delete id (scripts_table cat)) cat).

Definition get_stage_script (id : Uuid) (cat : Catalog) : option ScriptRow := scripts_table cat !! id.

(** ** Deleting repos and stages *)

(** The rows of scripts whose stage is gone. *)
Definition drop_scripts (cat : Catalog) : Catalog :=
  with_scripts (filter (fun kv => is_Some (stages_table cat !! sr_stage_config_id kv.2)) (scripts_table cat)) cat.

Definition stage_in_use (id : Uuid) (b : Builds) : bool := map_any (fun j => bool_decide (dj_stage_config_id j = Some id)) (jobs_table b).

Definition delete_stage_config (id : Uuid) (b : Builds) (cat : Catalog) : result bool string * Catalog :=
  match stages_table cat !! id with
  | None => (Ok false, cat)
  | Some _ =>
      if stage_in_use id b then (Err "foreign key", cat)
      else (Ok true, drop_scripts (with_stages (delete id (stages_table cat)) cat))
  end.

Definition repo_in_use (id : Uuid) (b : Builds) (cat : Catalog) : bool :=
  map_any (fun g => bool_decide (gr_repo_id g = Some id)) (job_groups b)
  || map_any (fun s => bool_decide (sc_repo_id s = id) && stage_in_use (sc_id s) b) (stages_table cat).

Definition delete_repo (id : Uuid) (b : Builds) (cat : Catalog) : result bool string * Catalog :=
  match repos_table cat !! id with
  | None => (Ok false, cat)
  | Some _ =>
      if repo_in_use id b cat then (Err "foreign key", cat)
      else
        let kept := filter (fun kv => sc_repo_id kv.2 <> id) (stages_table cat) in
        (Ok true, drop_scripts (with_stages kept (with_repos (delete id (repos_table cat)) cat)))
  end.

(** ** Queries *)

Section Queries.
Context `{HI : HashIter} `{CO : Collation}.

Definition get_repo_by_name (name : string) (cat : Catalog) : option RepoRow :=
  head (filter (fun row => rp_name row = name) (hvalues (repos_table cat))).

Definition list_repos (cat : Catalog) : list RepoRow := sort_by (fun a b => collate (rp_name a) (rp_name b)) (hvalues (repos_table cat)).

Definition get_stage_configs_for_repo (repo : Uuid) (cat : Catalog) : list StageConfig :=
  sort_by (fun a b => sc_execution_order a ?= sc_execution_order b)
    (filter (fun s => sc_repo_id s = repo) (hvalues (stages_table cat))).

Definition get_stage_config_by_name (repo : Uuid) (name : string) (cat : Catalog) : option StageConfig :=
  head (filter (fun s => sc_repo_id s = repo /\ sc_stage_name s = name) (hvalues (stages_table cat))).

(** [SELECT DISTINCT .. ORDER BY stage_name] *)
Definition list_stages_for_repo (repo : Uuid) (cat : Catalog) : list string :=
  sort_by collate (remove_dups (sc_stage_name <$> get_stage_configs_for_repo repo cat)).

(** The pairs collected into a map: of two rows with a name the last one stays. *)
Definition get_stage_dependencies (repo : Uuid) (cat : Catalog) : gmap string (list string) :=
  foldl (fun m s => <[sc_stage_name s := sc_depends_on s]> m) ∅ (get_stage_configs_for_repo repo cat).

Definition by_type_scope (a b : ScriptRow) : comparison :=
  then_with (collate (ss_script_type (sr_script a)) (ss_script_type (sr_script b)))
            (collate (ss_script_scope (sr_script a)) (ss_script_scope (sr_script b))).

Definition list_stage_scripts (stage : Uuid) (cat : Catalog) : list ScriptRow :=
  sort_by by_type_scope (filter (fun row => sr_stage_config_id row = stage) (hvalues (scripts_table cat))).

(** [CASE WHEN worker_id IS NOT NULL THEN 0 ELSE 1 END, script_type] *)
Definition own_first (a b : ScriptRow) : comparison :=
  let rank (row : ScriptRow) : Z := match sr_worker_id row with Some _ => 0 | None => 1 end in
  then_with (rank a ?= rank b) (collate (ss_script_type (sr_script a)) (ss_script_type (sr_script b))).

Definition script_key (row : ScriptRow) : string * string := (ss_script_type (sr_script row), ss_script_scope (sr_script row)).

(** The first row of each key. *)
Fixpoint first_of_key (seen : gset (string * string)) (l : list ScriptRow) : list ScriptRow :=
  match l with
  | [] => []
  | row :: l' =>
      if bool_decide (script_key row ∈ seen) then first_of_key seen l'
      else row :: first_of_key ({[script_key row]} ∪ seen) l'
  end.

Definition get_scripts_for_stage (stage : Uuid) (worker_id : option string) (cat : Catalog) : list ScriptRow :=
  let rows := filter (fun row => sr_stage_config_id row = stage) (hvalues (scripts_table cat)) in
  let sorted :=
    match worker_id with
    | Some wid => sort_by own_first (filter (fun row => sr_worker_id row = Some wid \/ sr_worker_id row = None) rows)
    | None => sort_by (fun a b => collate (ss_script_type (sr_script a)) (ss_script_type (sr_script b)))
                (filter (fun row => sr_worker_id row = None) rows)
    end in
  first_of_key ∅ sorted.
End Queries.

(** ** The constraints of the schema *)

Record schema_ok (cat : Catalog) : Prop := {
  so_repo_ids : map_Forall (fun id row => repo_id (rp_repo row) = id) (repos_table cat);
  so_repo_names : forall i j a b, repos_table cat !! i = Some a -> repos_table cat !! j = Some b -> rp_name a = rp_name b -> i = j;
  so_stage_ids : map_Forall (fun id s => sc_id s = id) (stages_table cat);
  so_stage_names : forall i j a b, stages_table cat !! i = Some a -> stages_table cat !! j = Some b ->
    sc_repo_id a = sc_repo_id b -> sc_stage_name a = sc_stage_name b -> i = j;
  so_stage_repos : map_Forall (fun _ s => is_Some (repos_table cat !! sc_repo_id s)) (stages_table cat);
  so_script_ids : map_Forall (fun id row => sr_id row = id) (scripts_table cat);
  so_script_own : forall i j a b w, scripts_table cat !! i = Some a -> scripts_table cat !! j = Some b ->
    sr_worker_id a = Some w -> sr_worker_id b = Some w -> sr_stage_config_id a = sr_stage_config_id b ->
    script_key a = script_key b -> i = j;
  so_script_stages : map_Forall (fun _ row => is_Some (stages_table cat !! sr_stage_config_id row)) (scripts_table cat)
}.

Lemma empty_schema_ok : schema_ok empty_catalog.
Proof. split; intros ? *; simpl; rewrite ?lookup_empty; done. Qed.

(** A table whose rows carry their key, and where no two rows collide: writing a
    row that collides with no other one keeps that. *)
Lemma written_apart {V : Type} (key : V -> Uuid) (collide : V -> V -> Prop) (m : gmap Uuid V) (row : V) :
  (forall a b, collide a b -> collide b a) ->
  map_Forall (fun id v => key v = id) m ->
  (forall i j a b, m !! i = Some a -> m !! j = Some b -> collide a b -> i = j) ->
  (forall k v, m !! k = Some v -> collide v row -> key v = key row) ->
  map_Forall (fun id v => key v = id) (<[key row := row]> m) /\
  (forall i j a b, <[key row := row]> m !! i = Some a -> <[key row := row]> m !! j = Some b -> collide a b -> i = j).
Proof.
  intros Hsym Hk Hapart Hnew. split; [by apply map_Forall_insert_2|].
  intros i j a b Ha Hb Hc. apply lookup_insert_Some in Ha as [[<- <-]|[Hi Ha]]; apply lookup_insert_Some in Hb as [[<- <-]|[Hj Hb]].
  - done.
  - rewrite <- (Hk j b Hb). symmetry. apply (Hnew j b Hb). by apply Hsym.
  - rewrite <- (Hk i a Ha). by apply (Hnew i a).
  - by apply (Hapart i j a b).
Qed.

Lemma write_repo_inv row m m' : write_repo row m = Ok m' ->
  m' = <[repo_id (rp_repo row) := row]> m /\ map_any (repo_clash row) m = false.
Proof. unfold write_repo. destruct (negb _); [done|]. destruct (map_any _ _); [done|]. intros [= <-]. done. Qed.

Lemma write_repo_ok row m cat : schema_ok cat -> write_repo row (repos_table cat) = Ok m -> schema_ok (with_repos m cat).
Proof.
  intros [H1 H2 H3 H4 H5 H6 H7 H8] [-> Hc]%write_repo_inv. rewrite map_any_false in Hc.
  destruct (written_apart (fun v => repo_id (rp_repo v)) (fun a b => rp_name a = rp_name b) (repos_table cat) row) as [Hk Hn];
    [by intros; symmetry|done|done| |].
  { intros k v Hv Hname. specialize (Hc k v Hv). unfold repo_clash in Hc. rewrite (bool_decide_true _ Hname) in Hc. simpl in Hc.
    by apply negb_false_iff, bool_decide_eq_true in Hc. }
  split; try done. intros id s Hs. simpl. destruct (decide (sc_repo_id s = repo_id (rp_repo row))) as [->|Hne].
  - rewrite lookup_insert_eq. eauto.
  - rewrite lookup_insert_ne by done. by apply (H5 id).
Qed.

Lemma write_stage_inv s cat cat' : write_stage s cat = Ok cat' ->
  cat' = with_stages (<[sc_id s := s]> (stages_table cat)) cat /\ map_any (stage_clash s) (stages_table cat) = false /\
  is_Some (repos_table cat !! sc_repo_id s).
Proof.
  unfold write_stage. destruct (negb _); [done|]. destruct (map_any _ _); [done|].
  destruct (bool_decide (is_Some _)) eqn:E; [|done]. apply bool_decide_eq_true in E. by intros [= <-].
Qed.

Lemma write_stage_ok s cat cat' : schema_ok cat -> write_stage s cat = Ok cat' -> schema_ok cat'.
Proof.
  intros [H1 H2 H3 H4 H5 H6 H7 H8] (-> & Hc & Hr)%write_stage_inv. rewrite map_any_false in Hc.
  destruct (written_apart sc_id (fun a b => sc_repo_id a = sc_repo_id b /\ sc_stage_name a = sc_stage_name b) (stages_table cat) s)
    as [Hk Hn]; [naive_solver|done|naive_solver| |].
  { intros k v Hv [Ea Eb]. specialize (Hc k v Hv). unfold stage_clash in Hc.
    rewrite (bool_decide_true _ Ea), (bool_decide_true _ Eb) in Hc. simpl in Hc. by apply negb_false_iff, bool_decide_eq_true in Hc. }
  split; try done.
  - intros i j a b Ha Hb Er En. apply (Hn i j a b Ha Hb). done.
  - apply map_Forall_insert_2; [exact Hr|exact H5].
  - intros id row Hrow. simpl. destruct (decide (sr_stage_config_id row = sc_id s)) as [->|Hne].
    + rewrite lookup_insert_eq. eauto.
    + rewrite lookup_insert_ne by done. by apply (H8 id).
Qed.

Lemma write_script_inv row cat cat' : write_script row cat = Ok cat' ->
  cat' = with_scripts (<[sr_id row := row]> (scripts_table cat)) cat /\ map_any (script_clash row) (scripts_table cat) = false /\
  is_Some (stages_table cat !! sr_stage_config_id row) /\
  ss_script_type (sr_script row) ∈ ["pre"; "post"]%string /\ ss_script_scope (sr_script row) ∈ ["worker"; "master"]%string.
Proof.
  unfold write_script. destruct (negb _); [done|].
  destruct (bool_decide (ss_script_type _ ∈ _)) eqn:E1; [|done]. destruct (bool_decide (ss_script_scope _ ∈ _)) eqn:E2; [|done]. simpl.
  destruct (map_any _ _); [done|]. destruct (bool_decide (is_Some _)) eqn:E; [|done].
  apply bool_decide_eq_true in E, E1, E2. by intros [= <-].
Qed.

Definition scripts_collide (a b : ScriptRow) : Prop :=
  exists w, sr_worker_id a = Some w /\ sr_worker_id b = Some w /\ sr_stage_config_id a = sr_stage_config_id b /\ script_key a = script_key b.

Lemma script_clash_spec row old : scripts_collide old row -> script_clash row old = false -> sr_id old = sr_id row.
Proof.
  intros (w & Ea & Eb & Es & Ek). injection Ek as Et Ec. unfold script_clash. rewrite Eb, Es, Ea, Et, Ec.
  rewrite !(bool_decide_true (_ = _)) by done. simpl. intros H. by apply negb_false_iff, bool_decide_eq_true in H.
Qed.

Lemma write_script_ok row cat cat' : schema_ok cat -> write_script row cat = Ok cat' -> schema_ok cat'.
Proof.
  intros [H1 H2 H3 H4 H5 H6 H7 H8] (-> & Hc & Hs & _)%write_script_inv. rewrite map_any_false in Hc.
  destruct (written_apart sr_id scripts_collide (scripts_table cat) row) as [Hk Hn]; [|done| | |].
  { intros a b (w & ? & ? & ? & ?). by exists w. }
  { intros i j a b Ha Hb (w & Wa & Wb & Es & Ek). by apply (H7 i j a b w). }
  { intros k v Hv Hcol. by apply script_clash_spec; [|apply (Hc k)]. }
  split; try done.
  - intros i j a b w Ha Hb Wa Wb Es Ek. apply (Hn i j a b Ha Hb). by exists w.
  - by apply map_Forall_insert_2.
Qed.

(** Fewer rows keep what is said of each row and of each pair. *)
Lemma fewer_rows_ok cat cat' : schema_ok cat ->
  repos_table cat' ⊆ repos_table cat -> stages_table cat' ⊆ stages_table cat -> scripts_table cat' ⊆ scripts_table cat ->
  map_Forall (fun _ s => is_Some (repos_table cat' !! sc_repo_id s)) (stages_table cat') ->
  map_Forall (fun _ row => is_Some (stages_table cat' !! sr_stage_config_id row)) (scripts_table cat') ->
  schema_ok cat'.
Proof.
  intros [H1 H2 H3 H4 H5 H6 H7 H8] Hr Hs Hc Hfs Hfc. rewrite map_subseteq_spec in Hr; rewrite map_subseteq_spec in Hs; rewrite map_subseteq_spec in Hc.
  split; try done; try (intros ???; eauto); intros ??????; eauto.
Qed.

Lemma drop_scripts_stages cat : map_Forall (fun _ row => is_Some (stages_table (drop_scripts cat) !! sr_stage_config_id row)) (scripts_table (drop_scripts cat)).
Proof. intros id row Hrow. simpl in Hrow. by apply map_lookup_filter_Some in Hrow as [_ ?]. Qed.

Lemma delete_stage_config_ok id b cat r cat' : schema_ok cat -> delete_stage_config id b cat = (r, cat') -> schema_ok cat'.
Proof.
  unfold delete_stage_config. intros Hok H. destruct (stages_table cat !! id); [|by injection H as <- <-].
  destruct (stage_in_use _ _); injection H as <- <-; [done|].
  apply (fewer_rows_ok cat); [done|done| | | |by apply drop_scripts_stages]; simpl.
  - apply delete_subseteq.
  - apply map_filter_subseteq.
  - apply map_Forall_delete, Hok.
Qed.

Lemma delete_repo_ok id b cat r cat' : schema_ok cat -> delete_repo id b cat = (r, cat') -> schema_ok cat'.
Proof.
  unfold delete_repo. intros Hok H. destruct (repos_table cat !! id); [|by injection H as <- <-].
  destruct (repo_in_use _ _ _); injection H as <- <-; [done|].
  apply (fewer_rows_ok cat); [done| | | | |by apply drop_scripts_stages]; simpl.
  - apply delete_subseteq.
  - apply map_filter_subseteq.
  - apply map_filter_subseteq.
  - intros k s [Hs Hne]%map_lookup_filter_Some. simpl in Hne. rewrite lookup_delete_ne by congruence. by apply (so_stage_repos cat Hok k).
Qed.

Lemma delete_stage_script_ok id cat : schema_ok cat -> schema_ok (delete_stage_script id cat).2.
Proof.
  intros Hok. apply (fewer_rows_ok cat); try done; simpl.
  - apply delete_subseteq.
  - apply Hok.
  - apply map_Forall_delete, Hok.
Qed.

(** What a builds row refers to is not deleted. *)
Lemma delete_repo_in_use id b cat r g : delete_repo id b cat = (Ok true, r) -> g ∈ (map_to_list (job_groups b)).*2 -> gr_repo_id g <> Some id.
Proof.
  unfold delete_repo. destruct (repos_table cat !! id); [|done]. destruct (repo_in_use _ _ _) eqn:E; [done|]. intros _ Hg.
  apply orb_false_iff in E as [E _]. rewrite map_any_false in E.
  apply list_elem_of_fmap in Hg as ([k v] & -> & Hk%elem_of_map_to_list). by apply (bool_decide_eq_false_1 _ (E k v Hk)).
Qed.

(** ** Queries *)

Section QueryFacts.
Context `{HI : HashIter} `{CO : Collation}.

Lemma hvalues_filter {V : Type} (m : gmap Uuid V) (P : V -> Prop) `{!forall v, Decision (P v)} v :
  v ∈ filter P (hvalues m) <-> P v /\ exists k, m !! k = Some v.
Proof. by rewrite list_elem_of_filter, elem_of_hvalues. Qed.

Lemma head_elem {A : Type} (l : list A) a : head l = Some a -> a ∈ l.
Proof. destruct l; [done|]. intros [= ->]. left. Qed.

(** A unique name is found exactly when a row has it. *)
Lemma get_repo_by_name_spec cat name row : schema_ok cat ->
  get_repo_by_name name cat = Some row <-> exists id, repos_table cat !! id = Some row /\ rp_name row = name.
Proof.
  intros Hok. unfold get_repo_by_name. split.
  - intros [Hn [k Hk]]%head_elem%hvalues_filter. eauto.
  - intros (id & Hrow & Hn). destruct (filter _ _) as [|row' l] eqn:E.
    + assert (row ∈ []) as Hin by (rewrite <- E; apply hvalues_filter; eauto). by apply not_elem_of_nil in Hin.
    + assert (row' ∈ filter (fun row => rp_name row = name) (hvalues (repos_table cat))) as [Hn' [k Hk]]%hvalues_filter by (rewrite E; left).
      simpl. f_equal. assert (k = id) as -> by (apply (so_repo_names cat Hok k id row' row Hk Hrow); congruence). congruence.
Qed.

Lemma get_stage_config_by_name_spec cat repo name s : schema_ok cat ->
  get_stage_config_by_name repo name cat = Some s <->
  exists id, stages_table cat !! id = Some s /\ sc_repo_id s = repo /\ sc_stage_name s = name.
Proof.
  intros Hok. unfold get_stage_config_by_name. split.
  - intros [[Hr Hn] [k Hk]]%head_elem%hvalues_filter. eauto.
  - intros (id & Hs & Hr & Hn). destruct (filter _ _) as [|s' l] eqn:E.
    + assert (s ∈ []) as Hin by (rewrite <- E; apply hvalues_filter; eauto). by apply not_elem_of_nil in Hin.
    + assert (s' ∈ filter (fun s => sc_repo_id s = repo /\ sc_stage_name s = name) (hvalues (stages_table cat))) as [[Hr' Hn'] [k Hk]]%hvalues_filter
        by (rewrite E; left).
      simpl. f_equal. assert (k = id) as -> by (apply (so_stage_names cat Hok k id s' s Hk Hs); congruence). congruence.
Qed.

Lemma elem_of_configs cat repo s :
  s ∈ get_stage_configs_for_repo repo cat <-> sc_repo_id s = repo /\ exists id, stages_table cat !! id = Some s.
Proof. unfold get_stage_configs_for_repo. by rewrite elem_of_sort_by, hvalues_filter. Qed.

(** The first row of a key is the one kept. *)
Lemma first_of_key_find key l seen : key ∉ seen ->
  head (filter (fun row => script_key row = key) (first_of_key seen l)) = head (filter (fun row => script_key row = key) l).
Proof.
  revert seen. induction l as [|row l IH]; intros seen Hk; simpl; [done|]. rewrite filter_cons.
  destruct (bool_decide_reflect (script_key row ∈ seen)) as [Hs|Hs].
  - rewrite decide_False by (intros <-; done). by apply IH.
  - rewrite filter_cons. destruct (decide (script_key row = key)) as [->|Hne]; [done|]. apply IH. set_solver.
Qed.

Lemma first_of_key_elem row l seen : row ∈ first_of_key seen l -> row ∈ l.
Proof.
  revert seen. induction l as [|x l IH]; intros seen; simpl; [done|].
  destruct (bool_decide _); [intros H; right; eauto|]. rewrite !elem_of_cons. naive_solver.
Qed.

(** In a list sorted by [own_first], the first row of a key is the worker's own if
    one is. *)
Lemma own_first_total l : cmp_total_on own_first l.
Proof.
  unfold cmp_total_on, cmp_le, own_first. split.
  - intros x y _ _. destruct (sr_worker_id x), (sr_worker_id y); simpl; try (left; done); try (right; done); apply collate_total.
  - intros x y z _ _ _. destruct (sr_worker_id x), (sr_worker_id y), (sr_worker_id z); simpl; try done; apply collate_trans.
Qed.

Lemma head_sorted {A : Type} (R : A -> A -> Prop) (P : A -> Prop) `{!forall x, Decision (P x)} l a b :
  StronglySorted R l -> head (filter P l) = Some a -> b ∈ l -> P b -> a = b \/ R a b.
Proof.
  intros Hs. induction Hs as [|x l Hs IH Hall]; [done|]. rewrite filter_cons. intros Ha Hb Hp.
  destruct (decide (P x)) as [Hx|Hx].
  - simpl in Ha. injection Ha as ->. apply elem_of_cons in Hb as [->|Hb]; [by left|]. right. rewrite Forall_forall in Hall. by apply Hall.
  - apply elem_of_cons in Hb as [->|Hb]; [done|]. by apply IH.
Qed.

(** ** The script of a stage for a worker *)

(** A script of the stage for a worker: its own, or one for all. *)
Definition offered (stage : Uuid) (wid : string) (key : string * string) (cat : Catalog) (row : ScriptRow) : Prop :=
  (exists id, scripts_table cat !! id = Some row) /\ sr_stage_config_id row = stage /\ script_key row = key /\
  (sr_worker_id row = Some wid \/ sr_worker_id row = None).

Lemma scripts_for_worker stage wid key cat :
  let found := head (filter (fun row => script_key row = key) (get_scripts_for_stage stage (Some wid) cat)) in
  match found with
  | Some row => offered stage wid key cat row /\
      (sr_worker_id row = None -> forall row', offered stage wid key cat row' -> sr_worker_id row' = None)
  | None => forall row, ~ offered stage wid key cat row
  end.
Proof.
  cbv zeta. unfold get_scripts_for_stage. rewrite first_of_key_find by set_solver.
  set (rows := filter _ (filter _ _)).
  assert (Hin : forall row, row ∈ rows <-> (sr_worker_id row = Some wid \/ sr_worker_id row = None) /\ sr_stage_config_id row = stage /\
                                      exists id, scripts_table cat !! id = Some row)
    by (intros row; unfold rows; by rewrite list_elem_of_filter, hvalues_filter).
  assert (Hsort := sort_by_sorted own_first rows (own_first_total rows)).
  destruct (head _) as [row|] eqn:E.
  - pose proof E as [Hk Hrow]%head_elem%list_elem_of_filter. rewrite elem_of_sort_by in Hrow. apply Hin in Hrow as (Hw & Hs & Hid).
    split; [done|]. intros Hnone row' (Hid' & Hs' & Hk' & Hw').
    destruct (head_sorted _ _ _ _ row' Hsort E) as [->|Hle]; [by apply elem_of_sort_by, Hin|exact Hk'| |].
    { congruence. }
    unfold cmp_le, own_first in Hle. rewrite Hnone in Hle. by destruct (sr_worker_id row').
  - intros row (Hid & Hs & Hk & Hw). destruct (filter (fun row => script_key row = key) (sort_by own_first rows)) eqn:Ef; [|done].
    assert (row ∈ []) as Hbad; [|by apply not_elem_of_nil in Hbad]. rewrite <- Ef. apply list_elem_of_filter. split; [done|].
    apply elem_of_sort_by, Hin. done.
Qed.
End QueryFacts.
