(* ===== verification/Rules.v ===== *)
(** * Command and branch blacklists
    (crates/ci-controller/src/storage.rs: stage_command_blacklist and
    worker_branch_blacklist, migration 018; api/blacklist_handlers.rs)

    A command rule applies to a repo, a stage, both or everything; a branch rule
    to a worker. Patterns are regular expressions: [regex_error] says why one does
    not compile. Bodies are JSON values, indexed by name. *)

From Stdlib Require Import ZArith Lia.
From stdpp Require Import gmap strings list fin_maps relations.
From S2P Require Import Prelude Text F64 JobModel StageModel Json Web Handlers WorkerStore BuildStore Catalog.

Record CommandRule := {
  cb_id : Uuid;
  cb_repo_id : option Uuid;
  cb_stage_config_id : option Uuid;
  cb_pattern : string;
  cb_description : option string;
  cb_enabled : bool;
  cb_created_at : timestamp;
  cb_updated_at : timestamp
}.

Record BranchRule := {
  bb_id : Uuid;
  bb_worker_id : string;
  bb_pattern : string;
  bb_description : option string;
  bb_enabled : bool;
  bb_created_at : timestamp;
  bb_updated_at : timestamp
}.

Record Rules := {
  command_rules : gmap Uuid CommandRule;
  branch_rules : gmap Uuid BranchRule
}.

Definition with_commands (m : gmap Uuid CommandRule) (t : Rules) : Rules := {| t with command_rules := m |}.
Definition with_branches (m : gmap Uuid BranchRule) (t : Rules) : Rules := {| t with branch_rules := m |}.

(** ** Statements *)

(** A reference that is NULL or to a row that exists. *)
Definition refers {V : Type} (o : option Uuid) (m : gmap Uuid V) : bool :=
  match o with Some id => bool_decide (is_Some (m !! id)) | None => true end.

Definition create_command_blacklist (id : Uuid) (now : timestamp) (repo_id stage_config_id : option Uuid) (pattern : string)
    (description : option string) (cat : Catalog) (t : Rules) : result Uuid string * Rules :=
  if bool_decide (is_Some (command_rules t !! id)) then (Err "duplicate key", t)
  else if negb (refers repo_id (repos_table cat) && refers stage_config_id (stages_table cat)) then (Err "foreign key", t)
  else
    let row := {| cb_id := id; cb_repo_id := repo_id; cb_stage_config_id := stage_config_id; cb_pattern := pattern;
                  cb_description := description; cb_enabled := true; cb_created_at := now; cb_updated_at := now |} in
    (Ok id, with_commands (<[id := row]> (command_rules t)) t).

Definition updated_command (now : timestamp) (pattern description : option string) (enabled : option bool) (row : CommandRule) : CommandRule :=
  {| row with cb_pattern := default (cb_pattern row) pattern; cb_description := coalesce_opt description (cb_description row);
              cb_enabled := default (cb_enabled row) enabled; cb_updated_at := now |}.

Definition update_command_blacklist (id : Uuid) (now : timestamp) (pattern description : option string) (enabled : option bool)
    (t : Rules) : bool * Rules :=
  (bool_decide (is_Some (command_rules t !! id)),
   with_commands (alter (updated_command now pattern description enabled) id (command_rules t)) t).

Definition delete_command_blacklist (id : Uuid) (t : Rules) : bool * Rules :=
  (bool_decide (is_Some (command_rules t !! id)), with_commands (delete id (command_rules t)) t).

Definition create_branch_blacklist (id : Uuid) (now : timestamp) (worker_id pattern : string) (description : option string)
    (t : Rules) : result Uuid string * Rules :=
  if bool_decide (is_Some (branch_rules t !! id)) then (Err "duplicate key", t)
  else if negb (fits 255 worker_id) then (Err "value too long", t)
  else
    let row := {| bb_id := id; bb_worker_id := worker_id; bb_pattern := pattern; bb_description := description; bb_enabled := true;
                  bb_created_at := now; bb_updated_at := now |} in
    (Ok id, with_branches (<[id := row]> (branch_rules t)) t).

Definition updated_branch (now : timestamp) (pattern description : option string) (enabled : option bool) (row : BranchRule) : BranchRule :=
  {| row with bb_pattern := default (bb_pattern row) pattern; bb_description := coalesce_opt description (bb_description row);
              bb_enabled := default (bb_enabled row) enabled; bb_updated_at := now |}.

Definition update_branch_blacklist (id : Uuid) (now : timestamp) (pattern description : option string) (enabled : option bool)
    (t : Rules) : bool * Rules :=
  (bool_decide (is_Some (branch_rules t !! id)),
   with_branches (alter (updated_branch now pattern description enabled) id (branch_rules t)) t).

Definition delete_branch_blacklist (id : Uuid) (t : Rules) : bool * Rules :=
  (bool_decide (is_Some (branch_rules t !! id)), with_branches (delete id (branch_rules t)) t).

(** [ON DELETE CASCADE], when a repo or a stage goes. *)
Definition drop_rules (cat : Catalog) (t : Rules) : Rules :=
  with_commands (filter (fun kv => refers (cb_repo_id kv.2) (repos_table cat) && refers (cb_stage_config_id kv.2) (stages_table cat) = true)
    (command_rules t)) t.

Section Rules.
Context `{HI : HashIter}.

(** [repo_id IS NULL OR repo_id = $1]; nothing equals NULL. *)
Definition applies (repo : Uuid) (stage : option Uuid) (row : CommandRule) : bool :=
  cb_enabled row
  && match cb_repo_id row with Some r => bool_decide (r = repo) | None => true end
  && match cb_stage_config_id row, stage with Some s, Some s' => bool_decide (s = s') | Some _, None => false | None, _ => true end.

Definition get_active_command_blacklist (repo : Uuid) (stage : option Uuid) (t : Rules) : list string :=
  cb_pattern <$> filter (fun row => applies repo stage row = true) (hvalues (command_rules t)).

Definition get_active_branch_blacklist (worker_id : string) (t : Rules) : list string :=
  bb_pattern <$> filter (fun row => bb_worker_id row = worker_id /\ bb_enabled row = true) (hvalues (branch_rules t)).

Lemma elem_of_active_commands repo stage t p :
  p ∈ get_active_command_blacklist repo stage t <->
  exists id row, command_rules t !! id = Some row /\ applies repo stage row = true /\ cb_pattern row = p.
Proof.
  unfold get_active_command_blacklist. rewrite list_elem_of_fmap. setoid_rewrite list_elem_of_filter. setoid_rewrite elem_of_hvalues.
  naive_solver.
Qed.

Context (rfc3339 : timestamp -> string) (uuid_to_string : Uuid -> string) (parse_uuid : string -> option Uuid)
  (regex_error : string -> option string).

Definition command_rule_json (row : CommandRule) : Json := Obj [
  ("id", Str (uuid_to_string (cb_id row))); ("repo_id", jopt (fun u => Str (uuid_to_string u)) (cb_repo_id row));
  ("stage_config_id", jopt (fun u => Str (uuid_to_string u)) (cb_stage_config_id row)); ("pattern", Str (cb_pattern row));
  ("description", jopt Str (cb_description row)); ("enabled", Json.Bool (cb_enabled row));
  ("created_at", Str (rfc3339 (cb_created_at row)))].

Definition list_command_blacklist (repo stage : option Uuid) (t : Rules) : list Json :=
  command_rule_json <$> sort_by (fun a b => cb_created_at b ?= cb_created_at a)
    (filter (fun row => (repo = None \/ cb_repo_id row = repo) /\ (stage = None \/ cb_stage_config_id row = stage)) (hvalues (command_rules t))).

Definition branch_rule_json (row : BranchRule) : Json := Obj [
  ("id", Str (uuid_to_string (bb_id row))); ("worker_id", Str (bb_worker_id row)); ("pattern", Str (bb_pattern row));
  ("description", jopt Str (bb_description row)); ("enabled", Json.Bool (bb_enabled row));
  ("created_at", Str (rfc3339 (bb_created_at row)))].

Definition list_branch_blacklist (worker_id : option string) (t : Rules) : list Json :=
  branch_rule_json <$> sort_by (fun a b => bb_created_at b ?= bb_created_at a)
    (filter (fun row => worker_id = None \/ Some (bb_worker_id row) = worker_id) (hvalues (branch_rules t))).

(** ** Handlers *)

Definition text_of (k : string) (body : Json) : option string := jget k body ≫= as_str.

Definition check_regex (p : string) : result unit ApiError :=
  match regex_error p with Some e => Err (BadRequest ("Invalid regex: " +:+ e)%string) | None => Ok tt end.

(** A text that must be there and not be empty. *)
Definition required_text (k : string) (body : Json) : result string ApiError :=
  match text_of k body with
  | None => Err (BadRequest (k +:+ " is required")%string)
  | Some s => if bool_decide (s = EmptyString) then Err (BadRequest (k +:+ " cannot be empty")%string) else Ok s
  end.

Definition discard {A : Type} (r : result A ApiError) : result unit ApiError := match r with Ok _ => Ok tt | Err e => Err e end.

Definition items_json (l : list Json) : Json := Obj [("data", Arr l); ("count", Num (Z.of_nat (length l)))].

Definition list_commands_handler (ok : bool) (repo stage : option Uuid) (st : option Rules) : result Json ApiError :=
  reading ok st (fun t => Ok (items_json (list_command_blacklist repo stage t))).

(** An id that does not parse is taken as none. *)
Definition uuid_of (k : string) (body : Json) : option Uuid := text_of k body ≫= parse_uuid.

Definition checked_pattern (body : Json) : result unit ApiError :=
  let? p := required_text "pattern" body in check_regex p.

Definition id_json (id : Uuid) : result Json ApiError := Ok (Obj [("id", Str (uuid_to_string id))]).

Definition create_command_handler (ok : bool) (id : Uuid) (now : timestamp) (auth : AuthUser) (body : Json) (cat : Catalog)
    (st : option Rules) : Reply Rules :=
  guarded auth (checked_pattern body) st (fun t =>
    answered ok t
      (create_command_blacklist id now (uuid_of "repo_id" body) (uuid_of "stage_config_id" body)
         (default EmptyString (text_of "pattern" body)) (text_of "description" body) cat t) id_json).

Definition entry_missing : string := "Blacklist entry not found".

Definition touched (word : string) (hit : bool) : result Json ApiError :=
  if hit then Ok (Obj [("status", Str word)]) else Err (NotFound entry_missing).

(** A statement that cannot fail on its own. *)
Definition total {A T : Type} (r : A * T) : result A string * T := (Ok r.1, r.2).

Definition update_command_handler (ok : bool) (now : timestamp) (auth : AuthUser) (id : Uuid) (body : Json) (st : option Rules) : Reply Rules :=
  guarded auth (if_some (text_of "pattern" body) check_regex) st (fun t =>
    answered ok t (total (update_command_blacklist id now (text_of "pattern" body) (text_of "description" body)
                            (jget "enabled" body ≫= as_bool) t)) (touched "updated")).

Definition delete_command_handler (ok : bool) (auth : AuthUser) (id : Uuid) (st : option Rules) : Reply Rules :=
  guarded auth (Ok tt) st (fun t => answered ok t (total (delete_command_blacklist id t)) (touched "deleted")).

Definition list_branches_handler (ok : bool) (worker_id : option string) (st : option Rules) : result Json ApiError :=
  reading ok st (fun t => Ok (items_json (list_branch_blacklist worker_id t))).

Definition create_branch_handler (ok : bool) (id : Uuid) (now : timestamp) (auth : AuthUser) (body : Json) (st : option Rules) : Reply Rules :=
  guarded auth (let? _ := required_text "worker_id" body in checked_pattern body) st (fun t =>
    answered ok t
      (create_branch_blacklist id now (default EmptyString (text_of "worker_id" body)) (default EmptyString (text_of "pattern" body))
         (text_of "description" body) t) id_json).

Definition update_branch_handler (ok : bool) (now : timestamp) (auth : AuthUser) (id : Uuid) (body : Json) (st : option Rules) : Reply Rules :=
  guarded auth (if_some (text_of "pattern" body) check_regex) st (fun t =>
    answered ok t (total (update_branch_blacklist id now (text_of "pattern" body) (text_of "description" body)
                            (jget "enabled" body ≫= as_bool) t)) (touched "updated")).

Definition delete_branch_handler (ok : bool) (auth : AuthUser) (id : Uuid) (st : option Rules) : Reply Rules :=
  guarded auth (Ok tt) st (fun t => answered ok t (total (delete_branch_blacklist id t)) (touched "deleted")).

(** ** Every stored pattern compiles *)

Definition rules_wf (t : Rules) : Prop :=
  map_Forall (fun _ row => regex_error (cb_pattern row) = None) (command_rules t) /\
  map_Forall (fun _ row => regex_error (bb_pattern row) = None) (branch_rules t).

Inductive rules_step : Rules -> Rules -> Prop :=
| step_create_command ok id now auth body cat t t' : (create_command_handler ok id now auth body cat (Some t)).2 = Some t' -> rules_step t t'
| step_update_command ok now auth id body t t' : (update_command_handler ok now auth id body (Some t)).2 = Some t' -> rules_step t t'
| step_delete_command ok auth id t t' : (delete_command_handler ok auth id (Some t)).2 = Some t' -> rules_step t t'
| step_create_branch ok id now auth body t t' : (create_branch_handler ok id now auth body (Some t)).2 = Some t' -> rules_step t t'
| step_update_branch ok now auth id body t t' : (update_branch_handler ok now auth id body (Some t)).2 = Some t' -> rules_step t t'
| step_delete_branch ok auth id t t' : (delete_branch_handler ok auth id (Some t)).2 = Some t' -> rules_step t t'
| step_cascade cat t : rules_step t (drop_rules cat t).

Lemma check_regex_ok p : check_regex p = Ok tt -> regex_error p = None.
Proof. unfold check_regex. by destruct (regex_error p). Qed.

Lemma checked_pattern_ok body : checked_pattern body = Ok tt ->
  exists p, text_of "pattern" body = Some p /\ p <> EmptyString /\ regex_error p = None.
Proof.
  unfold checked_pattern, required_text. destruct (text_of "pattern" body) as [p|]; [|discriminate].
  destruct (bool_decide_reflect (p = EmptyString)); [discriminate|]. intros H%check_regex_ok. eauto.
Qed.

Lemma map_Forall_altered {V : Type} (P : V -> Prop) (f : V -> V) id (m : gmap Uuid V) :
  (forall v, P v -> P (f v)) -> map_Forall (fun _ v => P v) m -> map_Forall (fun _ v => P v) (alter f id m).
Proof. intros Hf Hm k v Hk. apply lookup_alter_Some in Hk as [(-> & w & Hw & ->)|[_ Hk]]; [|by apply (Hm k)]. by eapply Hf, Hm. Qed.

Lemma updated_pattern p o : if_some o check_regex = Ok tt -> regex_error p = None -> regex_error (default p o) = None.
Proof. destruct o as [q|]; [|done]. intros H%check_regex_ok. done. Qed.

Lemma rules_step_wf t t' : rules_step t t' -> rules_wf t -> rules_wf t'.
Proof.
  intros Hstep [Hc Hb]. assert (Hsame : rules_wf t) by (by split).
  destruct Hstep as [ok id now auth body cat t t' H|ok now auth id body t t' H|ok auth id t t' H|ok id now auth body t t' H
    |ok now auth id body t t' H|ok auth id t t' H|cat t];
    [apply guarded_statement in H as [->|(Hv & _ & ->)]; [done|]..|].
  - unfold create_command_blacklist. destruct (bool_decide _); [done|]. destruct (negb _); [done|].
    apply checked_pattern_ok in Hv as (p & -> & _ & Hp). split; [|exact Hb]. by apply map_Forall_insert_2.
  - split; [|exact Hb]. apply map_Forall_altered; [|exact Hc]. intros row Hrow. by apply updated_pattern.
  - split; [|exact Hb]. by apply map_Forall_delete.
  - unfold create_branch_blacklist. destruct (bool_decide _); [done|]. destruct (negb _); [done|]. apply check_seq_any in Hv.
    apply checked_pattern_ok in Hv as (p & -> & _ & Hp). split; [exact Hc|]. by apply map_Forall_insert_2.
  - split; [exact Hc|]. apply map_Forall_altered; [|exact Hb]. intros row Hrow. by apply updated_pattern.
  - split; [exact Hc|]. by apply map_Forall_delete.
  - split; [|exact Hb]. intros k row [Hk _]%map_lookup_filter_Some. by apply (Hc k).
Qed.

Lemma rules_reach_wf t : rtc rules_step {| command_rules := ∅; branch_rules := ∅ |} t -> rules_wf t.
Proof.
  intros H. apply (rtc_ind_r rules_wf) in H; [done|by split; apply map_Forall_empty|].
  intros u v _ Huv Hu. by apply (rules_step_wf u).
Qed.

End Rules.
