(* ===== verification/Variables.v ===== *)
(** * Pipeline variables and their encryption
    (crates/ci-controller/src/storage.rs: [encrypt_value], [decrypt_value],
    pipeline_variables, migration 005; api/variable_handlers.rs)

    The value of a secret is stored encrypted when a key is configured. AES-GCM,
    SHA-256 and hexadecimal digits are the class [Crypto], with the laws the code
    relies on: what is sealed can be opened, a sealed text ends with a tag of 16
    bytes, and decoding inverts encoding. The nonce drawn for an encryption is an
    argument. *)

From Stdlib Require Import ZArith Lia.
From stdpp Require Import gmap strings list fin_maps relations.
From S2P Require Import Prelude Text F64 JobModel StageModel Json Web Handlers WorkerStore BuildStore Catalog.

Class Crypto := {
  sha256 : string -> string;
  seal : string -> string -> string -> option string;
  unseal : string -> string -> string -> option string;
  hex_encode : string -> string;
  hex_decode : string -> option string;
  unseal_seal : forall k n p c, seal k n p = Some c -> unseal k n c = Some p;
  seal_tag : forall k n p c, seal k n p = Some c -> (16 <= String.length c)%nat;
  hex_decode_encode : forall s, hex_decode (hex_encode s) = Some s
}.

Record VariableRow := {
  vr_id : Uuid;
  vr_repo_id : Uuid;
  vr_name : string;
  vr_value : string;
  vr_is_secret : bool;
  vr_created_at : timestamp;
  vr_updated_at : timestamp
}.

Abbreviation VariableTable := (gmap Uuid VariableRow) (only parsing).

Section Encryption.
Context `{CR : Crypto}.

(** [hex(nonce || ciphertext)] *)
Definition encrypt_value (nonce key plaintext : string) : result string string :=
  match seal (sha256 key) nonce plaintext with
  | Some ct => Ok (hex_encode (nonce +:+ ct))
  | None => Err "encrypt"
  end.

Definition decrypt_value (key encoded : string) : result string string :=
  match hex_decode encoded with
  | None => Err "hex"
  | Some combined =>
      if negb (12 <? Z.of_nat (String.length combined)) then Err "ciphertext too short"
      else
        match unseal (sha256 key) (str_take 12 combined) (str_drop 12 combined) with
        | None => Err "decrypt"
        | Some plain => if is_utf8 plain then Ok plain else Err "utf8"
        end
  end.

Definition maybe_encrypt (nonce : string) (encryption_key : option string) (value : string) (is_secret : bool) : result string string :=
  match is_secret, encryption_key with true, Some key => encrypt_value nonce key value | _, _ => Ok value end.

(** What does not decrypt is taken as it is. *)
Definition maybe_decrypt (encryption_key : option string) (raw : string) (is_secret : bool) : string :=
  match is_secret, encryption_key with true, Some key => unwrap_or raw (decrypt_value key raw) | _, _ => raw end.

Lemma decrypt_encrypt nonce key value enc : String.length nonce = 12%nat -> is_utf8 value = true ->
  encrypt_value nonce key value = Ok enc -> decrypt_value key enc = Ok value.
Proof.
  unfold encrypt_value, decrypt_value. intros Hn Hv. destruct (seal _ _ _) as [ct|] eqn:E; [|done]. intros [= <-].
  rewrite hex_decode_encode, str_length_app, Hn. pose proof (seal_tag _ _ _ _ E).
  replace (12 <? Z.of_nat (12 + String.length ct)) with true by (symmetry; apply Z.ltb_lt; lia). simpl negb. cbv iota.
  rewrite <- Hn at 1. rewrite str_take_app. rewrite <- Hn, str_drop_app, (unseal_seal _ _ _ _ E), Hv. done.
Qed.

Lemma maybe_roundtrip nonce key value secret stored : String.length nonce = 12%nat -> is_utf8 value = true ->
  maybe_encrypt nonce key value secret = Ok stored -> maybe_decrypt key stored secret = value.
Proof.
  unfold maybe_encrypt, maybe_decrypt. intros Hn Hv. destruct secret, key as [k|]; try (by intros [= ->]).
  intros H. by rewrite (decrypt_encrypt nonce k value stored Hn Hv H).
Qed.

(** ** pipeline_variables *)

Context (key : option string).

(** What is read of a row. *)
Definition read_row (row : VariableRow) : VariableRow :=
  {| row with vr_value := maybe_decrypt key (vr_value row) (vr_is_secret row) |}.

Definition variable_of (row : VariableRow) : PipelineVariable :=
  {| pv_name := vr_name row; pv_value := vr_value row; pv_is_secret := vr_is_secret row |}.

Definition variable_clash (row old : VariableRow) : bool :=
  bool_decide (vr_repo_id old = vr_repo_id row) && bool_decide (vr_name old = vr_name row) && negb (bool_decide (vr_id old = vr_id row)).

Definition write_variable (row : VariableRow) (t : VariableTable) : result VariableTable string :=
  if negb (fits 255 (vr_name row)) then Err "value too long"
  else if map_any (variable_clash row) t then Err "duplicate key"
  else Ok (<[vr_id row := row]> t).

(** The plaintext is returned to the caller. *)
Definition create_variable (id : Uuid) (nonce : string) (now : timestamp) (repo : Uuid) (name value : string) (is_secret : bool)
    (cat : Catalog) (t : VariableTable) : result VariableRow string * VariableTable :=
  match maybe_encrypt nonce key value is_secret with
  | Err e => (Err e, t)
  | Ok stored =>
      let row := {| vr_id := id; vr_repo_id := repo; vr_name := name; vr_value := stored; vr_is_secret := is_secret;
                    vr_created_at := now; vr_updated_at := now |} in
      if bool_decide (is_Some (t !! id)) then (Err "duplicate key", t)
      else
        match write_variable row t with
        | Err e => (Err e, t)
        | Ok t' =>
            if bool_decide (is_Some (repos_table cat !! repo)) then (Ok {| row with vr_value := value |}, t')
            else (Err "foreign key", t)
        end
  end.

Definition updated_variable (now : timestamp) (name stored : option string) (is_secret : option bool) (row : VariableRow) : VariableRow :=
  {| row with vr_name := default (vr_name row) name; vr_value := default (vr_value row) stored;
              vr_is_secret := default (vr_is_secret row) is_secret; vr_updated_at := now |}.

(** Whether a new value is encrypted is decided by the flag of the request, or
    else by a query of its own. *)
Definition will_be_secret (id : Uuid) (is_secret : option bool) (t : VariableTable) : bool :=
  match is_secret with Some b => b | None => match t !! id with Some row => vr_is_secret row | None => false end end.

Definition stored_value (id : Uuid) (nonce : string) (value : option string) (is_secret : option bool) (t : VariableTable)
    : result (option string) string :=
  match value with
  | Some v => let? enc := maybe_encrypt nonce key v (will_be_secret id is_secret t) in Ok (Some enc)
  | None => Ok None
  end.

Definition update_variable (id : Uuid) (nonce : string) (now : timestamp) (name value : option string) (is_secret : option bool)
    (t : VariableTable) : result (option VariableRow) string * VariableTable :=
  match stored_value id nonce value is_secret t with
  | Err e => (Err e, t)
  | Ok stored =>
      match t !! id with
      | None => (Ok None, t)
      | Some row =>
          let row' := updated_variable now name stored is_secret row in
          match write_variable row' t with
          | Ok t' => (Ok (Some (read_row row')), t')
          | Err e => (Err e, t)
          end
      end
  end.

Definition delete_variable (id : Uuid) (t : VariableTable) : bool * VariableTable := (bool_decide (is_Some (t !! id)), delete id t).

(** [ON DELETE CASCADE] *)
Definition drop_variables (cat : Catalog) (t : VariableTable) : VariableTable :=
  filter (fun kv => is_Some (repos_table cat !! vr_repo_id kv.2)) t.

Section Reading.
Context `{HI : HashIter} `{CO : Collation}.

Definition list_variables_for_repo (repo : Uuid) (t : VariableTable) : list VariableRow :=
  read_row <$> sort_by (fun a b => collate (vr_name a) (vr_name b)) (filter (fun row => vr_repo_id row = repo) (hvalues t)).

Definition get_secret_values_for_repo (repo : Uuid) (t : VariableTable) : list string :=
  (fun row => maybe_decrypt key (vr_value row) true) <$> filter (fun row => vr_repo_id row = repo /\ vr_is_secret row = true) (hvalues t).
End Reading.

(** ** Handlers *)

Record CreateVariableRequest := {
  cv_name : string;
  cv_value : string;
  cv_is_secret : bool
}.

Record UpdateVariableRequest := {
  uv_name : option string;
  uv_value : option string;
  uv_is_secret : option bool
}.

Definition check_name (name : string) : result unit ApiError :=
  if bool_decide (name = EmptyString) || (255 <? byte_len name) then Err (BadRequest "name must be 1-255 characters") else Ok tt.

Section Handlers.
Context `{HI : HashIter} `{CO : Collation} (rfc3339 : timestamp -> string) (uuid_to_string : Uuid -> string).

Definition variable_to_json (v : VariableRow) : Json := Obj [
  ("id", Str (uuid_to_string (vr_id v))); ("repo_id", Str (uuid_to_string (vr_repo_id v))); ("name", Str (vr_name v));
  ("value", Str (if vr_is_secret v then "***"%string else vr_value v)); ("is_secret", Json.Bool (vr_is_secret v));
  ("created_at", Str (rfc3339 (vr_created_at v))); ("updated_at", Str (rfc3339 (vr_updated_at v)))].

Definition list_variables_handler (ok : bool) (repo : Uuid) (st : option VariableTable) : result Json ApiError :=
  reading ok st (fun t =>
    let vars := list_variables_for_repo repo t in
    Ok (Obj [("variables", jarr variable_to_json vars); ("count", Num (Z.of_nat (length vars)))])).

Definition create_variable_handler (ok : bool) (id : Uuid) (nonce : string) (now : timestamp) (auth : AuthUser) (repo : Uuid)
    (b : CreateVariableRequest) (cat : Catalog) (st : option VariableTable) : Reply VariableTable :=
  guarded auth (check_name (cv_name b)) st (fun t =>
    answered ok t (create_variable id nonce now repo (cv_name b) (cv_value b) (cv_is_secret b) cat t) (fun v => Ok (variable_to_json v))).

(** The repo in the path is not used. *)
Definition update_variable_handler (ok : bool) (nonce : string) (now : timestamp) (auth : AuthUser) (_repo id : Uuid)
    (u : UpdateVariableRequest) (st : option VariableTable) : Reply VariableTable :=
  guarded auth (if_some (uv_name u) check_name) st (fun t =>
    answered ok t (update_variable id nonce now (uv_name u) (uv_value u) (uv_is_secret u) t)
      (fun o => found "Variable not found" o variable_to_json)).

Definition delete_variable_handler (ok : bool) (auth : AuthUser) (_repo id : Uuid) (st : option VariableTable) : Reply VariableTable :=
  guarded auth (Ok tt) st (fun t => answered ok t (Ok (delete_variable id t).1, (delete_variable id t).2) (deleted "Variable not found")).
End Handlers.
End Encryption.

(** ** What an encrypted table looks like from outside

    The plaintext table is the same code without a key. *)

Inductive variable_op :=
| OpCreate (id : Uuid) (nonce : string) (now : timestamp) (repo : Uuid) (name value : string) (is_secret : bool)
| OpUpdate (id : Uuid) (nonce : string) (now : timestamp) (name value : option string) (is_secret : option bool)
| OpDelete (id : Uuid).

Section Refinement.
Context `{CR : Crypto} (cat : Catalog).

Definition run_op (key : option string) (op : variable_op) (t : VariableTable) : result (option VariableRow) string * VariableTable :=
  match op with
  | OpCreate id nonce now repo name value secret =>
      let '(r, t') := create_variable key id nonce now repo name value secret cat t in
      (match r with Ok row => Ok (Some row) | Err e => Err e end, t')
  | OpUpdate id nonce now name value secret => update_variable key id nonce now name value secret t
  | OpDelete id => (Ok None, (delete_variable id t).2)
  end.

Fixpoint run_ops (key : option string) (ops : list variable_op) (t : VariableTable) : list (result (option VariableRow) string) * VariableTable :=
  match ops with
  | [] => ([], t)
  | op :: ops' =>
      let '(r, t1) := run_op key op t in
      let '(rs, t') := run_ops key ops' t1 in (r :: rs, t')
  end.

(** One variable of a name per repo. *)
Definition variables_apart (t : VariableTable) : Prop :=
  map_Forall (fun id row => vr_id row = id) t /\
  forall i j a b, t !! i = Some a -> t !! j = Some b -> vr_repo_id a = vr_repo_id b /\ vr_name a = vr_name b -> i = j.

Lemma empty_apart : variables_apart ∅.
Proof. split; [apply map_Forall_empty|]. intros i j a b Ha. by rewrite lookup_empty in Ha. Qed.

Lemma write_variable_apart row t t' : variables_apart t -> write_variable row t = Ok t' -> variables_apart t'.
Proof.
  intros [Hids Hapart]. unfold write_variable. destruct (negb _); [done|]. destruct (map_any _ _) eqn:E; [done|]. intros [= <-].
  rewrite map_any_false in E.
  assert (Hrow : forall j b, t !! j = Some b -> vr_repo_id b = vr_repo_id row /\ vr_name b = vr_name row -> vr_id b = vr_id row).
  { intros j b Hb [H1 H2]. specialize (E j b Hb). unfold variable_clash in E.
    rewrite (bool_decide_true _ H1), (bool_decide_true _ H2) in E. simpl in E. by destruct (bool_decide_reflect (vr_id b = vr_id row)). }
  split; [by apply map_Forall_insert_2|]. intros i j a b Ha Hb Hab.
  apply lookup_insert_Some in Ha as [[<- <-]|[Hi Ha]]; apply lookup_insert_Some in Hb as [[<- <-]|[Hj Hb]]; try done.
  - rewrite <- (Hids j b Hb). symmetry. apply (Hrow j b Hb). naive_solver.
  - rewrite <- (Hids i a Ha). by apply (Hrow i a Ha).
  - by apply (Hapart i j a b).
Qed.

Lemma run_op_apart key op t : variables_apart t -> variables_apart (run_op key op t).2.
Proof.
  intros Ht. destruct op as [id nonce now repo name value secret|id nonce now name value secret|id]; simpl.
  - destruct (create_variable _ _ _ _ _ _ _ _ _ _) as [r t'] eqn:E. simpl. revert E. unfold create_variable.
    destruct (maybe_encrypt _ _ _ _); [|by intros [= _ <-]]. case_bool_decide; [by intros [= _ <-]|].
    destruct (write_variable _ _) as [t1|] eqn:Ew; [|by intros [= _ <-]].
    case_bool_decide; intros [= _ <-]; [by eapply write_variable_apart|done].
  - unfold update_variable. destruct (stored_value _ _ _ _ _ _); [|done]. destruct (t !! id); [|done].
    destruct (write_variable _ _) as [t1|] eqn:Ew; [by eapply write_variable_apart|done].
  - destruct Ht as [Hids Hapart]. split; [by apply map_Forall_delete|].
    intros i j a b [_ Ha]%lookup_delete_Some [_ Hb]%lookup_delete_Some. by apply (Hapart i j a b).
Qed.

Lemma run_ops_apart key ops : forall t, variables_apart t -> variables_apart (run_ops key ops t).2.
Proof.
  induction ops as [|op ops IH]; intros t Ht; [done|]. simpl. pose proof (run_op_apart key op t Ht) as H.
  destruct (run_op key op t) as [r t1]. specialize (IH t1 H). by destruct (run_ops key ops t1).
Qed.

Context (k : string).

Definition view (t : VariableTable) : VariableTable := read_row (Some k) <$> t.

(** A value that is written can be encrypted, under a fresh nonce. *)
Definition sealable (nonce value : string) : Prop :=
  String.length nonce = 12%nat /\ is_utf8 value = true /\ is_ok (encrypt_value nonce k value) = true.

(** A row changes its flag only together with its value. *)
Definition tame (op : variable_op) (t : VariableTable) : Prop :=
  match op with
  | OpCreate _ nonce _ _ _ value _ => sealable nonce value
  | OpUpdate id nonce _ _ (Some value) _ => sealable nonce value
  | OpUpdate id _ _ _ None flag => forall row b, t !! id = Some row -> flag = Some b -> b = vr_is_secret row
  | OpDelete _ => True
  end.

Fixpoint tame_run (ops : list variable_op) (t : VariableTable) : Prop :=
  match ops with [] => True | op :: ops' => tame op t /\ tame_run ops' (run_op (Some k) op t).2 end.

(** A secret at rest is an encryption of what is read. *)
Definition sealed (row : VariableRow) : Prop :=
  vr_is_secret row = true -> exists nonce, encrypt_value nonce k (vr_value (read_row (Some k) row)) = Ok (vr_value row).

Definition table_sealed (t : VariableTable) : Prop := map_Forall (fun _ row => sealed row) t.

Lemma encrypts nonce value b : sealable nonce value -> exists stored,
  maybe_encrypt nonce (Some k) value b = Ok stored /\ maybe_decrypt (Some k) stored b = value /\
  (b = true -> encrypt_value nonce k value = Ok stored).
Proof.
  intros (Hn & Hv & He). destruct (maybe_encrypt nonce (Some k) value b) as [stored|e] eqn:E.
  - exists stored. split; [done|]. split; [by eapply maybe_roundtrip|]. intros ->. exact E.
  - destruct b; simpl in E; [|done]. by rewrite E in He.
Qed.

Lemma clash_view row row' t : vr_id row = vr_id row' -> vr_repo_id row = vr_repo_id row' -> vr_name row = vr_name row' ->
  map_any (variable_clash row) t = map_any (variable_clash row') (view t).
Proof.
  intros Hi Hr Hn. apply eq_iff_eq_true. rewrite !map_any_spec. unfold variable_clash. rewrite Hi, Hr, Hn. split.
  - intros (i & v & Hv & H). exists i, (read_row (Some k) v). split; [|done]. unfold view. by rewrite lookup_fmap, Hv.
  - intros (i & v & Hv & H). unfold view in Hv. apply lookup_fmap_Some in Hv as (w & <- & Hw). by exists i, w.
Qed.

(** Writing a row and the row that is read of it. *)
Lemma write_view row row' t : read_row (Some k) row = row' ->
  write_variable row' (view t) = match write_variable row t with Ok t' => Ok (view t') | Err e => Err e end.
Proof.
  intros <-. unfold write_variable. cbn [vr_name vr_id read_row].
  rewrite <- (clash_view row (read_row (Some k) row) t) by done.
  destruct (negb _); [done|]. destruct (map_any _ _); [done|]. f_equal. unfold view. by rewrite fmap_insert.
Qed.

Lemma write_sealed row t t' : write_variable row t = Ok t' -> sealed row -> table_sealed t -> table_sealed t'.
Proof.
  unfold write_variable. destruct (negb _); [done|]. destruct (map_any _ _); [done|]. intros [= <-] Hrow Ht. by apply map_Forall_insert_2.
Qed.

Lemma create_simulated id nonce now repo name value secret t : sealable nonce value -> table_sealed t ->
  let '(r, t') := create_variable (Some k) id nonce now repo name value secret cat t in
  create_variable None id nonce now repo name value secret cat (view t) = (r, view t') /\ table_sealed t'.
Proof.
  intros Hs Ht. destruct (encrypts nonce value secret Hs) as (stored & E & D & C). unfold create_variable. rewrite E. cbn [maybe_encrypt].
  replace (maybe_encrypt nonce None value secret) with (Ok (E := string) value) by (by destruct secret).
  set (row := {| vr_id := id; vr_value := stored |}).
  rewrite (write_view row {| vr_id := id; vr_value := value |}) by (unfold read_row; simpl; by rewrite D).
  replace (bool_decide (is_Some (view t !! id))) with (bool_decide (is_Some (t !! id)))
    by (apply bool_decide_ext; unfold view; by rewrite lookup_fmap, fmap_is_Some).
  destruct (bool_decide _); [done|]. destruct (write_variable row t) as [t1|e] eqn:Ew; [|done].
  destruct (bool_decide _); [|done]. split; [done|]. apply (write_sealed row t); [done| |done].
  intros Hsec. simpl in Hsec. subst secret. exists nonce. simpl in *. rewrite D. by apply C.
Qed.

Lemma update_simulated id nonce now name value flag t : tame (OpUpdate id nonce now name value flag) t -> table_sealed t ->
  let '(r, t') := update_variable (Some k) id nonce now name value flag t in
  update_variable None id nonce now name value flag (view t) = (r, view t') /\ table_sealed t'.
Proof.
  intros Htame Ht. unfold update_variable, view. rewrite lookup_fmap. fold (view t).
  assert (Hplain : stored_value None id nonce value flag (view t) = Ok value)
    by (unfold stored_value, maybe_encrypt; destruct value; [by destruct (will_be_secret _ _ _)|done]).
  rewrite Hplain. unfold stored_value.
  destruct value as [v|].
  - destruct (encrypts nonce v (will_be_secret id flag t) Htame) as (stored & E & D & C). rewrite E. cbn [rbind].
    unfold will_be_secret in *. destruct (t !! id) as [row|] eqn:Hrow; [|done]. cbn [fmap option_fmap option_map].
    set (row' := updated_variable now name (Some stored) flag row).
    assert (Hread : read_row (Some k) row' = updated_variable now name (Some v) flag (read_row (Some k) row)).
    { unfold row', read_row, updated_variable. cbn. f_equal. by destruct flag. }
    rewrite (write_view row' _ t Hread). destruct (write_variable row' t) as [t1|e] eqn:Ew; [|done].
    rewrite <- Hread. split; [|apply (write_sealed row' t); [done| |done]].
    + unfold read_row at 1. f_equal. f_equal. f_equal. unfold read_row, maybe_decrypt. destruct row'. cbn. by destruct vr_is_secret0.
    + intros Hsec. exists nonce. unfold row' in *. cbn in *. destruct flag; cbn in *; rewrite D; by apply C.
  - cbn [rbind]. destruct (t !! id) as [row|] eqn:Hrow; [|done]. cbn [fmap option_fmap option_map].
    set (row' := updated_variable now name None flag row).
    assert (Hflag : default (vr_is_secret row) flag = vr_is_secret row)
      by (destruct flag as [b|]; [by apply (Htame row b)|done]).
    assert (Hread : read_row (Some k) row' = updated_variable now name None flag (read_row (Some k) row))
      by (unfold row', read_row, updated_variable; cbn; by rewrite Hflag).
    rewrite (write_view row' _ t Hread). destruct (write_variable row' t) as [t1|e] eqn:Ew; [|done].
    rewrite <- Hread. split; [|apply (write_sealed row' t); [done| |done]].
    + unfold read_row at 1. f_equal. f_equal. f_equal. unfold read_row, maybe_decrypt. destruct row'. cbn. by destruct vr_is_secret0.
    + unfold sealed, row', read_row, updated_variable. cbn. rewrite Hflag. exact (Ht id row Hrow).
Qed.

Lemma op_simulated op t : tame op t -> table_sealed t ->
  run_op None op (view t) = ((run_op (Some k) op t).1, view (run_op (Some k) op t).2) /\ table_sealed (run_op (Some k) op t).2.
Proof.
  destruct op as [id nonce now repo name value secret|id nonce now name value flag|id]; intros Htame Ht; unfold run_op.
  - pose proof (create_simulated id nonce now repo name value secret t Htame Ht) as H.
    destruct (create_variable (Some k) _ _ _ _ _ _ _ _ _) as [r t']. destruct H as [-> H]. done.
  - pose proof (update_simulated id nonce now name value flag t Htame Ht) as H.
    destruct (update_variable (Some k) _ _ _ _ _ _ _) as [r t']. destruct H as [-> H]. done.
  - split; [|by apply map_Forall_delete]. simpl. unfold view. by rewrite fmap_delete.
Qed.
End Refinement.

(** C35. A table of variables with an encryption key behaves as one without: over
    every sequence of statements in which each value can be encrypted and a
    variable changes its secrecy only together with its value, the replies are
    those of the plaintext table, what is read at the end is that table, and every
    secret is at rest as an encryption of its value. *)
Theorem encryption_is_transparent `{CR : Crypto} (cat : Catalog) (k : string) (ops : list variable_op) (t : VariableTable) :
  table_sealed k t -> tame_run cat k ops t ->
  let '(replies, t') := run_ops cat (Some k) ops t in
  run_ops cat None ops (view k t) = (replies, view k t') /\ table_sealed k t'.
Proof.
  revert t. induction ops as [|op ops IH]; intros t Ht Hrun; [done|]. simpl in Hrun. destruct Hrun as [Hop Hrun]. simpl.
  destruct (op_simulated cat k op t Hop Ht) as [E Hs]. rewrite E. destruct (run_op cat (Some k) op t) as [r t1]. simpl in Hs, Hrun.
  specialize (IH t1 Hs Hrun). simpl. destruct (run_ops cat (Some k) ops t1) as [rs t']. destruct IH as [-> IH]. done.
Qed.

(** The list that a build is given is the plaintext table's. *)
Lemma listed_plain `{CR : Crypto} `{HI : HashIter} `{CO : Collation} (k : string) repo (t : VariableTable) :
  list_variables_for_repo (Some k) repo t ≡ₚ list_variables_for_repo None repo (view k t).
Proof.
  unfold list_variables_for_repo. rewrite !sort_by_perm.
  assert (Hnone : forall l : list VariableRow, read_row None <$> l = l).
  { intros l. rewrite <- (list_fmap_id l) at 2. apply list_fmap_ext. intros _ [? ? ? ? b ? ?] _. unfold read_row. simpl. by destruct b. }
  rewrite Hnone. unfold hvalues. rewrite !hiter_perm. unfold view. rewrite map_to_list_fmap.
  induction (map_to_list t) as [|[i row] l IH]; [done|]. simpl. rewrite !filter_cons. simpl.
  destruct (decide (vr_repo_id row = repo)); simpl; by rewrite IH.
Qed.

(** ** A cipher for examples *)

Definition tag16 : string := "0123456789abcdef".

(** The text after the tag; digits are the bytes themselves. *)
Definition toy_crypto : Crypto.
Proof.
  refine {| sha256 := fun s => s; seal := fun _ _ p => Some (tag16 +:+ p)%string;
            unseal := fun _ _ c => if bool_decide (16 <= String.length c)%nat then Some (str_drop 16 c) else None;
            hex_encode := fun s => s; hex_decode := fun s => Some s |}.
  - intros _ _ p c [= <-]. rewrite bool_decide_true by (rewrite str_length_app; simpl; lia). apply (f_equal Some), (str_drop_app tag16 p).
  - intros _ _ p c [= <-]. rewrite str_length_app. simpl. lia.
  - done.
Defined.

Definition nonce0 : string := "nonce-nonce-".

Definition one_repo : Catalog := {|
  repos_table := {[ 1%N := new_repo 1%N 0 "chola" "https://git/chola" "main" None None None None ]}; stages_table := ∅; scripts_table := ∅ |}.

Definition secret_ops : list variable_op := [
  OpCreate 5%N nonce0 0 1%N "TOKEN" "hunter2" true;
  OpUpdate 5%N nonce0 1 (Some "API_TOKEN"%string) None None;
  OpUpdate 5%N nonce0 2 None (Some "s3cret"%string) None].

Lemma encryption_is_transparent_witness :
  let t' := (run_ops (CR := toy_crypto) one_repo (Some "key"%string) secret_ops ∅).2 in
  vr_value <$> t' !! 5%N = Some (nonce0 +:+ tag16 +:+ "s3cret")%string /\
  vr_value <$> (run_ops (CR := toy_crypto) one_repo None secret_ops ∅).2 !! 5%N = Some "s3cret"%string /\
  vr_value <$> view (CR := toy_crypto) "key" t' !! 5%N = Some "s3cret"%string.
Proof.
  pose proof (encryption_is_transparent (CR := toy_crypto) one_repo "key" secret_ops ∅
    ltac:(apply map_Forall_empty) ltac:(simpl; split_and!; try done; vm_compute; done)) as H.
  cbv zeta. assert (Hv : view (CR := toy_crypto) "key" ∅ = ∅) by (unfold view; apply fmap_empty).
  rewrite Hv in H. destruct (run_ops (CR := toy_crypto) one_repo (Some "key"%string) secret_ops ∅) as [rs t'] eqn:E.
  destruct H as [H _]. rewrite H. simpl.
  assert (Et : t' = (run_ops (CR := toy_crypto) one_repo (Some "key"%string) secret_ops ∅).2) by (by rewrite E).
  rewrite Et. vm_compute. done.
Defined.

(** ** Where it is not *)

(** A variable that stops being secret without a new value shows its encryption,
    to its readers and to the builds. *)
Example unmarking_shows_ciphertext :
  let '(rs, _) := run_ops (CR := toy_crypto) one_repo (Some "key"%string)
    [OpCreate 5%N nonce0 0 1%N "TOKEN" "hunter2" true; OpUpdate 5%N nonce0 1 None None (Some false)] ∅ in
  (fun r => match r with Ok (Some row) => Some (vr_value row) | _ => None end) <$> rs =
  [Some "hunter2"; Some (nonce0 +:+ tag16 +:+ "hunter2")]%string.
Proof. vm_compute. reflexivity. Qed.

(** One that becomes secret without a new value stays in the clear at rest. *)
Example marking_leaves_plaintext :
  let '(_, t) := run_ops (CR := toy_crypto) one_repo (Some "key"%string)
    [OpCreate 5%N nonce0 0 1%N "TOKEN" "hunter2" false; OpUpdate 5%N nonce0 1 None None (Some true)] ∅ in
  (fun row => (vr_is_secret row, vr_value row)) <$> t !! 5%N = Some (true, "hunter2")%string.
Proof. vm_compute. reflexivity. Qed.

(** After the key was changed a build is given the encryption of a secret. *)
Lemma wrong_key_is_silent `{CR : Crypto} key raw e : decrypt_value key raw = Err e -> maybe_decrypt (Some key) raw true = raw.
Proof. unfold maybe_decrypt. by intros ->. Qed.

(** No reply shows the value of a secret. *)
Lemma secrets_masked (rfc3339 : timestamp -> string) (us : Uuid -> string) row : vr_is_secret row = true ->
  jget "value" (variable_to_json rfc3339 us row) = Some (Str "***").
Proof. unfold variable_to_json. by intros ->. Qed.
