(* ===== verification/Listing.v ===== *)
(** * Listings of builds and jobs
    (list_job_groups_paginated and its variant with the archive, list_runs_paginated
    and get_jobs_for_group_paginated of crates/ci-controller/src/storage.rs; list of
    api/job_group_handlers.rs; api/job_handlers.rs; compile_chql_param of
    api/analytics_handlers.rs)

    Each listing is modelled twice: the text and the bound values of its queries,
    in [Sql]'s terms, and the rows that the tables of [BuildStore] give for it. *)

From Stdlib Require Import ZArith Lia Ascii.
From stdpp Require Import gmap strings list fin_maps pretty.
From S2P Require Import Prelude Text F64 QueryLexer QueryParser QueryCompile Sql WorkerModel JobModel StageModel.
From S2P Require Import WorkerRegistry JobRegistry JobGroupRegistry LogAggregator Controller Session Json Web WorkerStore BuildStore.

Record ListFilters := {
  lf_state : option string;
  lf_repo_id : option Uuid;
  lf_branch : option string;
  lf_date_from : option timestamp;
  lf_date_to : option timestamp;
  lf_stage_name : option string;
  lf_exit_code : option Z
}.

(** ** The queries *)

Definition row_clauses (lf : ListFilters) : list Clause :=
  when (lf_state lf) (fun s => clause "state = " (PText s) "") ++
  when (lf_repo_id lf) (fun u => clause "repo_id = " (PUuid u) "") ++
  when (lf_branch lf) (fun b => clause "branch = " (PText b) "") ++
  when (lf_date_from lf) (fun t => clause "created_at >= " (PTime t) "") ++
  when (lf_date_to lf) (fun t => clause "created_at <= " (PTime t) "").

(** The clauses that look at the jobs of a group. *)
Definition job_clauses (jobs group : string) (lf : ListFilters) : list Clause :=
  let exists_job (rest : string) := ("EXISTS (SELECT 1 FROM " +:+ jobs +:+ " j WHERE j.job_group_id = " +:+ group +:+ ".id AND j." +:+ rest)%string in
  when (lf_stage_name lf) (fun s => clause (exists_job "stage_name = ") (PText s) ")") ++
  when (lf_exit_code lf) (fun code =>
    if code =? -1 then plain (exists_job "exit_code IS NOT NULL AND j.exit_code != 0)")
    else clause (exists_job "exit_code = ") (PInt code) ")").

(** The binds, in a pass of their own. *)
Definition filter_binds (lf : ListFilters) : list SqlValue :=
  let bind {A : Type} (o : option A) (f : A -> SqlValue) := match o with Some a => [f a] | None => [] end in
  bind (lf_state lf) PText ++ bind (lf_repo_id lf) PUuid ++ bind (lf_branch lf) PText ++ bind (lf_date_from lf) PTime ++
  bind (lf_date_to lf) PTime ++ bind (lf_stage_name lf) PText ++
  match lf_exit_code lf with Some code => if code =? -1 then [] else [PInt code] | None => [] end.

Definition JOB_GROUP_COLUMNS : string :=
  "id, repo_id, branch, commit_sha, trigger_source, reserved_worker_id, state, priority, pr_number, idempotency_key, allocated_cpu, allocated_memory_mb, allocated_disk_mb, reserved_stages, status_reason, created_at, updated_at, completed_at".

Definition order_and_page (idx : nat) : string :=
  (" ORDER BY priority DESC, created_at DESC LIMIT " +:+ param (idx + 1) +:+ " OFFSET " +:+ param (idx + 2))%string.

(** [list_job_groups_paginated]: the count and the data query. *)
Definition list_queries (limit offset : Z) (lf : ListFilters) (chql : option SqlFragment) : BoundQuery * BoundQuery :=
  let '(ts, idx) := numbered 0 (row_clauses lf ++ job_clauses "jobs" "job_groups" lf) in
  let '(where_, idx) := splice (where_clause ts) idx chql in
  let bs := filter_binds lf ++ chql_binds chql in
  ({| q_text := ("SELECT COUNT(*) FROM job_groups " +:+ where_)%string; q_binds := bs |},
   {| q_text := ("SELECT " +:+ JOB_GROUP_COLUMNS +:+ " FROM job_groups " +:+ where_ +:+ order_and_page idx)%string;
      q_binds := bs ++ [PInt limit; PInt offset] |}).

Definition ARCHIVE_COLUMNS : string :=
  "id, repo_id, branch, commit_sha, trigger_source, reserved_worker_id, state, priority, pr_number, idempotency_key, allocated_cpu, allocated_memory_mb, allocated_disk_mb, status_reason, created_at, updated_at, completed_at, ".

(** [list_job_groups_paginated_with_archive]: both legs of the union use the same
    parameters. *)
Definition archive_queries (s : string) (limit offset : Z) (lf : ListFilters) : BoundQuery * BoundQuery :=
  let '(live, idx) := numbered 0 (row_clauses lf ++ job_clauses (s +:+ ".jobs")%string "jg" lf) in
  let '(arch, _) := numbered 0 (row_clauses lf ++ job_clauses (s +:+ ".jobs_archive")%string "jg" lf) in
  let live_from := (s +:+ ".job_groups jg " +:+ where_clause live)%string in
  let arch_from := (s +:+ ".job_groups_archive jg " +:+ where_clause arch)%string in
  ({| q_text := ("SELECT (SELECT COUNT(*) FROM " +:+ live_from +:+ ") + (SELECT COUNT(*) FROM " +:+ arch_from +:+ ") AS total")%string;
      q_binds := filter_binds lf |},
   {| q_text := ("SELECT * FROM ( SELECT " +:+ ARCHIVE_COLUMNS +:+ "false AS archived FROM " +:+ live_from
                 +:+ " UNION ALL SELECT " +:+ ARCHIVE_COLUMNS +:+ "true AS archived FROM " +:+ arch_from
                 +:+ " ) u" +:+ order_and_page idx)%string;
      q_binds := filter_binds lf ++ [PInt limit; PInt offset] |}).

(** [list_runs_paginated] *)
Definition run_clauses (state worker : option string) : list Clause :=
  when state (fun s => clause "j.state = " (PText s) "") ++ when worker (fun w => clause "j.worker_id = " (PText w) "").

Definition run_binds (state worker : option string) : list SqlValue :=
  match state with Some s => [PText s] | None => [] end ++ match worker with Some w => [PText w] | None => [] end.

Definition run_queries (limit offset : Z) (state worker : option string) : BoundQuery * BoundQuery :=
  let '(ts, idx) := numbered 0 (run_clauses state worker) in
  let where_ := where_clause ts in
  ({| q_text := ("SELECT COUNT(*) FROM jobs j " +:+ where_)%string; q_binds := run_binds state worker |},
   {| q_text := ("SELECT j.id, j.job_group_id, j.stage_name, j.command, j.worker_id, j.state, j.exit_code, j.started_at, j.completed_at, j.created_at, jg.branch, jg.state AS group_state, jg.trigger_source, r.repo_name FROM jobs j JOIN job_groups jg ON j.job_group_id = jg.id LEFT JOIN repos r ON jg.repo_id = r.id "
                 +:+ where_ +:+ " ORDER BY j.created_at DESC LIMIT " +:+ param (idx + 1) +:+ " OFFSET " +:+ param (idx + 2))%string;
      q_binds := run_binds state worker ++ [PInt limit; PInt offset] |}).

(** ** The rows *)

(** A group and its jobs pass the filters. *)
Definition job_passes (lf : ListFilters) (js : list DbJob) : bool :=
  match lf_stage_name lf with Some s => existsb (fun j => bool_decide (dj_stage_name j = s)) js | None => true end &&
  match lf_exit_code lf with
  | Some code =>
      if code =? -1 then existsb (fun j => match dj_exit_code j with Some z => negb (z =? 0) | None => false end) js
      else existsb (fun j => bool_decide (dj_exit_code j = Some code)) js
  | None => true
  end.

Definition row_passes (lf : ListFilters) (r : GroupRow) : bool :=
  match lf_state lf with Some s => bool_decide (gr_state r = s) | None => true end &&
  match lf_repo_id lf with Some u => bool_decide (gr_repo_id r = Some u) | None => true end &&
  match lf_branch lf with Some b => bool_decide (gr_branch r = Some b) | None => true end &&
  match lf_date_from lf with Some t => t <=? gr_created_at r | None => true end &&
  match lf_date_to lf with Some t => gr_created_at r <=? t | None => true end.

Definition jobs_of (gid : Uuid) (js : list DbJob) : list DbJob := filter (fun j => dj_job_group_id j = gid) js.

Definition passes (lf : ListFilters) (js : list DbJob) (r : GroupRow) : bool :=
  row_passes lf r && job_passes lf (jobs_of (gr_id r) js).

(** The page of a query; PostgreSQL refuses a limit or an offset that is
    negative. *)
Definition paged {A : Type} (limit offset : Z) (l : list A) : result (list A) string :=
  if (limit <? 0) || (offset <? 0) then Err "LIMIT or OFFSET must not be negative"
  else Ok (take (Z.to_nat (Z.min limit (Z.of_nat (length l)))) (drop (Z.to_nat (Z.min offset (Z.of_nat (length l)))) l)).

Definition latest_first (x y : GroupRow) : comparison :=
  match gr_priority y ?= gr_priority x with Datatypes.Eq => gr_created_at y ?= gr_created_at x | c => c end.

Definition total_of {A : Type} (l : list A) : Z := Z.of_nat (length l).

Section Rows.
Context `{HI : HashIter}.

(** [chql_holds] is what the database makes of the spliced fragment. *)
Definition listed (chql_holds : GroupRow -> bool) (lf : ListFilters) (b : Builds) : list GroupRow :=
  group_rows (fun r => passes lf (hvalues (jobs_table b)) r && chql_holds r) b.

Definition list_job_groups_paginated (limit offset : Z) (lf : ListFilters) (chql_holds : GroupRow -> bool) (b : Builds)
    : result (list JobGroup * Z) string :=
  let rows := listed chql_holds lf b in
  let? page := paged limit offset (sort_by latest_first rows) in
  Ok (map_job_group <$> page, total_of rows).

(** The rows of the union, each with the column [archived]; the projection leaves
    out the reserved stages. *)
Definition listed_with_archive (lf : ListFilters) (b : Builds) : list (GroupRow * bool) :=
  ((fun r => (r, false)) <$> group_rows (passes lf (hvalues (jobs_table b))) b) ++
  ((fun r => (r, true)) <$> filter (fun r => passes lf (snd <$> jobs_archive b) r = true) (snd <$> job_groups_archive b)).

Definition unstaged (r : GroupRow) : GroupRow := {| r with gr_reserved_stages := None |}.

Definition list_job_groups_paginated_with_archive (limit offset : Z) (lf : ListFilters) (b : Builds)
    : result (list (JobGroup * bool) * Z) string :=
  let rows := listed_with_archive lf b in
  let? page := paged limit offset (sort_by (fun x y => latest_first x.1 y.1) rows) in
  Ok ((fun x => (map_job_group (unstaged x.1), x.2)) <$> page, total_of rows).

Definition get_jobs_for_group_paginated (gid : Uuid) (limit offset : Z) (b : Builds) : result (list DbJob * Z) string :=
  let js := BuildStore.get_jobs_for_group gid b in
  let? page := paged limit offset js in Ok (page, total_of js).

Record RunRow := {
  rr_job : DbJob;
  rr_branch : option string;
  rr_repo_name : option string;
  rr_group_state : string;
  rr_trigger_source : string
}.

(** The join with the group, and with its repo when there is one. *)
Definition run_row (repo_name_of : Uuid -> option string) (b : Builds) (j : DbJob) : option RunRow :=
  g ← job_groups b !! dj_job_group_id j;
  Some {| rr_job := j; rr_branch := gr_branch g; rr_repo_name := gr_repo_id g ≫= repo_name_of;
          rr_group_state := gr_state g; rr_trigger_source := gr_trigger_source g |}.

Definition run_passes (state worker : option string) (j : DbJob) : bool :=
  match state with Some s => bool_decide (dj_state j = s) | None => true end &&
  match worker with Some w => bool_decide (dj_worker_id j = Some w) | None => true end.

(** The count does not join. *)
Definition list_runs_paginated (repo_name_of : Uuid -> option string) (limit offset : Z) (state worker : option string) (b : Builds)
    : result (list RunRow * Z) string :=
  let js := job_rows (run_passes state worker) b in
  let rows := sort_by (fun x y => dj_created_at (rr_job y) ?= dj_created_at (rr_job x)) (omap (run_row repo_name_of b) js) in
  let? page := paged limit offset rows in Ok (page, total_of js).
End Rows.

(** ** The handlers *)

(** [CompileError]'s [Display], with the names of the operators. *)
Definition op_name (op : CmpOp) : string :=
  match op with
  | QueryLexer.Eq => "Eq" | Neq => "Neq" | QueryLexer.Gt => "Gt" | Gte => "Gte" | QueryLexer.Lt => "Lt" | Lte => "Lte"
  | IlikeContains => "IlikeContains" | Regex => "Regex" | Wildcard => "Wildcard"
  end.

Definition compile_error_message (e : CompileError) : string :=
  match e with
  | UnknownField name => "Unknown field '" +:+ name +:+ "'"
  | OperatorNotSupported field op => "Operator " +:+ op_name op +:+ " not supported on field '" +:+ field +:+ "'"
  | InvalidDate v => "Invalid date literal '" +:+ v +:+ "' (expected YYYY-MM-DD or RFC3339)"
  end%string.

(** [ApiError::from] of a [ChqlError] *)
Definition chql_api_error (e : ChqlError) : ApiError :=
  let msg := match position e with
             | Some pos => (message e +:+ " (position " +:+ pretty pos +:+ ")")%string
             | None => message e
             end in
  BadRequest (match hint e with Some h => msg +:+ ": " +:+ h | None => msg end)%string.

Section Handlers.
Context `{HI : HashIter} (rfc3339 : timestamp -> string) (uuid_to_string : Uuid -> string).

(** chrono's parsers for ChQL dates, and [parse_flexible_datetime] of [Web] with
    the parsers it uses. *)
Context (chql_rfc3339 chql_ymd : string -> option timestamp) (dates : string -> string -> bool -> outcome timestamp).

Definition compile_chql_param (q : option string) : result (option SqlFragment) ApiError :=
  match q with
  | None => Ok None
  | Some raw =>
      if bool_decide (trim raw = EmptyString) then Ok None
      else
        let? ast := map_err chql_api_error (QueryParser.parse raw) in
        match ast with
        | None => Ok None
        | Some ast =>
            let? frag := map_err (fun e => BadRequest (compile_error_message e)) (compile chql_rfc3339 chql_ymd ast) in
            Ok (Some frag)
        end
  end.

Record ListParams := {
  lp_limit : option Z;
  lp_offset : option Z;
  lp_state : option string;
  lp_repo_id : option Uuid;
  lp_branch : option string;
  lp_date_from : option string;
  lp_date_to : option string;
  lp_stage_name : option string;
  lp_exit_code : option Z;
  lp_include_archived : option bool;
  lp_q : option string
}.

Definition page_limit (limit : option Z) : Z := Z.min (default 50 limit) 200.

(** [map(..).transpose()?] *)
Definition optional_date (field : string) (v : option string) (end_of_day : bool) : outcome (option timestamp) :=
  match v with
  | None => Returns (Ok None)
  | Some s =>
      match dates field s end_of_day with
      | Returns (Ok t) => Returns (Ok (Some t))
      | Returns (Err e) => Returns (Err e)
      | Panics => Panics
      end
  end.

Definition obind {A B : Type} (o : outcome A) (k : A -> outcome B) : outcome B :=
  match o with Returns (Ok a) => k a | Returns (Err e) => Returns (Err e) | Panics => Panics end.

Definition params_filters (p : ListParams) (from to : option timestamp) : ListFilters := {|
  lf_state := lp_state p; lf_repo_id := lp_repo_id p; lf_branch := lp_branch p; lf_date_from := from; lf_date_to := to;
  lf_stage_name := lp_stage_name p; lf_exit_code := lp_exit_code p |}.

Definition group_json (repo_names : gmap Uuid string) (g : JobGroup) (archived : bool) : Json := Obj [
  ("id", Str (uuid_to_string (g_id g))); ("repo_id", jopt (fun r => Str (uuid_to_string r)) (g_repo_id g));
  ("repo_name", Str (default EmptyString (g_repo_id g ≫= fun r => repo_names !! r))); ("branch", jopt Str (g_branch g));
  ("commit_sha", jopt Str (g_commit_sha g)); ("trigger_source", Str (g_trigger_source g));
  ("reserved_worker_id", jopt Str (g_reserved_worker_id g)); ("state", Str (JobGroupState_to_string (g_state g)));
  ("status_reason", jopt Str (g_status_reason g)); ("created_at", Str (rfc3339 (g_created_at g)));
  ("updated_at", Str (rfc3339 (g_updated_at g))); ("completed_at", jopt (fun t => Str (rfc3339 t)) (g_completed_at g));
  ("archived", Json.Bool archived)].

Definition pagination (total limit offset : Z) : Json := Obj [("total", Num total); ("limit", Num limit); ("offset", Num offset)].

(** The names of the repos of a page; a repo that is not found, or not answered,
    has none. *)
Definition repo_names_of (get_repo : Uuid -> result (option Repo) string) (ids : list Uuid) : gmap Uuid string :=
  foldl (fun m rid => match get_repo rid with Ok (Some repo) => <[rid := repo_name repo]> m | _ => m end) ∅ ids.

(** The fragment is not used when the archive is listed. *)
Definition list_builds (ok : bool) (get_repo : Uuid -> result (option Repo) string) (chql_holds : SqlFragment -> GroupRow -> bool)
    (p : ListParams) (st : option Builds) : outcome Json :=
  match st with
  | None => Returns (Err StorageUnavailable)
  | Some b =>
      let limit := page_limit (lp_limit p) in
      let offset := default 0 (lp_offset p) in
      obind (optional_date "date_from" (lp_date_from p) false) (fun from =>
      obind (optional_date "date_to" (lp_date_to p) true) (fun to =>
      obind (Returns (compile_chql_param (lp_q p))) (fun frag =>
        let lf := params_filters p from to in
        let answer :=
          if negb ok then Err "database"%string
          else if default false (lp_include_archived p) then list_job_groups_paginated_with_archive limit offset lf b
          else
            let? (gs, total) := list_job_groups_paginated limit offset lf
                                  (fun r => match frag with Some f => chql_holds f r | None => true end) b in
            Ok ((fun g => (g, false)) <$> gs, total) in
        match answer with
        | Err e => Returns (Err (Internal e))
        | Ok (groups, total) =>
            let names := repo_names_of get_repo (remove_dups (omap (fun x => g_repo_id x.1) groups)) in
            Returns (Ok (Obj [("data", jarr (fun x => group_json names x.1 x.2) groups); ("pagination", pagination total limit offset)]))
        end)))
  end.

(** ** api/job_handlers.rs *)

Definition listed_job_json (j : DbJob) : Json := Obj [
  ("id", Str (dj_id j)); ("job_group_id", Str (uuid_to_string (dj_job_group_id j))); ("stage_name", Str (dj_stage_name j));
  ("command", Str (dj_command j)); ("worker_id", jopt Str (dj_worker_id j)); ("state", Str (dj_state j));
  ("exit_code", jopt Num (dj_exit_code j)); ("status_reason", jopt Str (dj_status_reason j));
  ("created_at", Str (rfc3339 (dj_created_at j))); ("updated_at", Str (rfc3339 (dj_updated_at j)))].

Definition list_by_group (ok : bool) (gid : Uuid) (limit offset : option Z) (st : option Builds) : result Json ApiError :=
  match st with
  | None => Err StorageUnavailable
  | Some b =>
      let limit := page_limit limit in
      let offset := default 0 offset in
      if negb ok then Err (Internal "database")
      else
        let? (js, total) := map_err Internal (get_jobs_for_group_paginated gid limit offset b) in
        Ok (Obj [("data", jarr listed_job_json js); ("pagination", pagination total limit offset)])
  end.

Definition get_job_handler (ok : bool) (id : Uuid) (st : option Builds) : result Json ApiError :=
  match st with
  | None => Err StorageUnavailable
  | Some b =>
      if negb ok then Err (Internal "database")
      else
        match jobs_table b !! uuid_to_string id with
        | None => Err (NotFound "Job not found")
        | Some j => Ok (Obj [
            ("id", Str (dj_id j)); ("job_group_id", Str (uuid_to_string (dj_job_group_id j)));
            ("stage_config_id", jopt (fun s => Str (uuid_to_string s)) (dj_stage_config_id j)); ("stage_name", Str (dj_stage_name j));
            ("command", Str (dj_command j)); ("pre_script", jopt Str (dj_pre_script j)); ("post_script", jopt Str (dj_post_script j));
            ("worker_id", jopt Str (dj_worker_id j)); ("state", Str (dj_state j)); ("exit_code", jopt Num (dj_exit_code j));
            ("status_reason", jopt Str (dj_status_reason j)); ("created_at", Str (rfc3339 (dj_created_at j)));
            ("updated_at", Str (rfc3339 (dj_updated_at j)))])
        end
  end.

(** Both writes may fail; that is only logged. *)
Definition cancel_job_handler (ok : nat -> bool) (now : nat -> timestamp) (auth : AuthUser) (id : Uuid) (st : option Builds) (c : Controller)
    : result Json ApiError * option Builds * Controller :=
  if negb (can_cancel_jobs (au_role auth)) then (Err (Forbidden "Insufficient permissions"), st, c)
  else
    let job_id := uuid_to_string id in
    let '(worker_id, jr) := JobRegistry.cancel_job (now 0%nat) job_id "Cancelled via API" (jobs c) in
    let c' := {| c with jobs := jr |} in
    let st' :=
      (fun b =>
         let b1 := if ok 0%nat then (update_job_state (now 1%nat) job_id "cancelled" None None None None b).2 else b in
         if ok 1%nat then update_job_reason (now 2%nat) job_id ("Cancelled via API by " +:+ au_username auth)%string b1 else b1) <$> st in
    (Ok (match worker_id with
         | Some wid => Obj [("id", Str job_id); ("state", Str "cancelling"); ("worker_id", Str wid)]
         | None => Obj [("id", Str job_id); ("state", Str "cancelled")]
         end), st', c').

Definition retry_job_handler (ok : bool) (now : timestamp) (auth : AuthUser) (id : Uuid) (st : option Builds) (c : Controller)
    : result Json ApiError * option Builds * Controller :=
  if negb (can_trigger_builds (au_role auth)) then (Err (Forbidden "Insufficient permissions"), st, c)
  else
    match st with
    | None => (Err StorageUnavailable, st, c)
    | Some b =>
        if negb ok then (Err (Internal "database"), st, c)
        else
          match retry_job now (uuid_to_string id) b with
          | (None, b') => (Err (BadRequest "Job not found or not in a retryable state"), Some b', c)
          | (Some j, b') =>
              (Ok (Obj [("id", Str (dj_id j)); ("state", Str (dj_state j)); ("retry_count", Num (dj_retry_count j))]), Some b',
               emit [WakeScheduler] c)
          end
    end.

Definition run_json (r : RunRow) : Json :=
  let j := rr_job r in Obj [
  ("id", Str (dj_id j)); ("job_group_id", Str (uuid_to_string (dj_job_group_id j))); ("stage_name", Str (dj_stage_name j));
  ("command", Str (dj_command j)); ("worker_id", jopt Str (dj_worker_id j)); ("state", Str (dj_state j));
  ("exit_code", jopt Num (dj_exit_code j)); ("started_at", jopt (fun t => Str (rfc3339 t)) (dj_started_at j));
  ("completed_at", jopt (fun t => Str (rfc3339 t)) (dj_completed_at j)); ("created_at", Str (rfc3339 (dj_created_at j)));
  ("branch", jopt Str (rr_branch r)); ("repo_name", jopt Str (rr_repo_name r)); ("group_state", Str (rr_group_state r));
  ("trigger_source", Str (rr_trigger_source r))].

Definition list_runs (ok : bool) (repo_name_of : Uuid -> option string) (limit offset : option Z) (state worker : option string)
    (st : option Builds) : result Json ApiError :=
  match st with
  | None => Err StorageUnavailable
  | Some b =>
      let limit := page_limit limit in
      let offset := default 0 offset in
      if negb ok then Err (Internal "database")
      else
        let? (rows, total) := map_err Internal (list_runs_paginated repo_name_of limit offset state worker b) in
        Ok (Obj [("data", jarr run_json rows); ("pagination", pagination total limit offset)])
  end.
End Handlers.

(** ** What the queries say *)

Lemma row_clauses_ok lf : Forall clause_ok (row_clauses lf).
Proof. unfold row_clauses. repeat apply Forall_app_2; apply Forall_when; intros a; by apply clause_is_ok. Qed.

Lemma job_clauses_ok jobs group lf : no_params jobs -> no_params group -> Forall clause_ok (job_clauses jobs group lf).
Proof.
  intros Hj Hg. unfold job_clauses. cbv zeta. apply Forall_app_2; apply Forall_when; intros a; [|destruct (a =? -1)];
    first [apply clause_is_ok | apply plain_is_ok]; try done; repeat apply no_params_app; done.
Qed.

Lemma clauses_bind jobs group lf : clause_binds (row_clauses lf ++ job_clauses jobs group lf) = filter_binds lf.
Proof.
  unfold clause_binds, row_clauses, job_clauses, filter_binds. cbv zeta. rewrite !omap_app.
  destruct lf as [[s|] [u|] [br|] [f|] [t|] [sn|] [e|]]; simpl; try done; by destruct (e =? -1).
Qed.

(** The values of a page, after those of the filters. *)
Lemma inline_page show bs pre limit offset idx : bs = pre ++ [PInt limit; PInt offset] -> idx = length pre ->
  inline show bs (order_and_page idx) =
    (" ORDER BY priority DESC, created_at DESC LIMIT " +:+ show (PInt limit) +:+ " OFFSET " +:+ show (PInt offset))%string.
Proof.
  intros -> ->. unfold order_and_page. rewrite (inline_plain show _ " ORDER BY priority DESC, created_at DESC LIMIT ") by done.
  rewrite Nat.add_1_r. rewrite (inline_param show _ (length pre) (PInt limit)); [|by rewrite lookup_app_r, Nat.sub_diag by lia|done].
  rewrite (inline_plain show _ " OFFSET ") by done. replace (length pre + 2)%nat with (S (S (length pre))) by lia.
  rewrite <- (str_app_nil_r (param (S (S (length pre))))).
  rewrite (inline_param show _ (S (length pre)) (PInt offset)); [|rewrite lookup_app_r by lia; by replace (S (length pre) - length pre)%nat with 1%nat by lia|done].
  by rewrite str_app_nil_r.
Qed.

Definition listing_where (show : SqlValue -> string) (lf : ListFilters) (chql : option SqlFragment) : string :=
  spliced show (where_clause (said show <$> row_clauses lf ++ job_clauses "jobs" "job_groups" lf)) chql None.

(** C30. The two queries of the listing of builds ask for what the request filters
    by. Read with the bound value at each parameter, in whatever way values are
    shown, the texts are the plain conjunction of the filters that are given, each
    with its own value, and of the ChQL expression with its values, and the page
    is the one that is asked for: counting parameters while clauses are pushed and
    binding values in a second pass never puts a value at another's place. *)
Theorem listing_says (show : SqlValue -> string) (limit offset : Z) (lf : ListFilters) (chql : option SqlFragment) :
  chql_fits chql ->
  let '(count, data) := list_queries limit offset lf chql in
  inline show (q_binds count) (q_text count) = ("SELECT COUNT(*) FROM job_groups " +:+ listing_where show lf chql)%string /\
  inline show (q_binds data) (q_text data) =
    ("SELECT " +:+ JOB_GROUP_COLUMNS +:+ " FROM job_groups " +:+ listing_where show lf chql +:+
     " ORDER BY priority DESC, created_at DESC LIMIT " +:+ show (PInt limit) +:+ " OFFSET " +:+ show (PInt offset))%string.
Proof.
  intros Hf. unfold list_queries, listing_where. set (cs := row_clauses lf ++ job_clauses "jobs" "job_groups" lf).
  assert (Hok : Forall clause_ok cs) by (apply Forall_app_2; [apply row_clauses_ok|by apply job_clauses_ok]).
  assert (Hb : clause_binds cs = filter_binds lf) by apply clauses_bind.
  pose proof (fun bs more rest => inline_where show bs cs chql None more rest Hok Hf eq_refl) as H.
  destruct (numbered 0 cs) as [ts n]. rewrite splice_is_merge. cbv zeta.
  set (p := merge_chql {| ap_where := where_clause ts; next_idx := S n |} chql None) in *. cbn [q_text q_binds]. rewrite Hb in H.
  split.
  - say. destruct (H (filter_binds lf ++ chql_binds chql) [] EmptyString ltac:(by rewrite app_nil_r) eq_refl) as [E _].
    by rewrite !str_app_nil_r in E.
  - say. destruct (H ((filter_binds lf ++ chql_binds chql) ++ [PInt limit; PInt offset]) [PInt limit; PInt offset]
                (order_and_page (next_idx p - 1)) ltac:(by rewrite app_assoc) eq_refl) as [-> Hn]. f_equal.
    apply (inline_page show _ (filter_binds lf ++ chql_binds chql)); [done|]. rewrite Hn. simpl. lia.
Qed.

Definition leg_where (show : SqlValue -> string) (jobs : string) (lf : ListFilters) : string :=
  where_clause (said show <$> row_clauses lf ++ job_clauses jobs "jg" lf).

Lemma inline_leg show s jobs lf more : no_params s -> no_params jobs ->
  let cs := row_clauses lf ++ job_clauses (s +:+ jobs)%string "jg" lf in
  let bs := filter_binds lf ++ more in
  (numbered 0 cs).2 = length (filter_binds lf) /\
  forall rest, starts_digit rest = false ->
    inline show bs (where_clause (numbered 0 cs).1 +:+ rest) = (leg_where show (s +:+ jobs) lf +:+ inline show bs rest)%string.
Proof.
  intros Hs Hj. cbv zeta. set (cs := row_clauses lf ++ job_clauses (s +:+ jobs)%string "jg" lf).
  assert (Hok : Forall clause_ok cs) by (apply Forall_app_2; [apply row_clauses_ok|by apply job_clauses_ok; [apply no_params_app|]]).
  pose proof (clauses_bind (s +:+ jobs)%string "jg" lf) as Hb. fold cs in Hb.
  pose proof (fun rest => inline_where show (filter_binds lf ++ more) cs None None more rest Hok I eq_refl) as H.
  pose proof (inline_numbered show (filter_binds lf ++ more) cs 0 more EmptyString Hok ltac:(by rewrite Hb) eq_refl) as Hn.
  destruct (numbered 0 cs) as [ts n]. destruct Hn as (_ & -> & _). rewrite Hb in H |- *. split; [done|].
  intros rest Hr. by apply (H rest).
Qed.

(** The same for the listing that includes the archive: both legs of the
    union, and both counts, read the same parameters, and each says the filters
    that were given about its own tables. *)
Theorem archive_listing_says (show : SqlValue -> string) (s : string) (limit offset : Z) (lf : ListFilters) :
  no_params s ->
  let '(count, data) := archive_queries s limit offset lf in
  let live := (s +:+ ".job_groups jg " +:+ leg_where show (s +:+ ".jobs") lf)%string in
  let arch := (s +:+ ".job_groups_archive jg " +:+ leg_where show (s +:+ ".jobs_archive") lf)%string in
  inline show (q_binds count) (q_text count) =
    ("SELECT (SELECT COUNT(*) FROM " +:+ live +:+ ") + (SELECT COUNT(*) FROM " +:+ arch +:+ ") AS total")%string /\
  inline show (q_binds data) (q_text data) =
    ("SELECT * FROM ( SELECT " +:+ ARCHIVE_COLUMNS +:+ "false AS archived FROM " +:+ live +:+
     " UNION ALL SELECT " +:+ ARCHIVE_COLUMNS +:+ "true AS archived FROM " +:+ arch +:+ " ) u" +:+
     " ORDER BY priority DESC, created_at DESC LIMIT " +:+ show (PInt limit) +:+ " OFFSET " +:+ show (PInt offset))%string.
Proof.
  intros Hs. unfold archive_queries.
  pose proof (fun more => inline_leg show s ".jobs" lf more Hs eq_refl) as Hl. cbv zeta in Hl.
  pose proof (fun more => inline_leg show s ".jobs_archive" lf more Hs eq_refl) as Ha. cbv zeta in Ha.
  destruct (numbered 0 (row_clauses lf ++ job_clauses (s +:+ ".jobs") "jg" lf)) as [live n].
  destruct (numbered 0 (row_clauses lf ++ job_clauses (s +:+ ".jobs_archive") "jg" lf)) as [arch m].
  cbn [fst snd q_text q_binds] in *. split.
  - destruct (Hl []) as [_ Hl'], (Ha []) as [_ Ha']. rewrite app_nil_r in Hl', Ha'.
    say. rewrite Hl' by done. f_equal. say. rewrite Ha' by done. done.
  - destruct (Hl [PInt limit; PInt offset]) as [-> Hl'], (Ha [PInt limit; PInt offset]) as [_ Ha'].
    say. rewrite Hl' by done. f_equal. say. rewrite Ha' by done. f_equal. say. by apply (inline_page show _ (filter_binds lf)).
Qed.

(** ** Archiving a build keeps it listed *)

Lemma existsb_ext {A : Type} (p : A -> bool) (l l' : list A) : (forall x, x ∈ l <-> x ∈ l') -> existsb p l = existsb p l'.
Proof.
  intros Hin. apply eq_iff_eq_true. rewrite !existsb_exists. by setoid_rewrite <- list_elem_of_In; setoid_rewrite Hin.
Qed.

Lemma job_passes_ext lf l l' : (forall j, j ∈ l <-> j ∈ l') -> job_passes lf l = job_passes lf l'.
Proof.
  intros Hin. unfold job_passes. f_equal; [destruct (lf_stage_name lf); [by apply existsb_ext|done]|].
  destruct (lf_exit_code lf) as [c|]; [|done]. by destruct (c =? -1); apply existsb_ext.
Qed.

Lemma and_iff_compat_l_on (P Q R : Prop) : (P -> Q <-> R) -> (P /\ Q <-> P /\ R).
Proof. tauto. Qed.

Lemma filter_ext_in {A : Type} (P Q : A -> Prop) `{!forall x, Decision (P x), !forall x, Decision (Q x)} (l : list A) :
  (forall x, x ∈ l -> P x <-> Q x) -> filter P l = filter Q l.
Proof.
  induction l as [|x l IH]; [done|]. intros Hpq. rewrite !filter_cons, IH by (intros; apply Hpq; by right).
  pose proof (Hpq x ltac:(left)). repeat case_decide; tauto.
Qed.

(** Rows of the archive, and of its jobs, belong to builds that are not live. *)
Definition archive_apart (b : Builds) : Prop :=
  (forall t r, (t, r) ∈ job_groups_archive b -> job_groups b !! gr_id r = None) /\
  (forall t j, (t, j) ∈ jobs_archive b -> job_groups b !! dj_job_group_id j = None).

Lemma passes_ext lf js js' r : (forall j, j ∈ jobs_of (gr_id r) js <-> j ∈ jobs_of (gr_id r) js') -> passes lf js r = passes lf js' r.
Proof. intros H. unfold passes. f_equal. by apply job_passes_ext. Qed.

Lemma elem_of_group_rows `{HI : HashIter} (p : GroupRow -> bool) b r : builds_wf b ->
  r ∈ group_rows p b <-> p r = true /\ job_groups b !! gr_id r = Some r.
Proof.
  intros Hb. unfold group_rows. rewrite list_elem_of_filter, elem_of_hvalues. apply and_iff_compat_l. split; [|eauto].
  intros [k Hk]. by rewrite (bw_groups _ Hb _ _ Hk).
Qed.

Lemma NoDup_group_rows `{HI : HashIter} (p : GroupRow -> bool) b : builds_wf b -> NoDup (group_rows p b).
Proof. intros Hb. eapply (NoDup_fmap_1 gr_id), NoDup_filter_keys, bw_groups, Hb. Qed.

Section Archived.
Context `{HI : HashIter} (now : timestamp) (ids : list Uuid) (b : Builds).
Hypothesis (Hwf : builds_wf b) (Hap : archive_apart b).

Let b' : Builds := (archive_groups_batch now ids b).2.

Lemma archive_apart_kept : archive_apart b'.
Proof using Hwf Hap.
  unfold b'. split.
  - intros t r Hin. rewrite archive_live_groups by done. case_decide as Hi; [done|].
    apply (archived_groups now ids b t r Hwf) in Hin as [Hin|(_ & ? & _)]; [by eapply Hap|done].
  - intros t j Hin. rewrite archive_live_groups by done. case_decide as Hi; [done|].
    apply archived_jobs in Hin as [Hin|(_ & ? & _)]; [by eapply Hap|done].
Qed.

(** The jobs that a row is filtered by. *)
Lemma jobs_of_live r : gr_id r ∉ ids ->
  forall j, j ∈ jobs_of (gr_id r) (hvalues (jobs_table b')) <-> j ∈ jobs_of (gr_id r) (hvalues (jobs_table b)).
Proof.
  intros Hr j. unfold jobs_of. rewrite !list_elem_of_filter, !elem_of_hvalues. apply and_iff_compat_l_on. intros Hj. split.
  - intros [k Hk]. unfold b' in Hk. rewrite archive_live_jobs in Hk. destruct (jobs_table b !! k) as [j'|] eqn:E; [|done].
    case_decide; [done|]. simplify_eq. eauto.
  - intros [k Hk]. exists k. unfold b'. rewrite archive_live_jobs, Hk, decide_False by (by rewrite Hj). done.
Qed.

Lemma jobs_of_archived r : job_groups b !! gr_id r = None ->
  forall j, j ∈ jobs_of (gr_id r) (snd <$> jobs_archive b') <-> j ∈ jobs_of (gr_id r) (snd <$> jobs_archive b).
Proof using Hwf.
  intros Hr j. unfold jobs_of. rewrite !list_elem_of_filter. apply and_iff_compat_l_on. intros Hj. rewrite !list_elem_of_fmap. split.
  - intros ([t j'] & -> & Hin). apply archived_jobs in Hin as [Hin|(_ & _ & k & Hk)]; [eexists; by split|].
    apply (bw_jobs _ Hwf) in Hk as [_ [? Hg]]. simpl in Hj. congruence.
  - intros ([t j'] & -> & Hin). exists (t, j'). split; [done|]. apply archived_jobs. by left.
Qed.

Lemma jobs_of_moved r : gr_id r ∈ ids -> is_Some (job_groups b !! gr_id r) ->
  forall j, j ∈ jobs_of (gr_id r) (snd <$> jobs_archive b') <-> j ∈ jobs_of (gr_id r) (hvalues (jobs_table b)).
Proof using Hap.
  intros Hr [g Hg] j. unfold jobs_of. rewrite !list_elem_of_filter. apply and_iff_compat_l_on. intros Hj.
  rewrite list_elem_of_fmap, elem_of_hvalues. split.
  - intros ([t j'] & -> & Hin). apply archived_jobs in Hin as [Hin|(_ & _ & ?)]; [|done]. apply Hap in Hin. simpl in Hj. congruence.
  - intros Hk. exists (now, j). split; [done|]. apply archived_jobs. right. by rewrite Hj.
Qed.
Lemma listed_live lf :
  group_rows (passes lf (hvalues (jobs_table b'))) b' ≡ₚ
  filter (fun r => gr_id r ∉ ids) (group_rows (passes lf (hvalues (jobs_table b))) b).
Proof using Hwf.
  pose proof (archive_wf now ids b Hwf) as Hwf'. apply NoDup_Permutation; [by apply NoDup_group_rows|by apply NoDup_filter, NoDup_group_rows|].
  intros r. rewrite list_elem_of_filter, !elem_of_group_rows by done. unfold b' at 2. rewrite archive_live_groups by done. case_decide as Hin.
  - split; [by intros []|by intros []].
  - rewrite (passes_ext lf _ (hvalues (jobs_table b)) r); [tauto|by apply jobs_of_live].
Qed.

Lemma listed_moved lf :
  filter (fun r => passes lf (snd <$> jobs_archive b') r = true) (filter (fun r => gr_id r ∈ ids) (hvalues (job_groups b))) ≡ₚ
  filter (fun r => gr_id r ∈ ids) (group_rows (passes lf (hvalues (jobs_table b))) b).
Proof using Hwf Hap.
  apply NoDup_Permutation; [|by apply NoDup_filter, NoDup_group_rows|].
  { apply NoDup_filter, (NoDup_fmap_1 gr_id), NoDup_filter_keys, bw_groups, Hwf. }
  intros r. rewrite !list_elem_of_filter, elem_of_group_rows by done. pose proof (elem_of_archived ids b r Hwf) as He.
  rewrite list_elem_of_filter in He. split.
  - intros (Hp & Hr). apply He in Hr as [Hi Hg]. split_and!; [done| |done].
    rewrite <- Hp. symmetry. apply passes_ext, jobs_of_moved; [done|]. by rewrite Hg.
  - intros (Hi & Hp & Hg). split; [|by apply He]. rewrite <- Hp. apply passes_ext, jobs_of_moved; [done|]. by rewrite Hg.
Qed.

Lemma listed_old lf :
  filter (fun r => passes lf (snd <$> jobs_archive b') r = true) (snd <$> job_groups_archive b) =
  filter (fun r => passes lf (snd <$> jobs_archive b) r = true) (snd <$> job_groups_archive b).
Proof using Hwf Hap.
  apply filter_ext_in. intros r ([t r'] & -> & Hin)%list_elem_of_fmap. simpl.
  rewrite (passes_ext lf _ (snd <$> jobs_archive b) r'); [done|]. apply jobs_of_archived. by eapply Hap.
Qed.

Lemma listed_after lf :
  listed_with_archive lf b' ≡ₚ (fun x => (x.1, x.2 || bool_decide (gr_id x.1 ∈ ids))) <$> listed_with_archive lf b.
Proof using Hwf Hap.
  set (mark := fun x : GroupRow * bool => (x.1, x.2 || bool_decide (gr_id x.1 ∈ ids))).
  set (G := group_rows (passes lf (hvalues (jobs_table b))) b).
  assert (Hlive : (fun r => (r, bool_decide (gr_id r ∈ ids))) <$> G ≡ₚ
    ((fun r => (r, true)) <$> filter (fun r => gr_id r ∈ ids) G) ++ ((fun r => (r, false)) <$> filter (fun r => gr_id r ∉ ids) G)).
  { induction G as [|r G IH]; [done|]. rewrite !filter_cons. cbn [fmap list_fmap]. rewrite IH. destruct (decide (gr_id r ∈ ids)) as [Hi|Hi].
    - rewrite decide_False by tauto. by rewrite bool_decide_true.
    - rewrite decide_True by done. rewrite bool_decide_false by done. cbn [fmap list_fmap]. by rewrite Permutation_middle. }
  unfold listed_with_archive at 1. rewrite listed_live. unfold b' at 3. cbn [archive_groups_batch job_groups_archive snd].
  rewrite fmap_app, filter_app, fmap_app. rewrite listed_old.
  assert (Hsnd : forall l : list GroupRow, snd <$> (pair now <$> l) = l) by (intros l; rewrite <- list_fmap_compose; exact (list_fmap_id l)).
  rewrite Hsnd, listed_moved. fold G. unfold listed_with_archive. fold G. rewrite fmap_app, <- !list_fmap_compose.
  change (mark ∘ (fun r => (r, false))) with (fun r : GroupRow => (r, bool_decide (gr_id r ∈ ids))).
  change (mark ∘ (fun r => (r, true))) with (fun r : GroupRow => (r, true)). rewrite Hlive. solve_Permutation.
Qed.
End Archived.

(** Archiving builds takes none of them from the listing that includes the
    archive, whatever the filters: the same builds are listed, with the same
    total, and exactly the archived ones are marked. The filters on stages and
    exit codes look at the jobs where they are now. The listing without the
    archive loses the archived builds and no others. *)
Theorem archiving_keeps_listing `{HI : HashIter} (now : timestamp) (ids : list Uuid) (b : Builds) (lf : ListFilters) :
  builds_wf b -> archive_apart b ->
  let b' := (archive_groups_batch now ids b).2 in
  archive_apart b' /\
  listed_with_archive lf b' ≡ₚ (fun x => (x.1, x.2 || bool_decide (gr_id x.1 ∈ ids))) <$> listed_with_archive lf b /\
  total_of (listed_with_archive lf b') = total_of (listed_with_archive lf b) /\
  (forall r, r ∈ listed (fun _ => true) lf b' <-> r ∈ listed (fun _ => true) lf b /\ gr_id r ∉ ids).
Proof.
  intros Hwf Hap b'. pose proof (listed_after now ids b Hwf Hap lf) as Hl. split_and!.
  - by apply archive_apart_kept.
  - exact Hl.
  - unfold total_of. fold b' in Hl. by rewrite Hl, length_fmap.
  - intros r. pose proof (listed_live now ids b Hwf lf) as Hg. unfold listed.
    assert (E : forall js bb, group_rows (fun r => passes lf js r && true) bb = group_rows (passes lf js) bb).
    { intros js bb. unfold group_rows. apply list_filter_iff. intros x. by rewrite andb_true_r. }
    rewrite !E. fold b' in Hg. rewrite Hg, list_elem_of_filter. tauto.
Qed.

(** ** Pages *)

Lemma paged_small {A : Type} limit offset (l : list A) : 0 <= limit -> 0 <= offset ->
  paged limit offset l = Ok (take (Z.to_nat limit) (drop (Z.to_nat offset) l)).
Proof.
  intros Hl Ho. unfold paged. rewrite !(proj2 (Z.ltb_ge _ _)) by lia. cbn [orb]. f_equal.
  assert (E : drop (Z.to_nat (Z.min offset (Z.of_nat (length l)))) l = drop (Z.to_nat offset) l).
  { destruct (Z.min_spec offset (Z.of_nat (length l))) as [[_ ->]|[Hlt ->]]; [done|]. rewrite Nat2Z.id, !drop_ge; [done|lia|done]. }
  rewrite E. destruct (Z.min_spec limit (Z.of_nat (length l))) as [[_ ->]|[Hlt ->]]; [done|].
  rewrite Nat2Z.id, !take_ge; [done|rewrite length_drop; lia|rewrite length_drop; lia].
Qed.

Definition page_of {A : Type} (n : Z) (l : list A) (k : nat) : list A := unwrap_or [] (paged n (n * Z.of_nat k) l).

(** Turning the pages of a result shows all of it once, in order. *)
Lemma pages_cover {A : Type} (n : Z) (l : list A) (m : nat) :
  0 < n -> Z.of_nat (length l) <= n * Z.of_nat m -> concat (page_of n l <$> seq 0 m) = l.
Proof.
  intros Hn Hm. assert (Hp : forall k, page_of n l k = take (Z.to_nat n) (drop (Z.to_nat n * k) l)).
  { intros k. unfold page_of. rewrite paged_small by lia. cbn [unwrap_or]. do 2 f_equal. lia. }
  rewrite (list_fmap_ext _ (fun k => take (Z.to_nat n) (drop (Z.to_nat n * k) l)) _ (fun _ k _ => Hp k)). clear Hp.
  assert (Hlen : (length l <= Z.to_nat n * m)%nat) by lia. clear Hm. revert l Hlen.
  induction m as [|m IH]; intros l Hlen; [destruct l; [done|simpl in Hlen; lia]|].
  cbn [seq fmap list_fmap concat]. rewrite Nat.mul_0_r, drop_0. etrans; [|apply (take_drop (Z.to_nat n) l)]. f_equal.
  rewrite <- fmap_S_seq, <- list_fmap_compose. rewrite <- (IH (drop (Z.to_nat n) l)) at 1 by (rewrite length_drop; lia).
  f_equal. apply list_fmap_ext. intros i k _. simpl. rewrite drop_drop. do 2 f_equal. lia.
Qed.

(** Without a group that is missing, every run is counted and listed. *)
Lemma runs_counted `{HI : HashIter} names state worker b : builds_wf b ->
  length (omap (run_row names b) (job_rows (run_passes state worker) b)) = length (job_rows (run_passes state worker) b).
Proof.
  intros Hwf. assert (Hall : forall j, j ∈ job_rows (run_passes state worker) b -> is_Some (run_row names b j)).
  { intros j [_ Hj]%list_elem_of_filter. apply elem_of_hvalues in Hj as [k Hk]. apply (bw_jobs _ Hwf) in Hk as [_ [g Hg]].
    unfold run_row. rewrite Hg. by eexists. }
  induction (job_rows _ b) as [|j l IH]; [done|]. cbn [omap list_omap]. destruct (Hall j) as [r ->]; [left|].
  simpl. f_equal. apply IH. intros. apply Hall. by right.
Qed.

(** ** Samples *)

Definition quoted (v : SqlValue) : string :=
  match v with
  | PText s => "'" +:+ s +:+ "'"
  | PUuid u => pretty u
  | PTime t | PInt t => pretty t
  | PFloat x => F64.to_string x
  | PBool b => if b then "true" else "false"
  end%string.

Definition sample_filters : ListFilters := {|
  lf_state := Some "failed"; lf_repo_id := None; lf_branch := Some "x' OR 1=1 --"; lf_date_from := None; lf_date_to := None;
  lf_stage_name := Some "test"; lf_exit_code := Some 2 |}.

Definition sample_chql : option SqlFragment :=
  unwrap_or None (compile_chql_param (fun _ => None) (fun _ => None) (Some "branch:main OR NOT (exit_code:>3)")).

Lemma sample_chql_fits : chql_fits sample_chql.
Proof. vm_compute. done. Qed.

Lemma listing_says_witness :
  let q := (list_queries 50 0 sample_filters sample_chql).2 in
  q_text q = ("SELECT " +:+ JOB_GROUP_COLUMNS +:+ " FROM job_groups WHERE state = $1 AND branch = $2 AND EXISTS (SELECT 1 FROM jobs j WHERE j.job_group_id = job_groups.id AND j.stage_name = $3) AND EXISTS (SELECT 1 FROM jobs j WHERE j.job_group_id = job_groups.id AND j.exit_code = $4) AND ((branch = $5) OR (NOT (EXISTS (SELECT 1 FROM jobs j_q WHERE j_q.job_group_id = job_groups.id AND j_q.exit_code > $6)))) ORDER BY priority DESC, created_at DESC LIMIT $7 OFFSET $8")%string /\
  inline quoted (q_binds q) (q_text q) =
    ("SELECT " +:+ JOB_GROUP_COLUMNS +:+ " FROM job_groups " +:+ listing_where quoted sample_filters sample_chql +:+
     " ORDER BY priority DESC, created_at DESC LIMIT 50 OFFSET 0")%string.
Proof.
  split; [vm_compute; reflexivity|]. pose proof (listing_says quoted 50 0 sample_filters sample_chql sample_chql_fits) as H.
  destruct (list_queries 50 0 sample_filters sample_chql) as [count data]. exact (proj2 H).
Defined.

Lemma archive_listing_says_witness :
  let q := (archive_queries "chola" 50 0 sample_filters).1 in
  inline quoted (q_binds q) (q_text q) =
    ("SELECT (SELECT COUNT(*) FROM chola.job_groups jg " +:+ leg_where quoted "chola.jobs" sample_filters +:+
     ") + (SELECT COUNT(*) FROM chola.job_groups_archive jg " +:+ leg_where quoted "chola.jobs_archive" sample_filters +:+ ") AS total")%string.
Proof.
  pose proof (archive_listing_says quoted "chola" 50 0 sample_filters eq_refl) as H.
  destruct (archive_queries "chola" 50 0 sample_filters) as [count data]. exact (proj1 H).
Defined.

Definition no_filters : ListFilters := {| lf_state := None; lf_repo_id := None; lf_branch := None; lf_date_from := None; lf_date_to := None;
  lf_stage_name := Some "build"; lf_exit_code := None |}.

Lemma sample_apart : archive_apart sample_tables.
Proof. split; intros t x Hx; vm_compute in Hx; by apply elem_of_nil in Hx. Qed.

Lemma archiving_keeps_listing_witness :
  let b' := (archive_groups_batch (HI := map_iter) 9 [7%N] sample_tables).2 in
  total_of (listed_with_archive (HI := map_iter) no_filters b') = 1 /\
  listed (HI := map_iter) (fun _ => true) no_filters b' = [].
Proof.
  destruct (archiving_keeps_listing (HI := map_iter) 9 [7%N] sample_tables no_filters sample_builds_wf sample_apart) as (_ & _ & Ht & _).
  split; [etrans; [exact Ht|]; vm_compute; reflexivity|vm_compute; reflexivity].
Defined.

(** A negative page is an error of the server's. *)
Example negative_limit : (list_by_group (HI := map_iter) (fun _ => "")  (fun _ => "") true 7%N (Some (-1)) None (Some sample_tables)) =
  Err (Internal "LIMIT or OFFSET must not be negative").
Proof. vm_compute. reflexivity. Qed.

(** ** Single jobs *)

(** Retrying a job puts its row back in the queue. Nothing that dispatches looks
    there: the registry, which keeps the failed job, is left as it was. *)
Lemma retry_touches_table_only us ok now auth id b c r st' c' :
  retry_job_handler us ok now auth id (Some b) c = (r, st', c') ->
  jobs c' = jobs c /\ jgroups c' = jgroups c /\
  (is_ok r = true -> exists j, (st' ≫= fun b' => jobs_table b' !! us id) = Some j /\ dj_state j = "queued"%string).
Proof.
  unfold retry_job_handler. destruct (negb _); [by intros [= <- <- <-]|]. destruct (negb ok); [by intros [= <- <- <-]|].
  unfold retry_job. destruct (jobs_table b !! us id) as [row|] eqn:E; [|by intros [= <- <- <-]]. cbn [with_job_rows jobs_table].
  case_bool_decide as Hs; [|by intros [= <- <- <-]]. rewrite lookup_alter_eq, E. cbn [fmap option_fmap option_map].
  intros [= <- <- <-]. split_and!; [done..|]. intros _. eexists. split.
  - cbn [mbind option_bind with_job_rows jobs_table]. rewrite lookup_alter_eq, E. done.
  - unfold requeue. by rewrite bool_decide_true.
Qed.

Definition api_admin : AuthUser := {| au_user_id := 1%N; au_username := "root"; au_role := SuperAdmin |}.

(** A job that has succeeded is recorded as cancelled, and the caller is told so. *)
Example cancel_rewrites_history : forall c,
  let b := (update_job_state 5 "7" "success" (Some 0) None None None (create_job (fun _ => true) (sample_row "7" 7%N "running") sample_group_table).2).2 in
  jobs c !! "7"%string = None ->
  let '(r, st', c') := cancel_job_handler pretty (fun _ => true) (fun _ => 9) api_admin 7%N (Some b) c in
  r = Ok (Obj [("id", Str "7"); ("state", Str "cancelled")]) /\ jobs c' = jobs c /\
  (dj_state <$> (st' ≫= fun b' => jobs_table b' !! "7"%string)) = Some "cancelled"%string.
Proof.
  intros c b Hc. unfold cancel_job_handler. cbn [can_cancel_jobs api_admin au_role negb]. change (pretty 7%N) with "7"%string.
  unfold JobRegistry.cancel_job. rewrite Hc. split_and!; [done..|]. vm_compute. reflexivity.
Qed.
