(* ===== verification/CatalogApi.v ===== *)
(** * The API of repositories, stages and scripts
    (crates/ci-controller/src/api/repo_handlers.rs, api/script_handlers.rs)

    A handler takes the caller, its decoded body and the tables of [Catalog]
    ([None] without a database), and returns its reply with the tables. [ok] says
    whether the database answers. *)

From Stdlib Require Import ZArith Lia.
From stdpp Require Import gmap strings list fin_maps relations.
From S2P Require Import Prelude Text F64 QueryLexer QueryParser QueryCompile Sql WorkerModel JobModel StageModel Scheduler.
From S2P Require Import WorkerRegistry JobRegistry JobGroupRegistry LogAggregator Controller Dispatch Session Json Web Handlers WorkerStore BuildStore Listing Catalog.

(** ** Requests *)

Record CreateRepoRequest := {
  cr_repo_name : string;
  cr_repo_url : string;
  cr_default_branch : option string;
  cr_global_pre_script : option string;
  cr_global_pre_script_scope : option string;
  cr_global_post_script : option string;
  cr_global_post_script_scope : option string
}.

Record CreateScriptRequest := {
  cp_script_type : string;
  cp_script_scope : string;
  cp_script : string;
  cp_worker_id : option string;
  cp_lock_enabled : bool;
  cp_lock_key : option string;
  cp_lock_timeout_secs : Z
}.

Definition default_cpu : Z := 1.
Definition default_memory_mb : Z := 512.
Definition default_disk_mb : Z := 256.
Definition default_max_duration : Z := 3600.
Definition default_job_type : string := "common".
Definition default_command_mode : string := "fixed".
Definition default_lock_timeout : Z := 120.

Definition create_stage_request (j : Json) : option CreateStageRequest :=
  name ← field j "stage_name" as_str None;
  command ← opt_field j "command" as_str;
  cpu ← field j "required_cpu" de_i32 (Some default_cpu);
  mem ← field j "required_memory_mb" de_i32 (Some default_memory_mb);
  disk ← field j "required_disk_mb" de_i32 (Some default_disk_mb);
  dur ← field j "max_duration_secs" de_i32 (Some default_max_duration);
  order ← field j "execution_order" de_i32 (Some 0);
  pgroup ← opt_field j "parallel_group" as_str;
  migr ← field j "allow_worker_migration" as_bool (Some false);
  ty ← field j "job_type" as_str (Some default_job_type);
  deps ← field j "depends_on" de_strs (Some []);
  labels ← field j "required_labels" de_strs (Some []);
  mode ← field j "command_mode" as_str (Some default_command_mode);
  Some {| cs_stage_name := name; cs_command := command; cs_required_cpu := cpu; cs_required_memory_mb := mem;
          cs_required_disk_mb := disk; cs_max_duration_secs := dur; cs_execution_order := order; cs_parallel_group := pgroup;
          cs_allow_worker_migration := migr; cs_job_type := ty; cs_depends_on := deps; cs_required_labels := labels;
          cs_command_mode := mode |}.

Definition update_repo_request (j : Json) : option UpdateRepoRequest :=
  name ← opt_field j "repo_name" as_str;
  url ← opt_field j "repo_url" as_str;
  branch ← opt_field j "default_branch" as_str;
  enabled ← opt_field j "enabled" as_bool;
  max_builds ← opt_field j "max_concurrent_builds" de_i32;
  cancel ← opt_field j "cancel_superseded" as_bool;
  pre ← nested_field j "global_pre_script";
  pre_scope ← opt_field j "global_pre_script_scope" as_str;
  post ← nested_field j "global_post_script";
  post_scope ← opt_field j "global_post_script_scope" as_str;
  pre_lock ← opt_field j "global_pre_script_lock_enabled" as_bool;
  pre_key ← nested_field j "global_pre_script_lock_key";
  pre_timeout ← opt_field j "global_pre_script_lock_timeout_secs" de_i32;
  post_lock ← opt_field j "global_post_script_lock_enabled" as_bool;
  post_key ← nested_field j "global_post_script_lock_key";
  post_timeout ← opt_field j "global_post_script_lock_timeout_secs" de_i32;
  Some {| ur_repo_name := name; ur_repo_url := url; ur_default_branch := branch; ur_enabled := enabled;
          ur_max_concurrent_builds := max_builds; ur_cancel_superseded := cancel; ur_global_pre_script := pre;
          ur_global_pre_script_scope := pre_scope; ur_global_post_script := post; ur_global_post_script_scope := post_scope;
          ur_global_pre_script_lock_enabled := pre_lock; ur_global_pre_script_lock_key := pre_key;
          ur_global_pre_script_lock_timeout_secs := pre_timeout; ur_global_post_script_lock_enabled := post_lock;
          ur_global_post_script_lock_key := post_key; ur_global_post_script_lock_timeout_secs := post_timeout |}.

Definition update_script_request (j : Json) : option UpdateScriptRequest :=
  ty ← opt_field j "script_type" as_str;
  scope ← opt_field j "script_scope" as_str;
  script ← opt_field j "script" as_str;
  worker ← nested_field j "worker_id";
  lock ← opt_field j "lock_enabled" as_bool;
  key ← nested_field j "lock_key";
  timeout ← opt_field j "lock_timeout_secs" de_i32;
  Some {| up_script_type := ty; up_script_scope := scope; up_script := script; up_worker_id := worker;
          up_lock_enabled := lock; up_lock_key := key; up_lock_timeout_secs := timeout |}.

(** ** Validation *)

Definition validate_resource_fields (cpu memory_mb disk_mb max_duration : Z) : result unit ApiError :=
  if (cpu <? 0) || (1024 <? cpu) then Err (BadRequest "required_cpu must be 0-1024")
  else if (memory_mb <? 0) || (1048576 <? memory_mb) then Err (BadRequest "required_memory_mb must be 0-1048576")
  else if (disk_mb <? 0) || (10485760 <? disk_mb) then Err (BadRequest "required_disk_mb must be 0-10485760")
  else if (max_duration <? 0) || (86400 <? max_duration) then Err (BadRequest "max_duration_secs must be 0-86400")
  else Ok tt.

(** One of the listed words. *)
Definition validate_word (words : list string) (msg w : string) : result unit ApiError :=
  if bool_decide (w ∈ words) then Ok tt else Err (BadRequest msg).

Definition command_modes : list string := ["fixed"; "optional"; "required"].
Definition repo_scopes : list string := ["worker"; "master"; "both"].
Definition script_types : list string := ["pre"; "post"].
Definition script_scopes : list string := ["worker"; "master"].

Definition validate_command_mode : string -> result unit ApiError :=
  validate_word command_modes "command_mode must be one of: fixed, optional, required".
Definition validate_repo_scope : string -> result unit ApiError :=
  validate_word repo_scopes "script scope must be one of: worker, master, both".
Definition validate_script_type : string -> result unit ApiError := validate_word script_types "script_type must be 'pre' or 'post'".
Definition validate_script_scope : string -> result unit ApiError := validate_word script_scopes "script_scope must be 'worker' or 'master'".

Definition validate_string (f s : string) (max_len : Z) : result unit ApiError :=
  if bool_decide (s = EmptyString) then Err (BadRequest (f +:+ " cannot be empty"))
  else if max_len <? byte_len s then Err (BadRequest (f +:+ " exceeds max length of " +:+ pretty.pretty max_len))
  else Ok tt.

Definition validate_size (f s : string) : result unit ApiError :=
  if 65536 <? byte_len s then Err (BadRequest (f +:+ " must be under 64KB")) else Ok tt.

Definition validate_globals (pre_scope post_scope pre post : option string) : result unit ApiError :=
  let? _ := if_some pre_scope validate_repo_scope in
  let? _ := if_some post_scope validate_repo_scope in
  let? _ := if_some pre (validate_size "global_pre_script") in
  if_some post (validate_size "global_post_script").

Definition validate_create_repo (b : CreateRepoRequest) : result unit ApiError :=
  let? _ := validate_string "repo_name" (cr_repo_name b) 255 in
  let? _ := validate_string "repo_url" (cr_repo_url b) 2048 in
  validate_globals (cr_global_pre_script_scope b) (cr_global_post_script_scope b) (cr_global_pre_script b) (cr_global_post_script b).

Definition validate_update_repo (u : UpdateRepoRequest) : result unit ApiError :=
  let? _ := if_some (ur_repo_name u) (fun s => validate_string "repo_name" s 255) in
  let? _ := if_some (ur_repo_url u) (fun s => validate_string "repo_url" s 2048) in
  validate_globals (ur_global_pre_script_scope u) (ur_global_post_script_scope u) (mjoin (ur_global_pre_script u)) (mjoin (ur_global_post_script u)).

Definition validate_create_stage (b : CreateStageRequest) : result unit ApiError :=
  let? _ := validate_string "stage_name" (cs_stage_name b) 255 in
  let? _ := validate_command_mode (cs_command_mode b) in
  let? _ :=
    if negb (bool_decide (cs_command_mode b = "required")) && bool_decide (default EmptyString (cs_command b) = EmptyString)
    then Err (BadRequest "command is required for fixed/optional mode") else Ok tt in
  validate_resource_fields (cs_required_cpu b) (cs_required_memory_mb b) (cs_required_disk_mb b) (cs_max_duration_secs b).

Definition validate_update_stage (u : UpdateStageRequest) : result unit ApiError :=
  let? _ := if_some (us_stage_name u) (fun s => validate_string "stage_name" s 255) in
  let? _ := if_some (us_command_mode u) validate_command_mode in
  validate_resource_fields (default 0 (us_required_cpu u)) (default 0 (us_required_memory_mb u))
    (default 0 (us_required_disk_mb u)) (default 3600 (us_max_duration_secs u)).

Definition validate_script (s : string) : result unit ApiError :=
  if bool_decide (s = EmptyString) then Err (BadRequest "script cannot be empty") else validate_size "script" s.

Definition validate_create_script (b : CreateScriptRequest) : result unit ApiError :=
  let? _ := validate_script_type (cp_script_type b) in
  let? _ := validate_script_scope (cp_script_scope b) in
  validate_script (cp_script b).

Definition validate_update_script (u : UpdateScriptRequest) : result unit ApiError :=
  let? _ := if_some (up_script_type u) validate_script_type in
  let? _ := if_some (up_script_scope u) validate_script_scope in
  if_some (up_script u) validate_script.

(** ** Handlers *)

Section Handlers.
Context `{HI : HashIter} `{CO : Collation} (rfc3339 : timestamp -> string) (uuid_to_string : Uuid -> string).

Definition repo_to_json (row : RepoRow) : Json :=
  let r := rp_repo row in Obj [
  ("id", Str (uuid_to_string (repo_id r))); ("repo_name", Str (repo_name r)); ("repo_url", Str (repo_url r));
  ("default_branch", Str (rp_default_branch row)); ("enabled", Json.Bool (rp_enabled row));
  ("max_concurrent_builds", Num (max_concurrent_builds r)); ("cancel_superseded", Json.Bool (cancel_superseded r));
  ("global_pre_script", jopt Str (global_pre_script r)); ("global_pre_script_scope", Str (global_pre_script_scope r));
  ("global_post_script", jopt Str (global_post_script r)); ("global_post_script_scope", Str (global_post_script_scope r));
  ("global_pre_script_lock_enabled", Json.Bool (global_pre_script_lock_enabled r));
  ("global_pre_script_lock_key", jopt Str (global_pre_script_lock_key r));
  ("global_pre_script_lock_timeout_secs", Num (global_pre_script_lock_timeout_secs r));
  ("global_post_script_lock_enabled", Json.Bool (global_post_script_lock_enabled r));
  ("global_post_script_lock_key", jopt Str (global_post_script_lock_key r));
  ("global_post_script_lock_timeout_secs", Num (global_post_script_lock_timeout_secs r));
  ("created_at", Str (rfc3339 (rp_created_at row))); ("updated_at", Str (rfc3339 (rp_updated_at row)))].

Definition stage_to_json (s : StageConfig) : Json := Obj [
  ("id", Str (uuid_to_string (sc_id s))); ("repo_id", Str (uuid_to_string (sc_repo_id s))); ("stage_name", Str (sc_stage_name s));
  ("command", jopt Str (sc_command s)); ("command_mode", Str (sc_command_mode s)); ("required_cpu", Num (sc_required_cpu s));
  ("required_memory_mb", Num (sc_required_memory_mb s)); ("required_disk_mb", Num (sc_required_disk_mb s));
  ("max_duration_secs", Num (sc_max_duration_secs s)); ("execution_order", Num (sc_execution_order s));
  ("parallel_group", jopt Str (sc_parallel_group s)); ("allow_worker_migration", Json.Bool (sc_allow_worker_migration s));
  ("job_type", Str (sc_job_type s)); ("depends_on", jstrs (sc_depends_on s)); ("required_labels", jstrs (sc_required_labels s));
  ("max_retries", Num (sc_max_retries s)); ("created_at", Str (rfc3339 (sc_created_at s)));
  ("updated_at", Str (rfc3339 (sc_updated_at s)))].

Definition script_to_json (row : ScriptRow) : Json :=
  let s := sr_script row in Obj [
  ("id", Str (uuid_to_string (sr_id row))); ("stage_config_id", Str (uuid_to_string (sr_stage_config_id row)));
  ("worker_id", jopt Str (sr_worker_id row)); ("script_type", Str (ss_script_type s)); ("script_scope", Str (ss_script_scope s));
  ("script", Str (ss_script s)); ("lock_enabled", Json.Bool (ss_lock_enabled s)); ("lock_key", jopt Str (ss_lock_key s));
  ("lock_timeout_secs", Num (ss_lock_timeout_secs s)); ("created_at", Str (rfc3339 (sr_created_at row)));
  ("updated_at", Str (rfc3339 (sr_updated_at row)))].

(** repo_handlers.rs *)

Definition list_repos_paginated (limit offset : Z) (cat : Catalog) : result (list RepoRow * Z) string :=
  let rows := list_repos cat in
  let? page := paged limit offset rows in Ok (page, total_of rows).

Definition list_repos_handler (ok : bool) (limit offset : option Z) (st : option Catalog) : result Json ApiError :=
  let limit := page_limit limit in
  let offset := default 0 offset in
  reading ok st (fun cat =>
    let? (rows, total) := map_err Internal (list_repos_paginated limit offset cat) in
    Ok (Obj [("data", jarr repo_to_json rows); ("pagination", pagination total limit offset)])).

Definition create_repo_handler (ok : bool) (id : Uuid) (now : timestamp) (auth : AuthUser) (b : CreateRepoRequest)
    (st : option Catalog) : Reply Catalog :=
  guarded auth (validate_create_repo b) st (fun cat =>
    answered ok cat
      (create_repo id now (cr_repo_name b) (cr_repo_url b) (default "main"%string (cr_default_branch b)) (cr_global_pre_script b)
         (cr_global_pre_script_scope b) (cr_global_post_script b) (cr_global_post_script_scope b) cat)
      (fun row => Ok (repo_to_json row))).

Definition get_repo_handler (ok : bool) (id : Uuid) (st : option Catalog) : result Json ApiError :=
  reading ok st (fun cat => found "Repo not found" (get_repo id cat) repo_to_json).

Definition update_repo_handler (ok : bool) (now : timestamp) (auth : AuthUser) (id : Uuid) (u : UpdateRepoRequest)
    (st : option Catalog) : Reply Catalog :=
  guarded auth (validate_update_repo u) st (fun cat =>
    answered ok cat (update_repo id now u cat) (fun o => found "Repo not found" o repo_to_json)).

Definition delete_repo_handler (ok : bool) (auth : AuthUser) (id : Uuid) (b : Builds) (st : option Catalog) : Reply Catalog :=
  guarded auth (Ok tt) st (fun cat => answered ok cat (delete_repo id b cat) (deleted "Repo not found")).

Definition list_stages (ok : bool) (repo : Uuid) (st : option Catalog) : result Json ApiError :=
  reading ok st (fun cat =>
    let stages := get_stage_configs_for_repo repo cat in
    Ok (Obj [("stages", jarr stage_to_json stages); ("count", Num (total_of stages))])).

Definition list_stage_names (ok : bool) (repo : Uuid) (st : option Catalog) : result Json ApiError :=
  reading ok st (fun cat =>
    found "Repo not found" (get_repo repo cat) (fun _ => Obj [("stages", jstrs (list_stages_for_repo repo cat))])).

Definition create_stage (ok : bool) (id : Uuid) (now : timestamp) (auth : AuthUser) (repo : Uuid) (b : CreateStageRequest)
    (st : option Catalog) : Reply Catalog :=
  guarded auth (validate_create_stage b) st (fun cat =>
    answered ok cat (create_stage_config id now repo b cat) (fun s => Ok (stage_to_json s))).

(** The repo in the path is not used. *)
Definition update_stage (ok : bool) (now : timestamp) (auth : AuthUser) (_repo stage : Uuid) (u : UpdateStageRequest)
    (st : option Catalog) : Reply Catalog :=
  guarded auth (validate_update_stage u) st (fun cat =>
    answered ok cat (update_stage_config stage now u cat) (fun o => found "Stage config not found" o stage_to_json)).

Definition delete_stage (ok : bool) (auth : AuthUser) (_repo stage : Uuid) (b : Builds) (st : option Catalog) : Reply Catalog :=
  guarded auth (Ok tt) st (fun cat => answered ok cat (delete_stage_config stage b cat) (deleted "Stage config not found")).

(** script_handlers.rs *)

Definition list_scripts (ok : bool) (_repo stage : Uuid) (st : option Catalog) : result Json ApiError :=
  reading ok st (fun cat =>
    let scripts := list_stage_scripts stage cat in
    Ok (Obj [("scripts", jarr script_to_json scripts); ("count", Num (total_of scripts))])).

Definition create_script (ok : bool) (id : Uuid) (now : timestamp) (auth : AuthUser) (_repo stage : Uuid) (b : CreateScriptRequest)
    (st : option Catalog) : Reply Catalog :=
  guarded auth (validate_create_script b) st (fun cat =>
    answered ok cat
      (create_stage_script id now stage (cp_worker_id b)
         {| ss_script_type := cp_script_type b; ss_script_scope := cp_script_scope b; ss_script := cp_script b;
            ss_lock_enabled := cp_lock_enabled b; ss_lock_key := cp_lock_key b; ss_lock_timeout_secs := cp_lock_timeout_secs b |} cat)
      (fun row => Ok (script_to_json row))).

Definition update_script (ok : bool) (now : timestamp) (auth : AuthUser) (_repo _stage script : Uuid) (u : UpdateScriptRequest)
    (st : option Catalog) : Reply Catalog :=
  guarded auth (validate_update_script u) st (fun cat =>
    answered ok cat (update_stage_script script now u cat) (fun o => found "Script not found" o script_to_json)).

Definition delete_script (ok : bool) (auth : AuthUser) (_repo _stage script : Uuid) (st : option Catalog) : Reply Catalog :=
  guarded auth (Ok tt) st (fun cat =>
    answered ok cat (let '(hit, cat') := delete_stage_script script cat in (Ok hit, cat')) (deleted "Script not found")).
End Handlers.

(** ** What the tables hold *)

Definition small_script (o : option string) : Prop := match o with Some s => byte_len s <= 65536 | None => True end.

Definition repo_valid (row : RepoRow) : Prop :=
  let r := rp_repo row in
  sized 255 (repo_name r) /\ sized 2048 (repo_url r) /\
  global_pre_script_scope r ∈ repo_scopes /\ global_post_script_scope r ∈ repo_scopes /\
  small_script (global_pre_script r) /\ small_script (global_post_script r).

Definition stage_valid (s : StageConfig) : Prop :=
  sized 255 (sc_stage_name s) /\ sc_command_mode s ∈ command_modes /\
  0 <= sc_required_cpu s <= 1024 /\ 0 <= sc_required_memory_mb s <= 1048576 /\
  0 <= sc_required_disk_mb s <= 10485760 /\ 0 <= sc_max_duration_secs s <= 86400.

Definition script_valid (row : ScriptRow) : Prop :=
  let s := sr_script row in
  ss_script_type s ∈ script_types /\ ss_script_scope s ∈ script_scopes /\ sized 65536 (ss_script s).

Record rows_valid (cat : Catalog) : Prop := {
  rv_repos : map_Forall (fun _ row => repo_valid row) (repos_table cat);
  rv_stages : map_Forall (fun _ s => stage_valid s) (stages_table cat);
  rv_scripts : map_Forall (fun _ row => script_valid row) (scripts_table cat)
}.

Definition catalog_ok (cat : Catalog) : Prop := schema_ok cat /\ rows_valid cat.

Lemma empty_catalog_ok : catalog_ok empty_catalog.
Proof. split; [apply empty_schema_ok|]. split; apply map_Forall_empty. Qed.

Lemma word_ok words msg w : validate_word words msg w = Ok tt -> w ∈ words.
Proof. unfold validate_word. by destruct (bool_decide_reflect (w ∈ words)). Qed.

Lemma string_ok f s n : validate_string f s n = Ok tt -> sized n s.
Proof. unfold validate_string, sized. destruct (bool_decide_reflect (s = EmptyString)); [done|]. destruct (Z.ltb_spec n (byte_len s)); [done|]. done. Qed.

Lemma size_ok f s : validate_size f s = Ok tt -> byte_len s <= 65536.
Proof. unfold validate_size. destruct (Z.ltb_spec 65536 (byte_len s)); [done|]. done. Qed.

Lemma script_text_ok s : validate_script s = Ok tt -> sized 65536 s.
Proof. unfold validate_script, sized. destruct (bool_decide_reflect (s = EmptyString)); [done|]. intros H%size_ok. done. Qed.

Lemma resources_ok cpu mem disk dur : validate_resource_fields cpu mem disk dur = Ok tt ->
  0 <= cpu <= 1024 /\ 0 <= mem <= 1048576 /\ 0 <= disk <= 10485760 /\ 0 <= dur <= 86400.
Proof.
  unfold validate_resource_fields. repeat (match goal with |- context [if ?b then _ else _] => destruct b eqn:? end; [discriminate|]).
  intros _. repeat match goal with H : _ || _ = false |- _ => apply orb_false_iff in H as [?%Z.ltb_ge ?%Z.ltb_ge] end. lia.
Qed.

Lemma globals_ok pre_scope post_scope pre post : validate_globals pre_scope post_scope pre post = Ok tt ->
  if_some pre_scope validate_repo_scope = Ok tt /\ if_some post_scope validate_repo_scope = Ok tt /\ small_script pre /\ small_script post.
Proof.
  unfold validate_globals. intros H. checks H. split_and!; [done|done| |].
  - destruct pre; simpl in *; [by eapply size_ok|done].
  - destruct post; simpl in *; [by eapply size_ok|done].
Qed.

Lemma created_repo_valid id now b row : validate_create_repo b = Ok tt ->
  row = new_repo id now (cr_repo_name b) (cr_repo_url b) (default "main"%string (cr_default_branch b)) (cr_global_pre_script b)
          (cr_global_pre_script_scope b) (cr_global_post_script b) (cr_global_post_script_scope b) -> repo_valid row.
Proof.
  unfold validate_create_repo. intros H ->. checks H. apply globals_ok in H as (Hs1 & Hs2 & Hp1 & Hp2). unfold repo_valid. simpl.
  split_and!; try done; [by eapply string_ok|by eapply string_ok| |];
    (eapply check_if_some; [apply word_ok|eassumption|]); set_solver.
Qed.

Lemma small_script_default d o : small_script (mjoin o) -> small_script d -> small_script (default d o).
Proof. by destruct o. Qed.

Lemma updated_repo_valid now u row : validate_update_repo u = Ok tt -> repo_valid row -> repo_valid (updated_repo now u row).
Proof.
  unfold validate_update_repo. intros H (V1 & V2 & V3 & V4 & V5 & V6). checks H. apply globals_ok in H as (Hs1 & Hs2 & Hp1 & Hp2).
  unfold repo_valid. simpl. split_and!; try (by apply small_script_default);
    (eapply check_if_some; [intros a Ha; first [by eapply string_ok in Ha|by eapply word_ok in Ha]|eassumption|done]).
Qed.

Lemma created_stage_valid id now repo b : validate_create_stage b = Ok tt -> stage_valid (new_stage id now repo b).
Proof.
  unfold validate_create_stage. intros H. checks H. apply resources_ok in H as (?&?&?&?). unfold stage_valid. simpl.
  split_and!; try lia; [by eapply string_ok..|by eapply word_ok].
Qed.

Lemma default_between lo hi x d (o : option Z) : lo <= default x o <= hi -> lo <= d <= hi -> lo <= default d o <= hi.
Proof. by destruct o. Qed.

Lemma updated_stage_valid now u s : validate_update_stage u = Ok tt -> stage_valid s -> stage_valid (updated_stage now u s).
Proof.
  unfold validate_update_stage. intros H (V1 & V2 & V3 & V4 & V5 & V6). checks H. apply resources_ok in H as (?&?&?&?).
  unfold stage_valid. simpl. split; [|split; [|split_and!; by eapply default_between]];
    (eapply check_if_some; [intros a Ha; first [by eapply string_ok in Ha|by eapply word_ok in Ha]|eassumption|done]).
Qed.

Lemma updated_script_valid now u row : validate_update_script u = Ok tt -> script_valid row -> script_valid (updated_script now u row).
Proof.
  unfold validate_update_script. intros H (V1 & V2 & V3). checks H. unfold script_valid. simpl. split_and!;
    (eapply check_if_some; [intros a Ha; first [by eapply script_text_ok in Ha|by eapply word_ok in Ha]|eassumption|done]).
Qed.

(** ** Every handler keeps them *)

Section Steps.
Context `{HI : HashIter} (rfc3339 : timestamp -> string) (uuid_to_string : Uuid -> string).

(** A request that changes the tables, and the row of a build that appears or
    goes in between is in the [Builds] the deletions are given. *)
Inductive catalog_step : Catalog -> Catalog -> Prop :=
| step_create_repo ok id now auth b cat cat' :
    (create_repo_handler rfc3339 uuid_to_string ok id now auth b (Some cat)).2 = Some cat' -> catalog_step cat cat'
| step_update_repo ok now auth id u cat cat' :
    (update_repo_handler rfc3339 uuid_to_string ok now auth id u (Some cat)).2 = Some cat' -> catalog_step cat cat'
| step_delete_repo ok auth id b cat cat' : (delete_repo_handler ok auth id b (Some cat)).2 = Some cat' -> catalog_step cat cat'
| step_create_stage ok id now auth repo b cat cat' :
    (create_stage rfc3339 uuid_to_string ok id now auth repo b (Some cat)).2 = Some cat' -> catalog_step cat cat'
| step_update_stage ok now auth repo stage u cat cat' :
    (update_stage rfc3339 uuid_to_string ok now auth repo stage u (Some cat)).2 = Some cat' -> catalog_step cat cat'
| step_delete_stage ok auth repo stage b cat cat' : (delete_stage ok auth repo stage b (Some cat)).2 = Some cat' -> catalog_step cat cat'
| step_create_script ok id now auth repo stage b cat cat' :
    (create_script rfc3339 uuid_to_string ok id now auth repo stage b (Some cat)).2 = Some cat' -> catalog_step cat cat'
| step_update_script ok now auth repo stage script u cat cat' :
    (update_script rfc3339 uuid_to_string ok now auth repo stage script u (Some cat)).2 = Some cat' -> catalog_step cat cat'
| step_delete_script ok auth repo stage script cat cat' : (delete_script ok auth repo stage script (Some cat)).2 = Some cat' -> catalog_step cat cat'.

Lemma filtered_rows {V : Type} (P : V -> Prop) (Q : Uuid * V -> Prop) `{!forall kv, Decision (Q kv)} (m : gmap Uuid V) :
  map_Forall (fun _ v => P v) m -> map_Forall (fun _ v => P v) (filter Q m).
Proof. intros Hm k v [Hk _]%map_lookup_filter_Some. by apply (Hm k). Qed.

Ltac statement H := apply guarded_statement in H as [->|(Hv & _ & ->)]; [done|].

Lemma catalog_step_ok cat cat' : catalog_step cat cat' -> catalog_ok cat -> catalog_ok cat'.
Proof.
  intros Hstep [Hs [V1 V2 V3]].
  assert (Hsame : catalog_ok cat) by (split; [done|by split]).
  destruct Hstep as [ok id now auth b cat cat' H|ok now auth id u cat cat' H|ok auth id b cat cat' H|ok id now auth repo b cat cat' H
    |ok now auth repo stage u cat cat' H|ok auth repo stage b cat cat' H|ok id now auth repo stage b cat cat' H
    |ok now auth repo stage script u cat cat' H|ok auth repo stage script cat cat' H]; statement H.
  - unfold create_repo. destruct (bool_decide _); [done|]. destruct (write_repo _ _) as [m|e] eqn:E; [|done]. simpl.
    split; [by eapply write_repo_ok|]. apply write_repo_inv in E as [-> _]. split; try done. simpl.
    apply map_Forall_insert_2; [by eapply created_repo_valid|done].
  - unfold update_repo. destruct (repos_table cat !! id) as [row|] eqn:Er; [|done]. destruct (write_repo _ _) as [m|e] eqn:E; [|done]. simpl.
    split; [by eapply write_repo_ok|]. apply write_repo_inv in E as [-> _]. split; try done. simpl.
    apply map_Forall_insert_2; [apply updated_repo_valid; [done|by eapply V1]|done].
  - split; [by eapply delete_repo_ok, surjective_pairing|]. unfold delete_repo. destruct (repos_table cat !! id); [|done].
    destruct (repo_in_use _ _ _); [done|]. split; simpl; [by apply map_Forall_delete|by apply filtered_rows|by apply filtered_rows].
  - unfold create_stage_config. destruct (bool_decide _); [done|]. destruct (write_stage _ _) as [t|e] eqn:E; [|done]. simpl.
    split; [by eapply write_stage_ok|]. apply write_stage_inv in E as (-> & _ & _). split; try done. simpl.
    apply map_Forall_insert_2; [by apply created_stage_valid|done].
  - unfold update_stage_config. destruct (stages_table cat !! stage) as [s|] eqn:Er; [|done].
    destruct (write_stage _ _) as [t|e] eqn:E; [|done]. simpl.
    split; [by eapply write_stage_ok|]. apply write_stage_inv in E as (-> & _ & _). split; try done. simpl.
    apply map_Forall_insert_2; [apply updated_stage_valid; [done|by eapply V2]|done].
  - split; [by eapply delete_stage_config_ok, surjective_pairing|]. unfold delete_stage_config. destruct (stages_table cat !! stage); [|done].
    destruct (stage_in_use _ _); [done|]. split; simpl; [done|by apply map_Forall_delete|by apply filtered_rows].
  - unfold create_stage_script. destruct (bool_decide _); [done|]. destruct (write_script _ _) as [t|e] eqn:E; [|done]. simpl.
    split; [by eapply write_script_ok|]. apply write_script_inv in E as (-> & _ & _ & Ht & Hc). split; try done. simpl.
    apply map_Forall_insert_2; [|done]. split_and!; [done|done|]. unfold validate_create_script in Hv. checks Hv. by apply script_text_ok.
  - unfold update_stage_script. destruct (scripts_table cat !! script) as [row|] eqn:Er; [|done].
    destruct (write_script _ _) as [t|e] eqn:E; [|done]. simpl.
    split; [by eapply write_script_ok|]. apply write_script_inv in E as (-> & _). split; try done. simpl.
    apply map_Forall_insert_2; [apply updated_script_valid; [done|by eapply V3]|done].
  - split; [by apply delete_stage_script_ok|]. split; simpl; [done|done|by apply map_Forall_delete].
Qed.
End Steps.

Lemma catalog_reached `{HI : HashIter} rfc3339 uuid_to_string cat : rtc (catalog_step rfc3339 uuid_to_string) empty_catalog cat -> catalog_ok cat.
Proof.
  intros Hsteps. apply (rtc_ind_r (fun c => catalog_ok c)) in Hsteps; [done|apply empty_catalog_ok|].
  intros c c' _ Hstep Hok. by apply (catalog_step_ok rfc3339 uuid_to_string c).
Qed.

(** C34. However requests to create, change and delete repos, stages and scripts
    follow one another, whoever makes them and whether or not the database
    answers, the catalog keeps its constraints (unique names, one script of a
    kind per stage and worker, no stage without its repo, no script without its
    stage) and every row is valid: names and texts within their lengths, known
    scopes, types and command modes, and needs that stay within 1024 cores,
    1 TiB of memory, 10 TiB of disk and a day. *)
Theorem catalog_stays_valid `{HI : HashIter} (rfc3339 : timestamp -> string) (uuid_to_string : Uuid -> string) (cat : Catalog) :
  rtc (catalog_step rfc3339 uuid_to_string) empty_catalog cat -> catalog_ok cat.
Proof. apply catalog_reached. Qed.

(** ** A catalog *)

Definition editor : AuthUser := {| au_user_id := 1%N; au_username := "root"; au_role := SuperAdmin |}.

Definition chola_repo : CreateRepoRequest := {|
  cr_repo_name := "chola"; cr_repo_url := "https://git/chola"; cr_default_branch := None; cr_global_pre_script := Some "setup.sh"%string;
  cr_global_pre_script_scope := None; cr_global_post_script := None; cr_global_post_script_scope := None |}.

Definition named_stage (name : string) (command : option string) (mode : string) (deps : list string) : CreateStageRequest := {|
  cs_stage_name := name; cs_command := command; cs_required_cpu := 4; cs_required_memory_mb := default_memory_mb;
  cs_required_disk_mb := default_disk_mb; cs_max_duration_secs := default_max_duration; cs_execution_order := 0;
  cs_parallel_group := None; cs_allow_worker_migration := false; cs_job_type := default_job_type; cs_depends_on := deps;
  cs_required_labels := []; cs_command_mode := mode |}.

Definition pre_of (worker : option string) (text : string) : CreateScriptRequest := {|
  cp_script_type := "pre"; cp_script_scope := "worker"; cp_script := text; cp_worker_id := worker; cp_lock_enabled := false;
  cp_lock_key := None; cp_lock_timeout_secs := default_lock_timeout |}.

Definition plain_date (_ : timestamp) : string := "".
Definition plain_id (u : Uuid) : string := pretty.pretty u.

(** The tables after a reply. *)
Definition tables_of (r : Reply Catalog) : Catalog := default empty_catalog r.2.

Definition with_repo : Catalog := tables_of (create_repo_handler plain_date plain_id true 1%N 0 editor chola_repo (Some empty_catalog)).
Definition with_build : Catalog :=
  tables_of (create_stage plain_date plain_id true 2%N 1 editor 1%N (named_stage "build" (Some "make"%string) "fixed" []) (Some with_repo)).
Definition with_script : Catalog :=
  tables_of (create_script plain_date plain_id true 3%N 2 editor 1%N 2%N (pre_of None "all.sh") (Some with_build)).
Definition with_own_script : Catalog :=
  tables_of (create_script plain_date plain_id true 4%N 3 editor 1%N 2%N (pre_of (Some "w"%string) "own.sh") (Some with_script)).

Lemma own_script_reached : rtc (catalog_step plain_date plain_id) empty_catalog with_own_script.
Proof.
  eapply rtc_l; [by eapply (step_create_repo plain_date plain_id true 1%N 0 editor chola_repo empty_catalog with_repo)|].
  eapply rtc_l; [by eapply (step_create_stage plain_date plain_id true 2%N 1 editor 1%N (named_stage "build" (Some "make"%string) "fixed" []) with_repo with_build)|].
  eapply rtc_l; [by eapply (step_create_script plain_date plain_id true 3%N 2 editor 1%N 2%N (pre_of None "all.sh") with_build with_script)|].
  eapply rtc_once. by eapply (step_create_script plain_date plain_id true 4%N 3 editor 1%N 2%N (pre_of (Some "w"%string) "own.sh") with_script with_own_script).
Qed.

Lemma catalog_stays_valid_witness :
  size (scripts_table with_own_script) = 2%nat /\
  map_Forall (fun _ s => 0 <= sc_required_cpu s <= 1024) (stages_table with_own_script).
Proof.
  split; [vm_compute; reflexivity|].
  destruct (catalog_stays_valid (HI := map_iter) plain_date plain_id with_own_script own_script_reached) as [_ [_ V _]].
  apply (map_Forall_impl _ _ _ V). intros _ s (_ & _ & H & _). exact H.
Defined.

(** A worker's own script comes before the one for all. *)
Example own_script_wins :
  let scripts w := (fun row => ss_script (sr_script row)) <$> get_scripts_for_stage (HI := map_iter) (CO := byte_collation) 2%N w with_own_script in
  (scripts (Some "w"), scripts (Some "v"), scripts None)%string = (["own.sh"], ["all.sh"], ["all.sh"])%string.
Proof. vm_compute. reflexivity. Qed.

(** ** What requests cannot say *)

(** A null in a request to change a repo does not clear the column: it is read as
    a field that is not there. *)
Lemma null_keeps_global_script j u now row : jget "global_pre_script" j = Some Null -> update_repo_request j = Some u ->
  global_pre_script (rp_repo (updated_repo now u row)) = global_pre_script (rp_repo row).
Proof.
  intros Hj. unfold update_repo_request. rewrite (null_is_absent j _ Hj).
  repeat match goal with |- context [mbind _ ?o] => destruct o; cbn [mbind option_bind]; [|discriminate] end.
  intros [= <-]. done.
Qed.

(** Nor is there a request that clears the command of a stage, or its parallel
    group; but a change of mode alone leaves a fixed stage without a command,
    which no submission of it survives. *)
Example fixed_without_command :
  let cat := tables_of (create_stage plain_date plain_id true 2%N 1 editor 1%N (named_stage "deploy" None "required" []) (Some with_repo)) in
  let change := {| us_stage_name := None; us_command := None; us_required_cpu := None; us_required_memory_mb := None;
    us_required_disk_mb := None; us_max_duration_secs := None; us_execution_order := None; us_parallel_group := None;
    us_allow_worker_migration := None; us_job_type := None; us_depends_on := None; us_required_labels := None;
    us_command_mode := Some "fixed"%string |} in
  let '(r, st) := update_stage plain_date plain_id true 2 editor 9%N 2%N change (Some cat) in
  is_ok r = true /\
  (fun s => resolve_command (Some s) {| sq_job_group_id := ""; sq_job_id := ""; sq_stage_name := "deploy"; sq_command_override := "make";
                                        sq_environment := ∅ |}) <$> get_stage_config 2%N (default empty_catalog st)
  = Some (Err (invalid_argument "Stage has no configured command")).
Proof. vm_compute. split; reflexivity. Qed.
