(* ===== verification/Configured.v ===== *)
(** * Builds and their configuration

    The answers that [do_submit_stage] and [do_reserve_worker] get from the
    database (crates/ci-controller/src/grpc_server.rs), taken from the tables of
    [Catalog], [Rules] and [Variables] by the queries the handlers make: what a
    submitted stage runs, what the rules keep from running, and how much a
    reservation may ask for. *)

From Stdlib Require Import ZArith Lia.
From stdpp Require Import gmap strings list fin_maps relations.
From S2P Require Import Prelude Text F64 WorkerModel JobModel StageModel Dag Scheduler WorkerRegistry JobRegistry JobGroupRegistry.
From S2P Require Import LogAggregator QueryParser QueryCompile Sql Controller Dispatch Reservation Session Json Web Handlers WorkerStore BuildStore.
From S2P Require Import Catalog Rules Variables Listing CatalogApi.

Record Configuration := {
  cf_catalog : Catalog;
  cf_rules : Rules;
  cf_variables : gmap Uuid VariableRow;
  cf_key : option string
}.

Section Answers.
Context `{HI : HashIter} `{CO : Collation} `{CR : Crypto}.

(** The queries of [do_submit_stage], of a group with a repo. *)
Definition submit_answers (cf : Configuration) (repo : Uuid) (stage worker_id : string) : SubmitAnswers :=
  let cat := cf_catalog cf in
  let config := get_stage_config_by_name repo stage cat in {|
  sa_dependencies := Ok (get_stage_dependencies repo cat);
  sa_stage_config := Ok config;
  sa_command_blacklist := Ok (get_active_command_blacklist repo (sc_id <$> config) (cf_rules cf));
  sa_variables := Ok (variable_of <$> list_variables_for_repo (cf_key cf) repo (cf_variables cf));
  sa_scripts := Ok (match config with Some s => sr_script <$> get_scripts_for_stage (sc_id s) (Some worker_id) cat | None => [] end);
  sa_repo := Ok (rp_repo <$> get_repo repo cat);
  sa_repo_again := Ok (rp_repo <$> get_repo repo cat) |}.

(** The queries of [compute_resource_needs]: the repo by its name, and its stages. *)
Definition asked_of_catalog (cat : Catalog) (req : ReserveWorkerRequest) (db : Answers) : Prop :=
  needs_repo db = Ok (rp_repo <$> get_repo_by_name (rq_repo_name req) cat) /\
  forall row, get_repo_by_name (rq_repo_name req) cat = Some row ->
    needs_configs db = Ok (get_stage_configs_for_repo (repo_id (rp_repo row)) cat).

(** ** The scripts *)

Lemma list_find_head {A : Type} (P : A -> Prop) `{!forall a, Decision (P a)} (l : list A) : snd <$> list_find P l = head (filter P l).
Proof.
  induction l as [|a l IH]; [done|]. simpl. rewrite filter_cons. destruct (decide (P a)); [done|]. rewrite <- IH.
  by destruct (list_find P l) as [[i x]|].
Qed.

Lemma worker_script_head kind (rows : list ScriptRow) :
  worker_script kind (sr_script <$> rows) = sr_script <$> head (filter (fun row => script_key row = (kind, "worker"%string)) rows).
Proof.
  unfold worker_script. rewrite list_find_head. induction rows as [|row rows IH]; [done|]. rewrite fmap_cons, !filter_cons.
  destruct (decide (script_key row = _)) as [[= E1 E2]|Hne]; [by rewrite decide_True|].
  rewrite decide_False; [done|]. intros [E1 E2]. apply Hne. unfold script_key. by rewrite E1, E2.
Qed.

(** The text of a stage's script of a kind for a worker: the worker's own if it
    has one, else one for all, else none. *)
Definition script_for (kind : string) (stage : Uuid) (wid : string) (cat : Catalog) (text : string) : Prop :=
  (exists row, offered stage wid (kind, "worker"%string) cat row /\ text = ss_script (sr_script row) /\
     (sr_worker_id row = None -> forall row', offered stage wid (kind, "worker"%string) cat row' -> sr_worker_id row' = None)) \/
  ((forall row, ~ offered stage wid (kind, "worker"%string) cat row) /\ text = EmptyString).

Lemma chosen_script kind stage wid cat :
  script_for kind stage wid cat (script_of (worker_script kind (sr_script <$> get_scripts_for_stage stage (Some wid) cat))).
Proof.
  rewrite worker_script_head. pose proof (scripts_for_worker stage wid (kind, "worker"%string) cat) as H. cbv zeta in H.
  destruct (head _) as [row|]; simpl; [left|right; done]. destruct H as [Ho Hown]. by exists row.
Qed.

(** ** The variables *)

Lemma or_insert_ne {V : Type} (k k' : string) (v : V) m : k' <> k -> or_insert k' v m !! k = m !! k.
Proof. intros Hne. unfold or_insert. destruct (m !! k'); [done|]. by rewrite lookup_insert_ne. Qed.

Lemma add_variables_cons v vars env : add_variables (v :: vars) env = add_variables vars (or_insert (pv_name v) (pv_value v) env).
Proof. done. Qed.

Lemma add_variables_keeps vars name x : forall env, env !! name = Some x -> add_variables vars env !! name = Some x.
Proof.
  induction vars as [|v vars IH]; intros env Henv; [done|]. rewrite add_variables_cons. apply IH.
  destruct (decide (pv_name v = name)) as [<-|Hne]; [|by rewrite or_insert_ne]. unfold or_insert. by rewrite Henv.
Qed.

(** A name on whose value the variables agree is set to it, unless it is there
    already. *)
Lemma add_variables_lookup vars v : forall env,
  v ∈ vars -> (forall w, w ∈ vars -> pv_name w = pv_name v -> pv_value w = pv_value v) ->
  add_variables vars env !! pv_name v = Some (default (pv_value v) (env !! pv_name v)).
Proof.
  induction vars as [|w vars IH]; intros env Hin Huniq; [by apply not_elem_of_nil in Hin|]. rewrite add_variables_cons.
  assert (Hhere : pv_name w = pv_name v -> or_insert (pv_name w) (pv_value w) env !! pv_name v = Some (default (pv_value v) (env !! pv_name v))).
  { intros E. rewrite E, (Huniq w ltac:(left) E). unfold or_insert. destruct (env !! pv_name v) eqn:Ee; [by rewrite Ee|]. by rewrite lookup_insert_eq. }
  apply elem_of_cons in Hin as [->|Hin]; [by apply add_variables_keeps, Hhere|].
  rewrite IH; [|done|intros u Hu; apply Huniq; by right]. f_equal.
  destruct (decide (pv_name w = pv_name v)) as [E|Hne]; [by rewrite (Hhere E)|]. by rewrite or_insert_ne.
Qed.
End Answers.

(** ** What a submitted stage runs *)

(** The names that the controller sets itself. *)
Definition context_names : list string := ["JOB_GROUP_ID"; "STAGE_NAME"; "COMMIT_SHA"; "BRANCH"; "REPO_URL"; "REPO_NAME"].

Lemma add_context_other uuid_to_string db req r gid env name : name ∉ context_names -> add_context uuid_to_string db req r gid env !! name = env !! name.
Proof.
  intros Hn. assert (Hne : forall k, k ∈ context_names -> k <> name) by (intros k Hk ->; done).
  unfold add_context, insert_opt. destruct db as [a|]; [destruct (sa_repo_again a) as [[]|]|];
    (destruct (get_group gid r) as [g|]; [destruct (g_branch g), (g_commit_sha g)|]);
    rewrite ?lookup_insert_ne by (apply Hne; unfold context_names; set_solver); done.
Qed.

(** The pattern of an active rule that applies does not match. *)
Definition allowed `{HI : HashIter} (regex_match : string -> string -> option bool) (rules : Rules) (repo stage : Uuid) (command : string) : Prop :=
  forall id row, command_rules rules !! id = Some row -> applies repo (Some stage) row = true -> regex_match (cb_pattern row) command <> Some true.

Lemma check_command_ok regex_match a patterns command : sa_command_blacklist a = Ok patterns ->
  check_command regex_match (Some a) command = Ok tt -> forall p, p ∈ patterns -> regex_match p command <> Some true.
Proof.
  unfold check_command. intros ->. simpl. destruct (list_find _ patterns) as [[i p]|] eqn:E; [done|]. intros _ p Hp.
  apply list_find_None in E. rewrite Forall_forall in E. by apply E.
Qed.

Lemma with_global_pre_text repo first pre lock pre' lock' : with_global_pre repo first pre lock = (pre', lock') ->
  pre' = pre \/ exists r body, repo = Some r /\ global_pre_script r = Some body /\ pre' = prepend_global_pre_script body pre.
Proof.
  unfold with_global_pre. destruct repo as [r|]; [|intros [= <- _]; by left]. destruct (global_pre_script r) as [body|] eqn:E; [|intros [= <- _]; by left].
  destruct (_ && _); intros [= <- _]; [right|by left]. by exists r, body.
Qed.

Section Submitted.
Context `{HI : HashIter} `{CO : Collation} `{CR : Crypto}.
Context (regex_match : string -> string -> option bool) (uuid_to_string : Uuid -> string)
  (parse_str : string -> result Uuid string) (debug_list : list string -> string).
Context (cf : Configuration) (req : SubmitStageRequest) (seen : nat -> JobGroupRegistry) (gid repo sid : Uuid) (g : JobGroup)
  (wid : string) (s : StageConfig).
Context (Hschema : schema_ok (cf_catalog cf)) (Hgid : parse_str (sq_job_group_id req) = Ok gid)
  (Hg : get_group gid (seen 0%nat) = Some g) (Hrepo : g_repo_id g = Some repo) (Hwid : g_reserved_worker_id g = Some wid)
  (Hs : stages_table (cf_catalog cf) !! sid = Some s) (Hsr : sc_repo_id s = repo) (Hsn : sc_stage_name s = sq_stage_name req).

Let answers := submit_answers cf repo (sq_stage_name req) wid.

(** Everything that the plan takes from the tables. *)
Lemma planned p : prepare_stage regex_match uuid_to_string parse_str debug_list (Some answers) req seen = Ok p ->
  st_worker p = wid /\ st_config p = Some s /\ resolve_command (Some s) req = Ok (st_command p) /\
  check_command regex_match (Some answers) (st_command p) = Ok tt /\
  st_env p = add_context uuid_to_string (Some answers) req (seen 4%nat) gid
    (add_variables (variable_of <$> list_variables_for_repo (cf_key cf) repo (cf_variables cf)) (sq_environment req)) /\
  st_secrets p = secret_names (variable_of <$> list_variables_for_repo (cf_key cf) repo (cf_variables cf)) /\
  script_for "post" sid wid (cf_catalog cf) (st_post p) /\
  exists pre, script_for "pre" sid wid (cf_catalog cf) pre /\
    (st_pre p = pre \/ exists row body, get_repo repo (cf_catalog cf) = Some row /\ global_pre_script (rp_repo row) = Some body /\
       st_pre p = prepend_global_pre_script body pre).
Proof.
  assert (Hconfig : get_stage_config_by_name repo (sq_stage_name req) (cf_catalog cf) = Some s)
    by (apply get_stage_config_by_name_spec; [done|]; by exists sid).
  assert (Hsid : sc_id s = sid) by (by apply (so_stage_ids _ Hschema sid s)).
  unfold prepare_stage. rewrite Hgid. unfold find_group at 1. rewrite Hg, Hwid. cbn [rbind]. rewrite Hrepo. cbn [repo_storage].
  destruct (check_dependencies _ _ _ _ _) as [[]|]; [|done]. cbn [rbind]. destruct (check_not_submitted _ _ _ _) as [[]|]; [|done]. cbn [rbind].
  cbn [answers submit_answers sa_stage_config sa_variables sa_scripts sa_repo]. rewrite Hconfig. cbn [unwrap_or].
  destruct (resolve_command (Some s) req) as [cmd|] eqn:Hc; [|done]. cbn [rbind]. destruct (check_command _ _ _) as [[]|] eqn:Hk; [|done]. cbn [rbind].
  destruct (with_global_pre _ _ _ _) as [pre lock] eqn:Ew. intros [= <-].
  cbn [st_worker st_config st_command st_env st_secrets st_post st_pre]. rewrite Hsid in *.
  split_and!; try done; [apply chosen_script|].
  eexists. split; [apply chosen_script|]. apply with_global_pre_text in Ew as [->|(row & body & Er & Eb & ->)]; [by left|right].
  apply fmap_Some in Er as (rrow & Er & ->). by exists rrow, body.
Qed.
End Submitted.

Lemma elem_of_variables `{HI : HashIter} `{CO : Collation} `{CR : Crypto} key repo (t : gmap Uuid VariableRow) v :
  v ∈ variable_of <$> list_variables_for_repo key repo t <->
  exists id row, t !! id = Some row /\ vr_repo_id row = repo /\ v = variable_of (read_row key row).
Proof.
  unfold list_variables_for_repo. rewrite list_elem_of_fmap. setoid_rewrite list_elem_of_fmap. setoid_rewrite elem_of_sort_by.
  setoid_rewrite hvalues_filter. naive_solver.
Qed.

(** C31. A stage runs as it is configured. When a stage of a group's repo is
    submitted with the answers of the tables, and is not refused, then it is the
    configured one; its command is the configured one, whatever the request says,
    if the stage is fixed; no active rule of the repo, of the stage or of
    everything matches the command; the script before it is the worker's own, or
    else the stage's for all workers, behind the repo's global script if that is
    due, and the script after it is found likewise; and every variable of the repo
    is in its environment with its plaintext, unless the request or the controller
    sets that name, and is listed as a secret if it is one. *)
Theorem stage_runs_as_configured `{HI : HashIter} `{CO : Collation} `{CR : Crypto}
    (regex_match : string -> string -> option bool) (uuid_to_string : Uuid -> string)
    (parse_str : string -> result Uuid string) (debug_list : list string -> string)
    (cf : Configuration) (req : SubmitStageRequest) (seen : nat -> JobGroupRegistry) (gid repo sid : Uuid) (g : JobGroup)
    (wid : string) (s : StageConfig) (p : stage_plan) :
  schema_ok (cf_catalog cf) -> variables_apart (cf_variables cf) ->
  parse_str (sq_job_group_id req) = Ok gid -> get_group gid (seen 0%nat) = Some g -> g_repo_id g = Some repo ->
  g_reserved_worker_id g = Some wid -> stages_table (cf_catalog cf) !! sid = Some s -> sc_repo_id s = repo ->
  sc_stage_name s = sq_stage_name req ->
  prepare_stage regex_match uuid_to_string parse_str debug_list (Some (submit_answers cf repo (sq_stage_name req) wid)) req seen = Ok p ->
  st_config p = Some s /\
  (sc_command_mode s = "fixed"%string -> sc_command s = Some (st_command p)) /\
  allowed regex_match (cf_rules cf) repo sid (st_command p) /\
  (exists pre, script_for "pre" sid wid (cf_catalog cf) pre /\
    (st_pre p = pre \/ exists row body, get_repo repo (cf_catalog cf) = Some row /\ global_pre_script (rp_repo row) = Some body /\
       st_pre p = prepend_global_pre_script body pre)) /\
  script_for "post" sid wid (cf_catalog cf) (st_post p) /\
  (forall id row, cf_variables cf !! id = Some row -> vr_repo_id row = repo ->
     (vr_name row ∉ context_names ->
      st_env p !! vr_name row = Some (default (maybe_decrypt (cf_key cf) (vr_value row) (vr_is_secret row)) (sq_environment req !! vr_name row))) /\
     (vr_is_secret row = true -> vr_name row ∈ st_secrets p)).
Proof.
  intros Hschema [_ Hapart] Hgid Hg Hrepo Hwid Hs Hsr Hsn Hp.
  destruct (planned regex_match uuid_to_string parse_str debug_list cf req seen gid repo sid g wid s Hschema Hgid Hg Hrepo Hwid Hs Hsr Hsn p Hp)
    as (_ & Hc & Hcmd & Hk & Henv & Hsec & Hpost & Hpre).
  assert (Hsid : sc_id s = sid) by (by apply (so_stage_ids _ Hschema sid s)).
  split_and!; [done| | |done|done|].
  - intros Hfixed. unfold resolve_command in Hcmd. rewrite Hfixed in Hcmd. simpl in Hcmd. destruct (sc_command s); [|done]. congruence.
  - intros id row Hrow Ha.
    assert (Hconfig : get_stage_config_by_name repo (sq_stage_name req) (cf_catalog cf) = Some s)
      by (apply get_stage_config_by_name_spec; [done|]; by exists sid).
    assert (Hpats : sa_command_blacklist (submit_answers cf repo (sq_stage_name req) wid) =
      Ok (get_active_command_blacklist repo (Some sid) (cf_rules cf))) by (simpl; by rewrite Hconfig, <- Hsid).
    refine (check_command_ok regex_match _ _ (st_command p) Hpats Hk (cb_pattern row) _).
    apply (elem_of_active_commands repo (Some sid)). by exists id, row.
  - intros id row Hrow Hr. set (v := variable_of (read_row (cf_key cf) row)).
    assert (Hin : v ∈ variable_of <$> list_variables_for_repo (cf_key cf) repo (cf_variables cf)) by (apply elem_of_variables; eauto).
    split.
    + intros Hn. rewrite Henv, add_context_other by done. change (vr_name row) with (pv_name v). rewrite add_variables_lookup; [done|done|].
      intros w (j & row' & Hrow' & Hr' & ->)%elem_of_variables Hname. simpl in Hname.
      assert (j = id) as -> by (apply (Hapart j id row' row Hrow' Hrow); split; [congruence|exact Hname]). by assert (row' = row) as -> by congruence.
    + intros Hsecret. rewrite Hsec. unfold secret_names. apply list_elem_of_fmap. exists v. split; [done|]. by apply list_elem_of_filter.
Qed.

(** C32. A rule that was accepted keeps its promise. After [create_command_handler]
    replied with success, and as long as the rule stays as it was accepted, a
    submission is refused with an error and changes nothing, when its group has
    a repo and a worker, its stage is one of the repo's in a catalog that keeps
    the constraints of its schema, the rule is for all repos or this one and for
    all stages or this one, the tables answer the submission's queries, and the
    rule's pattern matches the command that the submission resolves to. *)
Theorem accepted_rule_enforced `{HI : HashIter} `{CO : Collation} `{CR : Crypto}
    (regex_match : string -> string -> option bool) (regex_error : string -> option string) (parse_uuid : string -> option Uuid)
    (uuid_to_string : Uuid -> string) (parse_str : string -> result Uuid string) (uuid_v5 : string -> string)
    (to_rfc3339 : timestamp -> string) (debug_list : list string -> string)
    (ok : bool) (id : Uuid) (now : timestamp) (auth : AuthUser) (body reply : Json) (cat : Catalog) (rules rules' : Rules)
    (clk : clock) (cf : Configuration) (req : SubmitStageRequest) (seen : nat -> JobGroupRegistry) (c : Controller)
    (gid repo sid : Uuid) (g : JobGroup) (wid command pattern : string) (s : StageConfig) :
  create_command_handler uuid_to_string parse_uuid regex_error ok id now auth body cat (Some rules) = (Ok reply, Some rules') ->
  command_rules (cf_rules cf) !! id = command_rules rules' !! id ->
  text_of "pattern" body = Some pattern -> regex_match pattern command = Some true ->
  uuid_of parse_uuid "repo_id" body ∈ [None; Some repo] -> uuid_of parse_uuid "stage_config_id" body ∈ [None; Some sid] ->
  schema_ok (cf_catalog cf) -> parse_str (sq_job_group_id req) = Ok gid -> get_group gid (seen 0%nat) = Some g ->
  g_repo_id g = Some repo -> g_reserved_worker_id g = Some wid -> stages_table (cf_catalog cf) !! sid = Some s ->
  sc_repo_id s = repo -> sc_stage_name s = sq_stage_name req -> resolve_command (Some s) req = Ok command ->
  exists e, do_submit_stage regex_match uuid_to_string parse_str uuid_v5 to_rfc3339 debug_list clk
              (Some (submit_answers cf repo (sq_stage_name req) wid)) req seen c = (Err e, c).
Proof.
  intros Hcreate Hkept Hpat Hmatch Hr Hst Hschema Hgid Hg Hrepo Hwid Hs Hsr Hsn Hcmd. unfold do_submit_stage.
  destruct (prepare_stage _ _ _ _ _ _ _) as [p|e] eqn:Hp; [exfalso|by exists e].
  destruct (planned regex_match uuid_to_string parse_str debug_list cf req seen gid repo sid g wid s Hschema Hgid Hg Hrepo Hwid Hs Hsr Hsn p Hp)
    as (_ & _ & Hcmd' & Hk & _). 
  assert (st_command p = command) as Ec by congruence. rewrite Ec in Hk.
  assert (Hrow : exists row, command_rules rules' !! id = Some row /\ applies repo (Some sid) row = true /\ cb_pattern row = pattern).
  { revert Hcreate. unfold create_command_handler, guarded, answered. destruct (can_manage_repos _); [|done]. simpl.
    destruct (checked_pattern _ _) as [[]|]; [|done]. destruct ok; [|done]. unfold create_command_blacklist.
    destruct (bool_decide (is_Some _)); [done|]. destruct (negb _); [done|]. intros [= _ <-]. simpl. rewrite lookup_insert_eq.
    eexists. split; [done|]. rewrite Hpat. split; [|done]. unfold applies. simpl.
    apply elem_of_cons in Hr as [Er|Er%list_elem_of_singleton]; apply elem_of_cons in Hst as [Es|Es%list_elem_of_singleton]; rewrite Er, Es;
      rewrite ?bool_decide_true by done; done. }
  destruct Hrow as (row & Hrow & Ha & <-). rewrite <- Hkept in Hrow.
  assert (Hconfig : get_stage_config_by_name repo (sq_stage_name req) (cf_catalog cf) = Some s)
    by (apply get_stage_config_by_name_spec; [done|]; by exists sid).
  assert (Hpats : sa_command_blacklist (submit_answers cf repo (sq_stage_name req) wid) =
    Ok (get_active_command_blacklist repo (Some sid) (cf_rules cf)))
    by (simpl; rewrite Hconfig; simpl; by rewrite (so_stage_ids _ Hschema sid s Hs)).
  refine (check_command_ok regex_match _ _ command Hpats Hk (cb_pattern row) _ Hmatch).
  apply (elem_of_active_commands repo (Some sid)). by exists id, row.
Qed.

(** ** What a reservation asks for *)

Lemma max_of_le f bound l : 0 <= bound -> (forall s, s ∈ l -> f s <= bound) -> max_of f l <= bound.
Proof.
  intros Hb. induction l as [|s l IH]; intros Hl; [done|]. unfold max_of in *. simpl. pose proof (Hl s ltac:(left)).
  specialize (IH ltac:(intros; apply Hl; by right)). lia.
Qed.

Lemma max_of_covers f s l : s ∈ l -> f s <= max_of f l.
Proof. induction l as [|x l IH]; [intros H%not_elem_of_nil; done|]. intros [->|H]%elem_of_cons; unfold max_of in *; simpl; [lia|specialize (IH H); lia]. Qed.

(** The counters of a worker leave room for the largest stage there can be. *)
Definition headroom (w : WorkerState) : Prop :=
  ws_allocated_cpu w + 1024 < 2 ^ 32 /\ ws_allocated_memory_mb w + 1048576 < 2 ^ 64 /\ ws_allocated_disk_mb w + 10485760 < 2 ^ 64.

Lemma needs_within `{HI : HashIter} `{CO : Collation} rfc3339 us (cat : Catalog) (req : ReserveWorkerRequest) (db : Answers) :
  rtc (catalog_step rfc3339 us) empty_catalog cat -> asked_of_catalog cat req db ->
  let n := compute_resource_needs (Some db) req in ar_cpu n <= 1024 /\ ar_memory_mb n <= 1048576 /\ ar_disk_mb n <= 10485760.
Proof.
  intros Hsteps [Hask Hconf]. cbv zeta. set (n := compute_resource_needs (Some db) req).
  destruct (catalog_reached rfc3339 us cat Hsteps) as [Hschema [_ Hvalid _]].
  unfold n, compute_resource_needs. rewrite Hask. destruct (get_repo_by_name _ cat) as [row|] eqn:Er; simpl; [|lia].
  rewrite (Hconf row eq_refl). cbn [unwrap_or].
  assert (Hin : forall s, s ∈ (if bool_decide (rq_stages req = []) then get_stage_configs_for_repo (repo_id (rp_repo row)) cat
      else filter (fun s => sc_stage_name s ∈ rq_stages req) (get_stage_configs_for_repo (repo_id (rp_repo row)) cat)) -> stage_valid s).
  { intros s Hs. assert (Hs' : s ∈ get_stage_configs_for_repo (repo_id (rp_repo row)) cat)
      by (destruct (bool_decide _); [done|by apply list_elem_of_filter in Hs as [_ Hs]]).
    apply elem_of_configs in Hs' as [_ [k Hk]]. by apply (Hvalid k). }
  split_and!; (apply max_of_le; [lia|]); intros s (_ & _ & ? & ? & ? & _)%Hin; lia.
Qed.

(** What a reservation charges comes from a valid catalog. The needs computed
    for a request over any catalog that the API can produce are at least those of
    each stage that is asked for (all of the repo's if none is named), never more
    than the API lets a stage ask for, and so they cannot overflow the counters of
    a worker: the condition under which the books of the controller stay in
    order. *)
Theorem needs_of_catalog `{HI : HashIter} `{CO : Collation} (rfc3339 : timestamp -> string) (us : Uuid -> string) (cat : Catalog)
    (req : ReserveWorkerRequest) (db : Answers) (c : Controller) :
  rtc (catalog_step rfc3339 us) empty_catalog cat -> asked_of_catalog cat req db ->
  map_Forall (fun _ w => worker_wf w /\ headroom w) (workers c) ->
  let n := compute_resource_needs (Some db) req in
  roomy n c /\ ar_cpu n <= 1024 /\ ar_memory_mb n <= 1048576 /\ ar_disk_mb n <= 10485760 /\
  forall row id s, get_repo_by_name (rq_repo_name req) cat = Some row -> stages_table cat !! id = Some s ->
    sc_repo_id s = repo_id (rp_repo row) -> (rq_stages req = [] \/ sc_stage_name s ∈ rq_stages req) ->
    sc_required_cpu s <= ar_cpu n /\ sc_required_memory_mb s <= ar_memory_mb n /\ sc_required_disk_mb s <= ar_disk_mb n.
Proof.
  intros Hsteps Hcat Hw. cbv zeta. set (n := compute_resource_needs (Some db) req).
  assert (Hb : ar_cpu n <= 1024 /\ ar_memory_mb n <= 1048576 /\ ar_disk_mb n <= 10485760) by (by apply (needs_within rfc3339 us cat)).
  destruct Hcat as [Hask Hconf]. split; [|split_and!; try apply Hb].
  - intros id w Hid. destruct (Hw id w Hid) as [Hwf (H1 & H2 & H3)]. split; [done|]. unfold needs_fit, no_overflow.
    pose proof (needs_nonneg (Some db) req) as Hpos. pose proof (Hpos CPU) as Hc. pose proof (Hpos MEM) as Hm. pose proof (Hpos DISK) as Hd.
    fold n in Hc, Hm, Hd. unfold amount in Hc, Hm, Hd. lia.
  - intros row id s Er Hs Hr Hasked. unfold n, compute_resource_needs. rewrite Hask, Er. simpl. rewrite (Hconf row Er). cbn [unwrap_or].
    assert (Hin : s ∈ (if bool_decide (rq_stages req = []) then get_stage_configs_for_repo (repo_id (rp_repo row)) cat
        else filter (fun s => sc_stage_name s ∈ rq_stages req) (get_stage_configs_for_repo (repo_id (rp_repo row)) cat))).
    { assert (s ∈ get_stage_configs_for_repo (repo_id (rp_repo row)) cat) by (apply elem_of_configs; eauto).
      case_bool_decide; [done|]. apply list_elem_of_filter. split; [|done]. by destruct Hasked. }
    split_and!; by apply max_of_covers.
Qed.

(** ** A configured build *)

Definition begins (pattern text : string) : option bool := Some (String.prefix pattern text).

Definition ban (pattern : string) : Json := Obj [("pattern", Str pattern); ("repo_id", Str "1")].

Definition first_repo (s : string) : option Uuid := if bool_decide (s = "1") then Some 1%N else None.

(** The reply to the request that bans a command, and the rules it leaves. *)
Definition banned (pattern : string) : Reply Rules :=
  create_command_handler plain_id first_repo (fun _ => None) true 6%N 4 editor (ban pattern) with_own_script
    (Some {| command_rules := ∅; branch_rules := ∅ |}).

Definition rules_of (r : Reply Rules) : Rules := default {| command_rules := ∅; branch_rules := ∅ |} r.2.

Definition configured (pattern : string) : Configuration := {|
  cf_catalog := with_own_script; cf_rules := rules_of (banned pattern);
  cf_variables := (run_ops (CR := toy_crypto) with_own_script (Some "key") secret_ops ∅).2; cf_key := Some "key" |}.

Definition answers_of (pattern : string) : SubmitAnswers :=
  submit_answers (HI := map_iter) (CO := byte_collation) (CR := toy_crypto) (configured pattern) 1%N "build" "w".

Definition planned_build (pattern : string) : result stage_plan Status :=
  prepare_stage begins (fun _ => "7") (fun _ => Ok 7%N) (fun _ => "") (Some (answers_of pattern)) build_request
    (fun _ => jgroups reserved_controller).

Definition build_stage : StageConfig := new_stage 2%N 1 1%N (named_stage "build" (Some "make") "fixed" []).

Lemma configured_schema pattern : schema_ok (cf_catalog (configured pattern)).
Proof. by destruct (catalog_reached (HI := map_iter) plain_date plain_id with_own_script own_script_reached). Qed.

Lemma single_apart pattern : variables_apart (cf_variables (configured pattern)).
Proof. apply run_ops_apart, empty_apart. Qed.

(** The request overrides the command, but the stage is fixed. *)
Lemma stage_runs_as_configured_witness :
  match planned_build "rm" with
  | Ok p => st_command p = "make" /\ st_env p !! "API_TOKEN" = Some "s3cret" /\ "API_TOKEN" ∈ st_secrets p
  | Err _ => False
  end.
Proof.
  destruct (planned_build "rm") as [p|e] eqn:Hp; [|vm_compute in Hp; discriminate Hp].
  destruct (stage_runs_as_configured (HI := map_iter) (CO := byte_collation) (CR := toy_crypto)
    begins (fun _ => "7") (fun _ => Ok 7%N) (fun _ => "") (configured "rm") build_request (fun _ => jgroups reserved_controller)
    7%N 1%N 2%N reserved_group "w" build_stage p (configured_schema _) (single_apart _)
    ltac:(reflexivity) ltac:(vm_compute; reflexivity) ltac:(reflexivity) ltac:(reflexivity) ltac:(vm_compute; reflexivity)
    ltac:(reflexivity) ltac:(reflexivity) Hp) as (_ & Hfixed & _ & _ & _ & Hvar).
  destruct (cf_variables (configured "rm") !! 5%N) as [row|] eqn:Hrow; [|vm_compute in Hrow; discriminate Hrow].
  destruct (Hvar 5%N row Hrow ltac:(vm_compute in Hrow; injection Hrow as <-; reflexivity)) as [Henv Hsec].
  split; [|split].
  - assert (Hc := Hfixed eq_refl). injection Hc as <-. reflexivity.
  - vm_compute in Hrow. injection Hrow as <-. cbn [vr_name vr_value vr_is_secret] in Henv.
    rewrite Henv by (apply (bool_decide_unpack _); vm_compute; exact I). vm_compute. reflexivity.
  - vm_compute in Hrow. injection Hrow as <-. exact (Hsec eq_refl).
Defined.

Lemma accepted_rule_enforced_witness :
  exists e, do_submit_stage begins (fun _ => "7") (fun _ => Ok 7%N) (fun s => s) (fun _ => "") (fun _ => "") (fun _ => 9)
    (Some (answers_of "mak")) build_request (fun _ => jgroups reserved_controller) reserved_controller = (Err e, reserved_controller).
Proof.
  destruct (banned "mak") as [r o] eqn:E. vm_compute in E. injection E as <- <-.
  eapply (accepted_rule_enforced (HI := map_iter) (CO := byte_collation) (CR := toy_crypto) begins (fun _ => None) first_repo
    plain_id (fun _ => Ok 7%N) (fun s => s) (fun _ => "") (fun _ => "") true 6%N 4 editor (ban "mak") _ with_own_script
    {| command_rules := ∅; branch_rules := ∅ |} (rules_of (banned "mak")) (fun _ => 9) (configured "mak") build_request
    (fun _ => jgroups reserved_controller) reserved_controller 7%N 1%N 2%N reserved_group "w" "make" "mak" build_stage);
    try reflexivity; [apply (bool_decide_unpack _); vm_compute; exact I..|apply configured_schema].
Defined.

Definition chola_request : ReserveWorkerRequest := {|
  rq_repo_name := "chola"; rq_repo_url := ""; rq_branch := "main"; rq_commit_sha := "c0ffee"; rq_stages := ["build"]; rq_priority := 0;
  rq_idempotency_key := "" |}.

Definition chola_answers : Answers := {|
  Reservation.get_repo_by_name := Ok (rp_repo <$> get_repo_by_name (HI := map_iter) "chola" with_own_script);
  get_stage_configs := Ok (get_stage_configs_for_repo (HI := map_iter) 1%N with_own_script); Reservation.get_stage_dependencies := Ok ∅;
  Reservation.find_by_idempotency_key := Ok None;
  needs_repo := Ok (rp_repo <$> get_repo_by_name (HI := map_iter) "chola" with_own_script);
  needs_configs := Ok (get_stage_configs_for_repo (HI := map_iter) 1%N with_own_script);
  branch_blacklist := Ok []; Reservation.count_active_groups := Ok 0; Reservation.find_superseded_groups := Ok []; recount_active_groups := Ok 0 |}.

Lemma needs_of_catalog_witness :
  roomy (compute_resource_needs (Some chola_answers) chola_request) reserved_controller /\
  4 <= ar_cpu (compute_resource_needs (Some chola_answers) chola_request) <= 1024.
Proof.
  destruct (needs_of_catalog (HI := map_iter) (CO := byte_collation) plain_date plain_id with_own_script chola_request chola_answers
    reserved_controller own_script_reached) as (Hroomy & Hcpu & _ & _ & Hstage).
  - split; [reflexivity|]. intros row Hrow. vm_compute in Hrow. injection Hrow as <-. reflexivity.
  - apply map_Forall_singleton. split; [apply sample_worker_wf|]. unfold headroom. vm_compute. done.
  - split; [exact Hroomy|]. split; [|exact Hcpu].
    destruct (get_repo_by_name (HI := map_iter) "chola" with_own_script) as [row|] eqn:Er; [|vm_compute in Er; discriminate Er].
    destruct (Hstage row 2%N build_stage) as (H & _ & _); [exact Er|vm_compute; reflexivity| |right; simpl; apply list_elem_of_singleton; reflexivity|exact H].
    vm_compute in Er. injection Er as <-. reflexivity.
Defined.
