(* ===== verification/Accounts.v ===== *)
(** * Accounts, sessions and API keys
    (crates/ci-controller/src/storage.rs: users, sessions, api_keys, audit_log;
    migrations 004 and 012; api/user_handlers.rs, api/auth_handlers.rs,
    api/api_key_handlers.rs, api/audit.rs, auth/password.rs, auth/jwt.rs, and the
    default administrator of main.rs)

    The tables are keyed maps with their constraints, as in [Catalog]: unique user
    names, session ids and key hashes, the CHECK on roles, and the cascades from a
    user to its sessions and keys. No statement writes [responded_by], the other
    column that refers to a user. Password hashing and signed tokens are
    interfaces with the laws that their crates document. *)

From Stdlib Require Import ZArith Lia.
From stdpp Require Import gmap strings list fin_maps sorting.
From S2P Require Import Prelude Text F64 WorkerModel JobModel StageModel Scheduler WorkerRegistry JobRegistry JobGroupRegistry.
From S2P Require Import LogAggregator QueryParser QueryCompile Sql Controller Session Json Web Handlers WorkerStore BuildStore Catalog Listing CatalogApi.

(** auth/password.rs: Argon2, with the salt that is drawn. *)
Class Passwords := {
  hash_password : string -> string -> result string string;
  verify_password : string -> string -> result bool string;
  verify_hashed : forall salt p h, hash_password salt p = Ok h -> verify_password p h = Ok true
}.

(** auth/jwt.rs: [jsonwebtoken] with its default header and validation: a token
    is base64 of a JSON object, a dot and more, and is accepted up to a minute
    after it expired. *)
Class Tokens := {
  encode_claims : string -> Claims -> result string string;
  decode_claims : Z -> string -> string -> result Claims string;
  encoded_shape : forall secret c t, encode_claims secret c = Ok t -> exists rest, t = ("ey" +:+ rest)%string;
  decode_encoded : forall secret c t now, encode_claims secret c = Ok t -> now <= cl_exp c + 60 -> decode_claims now secret t = Ok c;
  decoded_same : forall secret c t now c', encode_claims secret c = Ok t -> decode_claims now secret t = Ok c' -> c' = c
}.

(** ** Tables *)

Record SessionRow := {
  se_user_id : Uuid;
  se_token_jti : string;
  se_expires_at : timestamp;
  se_revoked : bool;
  se_created_at : timestamp
}.

Record KeyRow := {
  ky_id : Uuid;
  ky_user_id : Uuid;
  ky_key_hash : string;
  ky_name : string;
  ky_created_at : timestamp;
  ky_last_used_at : option timestamp;
  ky_revoked : bool
}.

Record AuditRow := {
  ad_id : Uuid;
  ad_user_id : option Uuid;
  ad_username : string;
  ad_action : string;
  ad_resource_type : option string;
  ad_resource_id : option string;
  ad_created_at : timestamp
}.

(** Sessions by their [token_jti]. *)
Record Accounts := {
  users_table : gmap Uuid User;
  sessions_table : gmap string SessionRow;
  keys_table : gmap Uuid KeyRow;
  audit_log : list AuditRow
}.

Definition empty_accounts : Accounts := {| users_table := ∅; sessions_table := ∅; keys_table := ∅; audit_log := [] |}.

Definition with_users (m : gmap Uuid User) (t : Accounts) : Accounts := {| t with users_table := m |}.
Definition with_sessions (m : gmap string SessionRow) (t : Accounts) : Accounts := {| t with sessions_table := m |}.
Definition with_keys (m : gmap Uuid KeyRow) (t : Accounts) : Accounts := {| t with keys_table := m |}.

(** ** users *)

(** The CHECK on the column. *)
Definition role_of (s : string) : option UserRole :=
  if bool_decide (as_db_str (from_db_str s) = s) then Some (from_db_str s) else None.

Definition user_clash (row old : User) : bool := bool_decide (u_username old = u_username row) && negb (bool_decide (u_id old = u_id row)).

Definition write_user (row : User) (t : Accounts) : result Accounts string :=
  if negb (fits 100 (u_username row) && opt_fits 255 (u_display_name row)) then Err "value too long"
  else if map_any (user_clash row) (users_table t) then Err "duplicate key"
  else Ok (with_users (<[u_id row := row]> (users_table t)) t).

Definition create_user (id : Uuid) (now : timestamp) (username password_hash : string) (display_name : option string) (role : string)
    (t : Accounts) : result User string * Accounts :=
  match role_of role with
  | None => (Err "check constraint", t)
  | Some r =>
      let row := {| u_id := id; u_username := username; u_password_hash := password_hash; u_display_name := display_name; u_role := r;
                    u_active := true; u_created_at := now; u_updated_at := now |} in
      if bool_decide (is_Some (users_table t !! id)) then (Err "duplicate key", t)
      else match write_user row t with Ok t' => (Ok row, t') | Err e => (Err e, t) end
  end.

Definition get_user (id : Uuid) (t : Accounts) : option User := users_table t !! id.

Definition updated_user (now : timestamp) (display_name : option string) (role : option UserRole) (active : option bool)
    (password_hash : option string) (u : User) : User :=
  {| u with u_display_name := match display_name with Some d => Some d | None => u_display_name u end;
            u_role := default (u_role u) role; u_active := default (u_active u) active;
            u_password_hash := default (u_password_hash u) password_hash; u_updated_at := now |}.

(** A role outside the CHECK fails the statement when there is a row to change. *)
Definition update_user (id : Uuid) (now : timestamp) (display_name role : option string) (active : option bool)
    (password_hash : option string) (t : Accounts) : result (option User) string * Accounts :=
  match users_table t !! id with
  | None => (Ok None, t)
  | Some u =>
      match role, role ≫= role_of with
      | Some _, None => (Err "check constraint", t)
      | _, r =>
          let row := updated_user now display_name r active password_hash u in
          match write_user row t with Ok t' => (Ok (Some row), t') | Err e => (Err e, t) end
      end
  end.

Definition update_user_password (id : Uuid) (now : timestamp) (password_hash : string) (t : Accounts) : bool * Accounts :=
  (bool_decide (is_Some (users_table t !! id)),
   with_users (alter (fun u => {| u with u_password_hash := password_hash; u_updated_at := now |}) id (users_table t)) t).

(** [ON DELETE CASCADE] on sessions and keys, [SET NULL] on the audit log. *)
Definition delete_user (id : Uuid) (t : Accounts) : bool * Accounts :=
  (bool_decide (is_Some (users_table t !! id)),
   {| users_table := delete id (users_table t);
      sessions_table := filter (fun kv => se_user_id kv.2 <> id) (sessions_table t);
      keys_table := filter (fun kv => ky_user_id kv.2 <> id) (keys_table t);
      audit_log := (fun row => if bool_decide (ad_user_id row = Some id) then {| row with ad_user_id := None |} else row) <$> audit_log t |}).

(** ** sessions *)

Definition create_session (now : timestamp) (user_id : Uuid) (token_jti : string) (expires_at : timestamp) (t : Accounts)
    : result unit string * Accounts :=
  if negb (fits 64 token_jti) then (Err "value too long", t)
  else if bool_decide (is_Some (sessions_table t !! token_jti)) then (Err "duplicate key", t)
  else if bool_decide (is_Some (users_table t !! user_id)) then
    (Ok tt, with_sessions (<[token_jti := {| se_user_id := user_id; se_token_jti := token_jti; se_expires_at := expires_at;
                                              se_revoked := false; se_created_at := now |}]> (sessions_table t)) t)
  else (Err "foreign key", t).

Definition is_session_valid (now : timestamp) (token_jti : string) (t : Accounts) : bool :=
  match sessions_table t !! token_jti with Some s => negb (se_revoked s) && (now <? se_expires_at s) | None => false end.

Definition revoke_session (token_jti : string) (t : Accounts) : bool * Accounts :=
  (match sessions_table t !! token_jti with Some s => negb (se_revoked s) | None => false end,
   with_sessions (alter (fun s => {| s with se_revoked := true |}) token_jti (sessions_table t)) t).

Definition cleanup_expired_sessions (now : timestamp) (t : Accounts) : Z * Accounts :=
  let kept := filter (fun kv => now <= se_expires_at kv.2 /\ se_revoked kv.2 = false) (sessions_table t) in
  (Z.of_nat (size (sessions_table t)) - Z.of_nat (size kept), with_sessions kept t).

(** ** api_keys *)

Definition create_api_key (id : Uuid) (now : timestamp) (user_id : Uuid) (key_hash name : string) (t : Accounts) : result KeyRow string * Accounts :=
  let row := {| ky_id := id; ky_user_id := user_id; ky_key_hash := key_hash; ky_name := name; ky_created_at := now;
                ky_last_used_at := None; ky_revoked := false |} in
  if negb (fits 255 name) then (Err "value too long", t)
  else if bool_decide (is_Some (keys_table t !! id)) || map_any (fun old => bool_decide (ky_key_hash old = key_hash)) (keys_table t)
  then (Err "duplicate key", t)
  else if bool_decide (is_Some (users_table t !! user_id)) then (Ok row, with_keys (<[id := row]> (keys_table t)) t)
  else (Err "foreign key", t).

Definition revoke_api_key (id user_id : Uuid) (t : Accounts) : bool * Accounts :=
  match keys_table t !! id with
  | Some k => if bool_decide (ky_user_id k = user_id) && negb (ky_revoked k)
              then (true, with_keys (<[id := {| k with ky_revoked := true |}]> (keys_table t)) t) else (false, t)
  | None => (false, t)
  end.

(** ** audit_log *)

(** Of the columns, those the code fills. *)
Definition create_audit_log (id : Uuid) (now : timestamp) (user_id : option Uuid) (username action : string)
    (resource_type resource_id : option string) (t : Accounts) : result unit string * Accounts :=
  if negb (fits 100 username && fits 100 action && opt_fits 50 resource_type && opt_fits 255 resource_id) then (Err "value too long", t)
  else if match user_id with Some u => bool_decide (users_table t !! u = None) | None => false end then (Err "foreign key", t)
  else (Ok tt, {| t with audit_log := audit_log t ++ [{| ad_id := id; ad_user_id := user_id; ad_username := username; ad_action := action;
                   ad_resource_type := resource_type; ad_resource_id := resource_id; ad_created_at := now |}] |}).

(** [audit_action]: an error is logged only. *)
Definition audit_action (ok : bool) (id : Uuid) (now : timestamp) (user_id : Uuid) (username action resource_type resource_id : string)
    (t : Accounts) : Accounts :=
  if ok then (create_audit_log id now (Some user_id) username action (Some resource_type) (Some resource_id) t).2 else t.

(** [ORDER BY created_at DESC LIMIT n] *)
Definition list_audit_logs (limit : nat) (t : Accounts) : list AuditRow :=
  take limit (sort_by (fun a b => ad_created_at b ?= ad_created_at a) (audit_log t)).

(** ** Reading *)

Section Reading.
Context `{HI : HashIter} `{CO : Collation}.

Definition get_user_by_username (username : string) (t : Accounts) : option User :=
  head (filter (fun u => u_username u = username) (hvalues (users_table t))).

Definition list_users (t : Accounts) : list User := sort_by (fun a b => collate (u_username a) (u_username b)) (hvalues (users_table t)).

Definition list_users_paginated (limit offset : Z) (t : Accounts) : result (list User * Z) string :=
  let? page := paged limit offset (list_users t) in Ok (page, total_of (list_users t)).

(** An active key by its hash; its use is recorded. *)
Definition get_api_key_by_hash (now : timestamp) (key_hash : string) (t : Accounts) : option KeyRow * Accounts :=
  match head (filter (fun k => ky_key_hash k = key_hash /\ ky_revoked k = false) (hvalues (keys_table t))) with
  | Some k => let k' := {| k with ky_last_used_at := Some now |} in (Some k', with_keys (<[ky_id k := k']> (keys_table t)) t)
  | None => (None, t)
  end.

Definition list_api_keys_for_user (user_id : Uuid) (t : Accounts) : list KeyRow :=
  sort_by (fun a b => ky_created_at b ?= ky_created_at a) (filter (fun k => ky_user_id k = user_id) (hvalues (keys_table t))).

(** The answers that [authenticate] gets from the tables. *)
Definition auth_answers (now : timestamp) (tokens : Tables) (t : Accounts) : AuthStorage := {|
  Web.get_worker_token_by_hash h := Ok (token_by_hash h tokens);
  Web.get_api_key_by_hash h := Ok (ky_user_id <$> (get_api_key_by_hash now h t).1);
  Web.get_user id := Ok (get_user id t);
  Web.is_session_valid jti := Ok (is_session_valid now jti t) |}.
End Reading.

(** ** Requests *)

Record CreateUserRequest := {
  nu_username : string;
  nu_password : string;
  nu_display_name : option string;
  nu_role : string
}.

Record UpdateUserRequest := {
  uu_display_name : option string;
  uu_role : option string;
  uu_active : option bool;
  uu_password : option string
}.

Record LoginRequest := {
  lg_username : string;
  lg_password : string
}.

Record ChangePasswordRequest := {
  cw_current_password : string;
  cw_new_password : string
}.

Record LoginResponse := {
  lr_token : string;
  lr_expires_at : string;
  lr_user : Json
}.

(** [generate_key], from the hexadecimal digits that are drawn. *)
Definition generate_key (digits : string) : string := ("chola_" +:+ digits)%string.

(** ** Handlers

    [is_uppercase] and [is_numeric] are Unicode's properties of a char; [later] is
    the present plus seconds, where chrono can represent it. *)

Section Handlers.
Context `{HI : HashIter} `{CO : Collation} `{PW : Passwords} `{TK : Tokens}.
Context (is_uppercase is_numeric : string -> bool) (sha256_hex : string -> string)
  (rfc3339 : timestamp -> string) (uuid_to_string : Uuid -> string) (later : timestamp -> Z -> option timestamp).

Definition validate_password (password : string) : result unit ApiError :=
  if byte_len password <? 8 then Err (BadRequest "Password must be at least 8 characters")
  else if negb (existsb is_uppercase (chars password)) then Err (BadRequest "Password must contain an uppercase letter")
  else if negb (existsb is_numeric (chars password)) then Err (BadRequest "Password must contain a number")
  else Ok tt.

Definition user_to_json (u : User) : Json := Obj [
  ("id", Str (uuid_to_string (u_id u))); ("username", Str (u_username u)); ("display_name", jopt Str (u_display_name u));
  ("role", Str (as_db_str (u_role u))); ("active", Json.Bool (u_active u));
  ("created_at", Str (rfc3339 (u_created_at u))); ("updated_at", Str (rfc3339 (u_updated_at u)))].

(** The role, what is checked before the database is asked for, the database. *)
Definition administered {T : Type} (auth : AuthUser) (msg : string) (checked : result unit ApiError) (st : option T)
    (run : T -> result Json ApiError * T) : Reply T :=
  if negb (can_manage_users (au_role auth)) then (Err (Forbidden msg), st)
  else
    match checked, st with
    | Err e, _ => (Err e, st)
    | Ok _, None => (Err StorageUnavailable, st)
    | Ok _, Some t => let '(r, t') := run t in (r, Some t')
    end.

Definition not_permitted : string := "Insufficient permissions".
Definition no_user : string := "User not found".

(** A new password is checked and hashed. *)
Definition hashed (salt password : string) : result string ApiError :=
  let? _ := validate_password password in map_err Internal (hash_password salt password).

Definition checked_display_name (d : option string) : result unit ApiError := if_some d (fun s => validate_string "display_name" s 255).

Definition list_users_handler (ok : bool) (auth : AuthUser) (limit offset : option Z) (st : option Accounts) : result Json ApiError :=
  if negb (can_manage_users (au_role auth)) then Err (Forbidden not_permitted)
  else
    let limit := page_limit limit in
    let offset := default 0 offset in
    reading ok st (fun t =>
      let? (users, total) := map_err Internal (list_users_paginated limit offset t) in
      Ok (Obj [("data", jarr user_to_json users); ("pagination", pagination total limit offset)])).

Definition create_user_handler (ok : bool) (id : Uuid) (salt : string) (now : timestamp) (auth : AuthUser) (b : CreateUserRequest)
    (st : option Accounts) : Reply Accounts :=
  administered auth not_permitted (let? _ := validate_string "username" (nu_username b) 100 in checked_display_name (nu_display_name b)) st
    (fun t =>
       match hashed salt (nu_password b) with
       | Err e => (Err e, t)
       | Ok h => answered ok t (create_user id now (nu_username b) h (nu_display_name b) (nu_role b) t) (fun u => Ok (user_to_json u))
       end).

Definition get_user_handler (ok : bool) (auth : AuthUser) (id : Uuid) (st : option Accounts) : result Json ApiError :=
  if negb (can_manage_users (au_role auth)) then Err (Forbidden not_permitted)
  else reading ok st (fun t => found no_user (get_user id t) user_to_json).

Definition update_user_handler (ok : bool) (salt : string) (now : timestamp) (auth : AuthUser) (id : Uuid) (b : UpdateUserRequest)
    (st : option Accounts) : Reply Accounts :=
  administered auth not_permitted (checked_display_name (uu_display_name b)) st (fun t =>
    match match uu_password b with Some pw => let? h := hashed salt pw in Ok (Some h) | None => Ok None end with
    | Err e => (Err e, t)
    | Ok h => answered ok t (update_user id now (uu_display_name b) (uu_role b) (uu_active b) h t) (fun o => found no_user o user_to_json)
    end).

Definition reset_password (ok : bool) (salt : string) (now : timestamp) (auth : AuthUser) (id : Uuid) (new_password : string)
    (st : option Accounts) : Reply Accounts :=
  administered auth "Super admin only" (validate_password new_password) st (fun t =>
    match map_err Internal (hash_password salt new_password) with
    | Err e => (Err e, t)
    | Ok h =>
        let '(hit, t') := update_user_password id now h t in
        answered ok t (Ok hit, t') (fun hit => if hit then Ok (Obj [("message", Str "Password reset")]) else Err (NotFound no_user))
    end).

Definition delete_user_handler (ok : bool) (auth : AuthUser) (id : Uuid) (st : option Accounts) : Reply Accounts :=
  administered auth not_permitted (Ok tt) st (fun t =>
    let '(hit, t') := delete_user id t in answered ok t (Ok hit, t') (deleted no_user)).

(** *** api/auth_handlers.rs *)

Definition invalid_credentials : ApiError := Unauthorized "Invalid credentials".

(** The session is written after the token was signed; [ok] and [ok'] say whether
    the database answers the first time and the second. *)
Definition login (ok ok' : bool) (now : timestamp) (jti jwt_secret : string) (jwt_expiry : Z) (b : LoginRequest) (st : option Accounts)
    : option (result LoginResponse ApiError) * option Accounts :=
  match st with
  | None => (Some (Err StorageUnavailable), st)
  | Some t =>
      if negb ok then (Some (Err (Internal "database")), st)
      else
        match get_user_by_username (lg_username b) t with
        | None => (Some (Err invalid_credentials), st)
        | Some user =>
            if negb (u_active user) then (Some (Err (Unauthorized "Account is disabled")), st)
            else
              match verify_password (lg_password b) (u_password_hash user) with
              | Err e => (Some (Err (Internal e)), st)
              | Ok false => (Some (Err invalid_credentials), st)
              | Ok true =>
                  match encode_claims jwt_secret (new_claims uuid_to_string (now / 10 ^ 9) jti user jwt_expiry) with
                  | Err e => (Some (Err (Internal e)), st)
                  | Ok token =>
                      match later now (as_i64 jwt_expiry) with
                      | None => (None, st)
                      | Some expires_at =>
                          match (if ok' then create_session now (u_id user) jti expires_at t else (Err "database", t)) with
                          | (Err _, t') => (Some (Err (Internal "Failed to create session")), Some t')
                          | (Ok _, t') =>
                              (Some (Ok {| lr_token := token; lr_expires_at := rfc3339 expires_at; lr_user := user_to_json user |}), Some t')
                          end
                      end
                  end
              end
        end
  end.

Definition change_password (ok ok' : bool) (salt : string) (now : timestamp) (auth : AuthUser) (b : ChangePasswordRequest) (st : option Accounts)
    : Reply Accounts :=
  match st with
  | None => (Err StorageUnavailable, st)
  | Some t =>
      if negb ok then (Err (Internal "database"), st)
      else
        match get_user (au_user_id auth) t with
        | None => (Err (NotFound no_user), st)
        | Some user =>
            match verify_password (cw_current_password b) (u_password_hash user) with
            | Err e => (Err (Internal e), st)
            | Ok false => (Err (Unauthorized "Current password is incorrect"), st)
            | Ok true =>
                match hashed salt (cw_new_password b) with
                | Err e => (Err e, st)
                | Ok h =>
                    if ok' then (Ok (Obj [("message", Str "Password updated")]), Some (update_user_password (au_user_id auth) now h t).2)
                    else (Err (Internal "database"), st)
                end
            end
        end
  end.

Definition me (ok : bool) (auth : AuthUser) (st : option Accounts) : result Json ApiError :=
  reading ok st (fun t => found no_user (get_user (au_user_id auth) t) user_to_json).

(** The session of the token in the Authorization header, if there is one. *)
Definition logout (ok : bool) (now : timestamp) (jwt_secret : string) (authorization : option string) (st : option Accounts)
    : result Json ApiError * option Accounts :=
  (Ok (Obj [("message", Str "Logged out")]),
   match st, authorization ≫= strip_prefix "Bearer " with
   | Some t, Some token =>
       match decode_claims (now / 10 ^ 9) jwt_secret token with
       | Ok claims => if ok then Some (revoke_session (cl_jti claims) t).2 else st
       | Err _ => st
       end
   | _, _ => st
   end).

(** *** api/api_key_handlers.rs *)

Definition key_to_json (k : KeyRow) : list (string * Json) := [
  ("id", Str (uuid_to_string (ky_id k))); ("name", Str (ky_name k)); ("created_at", Str (rfc3339 (ky_created_at k)));
  ("last_used_at", jopt (fun t => Str (rfc3339 t)) (ky_last_used_at k))].

(** The key itself is in this reply only. *)
Definition create_key_handler (ok : bool) (id : Uuid) (digits : string) (now : timestamp) (auth : AuthUser) (name : string) (st : option Accounts)
    : Reply Accounts :=
  if bool_decide (name = EmptyString) || (255 <? byte_len name) then (Err (BadRequest "name must be 1–255 chars"), st)
  else
    match st with
    | None => (Err StorageUnavailable, st)
    | Some t =>
        let raw_key := generate_key digits in
        let '(r, t') := answered ok t (create_api_key id now (au_user_id auth) (sha256_hex raw_key) name t)
                          (fun k => Ok (Obj (("key", Str raw_key) :: key_to_json k))) in (r, Some t')
    end.

Definition list_keys_handler (ok : bool) (auth : AuthUser) (st : option Accounts) : result Json ApiError :=
  reading ok st (fun t => Ok (jarr (fun k => Obj (key_to_json k)) (list_api_keys_for_user (au_user_id auth) t))).

Definition revoke_key_handler (ok : bool) (auth : AuthUser) (id : Uuid) (st : option Accounts) : Reply Accounts :=
  match st with
  | None => (Err StorageUnavailable, st)
  | Some t =>
      let '(r, t') := answered ok t (Ok (revoke_api_key id (au_user_id auth) t).1, (revoke_api_key id (au_user_id auth) t).2)
                        (fun hit => if hit then Ok (Obj [("message", Str "API key revoked")]) else Err (NotFound "API key not found")) in
      (r, Some t')
  end.

(** *** api/audit.rs and main.rs *)

Definition audit_json (a : AuditRow) : Json := Obj [
  ("id", Str (uuid_to_string (ad_id a))); ("user_id", jopt (fun u => Str (uuid_to_string u)) (ad_user_id a));
  ("username", Str (ad_username a)); ("action", Str (ad_action a)); ("resource_type", jopt Str (ad_resource_type a));
  ("resource_id", jopt Str (ad_resource_id a)); ("details", Null); ("ip_address", Null); ("created_at", Str (rfc3339 (ad_created_at a)))].

Definition list_audit_logs_handler (ok : bool) (st : option Accounts) : result Json ApiError :=
  reading ok st (fun t =>
    let entries := list_audit_logs 200 t in Ok (Obj [("entries", jarr audit_json entries); ("count", Num (Z.of_nat (length entries)))])).

(** The default administrator, at start-up. *)
Definition seed_admin (ok : bool) (id : Uuid) (salt : string) (now : timestamp) (username password : option string) (st : option Accounts)
    : option Accounts :=
  match st, username, password with
  | Some t, Some username, Some password =>
      if negb ok then st
      else
        match get_user_by_username username t with
        | Some _ => st
        | None =>
            match hash_password salt password with
            | Ok h => Some (create_user id now username h (Some "Default Admin"%string) "super_admin" t).2
            | Err _ => st
            end
        end
  | _, _, _ => st
  end.

(** ** Requests in sequence *)

Context (jwt_secret : string) (jwt_expiry : Z).

Inductive request :=
| ReqCreateUser (ok : bool) (id : Uuid) (salt : string) (auth : AuthUser) (b : CreateUserRequest)
| ReqUpdateUser (ok : bool) (salt : string) (auth : AuthUser) (id : Uuid) (b : UpdateUserRequest)
| ReqResetPassword (ok : bool) (salt : string) (auth : AuthUser) (id : Uuid) (new_password : string)
| ReqDeleteUser (ok : bool) (auth : AuthUser) (id : Uuid)
| ReqLogin (ok ok' : bool) (jti : string) (b : LoginRequest)
| ReqChangePassword (ok ok' : bool) (salt : string) (auth : AuthUser) (b : ChangePasswordRequest)
| ReqLogout (ok : bool) (authorization : option string)
| ReqCreateKey (ok : bool) (id : Uuid) (digits : string) (auth : AuthUser) (name : string)
| ReqUseKey (key_hash : string)
| ReqRevokeKey (ok : bool) (auth : AuthUser) (id : Uuid)
| ReqAudit (ok : bool) (id : Uuid) (auth : AuthUser) (action resource_type resource_id : string)
| ReqCleanup.

Definition serve (now : timestamp) (r : request) (t : Accounts) : Accounts :=
  default t
    match r with
    | ReqCreateUser ok id salt auth b => (create_user_handler ok id salt now auth b (Some t)).2
    | ReqUpdateUser ok salt auth id b => (update_user_handler ok salt now auth id b (Some t)).2
    | ReqResetPassword ok salt auth id pw => (reset_password ok salt now auth id pw (Some t)).2
    | ReqDeleteUser ok auth id => (delete_user_handler ok auth id (Some t)).2
    | ReqLogin ok ok' jti b => (login ok ok' now jti jwt_secret jwt_expiry b (Some t)).2
    | ReqChangePassword ok ok' salt auth b => (change_password ok ok' salt now auth b (Some t)).2
    | ReqLogout ok h => (logout ok now jwt_secret h (Some t)).2
    | ReqCreateKey ok id digits auth name => (create_key_handler ok id digits now auth name (Some t)).2
    | ReqUseKey h => Some (get_api_key_by_hash now h t).2
    | ReqRevokeKey ok auth id => (revoke_key_handler ok auth id (Some t)).2
    | ReqAudit ok id auth a ty res => Some (audit_action ok id now (au_user_id auth) (au_username auth) a ty res t)
    | ReqCleanup => Some (cleanup_expired_sessions now t).2
    end.

Definition serve_all (reqs : list (timestamp * request)) (t : Accounts) : Accounts := foldl (fun t r => serve r.1 r.2 t) t reqs.

(** The deletion of an account is carried out. *)
Definition deletes (uid : Uuid) (r : request) : bool :=
  match r with ReqDeleteUser ok auth id => ok && can_manage_users (au_role auth) && bool_decide (id = uid) | _ => false end.

(** The requests that end a session, and a key. *)
Definition ends_session (uid : Uuid) (jti : string) (now : timestamp) (r : request) : bool :=
  match r with
  | ReqLogout true (Some h) =>
      match strip_prefix "Bearer " h with
      | Some token => match decode_claims (now / 10 ^ 9) jwt_secret token with Ok c => bool_decide (cl_jti c = jti) | Err _ => false end
      | None => false
      end
  | _ => deletes uid r
  end.

Definition ends_key (uid kid : Uuid) (r : request) : bool :=
  match r with
  | ReqRevokeKey ok auth id => ok && bool_decide (au_user_id auth = uid) && bool_decide (id = kid)
  | _ => deletes uid r
  end.

(** What a later request draws is new. *)
Definition new_session (jti : string) (r : request) : Prop := match r with ReqLogin _ _ jti' _ => jti' <> jti | _ => True end.
Definition new_key (kid : Uuid) (h : string) (r : request) : Prop :=
  match r with ReqCreateKey _ id digits _ _ => id <> kid /\ sha256_hex (generate_key digits) <> h | _ => True end.

(** *** What each statement leaves alone *)

Ltac settle := repeat (case_match; simplify_eq/=; try done).

Lemma write_user_inv row t t' : write_user row t = Ok t' -> t' = with_users (<[u_id row := row]> (users_table t)) t.
Proof. unfold write_user. repeat (case_match; try done). by intros [= <-]. Qed.

(** The tables after a statement that is answered. *)
Lemma answered_tables {A T : Type} ok (t : T) (r : result A string * T) k : (answered ok t r k).2 = if ok then r.2 else t.
Proof. unfold answered. destruct ok, r as [[a|e] t']; done. Qed.

Lemma administered_tables auth msg checked (t : Accounts) run :
  (administered auth msg checked (Some t) run).2 =
  Some (if can_manage_users (au_role auth) then match checked with Ok _ => (run t).2 | Err _ => t end else t).
Proof. unfold administered. destruct (can_manage_users _); simpl; [|done]. destruct checked; [|done]. by destruct (run t). Qed.

(** A request of a super-admin changes users only; but a deletion. *)
Lemma create_user_keeps id now username h d role t : let t' := (create_user id now username h d role t).2 in
  sessions_table t' = sessions_table t /\ keys_table t' = keys_table t.
Proof.
  unfold create_user. destruct (role_of role); [|done]. case_bool_decide; [done|].
  destruct (write_user _ t) eqn:E; [|done]. by apply write_user_inv in E as ->.
Qed.

Lemma update_user_keeps id now d role a h t : let t' := (update_user id now d role a h t).2 in
  sessions_table t' = sessions_table t /\ keys_table t' = keys_table t.
Proof.
  unfold update_user. destruct (users_table t !! id) as [u|]; [|done].
  assert (Hw : forall row, (let t' := (match write_user row t with Ok t' => (Ok (Some row), t') | Err e => (Err e, t) end).2 in
    sessions_table t' = sessions_table t /\ keys_table t' = keys_table t)).
  { intros row. destruct (write_user row t) eqn:E; [|done]. by apply write_user_inv in E as ->. }
  destruct role as [r|]; [|apply Hw]. simpl. destruct (role_of r); [apply Hw|done].
Qed.

Ltac unchanged := by left; eexists; split; [reflexivity|].

Lemma login_sessions ok ok' now jti b t :
  let r := login ok ok' now jti jwt_secret jwt_expiry b (Some t) in
  (exists o, r = (o, Some t) /\ forall resp, o <> Some (Ok resp)) \/
  exists user exp token, get_user_by_username (lg_username b) t = Some user /\ u_active user = true /\
    verify_password (lg_password b) (u_password_hash user) = Ok true /\ later now (as_i64 jwt_expiry) = Some exp /\
    encode_claims jwt_secret (new_claims uuid_to_string (now / 10 ^ 9) jti user jwt_expiry) = Ok token /\
    sessions_table t !! jti = None /\ is_Some (users_table t !! u_id user) /\
    r = (Some (Ok {| lr_token := token; lr_expires_at := rfc3339 exp; lr_user := user_to_json user |}),
         Some (with_sessions (<[jti := {| se_user_id := u_id user; se_token_jti := jti; se_expires_at := exp; se_revoked := false;
                                         se_created_at := now |}]> (sessions_table t)) t)).
Proof.
  unfold login. destruct ok; [|unchanged]. simpl. destruct (get_user_by_username _ t) as [user|] eqn:Eu; [|unchanged].
  destruct (u_active user) eqn:Ea; [|unchanged]. simpl. destruct (verify_password _ _) as [[]|] eqn:Ev; [|unchanged..].
  destruct (encode_claims _ _) as [token|] eqn:Et; [|unchanged]. destruct (later _ _) as [exp|] eqn:El; [|unchanged].
  destruct ok'; [|unchanged]. unfold create_session. destruct (negb _); [unchanged|]. case_bool_decide as Hs; [unchanged|].
  case_bool_decide as Hu; [|unchanged]. right. apply eq_None_not_Some in Hs. by exists user, exp, token.
Qed.

Lemma serve_sessions now r t : let t' := serve now r t in
  match r with
  | ReqDeleteUser ok auth id =>
      sessions_table t' = if ok && can_manage_users (au_role auth) then filter (fun kv => se_user_id kv.2 <> id) (sessions_table t)
                          else sessions_table t
  | ReqLogin _ _ jti _ => sessions_table t' = sessions_table t \/
      exists s, sessions_table t !! jti = None /\ se_token_jti s = jti /\ sessions_table t' = <[jti := s]> (sessions_table t)
  | ReqLogout ok h =>
      sessions_table t' =
        match h ≫= strip_prefix "Bearer " with
        | Some token =>
            match decode_claims (now / 10 ^ 9) jwt_secret token with
            | Ok c => if ok then alter (fun s => {| s with se_revoked := true |}) (cl_jti c) (sessions_table t) else sessions_table t
            | Err _ => sessions_table t
            end
        | None => sessions_table t
        end
  | ReqCleanup => sessions_table t' = filter (fun kv => now <= se_expires_at kv.2 /\ se_revoked kv.2 = false) (sessions_table t)
  | _ => sessions_table t' = sessions_table t
  end.
Proof.
  cbv zeta. unfold serve.
  destruct r as [ok id salt auth b|ok salt auth id b|ok salt auth id pw|ok auth id|ok ok' jti b|ok ok' salt auth b|ok h|ok id digits auth name|h|ok auth id|ok id auth a ty res|].
  - unfold create_user_handler. rewrite administered_tables. simpl. settle. rewrite answered_tables. destruct ok; [|done]. apply create_user_keeps.
  - unfold update_user_handler. rewrite administered_tables. simpl. settle; rewrite answered_tables; (destruct ok; [|done]); apply update_user_keeps.
  - unfold reset_password. rewrite administered_tables. simpl. settle; rewrite answered_tables; by destruct ok.
  - unfold delete_user_handler. rewrite administered_tables. simpl. rewrite answered_tables. by destruct ok, (can_manage_users _).
  - destruct (login_sessions ok ok' now jti b t) as [(o & -> & _)|(user & exp & token & _ & _ & _ & _ & _ & Hn & _ & ->)]; [by left|right]. eexists. split; [exact Hn|]. split; [|reflexivity]. done.
  - unfold change_password. simpl. settle.
  - unfold logout. simpl. settle.
  - unfold create_key_handler, answered, create_api_key. settle.
  - unfold get_api_key_by_hash. simpl. settle.
  - unfold revoke_key_handler, answered, revoke_api_key. settle.
  - unfold audit_action, create_audit_log. simpl. settle.
  - done.
Qed.

(** *** The life of a session *)

Section Life.
Context (uid : Uuid) (jti : string) (exp : timestamp).

Definition owned (t : Accounts) : Prop := forall s, sessions_table t !! jti = Some s -> se_user_id s = uid /\ se_expires_at s = exp.
Definition over (t : Accounts) : Prop := forall s, sessions_table t !! jti = Some s -> se_revoked s = true.

(** No request but a login that draws its id brings a session back, or changes
    whose it is. *)
Lemma serve_session now r t s' : new_session jti r -> sessions_table (serve now r t) !! jti = Some s' ->
  exists s, sessions_table t !! jti = Some s /\ se_user_id s' = se_user_id s /\ se_expires_at s' = se_expires_at s /\
    (se_revoked s = true -> se_revoked s' = true).
Proof.
  intros Hnew Hs'. pose proof (serve_sessions now r t) as H. cbv zeta in H.
  destruct r as [| | |ok auth id|ok ok' j b| |ok h| | | | |]; try (rewrite H in Hs'; by exists s').
  - rewrite H in Hs'. destruct (ok && _); [|by exists s']. apply map_lookup_filter_Some in Hs' as [Hs' _]. by exists s'.
  - destruct H as [H|(s0 & _ & _ & H)]; rewrite H in Hs'; [by exists s'|]. simpl in Hnew. rewrite lookup_insert_ne in Hs' by done. by exists s'.
  - rewrite H in Hs'. repeat case_match; try by exists s'. destruct (decide (cl_jti a = jti)) as [Ec|Ec].
    + rewrite Ec, lookup_alter_eq in Hs'. apply fmap_Some in Hs' as (s0 & Hs0 & ->). by exists s0.
    + rewrite lookup_alter_ne in Hs' by done. by exists s'.
  - rewrite H in Hs'. apply map_lookup_filter_Some in Hs' as [Hs' _]. by exists s'.
Qed.

Lemma serve_owned now r t : new_session jti r -> owned t -> owned (serve now r t).
Proof. intros Hnew Ho s' Hs'. destruct (serve_session now r t s' Hnew Hs') as (s & Hs & -> & -> & _). by apply Ho. Qed.

Lemma serve_over now r t : new_session jti r -> over t -> over (serve now r t).
Proof. intros Hnew Ho s' Hs'. destruct (serve_session now r t s' Hnew Hs') as (s & Hs & _ & _ & Hr). by apply Hr, Ho. Qed.

Lemma serve_ends now r t : owned t -> ends_session uid jti now r = true -> over (serve now r t).
Proof.
  intros Ho He s Hs. pose proof (serve_sessions now r t) as H. cbv zeta in H. revert He.
  destruct r as [| | |ok auth id|ok ok' j b| |ok h| | | | |]; try done; simpl.
  - intros [Hr ->%bool_decide_eq_true]%andb_true_iff. rewrite Hr in H. rewrite H in Hs.
    apply map_lookup_filter_Some in Hs as [Hs Hne]. by destruct (Ho s Hs).
  - destruct ok; [|done]. destruct h as [h|]; [|done]. simpl in H. destruct (strip_prefix _ h) as [token|]; [|done].
    destruct (decode_claims _ _ token) as [c|]; [|done]. intros Hc%bool_decide_eq_true. rewrite H, Hc, lookup_alter_eq in Hs.
    by apply fmap_Some in Hs as (s0 & _ & ->).
Qed.

Lemma serve_alive now r t s : ends_session uid jti now r = false -> new_session jti r -> now <= exp ->
  owned t -> sessions_table t !! jti = Some s -> se_revoked s = false -> sessions_table (serve now r t) !! jti = Some s.
Proof.
  intros He Hnew Hnow Ho Hs Hr. destruct (Ho s Hs) as [Hu Hx]. pose proof (serve_sessions now r t) as H. cbv zeta in H. revert He.
  destruct r as [| | |ok auth id|ok ok' j b| |ok h| | | | |]; try (by rewrite H).
  - rewrite H. intros Hd. simpl in Hd. destruct (ok && _); [|done]. simpl in Hd. apply bool_decide_eq_false in Hd.
    apply map_lookup_filter_Some. split; [done|]. simpl. congruence.
  - destruct H as [H|(s0 & _ & _ & H)]; rewrite H; [done|]. simpl in Hnew. by rewrite lookup_insert_ne.
  - rewrite H. unfold ends_session. destruct h as [h|]; [|done]. simpl. destruct (strip_prefix _ h) as [token|]; [|done].
    destruct (decode_claims _ _ token) as [c|]; [|done]. destruct ok; [|done]. intros Hc%bool_decide_eq_false. by rewrite lookup_alter_ne.
  - rewrite H. intros _. apply map_lookup_filter_Some. split; [done|]. simpl. split; [lia|done].
Qed.

Lemma serve_all_owned now reqs : forall t, Forall (fun r => new_session jti r.2 /\ r.1 <= now) reqs -> owned t -> owned (serve_all reqs t).
Proof.
  induction reqs as [|[n r] reqs IH]; intros t Hreqs Ho; [done|]. apply Forall_cons in Hreqs as [[Hnew _] Hreqs].
  by apply (IH (serve n r t)), serve_owned.
Qed.

(** A session is valid until it expires or a request ends it. *)
Lemma session_fate now reqs : forall t, Forall (fun r => new_session jti r.2 /\ r.1 <= now) reqs -> owned t ->
  ((exists s, sessions_table t !! jti = Some s /\ se_revoked s = false) ->
    (is_session_valid now jti (serve_all reqs t) = true <-> now < exp /\ Forall (fun r => ends_session uid jti r.1 r.2 = false) reqs)) /\
  (over t -> is_session_valid now jti (serve_all reqs t) = false).
Proof.
  induction reqs as [|[n r] reqs IH]; intros t Hreqs Ho.
  - simpl. unfold is_session_valid. split.
    + intros (s & Hs & Hr). rewrite Hs, Hr. destruct (Ho s Hs) as [_ ->]. simpl. rewrite Z.ltb_lt. split; [intros ?; by split; [|constructor]|by intros []].
    + intros Hover. destruct (sessions_table t !! jti) as [s|] eqn:Hs; [|done]. by rewrite (Hover s Hs).
  - apply Forall_cons in Hreqs as [[Hnew Hn] Hreqs]. simpl in Hnew, Hn.
    destruct (IH (serve n r t) Hreqs (serve_owned n r t Hnew Ho)) as [IH1 IH2]. change (serve_all ((n, r) :: reqs) t) with (serve_all reqs (serve n r t)).
    split; [|intros Hover; by apply IH2, serve_over].
    intros (s & Hs & Hr). destruct (Ho s Hs) as [_ Hx]. rewrite Forall_cons. cbn [fst snd].
    destruct (ends_session uid jti n r) eqn:He.
    + rewrite IH2 by (by apply serve_ends). split; [done|]. by intros (_ & [=] & _).
    + destruct (Z_le_gt_dec n exp) as [Hle|Hgt].
      * rewrite IH1 by (exists s; split; [by apply serve_alive|done]). naive_solver.
      * split; [|lia]. intros Hv. exfalso. revert Hv. unfold is_session_valid.
        pose proof (serve_all_owned now reqs (serve n r t) Hreqs (serve_owned n r t Hnew Ho)) as Hall.
        destruct (sessions_table (serve_all reqs _) !! jti) as [s2|] eqn:Hs2; [|done]. destruct (Hall s2 Hs2) as [_ ->].
        destruct (Z.ltb_spec now exp); [lia|]. by rewrite andb_false_r.
Qed.
End Life.

(** *** The life of a key *)

Lemma serve_keys now r t : let t' := serve now r t in
  match r with
  | ReqDeleteUser ok auth id =>
      keys_table t' = if ok && can_manage_users (au_role auth) then filter (fun kv => ky_user_id kv.2 <> id) (keys_table t) else keys_table t
  | ReqCreateKey ok id digits auth name => keys_table t' = keys_table t \/
      exists k, keys_table t !! id = None /\ ky_id k = id /\ ky_user_id k = au_user_id auth /\ ky_key_hash k = sha256_hex (generate_key digits) /\
        ky_revoked k = false /\ map_any (fun old => bool_decide (ky_key_hash old = ky_key_hash k)) (keys_table t) = false /\
        is_Some (users_table t !! au_user_id auth) /\ keys_table t' = <[id := k]> (keys_table t)
  | ReqUseKey h => keys_table t' = keys_table t \/
      exists i k, keys_table t !! i = Some k /\ keys_table t' = <[ky_id k := {| k with ky_last_used_at := Some now |}]> (keys_table t)
  | ReqRevokeKey ok auth id =>
      keys_table t' = match keys_table t !! id with
                      | Some k => if ok && bool_decide (au_user_id auth = ky_user_id k) && negb (ky_revoked k)
                                  then <[id := {| k with ky_revoked := true |}]> (keys_table t) else keys_table t
                      | None => keys_table t
                      end
  | _ => keys_table t' = keys_table t
  end.
Proof.
  cbv zeta. unfold serve.
  destruct r as [ok id salt auth b|ok salt auth id b|ok salt auth id pw|ok auth id|ok ok' jti b|ok ok' salt auth b|ok h|ok id digits auth name|h|ok auth id|ok id auth a ty res|].
  - unfold create_user_handler. rewrite administered_tables. simpl. settle. rewrite answered_tables. destruct ok; [|done]. apply create_user_keeps.
  - unfold update_user_handler. rewrite administered_tables. simpl. settle; rewrite answered_tables; (destruct ok; [|done]); apply update_user_keeps.
  - unfold reset_password. rewrite administered_tables. simpl. settle; rewrite answered_tables; by destruct ok.
  - unfold delete_user_handler. rewrite administered_tables. simpl. rewrite answered_tables. by destruct ok, (can_manage_users _).
  - destruct (login_sessions ok ok' now jti b t) as [(o & -> & _)|(user & exp & token & _ & _ & _ & _ & _ & Hn & _ & ->)]; done.
  - unfold change_password. simpl. settle.
  - unfold logout. simpl. settle.
  - unfold create_key_handler, answered, create_api_key. destruct (_ || _) eqn:E1; [by left|]. clear E1. destruct ok; [|by left].
    destruct (negb _); [by left|]. destruct (bool_decide (is_Some (keys_table t !! id)) || _) eqn:E; [by left|].
    destruct (bool_decide (is_Some (users_table t !! au_user_id auth))) eqn:Hu; [|by left]. apply bool_decide_eq_true in Hu. right. apply orb_false_iff in E as [Hid%bool_decide_eq_false Hh]. apply eq_None_not_Some in Hid.
    eexists. split; [exact Hid|]. simpl. split; [|split; [|split; [|split; [|split; [|split; [|reflexivity]]]]]]; done.
  - unfold get_api_key_by_hash. simpl. destruct (head _) as [k|] eqn:E; [right|by left]. apply head_Some_elem_of, list_elem_of_filter in E as [_ E].
    apply elem_of_hvalues in E as [i Hi]. by exists i, k.
  - unfold revoke_key_handler, answered, revoke_api_key. destruct ok; simpl; [|by destruct (keys_table t !! id)].
    destruct (keys_table t !! id) as [k|]; [|done]. rewrite (bool_decide_ext (au_user_id auth = ky_user_id k) (ky_user_id k = au_user_id auth)) by done.
    by destruct (bool_decide _ && _).
  - unfold audit_action, create_audit_log. simpl. settle.
  - done.
Qed.

Section KeyLife.
Context (uid kid : Uuid) (h : string).

(** The hash is that of the key, and of no other. *)
Record sole_key (t : Accounts) : Prop := {
  sk_ids : map_Forall (fun id k => ky_id k = id) (keys_table t);
  sk_hash : forall id k, keys_table t !! id = Some k -> ky_key_hash k = h <-> id = kid;
  sk_owner : forall k, keys_table t !! kid = Some k -> ky_user_id k = uid
}.

Definition live (t : Accounts) : Prop := exists k, keys_table t !! kid = Some k /\ ky_revoked k = false.
Definition dead (t : Accounts) : Prop := forall k, keys_table t !! kid = Some k -> ky_revoked k = true.

Lemma serve_key now r t id k' : new_key kid h r -> map_Forall (fun id k => ky_id k = id) (keys_table t) ->
  keys_table (serve now r t) !! id = Some k' ->
  ky_id k' = id /\
  ((exists k, keys_table t !! id = Some k /\ ky_user_id k' = ky_user_id k /\ ky_key_hash k' = ky_key_hash k /\
      (ky_revoked k = true -> ky_revoked k' = true)) \/
   (id <> kid /\ ky_key_hash k' <> h)).
Proof.
  intros Hnew Hids Hk'. pose proof (serve_keys now r t) as H. cbv zeta in H.
  assert (Hsame : keys_table (serve now r t) !! id = keys_table t !! id -> ky_id k' = id /\
    ((exists k, keys_table t !! id = Some k /\ ky_user_id k' = ky_user_id k /\ ky_key_hash k' = ky_key_hash k /\
      (ky_revoked k = true -> ky_revoked k' = true)) \/ (id <> kid /\ ky_key_hash k' <> h))).
  { intros E. rewrite E in Hk'. split; [by apply (Hids id k')|]. left. by exists k'. }
  destruct r as [| | |ok auth uid'| | | |ok id0 digits auth name|hh|ok auth id0| |]; try (by apply Hsame; rewrite H).
  - rewrite H in Hk'. destruct (ok && _); [|by apply Hsame; rewrite H].
    pose proof Hk' as Hf. apply map_lookup_filter_Some in Hf as [Hf _]. apply Hsame. by rewrite H, Hk', Hf.
  - destruct H as [H|(k & _ & Hid & _ & Hh & _ & _ & _ & H)]; [by apply Hsame; rewrite H|]. rewrite H in Hk'. simpl in Hnew.
    destruct (decide (id = id0)) as [->|Hne]; [|apply Hsame; rewrite H; by apply lookup_insert_ne].
    rewrite lookup_insert_eq in Hk'. injection Hk' as <-. split; [done|right]. by rewrite Hh.
  - destruct H as [H|(i & k & Hi & H)]; [by apply Hsame; rewrite H|]. rewrite (Hids i k Hi) in H. rewrite H in Hk'.
    destruct (decide (id = i)) as [->|Hne]; [|apply Hsame; rewrite H; by apply lookup_insert_ne].
    rewrite lookup_insert_eq in Hk'. injection Hk' as <-. split; [done|left]. by exists k.
  - destruct (keys_table t !! id0) as [k|] eqn:Hi; [|by apply Hsame; rewrite H]. destruct (_ && _ && _) eqn:E; [|by apply Hsame; rewrite H].
    rewrite H in Hk'. destruct (decide (id = id0)) as [->|Hne]; [|apply Hsame; rewrite H; by apply lookup_insert_ne].
    rewrite lookup_insert_eq in Hk'. injection Hk' as <-. split; [by apply (Hids id0 k)|left]. by exists k.
Qed.

Lemma serve_sole now r t : new_key kid h r -> sole_key t -> sole_key (serve now r t).
Proof.
  intros Hnew [Hids Hhash Hown]. split.
  - intros id k Hk. by destruct (serve_key now r t id k Hnew Hids Hk).
  - intros id k Hk. destruct (serve_key now r t id k Hnew Hids Hk) as [_ [(k0 & Hk0 & _ & -> & _)|[H1 H2]]]; [by apply Hhash|by split].
  - intros k Hk. by destruct (serve_key now r t kid k Hnew Hids Hk) as [_ [(k0 & Hk0 & -> & _ & _)|[H1 _]]]; [apply Hown|].
Qed.

Lemma serve_dead now r t : new_key kid h r -> sole_key t -> dead t -> dead (serve now r t).
Proof.
  intros Hnew [Hids _ _] Hd k Hk. by destruct (serve_key now r t kid k Hnew Hids Hk) as [_ [(k0 & Hk0 & _ & _ & Hr)|[H1 _]]]; [apply Hr, Hd|].
Qed.

Lemma serve_key_end now r t : new_key kid h r -> sole_key t -> live t ->
  if ends_key uid kid r then dead (serve now r t) else live (serve now r t).
Proof.
  intros Hnew [Hids Hhash Hown] (k & Hk & Hr). pose proof (serve_keys now r t) as H. cbv zeta in H. pose proof (Hown k Hk) as Hu.
  assert (Hsame : keys_table (serve now r t) !! kid = keys_table t !! kid -> live (serve now r t)) by (intros E; exists k; by rewrite E).
  destruct r as [| | |ok auth uid'| | | |ok id0 digits auth name|hh|ok auth id0| |]; try (by apply Hsame; rewrite H).
  - simpl ends_key. destruct (ok && _); simpl; [|by apply Hsame; rewrite H]. case_bool_decide as Hd.
    + intros k' Hk'. rewrite H in Hk'. apply map_lookup_filter_Some in Hk' as [Hk' Hne]. simpl in Hne. naive_solver.
    + apply Hsame. rewrite H, Hk. apply map_lookup_filter_Some. split; [done|]. simpl. naive_solver.
  - destruct H as [H|(k' & _ & _ & _ & _ & _ & _ & _ & H)]; [by apply Hsame; rewrite H|]. apply Hsame. rewrite H. destruct Hnew. by apply lookup_insert_ne.
  - destruct H as [H|(i & k' & Hi & H)]; [by apply Hsame; rewrite H|]. rewrite (Hids i k' Hi) in H.
    destruct (decide (i = kid)) as [->|Hne]; [|apply Hsame; rewrite H; by apply lookup_insert_ne].
    simpl. eexists. rewrite H, lookup_insert_eq. split; [reflexivity|]. simpl. congruence.
  - simpl ends_key. destruct (decide (id0 = kid)) as [->|Hne].
    + rewrite Hk, Hr in H. rewrite (bool_decide_true (kid = kid)) by done. rewrite Hu, !andb_true_r in H. rewrite andb_true_r.
      destruct (ok && _); [|apply Hsame; by rewrite H]. intros k' Hk'. rewrite H, lookup_insert_eq in Hk'. by injection Hk' as <-.
    + rewrite (bool_decide_false (id0 = kid)) by done. rewrite andb_false_r. apply Hsame. rewrite H.
      destruct (keys_table t !! id0); [|done]. destruct (_ && _ && _); [by apply lookup_insert_ne|done].
Qed.

Lemma key_fate reqs : forall t, Forall (fun r => new_key kid h r.2) reqs -> sole_key t ->
  sole_key (serve_all reqs t) /\ (dead t -> dead (serve_all reqs t)) /\
  (live t -> if bool_decide (Forall (fun r : timestamp * request => ends_key uid kid r.2 = false) reqs) then live (serve_all reqs t) else dead (serve_all reqs t)).
Proof.
  induction reqs as [|[n r] reqs IH]; intros t Hreqs Hs; [by rewrite bool_decide_true by constructor|].
  apply Forall_cons in Hreqs as [Hnew Hreqs]. simpl in Hnew. change (serve_all ((n, r) :: reqs) t) with (serve_all reqs (serve n r t)).
  destruct (IH (serve n r t) Hreqs (serve_sole n r t Hnew Hs)) as (IH1 & IH2 & IH3). split; [done|]. split; [intros Hd; by apply IH2, serve_dead|].
  intros Hl. pose proof (serve_key_end n r t Hnew Hs Hl) as He.
  pose proof (Forall_cons (fun r0 : timestamp * request => ends_key uid kid r0.2 = false) (n, r) reqs) as Hc. simpl in Hc.
  rewrite (bool_decide_ext _ _ Hc). destruct (ends_key uid kid r).
  - rewrite bool_decide_false by (by intros [? _]). by apply IH2.
  - specialize (IH3 He). rewrite (bool_decide_ext _ (Forall (fun r0 : timestamp * request => ends_key uid kid r0.2 = false) reqs)); [done|]. naive_solver.
Qed.

(** What the database says of the hash. *)
Lemma key_answer now t : sole_key t ->
  (live t -> ky_user_id <$> (get_api_key_by_hash now h t).1 = Some uid) /\ (dead t -> (get_api_key_by_hash now h t).1 = None).
Proof.
  intros [Hids Hhash Hown]. unfold get_api_key_by_hash. split.
  - intros (k & Hk & Hr). destruct (head _) as [k'|] eqn:E; simpl.
    + apply head_Some_elem_of, list_elem_of_filter in E as [[Hh _] [id Hid]%elem_of_hvalues]. apply (Hhash id k' Hid) in Hh as ->. by rewrite (Hown k' Hid).
    + apply head_None in E. exfalso. assert (Hin : k ∈ filter (fun k => ky_key_hash k = h /\ ky_revoked k = false) (hvalues (keys_table t))).
      { apply list_elem_of_filter. split; [split; [by apply (Hhash kid k Hk)|done]|]. apply elem_of_hvalues. by exists kid. }
      rewrite E in Hin. by apply not_elem_of_nil in Hin.
  - intros Hd. destruct (head _) as [k'|] eqn:E; [|done]. exfalso.
    apply head_Some_elem_of, list_elem_of_filter in E as [[Hh Hr] [id Hid]%elem_of_hvalues]. apply (Hhash id k' Hid) in Hh as ->. rewrite (Hd k' Hid) in Hr. done.
Qed.
End KeyLife.

(** *** Who changes accounts *)

Definition author (r : request) : option AuthUser :=
  match r with
  | ReqCreateUser _ _ _ auth _ | ReqUpdateUser _ _ auth _ _ | ReqResetPassword _ _ auth _ _ | ReqDeleteUser _ auth _
  | ReqChangePassword _ _ _ auth _ | ReqCreateKey _ _ _ auth _ | ReqRevokeKey _ auth _ | ReqAudit _ _ auth _ _ _ => Some auth
  | ReqLogin _ _ _ _ | ReqLogout _ _ | ReqUseKey _ | ReqCleanup => None
  end.

Definition users_keyed (t : Accounts) : Prop := map_Forall (fun id u => u_id u = id) (users_table t).

Lemma write_user_keyed row t t' : users_keyed t -> write_user row t = Ok t' -> users_keyed t'.
Proof. intros Ht ->%write_user_inv. by apply map_Forall_insert_2. Qed.

Lemma create_user_keyed id now username h d role t : users_keyed t -> users_keyed (create_user id now username h d role t).2.
Proof.
  intros Ht. unfold create_user. destruct (role_of role); [|done]. case_bool_decide; [done|].
  destruct (write_user _ t) eqn:E; [|done]. by eapply write_user_keyed.
Qed.

Lemma update_user_keyed id now d role a h t : users_keyed t -> users_keyed (update_user id now d role a h t).2.
Proof.
  intros Ht. unfold update_user. destruct (users_table t !! id) as [u|]; [|done].
  assert (Hw : forall row, users_keyed (match write_user row t with Ok t' => (Ok (Some row), t') | Err e => (Err e, t) end).2).
  { intros row. destruct (write_user row t) eqn:E; [|done]. by eapply write_user_keyed. }
  destruct role as [r|]; [|apply Hw]. simpl. destruct (role_of r); [apply Hw|done].
Qed.

Definition new_password (now : timestamp) (h : string) (u : User) : User := {| u with u_password_hash := h; u_updated_at := now |}.

Lemma password_keyed id now h t : users_keyed t -> users_keyed (update_user_password id now h t).2.
Proof.
  intros Ht i u Hu. simpl in Hu. destruct (decide (i = id)) as [->|Hne]; [|rewrite lookup_alter_ne in Hu by done; by apply (Ht i)].
  rewrite lookup_alter_eq in Hu. apply fmap_Some in Hu as (u0 & Hu0 & ->). by apply (Ht id u0).
Qed.

Lemma serve_users now r t : users_keyed t ->
  users_keyed (serve now r t) /\
  (users_table (serve now r t) = users_table t \/
   (exists auth, author r = Some auth /\ can_manage_users (au_role auth) = true) \/
   exists ok ok' salt auth b user h, r = ReqChangePassword ok ok' salt auth b /\ users_table t !! au_user_id auth = Some user /\
     verify_password (cw_current_password b) (u_password_hash user) = Ok true /\ hashed salt (cw_new_password b) = Ok h /\
     users_table (serve now r t) = alter (new_password now h) (au_user_id auth) (users_table t)).
Proof.
  intros Ht.
  assert (Hadmin : forall auth msg checked run, author r = Some auth ->
    serve now r t = default t (administered auth msg checked (Some t) run).2 -> users_keyed (run t).2 ->
    users_keyed (serve now r t) /\ (users_table (serve now r t) = users_table t \/
      exists auth, author r = Some auth /\ can_manage_users (au_role auth) = true)).
  { intros auth msg checked run Ha -> Hrun. rewrite administered_tables. simpl.
    destruct (can_manage_users _) eqn:Em; [|by split; [|left]]. split; [by destruct checked|right; by exists auth]. }
  assert (Hsame : serve now r t = t \/ users_table (serve now r t) = users_table t -> users_keyed (serve now r t) /\ users_table (serve now r t) = users_table t).
  { unfold users_keyed. by intros [->| ->]. }
  destruct r as [ok id salt auth b|ok salt auth id b|ok salt auth id pw|ok auth id|ok ok' jti b|ok ok' salt auth b|ok h|ok id digits auth name|h|ok auth id|ok id auth a ty res|].
  - edestruct (Hadmin auth) as [H1 H2]; [done|reflexivity| |split; [exact H1|tauto]].
    destruct (hashed _ _); [|done]. rewrite answered_tables. destruct ok; [|done]. by apply create_user_keyed.
  - edestruct (Hadmin auth) as [H1 H2]; [done|reflexivity| |split; [exact H1|tauto]].
    settle; rewrite answered_tables; (destruct ok; [|done]); by apply update_user_keyed.
  - edestruct (Hadmin auth) as [H1 H2]; [done|reflexivity| |split; [exact H1|tauto]].
    destruct (map_err _ _) as [h|]; [|done]. change (update_user_password id now h t) with ((update_user_password id now h t).1, (update_user_password id now h t).2).
    cbv iota beta. rewrite answered_tables. destruct ok; [|done]. by apply password_keyed.
  - edestruct (Hadmin auth) as [H1 H2]; [done|reflexivity| |split; [exact H1|tauto]].
    destruct ok; [|done]. by apply map_Forall_delete.
  - destruct Hsame as [H1 H2]; [|by split; [|left]]. right. unfold serve.
    by destruct (login_sessions ok ok' now jti b t) as [(o & -> & _)|(user & exp & token & _ & _ & _ & _ & _ & Hn & _ & ->)].
  - unfold serve, change_password. destruct ok; simpl; [|by split; [|left]]. unfold get_user.
    destruct (users_table t !! au_user_id auth) as [user|] eqn:Eu; simpl; [|by split; [|left]].
    destruct (verify_password _ _) as [[]|] eqn:Ev; simpl; [|by split; [|left]..]. destruct (hashed _ _) as [h|] eqn:Eh; simpl; [|by split; [|left]].
    destruct ok'; simpl; [|by split; [|left]]. split; [by apply password_keyed|]. right. right. by exists true, true, salt, auth, b, user, h.
  - destruct Hsame as [H1 H2]; [|by split; [|left]]. right. unfold serve. unfold logout. simpl. settle.
  - destruct Hsame as [H1 H2]; [|by split; [|left]]. right. unfold serve. unfold create_key_handler, answered, create_api_key. settle.
  - destruct Hsame as [H1 H2]; [|by split; [|left]]. right. unfold serve. unfold get_api_key_by_hash. simpl. settle.
  - destruct Hsame as [H1 H2]; [|by split; [|left]]. right. unfold serve. unfold revoke_key_handler, answered, revoke_api_key. settle.
  - destruct Hsame as [H1 H2]; [|by split; [|left]]. right. unfold serve. unfold audit_action, create_audit_log. simpl. settle.
  - destruct Hsame as [H1 H2]; [|by split; [|left]]. by right.
Qed.

Lemma serve_all_keyed reqs : forall t, users_keyed t -> users_keyed (serve_all reqs t).
Proof. induction reqs as [|[n r] reqs IH]; intros t Ht; [done|]. by apply (IH (serve n r t)), serve_users. Qed.
End Handlers.

(** ** What credentials are worth *)

Definition bearer (token : string) : option string := Some ("Bearer " +:+ token)%string.

Definition acts_as (u : User) : AuthUser := {| au_user_id := u_id u; au_username := u_username u; au_role := u_role u |}.

Section Worth.
Context `{HI : HashIter} `{CO : Collation} `{PW : Passwords} `{TK : Tokens}.
Context (sha256_hex : string -> string) (parse_uuid : string -> option Uuid) (now : timestamp) (secret : string) (tokens : Tables).

(** A token in the header is read as a session, whatever the account is now. *)
Lemma token_resolved t c token : encode_claims secret c = Ok token ->
  authenticate sha256_hex (decode_claims (now / 10 ^ 9)) parse_uuid now true secret (Some (auth_answers now tokens t)) None (bearer token) None =
  resolve_jwt (decode_claims (now / 10 ^ 9)) parse_uuid secret (Some (auth_answers now tokens t)) token.
Proof.
  intros Hc. by destruct (encoded_shape _ _ _ Hc) as [rest ->].
Qed.

Lemma key_resolved t digits : starts_with "svc_" digits = false ->
  authenticate sha256_hex (decode_claims (now / 10 ^ 9)) parse_uuid now true secret (Some (auth_answers now tokens t)) (Some (generate_key digits)) None None =
  resolve_api_key sha256_hex (Some (auth_answers now tokens t)) (generate_key digits).
Proof.
  intros Hd. unfold authenticate. cbn [negb].
  by replace (starts_with "chola_svc_" (generate_key digits)) with false by (symmetry; exact Hd).
Qed.
End Worth.

(** C36. A session acts as the user who logged in, with the role of then, until it
    expires or a request ends it, and those are the only ways: whatever requests
    follow a login, made by whomever, its token is accepted exactly before its
    expiry and while nobody logged it out or deleted the account. Neither
    disabling the account, nor taking its role away, nor changing its password
    ends it. *)
Theorem session_until_ended `{HI : HashIter} `{CO : Collation} `{PW : Passwords} `{TK : Tokens}
    (is_uppercase is_numeric : string -> bool) (sha256_hex : string -> string) (rfc3339 : timestamp -> string)
    (uuid_to_string : Uuid -> string) (parse_uuid : string -> option Uuid) (later : timestamp -> Z -> option timestamp)
    (secret : string) (expiry : Z) (ok ok' : bool) (start now : timestamp) (jti : string) (b : LoginRequest) (t0 t1 : Accounts)
    (resp : LoginResponse) (reqs : list (timestamp * request)) (tokens : Tables) :
  (forall id, parse_uuid (uuid_to_string id) = Some id) ->
  (forall n secs e, later n secs = Some e -> e = n + secs * 10 ^ 9) ->
  0 <= expiry < 2 ^ 63 -> 0 <= start / 10 ^ 9 < 2 ^ 63 ->
  login rfc3339 uuid_to_string later ok ok' start jti secret expiry b (Some t0) = (Some (Ok resp), Some t1) ->
  Forall (fun r => new_session jti r.2 /\ r.1 <= now) reqs ->
  exists user, get_user_by_username (lg_username b) t0 = Some user /\ u_active user = true /\
    verify_password (lg_password b) (u_password_hash user) = Ok true /\
    (authenticate sha256_hex (decode_claims (now / 10 ^ 9)) parse_uuid now true secret
       (Some (auth_answers now tokens (serve_all is_uppercase is_numeric sha256_hex rfc3339 uuid_to_string later secret expiry reqs t1)))
       None (bearer (lr_token resp)) None = Ok (acts_as user) <->
     now < start + expiry * 10 ^ 9 /\ Forall (fun r => ends_session secret (u_id user) jti r.1 r.2 = false) reqs).
Proof.
  intros Hid Hlater Hexp Hstart Hlogin Hreqs.
  destruct (login_sessions rfc3339 uuid_to_string later secret expiry ok ok' start jti b t0)
    as [(o & H & Ho)|(user & e & token & Hu & Hact & Hver & Hl & Henc & Hnone & _ & H)]; rewrite Hlogin in H.
  { injection H as <- _. by destruct (Ho resp). }
  injection H as -> ->. apply Hlater in Hl. rewrite as_i64_small in Hl by lia. exists user. split_and!; [done..|].
  set (t1 := with_sessions _ t0). set (t2 := serve_all _ _ _ _ _ _ _ _ reqs t1). simpl lr_token.
  rewrite (token_resolved sha256_hex parse_uuid now secret tokens t2 _ token Henc).
  assert (Hs1 : sessions_table t1 !! jti = Some {| se_user_id := u_id user; se_token_jti := jti; se_expires_at := e; se_revoked := false; se_created_at := start |})
    by apply lookup_insert_eq.
  destruct (session_fate is_uppercase is_numeric sha256_hex rfc3339 uuid_to_string later secret expiry (u_id user) jti e now reqs t1 Hreqs) as [Hfate _].
  { intros s Hs. rewrite Hs1 in Hs. by injection Hs as <-. }
  rewrite <- Hl, <- Hfate by (by eexists). fold t2. split.
  - intros (claims & Hdec & Hvalid & _)%resolve_jwt_inv. apply (decoded_same _ _ _ _ _ Henc) in Hdec as ->.
    specialize (Hvalid _ eq_refl). simpl in Hvalid. by injection Hvalid.
  - intros Hvalid. unfold resolve_jwt. rewrite (decode_encoded _ _ _ _ Henc).
    + simpl. rewrite Hvalid. simpl. by rewrite Hid, from_as_db_str.
    + apply Hfate in Hvalid as [Hnow _]; [|by eexists]. simpl. unfold u64_add.
      assert (Hd : now / 10 ^ 9 <= (start + expiry * 10 ^ 9) / 10 ^ 9) by (apply Z.div_le_mono; lia).
      rewrite Z.div_add in Hd by lia. rewrite wrap_small by lia. lia.
Qed.

(** An API key follows the account. Once it was created, and whatever requests
    follow, it is accepted exactly while its owner has not revoked it and the
    account was not deleted and is active, and it gives the name and the role that
    the account has at that time. *)
Theorem key_follows_account `{HI : HashIter} `{CO : Collation} `{PW : Passwords} `{TK : Tokens}
    (is_uppercase is_numeric : string -> bool) (sha256_hex : string -> string) (rfc3339 : timestamp -> string)
    (uuid_to_string : Uuid -> string) (parse_uuid : string -> option Uuid) (later : timestamp -> Z -> option timestamp)
    (secret : string) (expiry : Z) (ok : bool) (kid : Uuid) (digits name : string) (start now : timestamp) (auth : AuthUser)
    (t0 t1 : Accounts) (reply : Json) (reqs : list (timestamp * request)) (tokens : Tables) (v : AuthUser) :
  users_keyed t0 -> map_Forall (fun id k => ky_id k = id) (keys_table t0) -> starts_with "svc_" digits = false ->
  create_key_handler sha256_hex rfc3339 uuid_to_string ok kid digits start auth name (Some t0) = (Ok reply, Some t1) ->
  Forall (fun r => new_key sha256_hex kid (sha256_hex (generate_key digits)) r.2) reqs ->
  let t2 := serve_all is_uppercase is_numeric sha256_hex rfc3339 uuid_to_string later secret expiry reqs t1 in
  authenticate sha256_hex (decode_claims (now / 10 ^ 9)) parse_uuid now true secret (Some (auth_answers now tokens t2))
    (Some (generate_key digits)) None None = Ok v <->
  Forall (fun r => ends_key (au_user_id auth) kid r.2 = false) reqs /\
  exists user, users_table t2 !! au_user_id auth = Some user /\ u_active user = true /\ v = acts_as user.
Proof.
  intros Husers Hkeys Hsvc Hcreate Hreqs t2. set (h := sha256_hex (generate_key digits)) in *.
  rewrite (key_resolved sha256_hex parse_uuid now secret tokens t2 digits Hsvc).
  assert (Ht1 : users_keyed t1 /\ sole_key (au_user_id auth) kid h t1 /\ live kid t1).
  { revert Hcreate. unfold create_key_handler, answered, create_api_key. destruct (_ || (255 <? _)); [done|]. destruct ok; [|done].
    destruct (negb _); [done|]. destruct (bool_decide (is_Some (keys_table t0 !! kid)) || _) eqn:E; [done|].
    destruct (bool_decide (is_Some (users_table t0 !! _))); [|done]. intros [= _ <-].
    apply orb_false_iff in E as [_ Hh]. rewrite map_any_false in Hh. split; [done|]. split.
    - split; simpl.
      + by apply map_Forall_insert_2.
      + intros id k [[<- <-]|[Hne Hk]]%lookup_insert_Some; [done|]. specialize (Hh id k Hk). apply bool_decide_eq_false in Hh. naive_solver.
      + intros k. rewrite lookup_insert_eq. by intros [= <-].
    - eexists. simpl. by rewrite lookup_insert_eq. }
  destruct Ht1 as (Hu1 & Hsole & Hlive).
  destruct (key_fate is_uppercase is_numeric sha256_hex rfc3339 uuid_to_string later secret expiry (au_user_id auth) kid h reqs t1 Hreqs Hsole)
    as (Hsole2 & _ & Hfate). specialize (Hfate Hlive). fold t2 in Hsole2, Hfate.
  destruct (key_answer (au_user_id auth) kid h now t2 Hsole2) as [Halive Hdead].
  pose proof (serve_all_keyed is_uppercase is_numeric sha256_hex rfc3339 uuid_to_string later secret expiry reqs t1 Hu1) as Hu2. fold t2 in Hu2.
  unfold resolve_api_key. simpl. fold h. case_bool_decide as Hends.
  - rewrite (Halive Hfate). unfold get_user. destruct (users_table t2 !! au_user_id auth) as [user|] eqn:Eu; [|split; [done|by intros (_ & user & [=] & _)]].
    destruct (u_active user) eqn:Ea; simpl; [|split; [done|intros (_ & user' & [= <-] & Ha & _); congruence]].
    split; [intros [= <-]; split; [done|by exists user]|]. by intros (_ & user' & [= <-] & _ & ->).
  - rewrite (Hdead Hfate). split; [done|]. by intros [Hf _].
Qed.

(** C37. Nobody promotes himself. While no super-admin makes a request, every
    account keeps its name, role and active flag, and none appears or goes; and the
    password of an account is changed only by a request of its own that states the
    present one. *)
Theorem no_escalation `{HI : HashIter} `{CO : Collation} `{PW : Passwords} `{TK : Tokens}
    (is_uppercase is_numeric : string -> bool) (sha256_hex : string -> string) (rfc3339 : timestamp -> string)
    (uuid_to_string : Uuid -> string) (later : timestamp -> Z -> option timestamp)
    (secret : string) (expiry : Z) (reqs : list (timestamp * request)) (t : Accounts) (uid : Uuid) :
  users_keyed t ->
  Forall (fun r => forall auth, author r.2 = Some auth -> au_role auth <> SuperAdmin) reqs ->
  let t' := serve_all is_uppercase is_numeric sha256_hex rfc3339 uuid_to_string later secret expiry reqs t in
  (fun u => (u_username u, u_role u, u_active u)) <$> users_table t' !! uid = (fun u => (u_username u, u_role u, u_active u)) <$> users_table t !! uid /\
  (u_password_hash <$> users_table t' !! uid = u_password_hash <$> users_table t !! uid \/
   exists now ok ok' salt auth b user, (now, ReqChangePassword ok ok' salt auth b) ∈ reqs /\ au_user_id auth = uid /\
     verify_password (cw_current_password b) (u_password_hash user) = Ok true /\ users_table t !! uid = Some user).
Proof.
  intros Ht Hreqs t'. subst t'. revert t Ht. induction reqs as [|[n r] reqs IH]; intros t Ht; [by split; [|left]|].
  apply Forall_cons in Hreqs as [Hr Hreqs]. simpl in Hr. change (serve_all _ _ _ _ _ _ _ _ ((n, r) :: reqs) t) with
    (serve_all is_uppercase is_numeric sha256_hex rfc3339 uuid_to_string later secret expiry reqs
       (serve is_uppercase is_numeric sha256_hex rfc3339 uuid_to_string later secret expiry n r t)).
  destruct (serve_users is_uppercase is_numeric sha256_hex rfc3339 uuid_to_string later secret expiry n r t Ht) as [Ht1 Hcases].
  destruct (IH Hreqs _ Ht1) as [IH1 IH2].
  destruct Hcases as [E|[(auth & Ha & Hm)|(ok & ok' & salt & auth & b & user & h & -> & Hu & Hv & _ & E)]].
  - rewrite E in IH1, IH2. split; [done|]. destruct IH2 as [IH2|(n' & a1 & a2 & a3 & a4 & a5 & a6 & Hin & H)]; [by left|right].
    exists n', a1, a2, a3, a4, a5, a6. split; [by right|done].
  - exfalso. apply (Hr auth Ha). by destruct (au_role auth).
  - destruct (decide (au_user_id auth = uid)) as [<-|Hne].
    + rewrite E, lookup_alter_eq, Hu in IH1. rewrite Hu. split; [done|right]. exists n, ok, ok', salt, auth, b, user. split; [by left|done].
    + rewrite E, lookup_alter_ne in IH1, IH2 by done. split; [done|]. destruct IH2 as [IH2|(n' & a1 & a2 & a3 & a4 & a5 & a6 & Hin & H)]; [by left|right].
      exists n', a1, a2, a3, a4, a5, a6. split; [by right|done].
Qed.

(** ** An account *)

Definition toy_passwords : Passwords.
Proof.
  refine {| hash_password := fun _ p => Ok ("#" +:+ p)%string; verify_password := fun p h => Ok (bool_decide (h = ("#" +:+ p)%string)) |}.
  intros _ p h [= <-]. by rewrite bool_decide_true.
Defined.

#[local] Instance Claims_eq_dec : EqDecision Claims.
Proof. solve_decision. Defined.

(** A signer of one claim. *)
Definition toy_tokens (c0 : Claims) : Tokens.
Proof.
  refine {| encode_claims := fun _ c => if decide (c = c0) then Ok "eyJ0" else Err "claims";
            decode_claims := fun now _ t => if bool_decide (t = "eyJ0") && (now <=? cl_exp c0 + 60) then Ok c0 else Err "ExpiredSignature" |}.
  - intros _ c t. destruct (decide _); [|done]. intros [= <-]. by exists "J0"%string.
  - intros _ c t now. destruct (decide (c = c0)) as [->|]; [|done]. intros [= <-] Hn. simpl. by rewrite (proj2 (Z.leb_le _ _) Hn).
  - intros _ c t now c'. destruct (decide (c = c0)) as [->|]; [|done]. intros [= <-]. by destruct (_ && _); [intros [= <-]|].
Defined.

Definition toy_digit (c : string) : bool := existsb (fun d => bool_decide (c = d)) ["0"; "1"; "2"; "3"]%string.
Definition toy_upper (c : string) : bool := existsb (fun d => bool_decide (c = d)) ["A"; "B"; "C"; "P"]%string.
Definition toy_later (n secs : Z) : option timestamp := Some (n + secs * 10 ^ 9).

(** Ids as tallies. *)
Fixpoint tally (n : nat) : string := match n with O => EmptyString | S k => ("I" +:+ tally k)%string end.
Definition id_text (u : Uuid) : string := tally (N.to_nat u).
Definition text_id (s : string) : option Uuid := Some (N.of_nat (String.length s)).

Lemma tally_length n : String.length (tally n) = n.
Proof. induction n as [|n IH]; [done|]. simpl tally. by rewrite str_length_app, IH. Qed.

Lemma text_id_text u : text_id (id_text u) = Some u.
Proof. unfold text_id, id_text. by rewrite tally_length, N2Nat.id. Qed.

Definition root : AuthUser := {| au_user_id := 9%N; au_username := "root"; au_role := SuperAdmin |}.
Definition ada_itself : AuthUser := {| au_user_id := 1%N; au_username := "ada"; au_role := Admin |}.

Definition ada : User := {|
  u_id := 1%N; u_username := "ada"; u_password_hash := "#Passw0rd"; u_display_name := None; u_role := Admin; u_active := true;
  u_created_at := 0; u_updated_at := 0 |}.

Definition one_account : Accounts := {| users_table := {[ 1%N := ada ]}; sessions_table := ∅; keys_table := ∅; audit_log := [] |}.

Lemma one_account_keyed : users_keyed one_account.
Proof. by apply map_Forall_singleton. Qed.

Definition ada_claims : Claims := new_claims id_text 0 "jti-1" ada 3600.
Definition ada_login : LoginRequest := {| lg_username := "ada"; lg_password := "Passw0rd" |}.

(** Ten minutes later a super-admin disables the account and makes it a viewer. *)
Definition disable_ada : list (timestamp * request) :=
  [(600 * 10 ^ 9, ReqUpdateUser true "" root 1%N {| uu_display_name := None; uu_role := Some "viewer"%string; uu_active := Some false; uu_password := None |})].

Definition toy_serve (reqs : list (timestamp * request)) (t : Accounts) : Accounts :=
  serve_all (HI := map_iter) (PW := toy_passwords) (TK := toy_tokens ada_claims) toy_upper toy_digit (fun s => s) plain_date id_text toy_later "secret" 3600 reqs t.

Definition logged_in : option (result LoginResponse ApiError) * option Accounts :=
  login (HI := map_iter) (PW := toy_passwords) (TK := toy_tokens ada_claims) plain_date id_text toy_later true true 0 "jti-1" "secret" 3600 ada_login (Some one_account).

Definition acts (now : timestamp) (token : string) (t : Accounts) : result AuthUser AuthError :=
  authenticate (fun s => s) (decode_claims (Tokens := toy_tokens ada_claims) (now / 10 ^ 9)) text_id now true "secret"
    (Some (auth_answers (HI := map_iter) now {| worker_tokens := []; worker_rows := ∅ |} t)) None (bearer token) None.

(** The session survives being disabled, and ends an hour after the login. *)
Lemma session_until_ended_witness :
  match logged_in with
  | (Some (Ok resp), Some t1) =>
      let t2 := toy_serve disable_ada t1 in
      acts (1200 * 10 ^ 9) (lr_token resp) t2 = Ok ada_itself /\ acts (3601 * 10 ^ 9) (lr_token resp) t2 <> Ok ada_itself /\
      u_active <$> users_table t2 !! 1%N = Some false
  | _ => False
  end.
Proof.
  destruct logged_in as [[[resp|]|] [t1|]] eqn:El; try (vm_compute in El; discriminate El).
  assert (Hearly : Forall (fun r : timestamp * request => new_session "jti-1" r.2 /\ r.1 <= 1200 * 10 ^ 9) disable_ada)
    by (apply Forall_cons; split; [split; [exact I|vm_compute; discriminate]|apply Forall_nil; exact I]).
  assert (Hlate : Forall (fun r : timestamp * request => new_session "jti-1" r.2 /\ r.1 <= 3601 * 10 ^ 9) disable_ada)
    by (apply Forall_cons; split; [split; [exact I|vm_compute; discriminate]|apply Forall_nil; exact I]).
  assert (Hadd : forall n secs e, toy_later n secs = Some e -> e = n + secs * 10 ^ 9) by (intros n secs e [= <-]; reflexivity).
  destruct (session_until_ended (HI := map_iter) (CO := byte_collation) (PW := toy_passwords) (TK := toy_tokens ada_claims)
    toy_upper toy_digit (fun s => s) plain_date id_text text_id toy_later "secret" 3600 true true 0 (1200 * 10 ^ 9) "jti-1" ada_login one_account t1 resp
    disable_ada {| worker_tokens := []; worker_rows := ∅ |} text_id_text Hadd ltac:(lia) ltac:(vm_compute; split; [discriminate|reflexivity]) El Hearly)
    as (user & Hu & _ & _ & [_ H1]).
  destruct (session_until_ended (HI := map_iter) (CO := byte_collation) (PW := toy_passwords) (TK := toy_tokens ada_claims)
    toy_upper toy_digit (fun s => s) plain_date id_text text_id toy_later "secret" 3600 true true 0 (3601 * 10 ^ 9) "jti-1" ada_login one_account t1 resp
    disable_ada {| worker_tokens := []; worker_rows := ∅ |} text_id_text Hadd ltac:(lia) ltac:(vm_compute; split; [discriminate|reflexivity]) El Hlate)
    as (user' & Hu' & _ & _ & [H2 _]).
  assert (user = ada) as -> by (vm_compute in Hu; injection Hu as <-; reflexivity).
  assert (user' = ada) as -> by (vm_compute in Hu'; injection Hu' as <-; reflexivity).
  split; [|split].
  - apply H1. split; [vm_compute; reflexivity|]. apply Forall_cons. split; [vm_compute; reflexivity|apply Forall_nil; exact I].
  - intros H. destruct (H2 H) as [Hlt _]. vm_compute in Hlt. discriminate Hlt.
  - vm_compute in El. injection El as <- <-. vm_compute. reflexivity.
Defined.

Definition ada_key : Reply Accounts := create_key_handler (fun s => s) plain_date id_text true 5%N "00ff" 0 ada_itself "ci" (Some one_account).

(** The key of the account is refused once it is disabled. *)
Lemma key_follows_account_witness :
  match ada_key with
  | (Ok _, Some t1) =>
      let answers t := Some (auth_answers (HI := map_iter) 0 {| worker_tokens := []; worker_rows := ∅ |} t) in
      let acts t := authenticate (fun s => s) (decode_claims (Tokens := toy_tokens ada_claims) 0) text_id 0 true "secret" (answers t)
                      (Some (generate_key "00ff")) None None in
      acts t1 = Ok ada_itself /\ acts (toy_serve disable_ada t1) <> Ok ada_itself
  | _ => False
  end.
Proof.
  destruct ada_key as [[reply|] [t1|]] eqn:Ek; try (vm_compute in Ek; discriminate Ek).
  pose proof (fun reqs v Hreqs => key_follows_account (HI := map_iter) (CO := byte_collation) (PW := toy_passwords) (TK := toy_tokens ada_claims)
    toy_upper toy_digit (fun s => s) plain_date id_text text_id toy_later "secret" 3600 true 5%N "00ff" "ci" 0 0 ada_itself one_account t1 reply reqs
    {| worker_tokens := []; worker_rows := ∅ |} v one_account_keyed (map_Forall_empty _) eq_refl Ek Hreqs) as H.
  assert (Hu : users_table t1 = users_table one_account) by (vm_compute in Ek; injection Ek as _ <-; reflexivity).
  split.
  - apply (H [] ada_itself (Forall_nil_2 _)). split; [apply Forall_nil; exact I|]. exists ada.
    split; [|split; reflexivity]. change (users_table t1 !! 1%N = Some ada). by rewrite Hu.
  - intros Ha. apply (H disable_ada ada_itself) in Ha as (_ & user & Hu2 & Hact & _); [|apply Forall_cons; split; [exact I|apply Forall_nil; exact I]].
    vm_compute in Ek. injection Ek as _ <-. vm_compute in Hu2. injection Hu2 as <-. discriminate Hact.
Defined.

(** An account that is no super-admin asks to delete and to promote. *)
Definition climb : list (timestamp * request) := [
  (1, ReqUpdateUser true "" ada_itself 1%N {| uu_display_name := None; uu_role := Some "super_admin"%string; uu_active := None; uu_password := None |});
  (2, ReqDeleteUser true ada_itself 1%N);
  (3, ReqChangePassword true true "" ada_itself {| cw_current_password := "guess"; cw_new_password := "Password1" |})].

Lemma no_escalation_witness :
  u_role <$> users_table (toy_serve climb one_account) !! 1%N = Some Admin /\
  u_password_hash <$> users_table (toy_serve climb one_account) !! 1%N = Some "#Passw0rd"%string.
Proof.
  destruct (no_escalation (HI := map_iter) (CO := byte_collation) (PW := toy_passwords) (TK := toy_tokens ada_claims)
    toy_upper toy_digit (fun s => s) plain_date id_text toy_later "secret" 3600 climb one_account 1%N one_account_keyed) as [H1 H2].
  { apply Forall_forall. intros [n r] Hin auth Ha. unfold climb in Hin.
    repeat (apply elem_of_cons in Hin as [[= -> ->]|Hin]; [injection Ha as <-; discriminate|]). by apply not_elem_of_nil in Hin. }
  unfold toy_serve. split.
  - change (users_table one_account !! 1%N) with (Some ada) in H1. destruct (users_table _ !! 1%N) as [u|]; [|discriminate H1].
    injection H1 as _ Hr _. simpl. by rewrite Hr.
  - destruct H2 as [H2|(n & ok & ok' & salt & auth & b & user & Hin & _ & Hv & Hu)]; [rewrite H2; reflexivity|].
    exfalso. unfold climb in Hin. vm_compute in Hu. injection Hu as <-.
    repeat (apply elem_of_cons in Hin as [Heq|Hin]; [try discriminate Heq|]); [|by apply not_elem_of_nil in Hin].
    injection Heq as -> -> -> -> -> ->. vm_compute in Hv. discriminate Hv.
Defined.

(** The last super-admin can be deleted, by himself; nobody can create another
    then but the start-up. *)
Example last_admin_deleted :
  let t := with_users {[ 9%N := {| u_id := 9%N; u_username := "root"; u_password_hash := "#R00troot"; u_display_name := None; u_role := SuperAdmin;
                                   u_active := true; u_created_at := 0; u_updated_at := 0 |} ]} empty_accounts in
  let '(r, st) := delete_user_handler true root 9%N (Some t) in
  is_ok r = true /\ users_table <$> st = Some ∅.
Proof. vm_compute. split; reflexivity. Qed.
