(* ===== verification/Tables.v ===== *)
(** * Sweeps and limits over the tables of builds
    (crates/ci-controller/src/retention.rs over storage.rs; the concurrency
    section of do_reserve_worker in grpc_server.rs)

    [Retention] and [Reservation] take the answers of the database as given; here
    the answers are those of the tables of [BuildStore], and the updates that are
    asked for are carried out on them. *)

From Stdlib Require Import ZArith Lia Sorted.
From stdpp Require Import gmap strings list fin_maps sets.
From S2P Require Import Prelude F64 WorkerModel JobModel StageModel WorkerRegistry JobRegistry JobGroupRegistry.
From S2P Require Import Controller Dag BuildStore Reservation Retention.

(** ** Sweeps *)

Section Sweeps.
Context `{HI : HashIter}.

(** The database statement behind an action. *)
Definition perform (now : timestamp) (b : Builds) (act : purge_action) : Builds :=
  match act with
  | RemoveDir _ => b
  | MarkPurged ids => (BuildStore.mark_files_purged now now ids b).2
  | Archive ids => (BuildStore.archive_groups_batch now ids b).2
  | DeleteArchive ids => (BuildStore.delete_archive_batch ids b).2
  end.

Definition performed (now : timestamp) (acts : list purge_action) (b : Builds) : Builds := foldl (perform now) b acts.

(** The tables when the surplus is looked for: the old builds are gone. *)
Definition past_old (now t2_days : Z) (b : Builds) : Builds :=
  (BuildStore.archive_groups_batch now (BuildStore.find_groups_for_t2 now t2_days 100 b) b).2.

(** The database answers a T2 sweep from the tables. *)
Record t2_answers (now t2_days max_per_repo : Z) (b : Builds) (db : Database) : Prop := {
  ta_old : find_groups_for_t2 db t2_days 100 = Ok (BuildStore.find_groups_for_t2 now t2_days 100 b);
  ta_excess : find_excess_groups_per_repo db max_per_repo = Ok (BuildStore.find_excess_groups_per_repo max_per_repo (past_old now t2_days b));
  ta_archive : forall ids, exists n, archive_groups_batch db ids = Ok n
}.

(** The builds [ids] went to the archive, each with its jobs, and the others
    stayed as they are. *)
Record moved (now : timestamp) (ids : list Uuid) (b b' : Builds) : Prop := {
  mv_groups : forall gid, job_groups b' !! gid = if decide (gid ∈ ids) then None else job_groups b !! gid;
  mv_jobs : forall id, jobs_table b' !! id =
    match jobs_table b !! id with Some j => if decide (dj_job_group_id j ∈ ids) then None else Some j | None => None end;
  mv_archive : forall gid r, gid ∈ ids -> job_groups b !! gid = Some r -> (now, r) ∈ job_groups_archive b';
  mv_jobs_archive : forall id j, dj_job_group_id j ∈ ids -> jobs_table b !! id = Some j -> (now, j) ∈ jobs_archive b';
  mv_kept : job_groups_archive b ⊆ job_groups_archive b';
  mv_jobs_kept : jobs_archive b ⊆ jobs_archive b'
}.

Lemma moved_nothing now b : moved now [] b b.
Proof.
  split; try done.
  - intros id. by destruct (jobs_table b !! id).
  - by intros gid r ?%not_elem_of_nil.
  - by intros id j ?%not_elem_of_nil.
Qed.

Lemma moved_archive now ids b : builds_wf b -> moved now ids b (BuildStore.archive_groups_batch now ids b).2.
Proof.
  intros Hwf. split.
  - intros gid. by apply archive_live_groups.
  - apply archive_live_jobs.
  - intros gid r Hin Hr. apply archived_groups; [done|]. right. by rewrite (bw_groups _ Hwf gid r Hr).
  - intros id j Hin Hj. apply archived_jobs. right. eauto.
  - intros x Hx. simpl. apply elem_of_app. by left.
  - intros x Hx. simpl. apply elem_of_app. by left.
Qed.

Lemma moved_app now i1 i2 b b1 b2 : moved now i1 b b1 -> moved now i2 b1 b2 -> moved now (i1 ++ i2) b b2.
Proof.
  intros [A1 A2 A3 A4 A5 A6] [B1 B2 B3 B4 B5 B6]. split.
  - intros gid. rewrite B1, A1. repeat case_decide; set_solver.
  - intros id. rewrite B2, A2. destruct (jobs_table b !! id) as [j|]; [|done].
    destruct (decide (dj_job_group_id j ∈ i1)), (decide (dj_job_group_id j ∈ i1 ++ i2)) as [Hin|Hin];
      rewrite elem_of_app in Hin; try tauto; by case_decide; try tauto.
  - intros gid r Hin Hr. destruct (decide (gid ∈ i1)) as [H1|H1]; [by apply B5, (A3 gid)|].
    apply elem_of_app in Hin as [?|H2]; [done|]. apply (B3 gid); [done|]. by rewrite A1, decide_False.
  - intros id j Hin Hj. destruct (decide (dj_job_group_id j ∈ i1)) as [H1|H1]; [by apply B6, (A4 id)|].
    apply elem_of_app in Hin as [?|H2]; [done|]. apply (B4 id); [done|]. by rewrite A2, Hj, decide_False.
  - by etrans.
  - by etrans.
Qed.

(** A run of archivings moves the builds of all its batches. *)
Lemma archives_move now batches b : builds_wf b ->
  builds_wf (performed now (Archive <$> batches) b) /\ moved now (concat batches) b (performed now (Archive <$> batches) b).
Proof.
  revert b. induction batches as [|ids batches IH]; intros b Hwf; [split; [done|apply moved_nothing]|].
  destruct (IH (BuildStore.archive_groups_batch now ids b).2) as [I1 I2]; [by apply archive_wf|]. split; [done|].
  eapply moved_app; [by apply moved_archive|done].
Qed.

Lemma archive_all_ok (db : Database) batches total :
  (forall ids, exists n, archive_groups_batch db ids = Ok n) -> exists n, archive_all db batches total = (Ok n, Archive <$> batches).
Proof.
  intros Hdb. revert total. induction batches as [|ids batches IH]; intros total; [by exists total|]. simpl.
  destruct (Hdb ids) as [n ->]. destruct (IH (u64_add total n)) as [n' ->]. by exists n'.
Qed.

(** What T2 is to move. *)
Definition t2_due (now t2_days max_per_repo : Z) (b : Builds) : list Uuid :=
  BuildStore.find_groups_for_t2 now t2_days 100 b ++
  (if 0 <? max_per_repo then BuildStore.find_excess_groups_per_repo max_per_repo (past_old now t2_days b) else []).

Lemma run_t2_actions now t2_days max_per_repo b db : t2_answers now t2_days max_per_repo b db ->
  exists n batches, run_t2 db t2_days max_per_repo = (Ok n, Archive <$> batches) /\ concat batches = t2_due now t2_days max_per_repo b.
Proof.
  intros [H1 H2 H3]. unfold run_t2, t2_due. rewrite H1.
  assert (He : forall total, exists n batches, archive_excess db max_per_repo total = (Ok n, Archive <$> batches) /\
    concat batches = if 0 <? max_per_repo then BuildStore.find_excess_groups_per_repo max_per_repo (past_old now t2_days b) else []).
  { intros total. unfold archive_excess. destruct (0 <? max_per_repo); [|by exists total, []]. rewrite H2.
    destruct (archive_all_ok db (chunks 100 (BuildStore.find_excess_groups_per_repo max_per_repo (past_old now t2_days b))) total H3) as [n ->].
    eexists _, _. split; [done|]. apply chunks_concat. lia. }
  destruct (BuildStore.find_groups_for_t2 now t2_days 100 b) as [|i ids]; [by apply He|].
  destruct (H3 (i :: ids)) as [n ->]. destruct (He (u64_add 0 n)) as (n' & batches & -> & E). exists n', ((i :: ids) :: batches).
  split; [done|]. simpl. by rewrite E.
Qed.

(** ** Which builds are due *)

Lemma elem_of_oldest_first limit p b gid : builds_wf b -> gid ∈ oldest_first limit p b ->
  exists r, job_groups b !! gid = Some r /\ p r = true.
Proof.
  intros Hwf Hin. unfold oldest_first in Hin. apply (subseteq_take _ _) in Hin.
  apply list_elem_of_fmap in Hin as (r & -> & [Hp [k Hk]%elem_of_hvalues]%elem_of_sort_by%list_elem_of_filter).
  exists r. by rewrite (bw_groups _ Hwf k r Hk).
Qed.

Lemma oldest_first_all limit p b gid r : builds_wf b -> job_groups b !! gid = Some r -> p r = true ->
  (Z.of_nat (length (group_rows p b)) <= limit) -> gid ∈ oldest_first limit p b.
Proof.
  intros Hwf Hr Hp Hl. unfold oldest_first. rewrite take_ge by (rewrite length_fmap, sort_by_perm; lia).
  apply list_elem_of_fmap. exists r. split; [by rewrite (bw_groups _ Hwf gid r Hr)|].
  apply elem_of_sort_by, list_elem_of_filter. split; [done|]. apply elem_of_hvalues. eauto.
Qed.

(** The builds that the numbering counts before a build are newer builds of its repo. *)
Lemma row_number_newer l r : StronglySorted (fun x y => gr_created_at y <= gr_created_at x) l -> r ∈ l -> NoDup (gr_id <$> l) ->
  exists newer, Z.of_nat (length newer) = row_number l r - 1 /\ newer ⊆ l /\ NoDup (gr_id <$> newer) /\
    forall x, x ∈ newer -> gr_repo_id x = gr_repo_id r /\ gr_created_at r <= gr_created_at x /\ gr_id x <> gr_id r.
Proof.
  induction l as [|x l IH]; intros Hs Hr Hnd; [by apply not_elem_of_nil in Hr|]. simpl. case_bool_decide as Hx.
  { exists []. split_and!; [done|set_solver|apply NoDup_nil_2|by intros y ?%not_elem_of_nil]. }
  apply StronglySorted_inv in Hs as [Hs Hall]. rewrite fmap_cons in Hnd. apply NoDup_cons in Hnd as [Hni Hnd].
  apply elem_of_cons in Hr as [->|Hr]; [done|]. destruct (IH Hs Hr Hnd) as (newer & Hlen & Hsub & Hn & Hall').
  case_bool_decide as Hrepo; [|exists newer; split_and!; [done|set_solver|done|done]].
  exists (x :: newer). split_and!.
  - simpl. lia.
  - set_solver.
  - rewrite fmap_cons. apply NoDup_cons. split; [|done]. intros (y & E & Hy)%list_elem_of_fmap. apply Hni. rewrite E.
    by apply list_elem_of_fmap_2, Hsub.
  - intros y [->|Hy]%elem_of_cons; [|by apply Hall']. split_and!; [done| |done]. rewrite Forall_forall in Hall. by apply Hall.
Qed.

Definition finished (r : GroupRow) : Prop := gr_state r ∈ ["success"; "failed"; "cancelled"].

(** There are [n] newer finished builds of the same repo. *)
Definition surplus (b : Builds) (n : Z) (r : GroupRow) : Prop :=
  finished r /\ exists newer : list GroupRow, n <= Z.of_nat (length newer) /\ NoDup (gr_id <$> newer) /\
    forall x, x ∈ newer -> job_groups b !! gr_id x = Some x /\ finished x /\ gr_id x <> gr_id r /\
      gr_repo_id x = gr_repo_id r /\ gr_created_at r <= gr_created_at x.

Lemma newest_first_sorted l :
  StronglySorted (fun x y => gr_created_at y <= gr_created_at x) (sort_by (fun x y => gr_created_at y ?= gr_created_at x) l).
Proof.
  apply (sort_by_sorted (fun x y => gr_created_at y ?= gr_created_at x)). split; unfold cmp_le.
  - intros x y _ _. change (gr_created_at y <= gr_created_at x \/ gr_created_at x <= gr_created_at y). lia.
  - intros x y z _ _ _ H1 H2. change (gr_created_at z <= gr_created_at x).
    change (gr_created_at y <= gr_created_at x) in H1. change (gr_created_at z <= gr_created_at y) in H2. lia.
Qed.

Lemma group_rows_live p b x : builds_wf b -> x ∈ group_rows p b -> job_groups b !! gr_id x = Some x /\ p x = true.
Proof. intros Hwf [Hp [k Hk]%elem_of_hvalues]%list_elem_of_filter. by rewrite (bw_groups _ Hwf k x Hk). Qed.

Lemma excess_surplus n b gid : builds_wf b -> gid ∈ BuildStore.find_excess_groups_per_repo n b ->
  exists r, job_groups b !! gid = Some r /\ surplus b n r.
Proof.
  intros Hwf Hin. unfold BuildStore.find_excess_groups_per_repo in Hin. set (rows := group_rows _ b) in Hin.
  apply (subseteq_take _ _) in Hin. apply list_elem_of_fmap in Hin as (r & -> & [Hn Hin]%list_elem_of_filter).
  assert (Hrow : forall x, x ∈ rows -> job_groups b !! gr_id x = Some x /\ finished x)
    by (intros x Hx; apply group_rows_live in Hx as [? ?%bool_decide_eq_true]; [split|]; done).
  destruct (Hrow r Hin) as [Hr Hf]. exists r. split; [done|]. split; [done|].
  destruct (row_number_newer (sort_by (fun x y => gr_created_at y ?= gr_created_at x) rows) r) as (newer & Hl & Hsub & Hnd & Hall).
  - apply newest_first_sorted.
  - by rewrite elem_of_sort_by.
  - rewrite sort_by_perm. apply NoDup_filter_keys, Hwf.
  - exists newer. split_and!; [lia|done|]. intros x Hx. destruct (Hall x Hx) as (? & ? & ?).
    apply Hsub in Hx. rewrite elem_of_sort_by in Hx. by destruct (Hrow x Hx).
Qed.

(** The build ended before the time. *)
Definition ended_by (t : timestamp) (r : GroupRow) : Prop := gr_state r ∈ ended_states /\ exists ended, gr_completed_at r = Some ended /\ ended < t.

Lemma ended_before_spec t r : ended_before t r = true <-> ended_by t r.
Proof.
  unfold ended_before, ended_by. rewrite andb_true_iff, bool_decide_eq_true. destruct (gr_completed_at r) as [c|]; [rewrite Z.ltb_lt|]; naive_solver.
Qed.

(** A T2 sweep over the tables: it succeeds, the constraints hold after it, and
    every build that was live is either untouched, row and jobs, or it is in the
    archive under the time of the sweep with all its jobs and out of the live
    tables; and then it had ended longer ago than the age that is set, or it was
    a finished build with at least [max_per_repo] newer finished builds of its
    repo, which were live when it went. When at most a hundred builds are old
    enough, none of them is left. *)
Theorem t2_round (now t2_days max_per_repo : Z) (b : Builds) (db : Database) :
  builds_wf b -> t2_answers now t2_days max_per_repo b db ->
  exists n acts, run_t2 db t2_days max_per_repo = (Ok n, acts) /\ let b' := performed now acts b in builds_wf b' /\
  forall gid r, job_groups b !! gid = Some r ->
    ((job_groups b' !! gid = Some r /\
      forall id j, jobs_table b !! id = Some j -> dj_job_group_id j = gid -> jobs_table b' !! id = Some j)
     \/ (job_groups b' !! gid = None /\ (now, r) ∈ job_groups_archive b' /\
         (forall id j, jobs_table b !! id = Some j -> dj_job_group_id j = gid -> jobs_table b' !! id = None /\ (now, j) ∈ jobs_archive b') /\
         (ended_by (now - days t2_days) r \/ (0 < max_per_repo /\ surplus (past_old now t2_days b) max_per_repo r)))) /\
    (ended_by (now - days t2_days) r -> (length (group_rows (ended_before (now - days t2_days)) b) <= 100)%nat ->
     job_groups b' !! gid = None).
Proof.
  intros Hwf Hans. destruct (run_t2_actions now t2_days max_per_repo b db Hans) as (n & batches & -> & Hb).
  exists n, (Archive <$> batches). split; [done|]. destruct (archives_move now batches b Hwf) as [Hwf' Hm]. simpl.
  rewrite Hb in Hm. set (b' := performed now (Archive <$> batches) b) in *. split; [done|]. destruct Hm as [M1 M2 M3 M4 _ _].
  intros gid r Hr. split.
  - destruct (decide (gid ∈ t2_due now t2_days max_per_repo b)) as [Hin|Hno]; [right|left].
    + split_and!; [by rewrite M1, decide_True|by apply (M3 gid)| |].
      * intros id j Hj <-. split; [by rewrite M2, Hj, decide_True|by apply (M4 id)].
      * unfold t2_due in Hin. apply elem_of_app in Hin as [Hin|Hin].
        -- left. apply (elem_of_oldest_first 100 _ b gid Hwf) in Hin as (r' & Hr' & Hp). apply ended_before_spec. congruence.
        -- right. destruct (Z.ltb_spec 0 max_per_repo) as [Hpos|]; [|by apply not_elem_of_nil in Hin]. split; [done|].
           pose proof (archive_wf now (BuildStore.find_groups_for_t2 now t2_days 100 b) b Hwf) as Hw1.
           apply excess_surplus in Hin as (r' & Hr' & Hs); [|done]. unfold past_old in Hr'. rewrite archive_live_groups in Hr' by done.
           case_decide; [done|]. congruence.
    + split; [by rewrite M1, decide_False|]. intros id j Hj <-. by rewrite M2, Hj, decide_False.
  - intros Hold%ended_before_spec Hlen. rewrite M1, decide_True; [done|]. apply elem_of_app. left. apply (oldest_first_all 100 _ b gid r); [done..|lia].
Qed.

(** T1 looks among the live builds only, so a build in the archive whose files
    are still there is never a candidate again. *)
Lemma t1_live_only now t1_days limit b gid : builds_wf b -> gid ∈ BuildStore.find_groups_for_t1 now t1_days limit b ->
  exists r, job_groups b !! gid = Some r /\ ended_before (now - days t1_days) r = true /\ gr_files_purged_at r = None.
Proof.
  intros Hwf Hin. apply elem_of_oldest_first in Hin as (r & Hr & [H1 H2%bool_decide_eq_true]%andb_true_iff); eauto.
Qed.

Lemma archived_files_stay now ids b now' t1_days limit gid : builds_wf b -> gid ∈ ids ->
  gid ∉ BuildStore.find_groups_for_t1 now' t1_days limit (BuildStore.archive_groups_batch now ids b).2.
Proof.
  intros Hwf Hin Ht1. apply t1_live_only in Ht1 as (r & Hr & _); [|by apply archive_wf].
  rewrite archive_live_groups, decide_True in Hr by done. done.
Qed.
End Sweeps.

(** ** The limit on concurrent builds *)

Section Limit.
Context `{HI : HashIter}.

(** Cancelling the superseded builds, one update after another. *)
Definition supersede (now : timestamp) (ids : list Uuid) (b : Builds) : Builds :=
  foldl (fun b gid => (update_job_group_state now gid GCancelled (Some superseded_reason) b).2) b ids.

(** The database answers the concurrency section from the tables: the second
    count is taken after the cancellations. *)
Record limit_answers (now : timestamp) (gid : Uuid) (req : ReserveWorkerRequest) (p : plan) (b : Builds) (db : Answers) : Prop := {
  la_count : count_active_groups db = Ok (count_active_groups_for_repo (pl_repo_id p) b);
  la_superseded : find_superseded_groups db = Ok (BuildStore.find_superseded_groups (pl_repo_id p) (rq_branch req) gid b);
  la_recount : recount_active_groups db = Ok (count_active_groups_for_repo (pl_repo_id p)
    (supersede now (BuildStore.find_superseded_groups (pl_repo_id p) (rq_branch req) gid b) b))
}.

Lemma supersede_lookup now ids b gid :
  job_groups (supersede now ids b) !! gid =
  (if decide (gid ∈ ids) then state_row now GCancelled (Some superseded_reason) else id) <$> job_groups b !! gid.
Proof.
  revert b. induction ids as [|i ids IH]; intros b; simpl; [by destruct (job_groups b !! gid)|].
  rewrite IH. simpl. destruct (decide (gid = i)) as [->|Hne].
  - rewrite lookup_alter_eq. rewrite (decide_True _ _ (P := i ∈ i :: ids)) by by left.
    by destruct (job_groups b !! i); simpl; [case_decide|].
  - rewrite lookup_alter_ne by done. destruct (job_groups b !! gid); [|done]. simpl. f_equal. repeat case_decide; set_solver.
Qed.

(** Rows are counted whatever the order of the answer. *)
Lemma length_group_rows p b : length (group_rows p b) = size (filter (fun kv : Uuid * GroupRow => p kv.2 = true) (job_groups b)).
Proof.
  unfold group_rows, hvalues. rewrite <- length_map_to_list.
  transitivity (length (filter (fun kv : Uuid * GroupRow => p kv.2 = true) (hiter (job_groups b)))).
  - induction (hiter (job_groups b)) as [|[k v] l IH]; [done|]. rewrite fmap_cons, !filter_cons. simpl.
    case_decide; simpl; by rewrite IH.
  - apply Permutation_length. rewrite hiter_perm, map_filter_alt. symmetry. apply map_to_list_to_map.
    apply NoDup_fmap_filter, NoDup_fst_map_to_list.
Qed.

Definition on_branch (branch : string) (r : GroupRow) : bool := bool_decide (gr_branch r = Some branch).

Lemma elem_of_superseded gid rid branch b i r : builds_wf b -> job_groups b !! gid = None -> job_groups b !! i = Some r ->
  i ∈ BuildStore.find_superseded_groups rid branch gid b <-> counts_as_active rid r = true /\ on_branch branch r = true.
Proof.
  intros Hwf Hno Hr. unfold BuildStore.find_superseded_groups. rewrite list_elem_of_fmap. split.
  - intros (x & -> & Hx%elem_of_sort_by). apply group_rows_live in Hx as [Hx Hp]; [|done]. rewrite Hr in Hx. injection Hx as <-.
    apply andb_true_iff in Hp as [[? ?]%andb_true_iff _]. done.
  - intros [H1 H2]. exists r. pose proof (bw_groups _ Hwf i r Hr) as E. split; [done|]. apply elem_of_sort_by, list_elem_of_filter.
    split; [|apply elem_of_hvalues; eauto]. unfold on_branch in H2. rewrite H1, H2. simpl. rewrite E.
    apply negb_true_iff, bool_decide_eq_false. intros ->. congruence.
Qed.

(** A build that succeeded is recorded as cancelled when a newer one supersedes it. *)
Lemma success_superseded now gid rid branch b i r : builds_wf b -> job_groups b !! gid = None -> job_groups b !! i = Some r ->
  gr_repo_id r = Some rid -> gr_branch r = Some branch -> gr_state r = "success" ->
  gr_state <$> job_groups (supersede now (BuildStore.find_superseded_groups rid branch gid b) b) !! i = Some "cancelled".
Proof.
  intros Hwf Hno Hr Hrepo Hbr Hst. rewrite supersede_lookup, decide_True, Hr; [done|]. apply (elem_of_superseded gid rid branch b i r); [done..|].
  unfold counts_as_active, on_branch. rewrite Hrepo, Hbr, Hst. split; by rewrite bool_decide_eq_true_2.
Qed.

(** What the cancellations leave to count: the builds of other branches. *)
Lemma recount_other_branches now gid rid branch b : builds_wf b -> job_groups b !! gid = None ->
  count_active_groups_for_repo rid (supersede now (BuildStore.find_superseded_groups rid branch gid b) b) =
  Z.of_nat (length (group_rows (fun r => counts_as_active rid r && negb (on_branch branch r)) b)).
Proof.
  intros Hwf Hno. unfold count_active_groups_for_repo. rewrite !length_group_rows. do 2 f_equal. apply map_eq. intros i.
  rewrite !map_lookup_filter, supersede_lookup. destruct (job_groups b !! i) as [r|] eqn:Hr; [|done]. simpl.
  pose proof (elem_of_superseded gid rid branch b i r Hwf Hno Hr) as Hin.
  destruct (decide (i ∈ BuildStore.find_superseded_groups rid branch gid b)) as [Hi|Hi].
  - apply Hin in Hi as [H1 H2]. rewrite H1, H2. simpl. case_guard as Hg; [|done]. exfalso. revert Hg.
    unfold counts_as_active. simpl. by rewrite andb_false_r.
  - unfold id. destruct (counts_as_active rid r) eqn:E1, (on_branch branch r) eqn:E2; try done. destruct Hi. by apply Hin.
Qed.

(** When a new build is refused for the limit of its repo: with the limit set
    and the counts taken from the tables, exactly when at least that many builds
    of the repo are recorded live that neither failed nor were cancelled - when
    newer builds supersede older ones, not counting those on the branch of the
    request. Builds that finished with success, or expired, are counted with the
    running ones. *)
Theorem limit_refusal (now : timestamp) (gid : Uuid) (req : ReserveWorkerRequest) (p : plan) (b : Builds) (db : Answers) :
  builds_wf b -> job_groups b !! gid = None -> limit_answers now gid req p b db ->
  let supersedes := pl_cancel_superseded p && negb (bool_decide (rq_branch req = EmptyString)) in
  let counted r := counts_as_active (pl_repo_id p) r && negb (supersedes && on_branch (rq_branch req) r) in
  (concurrency (Some db) req p).2 = true <->
    0 < pl_max_concurrent p <= Z.of_nat (length (group_rows counted b)).
Proof.
  intros Hwf Hno [H1 H2 H3]. simpl. unfold concurrency. rewrite H1, H2, H3. simpl.
  destruct (Z.ltb_spec 0 (pl_max_concurrent p)) as [Hpos|]; [|simpl; split; [done|lia]].
  set (cancels := pl_cancel_superseded p && _).
  assert (Hle : (length (group_rows (fun r => counts_as_active (pl_repo_id p) r && negb (cancels && on_branch (rq_branch req) r)) b)
    <= length (group_rows (counts_as_active (pl_repo_id p)) b))%nat).
  { unfold group_rows. induction (hvalues (job_groups b)) as [|r l IH]; [done|]. rewrite !filter_cons.
    destruct (counts_as_active (pl_repo_id p) r); simpl; repeat case_decide; simpl; try done; lia. }
  destruct (Z.leb_spec (pl_max_concurrent p) (count_active_groups_for_repo (pl_repo_id p) b)) as [Hmax|Hmax].
  - destruct cancels; simpl.
    + rewrite recount_other_branches by done. rewrite Z.leb_le. simpl. tauto.
    + split; [|done]. intros _. split; [done|]. etrans; [exact Hmax|]. unfold count_active_groups_for_repo. apply inj_le.
      apply Nat.eq_le_incl. f_equal. unfold group_rows. apply list_filter_iff. intros r. by rewrite andb_true_r.
  - simpl. split; [done|]. unfold count_active_groups_for_repo in Hmax. lia.
Qed.
End Limit.

(** ** Examples *)

(** An old build that succeeded, with a job, and one that runs. *)
Definition mixed_tables : Builds :=
  let b1 := (create_job (fun _ => true) (sample_row "j" 7%N "running") (create_job_group (fun _ => true) (sample_build 7%N GRunning 0) empty_builds).2).2 in
  (create_job_group (fun _ => true) (sample_build 8%N GRunning 9) (update_job_group_state 5 7%N GSuccess None b1).2).2.

Lemma mixed_tables_wf : builds_wf mixed_tables.
Proof. apply create_group_wf, wf_alter_group; [done|]. apply create_job_wf, create_group_wf, empty_builds_wf. Qed.

Definition table_database (now t2_days max_per_repo : Z) (b : Builds) : Database := {|
  find_groups_for_t1 := fun d l => Ok (BuildStore.find_groups_for_t1 (HI := map_iter) now d l b);
  find_groups_for_t2 := fun d l => Ok (BuildStore.find_groups_for_t2 (HI := map_iter) now d l b);
  find_archive_for_t3 := fun d l => Ok (BuildStore.find_archive_for_t3 now d l b);
  find_excess_groups_per_repo := fun m => Ok (BuildStore.find_excess_groups_per_repo (HI := map_iter) m (past_old (HI := map_iter) now t2_days b));
  workers_for_group := fun gid => Ok (BuildStore.workers_for_group (HI := map_iter) gid b);
  mark_files_purged := fun ids => Ok (BuildStore.mark_files_purged (HI := map_iter) now now ids b).1;
  archive_groups_batch := fun ids => Ok (BuildStore.archive_groups_batch (HI := map_iter) now ids b).1;
  delete_archive_batch := fun ids => Ok (BuildStore.delete_archive_batch ids b).1
|}.

Definition old_row : GroupRow := state_row 5 GSuccess None (group_row (sample_build 7%N GRunning 0)).

Lemma mixed_facts :
  job_groups mixed_tables !! 7%N = Some old_row /\ job_groups mixed_tables !! 8%N = Some (group_row (sample_build 8%N GRunning 9)) /\
  jobs_table mixed_tables !! "j" = Some (sample_row "j" 7%N "running") /\
  (length (group_rows (HI := map_iter) (ended_before (days 2 - days 1)) mixed_tables) <= 100)%nat.
Proof. split_and!; [by vm_compute..|]. apply Nat.leb_le. by vm_compute. Qed.

(** A day later the build that ended is archived, and the running one stays. *)
Lemma t2_round_witness :
  let b' := performed (HI := map_iter) (days 2) (run_t2 (table_database (days 2) 1 0 mixed_tables) 1 0).2 mixed_tables in
  job_groups b' !! 7%N = None /\ jobs_table b' !! "j" = None /\ gr_state <$> job_groups b' !! 8%N = Some "running".
Proof.
  destruct mixed_facts as (H7 & H8 & Hj & Hlen).
  destruct (t2_round (HI := map_iter) (days 2) 1 0 mixed_tables (table_database (days 2) 1 0 mixed_tables)) as (n & acts & -> & Hwf & Hall).
  - apply mixed_tables_wf.
  - split; [done..|]. intros ids. by eexists.
  - destruct (Hall 7%N _ H7) as [[[H1 _]|(H1 & _ & H2 & _)] Hold].
    { rewrite Hold in H1; [done|by apply ended_before_spec|exact Hlen]. }
    destruct (H2 "j" _ Hj eq_refl) as [H3 _]. split; [exact H1|]. split; [exact H3|]. simpl snd.
    destruct (Hall 8%N _ H8) as [[[H9 _]|(_ & _ & _ & [He|[Hmax _]])] _].
    + rewrite H9. reflexivity.
    + apply ended_before_spec in He. discriminate He.
    + by apply Z.lt_irrefl in Hmax.
Defined.

(** One build that succeeded is enough to refuse the next at a limit of one. *)
Definition limited_plan : plan := {|
  pl_repo_id := 1%N; pl_max_concurrent := 1; pl_cancel_superseded := false; pl_effective := ["build"];
  pl_dropped := []; pl_deps := ∅ |}.

Definition done_tables : Builds := (update_job_group_state 5 7%N GSuccess None sample_tables).2.

Definition done_answers : Answers := sample_answers (count_active_groups_for_repo (HI := map_iter) 1%N done_tables) ∅ None.

Lemma limit_refusal_witness :
  gr_state <$> job_groups done_tables !! 7%N = Some "success" /\ size (job_groups done_tables) = 1%nat /\
  (concurrency (Some {| done_answers with find_superseded_groups := Ok (BuildStore.find_superseded_groups (HI := map_iter) 1%N "main" 9%N done_tables);
     recount_active_groups := Ok (count_active_groups_for_repo (HI := map_iter) 1%N (supersede 6 (BuildStore.find_superseded_groups (HI := map_iter) 1%N "main" 9%N done_tables) done_tables)) |})
     {| sample_request with rq_branch := "main" |} limited_plan).2 = true.
Proof.
  split_and!; [by vm_compute..|]. apply (limit_refusal (HI := map_iter) 6 9%N {| sample_request with rq_branch := "main" |} limited_plan done_tables).
  - apply wf_alter_group; [done|]. apply sample_builds_wf.
  - by vm_compute.
  - by split.
  - split; vm_compute; congruence.
Defined.

(** A pinned build is archived like any other. *)
Example pinned_build_due :
  let b := with_rows (alter (fun r => {| r with gr_pinned := true |}) 7%N) mixed_tables in
  BuildStore.find_groups_for_t2 (HI := map_iter) (days 2) 1 100 b = [7%N].
Proof. vm_compute. reflexivity. Qed.
