(* ===== verification/Recovery.v ===== *)
(** * Recovery at start-up
    (crates/ci-controller/src/main.rs: state recovery, [db_job_to_job],
    [worker_row_to_state])

    A controller that starts reads its registries back from the database and
    Redis. The answers are a record; [answers_of] takes them from the tables of
    [BuildStore], and [carry_out] performs the updates on these tables. The loop
    over the reservations that are expected in Redis only logs. *)

From Stdlib Require Import ZArith Lia Ascii.
From stdpp Require Import gmap strings list fin_maps sets pretty.
From S2P Require Import Prelude Text F64 WorkerModel JobModel StageModel WorkerRegistry JobRegistry JobGroupRegistry.
From S2P Require Import LogAggregator Controller Dispatch Session RedisStore WorkerStore BuildStore.

(** ** Rows and registry entries *)

Definition db_job_to_job (now : timestamp) (row : DbJob) : Job :=
  {| (Job_new now (dj_id row) (dj_command row) JTCommon 0 0 0) with
     j_state := JobState_from_str (dj_state row);
     j_assigned_worker := dj_worker_id row;
     j_job_group_id := Some (dj_job_group_id row);
     j_stage_config_id := dj_stage_config_id row;
     j_stage_name := Some (dj_stage_name row);
     j_pre_script := dj_pre_script row;
     j_post_script := dj_post_script row;
     j_exit_code := dj_exit_code row;
     j_pre_exit_code := dj_pre_exit_code row;
     j_post_exit_code := dj_post_exit_code row;
     j_log_path := dj_log_path row;
     j_started_at := dj_started_at row;
     j_completed_at := dj_completed_at row;
     j_status_reason := dj_status_reason row;
     j_created_at := dj_created_at row;
     j_updated_at := dj_updated_at row |}.

Definition worker_row_to_state (row : WorkerRow) : WorkerState := {|
  ws_info := {|
    wi_worker_id := wk_worker_id row;
    wi_hostname := default EmptyString (wk_hostname row);
    wi_total_cpu := as_u32 (default 0 (wk_total_cpu row));
    wi_total_memory_mb := as_u64 (default 0 (wk_total_memory_mb row));
    wi_total_disk_mb := as_u64 (default 0 (wk_total_disk_mb row));
    wi_disk_type := if bool_decide (wk_disk_type row = Some "nvme") then Nvme else Sata;
    wi_supported_job_types := default [] (wk_supported_job_types row);
    wi_docker_enabled := wk_docker_enabled row;
    wi_labels := [];
    wi_disk_details := [];
    wi_priority := wk_priority row;
    wi_max_cpu := as_u32 <$> wk_max_cpu row;
    wi_max_memory_mb := as_u64 <$> wk_max_memory_mb row;
    wi_max_disk_mb := as_u64 <$> wk_max_disk_mb row;
    wi_max_cpu_percent := wk_max_cpu_percent row;
    wi_max_memory_percent := wk_max_memory_percent row;
    wi_max_disk_percent := wk_max_disk_percent row |};
  ws_status := Disconnected;
  ws_last_heartbeat := None;
  ws_registered_at := wk_registered_at row;
  ws_system_info := wk_system_info row;
  ws_allocated_cpu := 0;
  ws_allocated_memory_mb := 0;
  ws_allocated_disk_mb := 0
|}.

(** ** Recovery *)

Record RecoveryAnswers := {
  ra_groups : result (list JobGroup) string;
  ra_jobs : result (list DbJob) string;
  ra_jobs_again : result (list DbJob) string;
  ra_workers : result (list WorkerRow) string;
  ra_reservations : result (list (string * string)) string
}.

(** A duration of more seconds than it can hold is taken as four hours. *)
Definition startup_timeout (reservation_timeout_secs : Z) : Z :=
  if reservation_timeout_secs <=? (2 ^ 63 - 1) / 1000 then secs reservation_timeout_secs else secs (4 * 3600).

Definition startup_reason : string := "Reservation expired on startup (stale from previous run)".

Definition stale_on_startup (now timeout : Z) (g : JobGroup) : bool :=
  bool_decide (g_state g = GReserved) && (timeout <? now - g_created_at g).

Definition expire_group (clk : clock) (r : JobGroupRegistry) (gid : Uuid) : JobGroupRegistry :=
  alter_group (set_reason startup_reason) gid (update_state clk gid GExpired r).2.

Section Recover.
Context `{HI : HashIter} (parse_uuid : string -> option Uuid).

Definition load_groups (gs : list JobGroup) (c : Controller) : Controller := with_groups (fun r => foldl (fun r g => add_group g r) r gs) c.

(** What is asked of the database and of Redis for an expired group. *)
Definition expiry_effects (c : Controller) (stale : Uuid * option string) : list Effect :=
  [DbGroupState stale.1 GExpired (Some startup_reason); DbCancelJobs stale.1] ++
  redis (match stale.2 with Some w => [RedisRelease w stale.1] | None => [] end) c.

Definition expire_stale (clk : clock) (timeout : Z) (c : Controller) : Controller :=
  let stale := (fun g => (g_id g, g_reserved_worker_id g))
                 <$> filter (fun g => stale_on_startup (clk O) timeout g = true) (active_groups (jgroups c)) in
  let c1 := with_groups (fun r => foldl (expire_group (from_reading 1 clk)) r stale.*1) c in
  emit (db (stale ≫= expiry_effects c1) c1) c1.

Definition load_jobs (now : timestamp) (rows : list DbJob) (c : Controller) : Controller :=
  {| c with jobs := (mark_stale_jobs_unknown now (foldl (fun m row => add_job (db_job_to_job now row) m) (jobs c) rows)).2 |}.

Definition load_group_jobs (now : timestamp) (rows : list DbJob) (c : Controller) : Controller :=
  with_groups (fun r => (group_mark_stale_jobs_unknown now
    (foldl (fun r row => add_job_to_group (dj_job_group_id row) (db_job_to_job now row) r) r rows)).2) c.

Definition load_fleet (rows : list WorkerRow) (c : Controller) : Controller :=
  with_workers (fun wr => foldl (fun wr row => insert_worker_state (worker_row_to_state row) wr) wr rows) c.

Definition charge_group (wr : WorkerRegistry) (g : JobGroup) : WorkerRegistry :=
  match g_reserved_worker_id g with Some wid => restore_group wid wr g | None => wr end.

Definition charge_groups (c : Controller) : Controller :=
  with_workers (fun wr => foldl charge_group wr (active_groups (jgroups c))) c.

(** A key in Redis whose group is not one of the active ones is dropped. *)
Definition still_active (c : Controller) (group_id : string) : bool :=
  match parse_uuid group_id with
  | Some gid => match get_group gid (jgroups c) with Some g => negb (JobGroupState_is_terminal (g_state g)) | None => false end
  | None => false
  end.

Definition release_orphans (reservations : list (string * string)) (c : Controller) : Controller :=
  emit (redis ((fun '(wid, gid) => RedisReleaseKey wid gid) <$> filter (fun '(_, gid) => still_active c gid = false) reservations) c) c.

Definition on_ok {A : Type} (answer : result A string) (f : A -> Controller -> Controller) (c : Controller) : Controller :=
  match answer with Ok a => f a c | Err _ => c end.

(** [clk n] is read by the n-th part. *)
Definition recover (clk : nat -> clock) (reservation_timeout_secs : Z) (db : RecoveryAnswers) (c : Controller) : Controller :=
  if has_storage c then
    let c1 := on_ok (ra_groups db) load_groups c in
    let c2 := expire_stale (clk O) (startup_timeout reservation_timeout_secs) c1 in
    let c3 := on_ok (ra_jobs db) (load_jobs (clk 1%nat O)) c2 in
    let c4 := on_ok (ra_jobs_again db) (load_group_jobs (clk 2%nat O)) c3 in
    let c5 := on_ok (ra_workers db) load_fleet c4 in
    let c6 := charge_groups c5 in
    let c7 := on_ok (ra_reservations db) release_orphans c6 in
    emit [DbCleanupOrphans] c7
  else c.
End Recover.

(** The state that the start builds: empty registries, the known tokens. *)
Definition fresh_controller (log_dir : option string) (tokens : gset string) (storage redis : bool) : Controller := {|
  workers := ∅; jobs := JobRegistry_new; jgroups := JobGroupRegistry_new; logs := LogAggregator_new log_dir;
  job_stream_senders := ∅; token_hashes := tokens; has_storage := storage; has_redis := redis; effects := [] |}.

(** ** What each part builds *)

Section Parts.
Context `{HI : HashIter}.

Lemma load_groups_spec gs : forall r gid,
  (groups (foldl (fun r g => add_group g r) r gs) !! gid =
     match last (filter (fun g => g_id g = gid) gs) with Some g => Some g | None => groups r !! gid end) /\
  group_jobs (foldl (fun r g => add_group g r) r gs) !! gid =
     match group_jobs r !! gid with Some js => Some js | None => if decide (gid ∈ g_id <$> gs) then Some [] else None end.
Proof.
  induction gs as [|g gs IH]; intros r gid; [split; [done|]; simpl; destruct (group_jobs r !! gid); repeat case_decide; set_solver|].
  simpl foldl. destruct (IH (add_group g r) gid) as [-> ->].
  rewrite filter_cons, fmap_cons. split.
  - destruct (decide (g_id g = gid)) as [<-|Hne].
    + rewrite last_cons. destruct (last _); [done|]. simpl. by rewrite lookup_insert_eq.
    + simpl. by rewrite lookup_insert_ne.
  - unfold add_group. simpl. destruct (group_jobs r !! g_id g) as [js|] eqn:E.
    + destruct (group_jobs r !! gid) as [js'|] eqn:E'; [done|]. repeat case_decide; set_solver.
    + destruct (decide (gid = g_id g)) as [->|Hne].
      * rewrite lookup_insert_eq, E. by rewrite decide_True by by left.
      * rewrite lookup_insert_ne by done. destruct (group_jobs r !! gid); [done|]. repeat case_decide; set_solver.
Qed.

Definition expire (clk : clock) (g : JobGroup) : JobGroup := set_reason startup_reason (enter_state clk GExpired g).

Lemma expire_groups_spec clk ids : forall r gid,
  groups (foldl (expire_group clk) r ids) !! gid = (if decide (gid ∈ ids) then expire clk else id) <$> groups r !! gid /\
  group_jobs (foldl (expire_group clk) r ids) = group_jobs r.
Proof.
  induction ids as [|i ids IH]; intros r gid; [split; [simpl; by destruct (groups r !! gid)|done]|]. simpl foldl. destruct (IH (expire_group clk r i) gid) as [-> ->].
  unfold expire_group. destruct (groups r !! i) as [g|] eqn:Hg.
  - rewrite (update_state_eq clk i GExpired r g Hg). assert (valid_transition (g_state g) GExpired = true) as -> by by destruct (g_state g).
    simpl. split; [|done]. destruct (decide (gid = i)) as [->|Hne].
    + rewrite lookup_alter_eq, lookup_insert_eq, Hg. rewrite (decide_True _ _ (P := i ∈ i :: ids)) by by left. simpl. by case_decide.
    + rewrite lookup_alter_ne, lookup_insert_ne by done. f_equal. repeat case_decide; set_solver.
  - unfold update_state. rewrite Hg. simpl. split; [|done]. destruct (decide (gid = i)) as [->|Hne].
    + by rewrite lookup_alter_eq, Hg.
    + rewrite lookup_alter_ne by done. f_equal. repeat case_decide; set_solver.
Qed.

(** The jobs of a group as its rows give them, in order. *)
Definition jobs_of (now : timestamp) (rows : list DbJob) (gid : Uuid) : list Job :=
  db_job_to_job now <$> filter (fun row => dj_job_group_id row = gid) rows.

Lemma load_group_jobs_spec now rows : forall r gid,
  let r' := foldl (fun r row => add_job_to_group (dj_job_group_id row) (db_job_to_job now row) r) r rows in
  groups r' = groups r /\
  group_jobs r' !! gid = if decide (gid ∈ dj_job_group_id <$> rows) then Some (default [] (group_jobs r !! gid) ++ jobs_of now rows gid)
                         else group_jobs r !! gid.
Proof.
  cbv zeta. induction rows as [|row rows IH]; intros r gid; [done|]. simpl foldl.
  destruct (IH (add_job_to_group (dj_job_group_id row) (db_job_to_job now row) r) gid) as [-> ->]. split; [done|].
  unfold jobs_of. rewrite fmap_cons, filter_cons. simpl. destruct (decide (dj_job_group_id row = gid)) as [<-|Hne].
  - rewrite lookup_insert_eq. rewrite (decide_True _ _ (P := dj_job_group_id row ∈ dj_job_group_id row :: _)) by by left. simpl.
    case_decide as Hin; [by rewrite <- app_assoc|]. f_equal. f_equal.
    replace (filter (fun x => dj_job_group_id x = dj_job_group_id row) rows) with (@nil DbJob); [done|].
    symmetry. apply elem_of_nil_inv. intros x [E Hx]%list_elem_of_filter. apply Hin. rewrite <- E. by apply list_elem_of_fmap_2.
  - rewrite lookup_insert_ne by done. repeat case_decide; set_solver.
Qed.

(** The last row of an id is the one that counts. *)
Lemma load_fleet_spec rows : forall wr id,
  foldl (fun wr row => insert_worker_state (worker_row_to_state row) wr) wr rows !! id =
  match last (filter (fun row => wk_worker_id row = id) rows) with Some row => Some (worker_row_to_state row) | None => wr !! id end.
Proof.
  induction rows as [|row rows IH]; intros wr id; [done|]. simpl foldl. rewrite IH, filter_cons. unfold insert_worker_state. simpl.
  destruct (decide (wk_worker_id row = id)) as [<-|Hne].
  - rewrite last_cons. destruct (last _); [done|]. simpl. by rewrite lookup_insert_eq.
  - by rewrite lookup_insert_ne.
Qed.

(** Charging all active groups charges each worker with its own. *)
Lemma charge_groups_spec c id : workers (charge_groups c) !! id = restore_allocations id (jgroups c) (workers c) !! id.
Proof.
  unfold charge_groups, restore_allocations, get_groups_for_worker, active_groups. simpl. generalize (hvalues (groups (jgroups c))) as l.
  intros l. set (wr := workers c) at 1 2. assert (Hwr : forall wr' : WorkerRegistry, wr' !! id = workers c !! id ->
    foldl charge_group wr' (filter (fun g => is_active g = true) l) !! id =
    foldl (restore_group id) (workers c) (filter (fun g => is_active g = true) (filter (fun g => g_reserved_worker_id g = Some id) l)) !! id).
  { clear wr. generalize (workers c). induction l as [|g l IH]; intros m wr' E; [done|]. rewrite !filter_cons.
    destruct (is_active g) eqn:Ha, (decide (g_reserved_worker_id g = Some id)) as [Hw|Hw]; simpl; rewrite ?filter_cons, ?Ha; simpl.
    - apply IH. unfold charge_group. rewrite Hw. unfold restore_group. destruct (has_alloc _); [by rewrite !lookup_alter_eq, E|done].
    - apply IH. unfold charge_group. destruct (g_reserved_worker_id g) as [w|]; [|done]. unfold restore_group.
      destruct (has_alloc _); [|done]. by rewrite lookup_alter_ne by (intros ->; by apply Hw).
    - by apply IH.
    - by apply IH. }
  by apply Hwr.
Qed.
End Parts.

(** ** The recovered state *)

Section Recovered.
Context `{HI : HashIter} (parse_uuid : string -> option Uuid).
Context (clk : nat -> clock) (timeout_secs : Z) (db : RecoveryAnswers) (log_dir : option string) (tokens : gset string) (with_redis : bool).

Definition groups_read : list JobGroup := unwrap_or [] (ra_groups db).
Definition rows_read : list DbJob := unwrap_or [] (ra_jobs_again db).
Definition fleet_read : list WorkerRow := unwrap_or [] (ra_workers db).

Definition recovered : Controller := recover parse_uuid clk timeout_secs db (fresh_controller log_dir tokens true with_redis).

(** A group as it is after recovery. *)
Definition recovered_group (g : JobGroup) : JobGroup :=
  if stale_on_startup (clk O O) (startup_timeout timeout_secs) g then expire (from_reading 1 (clk O)) g else g.

Definition loaded : Controller := load_groups groups_read (fresh_controller log_dir tokens true with_redis).
Definition swept : Controller := expire_stale (clk O) (startup_timeout timeout_secs) loaded.

Lemma loaded_group gid : groups (jgroups loaded) !! gid = last (filter (fun g => g_id g = gid) groups_read).
Proof. unfold loaded. simpl. destruct (load_groups_spec groups_read JobGroupRegistry_new gid) as [-> _]. by destruct (last _). Qed.

Lemma loaded_id gid g : groups (jgroups loaded) !! gid = Some g -> g_id g = gid /\ g ∈ groups_read.
Proof. rewrite loaded_group. intros H%last_Some_elem_of%list_elem_of_filter. done. Qed.

Lemma elem_of_stale gid :
  gid ∈ ((fun g => (g_id g, g_reserved_worker_id g))
    <$> filter (fun g => stale_on_startup (clk O O) (startup_timeout timeout_secs) g = true) (active_groups (jgroups loaded))).*1 <->
  exists g, groups (jgroups loaded) !! gid = Some g /\ stale_on_startup (clk O O) (startup_timeout timeout_secs) g = true.
Proof.
  rewrite <- list_fmap_compose, list_elem_of_fmap. split.
  - intros (x & -> & [Hs [_ [k Hk]%elem_of_hvalues]%list_elem_of_filter]%list_elem_of_filter). exists x. split; [|done].
    destruct (loaded_id _ _ Hk) as [E _]. simpl fst. by rewrite <- E in Hk.
  - intros (g & Hg & Hs). exists g. destruct (loaded_id _ _ Hg) as [E _]. split; [by rewrite <- E|]. apply list_elem_of_filter. split; [done|].
    apply list_elem_of_filter. split; [|apply elem_of_hvalues; eauto]. unfold stale_on_startup in Hs. apply andb_true_iff in Hs as [Hst%bool_decide_eq_true _].
    unfold is_active. by rewrite Hst.
Qed.

Lemma swept_group gid : groups (jgroups swept) !! gid = recovered_group <$> groups (jgroups loaded) !! gid.
Proof.
  unfold swept, expire_stale, emit, with_groups. cbn [jgroups].
  match goal with |- context [foldl (expire_group ?k) ?r ?ids] => destruct (expire_groups_spec k ids r gid) as [-> _] end.
  pose proof (elem_of_stale gid) as Hin. set (stale := (_ <$> _).*1) in *. destruct (groups (jgroups loaded) !! gid) as [g|]; [|done]. simpl. f_equal. unfold recovered_group.
  destruct (stale_on_startup _ _ g) eqn:Hs; case_decide as Hd; [done|exfalso; apply Hd, Hin; eauto| |done].
  apply Hin in Hd as (? & [= <-] & ?). congruence.
Qed.

Lemma swept_lists : group_jobs (jgroups swept) = group_jobs (jgroups loaded).
Proof.
  unfold swept, expire_stale, emit, with_groups. cbn [jgroups].
  match goal with |- context [foldl (expire_group ?k) ?r ?ids] => by destruct (expire_groups_spec k ids r 0%N) as [_ ->] end.
Qed.

Lemma on_ok_list {A : Type} (a : result (list A) string) f c : f [] c = c -> on_ok a f c = f (unwrap_or [] a) c.
Proof. by destruct a. Qed.

(** The registries, part by part. *)
Lemma recovered_parts :
  jgroups recovered = jgroups (on_ok (ra_jobs_again db) (load_group_jobs (clk 2%nat O)) swept) /\
  jobs recovered = jobs (on_ok (ra_jobs db) (load_jobs (clk 1%nat O)) swept) /\
  workers recovered = workers (charge_groups (on_ok (ra_workers db) load_fleet (on_ok (ra_jobs_again db) (load_group_jobs (clk 2%nat O)) swept))).
Proof.
  unfold recovered, recover. simpl has_storage. cbv iota zeta. rewrite (on_ok_list (ra_groups db) load_groups); [|done].
  fold groups_read loaded swept. destruct (ra_jobs db), (ra_jobs_again db), (ra_workers db), (ra_reservations db); done.
Qed.

Lemma recovered_groups gid :
  groups (jgroups recovered) !! gid = recovered_group <$> last (filter (fun g => g_id g = gid) groups_read).
Proof.
  destruct recovered_parts as (-> & _ & _). rewrite <- loaded_group, <- swept_group. destruct (ra_jobs_again db) as [rows|]; [|done].
  unfold on_ok, load_group_jobs, with_groups. cbn [jgroups]. unfold group_mark_stale_jobs_unknown. cbn [snd groups].
  by destruct (load_group_jobs_spec (clk 2%nat O) rows (jgroups swept) gid) as [-> _].
Qed.

Lemma recovered_lists gid :
  group_jobs (jgroups recovered) !! gid =
    if decide (gid ∈ dj_job_group_id <$> rows_read) then Some (lose_job (clk 2%nat O) <$> jobs_of (clk 2%nat O) rows_read gid)
    else if decide (gid ∈ g_id <$> groups_read) then Some [] else None.
Proof.
  destruct recovered_parts as (-> & _ & _). assert (Hl : group_jobs (jgroups loaded) !! gid = if decide (gid ∈ g_id <$> groups_read) then Some [] else None).
  { unfold loaded. simpl. by destruct (load_groups_spec groups_read JobGroupRegistry_new gid) as [_ ->]. }
  unfold rows_read. destruct (ra_jobs_again db) as [rows|]; [|simpl unwrap_or; unfold on_ok; by rewrite swept_lists, Hl].
  unfold on_ok, load_group_jobs, with_groups. cbn [jgroups]. unfold group_mark_stale_jobs_unknown. cbn [snd group_jobs]. rewrite lookup_fmap. destruct (load_group_jobs_spec (clk 2%nat O) rows (jgroups swept) gid) as [_ ->]. rewrite swept_lists, Hl.
  case_decide; simpl; [f_equal; by case_decide|]. by case_decide.
Qed.

Lemma recovered_workers id : exists fleet : WorkerRegistry,
  workers recovered !! id = restore_allocations id (jgroups recovered) fleet !! id /\
  fleet !! id = worker_row_to_state <$> last (filter (fun row => wk_worker_id row = id) fleet_read).
Proof.
  destruct recovered_parts as (-> & _ & ->). rewrite charge_groups_spec.
  set (c4 := on_ok (ra_jobs_again db) (load_group_jobs (clk 2%nat O)) swept).
  assert (Hw : workers c4 = ∅) by (unfold c4; by destruct (ra_jobs_again db)). exists (workers (on_ok (ra_workers db) load_fleet c4)). split.
  - unfold on_ok at 1. by destruct (ra_workers db).
  - unfold fleet_read. destruct (ra_workers db) as [rows|]; simpl; [|by rewrite Hw].
    rewrite load_fleet_spec, Hw, lookup_empty. by destruct (last _).
Qed.

Definition jobs_read : list DbJob := unwrap_or [] (ra_jobs db).

Lemma recovered_jobs id :
  jobs recovered !! id = (fun row => lose_job (clk 1%nat O) (db_job_to_job (clk 1%nat O) row)) <$> last (filter (fun row => dj_id row = id) jobs_read).
Proof.
  destruct recovered_parts as (_ & -> & _). assert (Hs : jobs swept = ∅) by done.
  assert (Hl : forall rows m, jobs_keyed m -> let m' := foldl (fun m row => add_job (db_job_to_job (clk 1%nat O) row) m) m rows in
    jobs_keyed m' /\ m' !! id = match last (filter (fun row => dj_id row = id) rows) with Some row => Some (db_job_to_job (clk 1%nat O) row) | None => m !! id end).
  { induction rows as [|row rows IH]; intros m Hm; [done|]. simpl.
    destruct (IH (add_job (db_job_to_job (clk 1%nat O) row) m)) as [Hk E]; [by apply map_Forall_insert_2|]. split; [done|]. simpl in E. rewrite E.
    rewrite filter_cons. destruct (decide (dj_id row = id)) as [<-|Hne].
    - rewrite last_cons. destruct (last _); [done|]. unfold add_job. simpl. by rewrite lookup_insert_eq.
    - unfold add_job. simpl. by rewrite lookup_insert_ne. }
  unfold jobs_read. destruct (ra_jobs db) as [rows|]; [|unfold on_ok; by rewrite Hs]. unfold on_ok, load_jobs. cbn [jobs]. rewrite Hs.
  destruct (Hl rows ∅) as [Hk E]; [done|]. rewrite lookup_mark_stale by done. rewrite E. simpl unwrap_or. by destruct (last _).
Qed.
End Recovered.

(** ** The books after a restart *)

Section Books.
Context `{HI : HashIter} (parse_uuid : string -> option Uuid).
Context (clk : nat -> clock) (timeout_secs : Z) (db : RecoveryAnswers) (log_dir : option string) (tokens : gset string) (with_redis : bool).

Abbreviation c := (recovered parse_uuid clk timeout_secs db log_dir tokens with_redis).

Lemma recovered_from gid g : groups (jgroups c) !! gid = Some g ->
  exists g0, g0 ∈ groups_read db /\ g_id g0 = gid /\ g = recovered_group clk timeout_secs g0.
Proof.
  rewrite recovered_groups. intros (g0 & [<- Hin]%last_Some_elem_of%list_elem_of_filter & ->)%fmap_Some. eauto.
Qed.

Lemma recovered_group_same g : g_id (recovered_group clk timeout_secs g) = g_id g /\
  g_allocated_resources (recovered_group clk timeout_secs g) = g_allocated_resources g /\
  (is_active (recovered_group clk timeout_secs g) = true -> recovered_group clk timeout_secs g = g).
Proof. unfold recovered_group. by destruct (stale_on_startup _ _ g). Qed.

Definition nonneg_read : Prop := forall g, g ∈ groups_read db -> forall k, 0 <= amount k (g_allocated_resources g).

Lemma recovered_allocs : nonneg_read -> allocs_ok (jgroups c).
Proof.
  intros H gid g Hg. destruct (recovered_from gid g Hg) as (g0 & Hin & _ & ->).
  destruct (recovered_group_same g0) as (_ & -> & _). by apply H.
Qed.

Lemma recovered_wf : groups_wf (jgroups c).
Proof.
  intros gid g Hg. destruct (recovered_from gid g Hg) as (g0 & Hin & <- & ->). destruct (recovered_group_same g0) as (-> & _). split; [done|].
  rewrite recovered_lists. case_decide; [eauto|]. rewrite decide_True; [eauto|]. by apply list_elem_of_fmap_2.
Qed.

Lemma recovered_worker id w : workers c !! id = Some w -> nonneg_read ->
  wi_worker_id (ws_info w) = id /\ ws_status w = Disconnected /\ (exists row, row ∈ fleet_read db /\ ws_info w = ws_info (worker_row_to_state row)) /\
  (hosts w id (jgroups c) -> worker_wf w /\ within_caps w /\ forall k, counter k w = ledger k id (jgroups c)).
Proof.
  intros Hw Hn. destruct (recovered_workers parse_uuid clk timeout_secs db log_dir tokens with_redis id) as (fleet & E & Ef). rewrite E in Hw.
  destruct (last (filter (fun row => wk_worker_id row = id) (fleet_read db))) as [row|] eqn:El; simpl in Ef.
  - apply last_Some_elem_of, list_elem_of_filter in El as [<- Hin].
    destruct (restored_spec (wk_worker_id row) (jgroups c) fleet (worker_row_to_state row)) as (w' & Hw' & Hi & Hs & Hh);
      [by apply recovered_allocs|done|done|by intros []|].
    assert (w' = w) as -> by congruence. split_and!; [by rewrite Hi|by rewrite Hs| |done]. exists row. by rewrite Hi.
  - exfalso. clear -Ef Hw. unfold restore_allocations in Hw. revert fleet Ef Hw. induction (get_groups_for_worker id (jgroups c)) as [|g l IH]; intros fleet Ef Hw.
    + simpl in Hw. congruence.
    + simpl in Hw. apply (IH (restore_group id fleet g)); [|done]. unfold restore_group. destruct (has_alloc _); [|done]. by rewrite lookup_alter_eq, Ef.
Qed.

(** After a restart the books are in order: whatever the database answers, every
    worker comes back disconnected under its own id, and if its caps host the
    active groups reserved on it, its counters are the sum over these groups; so
    when every worker hosts its groups the recovered controller is balanced. *)
Theorem recovery_balances :
  (forall g, g ∈ groups_read db -> forall k, 0 <= amount k (g_allocated_resources g)) ->
  (forall id w, workers c !! id = Some w -> wi_worker_id (ws_info w) = id /\ ws_status w = Disconnected /\
     (hosts w id (jgroups c) -> within_caps w /\ forall k, counter k w = ledger k id (jgroups c))) /\
  ((forall id w, workers c !! id = Some w -> hosts w id (jgroups c)) -> balanced c).
Proof.
  intros Hn. split.
  - intros id w Hw. destruct (recovered_worker id w Hw Hn) as (? & ? & _ & Hh). split_and!; [done..|]. intros Hhost. by destruct (Hh Hhost) as (_ & ? & ?).
  - intros Hall id w k Hw. destruct (recovered_worker id w Hw Hn) as (_ & _ & _ & Hh). destruct (Hh (Hall id w Hw)) as (Hwf & _ & Hk).
    rewrite Hk. split; [done|]. rewrite <- Hk. destruct Hwf as [_ W1 W2 W3]. unfold u32, u64 in *. destruct k; simpl; lia.
Qed.

(** What a restart needs of the database for the invariant of the controller. *)
Record restartable : Prop := {
  rs_nonneg : nonneg_read;
  rs_states : forall g, g ∈ groups_read db -> is_active g = true -> g_state g = GReserved \/ g_state g = GRunning;
  rs_serving : forall g row, g ∈ groups_read db -> row ∈ rows_read db -> dj_job_group_id row = g_id g -> is_active g = true -> g_state g = GRunning;
  rs_hosts : forall id w, workers c !! id = Some w -> hosts w id (jgroups c)
}.

Lemma recovered_serving : restartable -> serving (jgroups c).
Proof.
  intros [_ _ H3 _] gid g j js Hg Hj Ha. destruct (recovered_from gid g Hg) as (g0 & Hin & <- & ->).
  destruct (recovered_group_same g0) as (_ & _ & Hsame). specialize (Hsame Ha). rewrite Hsame in Ha |- *.
  rewrite recovered_lists in Hj. case_decide as Hd; [|by case_decide]. apply list_elem_of_fmap in Hd as (row & E & Hrow). by apply (H3 g0 row).
Qed.
End Books.

(** ** Recovery from the tables *)

(** What an effect does to the tables of builds. *)
Definition carry_out (now : timestamp) (b : Builds) (e : Effect) : Builds :=
  match e with
  | DbGroupState gid state reason => (update_job_group_state now gid state reason b).2
  | DbCancelJobs gid => (cancel_jobs_for_group now gid b).2
  | DbCleanupOrphans => (cleanup_orphaned_jobs now b).2
  | _ => b
  end.

Section FromTables.
Context `{HI : HashIter} (parse_uuid : string -> option Uuid).
Context (now : timestamp) (clk : nat -> clock) (timeout_secs : Z) (log_dir : option string) (tokens : gset string) (with_redis : bool).

(** The groups are read first, the jobs after the stale groups were expired. *)
Definition after_sweep (b : Builds) : Builds :=
  foldl (carry_out now) b (effects (expire_stale (clk O) (startup_timeout timeout_secs)
    (load_groups (load_active_job_groups b) (fresh_controller log_dir tokens true with_redis)))).

Definition answers_of (b : Builds) (fleet : list WorkerRow) (reservations : list (string * string)) : RecoveryAnswers := {|
  ra_groups := Ok (load_active_job_groups b);
  ra_jobs := Ok (load_active_jobs (after_sweep b));
  ra_jobs_again := Ok (load_active_jobs (after_sweep b));
  ra_workers := Ok fleet;
  ra_reservations := Ok reservations |}.

(** The updates for a list of groups to expire. *)
Lemma carry_out_stale (c : Controller) (stale : list (Uuid * option string)) : forall b,
  let b' := foldl (carry_out now) b (stale ≫= expiry_effects c) in
  (forall gid, job_groups b' !! gid = (if decide (gid ∈ stale.*1) then state_row now GExpired (Some startup_reason) else id) <$> job_groups b !! gid) /\
  forall jid, jobs_table b' !! jid =
    (fun row => if open_job row && bool_decide (dj_job_group_id row ∈ stale.*1) then cancel_row now row else row) <$> jobs_table b !! jid.
Proof.
  cbv zeta. induction stale as [|[gid wid] stale IH]; intros b.
  { split; [intros gid; simpl; by destruct (job_groups b !! gid)|]. intros jid. simpl. destruct (jobs_table b !! jid) as [row|]; [|done].
    simpl. by destruct (open_job row). }
  rewrite bind_cons, foldl_app, fmap_cons. simpl fst. set (b1 := foldl _ b _).
  assert (E1 : b1 = (cancel_jobs_for_group now gid (update_job_group_state now gid GExpired (Some startup_reason) b).2).2).
  { unfold b1, expiry_effects, redis. destruct (has_redis c); [|done]. by destruct wid. }
  destruct (IH b1) as [I1 I2]. rewrite E1 in I1, I2. rewrite E1. split.
  - intros i. rewrite I1. simpl. destruct (decide (i = gid)) as [->|Hne].
    + rewrite lookup_alter_eq. rewrite (decide_True _ _ (P := gid ∈ gid :: stale.*1)) by by left.
      destruct (job_groups b !! gid); [|done]. simpl. by case_decide.
    + rewrite lookup_alter_ne by done. f_equal. repeat case_decide; set_solver.
  - intros jid. rewrite I2. simpl. rewrite lookup_fmap. destruct (jobs_table b !! jid) as [row|]; [|done]. simpl. f_equal.
    destruct (open_job row) eqn:Ho; simpl; [|by rewrite Ho]. case_bool_decide as Hg; simpl.
    + rewrite bool_decide_eq_true_2 by (rewrite Hg; by left). done.
    + rewrite Ho. simpl. repeat case_bool_decide; set_solver.
Qed.

(** What is read of a table with unique keys. *)
Lemma load_active_lookup b gid : builds_wf b ->
  last (filter (fun g => g_id g = gid) (load_active_job_groups b)) =
  (job_groups b !! gid ≫= fun r => if bool_decide (gr_state r ∈ ended_states) then None else Some (map_job_group r)).
Proof.
  intros Hwf. assert (Hin : forall g, g ∈ filter (fun g => g_id g = gid) (load_active_job_groups b) <->
    exists r, job_groups b !! gid = Some r /\ (gr_state r ∉ ended_states) /\ g = map_job_group r).
  { intros g. unfold load_active_job_groups. rewrite list_elem_of_filter, list_elem_of_fmap. split.
    - intros [<- (r & -> & Hr)]. rewrite elem_of_sort_by in Hr. unfold group_rows in Hr.
      apply list_elem_of_filter in Hr as [Hu%negb_true_iff%bool_decide_eq_false [k Hk]%elem_of_hvalues]. exists r. split_and!; [|done|done].
      simpl. by rewrite (bw_groups _ Hwf k r Hk).
    - intros (r & Hr & Hu & ->). pose proof (bw_groups _ Hwf gid r Hr). split; [done|]. exists r. split; [done|].
      rewrite elem_of_sort_by. apply list_elem_of_filter. split; [by apply negb_true_iff, bool_decide_eq_false|]. apply elem_of_hvalues. eauto. }
  destruct (last _) as [g|] eqn:El.
  - apply last_Some_elem_of, Hin in El as (r & -> & Hu & ->). simpl. by rewrite bool_decide_eq_false_2.
  - apply last_None in El. destruct (job_groups b !! gid) as [r|] eqn:Hr; [|done]. simpl. case_bool_decide as Hu; [done|].
    exfalso. apply (not_elem_of_nil (map_job_group r)). rewrite <- El. apply Hin. eauto.
Qed.

Definition stale_ids (b : Builds) : list Uuid :=
  ((fun g => (g_id g, g_reserved_worker_id g))
    <$> filter (fun g => stale_on_startup (clk O O) (startup_timeout timeout_secs) g = true)
          (active_groups (jgroups (load_groups (load_active_job_groups b) (fresh_controller log_dir tokens true with_redis))))).*1.

(** A row of a group that recovery expires. *)
Definition stale_row (r : GroupRow) : bool := stale_on_startup (clk O O) (startup_timeout timeout_secs) (map_job_group r).

Lemma elem_of_stale_ids b gid : builds_wf b ->
  gid ∈ stale_ids b <-> exists r, job_groups b !! gid = Some r /\ stale_row r = true.
Proof.
  intros Hwf. etrans; [apply (elem_of_stale clk timeout_secs (answers_of b [] []) log_dir tokens with_redis)|].
  setoid_rewrite loaded_group. unfold groups_read. simpl unwrap_or. rewrite (load_active_lookup b gid Hwf). split.
  - intros (g & Hg & Hs). destruct (job_groups b !! gid) as [r|]; [|done]. simpl in Hg. case_bool_decide; [done|]. injection Hg as <-. eauto.
  - intros (r & Hr & Hs). exists (map_job_group r). split; [|done]. rewrite Hr. simpl. rewrite bool_decide_eq_false_2; [done|].
    intros Hend. unfold stale_row, stale_on_startup in Hs. apply andb_true_iff in Hs as [Hs%bool_decide_eq_true _]. simpl in Hs.
    unfold ended_states in Hend. rewrite !elem_of_cons in Hend. destruct Hend as [E|[E|[E|[E|?%not_elem_of_nil]]]]; [..|done]; by rewrite E in Hs.
Qed.

Lemma after_sweep_tables b : builds_wf b ->
  (forall gid, job_groups (after_sweep b) !! gid =
     (fun r => if stale_row r then state_row now GExpired (Some startup_reason) r else r) <$> job_groups b !! gid) /\
  (forall jid, jobs_table (after_sweep b) !! jid =
     (fun row => if open_job row && bool_decide (dj_job_group_id row ∈ stale_ids b) then cancel_row now row else row) <$> jobs_table b !! jid).
Proof.
  intros Hwf. unfold after_sweep, expire_stale, emit, with_groups, Controller.db. cbn [effects]. 
  match goal with |- context [foldl (carry_out now) b (effects ?c ++ ?e)] => change (effects c ++ e) with e end.
  cbn [has_storage load_groups with_groups fresh_controller].
  match goal with |- context [?l ≫= expiry_effects ?c] => destruct (carry_out_stale c l b) as [I1 I2] end. cbv zeta in I1, I2. split.
  - intros gid. rewrite I1. pose proof (elem_of_stale_ids b gid Hwf) as Hin. unfold stale_ids in Hin.
    set (stale := (_ <$> _).*1) in *. destruct (job_groups b !! gid) as [r|]; [|done]. simpl. f_equal.
    destruct (stale_row r) eqn:Hs; case_decide as Hd; [done|exfalso; apply Hd, Hin; eauto| |done].
    apply Hin in Hd as (? & [= <-] & ?). congruence.
  - intros jid. apply I2.
Qed.

Lemma load_jobs_lookup b id : builds_wf b ->
  last (filter (fun row => dj_id row = id) (load_active_jobs b)) =
  (jobs_table b !! id ≫= fun row => if open_job row then Some row else None).
Proof.
  intros Hwf. assert (Hin : forall row, row ∈ filter (fun row => dj_id row = id) (load_active_jobs b) <-> jobs_table b !! id = Some row /\ open_job row = true).
  { intros row. unfold load_active_jobs. rewrite list_elem_of_filter, elem_of_sort_by. unfold job_rows. rewrite list_elem_of_filter, elem_of_hvalues. split.
    - intros (<- & Ho & k & Hk). destruct (bw_jobs _ Hwf k row Hk) as [-> _]. done.
    - intros [Hr Ho]. destruct (bw_jobs _ Hwf id row Hr) as [E _]. eauto. }
  destruct (last _) as [row|] eqn:El.
  - apply last_Some_elem_of, Hin in El as [-> Ho]. simpl. by rewrite Ho.
  - apply last_None in El. destruct (jobs_table b !! id) as [row|] eqn:Hr; [|done]. simpl. destruct (open_job row) eqn:Ho; [|done].
    exfalso. apply (not_elem_of_nil row). rewrite <- El. by apply Hin.
Qed.

Lemma after_sweep_wf b : builds_wf b -> builds_wf (after_sweep b).
Proof.
  intros Hwf. unfold after_sweep. match goal with |- context [foldl _ _ ?l] => generalize l end. intros es. revert b Hwf.
  induction es as [|e es IH]; intros b Hwf; [done|]. simpl. apply IH. destruct e; try done; simpl.
  - by apply wf_alter_group.
  - by apply cancel_wf.
  - by apply cancel_wf.
Qed.

Lemma group_agrees r :
  (exists g, recovered_group clk timeout_secs <$> (if bool_decide (gr_state r ∈ ended_states) then None else Some (map_job_group r)) = Some g
     /\ is_active g = true) <->
  (exists r', Some (if stale_row r then state_row now GExpired (Some startup_reason) r else r) = Some r' /\ (gr_state r' ∉ ended_states)).
Proof.
  unfold recovered_group, stale_row. case_bool_decide as Hend.
  - split; [by intros (g & ? & _)|]. intros (r' & [= <-] & Hr'). exfalso. apply Hr'. destruct (stale_on_startup _ _ _); [|done]. simpl. set_solver.
  - simpl. destruct (stale_on_startup _ _ _).
    + split; [by intros (g & [= <-] & ?)|]. intros (r' & [= <-] & Hr'). exfalso. apply Hr'. simpl. set_solver.
    + split; [intros _; eauto|]. intros _. eexists. split; [done|]. unfold is_active. simpl. unfold ended_states in Hend.
      unfold JobGroupState_from_str. repeat case_bool_decide; try done; set_solver.
Qed.

Definition recovered_from_tables (b : Builds) (fleet : list WorkerRow) (reservations : list (string * string)) : Controller :=
  recovered parse_uuid clk timeout_secs (answers_of b fleet reservations) log_dir tokens with_redis.

(** The parts that load do not write. *)
Definition silent (f : Controller -> Controller) : Prop := forall c, effects (f c) = effects c /\ has_redis (f c) = has_redis c.

Lemma silent_on_ok {A : Type} (r : result A string) (f : A -> Controller -> Controller) : (forall a, silent (f a)) -> silent (on_ok r f).
Proof. intros Hf c. destruct r; [apply Hf|done]. Qed.

Lemma recover_effects db c : has_storage c = true ->
  let c2 := expire_stale (clk O) (startup_timeout timeout_secs) (on_ok (ra_groups db) load_groups c) in
  exists l, effects (recover parse_uuid clk timeout_secs db c) =
    (effects c2 ++ (if has_redis c2 then (fun '(wid, gid) => RedisReleaseKey wid gid) <$> l else [])) ++ [DbCleanupOrphans].
Proof.
  intros Hst c2. unfold recover. rewrite Hst. cbv zeta. fold c2.
  set (c6 := charge_groups _).
  assert (H6 : effects c6 = effects c2 /\ has_redis c6 = has_redis c2).
  { destruct (silent_on_ok (ra_jobs db) (load_jobs (clk 1%nat O)) (fun _ _ => conj eq_refl eq_refl) c2) as [E1 R1].
    destruct (silent_on_ok (ra_jobs_again db) (load_group_jobs (clk 2%nat O)) (fun _ _ => conj eq_refl eq_refl)
      (on_ok (ra_jobs db) (load_jobs (clk 1%nat O)) c2)) as [E2 R2].
    destruct (silent_on_ok (ra_workers db) load_fleet (fun _ _ => conj eq_refl eq_refl)
      (on_ok (ra_jobs_again db) (load_group_jobs (clk 2%nat O)) (on_ok (ra_jobs db) (load_jobs (clk 1%nat O)) c2))) as [E3 R3].
    unfold c6, charge_groups, with_workers. cbn [effects has_redis]. split; congruence. }
  destruct H6 as [<- <-]. clearbody c6. destruct (ra_reservations db) as [rs|].
  - eexists. reflexivity.
  - exists []. simpl. by destruct (has_redis c6); rewrite app_nil_r.
Qed.

Lemma carried_out b fleet reservations :
  foldl (carry_out now) b (effects (recovered_from_tables b fleet reservations)) = (cleanup_orphaned_jobs now (after_sweep b)).2.
Proof.
  assert (Hno : forall l b0, foldl (carry_out now) b0 ((fun '(wid, gid) => RedisReleaseKey wid gid) <$> l) = b0)
    by (induction l as [|[w g] l IH]; intros b0; [done|]; apply IH).
  unfold recovered_from_tables, recovered.
  destruct (recover_effects (answers_of b fleet reservations) (fresh_controller log_dir tokens true with_redis) eq_refl) as [l ->].
  rewrite !foldl_app. cbn [answers_of ra_groups on_ok]. fold (after_sweep b). destruct (has_redis _); [by rewrite Hno|done].
Qed.

(** C26. After a restart the controller and the tables agree on what is open: taking
    the answers from the tables, and carrying out on them the updates that
    recovery asks for, a build is active in memory exactly when its row is not
    ended; every job whose row is open is in the registry and in the list of its
    build, with its state, or unknown where it was with a worker; and every job of
    the registry has a row, which is open unless its build is already ended. *)
Theorem recovery_agrees (b : Builds) (fleet : list WorkerRow) (reservations : list (string * string)) :
  builds_wf b ->
  let c := recovered_from_tables b fleet reservations in
  let b' := foldl (carry_out now) b (effects c) in
  (forall gid, (exists g, groups (jgroups c) !! gid = Some g /\ is_active g = true) <->
               (exists r, job_groups b' !! gid = Some r /\ (gr_state r ∉ ended_states))) /\
  (forall id row, jobs_table b' !! id = Some row -> open_job row = true ->
     jobs c !! id = Some (lose_job (clk 1%nat O) (db_job_to_job (clk 1%nat O) row)) /\
     lose_job (clk 2%nat O) (db_job_to_job (clk 2%nat O) row) ∈ JobGroupRegistry.get_jobs_for_group (dj_job_group_id row) (jgroups c)) /\
  (forall id j, jobs c !! id = Some j -> exists row, jobs_table b' !! id = Some row /\ j_job_id j = id /\
     (open_job row = true \/ exists r, job_groups b' !! dj_job_group_id row = Some r /\ gr_state r ∈ ended_states)).
Proof.
  intros Hwf c b'. destruct (after_sweep_tables b Hwf) as [Tg _]. pose proof (after_sweep_wf b Hwf) as Hwf1. set (b1 := after_sweep b) in *.
  assert (Eb : b' = (cleanup_orphaned_jobs now b1).2) by apply carried_out.
  set (orphan := fun row => match job_groups b1 !! dj_job_group_id row with Some g => bool_decide (gr_state g ∈ ended_states) | None => false end).
  assert (Eg : job_groups b' = job_groups b1) by by rewrite Eb.
  assert (Ej : jobs_table b' = (fun row => if open_job row && orphan row then cancel_row now row else row) <$> jobs_table b1) by by rewrite Eb.
  rewrite Eg, Ej. assert (Hjobs : forall id, jobs c !! id = (fun row => lose_job (clk 1%nat O) (db_job_to_job (clk 1%nat O) row))
    <$> (jobs_table b1 !! id ≫= fun row => if open_job row then Some row else None)).
  { intros id. unfold c, recovered_from_tables. rewrite recovered_jobs. by rewrite <- (load_jobs_lookup b1 id Hwf1). }
  split_and!.
  - intros gid. unfold c, recovered_from_tables. rewrite recovered_groups. unfold groups_read. simpl unwrap_or. rewrite load_active_lookup by done.
    rewrite Tg. destruct (job_groups b !! gid) as [r|]; simpl; [|naive_solver]. apply group_agrees.
  - intros id row. rewrite lookup_fmap. intros (row1 & Hr1 & ->)%fmap_Some. cbv beta. destruct (open_job row1) eqn:Ho1; cbn [andb]; [|congruence].
    destruct (orphan row1); [done|]. intros _. split; [by rewrite Hjobs, Hr1; simpl; rewrite Ho1|].
    assert (Hin : row1 ∈ load_active_jobs b1).
    { unfold load_active_jobs. rewrite elem_of_sort_by. apply list_elem_of_filter. split; [done|]. apply elem_of_hvalues. eauto. }
    unfold JobGroupRegistry.get_jobs_for_group, c, recovered_from_tables. rewrite recovered_lists. unfold rows_read. simpl unwrap_or. fold b1.
    rewrite decide_True by (by apply list_elem_of_fmap_2). simpl. apply list_elem_of_fmap_2, list_elem_of_fmap_2, list_elem_of_filter. done.
  - intros id j. rewrite Hjobs, lookup_fmap. destruct (jobs_table b1 !! id) as [row|] eqn:Hr; [|done]. simpl.
    destruct (open_job row) eqn:Ho; [|done]. intros [= <-]. eexists. split; [done|]. destruct (bw_jobs _ Hwf1 id row Hr) as [Hid _]. split.
    { unfold lose_job. by destruct (is_stale _). }
    unfold orphan. simpl. destruct (job_groups b1 !! dj_job_group_id row) as [r|] eqn:Er; [|by left]. case_bool_decide; simpl; [right; eauto|by left].
Qed.

(** A report changes no stage name, so no stage is submitted by it. *)
Definition reported (uuid_v5 : string -> string) (gid : Uuid) (r : JobGroupRegistry) (report : clock * string * JobState * option Z) : JobGroupRegistry :=
  let '(clk, job_id, state, exit_code) := report in update_job_in_group uuid_v5 clk gid job_id state exit_code r.

Lemma reported_stages uuid_v5 gid reports : forall r,
  let r' := foldl (reported uuid_v5 gid) r reports in
  groups r' = groups r /\ submitted_stages (JobGroupRegistry.get_jobs_for_group gid r') = submitted_stages (JobGroupRegistry.get_jobs_for_group gid r).
Proof.
  cbv zeta. induction reports as [|[[[k job_id] state] code] reports IH]; intros r; [done|]. simpl. destruct (IH (update_job_in_group uuid_v5 k gid job_id state code r)) as [-> ->].
  split; [done|]. unfold JobGroupRegistry.get_jobs_for_group, update_job_in_group, alter_jobs. simpl. rewrite lookup_alter_eq.
  destruct (group_jobs r !! gid) as [js|]; [|done]. simpl. unfold submitted_stages. induction js as [|j js IHj]; [done|]. simpl.
  destruct (job_id_matches _ _ _); simpl; [|destruct (j_stage_name j); [f_equal|]; exact IHj]. unfold report_job. by destruct (JobState_is_terminal state).
Qed.

(** A restart forgets the stages a running build has finished: when the jobs of
    a reserved stage are all over before the restart, then after it the stage
    counts as never submitted - a stage that depends on it cannot be submitted,
    and whatever is reported of the build's other jobs, the build is not found
    complete with success. *)
Theorem finished_stage_forgotten (uuid_v5 : string -> string) (b : Builds) (fleet : list WorkerRow) (reservations : list (string * string))
    (gid : Uuid) (r : GroupRow) (stages : list string) (stage : string) (reports : list (clock * string * JobState * option Z)) :
  builds_wf b -> job_groups b !! gid = Some r -> (gr_state r ∉ ended_states) -> stale_row r = false ->
  gr_reserved_stages r = Some stages -> stage ∈ stages ->
  (forall id row, jobs_table b !! id = Some row -> dj_job_group_id row = gid -> dj_stage_name row = stage -> open_job row = false) ->
  let registry := foldl (reported uuid_v5 gid) (jgroups (recovered_from_tables b fleet reservations)) reports in
  can_submit_stage gid [stage] registry = false /\ forall k, (check_group_completion k gid registry).1 <> Some GSuccess.
Proof.
  intros Hwf Hr Hu Hst Hs Hin Hover registry. set (c := recovered_from_tables b fleet reservations) in *.
  destruct (reported_stages uuid_v5 gid reports (jgroups c)) as [Eg Es]. fold registry in Eg, Es.
  assert (Hno : stage ∉ submitted_stages (JobGroupRegistry.get_jobs_for_group gid registry)).
  { rewrite Es. unfold submitted_stages. rewrite list_elem_of_omap. intros (j & Hj & Hn). revert Hj.
    unfold JobGroupRegistry.get_jobs_for_group, c, recovered_from_tables. rewrite recovered_lists. unfold rows_read. simpl unwrap_or.
    assert (Hjobs : j ∉ lose_job (clk 2%nat O) <$> jobs_of (clk 2%nat O) (load_active_jobs (after_sweep b)) gid).
    { intros (j0 & -> & (row & -> & [Hg Hrow]%list_elem_of_filter)%list_elem_of_fmap)%list_elem_of_fmap.
      assert (Hname : dj_stage_name row = stage) by (revert Hn; unfold lose_job; destruct (is_stale _); by intros [= <-]).
      unfold load_active_jobs in Hrow. rewrite elem_of_sort_by in Hrow. apply list_elem_of_filter in Hrow as [Ho [id Hid]%elem_of_hvalues].
      destruct (after_sweep_tables b Hwf) as [_ Tj]. rewrite Tj in Hid. apply fmap_Some in Hid as (row0 & Hrow0 & ->).
      destruct (open_job row0) eqn:Ho0; cbn [andb] in Ho, Hname, Hg.
      - case_bool_decide; [done|]. rewrite (Hover id row0 Hrow0 Hg Hname) in Ho0. done.
      - congruence. }
    repeat case_decide; simpl; [done|by intros ?%not_elem_of_nil..]. }
  split.
  - unfold can_submit_stage. destruct (group_jobs registry !! gid) as [js|] eqn:Ejs; [|done]. simpl. rewrite andb_true_r. apply not_true_iff_false.
    intros (j & Hj%list_elem_of_In & [Hn%bool_decide_eq_true _]%andb_true_iff)%existsb_exists. apply Hno. unfold JobGroupRegistry.get_jobs_for_group. rewrite Ejs.
    apply list_elem_of_omap. eauto.
  - intros k. unfold check_group_completion. rewrite Eg. unfold c, recovered_from_tables. rewrite recovered_groups. unfold groups_read. simpl unwrap_or.
    rewrite load_active_lookup, Hr by done. simpl. rewrite bool_decide_eq_false_2 by done. simpl. unfold recovered_group. unfold stale_row in Hst. rewrite Hst.
    destruct (JobGroupState_is_terminal _); [done|]. destruct (group_jobs registry !! gid) as [[|j js]|] eqn:Ejs; [done| |done].
    destruct (existsb _ _) eqn:E1, (existsb (fun j => bool_decide (j_state j = JCancelled)) _) eqn:E2; simpl; try done.
    destruct (negb _); [done|]. simpl. rewrite Hs. simpl.
    rewrite bool_decide_eq_false_2 by (intros E; rewrite E in Hin; by apply not_elem_of_nil in Hin). simpl.
    rewrite bool_decide_eq_false_2; [done|]. intros E. apply (not_elem_of_nil stage). rewrite <- E. apply list_elem_of_filter. split; [|done].
    unfold JobGroupRegistry.get_jobs_for_group in Hno. by rewrite Ejs in Hno.
Qed.
End FromTables.

(** ** Keys of Redis *)

(** A key is split at its first colon, so the reservation of a worker whose id has
    a colon is read as one of another worker and group - and dropped, although the
    group is active: the key that is released is the same. *)
Lemma colon_worker_released prefix a b gid : has_char ":"%char a = false ->
  reservation_of_key prefix (reservation_key prefix (a +:+ ":" +:+ b) gid) = Some (a, b +:+ ":" +:+ gid)%string /\
  reservation_key prefix a (b +:+ ":" +:+ gid) = reservation_key prefix (a +:+ ":" +:+ b) gid.
Proof.
  intros Ha. assert (E : reservation_key prefix (a +:+ ":" +:+ b) gid =
    (key prefix ["worker"; "reservation"; EmptyString] +:+ a +:+ String ":"%char (b +:+ ":" +:+ gid))%string).
  { unfold reservation_key, key. simpl. by rewrite !str_app_assoc. }
  split.
  - rewrite E. unfold reservation_of_key. rewrite strip_prefix_app. simpl. by rewrite split_once_app.
  - rewrite E. unfold reservation_key, key. simpl. by rewrite !str_app_assoc.
Qed.

(** ** A concrete restart *)

(** A build with one stage over and one running, on a worker of four CPUs. *)
Definition running_build : JobGroup := {| (sample_build 7%N GRunning 0) with
  g_reserved_worker_id := Some "w"; g_allocated_resources := {| ar_cpu := 2; ar_memory_mb := 0; ar_disk_mb := 0 |};
  g_reserved_stages := ["build"; "test"] |}.

Definition running_tables : Builds :=
  (create_job (fun _ => true) {| (sample_row "b" 7%N "running") with dj_stage_name := "test" |}
    (create_job (fun _ => true) (sample_row "a" 7%N "success") (create_job_group (fun _ => true) running_build empty_builds).2).2).2.

Lemma running_tables_wf : builds_wf running_tables.
Proof. apply create_job_wf, create_job_wf, create_group_wf, empty_builds_wf. Qed.

Definition fleet_row : WorkerRow := {|
  wk_worker_id := "w"; wk_hostname := None; wk_total_cpu := Some 4; wk_total_memory_mb := Some 1000; wk_total_disk_mb := Some 1000;
  wk_disk_type := Some "nvme"; wk_supported_job_types := None; wk_docker_enabled := false; wk_status := "connected";
  wk_last_heartbeat_at := None; wk_registered_at := 0; wk_labels := Some ["linux"]; wk_system_info := None;
  wk_worker_token_hash := None; wk_registration_token_id := None; wk_approved := true; wk_description := None; wk_priority := 0;
  wk_max_cpu := None; wk_max_memory_mb := None; wk_max_disk_mb := None; wk_max_cpu_percent := None;
  wk_max_memory_percent := None; wk_max_disk_percent := None |}.

Definition restarted (b : Builds) : Controller :=
  recovered_from_tables (HI := map_iter) (fun _ => None) (secs 100) (fun _ _ => secs 100) 3600 None ∅ false b [fleet_row] [].

(** The worker comes back without its labels, and is charged with its build. *)
Example restarted_worker :
  (fun w => (ws_status w, wi_labels (ws_info w), ws_allocated_cpu w)) <$> workers (restarted running_tables) !! "w" = Some (Disconnected, [], 2).
Proof. vm_compute. reflexivity. Qed.

Lemma recovery_balances_witness :
  balanced (restarted running_tables) /\ counter CPU <$> workers (restarted running_tables) !! "w" = Some 2.
Proof.
  split; [|vm_compute; reflexivity].
  apply (recovery_balances (HI := map_iter) (fun _ => None) (fun _ _ => secs 100) 3600
    (answers_of (HI := map_iter) (secs 100) (fun _ _ => secs 100) 3600 None ∅ false running_tables [fleet_row] []) None ∅ false).
  - intros g Hg k. assert (Hl : groups_read (answers_of (HI := map_iter) (secs 100) (fun _ _ => secs 100) 3600 None ∅ false running_tables [fleet_row] [])
      = [map_job_group (group_row running_build)]) by (vm_compute; reflexivity).
    rewrite Hl in Hg. apply list_elem_of_singleton in Hg as ->. destruct k; vm_compute; congruence.
  - intros id w Hw. change (workers (restarted running_tables) !! id = Some w) in Hw. change (hosts w id (jgroups (restarted running_tables))).
    assert (Hf : workers (restarted running_tables) = {[ "w" := default (worker_row_to_state fleet_row) (workers (restarted running_tables) !! "w") ]})
      by (vm_compute; reflexivity).
    rewrite Hf in Hw. apply lookup_singleton_Some in Hw as [<- Hw]. vm_compute in Hw. rewrite <- Hw.
    split; [split; unfold u32, u64; simpl; try discriminate; lia|]. split_and!; [vm_compute; congruence..|vm_compute; reflexivity|].
    apply map_Forall_insert_2; [|apply map_Forall_empty]. intros _ _. vm_compute. congruence.
Defined.

(** The running job is unknown now, the finished one is not read. *)
Lemma recovery_agrees_witness :
  (exists g, groups (jgroups (restarted running_tables)) !! 7%N = Some g /\ is_active g = true) /\
  (j_state <$> jobs (restarted running_tables) !! "b") = Some JUnknown /\ jobs (restarted running_tables) !! "a" = None.
Proof.
  destruct (recovery_agrees (HI := map_iter) (fun _ => None) (secs 100) (fun _ _ => secs 100) 3600 None ∅ false running_tables [fleet_row] []
    running_tables_wf) as (Hg & Hj & _). split_and!.
  - apply Hg. exists (group_row running_build). split; [vm_compute; reflexivity|]. apply (proj1 (bool_decide_eq_false _)). vm_compute. reflexivity.
  - destruct (Hj "b" {| (sample_row "b" 7%N "running") with dj_stage_name := "test" |}) as [E _]; [vm_compute; reflexivity|reflexivity|].
    change (jobs (restarted running_tables) !! "b" = Some (lose_job (secs 100) (db_job_to_job (secs 100) {| (sample_row "b" 7%N "running") with dj_stage_name := "test" |}))) in E.
    by rewrite E.
  - vm_compute. reflexivity.
Defined.

(** The running job reports success, and the build is not complete. *)
Lemma finished_stage_forgotten_witness :
  let registry := update_job_in_group (fun s => s) (fun _ => 9) 7%N "b" JSuccess (Some 0) (jgroups (restarted running_tables)) in
  (forall k, (check_group_completion k 7%N registry).1 <> Some GSuccess) /\ can_submit_stage 7%N ["build"] registry = false.
Proof.
  cbv zeta. destruct (finished_stage_forgotten (HI := map_iter) (fun _ => None) (secs 100) (fun _ _ => secs 100) 3600 None ∅ false (fun s => s)
    running_tables [fleet_row] [] 7%N (group_row running_build) ["build"; "test"] "build" [((fun _ => 9), "b", JSuccess, Some 0)]) as [Hc Hk].
  - apply running_tables_wf.
  - vm_compute. reflexivity.
  - apply (proj1 (bool_decide_eq_false _)). vm_compute. reflexivity.
  - reflexivity.
  - reflexivity.
  - by left.
  - intros id row Hrow _ Hs. assert (Ht : jobs_table running_tables = {[ "a" := default (sample_row "a" 7%N "success") (jobs_table running_tables !! "a");
      "b" := default (sample_row "b" 7%N "running") (jobs_table running_tables !! "b") ]}) by (vm_compute; reflexivity).
    rewrite Ht in Hrow. apply lookup_insert_Some in Hrow as [[<- <-]|[_ [<- <-]%lookup_singleton_Some]]; [vm_compute; reflexivity|].
    by vm_compute in Hs.
  - split; [exact Hk|exact Hc].
Defined.

(** A queued job of a build that had ended is taken up, and handed to a worker. *)
Definition orphan_tables : Builds :=
  (create_job (fun _ => true) (sample_row "o" 7%N "queued") (update_job_group_state 5 7%N GFailed None sample_group_table).2).2.

Example orphan_job_dispatched :
  let c := {| (restarted orphan_tables) with workers := {[ "w" := sample_worker "w" ]} |} in
  job_groups orphan_tables !! 7%N ≫= gr_completed_at = Some 5 /\ groups (jgroups c) !! 7%N = None /\
  exists a, effects (dispatch_job_for_worker (HI := map_iter) (fun _ => "7") (fun _ => "") 9 false "w" true c).2 = effects c ++ [Dispatch "w" a].
Proof. split_and!; [vm_compute; reflexivity..|]. eexists. vm_compute. reflexivity. Qed.
