(* ===== verification/WorkerApi.v ===== *)
(** * The API of workers and of their tokens
    (crates/ci-controller/src/api/worker_handlers.rs,
    api/worker_token_handlers.rs; the loading of token hashes in main.rs)

    A handler takes the caller, the tables of [WorkerStore] ([None] without a
    database) and the controller, and returns its reply with both. [ok n] says
    whether the n-th statement it makes is answered; one that is not changes
    nothing. The random part of a token is an argument. *)

From Stdlib Require Import ZArith Lia.
From stdpp Require Import gmap strings list fin_maps pretty.
From S2P Require Import Prelude Text Config F64 WorkerModel JobModel StageModel WorkerRegistry JobRegistry JobGroupRegistry.
From S2P Require Import LogAggregator Controller Session Json Web WorkerStore.

Definition Reply : Type := result Json ApiError * option Tables * Controller.

Definition with_storage (st : option Tables) (c : Controller) (k : Tables -> result Json ApiError * Tables * Controller) : Reply :=
  match st with
  | None => (Err StorageUnavailable, None, c)
  | Some t => let '(r, t', c') := k t in (r, Some t', c')
  end.

Definition db_error : ApiError := Internal "database".

Definition worker_missing (id : string) : ApiError := NotFound ("Worker '" +:+ id +:+ "' not found")%string.

(** [i64 as usize] *)
Definition as_usize (z : Z) : Z := as_u64 z.

(** [skip(offset as usize).take(limit as usize)] *)
Definition page {A : Type} (offset limit : Z) (l : list A) : list A :=
  let cap (n : Z) := Z.to_nat (Z.min (as_usize n) (Z.of_nat (length l))) in take (cap limit) (drop (cap offset) l).

Section Tokens.
Context (sha256_hex : string -> string) (rfc3339 : timestamp -> string) (uuid_to_string : Uuid -> string)
  (parse_rfc3339 : string -> option timestamp).

(** ** main.rs and worker_token_handlers.rs: the cache of token hashes *)

Definition active_hashes (t : Tables) : gset string :=
  list_to_set (wt_token_hash <$> filter (fun row => wt_active row = true) (list_worker_tokens t)).

(** [refresh_token_hashes], also written out in worker_handlers.rs *)
Definition refresh_token_hashes (ok : bool) (t : Tables) (c : Controller) : Controller :=
  if ok then {| c with token_hashes := active_hashes t |} else c.

(** At start-up the hashes in the rows of the workers are loaded too. *)
Definition load_token_hashes `{HI : HashIter} (tokens_ok workers_ok : bool) (t : Tables) : gset string :=
  (if tokens_ok then active_hashes t else ∅) ∪
  (if workers_ok then list_to_set (omap wk_worker_token_hash (load_workers t)) else ∅).

Record CreateTokenRequest := {
  ct_name : string;
  ct_scope : option string;
  ct_expires_at : option string;
  ct_max_uses : option Z;
  ct_worker_id : option string
}.

Definition generate_token (random_hex scope : string) : string :=
  ((if bool_decide (scope = "runner") then "chola_svc_" else "chola_wkr_") +:+ random_hex)%string.

Definition token_json (row : DbWorkerToken) : list (string * Json) := [
  ("id", Str (uuid_to_string (wt_id row))); ("name", Str (wt_name row)); ("scope", Str (wt_scope row));
  ("expires_at", jopt (fun e => Str (rfc3339 e)) (wt_expires_at row)); ("max_uses", Num (wt_max_uses row))].

Definition token_tail (row : DbWorkerToken) : list (string * Json) := [
  ("active", Bool (wt_active row)); ("created_by", jopt Str (wt_created_by row)); ("created_at", Str (rfc3339 (wt_created_at row)))].

Definition create (ok : nat -> bool) (id : Uuid) (now : timestamp) (random_hex : string) (auth : AuthUser)
    (body : CreateTokenRequest) (st : option Tables) (c : Controller) : Reply :=
  if negb (can_manage_repos (au_role auth)) then (Err (Forbidden "Admin access required"), st, c)
  else with_storage st c (fun t =>
    if bool_decide (trim (ct_name body) = EmptyString) then (Err (BadRequest "Name is required"), t, c)
    else
      let scope := default "shared"%string (ct_scope body) in
      let token := generate_token random_hex scope in
      let expires_at := ct_expires_at body ≫= parse_rfc3339 in
      if negb (ok 0%nat) then (Err db_error, t, c)
      else
        match create_worker_token id now (ct_name body) (sha256_hex token) scope (Some (au_username auth)) expires_at
                (default 0 (ct_max_uses body)) (ct_worker_id body) t with
        | (Err e, t') => (Err (Internal e), t', c)
        | (Ok row, t') =>
            (Ok (Obj ([("token", Str token)] ++ token_json row ++ [("use_count", Num 0)] ++ token_tail row)), t',
             refresh_token_hashes (ok 1%nat) t' c)
        end).

Definition list_tokens (ok : bool) (auth : AuthUser) (st : option Tables) (c : Controller) : Reply :=
  if negb (can_manage_repos (au_role auth)) then (Err (Forbidden "Admin access required"), st, c)
  else with_storage st c (fun t =>
    if negb ok then (Err db_error, t, c)
    else (Ok (Obj [("data", jarr (fun row => Obj (token_json row ++ [("use_count", Num (wt_uses row))] ++ token_tail row))
                              (list_worker_tokens t))]), t, c)).

(** [activate] and [deactivate] *)
Definition set_active (ok : nat -> bool) (auth : AuthUser) (id : Uuid) (active : bool) (st : option Tables) (c : Controller) : Reply :=
  if negb (can_manage_repos (au_role auth)) then (Err (Forbidden "Admin access required"), st, c)
  else with_storage st c (fun t =>
    if negb (ok 0%nat) then (Err db_error, t, c)
    else
      let t' := update_worker_token_active id active t in
      (Ok (Obj [("id", Str (uuid_to_string id)); ("active", Bool active)]), t', refresh_token_hashes (ok 1%nat) t' c)).

Definition delete_one (ok : nat -> bool) (auth : AuthUser) (id : Uuid) (st : option Tables) (c : Controller) : Reply :=
  if negb (can_manage_repos (au_role auth)) then (Err (Forbidden "Admin access required"), st, c)
  else with_storage st c (fun t =>
    if negb (ok 0%nat) then (Err db_error, t, c)
    else let t' := (delete_worker_token id t).2 in (Ok (Obj [("deleted", Bool true)]), t', refresh_token_hashes (ok 1%nat) t' c)).

(** ** worker_handlers.rs *)

(** A token bound to one worker. *)
Definition worker_token (random_hex : string) : string := ("chola_wkr_" +:+ random_hex)%string.

Definition set_approved (ok : bool) (auth : AuthUser) (id : string) (approved : bool) (st : option Tables) (c : Controller) : Reply :=
  if negb (can_manage_workers (au_role auth)) then (Err (Forbidden "Insufficient permissions"), st, c)
  else with_storage st c (fun t =>
    if negb ok then (Err db_error, t, c)
    else (Ok (Obj [("worker_id", Str id); ("approved", Bool approved)]), update_worker_approved id approved t, c)).

Definition registered_already (id : string) : ApiError :=
  Conflict ("Worker '" +:+ id +:+ "' already registered. Use Regenerate Token to issue a new token.")%string.

Definition register_worker_handler (ok : nat -> bool) (token_id : Uuid) (now : timestamp) (random_hex : string) (auth : AuthUser)
    (body : RegisterWorkerRequest) (st : option Tables) (c : Controller) : Reply :=
  if negb (can_manage_workers (au_role auth)) then (Err (Forbidden "Insufficient permissions"), st, c)
  else if bool_decide (trim (rw_worker_id body) = EmptyString) then (Err (BadRequest "worker_id is required"), st, c)
  else if bool_decide (trim (rw_hostname body) = EmptyString) then (Err (BadRequest "hostname is required"), st, c)
  else with_storage st c (fun t =>
    if ok 0%nat && bool_decide (is_Some (get_worker (rw_worker_id body) t)) then (Err (registered_already (rw_worker_id body)), t, c)
    else if negb (ok 1%nat) then (Err db_error, t, c)
    else
      let token := worker_token random_hex in
      match register_worker token_id now body ("worker-" +:+ rw_worker_id body)%string (sha256_hex token) (au_username auth) t with
      | (Err e, t') => (Err (Internal e), t', c)
      | (Ok _, t') =>
          (Ok (Obj [("worker_id", Str (rw_worker_id body)); ("token", Str token)]), t', refresh_token_hashes (ok 2%nat) t' c)
      end).

Definition regenerate_token (ok : nat -> bool) (token_id : Uuid) (now : timestamp) (random_hex : string) (auth : AuthUser)
    (worker_id : string) (st : option Tables) (c : Controller) : Reply :=
  if negb (can_manage_workers (au_role auth)) then (Err (Forbidden "Insufficient permissions"), st, c)
  else with_storage st c (fun t =>
    if negb (ok 0%nat) then (Err db_error, t, c)
    else
      let t1 := deactivate_tokens_for_worker worker_id t in
      let token := worker_token random_hex in
      if negb (ok 1%nat) then (Err db_error, t1, c)
      else
        match create_worker_token token_id now ("worker-" +:+ worker_id +:+ "-regen")%string (sha256_hex token) "dedicated"
                (Some (au_username auth)) None 0 (Some worker_id) t1 with
        | (Err e, t2) => (Err (Internal e), t2, c)
        | (Ok _, t2) =>
            let c1 := refresh_token_hashes (ok 2%nat) t2 c in
            (Ok (Obj [("worker_id", Str worker_id); ("token", Str token)]), t2,
             {| c1 with job_stream_senders := delete worker_id (job_stream_senders c1) |})
        end).

Definition delete_worker_handler (ok : nat -> bool) (auth : AuthUser) (id : string) (st : option Tables) (c : Controller) : Reply :=
  if negb (can_manage_workers (au_role auth)) then (Err (Forbidden "Insufficient permissions"), st, c)
  else with_storage st c (fun t =>
    if negb (ok 0%nat) then (Err db_error, t, c)
    else
      let t1 := deactivate_tokens_for_worker id t in
      let c1 := refresh_token_hashes (ok 1%nat) t1 c in
      let c2 := with_workers (fun wr => (remove id wr).2)
                  {| c1 with job_stream_senders := delete id (job_stream_senders c1) |} in
      if negb (ok 2%nat) then (Err db_error, t1, c2)
      else
        let '(deleted, t2) := delete_worker id t1 in
        (if deleted then Ok (Obj [("worker_id", Str id); ("deleted", Bool true)]) else Err (worker_missing id), t2, c2)).

Definition drain (auth : AuthUser) (id : string) (c : Controller) : result Json ApiError * Controller :=
  if negb (can_manage_workers (au_role auth)) then (Err (Forbidden "Insufficient permissions"), c)
  else
    let '(found, wr) := mark_draining id (workers c) in
    if found
    then (Ok (Obj [("worker_id", Str id); ("status", Str "draining"); ("message", Str "Worker will finish current jobs then disconnect")]),
          {| c with workers := wr |})
    else (Err (worker_missing id), c).

Definition undrain (auth : AuthUser) (id : string) (c : Controller) : result Json ApiError * Controller :=
  if negb (can_manage_workers (au_role auth)) then (Err (Forbidden "Insufficient permissions"), c)
  else
    match (fun w => bool_decide (ws_status w = Draining)) <$> workers c !! id with
    | Some true =>
        (Ok (Obj [("worker_id", Str id); ("status", Str "connected"); ("message", Str "Worker removed from drain mode")]),
         with_workers (mark_reconnected id) c)
    | Some false => (Err (Conflict ("Worker '" +:+ id +:+ "' is not in drain mode")%string), c)
    | None => (Err (worker_missing id), c)
    end.

Definition get_labels_handler (id : string) (c : Controller) : result Json ApiError :=
  match get_labels id (workers c) with
  | Some labels => Ok (Obj [("worker_id", Str id); ("labels", jstrs labels)])
  | None => Err (worker_missing id)
  end.

(** The write to the database may fail; it is only logged. *)
Definition write_if (ok : bool) (f : Tables -> Tables) (st : option Tables) : option Tables := if ok then f <$> st else st.

Definition update_labels_handler (ok : bool) (auth : AuthUser) (id : string) (labels : list string) (st : option Tables) (c : Controller)
    : Reply :=
  if negb (can_manage_workers (au_role auth)) then (Err (Forbidden "Insufficient permissions"), st, c)
  else
    let '(found, wr) := update_labels id labels (workers c) in
    if negb found then (Err (worker_missing id), st, c)
    else (Ok (Obj [("worker_id", Str id); ("labels", jstrs labels)]), write_if ok (update_worker_labels id labels) st,
          {| c with workers := wr |}).

(** Called by workers: no caller is asked for. *)
Definition update_metadata (ok : bool) (id info : string) (st : option Tables) (c : Controller) : Reply :=
  let '(found, wr) := update_system_info id info (workers c) in
  if negb found then (Err (worker_missing id), st, c)
  else (Ok (Obj [("status", Str "updated")]), write_if ok (update_worker_metadata id info) st, {| c with workers := wr |}).

(** [v == 0] clears; other values are cast. *)
Definition limit_of (cast : Z -> Z) (v : option Z) : option (option Z) := (fun v => if v =? 0 then None else Some (cast v)) <$> v.

Definition limit_update (u : UpdateLimitsRequest) : LimitUpdate := {|
  lu_priority := ul_priority u;
  lu_max_cpu := limit_of as_u32 (ul_max_cpu u);
  lu_max_memory_mb := limit_of as_u64 (ul_max_memory_mb u);
  lu_max_disk_mb := limit_of as_u64 (ul_max_disk_mb u);
  lu_max_cpu_percent := limit_of id (ul_max_cpu_percent u);
  lu_max_memory_percent := limit_of id (ul_max_memory_percent u);
  lu_max_disk_percent := limit_of id (ul_max_disk_percent u)
|}.

Definition limits_json (row : WorkerRow) : list (string * Json) := [
  ("priority", Num (wk_priority row)); ("max_cpu", jopt Num (wk_max_cpu row)); ("max_memory_mb", jopt Num (wk_max_memory_mb row));
  ("max_disk_mb", jopt Num (wk_max_disk_mb row)); ("max_cpu_percent", jopt Num (wk_max_cpu_percent row));
  ("max_memory_percent", jopt Num (wk_max_memory_percent row)); ("max_disk_percent", jopt Num (wk_max_disk_percent row))].

Definition update_limits (ok : bool) (auth : AuthUser) (id : string) (body : UpdateLimitsRequest) (st : option Tables) (c : Controller)
    : Reply :=
  if negb (can_manage_workers (au_role auth)) then (Err (Forbidden "Insufficient permissions"), st, c)
  else with_storage st c (fun t =>
    if negb ok then (Err db_error, t, c)
    else
      match update_worker_priority_limits id body t with
      | (None, t') => (Err (worker_missing id), t', c)
      | (Some row, t') =>
          (Ok (Obj (("worker_id", Str (wk_worker_id row)) :: limits_json row)), t',
           with_workers (fun wr => (update_priority_limits id (limit_update body) wr).2) c)
      end).

(** ** Listings *)

Context (raw_json : string -> Json).

Definition disk_json (d : DiskDetailInfo) : Json := Obj [
  ("mount_point", Str (dd_mount_point d)); ("device", Str (dd_device d)); ("fs_type", Str (dd_fs_type d));
  ("total_mb", Num (dd_total_mb d)); ("used_mb", Num (dd_used_mb d)); ("available_mb", Num (dd_available_mb d))].

Definition heartbeat_json (hb : WorkerHeartbeat) : Json := Obj [
  ("used_cpu_percent", Float (hb_used_cpu_percent hb)); ("used_memory_mb", Num (hb_used_memory_mb hb));
  ("used_disk_mb", Num (hb_used_disk_mb hb)); ("running_jobs", Num (Z.of_nat (length (hb_running_job_ids hb))));
  ("system_load", Float (hb_system_load hb)); ("timestamp", Str (rfc3339 (hb_timestamp hb)));
  ("disk_details", jarr disk_json (hb_disk_details hb))].

(** [format!("{:?}", status)] *)
Definition status_debug (s : WorkerStatus) : string :=
  match s with Connected => "Connected" | Disconnected => "Disconnected" | Draining => "Draining" end.

Definition worker_head (w : WorkerState) : list (string * Json) :=
  let i := ws_info w in [
  ("worker_id", Str (wi_worker_id i)); ("hostname", Str (wi_hostname i)); ("status", Str (status_debug (ws_status w)));
  ("total_cpu", Num (wi_total_cpu i)); ("allocated_cpu", Num (ws_allocated_cpu w)); ("available_cpu", Num (available_cpu w));
  ("total_memory_mb", Num (wi_total_memory_mb i)); ("allocated_memory_mb", Num (ws_allocated_memory_mb w));
  ("available_memory_mb", Num (available_memory_mb w)); ("total_disk_mb", Num (wi_total_disk_mb i));
  ("allocated_disk_mb", Num (ws_allocated_disk_mb w)); ("available_disk_mb", Num (available_disk_mb w));
  ("disk_type", Str (DiskType_to_string (wi_disk_type i))); ("docker_enabled", Bool (wi_docker_enabled i));
  ("supported_job_types", jstrs (wi_supported_job_types i)); ("registered_at", Str (rfc3339 (ws_registered_at w)));
  ("last_heartbeat", jopt heartbeat_json (ws_last_heartbeat w)); ("disk_details", jarr disk_json (wi_disk_details i));
  ("system_info", jopt raw_json (ws_system_info w))].

Definition worker_tail (w : WorkerState) : list (string * Json) :=
  let i := ws_info w in [
  ("labels", jstrs (wi_labels i)); ("priority", Num (wi_priority i)); ("max_cpu", jopt Num (wi_max_cpu i));
  ("max_memory_mb", jopt Num (wi_max_memory_mb i)); ("max_disk_mb", jopt Num (wi_max_disk_mb i));
  ("max_cpu_percent", jopt Num (wi_max_cpu_percent i)); ("max_memory_percent", jopt Num (wi_max_memory_percent i));
  ("max_disk_percent", jopt Num (wi_max_disk_percent i)); ("cpu_cap", Num (cpu_cap w)); ("memory_cap", Num (memory_cap w));
  ("disk_cap", Num (disk_cap w))].

Definition group_json (jg : JobGroupRegistry) (g : JobGroup) : Json := Obj [
  ("group_id", Str (uuid_to_string (g_id g))); ("state", Str (JobGroupState_to_string (g_state g)));
  ("branch", jopt Str (g_branch g)); ("commit_sha", jopt Str (g_commit_sha g));
  ("allocated_cpu", Num (ar_cpu (g_allocated_resources g))); ("allocated_memory_mb", Num (ar_memory_mb (g_allocated_resources g)));
  ("allocated_disk_mb", Num (ar_disk_mb (g_allocated_resources g)));
  ("stages_submitted", Num (Z.of_nat (length (get_jobs_for_group (g_id g) jg)))); ("created_at", Str (rfc3339 (g_created_at g)))].

Definition live_json `{HI : HashIter} (jg : JobGroupRegistry) (w : WorkerState) : Json :=
  Obj (worker_head w ++ [("active_groups", jarr (group_json jg) (get_groups_for_worker (wi_worker_id (ws_info w)) jg))] ++ worker_tail w).

Definition offline_json (row : WorkerRow) : Json := Obj ([
  ("worker_id", Str (wk_worker_id row)); ("hostname", Str (default EmptyString (wk_hostname row))); ("status", Str "Offline");
  ("total_cpu", Num (default 0 (wk_total_cpu row))); ("allocated_cpu", Num 0); ("available_cpu", Num 0);
  ("total_memory_mb", Num (default 0 (wk_total_memory_mb row))); ("allocated_memory_mb", Num 0); ("available_memory_mb", Num 0);
  ("total_disk_mb", Num (default 0 (wk_total_disk_mb row))); ("allocated_disk_mb", Num 0); ("available_disk_mb", Num 0);
  ("disk_type", Str (default "unknown"%string (wk_disk_type row))); ("docker_enabled", Bool (wk_docker_enabled row));
  ("supported_job_types", jstrs (default [] (wk_supported_job_types row))); ("registered_at", Str (rfc3339 (wk_registered_at row)));
  ("last_heartbeat", jopt (fun t => Obj [("timestamp", Str (rfc3339 t))]) (wk_last_heartbeat_at row)); ("disk_details", Arr []);
  ("system_info", jopt raw_json (wk_system_info row)); ("active_groups", Arr []); ("labels", jopt jstrs (wk_labels row));
  ("description", jopt Str (wk_description row))] ++ limits_json row).

Record PaginationParams := {
  pp_limit : option Z;
  pp_offset : option Z
}.

(** The live workers, then the rows of the others. *)
Definition list_data `{HI : HashIter} (ok : bool) (st : option Tables) (c : Controller) : list Json :=
  let live := all_workers (workers c) in
  let live_ids := list_to_set (C := gset string) ((fun w => wi_worker_id (ws_info w)) <$> live) in
  (live_json (jgroups c) <$> live) ++
  match st with
  | Some t => if ok then offline_json <$> filter (fun row => wk_worker_id row ∉ live_ids) (load_workers t) else []
  | None => []
  end.

Definition list_workers `{HI : HashIter} (ok : bool) (params : PaginationParams) (st : option Tables) (c : Controller) : Json :=
  let limit := Z.min (default 50 (pp_limit params)) 200 in
  let offset := default 0 (pp_offset params) in
  let data := list_data ok st c in
  Obj [("data", Arr (page offset limit data));
       ("pagination", Obj [("total", Num (Z.of_nat (length data))); ("limit", Num limit); ("offset", Num offset)])].

Definition get_one (id : string) (c : Controller) : result Json ApiError :=
  match workers c !! id with
  | Some w => Ok (Obj (worker_head w ++ worker_tail w))
  | None => Err (worker_missing id)
  end.
End Tokens.

(** ** Rotating a token *)

Lemma elem_of_active_hashes t h :
  h ∈ active_hashes t <-> exists row, row ∈ worker_tokens t /\ wt_active row = true /\ wt_token_hash row = h.
Proof.
  unfold active_hashes, list_worker_tokens. rewrite elem_of_list_to_set, list_elem_of_fmap.
  split; intros (row & H1 & H2); exists row.
  - apply list_elem_of_filter in H2 as [? H2]. by rewrite elem_of_sort_by in H2.
  - destruct H2 as [H2 <-]. split; [done|]. apply list_elem_of_filter. by rewrite elem_of_sort_by.
Qed.

Definition free (worker_id : string) (tokens : list DbWorkerToken) : Prop :=
  forall row, row ∈ tokens -> wt_worker_id row = Some worker_id -> wt_active row = true.

(** What a fresh row needs to enter the table. *)
Record fresh (row : DbWorkerToken) (tokens : list DbWorkerToken) : Prop := {
  fr_id : forall old, old ∈ tokens -> wt_id old <> wt_id row;
  fr_hash : forall old, old ∈ tokens -> wt_token_hash old <> wt_token_hash row;
  fr_fits : fits 255 (wt_name row) && fits 64 (wt_token_hash row) && fits 20 (wt_scope row)
            && opt_fits 255 (wt_created_by row) && opt_fits 255 (wt_worker_id row) = true
}.

Lemma insert_fresh row tokens : fresh row tokens ->
  (forall old w, old ∈ tokens -> wt_worker_id row = Some w -> wt_worker_id old <> Some w) ->
  insert_token row tokens = Ok (tokens ++ [row]).
Proof.
  intros [F1 F2 F3] Hw. unfold insert_token. rewrite F3. simpl. destruct (existsb (clashes row) tokens) eqn:E; [|done].
  apply existsb_exists in E as (old & Ho%list_elem_of_In & Hc). unfold clashes in Hc.
  rewrite !orb_true_iff, !bool_decide_eq_true in Hc. destruct Hc as [[Hc|Hc]|Hc].
  - by destruct (F1 old Ho).
  - by destruct (F2 old Ho).
  - destruct (wt_worker_id row) as [w|] eqn:Ew; [|done]. apply bool_decide_eq_true in Hc. by destruct (Hw old w Ho eq_refl).
Qed.

Lemma deactivated_row worker_id row :
  let row' := deactivate_token worker_id row in
  wt_id row' = wt_id row /\ wt_token_hash row' = wt_token_hash row /\
  (wt_worker_id row = Some worker_id -> wt_active row = true -> wt_active row' = false /\ wt_worker_id row' = None) /\
  (wt_worker_id row <> Some worker_id \/ wt_active row = false -> row' = row).
Proof.
  unfold deactivate_token. case_bool_decide; destruct (wt_active row); simpl; split_and!; try done; intros []; done.
Qed.

(** The table once the old tokens are unbound and the new one is in. *)
Definition rotated (row : DbWorkerToken) (worker_id : string) (t : Tables) : Tables :=
  with_tokens (fun tokens => (deactivate_token worker_id <$> tokens) ++ [row]) t.

Lemma regenerate_inserts id now name hash by_ worker_id t :
  let row := new_token id now name hash "dedicated" (Some by_) None 0 (Some worker_id) in
  fresh row (worker_tokens t) -> free worker_id (worker_tokens t) ->
  create_worker_token id now name hash "dedicated" (Some by_) None 0 (Some worker_id) (deactivate_tokens_for_worker worker_id t)
    = (Ok row, rotated row worker_id t).
Proof.
  intros row [F1 F2 F3] Hfree. unfold create_worker_token. fold row. rewrite insert_fresh; [done| |].
  - split; [| |done]; intros old (old0 & -> & Ho)%list_elem_of_fmap;
      destruct (deactivated_row worker_id old0) as (E1 & E2 & _); rewrite ?E1, ?E2; first [by apply F1|by apply F2].
  - intros old w (old0 & -> & Ho)%list_elem_of_fmap [= <-] E.
    destruct (deactivated_row worker_id old0) as (_ & _ & D1 & D2).
    destruct (decide (wt_worker_id old0 = Some worker_id)) as [Hb|Hb].
    + destruct (D1 Hb (Hfree old0 Ho Hb)) as [_ E']. congruence.
    + rewrite (D2 (or_introl Hb)) in E. done.
Qed.

Lemma rotated_hashes row worker_id t h : wt_active row = true -> free worker_id (worker_tokens t) ->
  h ∈ active_hashes (rotated row worker_id t) <->
  h = wt_token_hash row \/
  exists old, old ∈ worker_tokens t /\ wt_active old = true /\ wt_worker_id old <> Some worker_id /\ wt_token_hash old = h.
Proof.
  intros Ha Hfree. rewrite elem_of_active_hashes. unfold rotated. simpl. split.
  - intros (r & [(old & -> & Ho)%list_elem_of_fmap| ->%list_elem_of_singleton]%elem_of_app & Hr & <-); [right|by left].
    destruct (deactivated_row worker_id old) as (_ & E2 & D1 & D2). exists old. rewrite E2.
    destruct (decide (wt_worker_id old = Some worker_id)) as [Hb|Hb].
    + destruct (D1 Hb (Hfree old Ho Hb)) as [E _]. congruence.
    + rewrite (D2 (or_introl Hb)) in Hr. done.
  - intros [->|(old & Ho & Hr & Hb & <-)].
    + exists row. split; [|done]. apply elem_of_app. right. by apply list_elem_of_singleton.
    + exists old. split; [|done]. apply elem_of_app. left. apply list_elem_of_fmap. exists old.
      destruct (deactivated_row worker_id old) as (_ & _ & _ & D2). by rewrite (D2 (or_introl Hb)).
Qed.

(** A refused token: the prefix is known and the hash is not. *)
Lemma interceptor_unknown sha config hashes token :
  auth_enabled config = true -> starts_with "chola_wkr_" token = true -> sha token ∉ hashes ->
  auth_interceptor sha config hashes (Some ("Bearer " +:+ token)%string) = Err (unauthenticated "Invalid token").
Proof.
  intros He Hp Hh. unfold auth_interceptor. rewrite He. cbv zeta. unfold default, id.
  rewrite (strip_prefix_app "Bearer " token), Hp, orb_true_r. cbv iota. simpl negb. cbv iota. by rewrite bool_decide_eq_false_2.
Qed.

Lemma free_hash_gone row worker_id t old : tables_wf t -> free worker_id (worker_tokens t) -> wt_active row = true ->
  old ∈ worker_tokens t -> wt_worker_id old = Some worker_id -> wt_token_hash old <> wt_token_hash row ->
  wt_token_hash old ∉ active_hashes (rotated row worker_id t).
Proof.
  intros [_ Hnd _ _] Hfree Ha Ho Hb Hne [?|(old' & Ho' & _ & Hb' & E)]%rotated_hashes; [done| |done..].
  apply Hb'. rewrite <- Hb. f_equal.
  apply list_elem_of_lookup in Ho as [i Hi]. apply list_elem_of_lookup in Ho' as [j Hj].
  assert (i = j) as ->; [|congruence]. apply (NoDup_lookup (wt_token_hash <$> worker_tokens t) i j (wt_token_hash old));
    rewrite ?list_lookup_fmap, ?Hi, ?Hj; simpl; congruence.
Qed.

(** Regenerating a worker's token, when every statement is answered, the new
    token is new and no inactive token is still bound to the worker: the caller
    gets the new token, which the interceptor lets through and the database binds
    to the worker; every token that was bound to the worker is refused from then
    on; the active tokens of everybody else stay; and the worker's job stream is
    closed. *)
Theorem regenerate_rotates (sha256_hex : string -> string) ok id now random_hex auth worker_id t c config :
  let token := worker_token random_hex in
  let row := new_token id now ("worker-" +:+ worker_id +:+ "-regen")%string (sha256_hex token) "dedicated"
               (Some (au_username auth)) None 0 (Some worker_id) in
  tables_wf t -> (forall n, ok n = true) -> can_manage_workers (au_role auth) = true ->
  fresh row (worker_tokens t) -> free worker_id (worker_tokens t) -> auth_enabled config = true ->
  exists t' c',
    regenerate_token sha256_hex ok id now random_hex auth worker_id (Some t) c
      = (Ok (Obj [("worker_id", Str worker_id); ("token", Str token)]), Some t', c') /\
    auth_interceptor sha256_hex config (token_hashes c') (Some ("Bearer " +:+ token)%string) = Ok tt /\
    token_worker_id (sha256_hex token) t' = Some worker_id /\
    (forall old s, old ∈ worker_tokens t -> wt_worker_id old = Some worker_id -> starts_with "chola_wkr_" s = true ->
       sha256_hex s = wt_token_hash old ->
       auth_interceptor sha256_hex config (token_hashes c') (Some ("Bearer " +:+ s)%string) = Err (unauthenticated "Invalid token")) /\
    (forall old, old ∈ worker_tokens t -> wt_active old = true -> wt_worker_id old <> Some worker_id ->
       wt_token_hash old ∈ token_hashes c') /\
    job_stream_senders c' !! worker_id = None.
Proof.
  intros token row Hwf Hok Hrole Hfresh Hfree He.
  exists (rotated row worker_id t), {| (refresh_token_hashes true (rotated row worker_id t) c) with
    job_stream_senders := delete worker_id (job_stream_senders c) |}.
  unfold regenerate_token, with_storage. rewrite Hrole, !Hok. simpl negb. cbv iota zeta.
  rewrite (regenerate_inserts id now _ (sha256_hex (worker_token random_hex)) (au_username auth) worker_id t Hfresh Hfree).
  split; [done|]. simpl. split_and!.
  - apply interceptor_known; [apply starts_with_app|]. apply rotated_hashes; [done..|]. by left.
  - unfold token_worker_id, token_by_hash, rotated. simpl. rewrite filter_app.
    assert (filter (fun r => wt_token_hash r = sha256_hex token) (deactivate_token worker_id <$> worker_tokens t) = []) as ->.
    { apply elem_of_nil_inv. intros r [Hr (old & -> & Ho)%list_elem_of_fmap]%list_elem_of_filter.
      destruct (deactivated_row worker_id old) as (_ & E & _). rewrite E in Hr. by apply (fr_hash _ _ Hfresh old Ho). }
    simpl. rewrite filter_cons_True by done. done.
  - intros old s Ho Hb Hs Hh. apply interceptor_unknown; [done|done|]. rewrite Hh.
    apply free_hash_gone; [done..|]. by apply (fr_hash _ _ Hfresh).
  - intros old Ho Ha Hb. apply rotated_hashes; [done..|]. right. by exists old.
  - by rewrite lookup_delete_eq.
Qed.

(** ** A concrete rotation, and what escapes it *)

Definition plain_hash (s : string) : string := ("h:" +:+ s)%string.

Definition root : AuthUser := {| au_user_id := 1%N; au_username := "root"; au_role := SuperAdmin |}.

Definition sample_token (id : Uuid) (secret : string) (active : bool) (worker_id : option string) : DbWorkerToken :=
  {| (new_token id 0 "t" (plain_hash secret) "dedicated" None None 0 worker_id) with wt_active := active |}.

(** Worker w has the token old, worker v another. *)
Definition sample_tables : Tables :=
  {| worker_tokens := [sample_token 1 "chola_wkr_old" true (Some "w"); sample_token 2 "chola_wkr_v" true (Some "v")];
     worker_rows := ∅ |}.

Lemma sample_tables_wf : tables_wf sample_tables.
Proof. split; by apply (bool_decide_unpack _). Qed.

Definition known (hashes : gset string) : Controller := {| (busy_controller JRunning) with token_hashes := hashes |}.

Lemma regenerate_rotates_witness : exists t' c',
  regenerate_token plain_hash (fun _ => true) 3%N 9 "new" root "w" (Some sample_tables) (known ∅)
    = (Ok (Obj [("worker_id", Str "w"); ("token", Str "chola_wkr_new")]), Some t', c') /\
  auth_interceptor plain_hash AuthConfig_default (token_hashes c') (Some "Bearer chola_wkr_old") = Err (unauthenticated "Invalid token").
Proof.
  destruct (regenerate_rotates plain_hash (fun _ => true) 3%N 9 "new" root "w" sample_tables (known ∅) AuthConfig_default)
    as (t' & c' & E & _ & _ & Hold & _); [apply sample_tables_wf|done|done| | |done|].
  - split; [| |by vm_compute]; intros old [->|[->|[]%not_elem_of_nil]%elem_of_cons]%elem_of_cons; done.
  - intros old [->|[->|[]%not_elem_of_nil]%elem_of_cons]%elem_of_cons; done.
  - exists t', c'. split; [exact E|]. apply (Hold (sample_token 1 "chola_wkr_old" true (Some "w")) "chola_wkr_old"); try done. by left.
Defined.

(** A token that an administrator deactivated keeps its worker, and the unique
    index refuses any other for it: regenerating fails, and goes on failing. *)
Lemma inactive_binding_blocks (sha256_hex : string -> string) ok id now random_hex auth worker_id t c old :
  (forall n, ok n = true) -> can_manage_workers (au_role auth) = true ->
  old ∈ worker_tokens t -> wt_worker_id old = Some worker_id -> wt_active old = false ->
  exists e st, regenerate_token sha256_hex ok id now random_hex auth worker_id (Some t) c = (Err (Internal e), st, c).
Proof.
  intros Hok Hrole Ho Hb Ha. unfold regenerate_token, with_storage. rewrite Hrole, !Hok. simpl negb. cbv iota zeta.
  unfold create_worker_token. set (row := new_token _ _ _ _ _ _ _ _ _).
  destruct (insert_token_cases row (worker_tokens (deactivate_tokens_for_worker worker_id t))) as [[e ->]|[_ Hc]]; [eauto|].
  exfalso. apply no_clash in Hc as (_ & _ & Hw). apply (Hw worker_id eq_refl), list_elem_of_omap. exists old.
  split; [|done]. apply list_elem_of_fmap. exists old. split; [|done].
  destruct (deactivated_row worker_id old) as (_ & _ & _ & D). symmetry. apply D. by right.
Qed.

(** Registering through the API clears every binding, so it cannot clash. *)
Lemma register_worker_binds id now w name hash by_ t :
  fresh (new_token id now name hash "dedicated" (Some by_) None 0 (Some (rw_worker_id w))) (worker_tokens t) ->
  fits 255 (rw_hostname w) = true ->
  exists t', register_worker id now w name hash by_ t = (Ok tt, t') /\ token_worker_id hash t' = Some (rw_worker_id w) /\
    is_Some (get_worker (rw_worker_id w) t').
Proof.
  intros [F1 F2 F3] Hh. unfold register_worker. rewrite Hh. pose proof F3 as Hfit. rewrite !andb_true_iff in Hfit. simpl in Hfit.
  destruct Hfit as [_ Hid]. rewrite Hid. simpl negb. cbv iota. rewrite insert_fresh.
  - eexists. split; [done|]. split; [|unfold get_worker; simpl; rewrite lookup_insert_eq; by eexists].
    unfold token_worker_id, token_by_hash. simpl. rewrite filter_app.
    assert (filter (fun r => wt_token_hash r = hash) (drop_tokens_of (rw_worker_id w) (worker_tokens t)) = []) as ->.
    { apply elem_of_nil_inv. intros r [Hr [_ Ho]%list_elem_of_filter]%list_elem_of_filter. by apply (F2 r Ho). }
    simpl. by rewrite filter_cons_True.
  - split; [| |done]; intros old [_ Ho]%list_elem_of_filter; [by apply F1|by apply F2].
  - intros old x [Hx _]%list_elem_of_filter [= <-]. done.
Qed.

(** A refresh keeps the hashes of the token table only: the permanent token that
    a worker got in exchange for a registration token is in its row, and is
    refused from the next change of any token until the controller restarts. *)
Lemma refresh_forgets_permanent_tokens sha256_hex config t c s :
  auth_enabled config = true -> starts_with "chola_wkr_" s = true -> token_by_hash (sha256_hex s) t = None ->
  auth_interceptor sha256_hex config (token_hashes (refresh_token_hashes true t c)) (Some ("Bearer " +:+ s)%string)
    = Err (unauthenticated "Invalid token").
Proof.
  intros He Hs Hnone. apply interceptor_unknown; [done..|]. simpl. intros (row & Ho & _ & Hh)%elem_of_active_hashes.
  unfold token_by_hash in Hnone. assert (Hin : row ∈ filter (fun r => wt_token_hash r = sha256_hex s) (worker_tokens t))
    by (by apply list_elem_of_filter). destruct (filter _ _); [by apply not_elem_of_nil in Hin|done].
Qed.

(** ... and loading at start-up takes it back, revoked or not: so it is with the
    permanent token of a worker whose token was regenerated. *)
Lemma restart_revives_permanent_tokens `{HI : HashIter} b t worker_id row h :
  worker_rows t !! worker_id = Some row -> wk_worker_token_hash row = Some h -> h ∈ load_token_hashes b true t.
Proof.
  intros Hr Hh. unfold load_token_hashes. apply elem_of_union_r, elem_of_list_to_set, list_elem_of_omap.
  exists row. split; [|done]. by apply elem_of_hvalues; exists worker_id.
Qed.

(** ** Walking the list *)

Lemma page_small {A : Type} (offset limit : nat) (l : list A) :
  Z.of_nat offset < 2 ^ 64 -> Z.of_nat limit < 2 ^ 64 -> page (Z.of_nat offset) (Z.of_nat limit) l = take limit (drop offset l).
Proof.
  intros Ho Hl. unfold page, as_usize, as_u64. rewrite !wrap_small by lia. rewrite <- !Nat2Z.inj_min, !Nat2Z.id.
  destruct (Nat.min_spec offset (length l)) as [[? ->]|[? ->]].
  - destruct (Nat.min_spec limit (length l)) as [[? ->]|[? ->]]; [done|].
    rewrite !take_ge; [done|rewrite length_drop; lia..].
  - by rewrite !drop_ge, !take_nil by lia.
Qed.

Lemma pages_concat {A : Type} (n m : nat) (l : list A) :
  Z.of_nat (m * n) < 2 ^ 64 -> Z.of_nat n < 2 ^ 64 ->
  concat ((fun k => page (Z.of_nat (k * n)) (Z.of_nat n) l) <$> seq 0 m) = take (m * n) l.
Proof.
  intros Hm Hn. induction m as [|m IH]; [done|]. rewrite seq_S, fmap_app, concat_app, IH by lia. simpl.
  rewrite app_nil_r, page_small by lia. rewrite (Nat.add_comm n), take_take_drop. done.
Qed.

Section Listing.
Context `{HI : HashIter} (rfc3339 : timestamp -> string) (uuid_to_string : Uuid -> string) (raw_json : string -> Json).

Definition listed_id (v : Json) : option string := jget "worker_id" v ≫= as_str.

Lemma live_ids jg (l : list WorkerState) : listed_id <$> (live_json rfc3339 uuid_to_string raw_json jg <$> l) = Some <$> ((fun w => wi_worker_id (ws_info w)) <$> l).
Proof. rewrite <- !list_fmap_compose. done. Qed.

Lemma offline_ids (l : list WorkerRow) : listed_id <$> (offline_json rfc3339 raw_json <$> l) = Some <$> (wk_worker_id <$> l).
Proof. rewrite <- !list_fmap_compose. done. Qed.

(** The values of a map whose entries carry their keys. *)
Lemma values_ids {V : Type} (key : V -> string) (m : gmap string V) : (forall k v, m !! k = Some v -> key v = k) ->
  NoDup (key <$> hvalues m) /\ forall x, x ∈ (key <$> hvalues m) <-> is_Some (m !! x).
Proof.
  intros Hk. assert (E : key <$> hvalues m = hkeys m).
  { unfold hkeys, hvalues. rewrite <- list_fmap_compose. apply list_fmap_ext. intros i [k v] Hi. simpl.
    apply Hk. by apply elem_of_hiter, list_elem_of_lookup; exists i. }
  rewrite E. split; [apply NoDup_hkeys|]. intros x. apply elem_of_hkeys.
Qed.

(** The list of workers names every live worker and every recorded one once,
    live or not; its pages of n, up to 200, taken one after the other give it
    whole. *)
Theorem workers_listed_once (t : Tables) (c : Controller) (n m : nat) :
  let data := list_data rfc3339 uuid_to_string raw_json true (Some t) c in
  (forall k w, workers c !! k = Some w -> wi_worker_id (ws_info w) = k) -> tables_wf t ->
  (0 < n <= 200)%nat -> (length data <= m * n)%nat -> Z.of_nat (m * n) < 2 ^ 63 ->
  (exists ids, listed_id <$> data = Some <$> ids /\ NoDup ids /\
     forall x, x ∈ ids <-> is_Some (workers c !! x) \/ is_Some (worker_rows t !! x)) /\
  exists pages : list (list Json), concat pages = data /\ length pages = m /\
    forall k, (k < m)%nat -> exists p, pages !! k = Some p /\
      jget "data" (list_workers rfc3339 uuid_to_string raw_json true
                     {| pp_limit := Some (Z.of_nat n); pp_offset := Some (Z.of_nat (k * n)) |} (Some t) c) = Some (Arr p).
Proof.
  intros data Hkeys [_ _ _ Hrows] Hn Hlen Hm. split.
  - destruct (values_ids (fun w => wi_worker_id (ws_info w)) (workers c) Hkeys) as [Hnd1 Hin1].
    destruct (values_ids wk_worker_id (worker_rows t) Hrows) as [Hnd2 Hin2].
    set (live := (fun w => wi_worker_id (ws_info w)) <$> hvalues (workers c)) in *.
    exists (live ++ (wk_worker_id <$> filter (fun row => wk_worker_id row ∉ (list_to_set live : gset string)) (load_workers t))).
    split_and!.
    + unfold data, list_data. rewrite !fmap_app, live_ids, offline_ids. done.
    + apply NoDup_app. split; [done|]. split.
      * intros x Hx (row & -> & [Hr _]%list_elem_of_filter)%list_elem_of_fmap. by apply Hr, elem_of_list_to_set.
      * eapply sublist_NoDup; [exact Hnd2|]. apply fmap_sublist, sublist_filter.
    + intros x. rewrite elem_of_app, Hin1, list_elem_of_fmap. split.
      * intros [?|(row & -> & [_ Hr]%list_elem_of_filter)]; [by left|right]. apply Hin2, list_elem_of_fmap. by exists row.
      * intros [?|Hx]; [by left|]. destruct (decide (x ∈ live)) as [Hl|Hl]; [left; by apply Hin1|right].
        apply Hin2, list_elem_of_fmap in Hx as (row & -> & Hr). exists row. split; [done|]. apply list_elem_of_filter.
        split; [by rewrite elem_of_list_to_set|done].
  - exists ((fun k => page (Z.of_nat (k * n)) (Z.of_nat n) data) <$> seq 0 m). split_and!.
    + rewrite pages_concat by lia. by apply take_ge.
    + by rewrite length_fmap, length_seq.
    + intros k Hk. exists (page (Z.of_nat (k * n)) (Z.of_nat n) data). split.
      * rewrite list_lookup_fmap, lookup_seq_lt by done. done.
      * unfold list_workers. simpl. by rewrite Z.min_l by lia.
Qed.

(** A negative page size is cast to a huge one: it escapes the limit of 200. *)
Lemma negative_limit_unbounded t c :
  jget "data" (list_workers rfc3339 uuid_to_string raw_json true {| pp_limit := Some (-1); pp_offset := None |} (Some t) c)
    = Some (Arr (list_data rfc3339 uuid_to_string raw_json true (Some t) c)) \/
  2 ^ 63 <= Z.of_nat (length (list_data rfc3339 uuid_to_string raw_json true (Some t) c)).
Proof.
  set (data := list_data _ _ _ _ _ _). destruct (decide (2 ^ 63 <= Z.of_nat (length data))) as [?|Hlt]; [by right|left].
  assert (Hpage : page 0 (-1) data = data).
  { unfold page, as_usize. change (as_u64 (-1)) with (2 ^ 64 - 1). change (as_u64 0) with 0.
    rewrite (Z.min_r (2 ^ 64 - 1)), (Z.min_l 0) by lia. rewrite Nat2Z.id. by apply take_ge. }
  transitivity (Some (Arr (page 0 (-1) data))); [done|by rewrite Hpage].
Qed.
End Listing.

Definition plain_request (id : string) : RegisterWorkerRequest := {|
  rw_worker_id := id; rw_hostname := "host"; rw_labels := None; rw_description := None; rw_priority := None; rw_max_cpu := None;
  rw_max_memory_mb := None; rw_max_disk_mb := None; rw_max_cpu_percent := None; rw_max_memory_percent := None;
  rw_max_disk_percent := None
|}.

(** Worker w is live, and recorded as v is. *)
Definition recorded_tables : Tables :=
  {| worker_tokens := []; worker_rows := <["v" := registered_row 0 (plain_request "v")]> {[ "w" := registered_row 0 (plain_request "w") ]} |}.

Lemma workers_listed_once_witness :
  let data := list_data (HI := map_iter) pretty pretty Str true (Some recorded_tables) (known ∅) in
  length data = 2%nat /\ exists pages : list (list Json), concat pages = data /\ length pages = 2%nat.
Proof.
  split; [by vm_compute|].
  destruct (workers_listed_once (HI := map_iter) pretty pretty Str recorded_tables (known ∅) 1 2) as [_ (pages & E & Hl & _)].
  - intros k w. simpl. intros [<- <-]%lookup_singleton_Some. done.
  - split; [constructor|constructor|constructor|]. intros id row. simpl.
    intros [[<- <-]|[_ [<- <-]%lookup_singleton_Some]]%lookup_insert_Some; done.
  - lia.
  - by vm_compute.
  - lia.
  - exists pages. by split.
Defined.

(** ** Limits *)

(** The limits in memory are those of the row. *)
Definition limits_agree (row : WorkerRow) (i : WorkerInfo) : Prop := apply_limits (row_limits row) i = i.

Lemma limit_agrees (cast : Z -> Z) v column i : cast <$> column = i ->
  cast <$> set_limit v column = default i (limit_of cast v).
Proof. intros <-. destruct v as [v|]; [|done]. simpl. by destruct (v =? 0). Qed.

(** An update keeps the two in step; a missing or null value changes neither. *)
Lemma update_limits_agree u worker_id t t' row row' i :
  worker_rows t !! worker_id = Some row -> update_worker_priority_limits worker_id u t = (Some row', t') ->
  limits_agree row i -> limits_agree row' (apply_limits (limit_update u) i).
Proof.
  intros Hr Hu Ha. unfold update_worker_priority_limits, update_row in Hu. simpl in Hu. injection Hu as Hrow _.
  rewrite lookup_alter_eq, Hr in Hrow. injection Hrow as <-. unfold limits_agree, apply_limits in *. destruct i. simpl in *.
  injection Ha as E1 E2 E3 E4 E5 E6 E7. f_equal; simpl; try by apply limit_agrees.
  - subst. done.
  - pose proof (limit_agrees id (ul_max_cpu_percent u) (wk_max_cpu_percent row)) as H. rewrite !option_fmap_id in H. by apply H.
  - pose proof (limit_agrees id (ul_max_memory_percent u) (wk_max_memory_percent row)) as H. rewrite !option_fmap_id in H. by apply H.
  - pose proof (limit_agrees id (ul_max_disk_percent u) (wk_max_disk_percent row)) as H. rewrite !option_fmap_id in H. by apply H.
Qed.

(** Zero clears a limit, null keeps it, and a negative one lifts it. *)
Example limit_values : limit_of as_u32 (Some 0) = Some None /\ limit_of as_u32 None = None /\
  limit_of as_u32 (Some (-1)) = Some (Some (2 ^ 32 - 1)).
Proof. done. Qed.

(** Deleting a worker removes it and leaves its groups: they stay reserved on a
    worker that is gone, and no heartbeat timeout will ever end them. *)
Lemma delete_keeps_groups ok auth id t c : (forall n, ok n = true) -> can_manage_workers (au_role auth) = true ->
  let '(_, _, c') := delete_worker_handler ok auth id (Some t) c in
  jgroups c' = jgroups c /\ workers c' = delete id (workers c) /\ job_stream_senders c' = delete id (job_stream_senders c).
Proof.
  intros Hok Hr. unfold delete_worker_handler, with_storage. rewrite Hr, !Hok. simpl negb. cbv iota zeta.
  by destruct (delete_worker id (deactivate_tokens_for_worker id t)) as [[] t2].
Qed.
