(* ===== verification/GroupApi.v ===== *)
(** * The API of job groups (crates/ci-controller/src/api/job_group_handlers.rs)

    Starting, cancelling, retrying and describing builds over HTTP. A handler
    takes the caller, what the database answers, and the controller. The n-th of
    several readings of the same query may answer differently. Time formats and
    the spelling of ids are parameters. *)

From Stdlib Require Import ZArith Lia.
From stdpp Require Import gmap strings list fin_maps pretty.
From S2P Require Import Prelude Text Config F64 QueryLexer QueryParser QueryCompile WorkerModel JobModel StageModel.
From S2P Require Import WorkerRegistry JobRegistry JobGroupRegistry LogAggregator Controller Reservation Session Retention Json Web WorkerApi.

(** ** Starting a build *)

Record TriggerRequest := {
  tr_repo_name : string;
  tr_branch : option string;
  tr_commit_sha : option string;
  tr_stages : option (list string);
  tr_priority : option Z;
  tr_idempotency_key : option string
}.

(** [TriggerResponse], serialized: the first two fields are null when empty. *)
Definition TriggerResponse_build (resp : ReserveWorkerResponse) (dropped : list string) : Json := Obj [
  ("job_group_id", jopt Str (non_empty (rs_job_group_id resp))); ("worker_id", jopt Str (non_empty (rs_worker_id resp)));
  ("stages", jarr (fun s => Obj [("stage_name", Str (si_stage_name s))]) (rs_stages resp)); ("skipped_stages", jstrs dropped);
  ("success", Json.Bool (rs_success resp)); ("message", Str (rs_message resp))].

Definition Status_message (s : Status) : string :=
  match s with
  | failed_precondition m | resource_exhausted m | invalid_argument m | not_found m | already_exists m
  | permission_denied m | unauthenticated m | internal m | unavailable m => m
  end.

(** What the handler does with the outcome of the reservation. *)
Definition reserved (r : Reservation.Reply) (k : ReserveWorkerResponse -> list string -> Json) : result Json ApiError :=
  match r with
  | Err e => Err (Internal (Status_message e))
  | Ok (resp, dropped) => if negb (rs_success resp) then Err (Conflict (rs_message resp)) else Ok (k resp dropped)
  end.

Definition trigger_request (body : TriggerRequest) : ReserveWorkerRequest := {|
  rq_repo_name := tr_repo_name body;
  rq_repo_url := EmptyString;
  rq_branch := default EmptyString (tr_branch body);
  rq_commit_sha := default EmptyString (tr_commit_sha body);
  rq_stages := default [] (tr_stages body);
  rq_priority := default 0 (tr_priority body);
  rq_idempotency_key := default EmptyString (tr_idempotency_key body)
|}.

Section Builds.
Context `{HI : HashIter} (regex_match : string -> string -> option bool) (uuid_to_string : Uuid -> string).

Definition trigger (clk : clock) (gid fresh_repo : Uuid) (st : option Answers) (seen : WorkerRegistry) (auth : AuthUser)
    (body : TriggerRequest) (c : Controller) : result Json ApiError * Controller :=
  if negb (can_trigger_builds (au_role auth)) then (Err (Forbidden "Insufficient permissions"), c)
  else
    let '(r, c') := do_reserve_worker regex_match uuid_to_string clk gid fresh_repo st (trigger_request body) seen c in
    (reserved r TriggerResponse_build, c').

(** ** Retrying *)

Definition retry_request (repo : Repo) (original : JobGroup) (jobs : list DbJob) : ReserveWorkerRequest := {|
  rq_repo_name := repo_name repo;
  rq_repo_url := repo_url repo;
  rq_branch := default EmptyString (g_branch original);
  rq_commit_sha := default EmptyString (g_commit_sha original);
  rq_stages := dj_stage_name <$> jobs;
  rq_priority := 0;
  rq_idempotency_key := EmptyString
|}.

(** What has to hold before anything is reserved. *)
Definition retry_plan (get_group_with_jobs : result (option (JobGroup * list DbJob)) string)
    (get_repo : Uuid -> result (option Repo) string) : result ReserveWorkerRequest ApiError :=
  match get_group_with_jobs with
  | Err e => Err (Internal e)
  | Ok None => Err (NotFound "Job group not found")
  | Ok (Some (original, jobs)) =>
      if negb (JobGroupState_is_terminal (g_state original))
      then Err (Conflict "Can only retry terminal (failed/cancelled/success) builds")
      else
        match g_repo_id original with
        | None => Err (BadRequest "Cannot retry ad-hoc builds without a repo")
        | Some rid =>
            match get_repo rid with
            | Err e => Err (Internal e)
            | Ok None => Err (NotFound "Repo no longer exists")
            | Ok (Some repo) => Ok (retry_request repo original jobs)
            end
        end
  end.

(** [storage]: the two queries of the handler; [st] answers those of the
    reservation. *)
Definition retry (clk : clock) (gid fresh_repo : Uuid)
    (storage : option (result (option (JobGroup * list DbJob)) string * (Uuid -> result (option Repo) string)))
    (st : option Answers) (seen : WorkerRegistry) (auth : AuthUser) (id : Uuid) (c : Controller)
    : result Json ApiError * Controller :=
  if negb (can_trigger_builds (au_role auth)) then (Err (Forbidden "Insufficient permissions"), c)
  else
    match storage with
    | None => (Err StorageUnavailable, c)
    | Some (group, get_repo) =>
        match retry_plan group get_repo with
        | Err e => (Err e, c)
        | Ok req =>
            let '(r, c') := do_reserve_worker regex_match uuid_to_string clk gid fresh_repo st req seen c in
            (reserved r (fun resp _ => Obj [("job_group_id", Str (rs_job_group_id resp)); ("worker_id", Str (rs_worker_id resp));
               ("original_group_id", Str (uuid_to_string id)); ("message", Str "Build re-triggered successfully")]), c')
        end
    end.

(** ** Cancelling *)

Definition api_reason (auth : AuthUser) : string := ("Cancelled via API by " +:+ au_username auth)%string.

Definition cancel (clk : clock) (storage : option (Uuid -> result (option Repo) string)) (auth : AuthUser) (id : Uuid) (c : Controller)
    : result Json ApiError * Controller :=
  if negb (can_cancel_jobs (au_role auth)) then (Err (Forbidden "Insufficient permissions"), c)
  else
    let info := get_group id (jgroups c) in
    if default false ((fun g => JobGroupState_is_terminal (g_state g)) <$> info)
    then (Err (Conflict "Job group already in terminal state"), c)
    else
      let c1 := with_groups (end_group GCancelled clk id (api_reason auth)) c in
      let c2 :=
        match info ≫= fun g => (fun wid => (g, wid)) <$> g_reserved_worker_id g with
        | Some (g, wid) =>
            let c' := dispatch_global_post_script uuid_to_string storage id wid (g_repo_id g) (g_branch g) (g_commit_sha g) GCancelled c1 in
            let c'' := with_workers (release_on wid (g_allocated_resources g)) c' in
            emit (redis [RedisRelease wid id] c'') c''
        | None => c1
        end in
      (Ok (Obj [("id", Str (uuid_to_string id)); ("state", Str "cancelled")]),
       emit (db [DbGroupState id GCancelled (Some (api_reason auth)); DbCancelJobs id;
                 DbAudit (au_user_id auth) (au_username auth) "cancel_job_group" "job_group" (uuid_to_string id)] c2) c2).
End Builds.

(** ** One build in detail *)

(** The answers of the database and of Redis to [get_one]. *)
Record GroupAnswers := {
  ga_group : result (option (JobGroup * list DbJob * bool)) string;
  ga_repo : Uuid -> result (option Repo) string;
  ga_stage_configs : nat -> Uuid -> result (list StageConfig) string;
  ga_archive_timestamps : result (option (timestamp * option timestamp)) string;
  ga_children : result Json string;
  ga_ttl : result (option Z) string
}.

Section Detail.
Context (rfc3339 : timestamp -> string) (uuid_to_string : Uuid -> string).

(** The granted stages; those of the repo for a group recorded without. *)
Definition reserved_stages_of (a : GroupAnswers) (g : JobGroup) : list string :=
  if negb (bool_decide (g_reserved_stages g = [])) then g_reserved_stages g
  else match g_repo_id g with
       | Some rid => sc_stage_name <$> unwrap_or [] (ga_stage_configs a 0 rid)
       | None => []
       end.

Definition resources_json (cpu mem disk : Z) : Json := Obj [("cpu", Num cpu); ("memory_mb", Num mem); ("disk_mb", Num disk)].

Definition alloc_json (a : GroupAnswers) (g : JobGroup) (alloc : AllocatedResources) : Json :=
  if has_alloc alloc then resources_json (ar_cpu alloc) (ar_memory_mb alloc) (ar_disk_mb alloc)
  else match g_repo_id g with
       | Some rid =>
           let stages := unwrap_or [] (ga_stage_configs a 1 rid) in
           resources_json (max_of sc_required_cpu stages) (max_of sc_required_memory_mb stages) (max_of sc_required_disk_mb stages)
       | None => resources_json 0 0 0
       end.

(** A [HashMap] collected from pairs keeps the last of a key. *)
Definition stage_timeouts (a : GroupAnswers) (g : JobGroup) : gmap string Z :=
  match g_repo_id g with
  | Some rid => foldl (fun m sc => <[sc_stage_name sc := sc_max_duration_secs sc]> m) ∅ (unwrap_or [] (ga_stage_configs a 2 rid))
  | None => ∅
  end.

Definition time_json (t : option timestamp) : Json := jopt (fun t => Str (rfc3339 t)) t.

Definition job_json (timeouts : gmap string Z) (j : DbJob) : Json := Obj [
  ("id", Str (dj_id j)); ("stage_name", Str (dj_stage_name j)); ("command", Str (dj_command j));
  ("pre_script", jopt Str (dj_pre_script j)); ("post_script", jopt Str (dj_post_script j)); ("worker_id", jopt Str (dj_worker_id j));
  ("state", Str (dj_state j)); ("exit_code", jopt Num (dj_exit_code j)); ("pre_exit_code", jopt Num (dj_pre_exit_code j));
  ("post_exit_code", jopt Num (dj_post_exit_code j)); ("status_reason", jopt Str (dj_status_reason j));
  ("max_duration_secs", Num (default 0 (timeouts !! dj_stage_name j))); ("started_at", time_json (dj_started_at j));
  ("completed_at", time_json (dj_completed_at j)); ("created_at", Str (rfc3339 (dj_created_at j)));
  ("updated_at", Str (rfc3339 (dj_updated_at j)))].

(** ** Timers *)

Inductive TimerStatus := active | deactivated | paused | na.

#[export] Instance TimerStatus_eq_dec : EqDecision TimerStatus.
Proof. solve_decision. Defined.

Record Timer := {
  tm_status : TimerStatus;
  tm_remaining_secs : option Z;
  tm_max_secs : Z;
  tm_reason : option string
}.

Definition TimerStatus_to_string (s : TimerStatus) : string :=
  match s with active => "active" | deactivated => "deactivated" | paused => "paused" | na => "na" end.

Definition idle_secs_of (now : timestamp) (g : JobGroup) : Z := as_u64 (Z.max 0 (num_seconds (now - g_last_activity_at g))).

Definition has_running (jobs : list Job) : bool := existsb is_stale jobs.

Definition idle_timer (idle_cfg idle_secs : Z) (g : JobGroup) : Timer :=
  let off := {| tm_status := deactivated; tm_remaining_secs := None; tm_max_secs := idle_cfg; tm_reason := None |} in
  if JobGroupState_is_terminal (g_state g) then off
  else if bool_decide (g_state g = GReserved)
  then {| tm_status := active; tm_remaining_secs := Some (as_i64 (saturating_sub idle_cfg idle_secs)); tm_max_secs := idle_cfg;
          tm_reason := Some "Waiting for first stage" |}
  else off.

Definition stall_timer (stall_cfg idle_secs : Z) (g : JobGroup) (jobs : list Job) : Timer :=
  if JobGroupState_is_terminal (g_state g)
  then {| tm_status := deactivated; tm_remaining_secs := None; tm_max_secs := stall_cfg; tm_reason := None |}
  else if bool_decide (g_state g = GRunning) then
    if has_running jobs
    then {| tm_status := paused; tm_remaining_secs := None; tm_max_secs := stall_cfg; tm_reason := Some "Stage is running" |}
    else {| tm_status := active; tm_remaining_secs := Some (as_i64 (saturating_sub stall_cfg idle_secs)); tm_max_secs := stall_cfg;
            tm_reason := Some "Waiting for next stage" |}
  else {| tm_status := na; tm_remaining_secs := None; tm_max_secs := stall_cfg; tm_reason := None |}.

Definition timer_json (t : Timer) : Json := Obj ([
  ("status", Str (TimerStatus_to_string (tm_status t))); ("remaining_secs", jopt Num (tm_remaining_secs t));
  ("max_secs", Num (tm_max_secs t))] ++ match tm_reason t with Some r => [("reason", Str r)] | None => [] end).

Definition no_stage_timer : Json := Obj [("status", Str "na"); ("remaining_secs", Null); ("max_secs", Num 0)].

(** The first running job's limit; [now] is read only if it has started. *)
Definition stage_timer (now : timestamp) (jobs : list Job) : Json :=
  if has_running jobs then
    match head (filter (fun j => j_state j = JRunning) jobs) with
    | Some rj =>
        let max_dur := default 0 (j_max_duration_secs rj) in
        let elapsed := default 0 ((fun t => Z.max 0 (num_seconds (now - t))) <$> j_started_at rj) in
        Obj [("status", Str "active"); ("remaining_secs", Num (if 0 <? max_dur then max_dur - elapsed else -1));
             ("max_secs", Num max_dur); ("elapsed_secs", Num elapsed); ("stage_name", jopt Str (j_stage_name rj));
             ("reason", Str ("Running (" +:+ default "unknown" (j_stage_name rj) +:+ ")")%string)]
    | None => no_stage_timer
    end
  else no_stage_timer.

(** The time of the last activity and the three timers; none for an archived
    group, or one that is not in memory. *)
Definition timers (clk : clock) (idle_cfg stall_cfg : Z) (archived : bool) (id : Uuid) (r : JobGroupRegistry) : option timestamp * Json :=
  if archived then (None, Null)
  else
    match get_group id r with
    | Some g =>
        let idle_secs := idle_secs_of (clk 0%nat) g in
        let jobs := get_jobs_for_group id r in
        (Some (g_last_activity_at g),
         Obj [("idle", timer_json (idle_timer idle_cfg idle_secs g)); ("stall", timer_json (stall_timer stall_cfg idle_secs g jobs));
              ("stage", stage_timer (clk 1%nat) jobs)])
    | None => (None, Null)
    end.

(** ** get_one *)

Definition allocation_of (id : Uuid) (r : JobGroupRegistry) : AllocatedResources :=
  default AllocatedResources_default (g_allocated_resources <$> get_group id r).

Definition group_fields (g : JobGroup) (repo : option Repo) : list (string * Json) := [
  ("id", Str (uuid_to_string (g_id g))); ("repo_id", jopt (fun r => Str (uuid_to_string r)) (g_repo_id g));
  ("repo_name", Str (default EmptyString (repo_name <$> repo))); ("branch", jopt Str (g_branch g));
  ("commit_sha", jopt Str (g_commit_sha g)); ("trigger_source", Str (g_trigger_source g));
  ("reserved_worker_id", jopt Str (g_reserved_worker_id g)); ("state", Str (JobGroupState_to_string (g_state g)));
  ("status_reason", jopt Str (g_status_reason g))].

Definition repo_scripts (repo : option Repo) : list (string * Json) := [
  ("global_pre_script", jopt Str (repo ≫= global_pre_script));
  ("global_pre_script_scope", jopt (fun r => Str (global_pre_script_scope r)) repo);
  ("global_post_script", jopt Str (repo ≫= global_post_script));
  ("global_post_script_scope", jopt (fun r => Str (global_post_script_scope r)) repo)].

(** Redis is asked only for a group on a worker. *)
Definition ttl_json (has_redis : bool) (a : GroupAnswers) (g : JobGroup) : Json :=
  match g_reserved_worker_id g with
  | Some _ => if has_redis then jopt Num (unwrap_or None (ga_ttl a)) else Null
  | None => Null
  end.

Definition get_one (clk : clock) (settings : option (result (gmap string string) string)) (config : WorkersConfig)
    (storage : option GroupAnswers) (id : Uuid) (c : Controller) : result Json ApiError :=
  match storage with
  | None => Err StorageUnavailable
  | Some a =>
      match ga_group a with
      | Err e => Err (Internal e)
      | Ok None => Err (NotFound "Job group not found")
      | Ok (Some (g, jobs, archived)) =>
          let repo := g_repo_id g ≫= fun rid => unwrap_or None (ga_repo a rid) in
          let idle_cfg := resolve_setting_u64 settings "workers.idle_timeout_secs" (idle_timeout_secs config) in
          let stall_cfg := resolve_setting_u64 settings "workers.stall_timeout_secs" (stall_timeout_secs config) in
          let '(last_activity, tms) := timers clk idle_cfg stall_cfg archived id (jgroups c) in
          let stamps := if archived then unwrap_or None (ga_archive_timestamps a) else None in
          let? children := if archived then map_err Internal (ga_children a) else Ok Null in
          Ok (Obj (group_fields g repo
                ++ [("reserved_stages", jstrs (reserved_stages_of a g)); ("submitted_stages", jstrs (dj_stage_name <$> jobs))]
                ++ repo_scripts repo
                ++ [("allocated_resources", alloc_json a g (allocation_of id (jgroups c)));
                    ("created_at", Str (rfc3339 (g_created_at g))); ("updated_at", Str (rfc3339 (g_updated_at g)));
                    ("completed_at", time_json (g_completed_at g)); ("jobs", jarr (job_json (stage_timeouts a g)) jobs);
                    ("last_activity_at", time_json last_activity); ("timers", tms);
                    ("reservation_expires_in_secs", ttl_json (has_redis c) a g); ("idle_timeout_secs", Num idle_cfg);
                    ("stall_timeout_secs", Num stall_cfg); ("archived", Json.Bool archived);
                    ("archived_at", time_json (fst <$> stamps)); ("files_purged_at", time_json (stamps ≫= snd));
                    ("children", children)]))
      end
  end.

(** ** stages *)

(** The seconds until the reaper takes the group, or -1. *)
Definition time_until_timeout (now : timestamp) (idle_cfg stall_cfg : Z) (id : Uuid) (r : JobGroupRegistry) : Z :=
  match get_group id r with
  | None => -1
  | Some g =>
      let timeout :=
        match g_state g with
        | GReserved => idle_cfg
        | GRunning => if has_running (get_jobs_for_group id r) then 0 else stall_cfg
        | _ => 0
        end in
      if 0 <? timeout then as_i64 (saturating_sub timeout (idle_secs_of now g)) else -1
  end.

Definition jobs_by_stage (jobs : list DbJob) : gmap string DbJob := foldl (fun m j => <[dj_stage_name j := j]> m) ∅ jobs.

Definition stage_json (by_stage : gmap string DbJob) (sc : StageConfig) : Json := Obj ([
  ("stage_name", Str (sc_stage_name sc)); ("command", jopt Str (sc_command sc)); ("command_mode", Str (sc_command_mode sc));
  ("required_cpu", Num (sc_required_cpu sc)); ("required_memory_mb", Num (sc_required_memory_mb sc));
  ("required_disk_mb", Num (sc_required_disk_mb sc)); ("max_duration_secs", Num (sc_max_duration_secs sc));
  ("execution_order", Num (sc_execution_order sc)); ("parallel_group", jopt Str (sc_parallel_group sc));
  ("depends_on", jstrs (sc_depends_on sc)); ("job_type", Str (sc_job_type sc)); ("required_labels", jstrs (sc_required_labels sc));
  ("max_retries", Num (sc_max_retries sc))] ++
  match by_stage !! sc_stage_name sc with
  | Some j => [("status", Str (dj_state j)); ("job_id", Str (dj_id j)); ("exit_code", jopt Num (dj_exit_code j));
      ("pre_exit_code", jopt Num (dj_pre_exit_code j)); ("post_exit_code", jopt Num (dj_post_exit_code j));
      ("started_at", time_json (dj_started_at j)); ("completed_at", time_json (dj_completed_at j))]
  | None => [("status", Str "pending"); ("job_id", Null)]
  end).

(** The group as the live tables have it: the archive is not asked. *)
Definition stages (now : timestamp) (settings : option (result (gmap string string) string)) (config : WorkersConfig)
    (storage : option (result (option (JobGroup * list DbJob)) string * GroupAnswers)) (id : Uuid) (c : Controller)
    : result Json ApiError :=
  match storage with
  | None => Err StorageUnavailable
  | Some (group, a) =>
      match group with
      | Err e => Err (Internal e)
      | Ok None => Err (NotFound "Job group not found")
      | Ok (Some (g, jobs)) =>
          let repo := g_repo_id g ≫= fun rid => unwrap_or None (ga_repo a rid) in
          let configs := match g_repo_id g with Some rid => unwrap_or [] (ga_stage_configs a 0 rid) | None => [] end in
          let alloc := allocation_of id (jgroups c) in
          let idle_cfg := resolve_setting_u64 settings "workers.idle_timeout_secs" (idle_timeout_secs config) in
          let stall_cfg := resolve_setting_u64 settings "workers.stall_timeout_secs" (stall_timeout_secs config) in
          Ok (Obj [("job_group_id", Str (uuid_to_string id)); ("repo_name", Str (default EmptyString (repo_name <$> repo)));
                ("branch", jopt Str (g_branch g)); ("commit_sha", jopt Str (g_commit_sha g));
                ("worker_id", jopt Str (g_reserved_worker_id g)); ("state", Str (JobGroupState_to_string (g_state g)));
                ("reservation_expires_in_secs", ttl_json (has_redis c) a g);
                ("last_activity_at", Str (rfc3339 (g_last_activity_at g)));
                ("time_until_timeout_secs", Num (time_until_timeout now idle_cfg stall_cfg id (jgroups c)));
                ("idle_timeout_secs", Num idle_cfg); ("stall_timeout_secs", Num stall_cfg);
                ("allocated_resources", resources_json (ar_cpu alloc) (ar_memory_mb alloc) (ar_disk_mb alloc));
                ("stages", jarr (stage_json (jobs_by_stage jobs)) configs)])
      end
  end.
End Detail.

(** ** The timers tell when the reaper comes *)

Lemma num_seconds_later now last d : last <= now -> 0 <= d -> num_seconds (now + secs d - last) = num_seconds (now - last) + d.
Proof.
  intros Hle Hd. unfold num_seconds, secs. replace (now + d * 1000000000 - last) with ((now - last) + d * 1000000000) by lia.
  rewrite !Z.quot_div_nonneg by lia. by rewrite Z.div_add.
Qed.

Lemma as_u64_small z : 0 <= z < 2 ^ 64 -> as_u64 z = z.
Proof. intros Hz. unfold as_u64. by rewrite wrap_small. Qed.

(** The timer that counts for a group: none while a stage runs. *)
Definition counting (t : Timer) : option Z := if bool_decide (tm_status t = active) then tm_remaining_secs t else None.

(** The idle and the stall timer of a build are what the stale-reservation
    reaper will do: at most one of them counts; if neither does, the reaper leaves
    the build alone; and one that counts down from rem says that, nothing else
    happening, a sweep d seconds from now takes the build exactly when d exceeds
    rem, or at once when the time was over already. The list of stages says the
    same number of seconds, or -1 when no timer counts. *)
Theorem timers_foretell_reaper (now d idle stall : Z) (id : Uuid) (r : JobGroupRegistry) (g : JobGroup) :
  let idle_secs := idle_secs_of now g in
  let jobs := get_jobs_for_group id r in
  let ti := counting (idle_timer idle idle_secs g) in
  let ts := counting (stall_timer stall idle_secs g jobs) in
  get_group id r = Some g -> g_id g = id -> 0 < idle < 2 ^ 63 -> 0 < stall < 2 ^ 63 ->
  g_last_activity_at g <= now -> num_seconds (now - g_last_activity_at g) < 2 ^ 63 -> 0 <= d ->
  (ti = None \/ ts = None) /\
  match ti, ts with
  | Some rem, _ => rem = saturating_sub idle idle_secs /\ time_until_timeout now idle stall id r = rem /\
      (is_stale_group (now + secs d) idle stall r g = true <-> rem < d \/ idle < idle_secs)
  | None, Some rem => rem = saturating_sub stall idle_secs /\ time_until_timeout now idle stall id r = rem /\
      (is_stale_group (now + secs d) idle stall r g = true <-> rem < d \/ stall < idle_secs)
  | None, None => time_until_timeout now idle stall id r = -1 /\ is_stale_group (now + secs d) idle stall r g = false
  end.
Proof.
  intros idle_secs jobs ti ts Hg Hid Hi Hs Hle Hn Hd.
  assert (Hpos : 0 <= num_seconds (now - g_last_activity_at g)) by (apply num_seconds_nonneg; lia).
  assert (Ei : idle_secs = num_seconds (now - g_last_activity_at g)).
  { unfold idle_secs, idle_secs_of. rewrite Z.max_r by lia. apply as_u64_small. lia. }
  assert (Hrem : forall t, 0 < t < 2 ^ 63 -> as_i64 (saturating_sub t idle_secs) = saturating_sub t idle_secs).
  { intros t Ht. apply as_i64_small. unfold saturating_sub. lia. }
  assert (Hlater : forall t, (t <? Z.max 0 (num_seconds (now + secs d - g_last_activity_at g))) = true <->
    saturating_sub t idle_secs < d \/ t < idle_secs).
  { intros t. rewrite num_seconds_later, <- Ei, Z.max_r, Z.ltb_lt by lia. unfold saturating_sub. lia. }
  unfold ti, ts, counting, idle_timer, stall_timer, time_until_timeout, is_stale_group. rewrite Hg, Hid. fold jobs idle_secs.
  destruct (g_state g) eqn:Est; simpl; try (by split; [left|split]).
  - rewrite Hrem by done. split; [by right|]. split; [done|].
    rewrite (proj2 (Z.ltb_lt 0 idle)) by lia. split; [done|]. apply Hlater.
  - unfold has_running. fold jobs. destruct (existsb is_stale jobs); simpl; [by split; [left|split]|].
    rewrite Hrem by done. split; [by left|]. split; [done|]. rewrite (proj2 (Z.ltb_lt 0 stall)) by lia. split; [done|]. apply Hlater.
Qed.

(** A running build between its stages, idle for 100 seconds, with a limit of 300. *)
Definition idle_registry : JobGroupRegistry := add_group (busy_group 7%N "w" 2 100) JobGroupRegistry_new.

Lemma timers_foretell_reaper_witness :
  is_stale_group (secs 100 + secs 201) 300 300 idle_registry (busy_group 7%N "w" 2 100) = true.
Proof.
  destruct (timers_foretell_reaper (secs 100) 201 300 300 7%N idle_registry (busy_group 7%N "w" 2 100)) as [_ H];
    [by vm_compute|done|lia|lia|by vm_compute|by vm_compute|lia|]. destruct H as (_ & _ & H). apply H. left. by vm_compute.
Defined.

(** ** Cancelling *)

Section Cancelling.
Context (uuid_to_string : Uuid -> string).

Lemma cancel_books clk storage auth id c g :
  can_cancel_jobs (au_role auth) = true -> groups (jgroups c) !! id = Some g -> is_active g = true ->
  let '(r, c') := cancel uuid_to_string clk storage auth id c in
  r = Ok (Obj [("id", Str (uuid_to_string id)); ("state", Str "cancelled")]) /\
  jgroups c' = end_group GCancelled clk id (api_reason auth) (jgroups c) /\
  workers c' = match g_reserved_worker_id g with
               | Some wid => release_on wid (g_allocated_resources g) (workers c)
               | None => workers c
               end.
Proof.
  intros Hr Hg Ha. unfold cancel, get_group. rewrite Hr, Hg. simpl. unfold is_active in Ha.
  destruct (JobGroupState_is_terminal _); [done|]. destruct (g_reserved_worker_id g) as [wid|]; [|done]. simpl.
  pose proof (post_script_books uuid_to_string storage id wid (g_repo_id g) (g_branch g) (g_commit_sha g) GCancelled
    (with_groups (end_group GCancelled clk id (api_reason auth)) c)) as (E1 & E2 & _).
  split_and!; [done|exact E2|]. by rewrite E1.
Qed.

(** A refused cancellation changes nothing. *)
Lemma cancel_refused clk storage auth id c :
  can_cancel_jobs (au_role auth) = false \/ (exists g, groups (jgroups c) !! id = Some g /\ is_active g = false) ->
  exists e, cancel uuid_to_string clk storage auth id c = (Err e, c).
Proof.
  unfold cancel, get_group. destruct (can_cancel_jobs _); simpl; [|eauto]. intros [?|(g & -> & Ha)]; [done|]. simpl.
  unfold is_active in Ha. apply negb_false_iff in Ha. rewrite Ha. eauto.
Qed.

(** A build that is not in memory any more (it ended, and was evicted or is from
    before a restart) is reported as cancelled, and the database, which knows how
    it ended, is told that it was cancelled. *)
Lemma cancel_unknown_overwrites clk storage auth id c :
  can_cancel_jobs (au_role auth) = true -> groups (jgroups c) !! id = None -> has_storage c = true ->
  let '(r, c') := cancel uuid_to_string clk storage auth id c in
  r = Ok (Obj [("id", Str (uuid_to_string id)); ("state", Str "cancelled")]) /\
  workers c' = workers c /\ DbGroupState id GCancelled (Some (api_reason auth)) ∈ effects c'.
Proof.
  intros Hr Hg Hs. unfold cancel, get_group. rewrite Hr, Hg. simpl. split; [done|]. split; [done|].
  unfold db. simpl. rewrite Hs. apply elem_of_app. right. by left.
Qed.
End Cancelling.

(** ** Retrying *)

Section Retrying.
Context `{HI : HashIter} (regex_match : string -> string -> option bool) (uuid_to_string : Uuid -> string).

(** A retry reserves anew what was submitted the first time: it happens only
    for somebody who may start builds, on a build that has ended and belongs to a
    repo that is still there; then it is the reservation of that repo, branch and
    commit with the stages that had been submitted, at the default priority; in
    every other case nothing changes. *)
Theorem retry_reserves_again clk gid fresh_repo storage st seen auth id c :
  let '(r, c') := retry regex_match uuid_to_string clk gid fresh_repo storage st seen auth id c in
  (c' = c /\ exists e, r = Err e) \/
  exists original jobs repo get_repo,
    can_trigger_builds (au_role auth) = true /\ storage = Some (Ok (Some (original, jobs)), get_repo) /\
    JobGroupState_is_terminal (g_state original) = true /\
    (exists rid, g_repo_id original = Some rid /\ get_repo rid = Ok (Some repo)) /\
    c' = (do_reserve_worker regex_match uuid_to_string clk gid fresh_repo st (retry_request repo original jobs) seen c).2 /\
    ((exists v, r = Ok v) <-> exists resp dropped, rs_success resp = true /\
       (do_reserve_worker regex_match uuid_to_string clk gid fresh_repo st (retry_request repo original jobs) seen c).1 = Ok (resp, dropped)).
Proof.
  unfold retry. destruct (can_trigger_builds _) eqn:Hr; simpl; [|left; eauto]. destruct storage as [[group get_repo]|]; [|left; eauto].
  unfold retry_plan. destruct group as [[[original jobs]|]|e]; [|left; eauto..].
  destruct (JobGroupState_is_terminal _) eqn:Ht; simpl; [|left; eauto]. destruct (g_repo_id original) as [rid|] eqn:Er; [|left; eauto].
  destruct (get_repo rid) as [[repo|]|e] eqn:Eg; [|left; eauto..].
  destruct (do_reserve_worker _ _ _ _ _ _ _ _ _) as [r c'] eqn:E. right. exists original, jobs, repo, get_repo.
  do 3 (split; [done|]). split; [eauto|]. rewrite E. split; [done|]. simpl. unfold reserved. destruct r as [[resp dropped]|e].
  - destruct (rs_success resp) eqn:Es; simpl; split; intros; eauto.
    + by destruct H.
    + destruct H as (resp' & d' & ? & [= <- <-]). congruence.
  - split; [by intros []|]. by intros (resp & d & _ & [=]).
Qed.

(** So a stage that was granted and never submitted is not run by the retry: here
    a build that failed in the first of its two stages. *)
Example retry_drops_unsubmitted (original : JobGroup) (repo : Repo) (job : DbJob) :
  g_reserved_stages original = ["build"; "deploy"] -> dj_stage_name job = "build" ->
  rq_stages (retry_request repo original [job]) = ["build"].
Proof. intros _ H. simpl. by rewrite H. Qed.
End Retrying.
