(* ===== verification/WebhookApi.v ===== *)
(** * Webhooks (crates/ci-controller/src/api/webhook_handlers.rs)

    Events of a code host start builds. The parser of JSON, the decoding of hex
    and the HMAC are parameters; so are the UUID functions. *)

From Stdlib Require Import ZArith Lia.
From stdpp Require Import gmap strings list fin_maps pretty.
From S2P Require Import Prelude Text Config F64 WorkerModel JobModel StageModel WorkerRegistry JobRegistry JobGroupRegistry.
From S2P Require Import LogAggregator Controller Dispatch Reservation Json Web WorkerStore.

(** ** Payloads *)

Record PushPayload := {
  pl_branch : string;
  pl_commit_sha : string;
  pl_pr_number : option Z
}.

Definition zero_commit : string := "0000000000000000000000000000000000000000".

(** [body.get(k)?.as_str()?] *)
Definition get_str (k : string) (v : Json) : option string := jget k v ≫= as_str.

(** [parse_github_push] and [parse_gitlab_push] are the same function. *)
Definition parse_push (body : Json) : option PushPayload :=
  git_ref ← get_str "ref" body;
  branch ← strip_prefix "refs/heads/" git_ref;
  after ← get_str "after" body;
  if bool_decide (after = zero_commit) then None
  else Some {| pl_branch := branch; pl_commit_sha := after; pl_pr_number := None |}.

Definition parse_github_pr (body : Json) : option PushPayload :=
  action ← get_str "action" body;
  pr ← jget "pull_request" body;
  if bool_decide (action = "closed") && negb (bool_decide ((jget "merged" pr ≫= as_bool) = Some true)) then None
  else if negb (bool_decide (action ∈ ["opened"; "synchronize"; "closed"])) then None
  else
    head ← jget "head" pr;
    branch ← get_str "ref" head;
    sha ← get_str "sha" head;
    Some {| pl_branch := branch; pl_commit_sha := sha; pl_pr_number := as_i32 <$> (jget "number" body ≫= as_int) |}.

(** ** The table of webhooks (storage.rs) *)

Record Webhook := {
  wh_id : Uuid;
  wh_repo_id : Uuid;
  wh_provider : string;
  wh_secret : string;
  wh_events : list string;
  wh_enabled : bool;
  wh_created_at : timestamp;
  wh_updated_at : timestamp
}.

(** [secret] is unique, so at most one row is found. *)
Definition get_webhook_by_secret (secret : string) (hooks : list Webhook) : option Webhook :=
  head (filter (fun w => wh_secret w = secret) hooks).

Definition list_webhooks_for_repo (repo_id : Uuid) (hooks : list Webhook) : list Webhook :=
  sort_by (fun a b => wh_created_at a ?= wh_created_at b) (filter (fun w => wh_repo_id w = repo_id) hooks).

(** The checks of the table: the provider, the two unique keys, the repo. *)
Definition create_webhook (repo_exists : bool) (id : Uuid) (now : timestamp) (repo_id : Uuid) (provider secret : string)
    (events : list string) (hooks : list Webhook) : result Webhook string * list Webhook :=
  let row := {| wh_id := id; wh_repo_id := repo_id; wh_provider := provider; wh_secret := secret; wh_events := events;
                wh_enabled := true; wh_created_at := now; wh_updated_at := now |} in
  if negb (fits 20 provider && fits 255 secret) then (Err "value too long", hooks)
  else if negb (bool_decide (provider ∈ ["github"; "gitlab"])) then (Err "check constraint", hooks)
  else if existsb (fun w => bool_decide (wh_id w = id) || bool_decide (wh_secret w = secret)) hooks then (Err "duplicate key", hooks)
  else if negb repo_exists then (Err "foreign key", hooks)
  else (Ok row, hooks ++ [row]).

Definition delete_webhook (id : Uuid) (hooks : list Webhook) : bool * list Webhook :=
  (existsb (fun w => bool_decide (wh_id w = id)) hooks, filter (fun w => wh_id w <> id) hooks).

(** ** Starting the build *)

(** The database's answers to [trigger_build]. *)
Record TriggerAnswers := {
  ta_existing : result (option JobGroup) string;
  ta_stage_configs : result (list StageConfig) string;
  ta_create : result unit string
}.

Section Trigger.
Context `{HI : HashIter} (uuid_to_string : Uuid -> string) (uuid_v5 : string -> string).

(** The first connected worker, whatever it has left. *)
Definition pick_worker (wr : WorkerRegistry) : result string ApiError :=
  match connected_workers wr with
  | [] => Err (Conflict "No connected workers available")
  | w :: _ => Ok (wi_worker_id (ws_info w))
  end.

Definition webhook_job_id (gid : Uuid) (stage : StageConfig) : string := (uuid_to_string gid +:+ "-" +:+ sc_stage_name stage)%string.

Definition webhook_job (now : timestamp) (gid : Uuid) (worker_id : string) (stage : StageConfig) : Job :=
  {| (Job_new now (webhook_job_id gid stage) (default EmptyString (sc_command stage)) JTCommon (as_u32 (sc_required_cpu stage))
        (as_u64 (sc_required_memory_mb stage)) (as_u64 (sc_required_disk_mb stage))) with
    j_job_group_id := Some gid;
    j_stage_name := Some (sc_stage_name stage);
    j_assigned_worker := Some worker_id;
    j_state := JQueued;
    j_max_duration_secs := Some (sc_max_duration_secs stage) |}.

Definition webhook_db_job (now : timestamp) (gid : Uuid) (worker_id : string) (stage : StageConfig) : DbJob := {|
  dj_id := uuid_v5 (webhook_job_id gid stage);
  dj_job_group_id := gid;
  dj_stage_config_id := Some (sc_id stage);
  dj_stage_name := sc_stage_name stage;
  dj_command := default EmptyString (sc_command stage);
  dj_pre_script := None;
  dj_post_script := None;
  dj_worker_id := Some worker_id;
  dj_state := "queued";
  dj_exit_code := None;
  dj_pre_exit_code := None;
  dj_post_exit_code := None;
  dj_log_path := None;
  dj_started_at := None;
  dj_completed_at := None;
  dj_retry_count := 0;
  dj_status_reason := None;
  dj_created_at := now;
  dj_updated_at := now
|}.

(** The section under the group registry's lock. *)
Definition join_group (clk : clock) (gid : Uuid) (job : Job) (r : JobGroupRegistry) : JobGroupRegistry :=
  let r1 := match get_group gid r with
            | Some g => if bool_decide (g_state g = GReserved) then (update_state clk gid GRunning r).2 else r
            | None => r
            end in
  add_job_to_group gid job r1.

(** One stage; its clock is read for the job, the group, and the row. *)
Definition submit_stage (clk : clock) (gid : Uuid) (worker_id : string) (stage : StageConfig) (c : Controller) : Controller :=
  let job := webhook_job (clk 0%nat) gid worker_id stage in
  let c1 := with_groups (join_group (from_reading 1 clk) gid job) c in
  let c2 := {| c1 with jobs := add_job job (jobs c1) |} in
  emit (db [DbCreateJob (webhook_db_job (clk 3%nat) gid worker_id stage)] c2
        ++ [Metric "inc_stages_submitted"; Metric "inc_active_stages"]) c2.

Fixpoint submit_stages (clk : nat -> clock) (gid : Uuid) (worker_id : string) (stages : list StageConfig) (c : Controller) : Controller :=
  match stages with
  | [] => emit [WakeScheduler] c
  | s :: ss => submit_stages (fun n => clk (S n)) gid worker_id ss (submit_stage (clk 0%nat) gid worker_id s c)
  end.

Definition idempotency_key (repo_id : Uuid) (push : PushPayload) : string :=
  ("webhook:" +:+ uuid_to_string repo_id +:+ ":" +:+ pl_branch push +:+ ":" +:+ pl_commit_sha push)%string.

Definition webhook_group (clk : clock) (gid repo_id : Uuid) (trigger_source worker_id : string) (push : PushPayload) : JobGroup :=
  {| (JobGroup_new (clk 0%nat) gid repo_id (Some (pl_branch push)) (Some (pl_commit_sha push))) with
    g_trigger_source := trigger_source;
    g_pr_number := pl_pr_number push;
    g_idempotency_key := Some (idempotency_key repo_id push);
    g_reserved_worker_id := Some worker_id;
    g_state := GReserved;
    g_updated_at := clk 1%nat |}.

(** [gid] is the id drawn for the group; [clk] is the clock of the group and
    [sclk n] that of the n-th stage. *)
Definition trigger_build (clk : clock) (sclk : nat -> clock) (gid : Uuid) (storage : option TriggerAnswers) (repo_id : Uuid)
    (trigger_source : string) (push : PushPayload) (c : Controller) : result Json ApiError * Controller :=
  match storage with
  | None => (Err StorageUnavailable, c)
  | Some a =>
      match ta_existing a with
      | Ok (Some g) => (Ok (Obj [("job_group_id", Str (uuid_to_string (g_id g))); ("state", Str (JobGroupState_to_string (g_state g)));
                                 ("message", Str "Existing active group returned")]), c)
      | _ =>
          match ta_stage_configs a with
          | Err e => (Err (Internal e), c)
          | Ok [] => (Err (BadRequest "Repo has no stage configs, cannot trigger build"), c)
          | Ok stages =>
              match pick_worker (workers c) with
              | Err e => (Err e, c)
              | Ok worker_id =>
                  let group := webhook_group clk gid repo_id trigger_source worker_id push in
                  let c1 := emit (redis [RedisReserve worker_id gid] c ++ [DbCreateGroup group]) c in
                  match ta_create a with
                  | Err e => (Err (Internal e), c1)
                  | Ok _ =>
                      let c2 := with_groups (add_group group) c1 in
                      let c3 := submit_stages sclk gid worker_id stages c2 in
                      (Ok (Obj [("job_group_id", Str (uuid_to_string gid)); ("worker_id", Str worker_id);
                                ("stages_submitted", Num (Z.of_nat (length stages))); ("message", Str "Build triggered")]),
                       emit [Metric "inc_worker_reservations"; Metric "inc_active_builds"] c3)
                  end
              end
          end
      end
  end.

(** ** Receiving an event *)

(** The headers that are looked at, where present and printable. *)
Record WebhookHeaders := {
  x_hub_signature_256 : option string;
  x_gitlab_token : option string;
  x_github_event : option string
}.

Context (hex_decode : string -> option string) (hmac_ok : string -> string -> string -> bool)
  (parse_json : string -> result Json string).

Definition verify_github_signature (secret body signature : string) : bool :=
  match hex_decode (default signature (strip_prefix "sha256=" signature)) with
  | Some sig => hmac_ok secret body sig
  | None => false
  end.

Definition check_signature (webhook : Webhook) (provider : string) (headers : WebhookHeaders) (body : string) : result unit ApiError :=
  if bool_decide (provider = "github") then
    let sig := default EmptyString (x_hub_signature_256 headers) in
    if negb (bool_decide (sig = EmptyString)) && negb (verify_github_signature (wh_secret webhook) body sig)
    then Err (Unauthorized "Invalid signature") else Ok tt
  else if bool_decide (provider = "gitlab") then
    let token := default EmptyString (x_gitlab_token headers) in
    if negb (bool_decide (token = EmptyString)) && negb (bool_decide (token = wh_secret webhook))
    then Err (Unauthorized "Invalid token") else Ok tt
  else Err (BadRequest "Unsupported provider").

Definition event_type (provider : string) (headers : WebhookHeaders) (payload : Json) : string :=
  if bool_decide (provider = "github") then default "push"%string (x_github_event headers)
  else if bool_decide (provider = "gitlab") then default "push"%string (get_str "object_kind" payload)
  else "push".

Definition parse_event (provider event : string) (payload : Json) : option PushPayload :=
  if bool_decide (provider = "github") then
    if bool_decide (event = "pull_request") then parse_github_pr payload else parse_push payload
  else if bool_decide (provider = "gitlab") then parse_push payload
  else None.

(** What is known of the event before a build is started, or the reply. *)
Definition classify (by_secret : result (option Webhook) string) (provider : string) (headers : WebhookHeaders) (body : string)
    : result (result Json (Webhook * string * PushPayload)) ApiError :=
  match by_secret with
  | Err e => Err (Internal e)
  | Ok None => Err (NotFound "Webhook not found")
  | Ok (Some webhook) =>
      if negb (bool_decide (wh_provider webhook = provider)) then Err (BadRequest "Provider mismatch")
      else
        let? _ := check_signature webhook provider headers body in
        let? payload := map_err BadRequest (parse_json body) in
        let event := event_type provider headers payload in
        if negb (bool_decide (event ∈ wh_events webhook))
        then Ok (Ok (Obj [("message", Str ("Event '" +:+ event +:+ "' not configured for this webhook")%string)]))
        else
          match parse_event provider event payload with
          | None => Ok (Ok (Obj [("message", Str "Event ignored (not a push/PR or branch deleted)")]))
          | Some push => Ok (Err (webhook, event, push))
          end
  end.

Definition trigger_source_of (provider event : string) : string :=
  if bool_decide (event = "pull_request") then "webhook:pr" else ("webhook:" +:+ provider)%string.

(** [storage]: the lookup by the secret of the URL, and the answers to the rest.
    The delivery is recorded by a task of its own. *)
Definition receive (clk : clock) (sclk : nat -> clock) (gid : Uuid) (storage : option (result (option Webhook) string * TriggerAnswers))
    (provider : string) (headers : WebhookHeaders) (body : string) (c : Controller) : result Json ApiError * Controller :=
  match storage with
  | None => (Err StorageUnavailable, c)
  | Some (by_secret, a) =>
      match classify by_secret provider headers body with
      | Err e => (Err e, c)
      | Ok (Ok reply) => (Ok reply, c)
      | Ok (Err (webhook, event, push)) =>
          let '(r, c') := trigger_build clk sclk gid (Some a) (wh_repo_id webhook) (trigger_source_of provider event) push c in
          let outcome := match r with Ok _ => (Some 200, None) | Err _ => (Some 500, Some "Build trigger failed"%string) end in
          (r, emit [DbWebhookDelivery (wh_id webhook) event outcome.1 outcome.2] c')
      end
  end.

(** ** Managing webhooks *)

Context (rfc3339 : timestamp -> string).

Definition webhook_to_json (w : Webhook) : Json := Obj [
  ("id", Str (uuid_to_string (wh_id w))); ("repo_id", Str (uuid_to_string (wh_repo_id w))); ("provider", Str (wh_provider w));
  ("secret", Str (wh_secret w)); ("events", jstrs (wh_events w)); ("enabled", Json.Bool (wh_enabled w));
  ("created_at", Str (rfc3339 (wh_created_at w))); ("updated_at", Str (rfc3339 (wh_updated_at w)))].

(** [ok]: whether the database answers; [k]: the statement on the table. *)
Definition on_webhooks (ok : bool) (auth : AuthUser) (storage : option (list Webhook))
    (k : list Webhook -> result Json ApiError * list Webhook) : result Json ApiError * option (list Webhook) :=
  if negb (can_manage_repos (au_role auth)) then (Err (Forbidden "Insufficient permissions"), storage)
  else match storage with
       | None => (Err StorageUnavailable, None)
       | Some hooks =>
           if negb ok then (Err (Internal "database"), storage)
           else let '(r, hooks') := k hooks in (r, Some hooks')
       end.

Definition list_for_repo (ok : bool) (auth : AuthUser) (storage : option (list Webhook)) (repo_id : Uuid)
    : result Json ApiError * option (list Webhook) :=
  on_webhooks ok auth storage (fun hooks =>
    let list := list_webhooks_for_repo repo_id hooks in
    (Ok (Obj [("webhooks", jarr webhook_to_json list); ("count", Num (Z.of_nat (length list)))]), hooks)).

Record CreateWebhookRequest := {
  cw_provider : string;
  cw_events : option (list string)
}.

(** [uuid] is the id drawn for the secret, in its simple form. *)
Definition create_webhook_handler (ok : bool) (auth : AuthUser) (storage : option (list Webhook)) (repo_exists : bool) (id : Uuid)
    (now : timestamp) (uuid : string) (repo_id : Uuid) (body : CreateWebhookRequest) : result Json ApiError * option (list Webhook) :=
  if can_manage_repos (au_role auth) && negb (bool_decide (cw_provider body ∈ ["github"; "gitlab"]))
  then (Err (BadRequest "provider must be 'github' or 'gitlab'"), storage)
  else on_webhooks ok auth storage (fun hooks =>
    let '(r, hooks') := create_webhook repo_exists id now repo_id (cw_provider body) ("whsec_" +:+ uuid)%string
                          (default ["push"%string] (cw_events body)) hooks in
    (match r with Ok w => Ok (webhook_to_json w) | Err e => Err (Internal e) end, hooks')).

(** The repo of the path is not looked at. *)
Definition delete_webhook_handler (ok : bool) (auth : AuthUser) (storage : option (list Webhook)) (webhook_id : Uuid)
    : result Json ApiError * option (list Webhook) :=
  on_webhooks ok auth storage (fun hooks =>
    let '(deleted, hooks') := delete_webhook webhook_id hooks in
    (if deleted then Ok (Obj [("deleted", Json.Bool true)]) else Err (NotFound "Webhook not found"), hooks')).
End Trigger.

(** ** What gets through *)

Section Gate.
Context `{HI : HashIter} (uuid_to_string : Uuid -> string) (uuid_v5 : string -> string).
Context (hex_decode : string -> option string) (hmac_ok : string -> string -> string -> bool)
  (parse_json : string -> result Json string).

(** A signature that is there is right. *)
Definition signed (webhook : Webhook) (headers : WebhookHeaders) (body : string) : Prop :=
  wh_provider webhook = "github" /\
    (forall sig, x_hub_signature_256 headers = Some sig -> sig <> EmptyString ->
       verify_github_signature hex_decode hmac_ok (wh_secret webhook) body sig = true) \/
  wh_provider webhook = "gitlab" /\
    (forall token, x_gitlab_token headers = Some token -> token <> EmptyString -> token = wh_secret webhook).

Lemma check_signature_ok webhook headers body :
  check_signature hex_decode hmac_ok webhook (wh_provider webhook) headers body = Ok tt <-> signed webhook headers body.
Proof.
  unfold check_signature, signed. case_bool_decide as H1; [|case_bool_decide as H2; [|split; [done|tauto]]].
  - destruct (x_hub_signature_256 headers) as [sig|]; simpl; [|split; [|done]; intros _; left; split; [done|]; by intros].
    destruct (decide (sig = EmptyString)) as [->|Hs]; simpl.
    { split; [|done]. intros _. left. split; [done|]. by intros ? [= <-]. }
    rewrite bool_decide_eq_false_2 by done. simpl.
    destruct (verify_github_signature _ _ _ _ _) eqn:Hv; simpl; split; try done.
    + intros _. left. split; [done|]. by intros ? [= <-].
    + intros [[_ H]|[H _]]; [|congruence]. specialize (H sig eq_refl Hs). congruence.
  - destruct (x_gitlab_token headers) as [tk|]; simpl; [|split; [|done]; intros _; right; split; [done|]; by intros].
    destruct (decide (tk = EmptyString)) as [->|Hs]; simpl.
    { split; [|done]. intros _. right. split; [done|]. by intros ? [= <-]. }
    rewrite bool_decide_eq_false_2 by done. simpl. case_bool_decide as Hv; simpl; split; try done.
    + intros _. right. split; [done|]. by intros ? [= <-].
    + intros [[H _]|[_ H]]; [congruence|]. by destruct Hv; apply H.
Qed.

(** What a payload that starts a build says. *)
Definition announces (event : string) (payload : Json) (push : PushPayload) : Prop :=
  (get_str "ref" payload = Some ("refs/heads/" +:+ pl_branch push)%string /\ get_str "after" payload = Some (pl_commit_sha push) /\
   pl_commit_sha push <> zero_commit) \/
  (event = "pull_request" /\ exists pr head,
     jget "pull_request" payload = Some pr /\ jget "head" pr = Some head /\
     get_str "ref" head = Some (pl_branch push) /\ get_str "sha" head = Some (pl_commit_sha push) /\
     (get_str "action" payload ∈ [Some "opened"%string; Some "synchronize"%string] \/
      get_str "action" payload = Some "closed"%string /\ jget "merged" pr ≫= as_bool = Some true)).

Lemma parse_push_announces event payload push : parse_push payload = Some push -> announces event payload push.
Proof.
  unfold parse_push. intros (r & Hr & (b & Hb & (h & Hh & H)%bind_Some)%bind_Some)%bind_Some.
  case_bool_decide; [done|]. injection H as <-. left. simpl. apply strip_prefix_some in Hb as ->.
  by rewrite Hr, Hh.
Qed.

Lemma parse_pr_announces payload push : parse_github_pr payload = Some push -> announces "pull_request" payload push.
Proof.
  unfold parse_github_pr. intros (act & Hact & (pr & Hpr & H)%bind_Some)%bind_Some. revert H.
  destruct (bool_decide (act = "closed") && _) eqn:Hc; [done|]. destruct (negb (bool_decide (act ∈ _))) eqn:Hin; [done|].
  intros (hd & Hhd & (b & Hb & (sha & Hsha & H)%bind_Some)%bind_Some)%bind_Some. injection H as <-.
  right. split; [done|]. exists pr, hd. simpl. do 4 (split; [done|]). rewrite Hact.
  apply negb_false_iff, bool_decide_eq_true in Hin. apply andb_false_iff in Hc.
  repeat (apply elem_of_cons in Hin as [->|Hin]); [left; set_solver..| |by apply not_elem_of_nil in Hin].
  right. split; [done|]. destruct Hc as [Hc|Hc]; [by apply bool_decide_eq_false in Hc|].
  by apply negb_false_iff, bool_decide_eq_true in Hc.
Qed.

Lemma parse_event_announces provider event payload push :
  parse_event provider event payload = Some push -> announces event payload push.
Proof.
  unfold parse_event. case_bool_decide; [case_bool_decide as He|case_bool_decide; [|done]].
  - rewrite He. apply parse_pr_announces.
  - apply parse_push_announces.
  - apply parse_push_announces.
Qed.

(** Nothing reaches the controller through a webhook's URL but a build that
    its provider announced: either the controller is left as it was, or the URL's
    secret is that of a webhook of the provider named in the URL, GitHub's or
    GitLab's; whatever signature or token the request carries is right; the body
    parses; its kind of event is one the webhook subscribes to; it announces a
    branch that was pushed and not deleted, or a pull request that was opened,
    pushed to or merged; and the controller is the one after a build of the
    webhook's repo, of the branch and commit announced, with the delivery
    recorded. *)
Theorem webhook_gate clk sclk gid storage provider headers body c :
  let '(r, c') := receive uuid_to_string uuid_v5 hex_decode hmac_ok parse_json clk sclk gid storage provider headers body c in
  c' = c \/
  exists webhook a payload event push code err,
    storage = Some (Ok (Some webhook), a) /\ wh_provider webhook = provider /\ signed webhook headers body /\
    parse_json body = Ok payload /\ event = event_type provider headers payload /\ event ∈ wh_events webhook /\
    announces event payload push /\
    let build := trigger_build uuid_to_string uuid_v5 clk sclk gid (Some a) (wh_repo_id webhook) (trigger_source_of provider event) push c in
    r = build.1 /\ c' = emit [DbWebhookDelivery (wh_id webhook) event code err] build.2.
Proof.
  unfold receive. destruct storage as [[by_secret a]|]; [|by left]. unfold classify.
  destruct by_secret as [[webhook|]|e]; [|by left..]. destruct (decide (wh_provider webhook = provider)) as [<-|Hp].
  2: { rewrite bool_decide_eq_false_2 by done. by left. }
  rewrite bool_decide_eq_true_2 by done. simpl negb. cbv iota.
  destruct (check_signature _ _ _ _ _ _) as [[]|e] eqn:Hs; [|by left]. apply check_signature_ok in Hs. cbn [rbind].
  destruct (parse_json body) as [payload|e] eqn:Hj; [|by left]. cbn [map_err rbind].
  destruct (negb _) eqn:Hev; [by left|]. apply negb_false_iff, bool_decide_eq_true in Hev.
  destruct (parse_event _ _ payload) as [push|] eqn:Hpush; [|by left]. apply parse_event_announces in Hpush.
  destruct (trigger_build _ _ _ _ _ _ _ _ _ _) as [r c'] eqn:E. right.
  eexists webhook, a, payload, _, push, _, _. rewrite E. by split_and!.
Qed.
End Gate.

(** ** The build *)

Section Build.
Context `{HI : HashIter} (uuid_to_string : Uuid -> string) (uuid_v5 : string -> string).

(** The group registry after all stages. *)
Fixpoint enter_stages (clk : nat -> clock) (gid : Uuid) (worker_id : string) (stages : list StageConfig) (r : JobGroupRegistry)
    : JobGroupRegistry :=
  match stages with
  | [] => r
  | s :: ss => enter_stages (fun n => clk (S n)) gid worker_id ss
                 (join_group (from_reading 1 (clk 0%nat)) gid (webhook_job uuid_to_string (clk 0%nat 0%nat) gid worker_id s) r)
  end.

(** The jobs, in the order of the stages. *)
Definition stage_jobs (clk : nat -> clock) (gid : Uuid) (worker_id : string) (stages : list StageConfig) : list Job :=
  imap (fun n s => webhook_job uuid_to_string (clk n 0%nat) gid worker_id s) stages.

Lemma submit_stages_books clk gid worker_id stages c :
  let c' := submit_stages uuid_to_string uuid_v5 clk gid worker_id stages c in
  workers c' = workers c /\ jgroups c' = enter_stages clk gid worker_id stages (jgroups c) /\
  jobs c' = foldl (fun m j => add_job j m) (jobs c) (stage_jobs clk gid worker_id stages).
Proof.
  revert clk c. induction stages as [|st stages IH]; intros clk c; [done|]. simpl.
  destruct (IH (fun n => clk (S n)) (submit_stage uuid_to_string uuid_v5 (clk 0%nat) gid worker_id st c)) as (-> & -> & ->).
  split_and!; [done|done|]. unfold stage_jobs. done.
Qed.

Lemma trigger_build_books clk sclk gid st repo_id src push c :
  let c' := (trigger_build uuid_to_string uuid_v5 clk sclk gid st repo_id src push c).2 in
  workers c' = workers c /\
  (jgroups c' = jgroups c \/
   exists worker_id stages, jgroups c' =
     enter_stages sclk gid worker_id stages (add_group (webhook_group uuid_to_string clk gid repo_id src worker_id push) (jgroups c))).
Proof.
  unfold trigger_build. destruct st as [a|]; [|auto]. destruct (ta_existing a) as [[g|]|e0]; [auto| |].
  all: destruct (ta_stage_configs a) as [[|s0 ss]|e1]; [auto| |auto].
  all: destruct (pick_worker (workers c)) as [wid|e2]; [|auto]; destruct (ta_create a) as [u|e3]; [|auto].
  all: match goal with |- context [submit_stages _ _ ?k ?g ?w ?l ?c2] =>
         destruct (submit_stages_books k g w l c2) as (E1 & E2 & _) end.
  all: simpl in *; split; [exact E1|right]; exists wid, (s0 :: ss); exact E2.
Qed.

Lemma join_entered clk gid job r : entered gid job r (join_group clk gid job r).
Proof.
  unfold entered, join_group, get_group, get_jobs_for_group, update_state. destruct (groups r !! gid) as [g|] eqn:Hg; simpl.
  2: { split_and!; [|by rewrite lookup_insert_eq|done|done]. intros gid' Hne. by rewrite lookup_insert_ne. }
  case_bool_decide as Hs; simpl.
  - rewrite Hs. simpl. split_and!; [|by rewrite lookup_insert_eq|done|].
    + intros gid' Hne. by rewrite !lookup_insert_ne.
    + intros ? [= <-]. rewrite lookup_insert_eq. eexists. split; [done|]. rewrite Hs. by split_and!.
  - split_and!; [|by rewrite lookup_insert_eq|done|].
    + intros gid' Hne. by rewrite lookup_insert_ne.
    + intros ? [= <-]. eexists. split; [done|]. rewrite bool_decide_eq_false_2 by done. by split_and!.
Qed.

(** Only the group of the build changes: its jobs are appended, and it runs. *)
Lemma enter_stages_spec clk gid wid stages r g :
  groups r !! gid = Some g -> is_active g = true ->
  let r' := enter_stages clk gid wid stages r in
  (forall gid', gid' <> gid -> groups r' !! gid' = groups r !! gid' /\ group_jobs r' !! gid' = group_jobs r !! gid') /\
  get_jobs_for_group gid r' = get_jobs_for_group gid r ++ stage_jobs clk gid wid stages /\
  exists g', groups r' !! gid = Some g' /\ g_reserved_worker_id g' = g_reserved_worker_id g /\
    g_allocated_resources g' = g_allocated_resources g /\
    g_state g' = (if bool_decide (stages <> [] /\ g_state g = GReserved) then GRunning else g_state g).
Proof.
  revert clk r g. induction stages as [|s stages IH]; intros clk r g Hg Ha.
  { cbv zeta. cbn [enter_stages]. split_and!; [done|by rewrite app_nil_r|]. exists g. split_and!; [done..|]. rewrite bool_decide_eq_false_2; [done|tauto]. }
  cbn [enter_stages]. set (job := webhook_job _ _ _ _ _).
  destruct (join_entered (from_reading 1 (clk 0%nat)) gid job r) as (S1 & S2 & _ & S4).
  set (r1 := join_group _ gid job r) in *. destruct (S4 g Hg) as (g1 & Hg1 & Hst & Hw & Hal & _).
  assert (Ha1 : is_active g1 = true) by (unfold is_active in *; rewrite Hst; by case_bool_decide).
  destruct (IH (fun n => clk (S n)) r1 g1 Hg1 Ha1) as (T1 & T2 & g' & Hg' & Hw' & Hal' & Hst'). cbv zeta. split_and!.
  - intros gid' Hne. destruct (T1 gid' Hne) as [-> ->]. by apply S1.
  - rewrite T2. unfold get_jobs_for_group at 1. rewrite S2. simpl. by rewrite <- app_assoc.
  - exists g'. split_and!; [done|congruence..|]. rewrite Hst', Hst.
    destruct (decide (g_state g = GReserved)) as [E|E].
    + rewrite (bool_decide_eq_true_2 (g_state g = GReserved)) by done.
      rewrite bool_decide_eq_false_2, bool_decide_eq_true_2; [done|done|]. by intros [_ ?].
    + rewrite (bool_decide_eq_false_2 (g_state g = GReserved)) by done.
      rewrite !bool_decide_eq_false_2; [done|by intros [_ ?]..].
Qed.

Definition build_reply (gid : Uuid) (worker_id : string) (stages : list StageConfig) : Json := Obj [
  ("job_group_id", Str (uuid_to_string gid)); ("worker_id", Str worker_id);
  ("stages_submitted", Num (Z.of_nat (length stages))); ("message", Str "Build triggered")].

Lemma trigger_build_starts clk sclk gid a repo_id src push c stages w ws :
  (forall g, ta_existing a <> Ok (Some g)) -> ta_stage_configs a = Ok stages -> stages <> [] ->
  connected_workers (workers c) = w :: ws -> ta_create a = Ok tt ->
  let wid := wi_worker_id (ws_info w) in
  let g := webhook_group uuid_to_string clk gid repo_id src wid push in
  let c2 := with_groups (add_group g) (emit (redis [RedisReserve wid gid] c ++ [DbCreateGroup g]) c) in
  trigger_build uuid_to_string uuid_v5 clk sclk gid (Some a) repo_id src push c =
    (Ok (build_reply gid wid stages),
     emit [Metric "inc_worker_reservations"; Metric "inc_active_builds"] (submit_stages uuid_to_string uuid_v5 sclk gid wid stages c2)).
Proof.
  intros Hex Hst Hne Hw Hcr. unfold trigger_build, pick_worker. destruct stages as [|s0 ss]; [done|].
  destruct (ta_existing a) as [[g|]|e]; [by destruct (Hex g)|by rewrite Hst, Hw, Hcr..].
Qed.

Lemma stage_jobs_queued clk gid wid stages :
  Forall2 (fun j s => j_state j = JQueued /\ j_assigned_worker j = Some wid /\ j_stage_name j = Some (sc_stage_name s) /\
    j_command j = default EmptyString (sc_command s)) (stage_jobs clk gid wid stages) stages.
Proof.
  revert clk. induction stages as [|s stages IH]; intros clk; constructor; [done|]. apply (IH (fun n => clk (S n))).
Qed.

(** A build started by a webhook is a group of its own that runs at once: when
    no build is active for the event, the repo has stages and a worker is
    connected, the caller learns the group's id; the group, fresh, belongs to the
    first connected worker, runs, and lists one queued job per stage, in the
    repo's order, whatever the stages depend on; the same jobs enter the job
    registry; no other group changes. The build takes no share of its worker: the
    counters and every worker's ledger stay, whatever the stages require. *)
Theorem webhook_build_runs clk sclk gid a repo_id src push c stages w ws :
  (forall g, ta_existing a <> Ok (Some g)) -> ta_stage_configs a = Ok stages -> stages <> [] ->
  connected_workers (workers c) = w :: ws -> ta_create a = Ok tt ->
  groups (jgroups c) !! gid = None -> group_jobs (jgroups c) !! gid = None ->
  let '(r, c') := trigger_build uuid_to_string uuid_v5 clk sclk gid (Some a) repo_id src push c in
  let wid := wi_worker_id (ws_info w) in
  let new_jobs := stage_jobs sclk gid wid stages in
  (exists v, r = Ok v /\ get_str "job_group_id" v = Some (uuid_to_string gid) /\ get_str "worker_id" v = Some wid) /\
  (exists g, groups (jgroups c') !! gid = Some g /\ g_state g = GRunning /\ g_reserved_worker_id g = Some wid /\
     g_allocated_resources g = AllocatedResources_default) /\
  get_jobs_for_group gid (jgroups c') = new_jobs /\
  Forall2 (fun j s => j_state j = JQueued /\ j_assigned_worker j = Some wid /\ j_stage_name j = Some (sc_stage_name s) /\
    j_command j = default EmptyString (sc_command s)) new_jobs stages /\
  jobs c' = foldl (fun m j => add_job j m) (jobs c) new_jobs /\
  (forall gid', gid' <> gid -> groups (jgroups c') !! gid' = groups (jgroups c) !! gid') /\
  workers c' = workers c /\ (forall k x, ledger k x (jgroups c') = ledger k x (jgroups c)).
Proof.
  intros Hex Hst Hne Hw Hcr Hnew Hlist. rewrite (trigger_build_starts _ _ _ _ _ _ _ _ stages w ws Hex Hst Hne Hw Hcr).
  set (wid := wi_worker_id (ws_info w)). set (g0 := webhook_group _ _ _ _ _ wid push). set (c2 := with_groups _ _).
  destruct (submit_stages_books sclk gid wid stages c2) as (E1 & E2 & E3).
  assert (Hg0 : groups (jgroups c2) !! gid = Some g0) by (unfold c2; simpl; by rewrite lookup_insert_eq).
  destruct (enter_stages_spec sclk gid wid stages (jgroups c2) g0 Hg0 eq_refl) as (S1 & S2 & g & Hg & Hgw & Hga & Hgs).
  cbn [emit jgroups workers jobs]. rewrite E1, E2, E3. split_and!; try done.
  - eexists. split; [done|]. done.
  - exists g. split_and!; [done| |done..]. rewrite Hgs, bool_decide_eq_true_2; done.
  - rewrite S2. unfold get_jobs_for_group, c2. simpl. by rewrite Hlist, lookup_insert_eq.
  - apply stage_jobs_queued.
  - intros gid' Hg'. rewrite (proj1 (S1 gid' Hg')). unfold c2. simpl. by rewrite lookup_insert_ne.
  - intros k x. rewrite (ledger_change k x gid (jgroups c2) _ g0 g Hg0 Hg) by (intros; by apply S1).
    rewrite !charge_nothing by done. unfold ledger, c2. simpl. rewrite (total_insert_new _ _ _ _ Hnew), charge_nothing by done. lia.
Qed.
End Build.

(** ** What is not asked *)

Section NotAsked.
Context `{HI : HashIter} (uuid_to_string : Uuid -> string) (uuid_v5 : string -> string).
Context (hex_decode : string -> option string) (hmac_ok : string -> string -> string -> bool)
  (parse_json : string -> result Json string).

(** A webhook that was switched off starts builds like any other. *)
Lemma disabled_still_builds clk sclk gid webhook a provider headers body c :
  receive uuid_to_string uuid_v5 hex_decode hmac_ok parse_json clk sclk gid
    (Some (Ok (Some {| webhook with wh_enabled := false |}), a)) provider headers body c =
  receive uuid_to_string uuid_v5 hex_decode hmac_ok parse_json clk sclk gid (Some (Ok (Some webhook), a)) provider headers body c.
Proof.
  destruct webhook. unfold receive, classify. simpl. destruct (negb _); [done|].
  unfold check_signature. simpl. match goal with |- context [rbind ?x] => destruct x as [[]|e]; [|done] end. simpl. destruct (map_err _ _) as [payload|e]; [|done]. simpl.
  destruct (negb _); [done|]. by destruct (parse_event _ _ _).
Qed.

(** The secret in the URL is enough: no header has to be there. *)
Lemma unsigned_is_signed webhook body :
  wh_provider webhook ∈ ["github"; "gitlab"]%string ->
  signed hex_decode hmac_ok webhook {| x_hub_signature_256 := None; x_gitlab_token := None; x_github_event := None |} body.
Proof.
  intros [H|[H|[]%not_elem_of_nil]%elem_of_cons]%elem_of_cons; [left|right]; by split.
Qed.
End NotAsked.

(** The secret of a new webhook finds it, and that of a deleted one nothing. *)
Lemma created_hook_found repo_exists id now repo_id provider secret events hooks row hooks' :
  create_webhook repo_exists id now repo_id provider secret events hooks = (Ok row, hooks') ->
  get_webhook_by_secret secret hooks' = Some row /\ wh_provider row = provider /\ wh_repo_id row = repo_id.
Proof.
  unfold create_webhook. destruct (negb _); [done|]. destruct (negb _); [done|]. destruct (existsb _ _) eqn:E; [done|].
  destruct (negb _); [done|]. intros [= <- <-]. split; [|done]. unfold get_webhook_by_secret. rewrite filter_app.
  assert (filter (fun w => wh_secret w = secret) hooks = []) as ->.
  { apply elem_of_nil_inv. intros w [Hw Hin]%list_elem_of_filter. apply not_true_iff_false in E. apply E, existsb_exists.
    exists w. split; [by apply list_elem_of_In|]. by rewrite (bool_decide_eq_true_2 (wh_secret w = secret)), orb_true_r. }
  by rewrite filter_cons_True.
Qed.

Lemma deleted_hook_gone id hooks w : w ∈ hooks -> wh_id w = id -> NoDup (wh_secret <$> hooks) ->
  (delete_webhook id hooks).1 = true /\ get_webhook_by_secret (wh_secret w) (delete_webhook id hooks).2 = None.
Proof.
  intros Hw Hid Hnd. unfold delete_webhook. split; simpl.
  - apply existsb_exists. exists w. split; [by apply list_elem_of_In|by apply bool_decide_eq_true].
  - unfold get_webhook_by_secret. rewrite list_filter_filter.
    assert (filter (fun x => wh_secret x = wh_secret w /\ wh_id x <> id) hooks = []) as ->; [|done].
    apply elem_of_nil_inv. intros x [[Hs Hn] Hx]%list_elem_of_filter. apply Hn. rewrite <- Hid. f_equal.
    apply list_elem_of_lookup in Hw as [i Hi]. apply list_elem_of_lookup in Hx as [j Hj].
    assert (i = j) as ->; [|congruence]. apply (NoDup_lookup (wh_secret <$> hooks) i j (wh_secret w));
      rewrite ?list_lookup_fmap, ?Hi, ?Hj; simpl; congruence.
Qed.

(** ** A push, and its build of two stages on the connected worker *)

Definition two_stages : list StageConfig := [sample_stage; {| sample_stage with sc_stage_name := "deploy"; sc_depends_on := ["build"] |}].

Definition push_answers : TriggerAnswers := {| ta_existing := Ok None; ta_stage_configs := Ok two_stages; ta_create := Ok tt |}.

Definition sample_push : PushPayload := {| pl_branch := "main"; pl_commit_sha := "c0ffee"; pl_pr_number := None |}.

Lemma webhook_build_runs_witness :
  let c' := (trigger_build (HI := map_iter) (fun _ => "gid") id (fun _ => 9) (fun _ _ => 9) 5%N (Some push_answers) 1%N
               "webhook:github" sample_push idle_controller).2 in
  (exists g, groups (jgroups c') !! 5%N = Some g /\ g_state g = GRunning) /\
  j_stage_name <$> get_jobs_for_group 5%N (jgroups c') = [Some "build"; Some "deploy"] /\ ledger CPU "w" (jgroups c') = 0.
Proof.
  cbv zeta.
  pose proof (webhook_build_runs (HI := map_iter) (fun _ => "gid") id (fun _ => 9) (fun _ _ => 9) 5%N push_answers 1%N
    "webhook:github" sample_push idle_controller two_stages (sample_worker "w") [] ltac:(discriminate) eq_refl ltac:(discriminate)
    eq_refl eq_refl eq_refl eq_refl) as H.
  revert H. destruct (trigger_build _ _ _ _ _ _ _ _ _ _) as [r c']. intros (_ & (g & Hg & Hst & _) & Hj & _ & _ & _ & _ & Hl).
  cbn [snd]. split; [by exists g|]. split; [by rewrite Hj|]. exact (Hl CPU "w").
Defined.
