(* ===== verification/Settings.v ===== *)
(** * Settings that override the configuration at run time
    (crates/ci-controller/src/api/settings_handlers.rs; the table
    config_settings of storage.rs)

    The table is a map from keys to rows; a handler takes it as [None] without a
    database. [ok n] says whether the n-th statement of a handler is answered.
    What the settings mean to the rest of the controller is [resolve_setting] and
    its variants of [Retention]. *)

From Stdlib Require Import ZArith Lia Ascii.
From stdpp Require Import gmap strings list fin_maps pretty.
From S2P Require Import Prelude Text Config F64 WorkerModel JobModel StageModel WorkerRegistry JobRegistry.
From S2P Require Import RedisStore Retention Json Web.

(** ** storage.rs *)

Record ConfigSetting := {
  cs_value : string;
  cs_description : option string;
  cs_updated_at : timestamp;
  cs_updated_by : option string
}.

Abbreviation SettingsTable := (gmap string ConfigSetting) (only parsing).

Definition get_all_config_settings (t : SettingsTable) : gmap string string := cs_value <$> t.

Definition get_config_setting (k : string) (t : SettingsTable) : option string := cs_value <$> t !! k.

Definition set_config_setting (now : timestamp) (k v : string) (description : option string) (updated_by : string)
    (t : SettingsTable) : SettingsTable :=
  let kept := t !! k ≫= cs_description in
  <[k := {| cs_value := v;
            cs_description := match description with Some d => Some d | None => kept end;
            cs_updated_at := now;
            cs_updated_by := Some updated_by |}]> t.

Definition delete_config_setting (k : string) (t : SettingsTable) : bool * SettingsTable :=
  (bool_decide (is_Some (t !! k)), delete k t).

(** ** settings_handlers.rs *)

Definition EDITABLE_KEYS : list string := [
  "scheduling.strategy"; "scheduling.nvme_preference"; "scheduling.branch_affinity";
  "workers.heartbeat_timeout_secs"; "workers.reservation_timeout_secs"; "workers.idle_timeout_secs"; "workers.stall_timeout_secs";
  "logging.level"; "logging.log_dir";
  "retention.max_builds_per_repo"; "retention.t1_purge_files_after_days"; "retention.t2_archive_after_days";
  "retention.t3_delete_archive_after_days"; "retention.cleanup_interval_secs"; "retention.enable_worker_fanout";
  "execution.work_dir"; "execution.log_dir"; "execution.repos_dir"]%string.

Definition RETENTION_NUMERIC_BOUNDS : list (string * (Z * Z)) := [
  ("retention.max_builds_per_repo", (100, 1000000));
  ("retention.t1_purge_files_after_days", (1, 3650));
  ("retention.t2_archive_after_days", (1, 3650));
  ("retention.t3_delete_archive_after_days", (1, 36500));
  ("retention.cleanup_interval_secs", (60, 86400))]%string.

Definition T1 : string := "retention.t1_purge_files_after_days".
Definition T2 : string := "retention.t2_archive_after_days".
Definition T3 : string := "retention.t3_delete_archive_after_days".

Definition one_of (k : string) (ks : list string) : bool := existsb (fun k' => bool_decide (k' = k)) ks.

Definition must_be (k what : string) : ApiError := BadRequest (k +:+ " must be " +:+ what)%string.

Definition validate_int_range (k v : string) (min max : Z) : result unit ApiError :=
  match parse_i64 v with
  | None => Err (must_be k "an integer")
  | Some n =>
      if (n <? min) || (max <? n) then Err (must_be k ("between " +:+ pretty min +:+ " and " +:+ pretty max)%string)
      else Ok tt
  end.

Definition validate_path (k v : string) : result unit ApiError :=
  if bool_decide (v = EmptyString) then Err (BadRequest (k +:+ " must not be empty")%string)
  else if negb (starts_with "/" v) then Err (must_be k "an absolute path (start with /)")
  else match find_str ".." v with
       | Some _ => Err (BadRequest (k +:+ " must not contain '..'")%string)
       | None => Ok tt
       end.

(** The module's own [parse_bool], in any case of letters. *)
Definition parse_bool_any_case (k v : string) : result bool ApiError :=
  let v := to_ascii_lowercase v in
  if bool_decide (v = "true"%string) then Ok true
  else if bool_decide (v = "false"%string) then Ok false
  else Err (must_be k "'true' or 'false'").

Definition validate_setting_value (k v : string) : result unit ApiError :=
  if bool_decide (k = "scheduling.strategy"%string) then
    if one_of v ["best-fit"; "round-robin"]%string then Ok tt
    else Err (BadRequest "strategy must be 'best-fit' or 'round-robin'")
  else if one_of k ["scheduling.nvme_preference"; "scheduling.branch_affinity"]%string then
    if one_of v ["true"; "false"]%string then Ok tt else Err (must_be k "'true' or 'false'")
  else if bool_decide (k = "workers.heartbeat_timeout_secs"%string) then validate_int_range k v 5 300
  else if one_of k ["workers.reservation_timeout_secs"; "workers.idle_timeout_secs"; "workers.stall_timeout_secs"]%string
  then validate_int_range k v 60 86400
  else if bool_decide (k = "logging.level"%string) then
    if one_of v ["trace"; "debug"; "info"; "warn"; "error"]%string then Ok tt
    else Err (BadRequest "level must be one of: trace, debug, info, warn, error")
  else if one_of k ["retention.max_builds_per_repo"; T1; T2; T3; "retention.cleanup_interval_secs"]%string then
    match assoc k RETENTION_NUMERIC_BOUNDS with
    | None => Err (Internal ("no bounds for " +:+ k)%string)
    | Some (min, max) => validate_int_range k v min max
    end
  else if bool_decide (k = "retention.enable_worker_fanout"%string) then
    let? _ := parse_bool_any_case k v in Ok tt
  else if one_of k ["logging.log_dir"; "execution.work_dir"; "execution.log_dir"; "execution.repos_dir"]%string
  then validate_path k v
  else Ok tt.

(** The closure [current]. *)
Definition current (db : gmap string string) (k : string) (fallback : Z) : result Z ApiError :=
  match db !! k with
  | Some v =>
      match parse_u64 v with
      | Some n => Ok n
      | None => Err (Internal ("stored " +:+ k +:+ " is not an integer: " +:+ v)%string)
      end
  | None => Ok (as_u64 fallback)
  end.

Definition tier_violation (low high : string) (a b : Z) : ApiError :=
  BadRequest ("retention tier ordering violated: " +:+ low +:+ " (" +:+ pretty a +:+ ") must be < "
              +:+ high +:+ " (" +:+ pretty b +:+ ")")%string.

Definition validate_retention_tier_ordering (ok : bool) (fallback : RetentionConfig) (t : SettingsTable) (k v : string)
    : result unit ApiError :=
  if negb ok then Err (Internal "database")
  else
    let db := get_all_config_settings t in
    match parse_u64 v with
    | None => Err (must_be k "an integer")
    | Some proposed =>
        let tier key fb := if bool_decide (k = key) then Ok proposed else current db key fb in
        let? t1 := tier T1 (t1_purge_files_after_days fallback) in
        let? t2 := tier T2 (t2_archive_after_days fallback) in
        let? t3 := tier T3 (t3_delete_archive_after_days fallback) in
        if t2 <=? t1 then Err (tier_violation "t1" "t2" t1 t2)
        else if t3 <=? t2 then Err (tier_violation "t2" "t3" t2 t3)
        else Ok tt
    end.

(** What [retention.clone().unwrap_or_default()] gives. *)
Definition retention_of (cfg : ControllerConfig) : RetentionConfig := default RetentionConfig_default (retention cfg).

Definition Reply : Type := result Json ApiError * option SettingsTable.

Definition update_setting (ok : nat -> bool) (now : timestamp) (cfg : ControllerConfig) (auth : AuthUser) (body : Json)
    (st : option SettingsTable) : Reply :=
  if negb (can_manage_repos (au_role auth)) then (Err (Forbidden "Admin access required"), st)
  else
    match st with
    | None => (Err StorageUnavailable, st)
    | Some t =>
        match jget "key" body ≫= as_str, jget "value" body ≫= as_str with
        | None, _ => (Err (BadRequest "key is required"), st)
        | _, None => (Err (BadRequest "value is required"), st)
        | Some k, Some v =>
            if negb (one_of k EDITABLE_KEYS) then
              (Err (BadRequest ("Setting '" +:+ k +:+ "' is not editable at runtime")%string), st)
            else
              match validate_setting_value k v with
              | Err e => (Err e, st)
              | Ok _ =>
                  match if one_of k [T1; T2; T3] then validate_retention_tier_ordering (ok 0%nat) (retention_of cfg) t k v
                        else Ok tt with
                  | Err e => (Err e, st)
                  | Ok _ =>
                      if negb (ok 1%nat) then (Err (Internal "database"), st)
                      else (Ok (Obj [("status", Str "updated"); ("key", Str k); ("value", Str v)]),
                            Some (set_config_setting now k v None (au_username auth) t))
                  end
              end
        end
    end.

Definition delete_setting (ok : bool) (auth : AuthUser) (k : string) (st : option SettingsTable) : Reply :=
  if negb (can_manage_repos (au_role auth)) then (Err (Forbidden "Admin access required"), st)
  else
    match st with
    | None => (Err StorageUnavailable, st)
    | Some t =>
        if negb ok then (Err (Internal "database"), st)
        else
          let '(deleted, t') := delete_config_setting k t in
          if deleted then (Ok (Obj [("status", Str "reverted"); ("key", Str k)]), Some t')
          else (Err (NotFound "Setting not found in database (already using config default)"), Some t')
    end.

Definition resolve (db : gmap string string) (k config_val : string) : string * string :=
  match db !! k with
  | Some db_val => (db_val, "database"%string)
  | None => (config_val, "config"%string)
  end.

(** An entry of the listing that can be edited, with what describes its values. *)
Definition editable (db : gmap string string) (k config_val : string) (more : list (string * Json)) : Json :=
  let '(v, src) := resolve db k config_val in
  Obj ([("key", Str k); ("value", Str v); ("source", Str src); ("editable", Bool true)] ++ more).

Definition fixed (k : string) (v : Json) : Json :=
  Obj [("key", Str k); ("value", v); ("source", Str "config"); ("editable", Bool false)].

Definition kind (ty : string) : list (string * Json) := [("type", Str ty)].
Definition options (l : list string) : list (string * Json) := [("options", jstrs l)].
Definition int_in (min max : Z) : list (string * Json) := [("type", Str "int"); ("min", Num min); ("max", Num max)].
Definition described (d : string) : list (string * Json) := [("description", Str d)].

Definition listed_settings (env : Env) (cfg : ControllerConfig) (db : gmap string string) : list Json :=
  let r := retention_of cfg in
  let w := cc_workers cfg in
  let data := chola_data_dir env in [
    editable db "scheduling.strategy" (strategy (scheduling cfg)) (options ["best-fit"; "round-robin"]%string);
    editable db "scheduling.nvme_preference" (bool_to_string (nvme_preference (scheduling cfg))) (kind "bool");
    editable db "scheduling.branch_affinity" (bool_to_string (branch_affinity (scheduling cfg))) (kind "bool");
    editable db "workers.heartbeat_timeout_secs" (pretty (heartbeat_timeout_secs w)) (int_in 5 300);
    editable db "workers.reservation_timeout_secs" (pretty (reservation_timeout_secs w)) (int_in 60 86400);
    editable db "workers.idle_timeout_secs" (pretty (idle_timeout_secs w))
      (int_in 60 86400 ++ described "Fail reserved groups with no stage submitted after this many seconds");
    editable db "workers.stall_timeout_secs" (pretty (stall_timeout_secs w))
      (int_in 60 86400 ++ described "Fail running groups with no activity after this many seconds");
    editable db "logging.level" (level (cc_logging cfg)) (options ["trace"; "debug"; "info"; "warn"; "error"]%string);
    editable db "retention.max_builds_per_repo" (pretty (max_builds_per_repo r))
      (int_in 100 1000000 ++ described "Hard cap on live job_groups rows per repo (safety net for runaway repos)");
    editable db T1 (pretty (t1_purge_files_after_days r))
      (int_in 1 3650 ++ described "T1 — delete on-disk logs/workspace for terminal groups older than this");
    editable db T2 (pretty (t2_archive_after_days r))
      (int_in 1 3650 ++ described "T2 — move DB rows to *_archive tables once group is older than this. Must be > T1.");
    editable db T3 (pretty (t3_delete_archive_after_days r))
      (int_in 1 36500 ++ described "T3 — hard-delete from *_archive. Must be > T2.");
    editable db "retention.cleanup_interval_secs" (pretty (cleanup_interval_secs r))
      (int_in 60 86400 ++ described "How often the retention loop runs");
    editable db "retention.enable_worker_fanout" (bool_to_string (enable_worker_fanout r))
      (kind "bool" ++ described "Push T1 purge directives to workers. Keep false until all workers are upgraded.");
    editable db "logging.log_dir" (default (data "controller/logs") (logging_log_dir (cc_logging cfg)))
      (kind "path" ++ described "Controller log directory");
    editable db "execution.work_dir" (data "worker/jobs") (kind "path" ++ described "Worker job workspace base directory");
    editable db "execution.log_dir" (data "worker/logs") (kind "path" ++ described "Worker log directory");
    editable db "execution.repos_dir" (data "worker/repos") (kind "path" ++ described "Worker bare git repo cache directory");
    fixed "server.bind_address" (Str (bind_address cfg));
    fixed "server.http_port" (Num (cc_http_port cfg));
    fixed "auth.enabled" (Bool (auth_enabled (auth cfg)));
    fixed "auth.jwt_expiry_secs" (Num (jwt_expiry_secs (auth cfg)));
    fixed "workers.heartbeat_interval_secs" (Num (heartbeat_interval_secs w))].

Definition get_settings (ok : bool) (env : Env) (cfg : ControllerConfig) (st : option SettingsTable) : result Json ApiError :=
  let db := match st with Some t => if ok then get_all_config_settings t else ∅ | None => ∅ end in
  Ok (Obj [("settings", Arr (listed_settings env cfg db))]).

(** ** Checks *)

Lemma one_of_spec k ks : one_of k ks = true <-> k ∈ ks.
Proof.
  unfold one_of. rewrite existsb_exists. split.
  - intros (k' & Hin & ->%bool_decide_eq_true). by apply list_elem_of_In.
  - intros Hin%list_elem_of_In. exists k. split; [done|by apply bool_decide_eq_true].
Qed.

Lemma validate_int_range_spec k v lo hi :
  validate_int_range k v lo hi = Ok tt <-> exists n, parse_i64 v = Some n /\ lo <= n <= hi.
Proof.
  unfold validate_int_range. destruct (parse_i64 v) as [n|]; [|split; [done|by intros (n & ? & _)]].
  destruct (Z.ltb_spec n lo), (Z.ltb_spec hi n); simpl; split; first [done | intros (m & [= <-] & ?); lia | eauto].
Qed.

(** A setting that is not stored leaves the value of the configuration. *)
Lemma resolve_u64_absent db k d : db !! k = None -> u64 d -> resolve_setting_u64 (Some (Ok db)) k d = d.
Proof. intros Hk Hd. unfold resolve_setting_u64, resolve_setting. rewrite Hk. cbn [from_option]. by rewrite parse_u64_pretty. Qed.

(** The listing shows what the controller resolves. *)
Lemma listed_is_resolved db k config_val : (resolve db k config_val).1 = resolve_setting (Some (Ok db)) k config_val.
Proof. unfold resolve, resolve_setting. by destruct (db !! k). Qed.

(** ** The table holds valid settings only *)

Definition setting_ok (k v : string) : Prop := k ∈ EDITABLE_KEYS /\ validate_setting_value k v = Ok tt.

Definition settings_wf (t : SettingsTable) : Prop := map_Forall (fun k row => setting_ok k (cs_value row)) t.

Lemma update_setting_inv ok now cfg auth body st r st' : update_setting ok now cfg auth body st = (Ok r, st') ->
  exists t k v, st = Some t /\ can_manage_repos (au_role auth) = true /\
    jget "key" body ≫= as_str = Some k /\ jget "value" body ≫= as_str = Some v /\ setting_ok k v /\
    (k ∈ [T1; T2; T3] -> validate_retention_tier_ordering (ok 0%nat) (retention_of cfg) t k v = Ok tt) /\
    st' = Some (set_config_setting now k v None (au_username auth) t).
Proof.
  unfold update_setting. destruct (can_manage_repos _) eqn:Hr; [cbn [negb]|done]. destruct st as [t|]; [|done].
  destruct (jget "key" body ≫= as_str) as [k|]; [|done]. destruct (jget "value" body ≫= as_str) as [v|]; [|done].
  destruct (one_of k EDITABLE_KEYS) eqn:Hk; cbn [negb]; [|done]. apply one_of_spec in Hk.
  destruct (validate_setting_value k v) as [[]|] eqn:Hv; [|done].
  destruct (if one_of k [T1; T2; T3] then _ else _) as [[]|] eqn:Ho; [|done]. destruct (ok 1%nat); cbn [negb]; [|done].
  intros [= <- <-]. exists t, k, v. do 4 (split; [done|]). split; [by split|]. split; [|done].
  intros Hin%one_of_spec. by rewrite Hin in Ho.
Qed.

Lemma update_setting_err ok now cfg auth body st e st' : update_setting ok now cfg auth body st = (Err e, st') -> st' = st.
Proof.
  unfold update_setting. destruct (negb _); [by intros [= _ <-]|]. destruct st as [t|]; [|by intros [= _ <-]].
  destruct (jget "key" body ≫= as_str) as [k|]; [|by intros [= _ <-]].
  destruct (jget "value" body ≫= as_str) as [v|]; [|by intros [= _ <-]].
  repeat case_match; by intros [= _ <-].
Qed.

Lemma get_all_insert now k v d by_ t :
  get_all_config_settings (set_config_setting now k v d by_ t) = <[k := v]> (get_all_config_settings t).
Proof. unfold get_all_config_settings, set_config_setting. by rewrite fmap_insert. Qed.

(** The table of settings holds keys that may be edited, with values that
    pass their check, whatever requests are made: an update that is accepted
    writes the one setting it names, a revert takes out the one it names, and a
    request that is refused changes nothing but a revert of a setting that is not
    stored, which leaves the table as it is. *)
Theorem settings_stay_valid (ok : nat -> bool) (ok' : bool) (now : timestamp) (cfg : ControllerConfig) (auth : AuthUser)
    (body : Json) (k : string) (t : SettingsTable) : settings_wf t ->
  (exists t', (update_setting ok now cfg auth body (Some t)).2 = Some t' /\ settings_wf t' /\
     (t' = t \/ exists k' v, jget "key" body ≫= as_str = Some k' /\ jget "value" body ≫= as_str = Some v /\ setting_ok k' v /\
        get_all_config_settings t' = <[k' := v]> (get_all_config_settings t))) /\
  (exists t', (delete_setting ok' auth k (Some t)).2 = Some t' /\ settings_wf t' /\ (t' = t \/ t' = delete k t)).
Proof.
  intros Hwf. split.
  - destruct (update_setting ok now cfg auth body (Some t)) as [[r|e] st'] eqn:E.
    + apply update_setting_inv in E as (t0 & k' & v & [= <-] & _ & Hk & Hv & Hok & _ & ->). eexists. split; [done|]. split.
      * unfold settings_wf, set_config_setting. by apply map_Forall_insert_2.
      * right. exists k', v. by rewrite get_all_insert.
    + apply update_setting_err in E as ->. eauto.
  - unfold delete_setting, delete_config_setting. destruct (negb _); [eauto|]. destruct ok'; cbn [negb]; [|eauto].
    exists (delete k t). split; [by case_bool_decide|]. split; [by apply map_Forall_delete|by right].
Qed.

(** ** Numbers that are stored are the numbers in force *)

Definition numeric_settings : list (string * (Z * Z)) :=
  [("workers.heartbeat_timeout_secs", (5, 300)); ("workers.reservation_timeout_secs", (60, 86400));
   ("workers.idle_timeout_secs", (60, 86400)); ("workers.stall_timeout_secs", (60, 86400))]%string ++ RETENTION_NUMERIC_BOUNDS.

Lemma numeric_check k v lo hi : (k, (lo, hi)) ∈ numeric_settings -> validate_setting_value k v = validate_int_range k v lo hi.
Proof. intros Hin. repeat (apply elem_of_cons in Hin as [[= -> -> ->]|Hin]; [reflexivity|]). by apply elem_of_nil in Hin. Qed.

Lemma numeric_positive k lo hi : (k, (lo, hi)) ∈ numeric_settings -> 0 < lo /\ hi < 2 ^ 31.
Proof. intros Hin. repeat (apply elem_of_cons in Hin as [[= -> -> ->]|Hin]; [lia|]). by apply elem_of_nil in Hin. Qed.

Lemma numeric_stored t k lo hi row : settings_wf t -> (k, (lo, hi)) ∈ numeric_settings -> t !! k = Some row ->
  exists n, parse_u64 (cs_value row) = Some n /\ lo <= n <= hi.
Proof.
  intros Hwf Hin Hk. destruct (Hwf _ _ Hk) as [_ Hv]. rewrite (numeric_check _ _ lo hi Hin) in Hv.
  apply validate_int_range_spec in Hv as (n & Hp & Hn). exists n. split; [|done].
  apply (parse_i64_u64 _ _ Hp). apply numeric_positive in Hin. lia.
Qed.

(** A number that the settings hold is read by the controller as that number,
    in the range that the listing announces; without one it is the number of the
    configuration file, written as text and read back. *)
Theorem stored_number_in_force (t : SettingsTable) (k : string) (lo hi config : Z) :
  settings_wf t -> (k, (lo, hi)) ∈ numeric_settings -> u64 config ->
  let n := resolve_setting_u64 (Some (Ok (get_all_config_settings t))) k config in
  match t !! k with
  | Some row => parse_u64 (cs_value row) = Some n /\ lo <= n <= hi
  | None => n = config
  end.
Proof.
  intros Hwf Hin Hc. cbv zeta. destruct (t !! k) as [row|] eqn:Hk.
  - destruct (numeric_stored _ _ _ _ _ Hwf Hin Hk) as (n & Hp & Hn). unfold resolve_setting_u64, resolve_setting, get_all_config_settings.
    rewrite lookup_fmap, Hk. cbn [fmap option_fmap option_map from_option id]. by rewrite Hp.
  - apply resolve_u64_absent; [|done]. unfold get_all_config_settings. by rewrite lookup_fmap, Hk.
Qed.

(** ** The tiers of retention *)

Definition sane_tiers (fb : RetentionConfig) : Prop :=
  0 < t1_purge_files_after_days fb < 2 ^ 31 /\ 0 < t2_archive_after_days fb < 2 ^ 31 /\ 0 < t3_delete_archive_after_days fb < 2 ^ 31.

Lemma tier_numeric key : key ∈ [T1; T2; T3] -> exists lo hi, (key, (lo, hi)) ∈ numeric_settings.
Proof.
  intros Hkey. repeat (apply elem_of_cons in Hkey as [->|Hkey];
    [solve [exists 1, 3650; by apply (bool_decide_unpack _); vm_compute | exists 1, 36500; by apply (bool_decide_unpack _); vm_compute]|]).
  by apply elem_of_nil in Hkey.
Qed.

Lemma tier_in_force t k v fb now by_ lo hi : settings_wf t -> setting_ok k v -> (k, (lo, hi)) ∈ numeric_settings ->
  forall key, key ∈ [T1; T2; T3] -> k ∈ [T1; T2; T3] -> 0 < fb < 2 ^ 31 ->
  exists n, (if bool_decide (k = key) then match parse_u64 v with Some p => Ok p | None => Err (must_be k "an integer") end
             else current (get_all_config_settings t) key fb) = Ok n /\
    tier_days (Some (Ok (get_all_config_settings (set_config_setting now k v None by_ t)))) key fb = n /\ 0 < n.
Proof.
  intros Hwf [_ Hv] Hin key Hkey Hk Hfb. unfold tier_days. rewrite get_all_insert.
  assert (Hval : forall n, 0 < n < 2 ^ 31 -> as_i32 n = n).
  { intros n Hn. unfold as_i32. rewrite wrap_small by lia. lia. }
  case_bool_decide as Ek.
  - subst key. rewrite (numeric_check _ _ lo hi Hin) in Hv. apply validate_int_range_spec in Hv as (n & Hp & Hn).
    destruct (numeric_positive _ _ _ Hin). rewrite (parse_i64_u64 _ _ Hp) by lia. exists n. split; [done|].
    unfold resolve_setting_u64, resolve_setting. rewrite lookup_insert_eq. cbn [from_option id].
    rewrite (parse_i64_u64 _ _ Hp) by lia. cbn [from_option id]. rewrite Hval by lia. lia.
  - unfold current, resolve_setting_u64, resolve_setting. rewrite lookup_insert_ne by done.
    destruct (tier_numeric key Hkey) as (lo' & hi' & Hnum). unfold get_all_config_settings. rewrite lookup_fmap.
    destruct (t !! key) as [row|] eqn:Hrow; cbn [fmap option_fmap option_map from_option id].
    + destruct (numeric_stored _ _ _ _ _ Hwf Hnum Hrow) as (n & Hp & Hn). destruct (numeric_positive _ _ _ Hnum).
      rewrite Hp. cbn [from_option id]. exists n. rewrite Hval by lia. repeat split; lia.
    + exists fb. unfold as_u64. rewrite wrap_small by lia. rewrite parse_u64_pretty by (split; lia). cbn [from_option id].
      rewrite Hval by lia. repeat split; lia.
Qed.

(** A tier of retention that an administrator is allowed to set takes effect
    as it should: whatever else the table holds, the three tiers that the next
    tick reads are positive and in order, with the new value among them, and the
    tick runs its sweep. *)
Theorem accepted_tier_sweeps {S : Type} `{Redis S} (prefix : string) (us : Uuid -> string) (ok : nat -> bool) (now : timestamp)
    (cfg : ControllerConfig) (auth : AuthUser) (body reply : Json) (k : string) (t t' : SettingsTable) (sw : Sweep)
    (db : option Database) (redis : option S) :
  settings_wf t -> sane_tiers (retention_of cfg) -> jget "key" body ≫= as_str = Some k -> k ∈ [T1; T2; T3] ->
  update_setting ok now cfg auth body (Some t) = (Ok reply, Some t') -> sw_settings sw = Some (Ok (get_all_config_settings t')) ->
  let '(t1, t2, t3) := tiers (sw_settings sw) (retention_of cfg) in
  0 < t1 < t2 /\ t2 < t3 /\
  tick_once prefix us sw db (retention_of cfg) redis =
    let '(r, acts, redis') := run_once prefix us sw db (retention_of cfg) RunOnceOpts_all redis in
    (match r with Ok _ => Ok tt | Err e => Err e end, acts, redis').
Proof.
  intros Hwf (F1 & F2 & F3) Hk Hin E Hsw. apply update_setting_inv in E as (? & k' & v & [= <-] & _ & Hk' & _ & Hok & Hord & [= ->]).
  rewrite Hk in Hk'. injection Hk' as <-. specialize (Hord Hin).
  destruct (tier_numeric k Hin) as (lo & hi & Hnum). pose proof (tier_in_force t k v) as Ht.
  destruct (Ht _ now (au_username auth) lo hi Hwf Hok Hnum T1 ltac:(left) Hin F1) as (n1 & E1 & D1 & P1).
  destruct (Ht _ now (au_username auth) lo hi Hwf Hok Hnum T2 ltac:(right; left) Hin F2) as (n2 & E2 & D2 & P2).
  destruct (Ht _ now (au_username auth) lo hi Hwf Hok Hnum T3 ltac:(right; right; left) Hin F3) as (n3 & E3 & D3 & P3).
  assert (Hlt : n1 < n2 < n3).
  { revert Hord. unfold validate_retention_tier_ordering. destruct (ok 0%nat); cbn [negb]; [|done].
    destruct (parse_u64 v) as [p|] eqn:Hp; [|done]. cbv zeta. rewrite E1. cbn [rbind]. rewrite E2. cbn [rbind]. rewrite E3. cbn [rbind].
    destruct (Z.leb_spec n2 n1); [done|]. destruct (Z.leb_spec n3 n2); [done|]. lia. }
  unfold tick_once. rewrite Hsw. unfold tiers. fold T1 T2 T3. rewrite D1, D2, D3. split; [lia|]. split; [lia|].
  rewrite !(proj2 (Z.leb_gt _ _)) by lia. done.
Qed.

(** ** Requests *)

Definition dev_config : ControllerConfig :=
  ControllerConfig_de "0.0.0.0:50051" None None (PostgresConfig_de (Some "db") None (Some "ci") (Some "u") None None None)
    (RedisConfig_de (Some "redis") None None None) (SchedulingConfig_de None None None) (WorkersConfig_de None None None None None None)
    None None None None None None None.

Definition admin : AuthUser := {| au_user_id := 1%N; au_username := "root"; au_role := SuperAdmin |}.

Definition put (k v : string) : Json := Obj [("key", Str k); ("value", Str v)].

Definition put_setting (k v : string) (st : option SettingsTable) : option SettingsTable :=
  (update_setting (fun _ => true) 0 dev_config admin (put k v) st).2.

Definition one_override : SettingsTable := {[ T3 := {| cs_value := "1000"; cs_description := None; cs_updated_at := 0; cs_updated_by := None |} ]}.

Lemma one_override_wf : settings_wf one_override.
Proof. apply map_Forall_singleton. split; [by apply one_of_spec; vm_compute|reflexivity]. Qed.

Lemma settings_stay_valid_witness :
  exists t', put_setting T2 "400" (Some one_override) = Some t' /\ settings_wf t'.
Proof.
  destruct (settings_stay_valid (fun _ => true) true 0 dev_config admin (put T2 "400") T3 one_override one_override_wf)
    as [(t' & E & Hwf & _) _]. exists t'. split; [exact E|exact Hwf].
Defined.

Lemma stored_number_in_force_witness :
  resolve_setting_u64 (Some (Ok (get_all_config_settings one_override))) T3 365 = 1000 /\
  resolve_setting_u64 (Some (Ok (get_all_config_settings one_override))) T2 30 = 30.
Proof.
  pose proof (stored_number_in_force one_override T3 1 36500 365 one_override_wf
    ltac:(by apply (bool_decide_unpack _); vm_compute) ltac:(by split)) as [H3 _].
  pose proof (stored_number_in_force one_override T2 1 3650 30 one_override_wf
    ltac:(by apply (bool_decide_unpack _); vm_compute) ltac:(by split)) as H2.
  split; [|exact H2]. apply (inj Some). rewrite <- H3. vm_compute. reflexivity.
Defined.

(** The table after the age of archiving was raised. *)
Definition raised : SettingsTable := default ∅ (put_setting T2 "400" (Some one_override)).

Lemma raise_t2 : update_setting (fun _ => true) 0 dev_config admin (put T2 "400") (Some one_override) =
  (Ok (Obj [("status", Str "updated"); ("key", Str T2); ("value", Str "400")]), Some raised).
Proof. vm_compute. reflexivity. Qed.

Definition raised_sweep : Sweep := {| sw_ok := fun _ _ _ => true; sw_settings := Some (Ok (get_all_config_settings raised));
  sw_now := 0; sw_timeout := 60; sw_workers := sample_fleet; sw_log_dir := None |}.

Lemma raised_tiers : tiers (sw_settings raised_sweep) (retention_of dev_config) = (7, 400, 1000).
Proof. vm_compute. reflexivity. Qed.

Lemma accepted_tier_sweeps_witness :
  0 < 7 < 400 /\ 400 < 1000 /\
  (tick_once "p:" show_id raised_sweep (Some sample_db) (retention_of dev_config) (Some empty_keyspace)).1.2 = [MarkPurged [1%N; 2%N; 3%N]].
Proof.
  pose proof (accepted_tier_sweeps "p:" show_id (fun _ => true) 0 dev_config admin (put T2 "400") _ T2 one_override raised raised_sweep
    (Some sample_db) (Some empty_keyspace) one_override_wf ltac:(by split_and!) eq_refl ltac:(by apply (bool_decide_unpack _); vm_compute)
    raise_t2 eq_refl) as H.
  rewrite raised_tiers in H. destruct H as (H1 & H2 & ->). split; [exact H1|]. split; [exact H2|]. vm_compute. reflexivity.
Defined.

(** Reverting a tier is not checked: here the archive's age, raised before the
    age of archiving was, falls back to the configuration's, and the retention
    loop then does nothing at all, whatever the database holds. *)
Example revert_stops_retention :
  let t := (delete_setting true admin T3 (put_setting T2 "400" (put_setting T3 "1000" (Some ∅)))) in
  is_ok t.1 = true /\
  forall db redis sw, sw_settings sw = (fun m => Ok (get_all_config_settings m)) <$> t.2 ->
    tick_once (S := keyspace) "p:" show_id sw db (retention_of dev_config) redis = (Ok tt, [], redis).
Proof.
  cbv zeta. split; [vm_compute; reflexivity|]. intros db redis sw Hsw. unfold tick_once. rewrite Hsw. vm_compute. reflexivity.
Qed.

(** A spelling of a truth value that is accepted, stored and listed, and that the
    controller then reads as the value of the configuration file. *)
Example capitals_not_understood :
  let k := "retention.enable_worker_fanout"%string in
  let st := put_setting k "TRUE" (Some ∅) in
  (cs_value <$> (st ≫= lookup k)) = Some "TRUE"%string /\
  resolve_setting_bool ((fun m => Ok (get_all_config_settings m)) <$> st) k false = false.
Proof. split; vm_compute; reflexivity. Qed.

Example tiers_cannot_cross : (update_setting (fun _ => true) 0 dev_config admin (put T1 "30") (Some ∅)).1 =
  Err (BadRequest "retention tier ordering violated: t1 (30) must be < t2 (30)").
Proof. vm_compute. reflexivity. Qed.
