(* ===== verification/System.v ===== *)
(** * The controller as one transition system

    The handlers and background tasks of [Controller], [Dispatch], [Reservation]
    and [Session], and those of the HTTP API in [GroupApi], [WorkerApi] and
    [WebhookApi], as the steps of one relation on the controller's state. A step
    runs a handler whole: nothing else touches the registries it locks in
    between, while whatever it read before taking a write lock (the views of the
    workers and of the groups), the database's answers, the clock and the
    iteration order of the hash maps are arbitrary.

    The invariant keeps every worker's counters at the sum over its active
    groups plus a non-negative surplus (what refused reservations and the
    stuck-group reaper leak until the reconciler runs), so the groups on a worker
    never exceed its caps. *)

From Stdlib Require Import ZArith Lia.
From stdpp Require Import gmap strings list fin_maps pretty sets relations.
From S2P Require Import Prelude F64 WorkerModel JobModel StageModel WorkerRegistry JobRegistry JobGroupRegistry.
From S2P Require Import LogAggregator Controller Dispatch Reservation Session Json Web WorkerStore Recovery WorkerApi GroupApi WebhookApi.

(** ** How operations change groups *)

(** An active group stays as it is or starts running. *)
Definition group_evolves (g g' : JobGroup) : Prop :=
  g_id g' = g_id g /\ g_reserved_worker_id g' = g_reserved_worker_id g /\
  g_allocated_resources g' = g_allocated_resources g /\
  (is_active g' = true -> g_state g' = g_state g \/ (g_state g = GReserved /\ g_state g' = GRunning)).

(** No group appears, the remaining ones evolve and keep their job lists, and an
    active group whose list is no longer empty is running. *)
Record evolves (r r' : JobGroupRegistry) : Prop := {
  ev_groups : forall gid g', groups r' !! gid = Some g' -> exists g, groups r !! gid = Some g /\ group_evolves g g';
  ev_lists : forall gid, is_Some (groups r' !! gid) -> is_Some (group_jobs r !! gid) -> is_Some (group_jobs r' !! gid);
  ev_jobs : forall gid j js, group_jobs r' !! gid = Some (j :: js) ->
    (exists j0 js0, group_jobs r !! gid = Some (j0 :: js0)) \/
    (forall g', groups r' !! gid = Some g' -> is_active g' = true -> g_state g' = GRunning)
}.

Lemma group_evolves_refl g : group_evolves g g.
Proof. split_and!; auto. Qed.

Lemma group_evolves_active g g' : group_evolves g g' -> is_active g' = true -> is_active g = true.
Proof. unfold is_active. intros (_ & _ & _ & H) Ha. destruct (H Ha) as [<-|[-> _]]; done. Qed.

Lemma group_evolves_trans g g' g'' : group_evolves g g' -> group_evolves g' g'' -> group_evolves g g''.
Proof.
  intros H1 H2. pose proof (group_evolves_active g' g'' H2) as Ha.
  destruct H1 as (E1 & E2 & E3 & E4), H2 as (F1 & F2 & F3 & F4). split_and!; [congruence..|].
  intros Hact. specialize (E4 (Ha Hact)). specialize (F4 Hact). naive_solver congruence.
Qed.

#[export] Instance evolves_preorder : PreOrder evolves.
Proof.
  split.
  - intros r. split; [|done|eauto]. intros gid g Hg. exists g. split; [done|apply group_evolves_refl].
  - intros r r' r'' H1 H2. split.
    + intros gid g'' Hg''. destruct (ev_groups _ _ H2 _ _ Hg'') as (g' & Hg' & He').
      destruct (ev_groups _ _ H1 _ _ Hg') as (g & Hg & He). exists g. split; [done|by eapply group_evolves_trans].
    + intros gid [g'' Hg''] Hl. destruct (ev_groups _ _ H2 _ _ Hg'') as (g' & Hg' & _).
      apply (ev_lists _ _ H2); [eauto|]. apply (ev_lists _ _ H1); eauto.
    + intros gid j js Hj. destruct (ev_jobs _ _ H2 _ _ _ Hj) as [(j0 & js0 & Hj0)|Hr]; [|by right].
      destruct (ev_jobs _ _ H1 _ _ _ Hj0) as [Hl|Hr]; [by left|right]. intros g'' Hg'' Ha.
      destruct (ev_groups _ _ H2 _ _ Hg'') as (g' & Hg' & He).
      pose proof (Hr g' Hg' (group_evolves_active _ _ He Ha)) as Hrun.
      destruct He as (_ & _ & _ & He). destruct (He Ha) as [->|[? _]]; congruence.
Qed.

(** One group changes, the job lists do not. *)
Lemma evolves_one gid f r :
  (forall g, groups r !! gid = Some g -> group_evolves g (f g)) -> evolves r (alter_group f gid r).
Proof.
  intros Hf. split; simpl.
  - intros gid' g' [(<- & g & Hg & ->)|[Hne Hg']]%lookup_alter_Some; [eauto|].
    exists g'. split; [done|apply group_evolves_refl].
  - done.
  - eauto.
Qed.

(** One job list changes and stays empty or non-empty. *)
Lemma evolves_list gid f r : (forall l, f l = [] <-> l = []) -> evolves r (alter_jobs f gid r).
Proof.
  intros Hf. split; simpl.
  - intros gid' g Hg. exists g. split; [done|apply group_evolves_refl].
  - intros gid' _ Hl. destruct (decide (gid' = gid)) as [->|Hne]; [|by rewrite lookup_alter_ne].
    by rewrite lookup_alter_eq, fmap_is_Some.
  - intros gid' j js [(<- & l & Hl & E)|[Hne Hl]]%lookup_alter_Some; [|eauto].
    left. destruct l as [|j0 js0]; [|eauto]. by rewrite (proj2 (Hf []) eq_refl) in E.
Qed.

Lemma evolves_update clk gid st r :
  JobGroupState_is_terminal st = true \/ (forall g, groups r !! gid = Some g -> g_state g = GReserved /\ st = GRunning) ->
  evolves r (update_state clk gid st r).2.
Proof.
  intros Hst. unfold update_state. destruct (groups r !! gid) as [g|] eqn:Hg; [|reflexivity].
  destruct (valid_transition _ _); [|reflexivity].
  simpl. rewrite (insert_as_alter (enter_state clk st) gid g (groups r) Hg). apply (evolves_one gid (enter_state clk st) r). rewrite Hg. intros ? [= <-].
  split_and!; [done..|]. unfold is_active. simpl. destruct Hst as [->|Hst]; [done|].
  destruct (Hst g eq_refl) as [-> ->]. auto.
Qed.

Lemma evolves_reason reason gid r : evolves r (alter_group (set_reason reason) gid r).
Proof. apply evolves_one. intros g _. split_and!; auto. Qed.

Lemma evolves_touch now gid r : evolves r (touch_activity now gid r).
Proof. apply evolves_one. intros g _. split_and!; auto. Qed.

Lemma evolves_fail_jobs clk gid reason r : evolves r (fail_group_jobs clk gid reason r).
Proof.
  unfold fail_group_jobs. etrans; [|apply evolves_update; by left].
  apply evolves_list. intros l. split; [apply fmap_nil_inv|by intros ->].
Qed.

Lemma evolves_foldl {A B : Type} (f : B -> A -> B) (reg : B -> JobGroupRegistry) l b :
  (forall b x, evolves (reg b) (reg (f b x))) -> evolves (reg b) (reg (foldl f b l)).
Proof.
  intros Hf. revert b. induction l as [|x l IH]; intros b; simpl; [reflexivity|]. etrans; [apply Hf|apply IH].
Qed.

Create HintDb evolving.
#[export] Hint Resolve evolves_reason evolves_touch evolves_fail_jobs : evolving.

Lemma evolves_completion clk gid r : evolves r (check_group_completion clk gid r).2.
Proof.
  unfold check_group_completion. destruct (groups r !! gid) as [g|]; [|reflexivity].
  destruct (JobGroupState_is_terminal (g_state g)); [reflexivity|].
  destruct (group_jobs r !! gid) as [[|j js]|]; [reflexivity| |reflexivity].
  cbv zeta. destruct (existsb _ _ || existsb _ _).
  - destruct (existsb _ _); simpl; (etrans; [|apply evolves_reason]; apply evolves_update; by left).
  - destruct (negb _); [reflexivity|]. destruct (_ && _); [reflexivity|]. simpl.
    etrans; [|apply evolves_reason]; apply evolves_update; by left.
Qed.

Lemma evolves_report uuid_v5 clk gid req r : evolves r (report_to_group uuid_v5 clk gid req r).2.
Proof.
  unfold report_to_group.
  set (r1 := update_job_in_group _ _ _ _ _ _ r). set (r2 := touch_activity _ gid r1).
  assert (H2 : evolves r r2).
  { unfold r2. etrans; [|apply evolves_touch]. apply evolves_list. intros l. split; [apply update_first_nil|by intros ->]. }
  pose proof (evolves_completion (from_reading 3 clk) gid r2) as H3.
  destruct (check_group_completion _ gid r2) as [out r3]. simpl in *. by etrans.
Qed.

Lemma evolves_report_job uuid_v5 parse_uuid clk db_ok req c :
  evolves (jgroups c) (jgroups (report_job_status uuid_v5 parse_uuid clk db_ok req c)).
Proof.
  unfold report_job_status. destruct (su_purge_ack req); [reflexivity|].
  set (c4 := emit _ (emit _ _)). change (jgroups c) with (jgroups c4). clearbody c4.
  destruct (if negb _ then _ else _) as [gid|]; [|reflexivity].
  pose proof (evolves_report uuid_v5 (from_reading 2 clk) gid req (jgroups c4)) as H.
  destruct (report_to_group _ _ _ _ _) as [[i|] r]; [|done].
  destruct (close_group_books gid i {| c4 with jgroups := r |}) as [-> _]. done.
Qed.

Lemma evolves_end_group st clk gid reason r :
  JobGroupState_is_terminal st = true -> evolves r (end_group st clk gid reason r).
Proof.
  intros Hst. unfold end_group. etrans; [|auto with evolving]. etrans; [|auto with evolving].
  apply evolves_update. by left.
Qed.

Lemma evolves_reap `{HI : HashIter} clk now idle stall c :
  evolves (jgroups c) (jgroups (reap_stale_reservations clk now idle stall c)).
Proof.
  unfold reap_stale_reservations. apply (evolves_foldl _ jgroups). intros b s.
  destruct (reap_one_books (clk (sg_id s)) idle stall s b) as [-> _]. by apply evolves_end_group.
Qed.

Lemma evolves_fail_stuck clk r gid : evolves r (fail_stuck clk r gid).
Proof. unfold fail_stuck. etrans; [|apply evolves_reason]. apply evolves_update. by left. Qed.

Lemma evolves_bury `{HI : HashIter} clk wid c : evolves (jgroups c) (jgroups (bury_worker clk wid c)).
Proof.
  unfold bury_worker. set (ids := (handle_worker_death wid (jgroups c)).2).
  assert (H : forall st, evolves st.1 (foldl (fail_on_death clk (death_reason wid)) st ids).1).
  { intros st. apply (evolves_foldl _ fst). intros [r [[cpu mem] disk]] gid. unfold fail_on_death.
    destruct (get_group _ _); simpl; [etrans; [|apply evolves_reason]|]; auto with evolving. }
  specialize (H (jgroups c, (0, 0, 0))). destruct (foldl _ _ ids) as [r [[cpu mem] disk]]. done.
Qed.

Lemma evolves_evict `{HI : HashIter} now age r : evolves r (group_evict_terminal now age r).2.
Proof.
  unfold group_evict_terminal. simpl. apply (evolves_foldl _ id). intros b gid. unfold id. split; simpl.
  - intros gid' g [Hne Hg]%lookup_delete_Some. exists g. split; [done|apply group_evolves_refl].
  - intros gid' [g [Hne Hg]%lookup_delete_Some] Hl. by rewrite lookup_delete_ne.
  - intros gid' j js [Hne Hj]%lookup_delete_Some. eauto.
Qed.

(** Active groups are reserved or running. *)
Definition engaged (r : JobGroupRegistry) : Prop :=
  forall gid g, groups r !! gid = Some g -> is_active g = true -> g_state g = GReserved \/ g_state g = GRunning.

(** What every operation keeps of the group registry. *)
Record groups_ok (r : JobGroupRegistry) : Prop := {
  go_allocs : allocs_ok r;
  go_wf : groups_wf r;
  go_engaged : engaged r;
  go_serving : serving r
}.

Lemma evolves_ok r r' : evolves r r' -> groups_ok r -> groups_ok r'.
Proof.
  intros He [H1 H2 H3 H4]. split.
  - intros gid g' Hg'. destruct (ev_groups _ _ He _ _ Hg') as (g & Hg & _ & _ & -> & _). exact (H1 _ _ Hg).
  - intros gid g' Hg'. destruct (ev_groups _ _ He _ _ Hg') as (g & Hg & E & _). destruct (H2 _ _ Hg) as [Hid Hl].
    split; [congruence|]. apply (ev_lists _ _ He); eauto.
  - intros gid g' Hg' Ha. destruct (ev_groups _ _ He _ _ Hg') as (g & Hg & Hev).
    pose proof (H3 _ _ Hg (group_evolves_active _ _ Hev Ha)). destruct Hev as (_ & _ & _ & Hev).
    destruct (Hev Ha) as [->|[_ ->]]; auto.
  - intros gid g' j js Hg' Hj Ha. destruct (ev_groups _ _ He _ _ Hg') as (g & Hg & Hev).
    destruct (ev_jobs _ _ He _ _ _ Hj) as [(j0 & js0 & Hj0)|Hr]; [|by apply Hr].
    pose proof (H4 _ _ _ _ Hg Hj0 (group_evolves_active _ _ Hev Ha)) as Hrun.
    destruct Hev as (_ & _ & _ & Hev). destruct (Hev Ha) as [->|[? _]]; congruence.
Qed.

(** Submission: the group that gets the job is running if it is active. *)
Lemma entered_evolves gid job r r' : engaged r -> entered gid job r r' -> evolves r r'.
Proof.
  intros Hen (S1 & S2 & S3 & S4). split.
  - intros gid' g' Hg'. destruct (decide (gid' = gid)) as [->|Hne].
    + destruct (groups r !! gid) as [g|] eqn:Hg; [|by rewrite S3 in Hg'].
      destruct (S4 g eq_refl) as (g1 & Hg1 & Hst & Hw & Ha & Hid). assert (g' = g1) as -> by congruence.
      exists g. split; [done|]. split_and!; [done..|]. intros _. rewrite Hst. case_bool_decide; auto.
    + destruct (S1 gid' Hne) as [E _]. rewrite E in Hg'. exists g'. split; [done|apply group_evolves_refl].
  - intros gid' _ Hl. destruct (decide (gid' = gid)) as [->|Hne]; [by rewrite S2|].
    by destruct (S1 gid' Hne) as [_ ->].
  - intros gid' j js Hj. destruct (decide (gid' = gid)) as [->|Hne].
    + right. intros g' Hg' Ha. destruct (groups r !! gid) as [g|] eqn:Hg; [|by rewrite S3 in Hg'].
      destruct (S4 g eq_refl) as (g1 & Hg1 & Hst & _). assert (g' = g1) as -> by congruence.
      rewrite Hst. case_bool_decide as Hs; [done|].
      destruct (Hen gid g Hg) as [|]; [|done|done]. unfold is_active in *. by rewrite <- Hst.
    + left. destruct (S1 gid' Hne) as [_ E]. rewrite E in Hj. eauto.
Qed.

(** A reservation's fresh group. *)
Lemma add_group_ok g r :
  groups_ok r -> group_jobs r !! g_id g = None -> g_state g = GReserved ->
  (forall k, 0 <= amount k (g_allocated_resources g)) -> groups_ok (add_group g r).
Proof.
  intros [H1 H2 H3 H4] Hl Hst Hpos. split; unfold add_group; rewrite Hl; simpl.
  - by apply map_Forall_insert_2.
  - intros gid g' Hg'. simpl in *. apply lookup_insert_Some in Hg' as [[<- <-]|[Hne Hg']].
    + by rewrite lookup_insert_eq.
    + destruct (H2 _ _ Hg'). by rewrite lookup_insert_ne.
  - intros gid g' Hg' Ha. simpl in Hg'. apply lookup_insert_Some in Hg' as [[<- <-]|[Hne Hg']]; [by left|by eapply H3].
  - intros gid g' j js Hg' Hj Ha. simpl in *. apply lookup_insert_Some in Hg' as [[<- <-]|[Hne Hg']].
    + by rewrite lookup_insert_eq in Hj.
    + rewrite lookup_insert_ne in Hj by done. by eapply H4.
Qed.

(** ** How operations change workers *)

Definition workers_ok (wr : WorkerRegistry) : Prop :=
  map_Forall (fun id w => wi_worker_id (ws_info w) = id /\ worker_wf w /\ within_caps w) wr.

Lemma workers_ok_keys wr : workers_ok wr -> keys_match wr.
Proof. intros H id w Hw. by destruct (H id w Hw). Qed.

Lemma workers_ok_alter f id wr :
  (forall w, wr !! id = Some w -> worker_wf w -> within_caps w ->
     wi_worker_id (ws_info (f w)) = wi_worker_id (ws_info w) /\ worker_wf (f w) /\ within_caps (f w)) ->
  workers_ok wr -> workers_ok (alter f id wr).
Proof.
  intros Hf Hok id' w' [(<- & w & Hw & ->)|[Hne Hw]]%lookup_alter_Some; [|by apply Hok].
  destruct (Hok _ _ Hw) as (Hid & Hwf & Hcap). destruct (Hf w Hw Hwf Hcap) as (-> & ? & ?). done.
Qed.

(** A worker that keeps its static part and its counters. *)
Definition same_account (w w' : WorkerState) : Prop := ws_info w' = ws_info w /\ forall k, counter k w' = counter k w.

Lemma same_account_ok w w' : same_account w w' -> worker_wf w -> within_caps w -> worker_wf w' /\ within_caps w'.
Proof.
  intros [Hi Hc] [W1 W2 W3 W4] [C1 C2]. pose proof (Hc CPU) as E1. pose proof (Hc MEM) as E2. pose proof (Hc DISK) as E3.
  simpl in *. destruct (caps_info w w' (eq_sym Hi)) as (E4 & E5 & _). split.
  - constructor; by rewrite ?Hi, ?E1, ?E2, ?E3.
  - unfold within_caps. by rewrite E1, E2, <- E4, <- E5.
Qed.

(** Registries that differ in statuses and heartbeats only. *)
Definition same_accounts (wr wr' : WorkerRegistry) : Prop :=
  forall id w', wr' !! id = Some w' -> exists w, wr !! id = Some w /\ same_account w w'.

Lemma same_accounts_ok wr wr' : same_accounts wr wr' -> workers_ok wr -> workers_ok wr'.
Proof.
  intros Hs Hok id w' Hw'. destruct (Hs id w' Hw') as (w & Hw & Ha). destruct (Hok id w Hw) as (Hid & Hwf & Hcap).
  destruct (same_account_ok w w' Ha Hwf Hcap) as [? ?]. destruct Ha as [-> _]. done.
Qed.

Lemma same_accounts_accounted s c c' :
  same_accounts (workers c) (workers c') -> groups (jgroups c') = groups (jgroups c) -> accounted s c -> accounted s c'.
Proof.
  intros Hs Hg Ha id w' k Hw'. destruct (Hs id w' Hw') as (w & Hw & _ & Hc). destruct (Ha id w k Hw).
  by rewrite Hc, (ledger_same k id (jgroups c) (jgroups c') Hg).
Qed.

(** Releases of non-negative amounts. *)
Definition releases : relation WorkerRegistry :=
  rtc (fun wr wr' => exists wid a, (forall k, 0 <= amount k a) /\ wr' = release_on wid a wr).

Lemma releases_one wid a wr : (forall k, 0 <= amount k a) -> releases wr (release_on wid a wr).
Proof. intros H. apply rtc_once. eauto. Qed.

Lemma releases_ok wr wr' : releases wr wr' -> workers_ok wr -> workers_ok wr'.
Proof.
  induction 1 as [|wr1 wr2 wr3 (wid & a & Hpos & ->) _ IH]; [done|]. intros Hok. apply IH.
  unfold release_on. destruct (has_alloc a); [|done]. apply workers_ok_alter; [|done]. intros w _ Hwf Hcap.
  pose proof (Hpos CPU). pose proof (Hpos MEM). pose proof (Hpos DISK). simpl in *. split_and!; [done| |].
  - by apply release_wf.
  - apply release_within_caps; [apply Hwf|done..].
Qed.

Lemma releases_lookup wr wr' id : releases wr wr' -> is_Some (wr !! id) -> is_Some (wr' !! id).
Proof.
  induction 1 as [|wr1 wr2 wr3 (wid & a & _ & ->) _ IH]; [done|]. intros Hs. apply IH.
  unfold release_on. destruct (has_alloc a); [|done]. by rewrite lookup_alter_is_Some.
Qed.

Lemma grant_ok n id wr : workers_ok wr -> workers_ok (grant n id wr).
Proof.
  intros Hok. unfold grant. destruct (has_resource_req n); [|done]. apply workers_ok_alter; [|done].
  intros w _ Hwf Hcap. destruct (allocate _ _ _ w) as [b w'] eqn:Ha. simpl.
  destruct (allocate_wf _ _ _ _ _ _ Hwf Ha) as (? & ? & _ & Ht & Hf). split_and!; [congruence|done|].
  destruct b; [by apply Ht|by rewrite Hf].
Qed.

(** ** The handlers' effect on workers *)

Lemma report_releases uuid_v5 parse_uuid clk db_ok req c :
  groups_ok (jgroups c) -> releases (workers c) (workers (report_job_status uuid_v5 parse_uuid clk db_ok req c)).
Proof.
  intros Hok. unfold report_job_status. destruct (su_purge_ack req); [constructor|].
  set (c4 := emit _ (emit _ _)). change (workers c) with (workers c4). change (jgroups c) with (jgroups c4) in Hok.
  clearbody c4. destruct (if negb _ then _ else _) as [gid|]; [|constructor].
  pose proof (evolves_ok _ _ (evolves_report uuid_v5 (from_reading 2 clk) gid req (jgroups c4)) Hok) as [Hal _ _ _].
  unfold report_to_group in *. destruct (check_group_completion _ gid _) as [[st|] r3];
    cbn [fmap option_fmap option_map snd] in *; [|constructor].
  match goal with |- context [close_group gid ?i ?c5] => destruct (close_group_books gid i c5) as [_ ->] end.
  cbn [c_worker c_alloc workers]. destruct (on_group_completed gid r3) as [wid|]; [|constructor]. apply releases_one. intros k.
  unfold get_group. destruct (groups r3 !! gid) as [g|] eqn:Hg; simpl; [exact (Hal _ _ Hg k)|by destruct k].
Qed.

Lemma reap_all_releases clk idle stall l c :
  Forall (fun s => forall k, 0 <= amount k (sg_alloc s)) l ->
  releases (workers c) (workers (foldl (fun c' s => reap_one (clk (sg_id s)) idle stall s c') c l)).
Proof.
  revert c. induction l as [|s l IH]; intros c Hl; [constructor|]. apply Forall_cons in Hl as [Hs Hl]. simpl.
  etrans; [|by apply IH]. destruct (reap_one_books (clk (sg_id s)) idle stall s c) as [_ ->].
  destruct (sg_worker s); [by apply releases_one|constructor].
Qed.

Lemma reap_releases `{HI : HashIter} clk now idle stall c :
  groups_ok (jgroups c) -> releases (workers c) (workers (reap_stale_reservations clk now idle stall c)).
Proof.
  intros [Hal Hwf _ _]. apply reap_all_releases. destruct (collect_stale_snapshot now idle stall _ Hwf) as [_ Hall].
  eapply Forall_impl; [exact Hall|]. intros s (g & Hg & _ & _ & ->). exact (Hal _ _ Hg).
Qed.

Lemma fail_on_death_totals clk reason st ids :
  (forall k, 0 <= acc3 k st.2) -> forall k, 0 <= acc3 k (foldl (fail_on_death clk reason) st ids).2.
Proof.
  revert st. induction ids as [|gid ids IH]; intros [r [[cpu mem] disk]] Hst; [done|]. simpl. apply IH.
  destruct (get_group _ _); simpl; [|done].
  intros []; unfold u32_add, u64_add; apply wrap_bounds; lia.
Qed.

Lemma bury_releases `{HI : HashIter} clk wid c : releases (workers c) (workers (bury_worker clk wid c)).
Proof.
  unfold bury_worker. set (ids := (handle_worker_death wid (jgroups c)).2).
  pose proof (fail_on_death_totals clk (death_reason wid) (jgroups c, (0, 0, 0)) ids ltac:(by intros [])) as H.
  destruct (foldl _ _ ids) as [r [[cpu mem] disk]]. simpl. apply releases_one.
  intros k. specialize (H k). by destruct k.
Qed.

(** ** The handlers' effect on the accounts *)

(** The counters are the ledgers plus some surplus. *)
Definition covered (c : Controller) : Prop := exists s, nonneg s /\ accounted s c.

Lemma covered_le c wid w k : covered c -> workers c !! wid = Some w ->
  ledger k wid (jgroups c) <= counter k w /\ ledger k wid (jgroups c) < 2 ^ width k.
Proof. intros (s & Hs & Ha) Hw. destruct (Ha wid w k Hw). pose proof (Hs k wid). lia. Qed.

Lemma bump_nonneg s a wid : nonneg s -> (forall k, 0 <= amount k a) -> nonneg (bump s a wid).
Proof. intros Hs Ha k w. unfold bump. pose proof (Hs k w). pose proof (Ha k). destruct (decide _); lia. Qed.

Lemma reserve_covered `{HI : HashIter} rm us clk gid fr st req seen c :
  groups (jgroups c) !! gid = None -> roomy (compute_resource_needs st req) c -> covered c ->
  covered (do_reserve_worker rm us clk gid fr st req seen c).2.
Proof.
  intros Hnew Hr (s & Hs & Ha). destruct (do_reserve_worker _ _ _ _ _ _ _ _ c) as [r c'] eqn:E.
  apply do_reserve_worker_cases in E as [[-> _]|(p & id & _ & _ & _ & Hacc & E)]; [by exists s|].
  set (n := compute_resource_needs st req) in *.
  pose proof (allocated_accounted s n id c Ha Hr (needs_nonneg st req) Hacc) as Hal.
  apply commit_group_cases in E as (Ew & Ej). simpl. destruct r as [[rs d]|status].
  - destruct Ej as (Ej & _). exists s. split; [done|].
    apply (accounted_books s (with_groups (add_group (new_group clk gid req p n id)) (allocated n id c)));
      [done|by rewrite Ej|]. by apply (add_group_accounted s n id).
  - destruct Ej as (Ej & _). exists (bump s n id). split; [apply bump_nonneg, needs_nonneg; done|].
    apply (accounted_books _ (allocated n id c)); [done|by rewrite Ej|done].
Qed.

Lemma entered_accounted s gid job c r :
  entered gid job (jgroups c) r -> accounted s c -> accounted s {| c with jgroups := r |}.
Proof.
  intros (S1 & _ & S3 & S4) Ha.
  destruct (groups (jgroups c) !! gid) as [g|] eqn:Hg.
  - destruct (S4 g eq_refl) as (g' & Hg' & Hst & Hw & Hal & _).
    apply (accounted_same_charge s c r gid g g' Ha Hg Hg'); [intros; by apply S1|]. intros k wid.
    unfold charge, is_active. rewrite Hst, Hw, Hal. case_bool_decide as E; [|done]. by rewrite E.
  - apply (accounted_books s c); [done| |done]. apply map_eq. intros i. simpl.
    destruct (decide (i = gid)) as [->|Hne]; [rewrite Hg; by apply S3|by apply S1].
Qed.

Lemma fail_stuck_covered clk gid c :
  allocs_ok (jgroups c) -> covered c -> covered (with_groups (fun r => fail_stuck clk r gid) c).
Proof.
  intros Hok (s & Hs & Ha). unfold with_groups. set (r' := fail_stuck clk (jgroups c) gid).
  destruct (groups (jgroups c) !! gid) as [g|] eqn:Hg.
  2: { exists s. split; [done|]. apply (accounted_books s c); [done| |done]. simpl. apply map_eq. intros i.
       destruct (decide (i = gid)) as [->|Hne]; [|by apply fail_stuck_other].
       unfold r', fail_stuck, update_state. rewrite Hg. simpl. by rewrite lookup_alter_eq, Hg. }
  destruct (fail_stuck_one clk (jgroups c) gid g Hg) as (g' & Hg' & Hst & Hw & Hal).
  assert (Ho : forall gid', gid' <> gid -> groups r' !! gid' = groups (jgroups c) !! gid')
    by (intros; by apply fail_stuck_other).
  assert (Ha' : is_active g' = false) by (unfold is_active; by rewrite Hst).
  destruct (is_active g) eqn:Hact; [destruct (g_reserved_worker_id g) as [wid|] eqn:Hwid|].
  - exists (bump s (g_allocated_resources g) wid). split; [apply bump_nonneg; [done|exact (Hok _ _ Hg)]|].
    by apply (close_accounted s c r' gid g g').
  - exists s. split; [done|]. apply (accounted_same_charge s c r' gid g g' Ha Hg Hg' Ho).
    intros k w. rewrite !charge_unassigned; congruence.
  - exists s. split; [done|]. apply (accounted_same_charge s c r' gid g g' Ha Hg Hg' Ho).
    intros k w. by rewrite !charge_inactive.
Qed.

Lemma stuck_covered clk gids c :
  groups_ok (jgroups c) -> covered c -> covered (with_groups (fun r => foldl (fail_stuck clk) r gids) c).
Proof.
  revert c. induction gids as [|gid gids IH]; intros c Hok Hc; [by destruct c|].
  apply (IH (with_groups (fun r => fail_stuck clk r gid) c)).
  - apply (evolves_ok _ _ (evolves_fail_stuck clk (jgroups c) gid) Hok).
  - apply fail_stuck_covered; [apply Hok|done].
Qed.

(** Evicted groups are terminal and charge nothing. *)
Lemma remove_ledger k wid gids r :
  (forall gid g, gid ∈ gids -> groups r !! gid = Some g -> is_active g = false) ->
  ledger k wid (foldl (fun r' gid => remove_group gid r') r gids) = ledger k wid r.
Proof.
  revert r. induction gids as [|gid gids IH]; intros r H; [done|]. simpl. rewrite IH.
  - unfold ledger. simpl. destruct (groups r !! gid) as [g|] eqn:Hg; [|by rewrite delete_id].
    rewrite (total_delete _ _ gid g Hg), charge_inactive by (apply (H gid); [by left|done]). lia.
  - intros gid' g Hin Hg. simpl in Hg. apply lookup_delete_Some in Hg as [_ Hg]. apply (H gid'); [by right|done].
Qed.

Lemma evict_ledger `{HI : HashIter} k wid now age r : ledger k wid (group_evict_terminal now age r).2 = ledger k wid r.
Proof.
  unfold group_evict_terminal. simpl. apply remove_ledger. intros gid g Hin Hg.
  apply list_elem_of_fmap in Hin as ([gid' g'] & -> & Hin). apply list_elem_of_filter in Hin as [[Ht _] Hin].
  apply elem_of_hiter in Hin. simpl in *. simplify_eq. unfold is_active. by rewrite Ht.
Qed.

(** The reconciler. *)
Lemma reconcile_registered `{HI : HashIter} c wid :
  is_Some (workers (reconcile_worker_allocations c) !! wid) -> is_Some (workers c !! wid).
Proof.
  simpl. set (F := fun wid => set_alloc (sum_allocs (get_groups_for_worker wid (jgroups c)))).
  set (ids := (fun w => wi_worker_id (ws_info w)) <$> all_workers (workers c)).
  change (is_Some (foldl (fun m' k => alter (F k) k m') (workers c) ids !! wid) -> is_Some (workers c !! wid)).
  rewrite (lookup_foldl_alter_key F) by (intros; apply set_alloc_idem). case_decide; [by rewrite fmap_is_Some|done].
Qed.

Lemma reconcile_shape `{HI : HashIter} c wid w' :
  workers_ok (workers c) -> allocs_ok (jgroups c) -> covered c ->
  workers (reconcile_worker_allocations c) !! wid = Some w' ->
  exists w, workers c !! wid = Some w /\ ws_info w' = ws_info w /\ forall k, counter k w' = ledger k wid (jgroups c).
Proof.
  intros Hw Hok Hc Hw'. destruct (reconcile_registered c wid) as [w Hwid]; [by rewrite Hw'|].
  rewrite reconcile_lookup in Hw'; [|by apply workers_ok_keys|done|intros k; by apply (covered_le c wid w k Hc)].
  rewrite Hwid in Hw'. injection Hw' as <-. exists w. split; [done|].
  destruct (set_alloc_counters (ledger CPU wid (jgroups c)) (ledger MEM wid (jgroups c)) (ledger DISK wid (jgroups c)) w)
    as (? & ? & ? & ?). split; [done|]. by intros [].
Qed.

Lemma reconcile_covered `{HI : HashIter} c :
  workers_ok (workers c) -> allocs_ok (jgroups c) -> covered c ->
  workers_ok (workers (reconcile_worker_allocations c)) /\ covered (reconcile_worker_allocations c).
Proof.
  intros Hw Hok Hc. split.
  - intros wid w' Hw'. destruct (reconcile_shape c wid w' Hw Hok Hc Hw') as (w & Hwid & Hi & Hk).
    destruct (Hw wid w Hwid) as (Hid & [W1 W2 W3 W4] & [C1 C2]). rewrite Hi. split; [done|].
    destruct (caps_info w w' (eq_sym Hi)) as (E4 & E5 & _). unfold u32, u64, within_caps in *. rewrite <- E4, <- E5.
    pose proof (Hk CPU) as K1. pose proof (Hk MEM) as K2. pose proof (Hk DISK) as K3. simpl in K1, K2, K3.
    destruct (covered_le c wid w CPU Hc Hwid), (covered_le c wid w MEM Hc Hwid), (covered_le c wid w DISK Hc Hwid).
    pose proof (ledger_nonneg CPU wid _ Hok). pose proof (ledger_nonneg MEM wid _ Hok).
    pose proof (ledger_nonneg DISK wid _ Hok). simpl in *.
    split; [constructor; unfold u32, u64; rewrite ?Hi, ?K1, ?K2, ?K3; [done|lia..]|lia].
  - exists no_surplus. split; [done|]. intros wid w' k Hw'.
    destruct (reconcile_shape c wid w' Hw Hok Hc Hw') as (w & Hwid & _ & ->). unfold no_surplus. simpl jgroups.
    destruct (covered_le c wid w k Hc Hwid). lia.
Qed.

(** ** The invariant *)

Record sys_ok (c : Controller) : Prop := {
  so_workers : workers_ok (workers c);
  so_groups : groups_ok (jgroups c);
  so_covered : covered c
}.

(** What is off the books does not matter. *)
Lemma sys_ok_books c c' : workers c' = workers c -> jgroups c' = jgroups c -> sys_ok c -> sys_ok c'.
Proof.
  intros Hw Hg [H1 H2 (s & Hs & Ha)]. split; rewrite ?Hw, ?Hg; [done..|]. exists s. split; [done|].
  by apply (accounted_books s c); [|rewrite Hg|].
Qed.

Lemma bury_ok `{HI : HashIter} clk wid c :
  is_Some (workers c !! wid) -> sys_ok c -> sys_ok (bury_worker clk wid c).
Proof.
  intros [w Hw] [H1 H2 H3]. split.
  - by apply (releases_ok _ _ (bury_releases clk wid c)).
  - by apply (evolves_ok _ _ (evolves_bury clk wid c)).
  - pose proof (fun k => proj2 (covered_le c wid w k H3 Hw)) as Hfit. destruct H3 as (s & Hs & Ha). exists s.
    split; [done|]. apply bury_accounted; [done|done|done|apply H2|apply H2].
Qed.

Lemma bury_all_ok `{HI : HashIter} clk wids c :
  Forall (fun wid => is_Some (workers c !! wid)) wids -> sys_ok c ->
  sys_ok (foldl (fun c' wid => bury_worker clk wid c') c wids).
Proof.
  revert c. induction wids as [|wid wids IH]; intros c Hl Hok; [done|]. apply Forall_cons in Hl as [Hw Hl].
  apply IH; [|by apply bury_ok]. eapply Forall_impl; [exact Hl|]. intros w.
  apply (releases_lookup _ _ w (bury_releases clk wid c)).
Qed.

Lemma foldl_books {A : Type} (f : Controller -> A -> Controller) l c :
  (forall c x, workers (f c x) = workers c /\ jgroups (f c x) = jgroups c) ->
  workers (foldl f c l) = workers c /\ jgroups (foldl f c l) = jgroups c.
Proof.
  intros Hf. revert c. induction l as [|x l IH]; intros c; [done|]. simpl.
  destruct (IH (f c x)) as [-> ->]. apply Hf.
Qed.

Lemma tick_ok `{HI : HashIter} now clk job_now timeout c : sys_ok c -> sys_ok (heartbeat_tick now clk job_now timeout c).
Proof.
  intros [H1 H2 (s & Hs & Ha)]. unfold heartbeat_tick.
  pose proof (elem_of_timed_out now timeout (workers c)) as Hin.
  pose proof (lookup_check_heartbeat_timeouts now timeout (workers c)) as Hlk.
  destruct (check_heartbeat_timeouts now timeout (workers c)) as [ids wr]. simpl in Hin, Hlk.
  assert (Hsame : same_accounts (workers c) wr).
  { intros id w'. rewrite Hlk. intros (w & Hw & ->)%fmap_Some. exists w. split; [done|].
    case_decide; split; done || by intros []. }
  assert (Hok : sys_ok {| c with workers := wr |}).
  { split; [by apply (same_accounts_ok (workers c))|done|]. exists s. split; [done|].
    by apply (same_accounts_accounted s c). }
  destruct ids as [|id ids]; [done|]. set (c1 := emit _ _). set (c3 := foldl _ c1 (id :: ids)).
  assert (H3 : workers c3 = wr /\ jgroups c3 = jgroups c).
  { apply (foldl_books (fun c' wid => let '(marked, js) := mark_unknown_for_worker job_now wid (jobs c') in
      emit (repeat (Metric "dec_active_stages") marked) {| c' with jobs := js |}) (id :: ids) c1). done. }
  destruct H3 as [E1 E2]. apply bury_all_ok.
  - apply Forall_forall. intros x Hx. rewrite E1, Hlk, fmap_is_Some. apply Hin in Hx as (w & Hw & _). eauto.
  - by apply (sys_ok_books {| c with workers := wr |}).
Qed.

(** ** Steps *)

(** One handler or task, run whole. [HI] may differ from step to step, like the
    clocks, the database's answers and the views. What touches neither workers nor
    groups (jobs, logs, streams, tokens) is one step. *)
Inductive ctl_step (c : Controller) : Controller -> Prop :=
| step_reserve (HI : HashIter) rm us clk gid fr st req seen :
    groups (jgroups c) !! gid = None -> group_jobs (jgroups c) !! gid = None ->
    roomy (compute_resource_needs st req) c ->
    ctl_step c (do_reserve_worker rm us clk gid fr st req seen c).2
| step_submit rm us ps v5 rfc dbg clk st req seen :
    ctl_step c (do_submit_stage rm us ps v5 rfc dbg clk st req seen c).2
| step_dispatch (HI : HashIter) us rfc now nvme wid open :
    ctl_step c (dispatch_job_for_worker us rfc now nvme wid open c).2
| step_report v5 parse_uuid clk db_ok req : ctl_step c (report_job_status v5 parse_uuid clk db_ok req c)
| step_heartbeat now msg : ctl_step c (with_workers (update_heartbeat now msg) c)
| step_drain wid : ctl_step c (with_workers (fun wr => (mark_draining wid wr).2) c)
| step_disconnect wid : ctl_step c (with_workers (mark_disconnected wid) c)
| step_reconnect wid : ctl_step c (with_workers (mark_reconnected wid) c)
| step_tick (HI : HashIter) now clk job_now timeout : ctl_step c (heartbeat_tick now clk job_now timeout c)
| step_reap (HI : HashIter) clk now idle stall : ctl_step c (reap_stale_reservations clk now idle stall c)
| step_stuck (HI : HashIter) now clk : ctl_step c (reap_stuck_groups now clk c)
| step_register (HI : HashIter) sha clk auth hb hex storage req reply c' :
    Session.register sha clk auth hb hex storage req c = (Ok reply, c') ->
    (forall w, workers c' !! rg_assigned_worker_id reply = Some w -> hosts w (rg_assigned_worker_id reply) (jgroups c)) ->
    ctl_step c c'
| step_cancel us parse_uuid clk storage req : ctl_step c (Session.cancel_job us parse_uuid clk storage req c).2
| step_submit_job v5 us clk peer req :
    (forall g, groups (jgroups c) !! v5 (sj_job_id req) = Some g -> g_reserved_worker_id g = None) ->
    ctl_step c (submit_job v5 us clk peer req c).2
| step_reconcile (HI : HashIter) : ctl_step c (reconcile_worker_allocations c)
| step_evict (HI : HashIter) now age : ctl_step c (with_groups (fun r => (group_evict_terminal now age r).2) c)
| step_api_cancel us clk storage auth id : ctl_step c (GroupApi.cancel us clk storage auth id c).2
| step_trigger (HI : HashIter) rm us clk gid fr st seen auth body :
    groups (jgroups c) !! gid = None -> group_jobs (jgroups c) !! gid = None ->
    roomy (compute_resource_needs st (trigger_request body)) c ->
    ctl_step c (trigger rm us clk gid fr st seen auth body c).2
| step_retry (HI : HashIter) rm us clk gid fr group get_repo st seen auth id :
    groups (jgroups c) !! gid = None -> group_jobs (jgroups c) !! gid = None ->
    (forall req, retry_plan group get_repo = Ok req -> roomy (compute_resource_needs st req) c) ->
    ctl_step c (retry rm us clk gid fr (Some (group, get_repo)) st seen auth id c).2
| step_webhook (HI : HashIter) us v5 hex hmac json clk sclk gid storage provider headers body :
    groups (jgroups c) !! gid = None -> group_jobs (jgroups c) !! gid = None ->
    ctl_step c (receive us v5 hex hmac json clk sclk gid storage provider headers body c).2
| step_delete_worker ok auth id st : ctl_step c (delete_worker_handler ok auth id st c).2
| step_api_drain auth id : ctl_step c (drain auth id c).2
| step_undrain auth id : ctl_step c (undrain auth id c).2
| step_labels ok auth id labels st : ctl_step c (update_labels_handler ok auth id labels st c).2
| step_metadata ok id info st : ctl_step c (update_metadata ok id info st c).2
| step_limits ok auth id body st :
    (forall w, workers c !! id = Some w ->
       let w' := {| w with ws_info := apply_limits (limit_update body) (ws_info w) |} in worker_wf w' /\ within_caps w') ->
    ctl_step c (update_limits ok auth id body st c).2
| step_restart (HI : HashIter) parse_uuid clk timeout_secs db log_dir tokens with_redis :
    restartable parse_uuid clk timeout_secs db log_dir tokens with_redis ->
    ctl_step c (recovered parse_uuid clk timeout_secs db log_dir tokens with_redis)
| step_off_books c' : workers c' = workers c -> jgroups c' = jgroups c -> ctl_step c c'.

Lemma same_accounts_step f c :
  same_accounts (workers c) (f (workers c)) -> sys_ok c -> sys_ok (with_workers f c).
Proof.
  intros Hs [H1 H2 (s & Hn & Ha)]. split; [by apply (same_accounts_ok (workers c))|done|].
  exists s. split; [done|]. by apply (same_accounts_accounted s c).
Qed.

Lemma same_accounts_alter f id wr : (forall w, same_account w (f w)) -> same_accounts wr (alter f id wr).
Proof.
  intros Hf id' w' [(<- & w & Hw & ->)|[Hne Hw]]%lookup_alter_Some; [eauto|]. exists w'. by split.
Qed.

Lemma dispatch_books `{HI : HashIter} us rfc now nvme wid open c :
  let c' := (dispatch_job_for_worker us rfc now nvme wid open c).2 in
  workers c' = workers c /\ jgroups c' = jgroups c.
Proof.
  unfold dispatch_job_for_worker, assign_job. destruct (workers c !! wid); [|done].
  repeat (case_match; simplify_eq; try done).
Qed.

Lemma same_account_status st w : same_account w (set_status st w).
Proof. split; [done|]. by intros []. Qed.

Lemma reserve_ok `{HI : HashIter} rm us clk gid fr st req seen c :
  groups (jgroups c) !! gid = None -> group_jobs (jgroups c) !! gid = None ->
  roomy (compute_resource_needs st req) c -> sys_ok c -> sys_ok (do_reserve_worker rm us clk gid fr st req seen c).2.
Proof.
  intros Hnew Hlist Hr [H1 H2 H3].
  pose proof (reserve_covered rm us clk gid fr st req seen c Hnew Hr H3) as Hcov.
  destruct (do_reserve_worker _ _ _ _ _ _ _ _ c) as [r c'] eqn:E. simpl in *.
  apply do_reserve_worker_cases in E as [[-> _]|(p & id & _ & _ & _ & _ & E)]; [by split|].
  apply commit_group_cases in E as (Ew & Ej). split; [| |done].
  - rewrite Ew. by apply grant_ok.
  - destruct r as [[rs d]|status]; destruct Ej as [-> _]; [|done].
    apply add_group_ok; [done|done|done|]. intros k. apply needs_nonneg.
Qed.

Lemma submit_ok rm us ps v5 rfc dbg clk st req seen c :
  sys_ok c -> sys_ok (do_submit_stage rm us ps v5 rfc dbg clk st req seen c).2.
Proof.
  intros [H1 H2 (s & Hs & Ha)]. unfold do_submit_stage. destruct (prepare_stage _ _ _ _ _ _ _) as [p|e]; [|by split; [| |exists s]].
  destruct (enter_stage_books us v5 rfc clk st req p (seen 5%nat) c) as (E1 & E2 & _).
  simpl snd. split; rewrite ?E1, ?E2; [done| |].
  - apply (evolves_ok (jgroups c)); [|done]. eapply entered_evolves; [apply H2|apply enter_group_spec].
  - exists s. split; [done|]. eapply (accounted_books s {| c with jgroups := _ |});
      [exact E1|by rewrite E2|eapply entered_accounted; [apply enter_group_spec|done]].
Qed.

Lemma register_ok `{HI : HashIter} sha clk auth hb hex storage req c reply c' :
  Session.register sha clk auth hb hex storage req c = (Ok reply, c') ->
  (forall w, workers c' !! rg_assigned_worker_id reply = Some w -> hosts w (rg_assigned_worker_id reply) (jgroups c)) ->
  sys_ok c -> sys_ok c'.
Proof.
  intros H Hh [H1 H2 (s & Hs & Ha)]. set (id := rg_assigned_worker_id reply) in *.
  destruct (register_enrolls _ _ _ _ _ _ _ _ _ _ H) as (now & limits & c1 & -> & Ew & Eg & _). fold id in Hh |- *.
  rewrite <- Eg in H2. destruct (enroll_spec now id req limits c1 (go_allocs _ H2)) as (E1 & Ho & w' & Hw' & _ & Hid & Hk).
  rewrite <- Eg in Hh. destruct (Hk (Hh w' Hw')) as (Hwf & Hcap & _). split.
  - intros x w Hx. destruct (decide (x = id)) as [->|Hne]; [by replace w with w' by congruence|].
    rewrite Ho, Ew in Hx by done. by apply H1.
  - by rewrite E1.
  - exists (settled id s). split; [intros k x; unfold settled; destruct (decide _); [lia|apply Hs]|].
    apply enroll_accounted; [exact (go_allocs _ H2)|by apply (accounted_books s c); rewrite ?Ew, ?Eg|done].
Qed.

Lemma cancel_ok us parse_uuid clk storage req c :
  sys_ok c -> sys_ok (Session.cancel_job us parse_uuid clk storage req c).2.
Proof.
  intros Hok. unfold Session.cancel_job. destruct (_ && _).
  - destruct (parse_uuid _) as [gid|]; [|done]. destruct Hok as [H1 H2 (s & Hs & Ha)].
    destruct (groups (jgroups c) !! gid) as [g|] eqn:Hg; [destruct (is_active g) eqn:Hact|].
    + pose proof (cancel_group_accounted us clk storage gid req c g s Hg Hact Hs (go_allocs _ H2) Ha) as Hacc.
      pose proof (cancel_group_books us clk storage gid req c g Hg Hact) as Hb.
      destruct (cancel_group us clk storage gid req c) as [r c']. destruct Hb as (_ & E1 & _ & E2). simpl in *. split.
      * rewrite E2. destruct (g_reserved_worker_id g); [|done]. eapply releases_ok; [apply releases_one|done].
        exact (go_allocs _ H2 _ _ Hg).
      * rewrite E1. apply (evolves_ok (jgroups c)); [|done]. by apply evolves_end_group.
      * by exists s.
    + unfold cancel_group, get_group. rewrite Hg. unfold is_active in Hact. destruct (JobGroupState_is_terminal _); [|done].
      split; [done|done|by exists s].
    + unfold cancel_group, get_group. rewrite Hg. split; [done|done|by exists s].
  - unfold cancel_one. destruct (JobRegistry.cancel_job _ _ _ _) as [[wid|] js].
    + simpl. destruct (job_stream_senders c !! wid) as [[]|]; simpl; by apply (sys_ok_books c).
    + destruct (get_job _ js); by apply (sys_ok_books c).
Qed.

(** A group of its own for a job: running at once, on no worker. *)
Lemma submit_job_ok v5 us clk peer req c :
  (forall g, groups (jgroups c) !! v5 (sj_job_id req) = Some g -> g_reserved_worker_id g = None) ->
  sys_ok c -> sys_ok (submit_job v5 us clk peer req c).2.
Proof.
  intros Hfree [H1 [G1 G2 G3 G4] (s & Hs & Ha)]. set (gid := v5 (sj_job_id req)) in *.
  set (g0 := adhoc_group v5 (clk 1%nat) req). set (c' := (submit_job v5 us clk peer req c).2).
  assert (Eg : groups (jgroups c') = <[gid := g0]> (groups (jgroups c))) by done.
  assert (Ej : forall gid', is_Some (groups (jgroups c') !! gid') -> is_Some (group_jobs (jgroups c') !! gid')).
  { intros gid' [g Hg]. rewrite Eg in Hg. unfold c', submit_job. simpl. fold gid.
    destruct (decide (gid' = gid)) as [->|Hne]; [rewrite lookup_insert_eq; eauto|]. rewrite lookup_insert_ne in Hg by done.
    rewrite lookup_insert_ne by done. destruct (G2 _ _ Hg) as [_ [l Hl]].
    destruct (group_jobs (jgroups c) !! gid); [|rewrite lookup_insert_ne by done]; eauto. }
  split; [done| |].
  - assert (Hcase : forall gid' g, groups (jgroups c') !! gid' = Some g ->
      (gid' = gid /\ g = g0) \/ (gid' <> gid /\ groups (jgroups c) !! gid' = Some g)).
    { intros gid' g. rewrite Eg, lookup_insert_Some. naive_solver. }
    split.
    + intros gid' g [[-> ->]|[_ Hg]]%Hcase; [by intros []|exact (G1 _ _ Hg)].
    + intros gid' g Hg. split; [|apply Ej; eauto]. apply Hcase in Hg as [[-> ->]|[_ Hg]]; [done|apply (G2 _ _ Hg)].
    + intros gid' g [[-> ->]|[_ Hg]]%Hcase; [by right|by apply (G3 gid')].
    + intros gid' g j js [[-> ->]|[Hne Hg]]%Hcase Hj; [done|]. apply (G4 gid' g j js Hg). revert Hj.
      unfold c', submit_job. simpl. fold gid. rewrite lookup_insert_ne by done.
      destruct (group_jobs (jgroups c) !! gid); [done|]. by rewrite lookup_insert_ne.
  - exists s. split; [done|]. destruct (groups (jgroups c) !! gid) as [g|] eqn:Hgid.
    + apply (accounted_books s {| c with jgroups := jgroups c' |}); [done|done|].
      apply (accounted_same_charge s c (jgroups c') gid g g0 Ha Hgid); [by rewrite Eg, lookup_insert_eq| |].
      * intros gid' Hne. by rewrite Eg, lookup_insert_ne.
      * intros k wid. rewrite (charge_unassigned k wid g0) by done. apply eq_sym, charge_unassigned, Hfree. done.
    + intros wid w k Hw. change (workers c !! wid = Some w) in Hw. unfold ledger. rewrite Eg, (total_insert_new _ _ _ _ Hgid).
      rewrite charge_unassigned by done. by apply Ha.
Qed.

(** ** The HTTP API *)

Lemma api_cancel_ok us clk storage auth id c : sys_ok c -> sys_ok (GroupApi.cancel us clk storage auth id c).2.
Proof.
  intros Hok. destruct (can_cancel_jobs (au_role auth)) eqn:Hr.
  2: { destruct (cancel_refused us clk storage auth id c) as [e ->]; [by left|done]. }
  destruct (groups (jgroups c) !! id) as [g|] eqn:Hg; [destruct (is_active g) eqn:Ha|].
  - pose proof (cancel_books us clk storage auth id c g Hr Hg Ha) as H.
    destruct (GroupApi.cancel us clk storage auth id c) as [r c']. destruct H as (_ & E1 & E2). simpl.
    destruct Hok as [H1 H2 (s & Hs & Hacc)].
    destruct (end_group_one GCancelled clk id (api_reason auth) (jgroups c) g ltac:(auto) Hg) as (g' & Hg' & Hst & Hw & Hal).
    split.
    + rewrite E2. destruct (g_reserved_worker_id g); [|done]. eapply releases_ok; [apply releases_one|done].
      exact (go_allocs _ H2 _ _ Hg).
    + rewrite E1. apply (evolves_ok (jgroups c)); [|done]. by apply evolves_end_group.
    + exists s. split; [done|]. apply (settle_accounted s c c' id g g'); rewrite ?E1; try done.
      * apply (go_allocs _ H2).
      * intros; by apply end_group_other.
      * unfold is_active. by rewrite Hst.
  - destruct (cancel_refused us clk storage auth id c) as [e ->]; [right; eauto|done].
  - unfold GroupApi.cancel, get_group. rewrite Hr, Hg. simpl. set (c1 := with_groups _ c).
    assert (He : evolves (jgroups c) (jgroups c1)) by (by apply evolves_end_group).
    apply (sys_ok_books c1); [done|done|]. destruct Hok as [H1 H2 (s & Hs & Hacc)]. split; [done|by apply (evolves_ok _ _ He)|].
    exists s. split; [done|]. apply (accounted_books s c); [done| |done]. apply map_eq. intros i.
    destruct (decide (i = id)) as [->|Hne]; [|by apply end_group_other]. rewrite Hg.
    destruct (groups (jgroups c1) !! id) as [g|] eqn:E; [|done]. destruct (ev_groups _ _ He _ _ E) as (g0 & E0 & _). congruence.
Qed.

Lemma trigger_ok `{HI : HashIter} rm us clk gid fr st seen auth body c :
  groups (jgroups c) !! gid = None -> group_jobs (jgroups c) !! gid = None ->
  roomy (compute_resource_needs st (trigger_request body)) c -> sys_ok c ->
  sys_ok (trigger rm us clk gid fr st seen auth body c).2.
Proof.
  intros H1 H2 Hr Hok. unfold trigger. destruct (negb _); [done|].
  pose proof (reserve_ok rm us clk gid fr st _ seen c H1 H2 Hr Hok) as H. by destruct (do_reserve_worker _ _ _ _ _ _ _ _ _).
Qed.

Lemma retry_ok `{HI : HashIter} rm us clk gid fr group get_repo st seen auth id c :
  groups (jgroups c) !! gid = None -> group_jobs (jgroups c) !! gid = None ->
  (forall req, retry_plan group get_repo = Ok req -> roomy (compute_resource_needs st req) c) -> sys_ok c ->
  sys_ok (retry rm us clk gid fr (Some (group, get_repo)) st seen auth id c).2.
Proof.
  intros H1 H2 Hr Hok. unfold retry. destruct (negb _); [done|]. destruct (retry_plan _ _) as [req|e] eqn:E; [|done].
  pose proof (reserve_ok rm us clk gid fr st req seen c H1 H2 (Hr req eq_refl) Hok) as H.
  by destruct (do_reserve_worker _ _ _ _ _ _ _ _ _).
Qed.

Lemma enter_stages_evolves us clk gid wid stages r : groups_ok r -> evolves r (enter_stages us clk gid wid stages r).
Proof.
  revert clk r. induction stages as [|s stages IH]; intros clk r Hok; simpl; [reflexivity|].
  assert (He : evolves r (join_group (from_reading 1 (clk 0%nat)) gid (webhook_job us (clk 0%nat 0%nat) gid wid s) r))
    by (eapply entered_evolves; [apply Hok|apply join_entered]).
  etrans; [exact He|]. apply IH. by apply (evolves_ok r).
Qed.

Lemma enter_stages_accounted us s clk gid wid stages c :
  accounted s c -> accounted s {| c with jgroups := enter_stages us clk gid wid stages (jgroups c) |}.
Proof.
  revert clk c. induction stages as [|st stages IH]; intros clk c Ha; simpl; [by destruct c|].
  set (r := join_group _ _ _ _). apply (IH _ {| c with jgroups := r |}).
  eapply entered_accounted; [apply join_entered|done].
Qed.

(** A build that takes nothing. *)
Lemma trigger_build_ok `{HI : HashIter} us v5 clk sclk gid st repo_id src push c :
  groups (jgroups c) !! gid = None -> group_jobs (jgroups c) !! gid = None -> sys_ok c ->
  sys_ok (trigger_build us v5 clk sclk gid st repo_id src push c).2.
Proof.
  intros Hnew Hlist Hok. destruct (trigger_build_books us v5 clk sclk gid st repo_id src push c) as [Ew [Eg|(wid & stages & Eg)]].
  { by apply (sys_ok_books c). }
  destruct Hok as [H1 H2 (s & Hs & Ha)]. set (g := webhook_group us clk gid repo_id src wid push) in *.
  assert (H2' : groups_ok (add_group g (jgroups c))) by (apply add_group_ok; [done|done|done|by intros []]).
  split; rewrite ?Ew, ?Eg; [done| |].
  - apply (evolves_ok _ _ (enter_stages_evolves us sclk gid wid stages _ H2') H2').
  - exists s. split; [done|]. apply (accounted_books s {| (with_groups (add_group g) c) with
      jgroups := enter_stages us sclk gid wid stages (add_group g (jgroups c)) |}); [done|by rewrite Eg|].
    apply (enter_stages_accounted us s sclk gid wid stages (with_groups (add_group g) c)).
    apply (add_group_accounted s (g_allocated_resources g) wid); [|done..].
    intros id w k Hw. destruct (Ha id w k Hw). unfold bump. destruct (decide _), k; simpl in *; lia.
Qed.

Lemma receive_ok `{HI : HashIter} us v5 hex hmac json clk sclk gid storage provider headers body c :
  groups (jgroups c) !! gid = None -> group_jobs (jgroups c) !! gid = None -> sys_ok c ->
  sys_ok (receive us v5 hex hmac json clk sclk gid storage provider headers body c).2.
Proof.
  intros Hnew Hlist Hok. unfold receive. destruct storage as [[by_secret a]|]; [|done].
  destruct (classify _ _ _ _ _ _ _) as [[reply|[[webhook event] push]]|e]; [done| |done].
  pose proof (trigger_build_ok us v5 clk sclk gid (Some a) (wh_repo_id webhook) (trigger_source_of provider event) push c Hnew Hlist Hok) as H.
  destruct (trigger_build _ _ _ _ _ _ _ _ _ _) as [r c']. simpl in *. by apply (sys_ok_books c').
Qed.

(** The worker goes, its groups stay. *)
Lemma delete_worker_ok ok auth id st c : sys_ok c -> sys_ok (delete_worker_handler ok auth id st c).2.
Proof.
  intros Hok. unfold delete_worker_handler, with_storage. destruct (negb _); [done|]. destruct st as [t|]; [|done].
  destruct (negb _); [done|]. match goal with |- context [with_workers ?f ?c1] => set (c2 := with_workers f c1) end.
  assert (H : sys_ok c2).
  { assert (Ew : workers c2 = delete id (workers c)) by (unfold c2, refresh_token_hashes; by destruct (ok 1%nat)).
    assert (Eg : jgroups c2 = jgroups c) by (unfold c2, refresh_token_hashes; by destruct (ok 1%nat)).
    destruct Hok as [H1 H2 (s & Hs & Ha)]. split; rewrite ?Ew, ?Eg; [|done|].
    - intros id' w [_ Hw]%lookup_delete_Some. by apply H1.
    - exists s. split; [done|]. intros id' w k Hw. rewrite Ew in Hw. apply lookup_delete_Some in Hw as [_ Hw].
      rewrite Eg. by apply Ha. }
  destruct (negb _); [done|]. by destruct (delete_worker _ _).
Qed.

(** A change of one worker that keeps its counters. *)
Lemma update_worker_ok f id c c' :
  workers c' = alter f id (workers c) -> jgroups c' = jgroups c ->
  (forall w, workers c !! id = Some w -> worker_wf w -> within_caps w ->
     wi_worker_id (ws_info (f w)) = wi_worker_id (ws_info w) /\ worker_wf (f w) /\ within_caps (f w)) ->
  (forall w k, counter k (f w) = counter k w) -> sys_ok c -> sys_ok c'.
Proof.
  intros Ew Eg Hf Hk [H1 H2 (s & Hs & Ha)]. split; rewrite ?Ew, ?Eg; [by apply workers_ok_alter|done|].
  exists s. split; [done|]. intros id' w' k Hw'. rewrite Ew in Hw'. rewrite Eg.
  apply lookup_alter_Some in Hw' as [(<- & w & Hw & ->)|[_ Hw]]; [rewrite Hk|]; by apply Ha.
Qed.

Lemma drain_ok auth id c : sys_ok c -> sys_ok (drain auth id c).2.
Proof.
  intros Hok. unfold drain, mark_draining. destruct (negb _); [done|]. destruct (workers c !! id) as [w|] eqn:Hw; [|done]. simpl.
  rewrite (insert_as_alter (set_status Draining) id w _ Hw).
  apply (update_worker_ok (set_status Draining) id c); [done|done| |by intros ? []|done]. intros w' _ Hwf Hcap.
  split; [done|]. by apply (same_account_ok w'); [apply same_account_status|..].
Qed.

Lemma undrain_ok auth id c : sys_ok c -> sys_ok (undrain auth id c).2.
Proof.
  intros Hok. unfold undrain. destruct (negb _); [done|]. destruct (_ <$> _) as [[]|]; [|done..].
  apply same_accounts_step; [|done]. apply same_accounts_alter, same_account_status.
Qed.

Lemma labels_ok ok auth id labels st c : sys_ok c -> sys_ok (update_labels_handler ok auth id labels st c).2.
Proof.
  intros Hok. unfold update_labels_handler, update_labels. destruct (negb _); [done|].
  destruct (workers c !! id) as [w|] eqn:Hw; [|done]. simpl.
  set (f := fun w => {| w with ws_info := {| (ws_info w) with wi_labels := labels |} |}).
  apply (update_worker_ok f id c); [|done| |by intros ? []|done].
  - simpl. by rewrite (insert_as_alter f id w _ Hw).
  - intros w' _ [[] ? ? ?] Hcap. done.
Qed.

Lemma metadata_ok ok id info st c : sys_ok c -> sys_ok (update_metadata ok id info st c).2.
Proof.
  intros Hok. unfold update_metadata, update_system_info. destruct (workers c !! id) as [w|] eqn:Hw; [|done]. simpl.
  set (f := fun w => {| w with ws_system_info := Some info |}).
  apply (update_worker_ok f id c); [|done| |by intros ? []|done].
  - simpl. by rewrite (insert_as_alter f id w _ Hw).
  - intros w' _ [] Hcap. done.
Qed.

Lemma limits_ok ok auth id body st c :
  (forall w, workers c !! id = Some w ->
     let w' := {| w with ws_info := apply_limits (limit_update body) (ws_info w) |} in worker_wf w' /\ within_caps w') ->
  sys_ok c -> sys_ok (update_limits ok auth id body st c).2.
Proof.
  intros Hf Hok. unfold update_limits, with_storage. destruct (negb _); [done|]. destruct st as [t|]; [|done].
  destruct (negb _); [done|]. destruct (update_worker_priority_limits _ _ _) as [[row|] t']; [|done]. simpl.
  unfold with_workers, update_priority_limits. destruct (workers c !! id) as [w|] eqn:Hw; [|by apply (sys_ok_books c)]. simpl.
  set (f := fun w => {| w with ws_info := apply_limits (limit_update body) (ws_info w) |}) in *.
  apply (update_worker_ok f id c); [|done| |by intros ? []|done].
  - simpl. by rewrite (insert_as_alter f id w _ Hw).
  - intros w' Hw' _ _. split; [done|]. apply Hf. congruence.
Qed.

(** A restart reads back a state in order, whatever the one before. *)
Lemma restart_ok `{HI : HashIter} parse_uuid clk timeout_secs db log_dir tokens with_redis :
  restartable parse_uuid clk timeout_secs db log_dir tokens with_redis ->
  sys_ok (recovered parse_uuid clk timeout_secs db log_dir tokens with_redis).
Proof.
  intros Hr. pose proof Hr as [H1 H2 H3 H4].
  assert (Hw : forall id w, workers (recovered parse_uuid clk timeout_secs db log_dir tokens with_redis) !! id = Some w ->
    wi_worker_id (ws_info w) = id /\ worker_wf w /\ within_caps w /\
    forall k, counter k w = ledger k id (jgroups (recovered parse_uuid clk timeout_secs db log_dir tokens with_redis))).
  { intros id w Hw. pose proof (H4 id w Hw) as Hh. by destruct (recovered_worker _ _ _ _ _ _ _ id w Hw H1) as (? & _ & _ & (? & ? & ?)%(fun H => H Hh)). }
  split; [intros id w Hid; by destruct (Hw id w Hid) as (? & ? & ? & _)| |].
  - split; [by apply recovered_allocs|apply recovered_wf| |by apply recovered_serving].
    intros gid g Hg Ha. destruct (recovered_from _ _ _ _ _ _ _ gid g Hg) as (g0 & Hin & _ & ->).
    destruct (recovered_group_same clk timeout_secs g0) as (_ & _ & Hs). rewrite (Hs Ha) in Ha |- *. by apply H2.
  - exists no_surplus. split; [by intros k wid|]. apply balanced_accounted. intros wid w k Hwid.
    destruct (Hw wid w Hwid) as (_ & [_ W1 W2 W3] & _ & Hk). rewrite Hk. split; [done|]. rewrite <- Hk. unfold u32, u64 in *. destruct k; simpl; lia.
Qed.

Lemma ctl_step_ok c c' : ctl_step c c' -> sys_ok c -> sys_ok c'.
Proof.
  intros Hstep Hok. destruct Hstep.
  - by apply reserve_ok.
  - by apply submit_ok.
  - destruct (dispatch_books us rfc now nvme wid open c) as [? ?]. by apply (sys_ok_books c).
  - destruct Hok as [H1 H2 (s & Hs & Ha)]. split.
    + by apply (releases_ok _ _ (report_releases v5 parse_uuid clk db_ok req c H2)).
    + by apply (evolves_ok _ _ (evolves_report_job v5 parse_uuid clk db_ok req c)).
    + exists s. split; [done|]. apply report_accounted; [done|done|apply H2|apply H2].
  - apply same_accounts_step; [|done]. apply same_accounts_alter. intros w. split; [done|]. by intros [].
  - apply same_accounts_step; [|done]. unfold mark_draining. destruct (workers c !! wid) as [w|] eqn:Hw; simpl.
    + intros id w' [[<- <-]|[Hne Hw']]%lookup_insert_Some; [exists w; split; [done|apply same_account_status]|].
      exists w'. by split.
    + intros id w' Hw'. exists w'. by split.
  - apply same_accounts_step; [|done]. apply same_accounts_alter, same_account_status.
  - apply same_accounts_step; [|done]. apply same_accounts_alter, same_account_status.
  - by apply tick_ok.
  - destruct Hok as [H1 H2 (s & Hs & Ha)]. split.
    + by apply (releases_ok _ _ (reap_releases clk now idle stall c H2)).
    + by apply (evolves_ok _ _ (evolves_reap clk now idle stall c)).
    + exists s. split; [done|]. apply reap_stale_accounted; [done|done|apply H2|apply H2].
  - destruct Hok as [H1 H2 H3]. unfold reap_stuck_groups.
    set (gids := g_id <$> _). apply (sys_ok_books (with_groups (fun r => foldl (fail_stuck clk) r gids) c)); [done|done|].
    split; [done| |by apply stuck_covered].
    apply (evolves_ok (jgroups c)); [|done]. apply (evolves_foldl (fail_stuck clk) id).
    intros b x. apply evolves_fail_stuck.
  - by eapply register_ok.
  - by apply cancel_ok.
  - by apply submit_job_ok.
  - destruct Hok as [H1 H2 H3]. destruct (reconcile_covered c H1 (go_allocs _ H2) H3). by split.
  - destruct Hok as [H1 H2 (s & Hs & Ha)]. split; [done| |].
    + by apply (evolves_ok (jgroups c)); [apply evolves_evict|].
    + exists s. split; [done|]. intros wid w k Hw. cbn [with_groups jgroups workers] in *. rewrite evict_ledger. by apply Ha.
  - by apply api_cancel_ok.
  - by apply trigger_ok.
  - by apply retry_ok.
  - by apply receive_ok.
  - by apply delete_worker_ok.
  - by apply drain_ok.
  - by apply undrain_ok.
  - by apply labels_ok.
  - by apply metadata_ok.
  - by apply limits_ok.
  - by apply restart_ok.
  - by apply (sys_ok_books c).
Qed.

(** A fleet of well-formed workers within their caps, and no groups yet. *)
Definition initial (c : Controller) : Prop :=
  workers_ok (workers c) /\ groups (jgroups c) = ∅.

Lemma initial_ok c : initial c -> sys_ok c.
Proof.
  intros [Hw Hg]. split; [done| |].
  - split; [intros gid g Hgid|intros gid g Hgid|intros gid g Hgid|intros gid g j js Hgid];
      by rewrite Hg, lookup_empty in Hgid.
  - exists (fun k wid => default 0 (counter k <$> workers c !! wid)). split.
    + intros k wid. destruct (workers c !! wid) as [w|] eqn:E; [|done]. simpl.
      destruct (Hw wid w E) as (_ & [_ W1 W2 W3] & _). unfold u32, u64 in *. destruct k; simpl; lia.
    + intros wid w k E. rewrite E. unfold ledger. rewrite Hg. simpl.
      destruct (Hw wid w E) as (_ & [_ W1 W2 W3] & _). unfold u32, u64 in *.
      unfold total. rewrite map_fold_empty. destruct k; simpl; lia.
Qed.

Lemma reachable_ok c0 c : initial c0 -> rtc ctl_step c0 c -> sys_ok c.
Proof.
  intros Hi Hr. apply initial_ok in Hi. induction Hr as [|c0 c1 c Hs _ IH]; [done|].
  apply IH. by eapply ctl_step_ok.
Qed.

(** C1. The controller never over-commits a worker: from any fleet within its
    caps and no groups, along any sequence of whole handlers and background tasks
    (reservations with any outcome, submissions, polls, reports, cancellations,
    heartbeats, registrations of workers that can host their groups, sweeps,
    reapers, the reconciler, evictions; builds started, retried or cancelled over
    HTTP and by webhooks; workers drained, relabelled, deleted, or given limits
    that hold what they run; restarts that read back groups their workers can
    host), the allocations of the active
    groups on a worker add up to at most its counters, and so to at most its CPU
    and memory caps; each active group is reserved or running, and is filed
    under its id with a job list. *)
Theorem no_overcommit (c0 c : Controller) :
  initial c0 -> rtc ctl_step c0 c ->
  (forall wid w, workers c !! wid = Some w ->
     (forall k, ledger k wid (jgroups c) <= counter k w) /\
     ledger CPU wid (jgroups c) <= cpu_cap w /\ ledger MEM wid (jgroups c) <= memory_cap w) /\
  (forall gid g, groups (jgroups c) !! gid = Some g ->
     g_id g = gid /\ is_Some (group_jobs (jgroups c) !! gid) /\
     (is_active g = true -> g_state g = GReserved \/ g_state g = GRunning)).
Proof.
  intros Hi Hr. destruct (reachable_ok c0 c Hi Hr) as [H1 H2 H3]. split.
  - intros wid w Hw. assert (Hle : forall k, ledger k wid (jgroups c) <= counter k w)
      by (intros k; by apply (covered_le c wid w k H3)).
    destruct (H1 wid w Hw) as (_ & _ & C1 & C2). pose proof (Hle CPU). pose proof (Hle MEM). simpl in *.
    split; [done|lia].
  - intros gid g Hg. destruct (go_wf _ H2 gid g Hg). split_and!; [done|done|by apply (go_engaged _ H2 gid)].
Qed.

Lemma idle_initial : initial idle_controller.
Proof.
  split; [|done]. apply map_Forall_singleton. split; [done|]. split; [apply sample_worker_wf|].
  split; vm_compute; congruence.
Qed.

(** A reservation of 3 CPUs, then a reconciler run: 3 of the 4 are taken. *)
Lemma no_overcommit_witness :
  let c := reconcile_worker_allocations (HI := map_iter) (sample_call 0 ∅ None idle_controller).2 in
  ledger CPU "w" (jgroups c) = 3 /\ exists w, workers c !! "w" = Some w /\ ledger CPU "w" (jgroups c) <= cpu_cap w.
Proof.
  intros c. split; [vm_compute; reflexivity|].
  assert (Hr : rtc ctl_step idle_controller c).
  { apply rtc_l with (y := (sample_call 0 ∅ None idle_controller).2);
      [apply step_reserve; [reflexivity|reflexivity|apply idle_roomy]|apply rtc_once, step_reconcile]. }
  destruct (workers c !! "w") as [w|] eqn:Hw; [|vm_compute in Hw; discriminate Hw].
  exists w. split; [reflexivity|]. exact (proj1 (proj2 (proj1 (no_overcommit idle_controller c idle_initial Hr) "w" w Hw))).
Defined.

(** ** Every group closes *)

Lemma stuck_all clk gids r gid g :
  groups r !! gid = Some g ->
  exists g', groups (foldl (fail_stuck clk) r gids) !! gid = Some g' /\
    (gid ∈ gids -> g_state g' = GFailed) /\ (is_active g = false -> is_active g' = false).
Proof.
  revert r g. induction gids as [|x gids IH]; intros r g Hg; simpl.
  { exists g. split_and!; [done|by intros ?%not_elem_of_nil|done]. }
  destruct (decide (gid = x)) as [<-|Hne].
  - destruct (fail_stuck_one clk r gid g Hg) as (g1 & Hg1 & Hst & _).
    destruct (decide (gid ∈ gids)) as [Hin|Hni].
    + destruct (IH _ _ Hg1) as (g' & Hg' & Hf & Ha). exists g'. split_and!; [done|auto|].
      intros _. unfold is_active. by rewrite (Hf Hin).
    + assert (E : groups (foldl (fail_stuck clk) (fail_stuck clk r gid) gids) !! gid = Some g1).
      { clear IH. revert Hni Hg1. generalize (fail_stuck clk r gid). induction gids as [|y gids IH]; intros r0 Hni Hg1; [done|].
        apply not_elem_of_cons in Hni as [Hy Hni]. simpl. apply IH; [done|]. by rewrite fail_stuck_other. }
      exists g1. split_and!; [done|done|]. intros _. unfold is_active. by rewrite Hst.
  - destruct (IH (fail_stuck clk r x) g) as (g' & Hg' & Hf & Ha); [by rewrite fail_stuck_other|].
    exists g'. split_and!; [done| |done]. intros [->|Hin]%elem_of_cons; [done|auto].
Qed.

(** C2. No group is stuck for ever: in any state the controller can reach, once
    every active group has been idle for longer than both reservation timeouts
    and unchanged for four hours, one run of the stale-reservation reaper
    followed by one of the stuck-group reaper leaves no active group, whatever
    its jobs' states are. *)
Theorem every_group_closes `{HI : HashIter} (c0 c : Controller) (clk clk' : Uuid -> clock) (now now' idle stall : Z) :
  initial c0 -> rtc ctl_step c0 c ->
  map_Forall (fun _ g => is_active g = true ->
    idle < num_seconds (now - g_last_activity_at g) /\ stall < num_seconds (now - g_last_activity_at g) /\
    4 <= num_hours (now' - g_updated_at g)) (groups (jgroups c)) ->
  let c' := reap_stuck_groups now' clk' (reap_stale_reservations clk now idle stall c) in
  map_Forall (fun _ g => is_active g = false) (groups (jgroups c')).
Proof.
  intros Hi Hr Hold c'. destruct (reachable_ok c0 c Hi Hr) as [_ Hg _]. intros gid g' Hg'.
  set (c1 := reap_stale_reservations clk now idle stall c) in *.
  assert (He1 : evolves (jgroups c) (jgroups c1)) by apply evolves_reap.
  set (gids := g_id <$> filter (fun g => is_stuck now' g = true) (active_groups (jgroups c1))).
  change (groups (foldl (fail_stuck clk') (jgroups c1) gids) !! gid = Some g') in Hg'.
  assert (He2 : evolves (jgroups c1) (foldl (fail_stuck clk') (jgroups c1) gids)).
  { apply (evolves_foldl (fail_stuck clk') id). intros b x. apply evolves_fail_stuck. }
  destruct (ev_groups _ _ He2 _ _ Hg') as (g1 & Hg1 & _). destruct (ev_groups _ _ He1 _ _ Hg1) as (g & Hgid & _).
  destruct (stuck_all clk' gids (jgroups c1) gid g1 Hg1) as (g2 & Hg2 & Hf & Ha). assert (g2 = g') as -> by congruence.
  pose proof (reap_stale_groups clk now idle stall c gid g (go_wf _ Hg) Hgid) as Hs. fold c1 in Hs. cbv zeta in Hs.
  destruct (is_active g) eqn:Hact; [|simpl in Hs; apply Ha; congruence]. simpl in Hs.
  destruct (is_stale_group now idle stall (jgroups c) g) eqn:Hst.
  { destruct Hs as (g3 & Hg3 & H3). apply Ha. unfold is_active. assert (g3 = g1) as -> by congruence. by rewrite H3. }
  assert (g1 = g) as -> by congruence.
  destruct (Hold gid g Hgid Hact) as (Hidle & Hstall & Hhours).
  assert (Hrun : g_state g = GRunning).
  { destruct (go_engaged _ Hg gid g Hgid Hact) as [E|E]; [|done]. unfold is_stale_group in Hst. rewrite E in Hst.
    apply Z.ltb_ge in Hst. lia. }
  assert (Hin : gid ∈ gids).
  { unfold gids, active_groups. apply list_elem_of_fmap. exists g.
    destruct (go_wf _ (evolves_ok _ _ He1 Hg) gid g Hg1) as [Hid _]. split; [done|].
    rewrite !list_elem_of_filter, elem_of_hvalues. split_and!; [|done|eauto].
    unfold is_stuck. rewrite Hrun, bool_decide_eq_true_2 by done. by apply Z.leb_le. }
  unfold is_active. by rewrite (Hf Hin).
Qed.

Lemma every_group_closes_witness :
  let c := (sample_call 0 ∅ None idle_controller).2 in
  let c' := reap_stuck_groups (HI := map_iter) (secs 20000) (fun _ _ => secs 20000)
              (reap_stale_reservations (HI := map_iter) (fun _ _ => secs 20000) (secs 20000) 300 300 c) in
  map_Forall (fun _ g => is_active g = false) (groups (jgroups c')) /\ groups (jgroups c') !! 5%N <> None.
Proof.
  intros c c'. split; [|vm_compute; discriminate].
  apply (every_group_closes (HI := map_iter) idle_controller c _ _ _ _ _ _ idle_initial).
  - apply rtc_once, step_reserve; [reflexivity|reflexivity|apply idle_roomy].
  - intros gid g Hg _. assert (Hc : groups (jgroups c) = {[ 5%N := default (busy_group 5%N "w" 0 0) (groups (jgroups c) !! 5%N) ]})
      by (vm_compute; reflexivity).
    rewrite Hc in Hg. apply lookup_singleton_Some in Hg as [_ <-]. vm_compute. split_and!; congruence.
Defined.
