(* ===== verification/Schedules.v ===== *)
(** * Scheduled builds
    (crates/ci-core/src/models/schedule.rs; crates/ci-controller/src/storage.rs:
    cron_schedules; migration 010; api/schedule_handlers.rs; the task of
    grpc_server.rs that starts scheduled builds)

    The table is a keyed map of rows, as in [Catalog]. The task runs every minute:
    it asks for the schedules that are due, and for each of them reserves a worker
    with [do_reserve_worker] and records when it was triggered. *)

From Stdlib Require Import ZArith Lia.
From stdpp Require Import gmap strings list fin_maps sorting relations.
From S2P Require Import Prelude Text F64 WorkerModel JobModel StageModel Dag Scheduler WorkerRegistry JobRegistry JobGroupRegistry.
From S2P Require Import LogAggregator QueryParser QueryCompile Sql Controller Dispatch Reservation Session Json Web Handlers WorkerStore BuildStore.
From S2P Require Import Catalog Rules Variables Listing CatalogApi Configured System.

Record CronSchedule := {
  ch_id : Uuid;
  ch_repo_id : Uuid;
  ch_interval_secs : Z;
  ch_next_run_at : timestamp;
  ch_stages : list string;
  ch_branch : string;
  ch_enabled : bool;
  ch_last_triggered_at : option timestamp;
  ch_created_at : timestamp;
  ch_updated_at : timestamp
}.

Abbreviation ScheduleTable := (gmap Uuid CronSchedule) (only parsing).

(** ** cron_schedules *)

Definition create_cron_schedule (id : Uuid) (now : timestamp) (repo : Uuid) (interval_secs : Z) (stages : list string) (branch : string)
    (cat : Catalog) (t : ScheduleTable) : result CronSchedule string * ScheduleTable :=
  let row := {| ch_id := id; ch_repo_id := repo; ch_interval_secs := interval_secs; ch_next_run_at := now; ch_stages := stages;
                ch_branch := branch; ch_enabled := true; ch_last_triggered_at := None; ch_created_at := now; ch_updated_at := now |} in
  if negb (fits 255 branch) then (Err "value too long", t)
  else if bool_decide (is_Some (t !! id)) then (Err "duplicate key", t)
  else if bool_decide (is_Some (repos_table cat !! repo)) then (Ok row, <[id := row]> t)
  else (Err "foreign key", t).

Definition updated_schedule (now : timestamp) (interval_secs : option Z) (stages : option (list string)) (branch : option string)
    (enabled : option bool) (s : CronSchedule) : CronSchedule :=
  {| s with ch_interval_secs := default (ch_interval_secs s) interval_secs; ch_stages := default (ch_stages s) stages;
            ch_branch := default (ch_branch s) branch; ch_enabled := default (ch_enabled s) enabled; ch_updated_at := now |}.

Definition update_cron_schedule (id : Uuid) (now : timestamp) (interval_secs : option Z) (stages : option (list string)) (branch : option string)
    (enabled : option bool) (t : ScheduleTable) : result (option CronSchedule) string * ScheduleTable :=
  match t !! id with
  | None => (Ok None, t)
  | Some s =>
      let s' := updated_schedule now interval_secs stages branch enabled s in
      if negb (fits 255 (ch_branch s')) then (Err "value too long", t) else (Ok (Some s'), <[id := s']> t)
  end.

Definition delete_cron_schedule (id : Uuid) (t : ScheduleTable) : bool * ScheduleTable := (bool_decide (is_Some (t !! id)), delete id t).

Definition mark_schedule_triggered (id : Uuid) (now : timestamp) (t : ScheduleTable) : ScheduleTable :=
  alter (fun s => {| s with ch_last_triggered_at := Some now |}) id t.

(** [ON DELETE CASCADE] *)
Definition drop_schedules (cat : Catalog) (t : ScheduleTable) : ScheduleTable :=
  filter (fun kv => is_Some (repos_table cat !! ch_repo_id kv.2)) t.

Definition is_due (now : timestamp) (s : CronSchedule) : bool := ch_enabled s && (ch_next_run_at s <=? now).

Section Reading.
Context `{HI : HashIter}.

Definition list_cron_schedules_for_repo (repo : Uuid) (t : ScheduleTable) : list CronSchedule :=
  sort_by (fun a b => ch_created_at a ?= ch_created_at b) (filter (fun s => ch_repo_id s = repo) (hvalues t)).

Definition list_due_schedules (now : timestamp) (t : ScheduleTable) : list CronSchedule := filter (fun s => is_due now s = true) (hvalues t).

Lemma elem_of_due now t s : map_Forall (fun id s => ch_id s = id) t -> s ∈ list_due_schedules now t <-> t !! ch_id s = Some s /\ is_due now s = true.
Proof.
  intros Ht. unfold list_due_schedules. rewrite list_elem_of_filter, elem_of_hvalues. split; [intros [Hd [i Hi]]|intros [Hi Hd]].
  - split; [|done]. by rewrite (Ht i s Hi).
  - split; [done|]. by exists (ch_id s).
Qed.
End Reading.

(** ** Handlers *)

Record CreateScheduleRequest := {
  ce_interval_secs : Z;
  ce_stages : list string;
  ce_branch : string
}.

Record UpdateScheduleRequest := {
  ue_interval_secs : option Z;
  ue_stages : option (list string);
  ue_branch : option string;
  ue_enabled : option bool
}.

Definition default_branch : string := "main".

Definition de_i64 (v : Json) : option Z :=
  match v with Num z => if (- 2 ^ 63 <=? z) && (z <? 2 ^ 63) then Some z else None | _ => None end.

Definition create_schedule_request (j : Json) : option CreateScheduleRequest :=
  interval ← field j "interval_secs" de_i64 None;
  stages ← field j "stages" de_strs (Some []);
  branch ← field j "branch" as_str (Some default_branch);
  Some {| ce_interval_secs := interval; ce_stages := stages; ce_branch := branch |}.

Section Handlers.
Context `{HI : HashIter} (rfc3339 : timestamp -> string) (uuid_to_string : Uuid -> string).

Definition schedule_to_json (s : CronSchedule) : Json := Obj [
  ("id", Str (uuid_to_string (ch_id s))); ("repo_id", Str (uuid_to_string (ch_repo_id s))); ("interval_secs", Num (ch_interval_secs s));
  ("next_run_at", Str (rfc3339 (ch_next_run_at s))); ("stages", jstrs (ch_stages s)); ("branch", Str (ch_branch s));
  ("enabled", Json.Bool (ch_enabled s)); ("last_triggered_at", jopt (fun t => Str (rfc3339 t)) (ch_last_triggered_at s));
  ("created_at", Str (rfc3339 (ch_created_at s))); ("updated_at", Str (rfc3339 (ch_updated_at s)))].

Definition check_interval (secs : Z) : result unit ApiError :=
  if secs <? 60 then Err (BadRequest "interval_secs must be at least 60") else Ok tt.

Definition list_schedules (ok : bool) (repo : Uuid) (st : option ScheduleTable) : result Json ApiError :=
  reading ok st (fun t =>
    let rows := list_cron_schedules_for_repo repo t in
    Ok (Obj [("schedules", jarr schedule_to_json rows); ("count", Num (Z.of_nat (length rows)))])).

Definition create_schedule (ok : bool) (id : Uuid) (now : timestamp) (auth : AuthUser) (repo : Uuid) (b : CreateScheduleRequest)
    (cat : Catalog) (st : option ScheduleTable) : Reply ScheduleTable :=
  guarded auth
    (let? _ := check_interval (ce_interval_secs b) in
     if bool_decide (ce_stages b = []) then Err (BadRequest "stages cannot be empty") else Ok tt) st
    (fun t => answered ok t (create_cron_schedule id now repo (ce_interval_secs b) (ce_stages b) (ce_branch b) cat t)
                (fun s => Ok (schedule_to_json s))).

(** The repo in the path is not used. *)
Definition update_schedule (ok : bool) (now : timestamp) (auth : AuthUser) (_repo id : Uuid) (b : UpdateScheduleRequest)
    (st : option ScheduleTable) : Reply ScheduleTable :=
  guarded auth (if_some (ue_interval_secs b) check_interval) st (fun t =>
    answered ok t (update_cron_schedule id now (ue_interval_secs b) (ue_stages b) (ue_branch b) (ue_enabled b) t)
      (fun o => found "Schedule not found" o schedule_to_json)).

Definition delete_schedule (ok : bool) (auth : AuthUser) (_repo id : Uuid) (st : option ScheduleTable) : Reply ScheduleTable :=
  guarded auth (Ok tt) st (fun t =>
    answered ok t (Ok (delete_cron_schedule id t).1, (delete_cron_schedule id t).2) (deleted "Schedule not found")).
End Handlers.

(** ** The task *)

(** What one schedule of a tick meets: the clocks, ids and answers. *)
Record CronInputs := {
  ci_clock : clock;
  ci_gid : Uuid;
  ci_fresh_repo : Uuid;
  ci_repo : result (option StageModel.Repo) string;
  ci_answers : Answers;
  ci_seen : WorkerRegistry;
  ci_marked_at : option timestamp
}.

Definition cron_request (repo : StageModel.Repo) (s : CronSchedule) : ReserveWorkerRequest := {|
  rq_repo_name := repo_name repo; rq_repo_url := repo_url repo; rq_branch := ch_branch s; rq_commit_sha := ""; rq_stages := ch_stages s;
  rq_priority := 0; rq_idempotency_key := "" |}.

Section Task.
Context `{HI : HashIter} (regex_match : string -> string -> option bool) (uuid_to_string : Uuid -> string).

(** What the task did with a schedule, and what is left: the controller, the
    marks it made. A repo that is gone or cannot be read leaves the schedule
    unmarked. *)
Definition run_schedule (i : CronInputs) (s : CronSchedule) (c : Controller) (t : ScheduleTable)
    : option ReserveWorkerRequest * Controller * ScheduleTable :=
  match ci_repo i with
  | Ok (Some repo) =>
      let req := cron_request repo s in
      let c' := (do_reserve_worker regex_match uuid_to_string (ci_clock i) (ci_gid i) (ci_fresh_repo i) (Some (ci_answers i)) req (ci_seen i) c).2 in
      (Some req, c', match ci_marked_at i with Some now => mark_schedule_triggered (ch_id s) now t | None => t end)
  | _ => (None, c, t)
  end.

Fixpoint run_due (inputs : nat -> CronInputs) (due : list CronSchedule) (c : Controller) (t : ScheduleTable)
    : list (Uuid * ReserveWorkerRequest) * Controller * ScheduleTable :=
  match due with
  | [] => ([], c, t)
  | s :: due' =>
      let '(o, c1, t1) := run_schedule (inputs 0%nat) s c t in
      let '(asked, c2, t2) := run_due (fun k => inputs (S k)) due' c1 t1 in
      (match o with Some req => (ch_id s, req) :: asked | None => asked end, c2, t2)
  end.

(** One run of the loop; [None] is a database that does not answer. *)
Definition cron_tick (due : option (list CronSchedule)) (inputs : nat -> CronInputs) (c : Controller) (t : ScheduleTable)
    : list (Uuid * ReserveWorkerRequest) * Controller * ScheduleTable :=
  match due with Some due => run_due inputs due c t | None => ([], c, t) end.
End Task.

(** ** Schedules stay valid *)

(** At least a minute apart, under their own id, of a repo that exists. *)
Definition schedule_ok (cat : Catalog) (id : Uuid) (s : CronSchedule) : Prop :=
  ch_id s = id /\ 60 <= ch_interval_secs s /\ fits 255 (ch_branch s) = true /\ is_Some (repos_table cat !! ch_repo_id s).

Inductive schedule_step (rfc3339 : timestamp -> string) (us : Uuid -> string) (cat : Catalog) : ScheduleTable -> ScheduleTable -> Prop :=
| step_create_schedule ok id now auth repo b t t' :
    (create_schedule rfc3339 us ok id now auth repo b cat (Some t)).2 = Some t' -> schedule_step rfc3339 us cat t t'
| step_update_schedule ok now auth repo id b t t' :
    (update_schedule rfc3339 us ok now auth repo id b (Some t)).2 = Some t' -> schedule_step rfc3339 us cat t t'
| step_delete_schedule ok auth repo id t t' : (delete_schedule ok auth repo id (Some t)).2 = Some t' -> schedule_step rfc3339 us cat t t'
| step_mark id now t : schedule_step rfc3339 us cat t (mark_schedule_triggered id now t).

Lemma interval_ok secs : check_interval secs = Ok tt -> 60 <= secs.
Proof. unfold check_interval. destruct (Z.ltb_spec secs 60); done. Qed.

Lemma schedule_step_ok rfc3339 us cat t t' :
  schedule_step rfc3339 us cat t t' -> map_Forall (schedule_ok cat) t -> map_Forall (schedule_ok cat) t'.
Proof.
  intros Hstep Ht. destruct Hstep as [ok id now auth repo b t t' H|ok now auth repo id b t t' H|ok auth repo id t t' H|id now t].
  - apply guarded_statement in H as [->|(Hc & _ & ->)]; [done|]. checks Hc. unfold create_cron_schedule.
    destruct (fits 255 _) eqn:Ef; [|done]. simpl.
    destruct (bool_decide (is_Some (t !! id))); [done|]. destruct (bool_decide (is_Some (repos_table cat !! repo))) eqn:Hr; [|done]. apply bool_decide_eq_true in Hr. simpl.
    apply map_Forall_insert_2; [|done]. split_and!; [done|by apply interval_ok|done|done].
  - apply guarded_statement in H as [->|(Hc & _ & ->)]; [done|]. unfold update_cron_schedule. destruct (t !! id) as [s|] eqn:Es; [|done].
    destruct (fits 255 _) eqn:Ef; [|done]. simpl. destruct (Ht id s Es) as (H1 & H2 & H3 & H4). apply map_Forall_insert_2; [|done].
    split_and!; [done| |done|done]. simpl. by apply (check_if_some (fun z => 60 <= z) check_interval (ue_interval_secs b)); [apply interval_ok|..].
  - apply guarded_statement in H as [->|(_ & _ & ->)]; [done|]. by apply map_Forall_delete.
  - intros i s Hs. unfold mark_schedule_triggered in Hs. destruct (decide (i = id)) as [->|Hne]; [|rewrite lookup_alter_ne in Hs by done; by apply (Ht i)].
    rewrite lookup_alter_eq in Hs. apply fmap_Some in Hs as (s0 & Hs0 & ->). exact (Ht id s0 Hs0).
Qed.

(** ** What a tick does *)

(** What the task never changes of a schedule. *)
Definition plan_of (s : CronSchedule) : Uuid * (Z * timestamp * list string * string * bool) :=
  (ch_repo_id s, (ch_interval_secs s, ch_next_run_at s, ch_stages s, ch_branch s, ch_enabled s)).

Lemma mark_keeps_plan id now t : plan_of <$> mark_schedule_triggered id now t = plan_of <$> t.
Proof.
  unfold mark_schedule_triggered. apply map_eq. intros i. rewrite !lookup_fmap. destruct (decide (i = id)) as [->|Hne].
  - rewrite lookup_alter_eq. by destruct (t !! id).
  - by rewrite lookup_alter_ne.
Qed.

(** The request made for the k-th schedule, if its repo is found. *)
Definition asked_for (inputs : nat -> CronInputs) (ks : nat * CronSchedule) : option (Uuid * ReserveWorkerRequest) :=
  match ci_repo (inputs ks.1) with Ok (Some repo) => Some (ch_id ks.2, cron_request repo ks.2) | _ => None end.

Lemma asked_later inputs (l : list (nat * CronSchedule)) : omap (asked_for inputs) ((fun ks : nat * CronSchedule => (S ks.1, ks.2)) <$> l) = omap (asked_for (fun k => inputs (S k))) l.
Proof. induction l as [|[k s] l IH]; [done|]. simpl.
  change (asked_for (fun k0 => inputs (S k0)) (k, s)) with (asked_for inputs (S k, s)). destruct (asked_for inputs (S k, s)); [f_equal|]; exact IH.
Qed.

Section Tick.
Context `{HI : HashIter} (regex_match : string -> string -> option bool) (uuid_to_string : Uuid -> string).

Lemma run_due_table due : forall inputs c t,
  let '(_, _, t') := run_due regex_match uuid_to_string inputs due c t in plan_of <$> t' = plan_of <$> t.
Proof.
  induction due as [|s due IH]; intros inputs c t; [done|]. simpl. unfold run_schedule.
  assert (Hnext : forall c1 t1, plan_of <$> t1 = plan_of <$> t ->
    let '(_, _, t') := run_due regex_match uuid_to_string (fun k => inputs (S k)) due c1 t1 in plan_of <$> t' = plan_of <$> t).
  { intros c1 t1 E. specialize (IH (fun k => inputs (S k)) c1 t1). destruct (run_due _ _ _ due c1 t1) as [[a c2] t2]. by rewrite IH. }
  destruct (ci_repo (inputs 0%nat)) as [[repo|]|].
  - specialize (Hnext (do_reserve_worker regex_match uuid_to_string (ci_clock (inputs 0%nat)) (ci_gid (inputs 0%nat)) (ci_fresh_repo (inputs 0%nat))
      (Some (ci_answers (inputs 0%nat))) (cron_request repo s) (ci_seen (inputs 0%nat)) c).2
      (match ci_marked_at (inputs 0%nat) with Some now => mark_schedule_triggered (ch_id s) now t | None => t end)).
    destruct (run_due _ _ _ due _ _) as [[a c2] t2]. apply Hnext. destruct (ci_marked_at _); [apply mark_keeps_plan|done].
  - specialize (Hnext c t eq_refl). by destruct (run_due _ _ _ due c t) as [[a c2] t2].
  - specialize (Hnext c t eq_refl). by destruct (run_due _ _ _ due c t) as [[a c2] t2].
Qed.

Lemma run_due_asks due : forall inputs c t,
  (run_due regex_match uuid_to_string inputs due c t).1.1 = omap (asked_for inputs) (imap pair due).
Proof.
  induction due as [|s due IH]; intros inputs c t; [done|]. cbn [run_due]. unfold run_schedule.
  assert (Hrest : forall c1 t1, (run_due regex_match uuid_to_string (fun k => inputs (S k)) due c1 t1).1.1 =
    omap (asked_for inputs) (imap (pair ∘ S) due)).
  { intros c1 t1. rewrite IH, <- asked_later, fmap_imap. f_equal. }
  change (imap pair (s :: due)) with ((0%nat, s) :: imap (pair ∘ S) due). simpl. unfold asked_for at 1. simpl.
  destruct (ci_repo (inputs 0%nat)) as [[repo|]|].
  - match goal with |- context [run_due _ _ _ due ?c1 ?t1] => specialize (Hrest c1 t1); destruct (run_due _ _ _ due c1 t1) as [[a c2] t2] end.
    simpl in *. by rewrite Hrest.
  - specialize (Hrest c t). by destruct (run_due _ _ _ due c t) as [[a c2] t2].
  - specialize (Hrest c t). by destruct (run_due _ _ _ due c t) as [[a c2] t2].
Qed.
End Tick.

(** Ticks in sequence, at their times. *)
Fixpoint run_ticks `{HI : HashIter} (rm : string -> string -> option bool) (us : Uuid -> string) (ticks : list (timestamp * (nat -> CronInputs)))
    (c : Controller) (t : ScheduleTable) : list (list (Uuid * ReserveWorkerRequest)) * Controller * ScheduleTable :=
  match ticks with
  | [] => ([], c, t)
  | (now, inputs) :: ticks' =>
      let '(asked, c1, t1) := cron_tick rm us (Some (list_due_schedules now t)) inputs c t in
      let '(rest, c2, t2) := run_ticks rm us ticks' c1 t1 in (asked :: rest, c2, t2)
  end.

(** The schedules a plan of the table makes due. *)
Definition due_in (t : ScheduleTable) (now : timestamp) (id : Uuid) : Prop := exists s, t !! id = Some s /\ is_due now s = true.

Lemma due_in_plan t t' now id : plan_of <$> t' = plan_of <$> t -> due_in t' now id -> due_in t now id.
Proof.
  intros E (s & Hs & Hd). apply (f_equal (.!! id)) in E. rewrite !lookup_fmap, Hs in E. destruct (t !! id) as [s0|] eqn:Hs0; [|done].
  exists s0. split; [done|]. injection E as _ _ En _ _ Ee. unfold is_due in *. by rewrite <- En, <- Ee.
Qed.

Lemma mark_keyed id now (t : ScheduleTable) : map_Forall (fun id s => ch_id s = id) t -> map_Forall (fun id s => ch_id s = id) (mark_schedule_triggered id now t).
Proof.
  intros Ht i s Hs. unfold mark_schedule_triggered in Hs. destruct (decide (i = id)) as [->|Hne]; [|rewrite lookup_alter_ne in Hs by done; by apply (Ht i)].
  rewrite lookup_alter_eq in Hs. apply fmap_Some in Hs as (s0 & Hs0 & ->). exact (Ht id s0 Hs0).
Qed.

Section Ticks.
Context `{HI : HashIter} (rm : string -> string -> option bool) (us : Uuid -> string).

Lemma run_due_keyed due : forall inputs c t, map_Forall (fun id s => ch_id s = id) t ->
  map_Forall (fun id s => ch_id s = id) (run_due rm us inputs due c t).2.
Proof.
  induction due as [|s due IH]; intros inputs c t Ht; [done|]. simpl. unfold run_schedule.
  assert (Hnext : forall c1 t1, map_Forall (fun id s => ch_id s = id) t1 ->
    map_Forall (fun id s => ch_id s = id) (run_due rm us (fun k => inputs (S k)) due c1 t1).2) by (intros; by apply IH).
  destruct (ci_repo (inputs 0%nat)) as [[repo|]|].
  - match goal with |- context [run_due _ _ _ due ?c1 ?t1] => specialize (Hnext c1 t1); destruct (run_due _ _ _ due c1 t1) as [[a c2] t2] end.
    apply Hnext. destruct (ci_marked_at _); [by apply mark_keyed|done].
  - specialize (Hnext c t Ht). by destruct (run_due _ _ _ due c t) as [[a c2] t2].
  - specialize (Hnext c t Ht). by destruct (run_due _ _ _ due c t) as [[a c2] t2].
Qed.

(** A tick whose repos are all found asks for what is due, once. *)
Lemma asked_ids inputs due : (forall k, exists repo, ci_repo (inputs k) = Ok (Some repo)) -> (omap (asked_for inputs) (imap pair due)).*1 = ch_id <$> due.
Proof.
  revert inputs. induction due as [|s due IH]; intros inputs Hrepo; [done|].
  change (imap pair (s :: due)) with ((0%nat, s) :: imap (pair ∘ S) due). simpl. unfold asked_for at 1. simpl. destruct (Hrepo 0%nat) as [repo ->]. simpl. f_equal.
  etrans; [|apply (IH (fun k => inputs (S k))); intros k; apply Hrepo]. by rewrite <- asked_later, fmap_imap.
Qed.

Lemma due_ids_nodup now t : map_Forall (fun id s => ch_id s = id) t -> NoDup (ch_id <$> list_due_schedules now t).
Proof.
  intros Ht. unfold list_due_schedules. apply NoDup_fmap_filter.
  unfold hvalues. rewrite <- list_fmap_compose.
  assert (E : (ch_id ∘ snd) <$> hiter t = (hiter t).*1).
  { apply list_fmap_ext. intros k [i s] Hk. apply list_elem_of_lookup_2 in Hk. apply elem_of_hiter in Hk. by apply (Ht i s). }
  rewrite E, hiter_perm. apply NoDup_fst_map_to_list.
Qed.
End Ticks.

(** A schedule, once due, is due at every tick. However ticks follow one
    another, as long as the database answers and the repos are there, each asks
    once for every schedule that is enabled and whose first run has come, and for
    no other; what was asked before plays no part, and neither does the interval
    of the schedule, since no tick changes when it is to run next. *)
Theorem due_at_every_tick `{HI : HashIter} (rm : string -> string -> option bool) (us : Uuid -> string)
    (ticks : list (timestamp * (nat -> CronInputs))) (c : Controller) (t : ScheduleTable) :
  map_Forall (fun id s => ch_id s = id) t ->
  Forall (fun tick => forall k, exists repo, ci_repo (tick.2 k) = Ok (Some repo)) ticks ->
  let '(asked, _, t') := run_ticks rm us ticks c t in
  Forall2 (fun (tick : timestamp * (nat -> CronInputs)) l => NoDup l.*1 /\ forall id, id ∈ l.*1 <-> due_in t tick.1 id) ticks asked /\
  plan_of <$> t' = plan_of <$> t.
Proof.
  revert c t. induction ticks as [|[now inputs] ticks IH]; intros c t Ht Hrepos; [by split; [constructor|]|].
  apply Forall_cons in Hrepos as [Hrepo Hrepos]. simpl in Hrepo. cbn [run_ticks cron_tick].
  pose proof (run_due_table rm us (list_due_schedules now t) inputs c t) as Hplan.
  pose proof (run_due_asks rm us (list_due_schedules now t) inputs c t) as Hasks.
  pose proof (run_due_keyed rm us (list_due_schedules now t) inputs c t Ht) as Ht1.
  destruct (run_due rm us inputs _ c t) as [[asked c1] t1]. simpl in Hasks, Ht1.
  specialize (IH c1 t1 Ht1 Hrepos). destruct (run_ticks rm us ticks c1 t1) as [[rest c2] t2]. destruct IH as [IH1 IH2].
  split; [|by rewrite IH2]. constructor.
  - simpl. rewrite Hasks, (asked_ids inputs _ Hrepo). split; [by apply due_ids_nodup|]. intros id. rewrite list_elem_of_fmap. split.
    + intros (s & -> & Hs). apply (elem_of_due now t s Ht) in Hs as [Hs Hd]. by exists s.
    + intros (s & Hs & Hd). exists s. pose proof (Ht id s Hs) as <-. split; [done|]. by apply (elem_of_due now t s Ht).
  - apply (Forall2_impl _ _ _ _ IH1). intros [now' inputs'] l [Hn Hl]. split; [done|]. intros id. rewrite Hl.
    split; apply due_in_plan; [done|by symmetry].
Qed.

(** ** A tick is a sequence of steps of the controller *)

(** Room for so many of the largest builds on every worker. *)
Definition room_for (n : Z) (c : Controller) : Prop :=
  map_Forall (fun _ w => worker_wf w /\ ws_allocated_cpu w + n * 1024 < 2 ^ 32 /\ ws_allocated_memory_mb w + n * 1048576 < 2 ^ 64 /\
                         ws_allocated_disk_mb w + n * 10485760 < 2 ^ 64) (workers c).

Section Steps.
Context `{HI : HashIter} `{CO : Collation} (rm : string -> string -> option bool) (us : Uuid -> string).
Context (cat : Catalog).

(** The answers to the k-th reservation are those of the catalog. *)
Definition asked_in (inputs : nat -> CronInputs) (due : list CronSchedule) : Prop :=
  forall k s repo, due !! k = Some s -> ci_repo (inputs k) = Ok (Some repo) -> asked_of_catalog cat (cron_request repo s) (ci_answers (inputs k)).

(** The group ids that are drawn are new. *)
Definition new_gids (inputs : nat -> CronInputs) (n : nat) (c : Controller) : Prop :=
  forall k, (k < n)%nat -> groups (jgroups c) !! ci_gid (inputs k) = None /\ group_jobs (jgroups c) !! ci_gid (inputs k) = None /\
    forall j, (j < k)%nat -> ci_gid (inputs j) <> ci_gid (inputs k).

Lemma reserve_effect clk gid fr st req seen c :
  let c' := (do_reserve_worker rm us clk gid fr st req seen c).2 in
  (forall i, i <> gid -> groups (jgroups c') !! i = groups (jgroups c) !! i /\ group_jobs (jgroups c') !! i = group_jobs (jgroups c) !! i) /\
  (workers c' = workers c \/ exists id, accepts (compute_resource_needs st req) (workers c) id = true /\
     workers c' = grant (compute_resource_needs st req) id (workers c)).
Proof.
  cbv zeta. destruct (do_reserve_worker _ _ _ _ _ _ _ _ c) as [r c'] eqn:E. simpl.
  apply do_reserve_worker_cases in E as [[-> _]|(p & id & _ & _ & _ & Hacc & E)]; [by split; [|left]|].
  apply commit_group_cases in E as [Ew Ej]. split; [|right; by exists id].
  destruct r as [[rs d]|]; destruct Ej as [-> _]; [|done]. intros i Hi. simpl. split; [by apply lookup_insert_ne|].
  destruct (group_jobs _ !! gid); [done|by apply lookup_insert_ne].
Qed.

Lemma room_fits n k c : 0 <= n -> ar_cpu k <= 1024 /\ ar_memory_mb k <= 1048576 /\ ar_disk_mb k <= 10485760 -> (forall r, 0 <= amount r k) ->
  room_for (n + 1) c -> roomy k c.
Proof.
  intros Hn Hk Hpos Hc id w Hw. destruct (Hc id w Hw) as (Hwf & H1 & H2 & H3). split; [done|]. unfold needs_fit, no_overflow.
  pose proof (Hpos CPU) as Pc. pose proof (Hpos MEM) as Pm. pose proof (Hpos DISK) as Pd. simpl in Pc, Pm, Pd. lia.
Qed.

Lemma reserve_room n clk gid fr db req seen c rfc us' : 0 <= n -> rtc (catalog_step rfc us') empty_catalog cat -> asked_of_catalog cat req db ->
  room_for (n + 1) c -> room_for n (do_reserve_worker rm us clk gid fr (Some db) req seen c).2.
Proof.
  intros Hn Hcat Hask Hc. pose proof (needs_within rfc us' cat req db Hcat Hask) as Hk. pose proof (needs_nonneg (Some db) req) as Hpos.
  cbv zeta in Hk. destruct (reserve_effect clk gid fr (Some db) req seen c) as [_ Hw]. revert Hk Hpos Hw. set (k := compute_resource_needs (Some db) req).
  intros Hk Hpos Hw. pose proof (room_fits n k c Hn Hk Hpos Hc) as Hfit.
  assert (Hweak : room_for n c) by (intros id w Hid; destruct (Hc id w Hid) as (? & ? & ? & ?); split_and!; [done|lia..]).
  unfold room_for. destruct Hw as [->|(id & Hacc & ->)]; [done|]. intros i w Hi. destruct (decide (i = id)) as [->|Hne].
  - destruct (accepts_lookup _ _ _ Hacc) as [w0 Hw0]. destruct (Hfit id w0 Hw0) as [Hwf Hf]. destruct (Hc id w0 Hw0) as (_ & H1 & H2 & H3).
    destruct (grant_lookup k id (workers c) w0 Hw0 Hwf Hf Hpos Hacc) as (w' & Hw' & Hwf' & _ & _ & Hcount). rewrite Hw' in Hi. injection Hi as <-.
    destruct (Hcount CPU) as [Ec _]. destruct (Hcount MEM) as [Em _]. destruct (Hcount DISK) as [Ed _]. simpl in Ec, Em, Ed. split; [done|]. lia.
  - rewrite grant_other in Hi by done. by apply Hweak in Hi.
Qed.

Lemma run_due_steps due rfc us' : rtc (catalog_step rfc us') empty_catalog cat -> forall inputs c t, asked_in inputs due ->
  new_gids inputs (length due) c -> room_for (Z.of_nat (length due)) c -> rtc ctl_step c (run_due rm us inputs due c t).1.2.
Proof.
  intros Hcat. induction due as [|s due IH]; intros inputs c t Hask Hnew Hroom; [apply rtc_refl|]. simpl. unfold run_schedule.
  replace (Z.of_nat (length (s :: due))) with (Z.of_nat (length due) + 1) in Hroom by (simpl length; lia).
  assert (Hnext : forall c1 t1, room_for (Z.of_nat (length due)) c1 ->
    (forall i, i <> ci_gid (inputs 0%nat) -> groups (jgroups c1) !! i = groups (jgroups c) !! i /\ group_jobs (jgroups c1) !! i = group_jobs (jgroups c) !! i) ->
    rtc ctl_step c1 (run_due rm us (fun k => inputs (S k)) due c1 t1).1.2).
  { intros c1 t1 Hr Hsame. apply IH; [|intros k Hk|done].
    - intros k s' repo Hs' Hrepo. by apply (Hask (S k)).
    - destruct (Hnew (S k) ltac:(simpl; lia)) as (H1 & H2 & H3). destruct (Hsame (ci_gid (inputs (S k)))) as [E1 E2]; [apply not_eq_sym, H3; lia|].
      rewrite E1, E2. split_and!; [done|done|]. intros j Hj. apply H3. lia. }
  assert (Hskip : room_for (Z.of_nat (length due)) c) by (intros id w Hid; destruct (Hroom id w Hid) as (? & ? & ? & ?); split_and!; [done|lia..]).
  destruct (ci_repo (inputs 0%nat)) as [[repo|]|] eqn:Er.
  - match goal with |- context [run_due _ _ _ due ?c1 ?t1] => specialize (Hnext c1 t1); destruct (run_due _ _ _ due c1 t1) as [[a c2] t2] end.
    simpl in *. pose proof (Hask 0%nat s repo eq_refl Er) as Ha.
    destruct (Hnew 0%nat ltac:(lia)) as (H1 & H2 & _). eapply rtc_l; [|apply Hnext].
    + apply step_reserve; [done|done|]. eapply room_fits; [|by eapply needs_within|apply needs_nonneg|exact Hroom]. lia.
    + eapply reserve_room; [lia|done|done|done].
    + apply reserve_effect.
  - specialize (Hnext c t Hskip ltac:(done)). by destruct (run_due _ _ _ due c t) as [[a c2] t2].
  - specialize (Hnext c t Hskip ltac:(done)). by destruct (run_due _ _ _ due c t) as [[a c2] t2].
Qed.
End Steps.

(** C38. Scheduled builds keep the books. A tick whose reservations are answered
    from a catalog that the API produced, and draw new ids, is a sequence of steps
    of the controller, as long as every worker has room for one largest build per
    due schedule: what holds in every reachable state, the workers' caps among it,
    holds after the tick. *)
Theorem tick_is_steps `{HI : HashIter} `{CO : Collation} (rm : string -> string -> option bool) (us : Uuid -> string)
    (rfc3339 : timestamp -> string) (cat : Catalog) (now : timestamp) (inputs : nat -> CronInputs) (c : Controller) (t : ScheduleTable) :
  rtc (catalog_step rfc3339 us) empty_catalog cat -> asked_in cat inputs (list_due_schedules now t) ->
  new_gids inputs (length (list_due_schedules now t)) c -> room_for (Z.of_nat (length (list_due_schedules now t))) c ->
  rtc ctl_step c (cron_tick rm us (Some (list_due_schedules now t)) inputs c t).1.2.
Proof. intros Hcat Hask Hnew Hroom. by apply (run_due_steps rm us cat _ rfc3339 us Hcat). Qed.

(** ** A schedule *)

Definition nightly : CronSchedule := {|
  ch_id := 8%N; ch_repo_id := 1%N; ch_interval_secs := 86400; ch_next_run_at := 0; ch_stages := ["build"]; ch_branch := "main"; ch_enabled := true;
  ch_last_triggered_at := None; ch_created_at := 0; ch_updated_at := 0 |}.

Definition chola : StageModel.Repo := rp_repo (new_repo 1%N 0 "chola" "https://git/chola" "main" None None None None).

Definition cron_inputs (gid : Uuid) (_ : nat) : CronInputs := {|
  ci_clock := fun _ => 9; ci_gid := gid; ci_fresh_repo := 6%N; ci_repo := Ok (Some chola); ci_answers := chola_answers;
  ci_seen := workers reserved_controller; ci_marked_at := Some 9 |}.

(** Two ticks a minute apart start a build that should run daily twice. *)
Lemma due_at_every_tick_witness :
  let '(asked, _, t') := run_ticks (HI := map_iter) (fun _ _ => None) plain_id
    [(0, cron_inputs 20%N); (60 * 10 ^ 9, cron_inputs 21%N)] reserved_controller {[ 8%N := nightly ]} in
  (exists a b, asked = [a; b] /\ 8%N ∈ a.*1 /\ 8%N ∈ b.*1) /\ ch_interval_secs <$> t' !! 8%N = Some 86400.
Proof.
  pose proof (due_at_every_tick (HI := map_iter) (fun _ _ => None) plain_id [(0, cron_inputs 20%N); (60 * 10 ^ 9, cron_inputs 21%N)]
    reserved_controller {[ 8%N := nightly ]} (proj2 (map_Forall_singleton _ 8%N nightly) eq_refl)) as H.
  destruct (run_ticks _ _ _ _ _) as [[asked c'] t'].
  destruct H as [Hall Hplan].
  { apply Forall_cons; split; [intros k; exists chola; reflexivity|]. apply Forall_cons; split; [intros k; exists chola; reflexivity|apply Forall_nil; exact I]. }
  split.
  - inversion_clear Hall as [|x a l1 rest [_ Ha] Hrest]. inversion_clear Hrest as [|y b l2 rest2 [_ Hb] Hnil]. inversion Hnil. subst.
    exists a, b. split; [reflexivity|]. split; [apply Ha|apply Hb]; exists nightly; split; reflexivity.
  - apply (f_equal (.!! 8%N)) in Hplan. rewrite !lookup_fmap in Hplan. change ({[ 8%N := nightly ]} !! 8%N) with (Some nightly) in Hplan.
    destruct (t' !! 8%N) as [s|]; [|discriminate Hplan]. injection Hplan as _ Hs _ _ _ _. simpl. rewrite Hs. reflexivity.
Defined.

Lemma tick_is_steps_witness :
  let c' := (cron_tick (HI := map_iter) (fun _ _ => None) plain_id (Some (list_due_schedules (HI := map_iter) 0 {[ 8%N := nightly ]}))
               (cron_inputs 20%N) reserved_controller {[ 8%N := nightly ]}).1.2 in
  rtc ctl_step reserved_controller c' /\ ws_allocated_cpu <$> workers c' !! "w"%string = Some 4.
Proof.
  split; [|vm_compute; reflexivity].
  assert (Hdue : list_due_schedules (HI := map_iter) 0 {[ 8%N := nightly ]} = [nightly]) by (vm_compute; reflexivity).
  apply (tick_is_steps (HI := map_iter) (CO := byte_collation) (fun _ _ => None) plain_id plain_date with_own_script 0 (cron_inputs 20%N) reserved_controller
    {[ 8%N := nightly ]} own_script_reached); rewrite Hdue.
  - intros k s repo Hk [= <-]. apply list_lookup_singleton_Some in Hk as [_ <-]. split; [reflexivity|].
    intros row Hrow. vm_compute in Hrow. injection Hrow as <-. reflexivity.
  - intros k Hk. assert (k = 0%nat) as -> by (simpl in Hk; lia). split; [reflexivity|]. split; [reflexivity|]. intros j Hj. lia.
  - apply map_Forall_singleton. split; [apply sample_worker_wf|]. vm_compute. split; [reflexivity|]. split; reflexivity.
Defined.

(** Stages must be named when a schedule is made, but not when it is changed; a
    schedule without stages builds all of them. *)
Example stages_emptied :
  let t := {[ 8%N := nightly ]} in
  let none := {| ue_interval_secs := None; ue_stages := Some []; ue_branch := None; ue_enabled := None |} in
  let empty := {| ce_interval_secs := 60; ce_stages := []; ce_branch := default_branch |} in
  is_ok (create_schedule plain_date plain_id true 9%N 0 editor 1%N empty with_repo (Some t)).1 = false /\
  is_ok (update_schedule plain_date plain_id true 0 editor 1%N 8%N none (Some t)).1 = true.
Proof. vm_compute. split; reflexivity. Qed.
