(* ===== verification/Watch.v ===== *)
(** * Watching and reading logs
    (crates/ci-controller/src/grpc_server.rs: watch_job_logs, acquire_lock,
    release_lock; api/log_handlers.rs; [get_job] of storage.rs)

    [LogAggregator] gives a subscriber what is buffered and the receiving end of
    the job's broadcast channel. The two handlers here relay both to a client, one
    over gRPC and one as server-sent events. The relay runs beside the rest of the
    controller: a world is the job registry, the aggregator and one relay, and its
    events are what happens to each of them, in any order. The receiving end of a
    channel is an interface with what tokio documents about it; the decoding of
    bytes that are not UTF-8 is a parameter. *)

From Stdlib Require Import ZArith Lia Ascii.
From stdpp Require Import gmap strings list fin_maps.
From S2P Require Import Prelude Text F64 WorkerModel JobModel StageModel JobRegistry LogStreamer LogAggregator RedisStore Json.

(** ** Broadcast channels *)

Inductive rx_event :=
| RxChunk (c : LogChunkData)
| RxLagged (n : nat)
| RxClosed
| RxPending.

(** [broadcast_capacity] *)
Definition CAPACITY : nat := 256.

(** [recv] of a receiver that is at position [pos] of all that was sent, while the
    sender is there or not. A receiver that is more than the capacity behind is
    told how much it missed, and goes on with what is retained. *)
Class Broadcast := {
  try_recv : list LogChunkData -> bool -> nat -> rx_event * nat;
  recv_next : forall sent alive pos c,
    sent !! pos = Some c -> (length sent - pos <= CAPACITY)%nat -> try_recv sent alive pos = (RxChunk c, S pos);
  recv_lagged : forall sent alive pos,
    (CAPACITY < length sent - pos)%nat ->
    exists n, (0 < n <= length sent - pos)%nat /\ try_recv sent alive pos = (RxLagged n, (pos + n)%nat);
  recv_end : forall sent alive pos,
    (length sent <= pos)%nat -> try_recv sent alive pos = (if alive then RxPending else RxClosed, pos)
}.

(** ** The relay *)

(** [wt_entry] is the aggregator's name for the job when the client subscribed;
    [wt_queue] is what was sent on the channel, [wt_alive] whether its sender is
    still there. *)
Record Watch (M : Type) := {
  wt_entry : string;
  wt_chan : nat;
  wt_queue : list LogChunkData;
  wt_alive : bool;
  wt_pos : nat;
  wt_out : list M;
  wt_open : bool
}.
Arguments wt_entry {M}.
Arguments wt_chan {M}.
Arguments wt_queue {M}.
Arguments wt_alive {M}.
Arguments wt_pos {M}.
Arguments wt_out {M}.
Arguments wt_open {M}.

Definition put {M : Type} (m : M) (w : Watch M) : Watch M := {| w with wt_out := wt_out w ++ [m] |}.
Definition leave {M : Type} (w : Watch M) : Watch M := {| w with wt_open := false |}.

(** The queue as the channel has it now; a channel that is gone keeps what it
    held. *)
Definition observe {M : Type} (a : LogAggregator) (w : Watch M) : Watch M :=
  match jobs a !! wt_entry w with
  | Some st =>
      if bool_decide (chan_id (broadcast_tx st) = wt_chan w)
      then {| w with wt_queue := chan_sent (broadcast_tx st); wt_alive := true |} else {| w with wt_alive := false |}
  | None => {| w with wt_alive := false |}
  end.

Section Relay.
Context {B : Broadcast} {M : Type} (forward : LogChunkData -> M) (farewell : list M).

(** The last words are sent whether or not the client is there. *)
Definition hang_up (w : Watch M) : Watch M := leave {| w with wt_out := wt_out w ++ farewell |}.

(** [taken n]: the client takes the n-th message. *)
Fixpoint say_all (taken : nat -> bool) (n : nat) (chunks : list LogChunkData) (w : Watch M) : Watch M :=
  match chunks with
  | [] => w
  | c :: cs => if taken n then say_all taken (S n) cs (put (forward c) w) else leave w
  end.

Definition open_relay (taken : nat -> bool) (job_id : string) (from_offset : Z) (a : LogAggregator) : Watch M * LogAggregator :=
  let '(buffered, rx, initially_complete, a') := subscribe job_id from_offset a in
  let w := say_all taken 0 buffered (observe a' {|
    wt_entry := resolve_job_id job_id a; wt_chan := rx_chan rx; wt_queue := []; wt_alive := true; wt_pos := rx_from rx;
    wt_out := []; wt_open := true |}) in
  (if wt_open w && initially_complete then hang_up w else w, a').

Definition receive (taken : bool) (w : Watch M) : Watch M :=
  if wt_open w then
    match try_recv (wt_queue w) (wt_alive w) (wt_pos w) with
    | (RxChunk c, p) => let w' := {| w with wt_pos := p |} in if taken then put (forward c) w' else leave w'
    | (RxClosed, _) => hang_up w
    | (RxLagged _, p) => {| w with wt_pos := p |}
    | (RxPending, _) => w
    end
  else w.
End Relay.

(** ** watch_job_logs *)

Definition to_log_chunk (job_id : string) (c : LogChunkData) : LogChunk := {|
  lc_worker_id := cd_worker_id c;
  lc_job_id := job_id;
  lc_offset := cd_offset c;
  lc_data := cd_data c;
  lc_timestamp_unix := cd_timestamp_unix c
|}.

Record WatchJobLogsRequest := {
  wl_job_id : string;
  wl_from_offset : Z;
  wl_job_group_id : string;
  wl_stage_name : string
}.

Definition watch_job_logs (taken : nat -> bool) (req : WatchJobLogsRequest) (a : LogAggregator) : Watch LogChunk * LogAggregator :=
  open_relay (to_log_chunk (wl_job_id req)) [] taken (wl_job_id req) (wl_from_offset req) a.

Definition job_complete (job_id : string) (js : JobRegistry) : bool :=
  match get_job job_id js with
  | Some job => match j_state job with JSuccess | JFailed | JCancelled => true | _ => false end
  | None => false
  end.

(** The check of every second. *)
Definition watch_tick (job_id : string) (js : JobRegistry) (a : LogAggregator) (w : Watch LogChunk) : Watch LogChunk :=
  if wt_open w && job_complete job_id js && is_complete job_id a then leave w else w.

(** ** Server-sent events *)

Inductive SseEvent :=
| Data (payload : Json)
| Complete (payload : Json).

Section Sse.
Context {B : Broadcast} (lossy : string -> string).

Definition sse_payload (c : LogChunkData) : SseEvent :=
  Data (Obj [("offset", Num (cd_offset c)); ("data", Str (lossy (cd_data c)))]).

Definition sse_farewell : list SseEvent := [Complete (Obj [])].

Definition stream_logs_handler (taken : nat -> bool) (job_id : string) (from_offset : option Z) (a : LogAggregator)
    : Watch SseEvent * LogAggregator :=
  open_relay sse_payload sse_farewell taken job_id (default 0 from_offset) a.

Definition sse_receive (taken : bool) (w : Watch SseEvent) : Watch SseEvent := receive sse_payload sse_farewell taken w.
End Sse.

(** ** get_logs *)

(** [get_job] of storage.rs, over the rows of [jobs] by id *)
Definition get_job_row (ok : bool) (id : string) (rows : gmap string DbJob) : result (option DbJob) string :=
  if ok then Ok (rows !! id) else Err "database".

Section GetLogs.
Context (lossy : string -> string) (parse_uuid : string -> option Uuid) (uuid_to_string : Uuid -> string).

(** [read_to_string] refuses what is not UTF-8. *)
Definition read_text (path : string) (disk : gmap string string) : option string :=
  contents ← disk !! path; if is_utf8 contents then Some contents else None.

Definition get_log_string (job_id : string) (a : LogAggregator) : string :=
  let data := get_log_data job_id a in
  if negb (bool_decide (data = EmptyString)) then lossy data
  else
    match LogAggregator.log_dir a with
    | None => EmptyString
    | Some dir =>
        let id := resolve_job_id job_id a in
        match structured ← job_log_paths a !! id; read_text (dir +:+ "/" +:+ structured)%string (disk a) with
        | Some contents => contents
        | None => default EmptyString (read_text (dir +:+ "/" +:+ id +:+ ".log")%string (disk a))
        end
    end.

Record LogReply := {
  lq_job_id : string;
  lq_data : string;
  lq_last_offset : Z;
  lq_complete : bool;
  lq_source : option string
}.

(** [log_dir] is the controller's; [rows] the [jobs] table when there is a
    database that answers. *)
Definition get_logs (ok : bool) (log_dir job_id : string) (rows : option (gmap string DbJob)) (a : LogAggregator) : LogReply :=
  let data := get_log_string job_id a in
  if negb (bool_decide (data = EmptyString)) then
    {| lq_job_id := job_id; lq_data := data; lq_last_offset := last_offset job_id a; lq_complete := is_complete job_id a;
       lq_source := None |}
  else
    let from_disk :=
      table ← rows; uuid ← parse_uuid job_id;
      match get_job_row ok (uuid_to_string uuid) table with
      | Ok (Some j) =>
          content ← read_text (log_dir +:+ "/" +:+ uuid_to_string (dj_job_group_id j) +:+ "/" +:+ dj_stage_name j +:+ ".log")%string (disk a);
          if bool_decide (content = EmptyString) then None else Some content
      | _ => None
      end in
    match from_disk with
    | Some content =>
        {| lq_job_id := job_id; lq_data := content; lq_last_offset := len content; lq_complete := true; lq_source := Some "disk" |}
    | None =>
        {| lq_job_id := job_id; lq_data := EmptyString; lq_last_offset := 0; lq_complete := true; lq_source := Some "not_found" |}
    end.
End GetLogs.

(** ** Lock RPCs *)

Section LockRpc.
Context {S : Type} `{Redis S} (prefix : string).

Record AcquireLockRequest := {
  al_lock_key : string;
  al_timeout_secs : Z;
  al_holder_id : string
}.

(** [store] is [None] without Redis. *)
Definition acquire_lock_rpc (ok : bool) (req : AcquireLockRequest) (store : option S) : result (bool * string) Status * option S :=
  match store with
  | None => (Err (unavailable "Redis not configured"), None)
  | Some s =>
      let ttl := Z.max (al_timeout_secs req) 1 in
      match acquire_lock_with_holder prefix ok (al_lock_key req) (al_holder_id req) ttl s with
      | (Ok acquired, s') => (Ok (acquired, if acquired then "Lock acquired" else "Lock held by another"), Some s')
      | (Err e, s') => (Err (internal ("Redis error: " +:+ e)%string), Some s')
      end
  end.

Definition release_lock_rpc (ok : bool) (lock_key holder_id : string) (store : option S) : result bool Status * option S :=
  match store with
  | None => (Err (unavailable "Redis not configured"), None)
  | Some s =>
      match release_lock_with_holder prefix ok lock_key holder_id s with
      | (Ok released, s') => (Ok released, Some s')
      | (Err e, s') => (Err (internal ("Redis error: " +:+ e)%string), Some s')
      end
  end.
End LockRpc.

(** ** A world with one watcher *)

Record World := {
  wd_jobs : JobRegistry;
  wd_logs : LogAggregator;
  wd_watch : Watch LogChunk
}.

Inductive watch_event :=
| Appended (disk_ok : bool) (c : LogChunk)
| Finalized (now : timestamp) (job : string)
| Aliased (uuid job : string)
| Pathed (job group stage : string)
| Cleaned (now age : Z)
| JobsNow (js : JobRegistry)
| Received (taken : bool)
| Ticked.

Section Play.
Context {B : Broadcast} `{HI : HashIter}.

Definition on_logs (a : LogAggregator) (wd : World) : World := {| wd with wd_logs := a; wd_watch := observe a (wd_watch wd) |}.

Definition watch_step (job_id : string) (e : watch_event) (wd : World) : World :=
  match e with
  | Appended disk_ok c =>
      on_logs (append_chunk disk_ok (lc_job_id c) (lc_worker_id c) (lc_offset c) (lc_data c) (lc_timestamp_unix c) (wd_logs wd)).2 wd
  | Finalized now job => on_logs (finalize now job (wd_logs wd)) wd
  | Aliased uuid job => on_logs (register_alias uuid job (wd_logs wd)) wd
  | Pathed job group stage => on_logs (register_log_path job group stage (wd_logs wd)) wd
  | Cleaned now age => on_logs (cleanup_old_logs now age (wd_logs wd)) wd
  | JobsNow js => {| wd with wd_jobs := js |}
  | Received taken => {| wd with wd_watch := receive (to_log_chunk job_id) [] taken (wd_watch wd) |}
  | Ticked => {| wd with wd_watch := watch_tick job_id (wd_jobs wd) (wd_logs wd) (wd_watch wd) |}
  end.

Definition watch_run (job_id : string) (es : list watch_event) (wd : World) : World := foldl (fun wd e => watch_step job_id e wd) wd es.

(** What the client has been sent, and what waits for it. *)
Definition text_of (cs : list LogChunkData) : string := foldr (fun c s => (cd_data c +:+ s)%string) EmptyString cs.
Definition shown (w : Watch LogChunk) : string := chunks_data (wt_out w).
Definition waiting (w : Watch LogChunk) : list LogChunkData := drop (wt_pos w) (wt_queue w).

(** The events of a run of the job named [j] whose log is [txt] so far: its chunks
    arrive one after the other. Once its log has been finalized ([fin]), which
    may happen in the middle when the worker's stream breaks, no chunk follows a
    clean-up. Other jobs do as they like. *)
Definition touches (j : string) (e : watch_event) : Prop := match e with Appended _ c => lc_job_id c = j | _ => False end.

Fixpoint in_run (fin : bool) (j txt : string) (es : list watch_event) : Prop :=
  match es with
  | [] => True
  | Appended _ c :: es' =>
      if decide (lc_job_id c = j) then
        lc_offset c = len txt /\ lc_data c <> EmptyString /\ len (txt +:+ lc_data c) < 2 ^ 64 /\ in_run fin j (txt +:+ lc_data c) es'
      else in_run fin j txt es'
  | Finalized _ job :: es' => in_run (fin || bool_decide (job = j)) j txt es'
  | Cleaned _ _ :: es' => (fin = true -> Forall (fun e => ~ touches j e) es') /\ in_run fin j txt es'
  | _ :: es' => in_run fin j txt es'
  end.

Fixpoint logged (j txt : string) (es : list watch_event) : string :=
  match es with
  | [] => txt
  | Appended _ c :: es' => if decide (lc_job_id c = j) then logged j (txt +:+ lc_data c) es' else logged j txt es'
  | _ :: es' => logged j txt es'
  end.

(** The client is never more than the channel's capacity behind. *)
Fixpoint keeps_up (job_id : string) (es : list watch_event) (wd : World) : Prop :=
  match es with
  | [] => True
  | e :: es' =>
      match e with Received _ => (length (waiting (wd_watch wd)) <= CAPACITY)%nat | _ => True end /\
      keeps_up job_id es' (watch_step job_id e wd)
  end.
End Play.

(** ** The watched text *)

Section WatchFacts.
Context {B : Broadcast} `{HI : HashIter}.

Lemma text_of_app a b : text_of (a ++ b) = (text_of a +:+ text_of b)%string.
Proof. induction a as [|c a IH]; [done|]. simpl. by rewrite IH, str_app_assoc. Qed.

Lemma shown_put c w : shown (put c w) = (shown w +:+ lc_data c)%string.
Proof. unfold shown, put. simpl. apply chunks_data_snoc. Qed.

(** The channel of an entry, and what it acknowledges. *)
Definition tail_of (j : string) (a : LogAggregator) : option (Z * channel) := (fun st => (last_offset_of st, broadcast_tx st)) <$> jobs a !! j.

(** The entry's log has been finalized. *)
Definition sealed (j : string) (a : LogAggregator) : bool :=
  match jobs a !! j with Some st => complete st | None => false end.

Lemma append_sealed disk_ok c a j :
  sealed j (append_chunk disk_ok (lc_job_id c) (lc_worker_id c) (lc_offset c) (lc_data c) (lc_timestamp_unix c) a).2 = true -> sealed j a = true.
Proof.
  destruct (append_chunk_eq disk_ok (lc_job_id c) (lc_worker_id c) (lc_offset c) (lc_data c) (lc_timestamp_unix c) a)
    as (st & dsk & chan & -> & H). cbv zeta in H. unfold sealed. simpl. destruct (decide (j = lc_job_id c)) as [->|Hne].
  2: { by rewrite lookup_insert_ne. }
  rewrite lookup_insert_eq. assert (E : complete st = complete (run_state (lc_job_id c) (lc_offset c) a)).
  { destruct (_ <? _); [by destruct H as [-> _]|by destruct H as (_ & _ & ? & _)]. }
  rewrite E. unfold run_state, entry_state. destruct (jobs a !! lc_job_id c); by destruct (_ && _).
Qed.

Lemma finalize_sealed now job a j :
  sealed j (finalize now job a) = true -> sealed j a = true \/ job = j.
Proof.
  unfold sealed, finalize. simpl. destruct (decide (j = job)) as [->|Hne]; [by right|]. rewrite lookup_alter_ne by done. by left.
Qed.

Lemma append_others disk_ok c a j :
  lc_job_id c <> j ->
  tail_of j (append_chunk disk_ok (lc_job_id c) (lc_worker_id c) (lc_offset c) (lc_data c) (lc_timestamp_unix c) a).2 = tail_of j a.
Proof.
  intros Hne. destruct (append_chunk_eq disk_ok (lc_job_id c) (lc_worker_id c) (lc_offset c) (lc_data c) (lc_timestamp_unix c) a)
    as (st & dsk & chan & -> & _). unfold tail_of. simpl. by rewrite lookup_insert_ne.
Qed.

(** A chunk at the acknowledged offset is broadcast. *)
Lemma append_sends disk_ok c a off ch :
  tail_of (lc_job_id c) a = Some (off, ch) -> lc_offset c = off ->
  exists cd, cd_data cd = lc_data c /\
    tail_of (lc_job_id c) (append_chunk disk_ok (lc_job_id c) (lc_worker_id c) (lc_offset c) (lc_data c) (lc_timestamp_unix c) a).2 =
    Some (u64_add off (len (lc_data c)), send cd ch).
Proof.
  unfold tail_of. destruct (jobs a !! lc_job_id c) as [st|] eqn:Hj; [|done]. simpl. intros [= <- <-] Ho.
  unfold append_chunk, entry_state. rewrite Hj, Ho.
  replace (bool_decide (last_offset_of st = 0) && (0 <? last_offset_of st)) with false
    by (symmetry; destruct (bool_decide_reflect (last_offset_of st = 0)) as [->|]; reflexivity).
  rewrite Z.ltb_irrefl. destruct (LogAggregator.log_dir a) as [dir|].
  - eexists. split; [|simpl; rewrite lookup_insert_eq; reflexivity]. reflexivity.
  - destruct (MAX_BUFFERED_BYTES_PER_JOB <? _); (eexists; split; [|simpl; rewrite lookup_insert_eq; reflexivity]; reflexivity).
Qed.

Lemma finalize_tail now job a j : tail_of j (finalize now job a) = tail_of j a.
Proof.
  unfold tail_of, finalize. simpl. destruct (decide (j = job)) as [->|Hne].
  - rewrite lookup_alter_eq. by destruct (jobs a !! job).
  - by rewrite lookup_alter_ne.
Qed.

Lemma foldl_delete_ne {A : Type} (ids : list string) (m : gmap string A) j : j ∉ ids -> foldl (fun m id => delete id m) m ids !! j = m !! j.
Proof.
  revert m. induction ids as [|i ids IH]; intros m Hj; [done|]. apply not_elem_of_cons in Hj as [Hne Hj]. simpl. rewrite IH by done.
  by rewrite lookup_delete_ne.
Qed.

Lemma cleanup_spares now age a j st : jobs a !! j = Some st -> ~ expired now age st -> jobs (cleanup_old_logs now age a) !! j = Some st.
Proof.
  intros Hj Hc. simpl. rewrite foldl_delete_ne; [done|]. intros ([i st'] & -> & Hin)%list_elem_of_fmap.
  apply list_elem_of_filter in Hin as [Hx Hin]. apply elem_of_hiter in Hin. simpl in *. congruence.
Qed.

Lemma cleanup_keeps_open now age a j : sealed j a = false -> jobs (cleanup_old_logs now age a) !! j = jobs a !! j.
Proof.
  unfold sealed. destruct (jobs a !! j) as [st|] eqn:Hj; intros Hc.
  - apply (cleanup_spares now age a j st Hj). intros [E _]. congruence.
  - destruct (jobs (cleanup_old_logs now age a) !! j) as [st|] eqn:E; [|done].
    pose proof (lookup_weaken _ _ _ _ E (foldl_delete_subseteq _ _)). congruence.
Qed.

Lemma cleanup_tail now age a j : tail_of j (cleanup_old_logs now age a) = tail_of j a \/ tail_of j (cleanup_old_logs now age a) = None.
Proof.
  unfold tail_of. destruct (jobs (cleanup_old_logs now age a) !! j) as [st|] eqn:E; [left|by right].
  by rewrite (lookup_weaken _ _ _ _ E (foldl_delete_subseteq _ _)).
Qed.

(** What a watch opened on entry [j] knows while the log is [txt] and [es] is to
    come. *)
Record tracks (fin : bool) (j txt : string) (es : list watch_event) (wd : World) : Prop := {
  tk_fin : sealed j (wd_logs wd) = true -> fin = true;
  tk_entry : wt_entry (wd_watch wd) = j;
  tk_pos : (wt_pos (wd_watch wd) <= length (wt_queue (wd_watch wd)))%nat;
  tk_chan :
    (exists ch, tail_of j (wd_logs wd) = Some (len txt, ch) /\ chan_id ch = wt_chan (wd_watch wd) /\
       wt_queue (wd_watch wd) = chan_sent ch /\ wt_alive (wd_watch wd) = true) \/
    (tail_of j (wd_logs wd) = None /\ wt_alive (wd_watch wd) = false /\ Forall (fun e => ~ touches j e) es);
  tk_text : exists rest, (shown (wd_watch wd) +:+ rest)%string = txt /\ (wt_open (wd_watch wd) = true -> rest = text_of (waiting (wd_watch wd)))
}.

Lemma observe_tail {M : Type} a (w : Watch M) :
  observe a w = match tail_of (wt_entry w) a with
                | Some (_, ch) => if bool_decide (chan_id ch = wt_chan w) then {| w with wt_queue := chan_sent ch; wt_alive := true |}
                                  else {| w with wt_alive := false |}
                | None => {| w with wt_alive := false |}
                end.
Proof. unfold observe, tail_of. by destruct (jobs a !! wt_entry w). Qed.

(** Changes that leave the entry's channel alone. *)
Lemma tracks_same fin fin' j txt e es a wd :
  tracks fin j txt (e :: es) wd -> tail_of j a = tail_of j (wd_logs wd) -> (sealed j a = true -> fin' = true) -> tracks fin' j txt es (on_logs a wd).
Proof.
  intros [H0 H1 H2 H3 H4] E Hfin.
  assert (Ho : observe a (wd_watch wd) = wd_watch wd).
  { destruct (wd_watch wd). simpl in *. subst. rewrite observe_tail. simpl. rewrite E. destruct H3 as [(ch & -> & -> & -> & ->)|(-> & -> & _)]; [|done].
    by rewrite bool_decide_eq_true_2. }
  split; unfold on_logs; simpl; rewrite ?Ho; try done. rewrite E. destruct H3 as [H3|(? & ? & Hf)]; [by left|right].
  split_and!; [done|done|]. by apply Forall_cons in Hf as [_ ?].
Qed.

(** The next chunk of the run. *)
Lemma tracks_append id fin j txt disk_ok c es wd :
  tracks fin j txt (Appended disk_ok c :: es) wd -> lc_job_id c = j -> lc_offset c = len txt -> len (txt +:+ lc_data c) < 2 ^ 64 ->
  tracks fin j (txt +:+ lc_data c) es (watch_step id (Appended disk_ok c) wd).
Proof.
  intros [H0 H1 H2 H3 H4] Hj Ho Hlen. destruct H3 as [(ch & Ht & Hc & Hq & Ha)|(_ & _ & Hf)]; [|by apply Forall_cons in Hf as [[] _]].
  rewrite <- Hj in Ht. destruct (append_sends disk_ok c (wd_logs wd) _ _ Ht Ho) as (cd & Hd & Ha'). simpl watch_step. unfold on_logs.
  set (a' := (append_chunk _ _ _ _ _ _ _).2) in *. rewrite Hj in Ha'.
  assert (Hw : observe a' (wd_watch wd) = let w := wd_watch wd in {| w with wt_queue := chan_sent ch ++ [cd]; wt_alive := true |}).
  { rewrite observe_tail. rewrite H1 at 1. rewrite Ha'. by rewrite bool_decide_eq_true_2 by done. }
  rewrite u64_add_small, <- len_app in Ha' by (rewrite len_app in Hlen; pose proof (len_nonneg txt); pose proof (len_nonneg (lc_data c)); lia).
  split; simpl; rewrite ?Hw; simpl; [|done| | |].
  - intros Hs. apply H0. by apply (append_sealed disk_ok c).
  - rewrite length_app, <- Hq. lia.
  - left. exists (send cd ch). by split_and!.
  - destruct H4 as (rest & Hs & Hr). exists (rest +:+ lc_data c)%string. split; [by rewrite <- str_app_assoc, <- Hs|].
    intros Hopen. rewrite (Hr Hopen). unfold waiting. simpl. rewrite Hq in H2 |- *.
    rewrite drop_app_le, text_of_app by done. simpl. by rewrite Hd, str_app_nil_r.
Qed.

Lemma tracks_weaken fin j txt e es wd : tracks fin j txt (e :: es) wd -> tracks fin j txt es wd.
Proof.
  intros [H0 H1 H2 H3 H4]. split; [done|done|done| |done]. destruct H3 as [H3|(? & ? & Hf)]; [by left|right]. by apply Forall_cons in Hf as [_ ?].
Qed.

(** Only the watch's position and what it has shown change. *)
Lemma tracks_watch fin j txt es wd w :
  tracks fin j txt es wd -> wt_entry w = wt_entry (wd_watch wd) -> wt_chan w = wt_chan (wd_watch wd) -> wt_queue w = wt_queue (wd_watch wd) ->
  wt_alive w = wt_alive (wd_watch wd) -> (wt_pos w <= length (wt_queue w))%nat ->
  (exists rest, (shown w +:+ rest)%string = txt /\ (wt_open w = true -> rest = text_of (waiting w))) ->
  tracks fin j txt es {| wd with wd_watch := w |}.
Proof. intros [H0 H1 H2 H3 H4] E1 E2 E3 E4 Hp Hr. split; simpl; rewrite ?E1, ?E2, ?E3, ?E4 in *; done. Qed.

Lemma tracks_receive id fin j txt taken es wd :
  tracks fin j txt es wd -> (length (waiting (wd_watch wd)) <= CAPACITY)%nat -> tracks fin j txt es (watch_step id (Received taken) wd).
Proof.
  intros Ht Hk. pose proof Ht as [_ _ H2 _ (rest & Hs & Hr)]. unfold watch_step, receive.
  destruct (wt_open (wd_watch wd)) eqn:Hopen; [|by apply tracks_watch; [..|exists rest; split; [|congruence]]].
  specialize (Hr eq_refl). unfold waiting in Hk, Hr. rewrite length_drop in Hk.
  destruct (wt_queue (wd_watch wd) !! wt_pos (wd_watch wd)) as [c|] eqn:Hc.
  - rewrite (recv_next _ _ _ _ Hc) by done. pose proof (lookup_lt_Some _ _ _ Hc). rewrite (drop_S _ _ _ Hc) in Hr. simpl in Hr.
    destruct taken; apply tracks_watch; try done; simpl; try lia.
    + exists (text_of (drop (S (wt_pos (wd_watch wd))) (wt_queue (wd_watch wd)))). split; [|done].
      rewrite shown_put. simpl. rewrite str_app_assoc, <- Hs, Hr. done.
    + by exists rest.
  - apply lookup_ge_None in Hc. rewrite recv_end by done.
    destruct (wt_alive (wd_watch wd)) eqn:Ha; apply tracks_watch; try done.
    + exists rest. unfold waiting. split; [done|]. by intros _.
    + exists rest. split; [|done]. unfold shown, hang_up. simpl. by rewrite app_nil_r.
Qed.

Lemma tracks_tick id fin j txt es wd : tracks fin j txt es wd -> tracks fin j txt es (watch_step id Ticked wd).
Proof.
  intros Ht. pose proof Ht as [_ _ H2 _ (rest & Hs & Hr)]. unfold watch_step, watch_tick.
  destruct (_ && _); apply tracks_watch; try done; [by exists rest|by exists rest].
Qed.

(** The whole of a run. *)
Lemma tracks_run id fin j es txt wd :
  tracks fin j txt es wd -> in_run fin j txt es -> keeps_up id es wd -> exists fin', tracks fin' j (logged j txt es) [] (watch_run id es wd).
Proof.
  revert fin txt wd. induction es as [|e es IH]; intros fin txt wd Ht Hin Hk; [by exists fin|]. simpl. destruct Hk as [Hk Hks].
  destruct e as [disk_ok c|now job|uuid job|job group stage|now age|js|taken|]; simpl in Hin |- *.
  - destruct (decide (lc_job_id c = j)) as [Hj|Hj].
    + destruct Hin as (Ho & _ & Hl & Hin). apply (IH fin); [|done|done]. by apply (tracks_append id).
    + apply (IH fin); [|done|done]. eapply tracks_same; [exact Ht|by apply append_others|]. intros Hs. apply (tk_fin _ _ _ _ _ Ht). by apply (append_sealed disk_ok c).
  - apply (IH (fin || bool_decide (job = j))); [|done|done]. eapply tracks_same; [exact Ht|apply finalize_tail|].
    intros [Hs|Hs]%finalize_sealed; [by rewrite (tk_fin _ _ _ _ _ Ht Hs)|]. by rewrite bool_decide_eq_true_2, orb_true_r.
  - apply (IH fin); [|done|done]. eapply tracks_same; [exact Ht|done|]. exact (tk_fin _ _ _ _ _ Ht).
  - apply (IH fin); [|done|done]. eapply tracks_same; [exact Ht|done|]. exact (tk_fin _ _ _ _ _ Ht).
  - destruct Hin as [Hq Hin]. apply (IH fin); [|done|done]. destruct (sealed j (wd_logs wd)) eqn:Hs.
    2: { pose proof (cleanup_keeps_open now age (wd_logs wd) j Hs) as E.
         eapply tracks_same; [exact Ht|unfold tail_of; by rewrite E|]. unfold sealed in *. rewrite E. congruence. }
    apply (tk_fin _ _ _ _ _ Ht) in Hs. specialize (Hq Hs).
    destruct (cleanup_tail now age (wd_logs wd) j) as [E|E]; [by eapply tracks_same|].
    pose proof Ht as [_ H1 H2 _ H4]. unfold watch_step, on_logs.
    rewrite observe_tail, H1, E. split; simpl; [done|done|done| |done]. right. by split_and!.
  - apply (IH fin); [|done|done]. destruct (tracks_weaken _ _ _ _ _ _ Ht). by split.
  - apply (IH fin); [|done|done]. apply (tracks_receive id); [by eapply tracks_weaken|done].
  - apply (IH fin); [|done|done]. apply (tracks_tick id). by eapply tracks_weaken.
Qed.

(** The entry holds the log [txt], whole. *)
Definition holds_all (j txt : string) (a : LogAggregator) : Prop :=
  match jobs a !! j with Some st => last_offset_of st = len txt /\ log_data st = txt | None => txt = EmptyString end.

Lemma buffered_all st : buffered_from 0 st = [] /\ log_data st = EmptyString \/ exists c, buffered_from 0 st = [c] /\ cd_data c = log_data st.
Proof.
  unfold buffered_from. pose proof (len_nonneg (log_data st)). destruct (Z.ltb_spec (len (log_data st)) 0); [lia|].
  rewrite bool_decide_eq_true_2 by done. destruct (decide (log_data st = EmptyString)) as [->|Hne]; [by left|right].
  rewrite bool_decide_eq_false_2 by done. simpl. by eexists.
Qed.

Lemma tracks_open id j txt es js a :
  resolve_job_id id a = j -> holds_all j txt a ->
  let '(w, a') := open_relay (to_log_chunk id) [] (fun _ => true) id 0 a in tracks (is_complete id a) j txt es {| wd_jobs := js; wd_logs := a'; wd_watch := w |}.
Proof.
  intros Hj Hh. assert (Hf : sealed j a = true -> is_complete id a = true) by (unfold sealed, is_complete; by rewrite Hj).
  revert Hf. generalize (is_complete id a). intros fin Hf.
  unfold open_relay, subscribe. rewrite Hj. unfold holds_all in Hh. destruct (jobs a !! j) as [st|] eqn:Hst.
  - destruct Hh as [Hl Hd]. rewrite observe_tail. simpl. unfold tail_of. rewrite Hst. simpl. rewrite bool_decide_eq_true_2 by done.
    destruct (buffered_all st) as [[-> He]|(c & -> & Hc)]; simpl; destruct (complete st) eqn:?; split; simpl; try exact Hf; try done;
      try (left; eexists; unfold tail_of; rewrite Hst; simpl; split_and!; [by rewrite Hl|done..]);
      exists EmptyString; unfold shown, waiting, chunks_data; simpl; rewrite ?drop_all, ?str_app_nil_r; (split; [congruence|try (intros; reflexivity)]).
  - subst txt. rewrite observe_tail. unfold tail_of. simpl. rewrite lookup_insert_eq. simpl. rewrite bool_decide_eq_true_2 by done. simpl.
    split; simpl; [by unfold sealed; simpl; rewrite lookup_insert_eq|done|done| |by exists EmptyString]. left. eexists. unfold tail_of. simpl. rewrite lookup_insert_eq. by split_and!.
Qed.
End WatchFacts.

(** ** What a watch shows *)

Section WatchClaims.
Context {B : Broadcast} `{HI : HashIter}.

Definition everything_taken : nat -> bool := fun _ => true.

Definition watch_of (js : JobRegistry) (req : WatchJobLogsRequest) (a : LogAggregator) : World :=
  let '(w, a') := watch_job_logs everything_taken req a in {| wd_jobs := js; wd_logs := a'; wd_watch := w |}.

(** C10. A watch from the start of a job's log shows the log. Suppose that when
    the client subscribes, from offset 0, the job's buffer still holds the whole
    log so far (or there is no log yet), that the job's chunks from then on are
    the rest of that one run, each at the offset where the last one ended (no
    rerun, no gap and no chunk sent twice), that no chunk of the job comes after
    a clean-up which itself comes after the log was finalized, and that the
    client is never more than the channel's capacity behind when it takes a
    chunk. Then, whatever other jobs, the registry, finalizations, aliases and
    clean-ups do meanwhile, what the client has been sent is at each moment an
    initial part of the job's log, and as long as the watch is open what is
    missing is what waits in the channel. *)
Theorem watched_text (js : JobRegistry) (req : WatchJobLogsRequest) (a : LogAggregator) (txt : string) (es : list watch_event) :
  let id := wl_job_id req in
  let j := resolve_job_id id a in
  wl_from_offset req = 0 -> holds_all j txt a -> in_run (is_complete id a) j txt es -> keeps_up id es (watch_of js req a) ->
  let w := wd_watch (watch_run id es (watch_of js req a)) in
  exists rest, (shown w +:+ rest)%string = logged j txt es /\ (wt_open w = true -> rest = text_of (waiting w)).
Proof.
  intros id j Ho Hh Hin Hk. pose proof (tracks_open id j txt es js a eq_refl Hh) as Ht.
  unfold watch_of, watch_job_logs in *. rewrite Ho in *. fold id in Hk |- *. unfold everything_taken in *.
  destruct (open_relay _ _ _ id 0 a) as [w a']. apply (tracks_run id) in Ht as [fin Ht]; [|done|done]. apply Ht.
Qed.

Lemma drain id n wd :
  wt_open (wd_watch wd) = true -> length (waiting (wd_watch wd)) = n -> (n <= CAPACITY)%nat ->
  let wd' := watch_run id (replicate n (Received true)) wd in
  wd_jobs wd' = wd_jobs wd /\ wd_logs wd' = wd_logs wd /\ wt_open (wd_watch wd') = true /\
  shown (wd_watch wd') = (shown (wd_watch wd) +:+ text_of (waiting (wd_watch wd)))%string.
Proof.
  revert wd. induction n as [|n IH]; intros wd Hopen Hn Hc.
  { simpl. destruct (waiting (wd_watch wd)); [|done]. simpl. by rewrite str_app_nil_r. }
  destruct (waiting (wd_watch wd)) as [|c cs] eqn:Hw; [done|]. unfold waiting in Hw.
  assert (Hq : wt_queue (wd_watch wd) !! wt_pos (wd_watch wd) = Some c).
  { rewrite <- (Nat.add_0_r (wt_pos _)), <- lookup_drop, Hw. done. }
  pose proof Hw as Hw'. rewrite (drop_S _ _ _ Hq) in Hw'. injection Hw' as Hw'.
  assert (Hlen : (length (wt_queue (wd_watch wd)) - wt_pos (wd_watch wd) <= CAPACITY)%nat) by (rewrite <- length_drop, Hw; simpl in *; lia).
  change (replicate (S n) (Received true)) with ([Received true] ++ replicate n (Received true)).
  unfold watch_run in *. rewrite foldl_app. change (foldl _ wd [Received true]) with (watch_step id (Received true) wd).
  assert (E : watch_step id (Received true) wd =
    let w := wd_watch wd in
    {| wd with wd_watch := put (to_log_chunk id c) {| w with wt_pos := S (wt_pos w) |} |}).
  { unfold watch_step, receive. rewrite Hopen, (recv_next _ _ _ _ Hq Hlen). done. }
  specialize (IH (watch_step id (Received true) wd)). rewrite E in IH |- *. cbv zeta in IH. simpl in IH. unfold waiting in IH. simpl in IH.
  rewrite Hw' in IH. simpl in Hn. destruct (IH Hopen ltac:(lia) ltac:(lia)) as (I1 & I2 & I3 & I4).
  split_and!; [done..|]. etrans; [exact I4|]. rewrite shown_put. simpl. by rewrite str_app_assoc.
Qed.

(** C25. A watch ends with the job. Suppose, as for the text of a watch, that the
    client subscribed from offset 0 while the buffer held the whole log so far,
    that the job's later chunks are the rest of that one run, without rerun, gap
    or repetition, none of them after a clean-up of the finalized log, and that the client was never more than the channel's
    capacity behind (a client that falls further behind loses chunks). If the
    watch is still open when the registry has the job as finished and its log
    is complete, then a client that takes what is waiting has the whole log, and
    the next check closes the stream. *)
Theorem watch_ends (js : JobRegistry) (req : WatchJobLogsRequest) (a : LogAggregator) (txt : string) (es : list watch_event) :
  let id := wl_job_id req in
  let j := resolve_job_id id a in
  wl_from_offset req = 0 -> holds_all j txt a -> in_run (is_complete id a) j txt es -> keeps_up id es (watch_of js req a) ->
  let wd := watch_run id es (watch_of js req a) in
  let n := length (waiting (wd_watch wd)) in
  wt_open (wd_watch wd) = true -> (n <= CAPACITY)%nat -> job_complete id (wd_jobs wd) = true -> is_complete id (wd_logs wd) = true ->
  let w := wd_watch (watch_run id (es ++ replicate n (Received true) ++ [Ticked]) (watch_of js req a)) in
  wt_open w = false /\ shown w = logged j txt es.
Proof.
  intros id j Ho Hh Hin Hk wd n Hopen Hn Hj Hl w. pose proof (tracks_open id j txt es js a eq_refl Hh) as Ht.
  assert (Hall : (shown (wd_watch wd) +:+ text_of (waiting (wd_watch wd)))%string = logged j txt es).
  { unfold wd, watch_of, watch_job_logs in *. rewrite Ho in *. fold id in Hk, Hopen |- *. unfold everything_taken in *.
    destruct (open_relay _ _ _ id 0 a) as [w0 a']. apply (tracks_run id) in Ht as [fin Ht]; [|done|done]. destruct Ht as [_ _ _ _ (rest & <- & Hr)].
    by rewrite <- Hr. }
  pose proof (drain id n wd Hopen eq_refl Hn) as (D1 & D2 & D3 & D4). unfold w, watch_run in *. rewrite !foldl_app. fold wd. simpl.
  unfold watch_tick. rewrite D3, D1, D2, Hj, Hl. simpl. split; [done|]. change (shown (leave ?x)) with (shown x). by rewrite <- Hall, <- D4.
Qed.

(** The names a watch may be given that no job answers to: nothing is appended or
    finalized under them, and the registry never has them. *)
Definition nobodys (id j : string) (e : watch_event) : Prop :=
  match e with
  | Appended _ c => lc_job_id c <> j
  | Finalized _ job => job <> j
  | JobsNow js => get_job id js = None
  | _ => True
  end.

Record idle (id j : string) (n : nat) (wd : World) : Prop := {
  il_jobs : get_job id (wd_jobs wd) = None;
  il_entry : jobs (wd_logs wd) !! j = Some (fresh_state n);
  il_watch : wd_watch wd = {| wt_entry := j; wt_chan := n; wt_queue := []; wt_alive := true; wt_pos := 0; wt_out := []; wt_open := true |}
}.

Lemma idle_logs id j n a wd : idle id j n wd -> jobs a !! j = Some (fresh_state n) -> idle id j n (on_logs a wd).
Proof.
  intros [H1 H2 H3] Ha. split; [done|done|]. unfold on_logs. simpl. rewrite H3. unfold observe. simpl. rewrite Ha. simpl.
  by rewrite bool_decide_eq_true_2.
Qed.

Lemma idle_step id j n e wd : idle id j n wd -> nobodys id j e -> idle id j n (watch_step id e wd).
Proof.
  intros Hi. pose proof Hi as [H1 H2 H3]. destruct e as [ok c|now job|uuid job|job group stage|now age|js|taken|]; simpl; intros He.
  - apply idle_logs; [done|].
    destruct (append_chunk_eq ok (lc_job_id c) (lc_worker_id c) (lc_offset c) (lc_data c) (lc_timestamp_unix c) (wd_logs wd))
      as (st & dsk & chan & -> & _). simpl. by rewrite lookup_insert_ne.
  - apply idle_logs; [done|]. simpl. by rewrite lookup_alter_ne.
  - by apply idle_logs.
  - by apply idle_logs.
  - apply idle_logs; [done|]. by apply cleanup_spares; [|intros [? _]].
  - by split.
  - split; [done|done|]. simpl. rewrite H3. unfold receive. simpl. by rewrite recv_end.
  - split; [done|done|]. simpl. rewrite H3. unfold watch_tick, job_complete. simpl. by rewrite H1.
Qed.

Lemma idle_open js req a j :
  resolve_job_id (wl_job_id req) a = j -> jobs a !! j = None -> get_job (wl_job_id req) js = None ->
  idle (wl_job_id req) j (next_chan a) (watch_of js req a).
Proof.
  intros Hr Hj Hjs. unfold watch_of, watch_job_logs, open_relay, subscribe. rewrite Hr, Hj. simpl. unfold observe. simpl.
  rewrite lookup_insert_eq. simpl. rewrite bool_decide_eq_true_2 by done. simpl. split; simpl; [done|by rewrite lookup_insert_eq|done].
Qed.

Lemma idle_run id j n es wd : idle id j n wd -> Forall (nobodys id j) es -> idle id j n (watch_run id es wd).
Proof.
  revert wd. induction es as [|e es IH]; intros wd Hi Hes; [done|]. apply Forall_cons in Hes as [He Hes]. apply IH; [|done]. by apply idle_step.
Qed.

(** A watch that nobody feeds never ends: a client that asks for a name that
    no job streams under and the registry does not know is never told so. However
    long it waits, the stream stays open with nothing on it, and the entry it
    made in the aggregator outlives every clean-up. *)
Theorem unclaimed_watch_stays (js : JobRegistry) (req : WatchJobLogsRequest) (a : LogAggregator) (es : list watch_event) :
  let id := wl_job_id req in
  let j := resolve_job_id id a in
  jobs a !! j = None -> get_job id js = None -> Forall (nobodys id j) es ->
  let wd := watch_run id es (watch_of js req a) in
  wt_open (wd_watch wd) = true /\ wt_out (wd_watch wd) = [] /\ is_Some (jobs (wd_logs wd) !! j).
Proof.
  intros id j Hj Hjs Hes wd. destruct (idle_run id j (next_chan a) es (watch_of js req a) (idle_open js req a j eq_refl Hj Hjs) Hes) as [_ H1 H2].
  fold wd in H1, H2. rewrite H1, H2. split_and!; [done|done|by eexists].
Qed.
End WatchClaims.

(** ** The log on disk *)

Section DiskFacts.
Context `{HI : HashIter}.

Lemma append_writes job w data ts a dir :
  log_dir a = Some dir -> forall txt, last_offset_of (run_state job (len txt) a) = len txt ->
  let a' := (append_chunk true job w (len txt) data ts a).2 in
  let path := log_path_of dir job a in
  disk a' = <[path := (default EmptyString (disk a !! path) +:+ data)%string]> (disk a) /\
  log_dir a' = log_dir a /\ job_log_paths a' = job_log_paths a /\ uuid_aliases a' = uuid_aliases a.
Proof.
  intros Hdir txt Ho. unfold append_chunk, run_state in *. destruct (entry_state job (len txt) a) as [st chan]. simpl in Ho.
  by rewrite Ho, Z.ltb_irrefl, Hdir.
Qed.

Lemma same_path dir job a a' : job_log_paths a' = job_log_paths a -> log_path_of dir job a' = log_path_of dir job a.
Proof. unfold log_path_of. by intros ->. Qed.

(** The chunks of a stream are in the file, one after the other. *)
Lemma consume_writes n chunks job txt last a dir :
  log_dir a = Some dir ->
  last_offset_of (run_state job (len txt) a) = len txt ->
  (fits_buffer txt a -> log_data (run_state job (len txt) a) = tail_fit txt) ->
  contiguous (len txt) chunks -> Forall (fun c => lc_job_id c = job) chunks ->
  Forall (fun c => len (lc_data c) <= MAX_BUFFERED_BYTES_PER_JOB) chunks -> len (txt +:+ chunks_data chunks) < 2 ^ 64 ->
  let a' := (consume (fun _ => true) n chunks last a).2 in
  let path := log_path_of dir job a in
  (chunks <> [] -> disk a' !! path = Some (default EmptyString (disk a !! path) +:+ chunks_data chunks)%string) /\
  log_dir a' = log_dir a /\ job_log_paths a' = job_log_paths a /\ uuid_aliases a' = uuid_aliases a.
Proof.
  revert n txt last a. induction chunks as [|c cs IH]; intros n txt last a Hdir Hr1 Hr2 Hc Hj Hb Hlen; [done|].
  simpl in Hc. destruct Hc as (Ho & Hne & Hc). apply Forall_cons in Hj as [Hjc Hj]. apply Forall_cons in Hb as [Hbc Hb].
  change (chunks_data (c :: cs)) with (lc_data c +:+ chunks_data cs)%string in *. rewrite <- str_app_assoc in Hlen. simpl consume.
  rewrite Hjc, Ho.
  assert (Hle : len (txt +:+ lc_data c) <= len ((txt +:+ lc_data c) +:+ chunks_data cs)).
  { rewrite (len_app _ (chunks_data cs)). pose proof (len_nonneg (chunks_data cs)). lia. }
  pose proof (append_next true job (lc_worker_id c) (lc_data c) (lc_timestamp_unix c) txt a Hr1 Hr2 ltac:(lia) Hbc) as Hn.
  destruct (append_writes job (lc_worker_id c) (lc_data c) (lc_timestamp_unix c) a dir Hdir txt Hr1) as (Hd & Hl & Hp & Hu).
  destruct (append_chunk _ job _ (len txt) _ _ a) as [off a1]. simpl in Hd, Hl, Hp, Hu. destruct Hn as (_ & Hh & _ & _).
  assert (Hne1 : (txt +:+ lc_data c)%string <> EmptyString) by (by destruct txt).
  destruct (run_state_holds _ _ _ Hh Hne1) as [Hs1 Hs2].
  assert (Hc1 : contiguous (len (txt +:+ lc_data c)) cs) by (by rewrite len_app).
  specialize (IH (S n) _ (job, off) a1 ltac:(by rewrite Hl) Hs1 Hs2 Hc1 Hj Hb Hlen). cbv zeta in IH.
  destruct IH as (I1 & I2 & I3 & I4). rewrite (same_path dir job a a1 Hp), Hd, lookup_insert_eq in I1. simpl in I1.
  split_and!; [|congruence|congruence|congruence]. intros _. destruct (decide (cs = [])) as [->|Hcs].
  - simpl. by rewrite Hd, lookup_insert_eq, str_app_nil_r.
  - rewrite I1 by done. by rewrite str_app_assoc.
Qed.

Lemma cleanup_drops now age a j st : jobs a !! j = Some st -> expired now age st -> jobs (cleanup_old_logs now age a) !! j = None.
Proof.
  intros Hj Hx. simpl. set (ids := (filter _ _).*1).
  assert (Hin : j ∈ ids).
  { apply list_elem_of_fmap. exists (j, st). split; [done|]. apply list_elem_of_filter. split; [done|]. by apply elem_of_hiter. }
  clearbody ids. generalize (jobs a). induction ids as [|i ids IH]; intros m; [by apply not_elem_of_nil in Hin|]. simpl.
  destruct (decide (j ∈ ids)) as [Hi|Hi]; [by apply IH|]. rewrite foldl_delete_ne by done. apply elem_of_cons in Hin as [->|?]; [|done].
  apply lookup_delete_eq.
Qed.

(** A log outlives its buffer: when a job's stream has ended and its writes
    have succeeded, what can be read back of it is the buffer while the entry is
    there, at most 50 MB of its end, and once the entry has been cleaned up the
    whole log, from the file. *)
Theorem log_outlives_buffer (lossy : string -> string) (dir id path : string) (chunks : list LogChunk) (now1 now2 : timestamp) (age : Z)
    (a : LogAggregator) :
  let j := resolve_job_id id a in
  let txt := chunks_data chunks in
  agg_wf a -> log_dir a = Some dir -> job_log_paths a !! j = Some path -> disk a !! (dir +:+ "/" +:+ path)%string = None ->
  chunks <> [] -> contiguous 0 chunks -> Forall (fun c => lc_job_id c = j) chunks ->
  Forall (fun c => len (lc_data c) <= MAX_BUFFERED_BYTES_PER_JOB) chunks -> len txt < 2 ^ 64 -> is_utf8 txt = true ->
  let ended := (stream_logs (fun _ => true) now1 chunks a).2 in
  get_log_string lossy id (cleanup_old_logs now2 age ended) =
  if bool_decide (age < num_seconds (now2 - now1)) then txt else lossy (tail_fit txt).
Proof.
  intros j txt Ha Hdir Hp Hd Hne Hc Hj Hb Hlen Hutf ended.
  destruct (run_state_start j a Ha) as [R1 R2].
  pose proof (consume_writes 0 chunks j EmptyString (EmptyString, 0) a dir Hdir R1 (fun _ => R2) Hc Hj Hb Hlen) as Hw. cbv zeta in Hw.
  pose proof (consume_all (fun _ => true) chunks j (EmptyString, 0) a Ha Hne Hc Hj Hb Hlen) as Hall.
  unfold ended, stream_logs. destruct (consume _ 0 chunks _ a) as [last a1]. destruct Hall as (-> & (st & Hst & _ & Hdata) & _).
  simpl in Hw. destruct Hw as (W1 & W2 & W3 & W4). specialize (Hdata ltac:(left; rewrite W2, Hdir; by eexists)). specialize (W1 Hne). unfold log_path_of in W1. rewrite Hp, Hd in W1. simpl in W1.
  simpl. set (a2 := finalize now1 j a1).
  assert (Hst2 : jobs a2 !! j = Some (let s := st in {| s with complete := true; finalized_at := Some now1 |})).
  { unfold a2. simpl. by rewrite lookup_alter_eq, Hst. }
  assert (Htxt : txt <> EmptyString).
  { unfold txt. destruct chunks as [|c cs]; [done|]. destruct Hc as (_ & Hc & _). simpl. by destruct (lc_data c). }
  unfold get_log_string, get_log_data. change (resolve_job_id id (cleanup_old_logs now2 age a2)) with (default id (uuid_aliases a1 !! id)).
  rewrite W4. fold (resolve_job_id id a). fold j.
  destruct (bool_decide_reflect (age < num_seconds (now2 - now1))) as [Hx|Hx].
  - rewrite (cleanup_drops now2 age a2 j _ Hst2 (conj eq_refl Hx)). rewrite bool_decide_eq_true_2 by done. simpl.
    rewrite W2, Hdir, W3, Hp. simpl. unfold read_text. rewrite W1. change (EmptyString +:+ chunks_data chunks)%string with txt. simpl. by rewrite Hutf.
  - rewrite (cleanup_spares now2 age a2 j _ Hst2) by (intros [_ Hy]; by simpl in Hy). simpl. rewrite Hdata. fold txt.
    rewrite bool_decide_eq_false_2; [done|]. intros E. apply (f_equal len) in E. rewrite tail_fit_len in E.
    change (len EmptyString) with 0 in E. destruct txt; [done|]. unfold len, MAX_BUFFERED_BYTES_PER_JOB in E. simpl in E. lia.
Qed.
End DiskFacts.

(** ** Instances and examples *)

#[export] Program Instance ring_broadcast : Broadcast := {
  try_recv sent alive pos :=
    if (CAPACITY <? length sent - pos)%nat then (RxLagged (length sent - pos - CAPACITY), (pos + (length sent - pos - CAPACITY))%nat)
    else match sent !! pos with
         | Some c => (RxChunk c, S pos)
         | None => (if alive then RxPending else RxClosed, pos)
         end
}.
Next Obligation. intros sent alive pos c Hc Hle. simpl. destruct (Nat.ltb_spec CAPACITY (length sent - pos)); [lia|]. by rewrite Hc. Qed.
Next Obligation.
  intros sent alive pos Hlt. simpl. destruct (Nat.ltb_spec CAPACITY (length sent - pos)); [|lia].
  exists (length sent - pos - CAPACITY)%nat. split; [lia|done].
Qed.
Next Obligation.
  intros sent alive pos Hle. simpl. destruct (Nat.ltb_spec CAPACITY (length sent - pos)); [lia|].
  by rewrite lookup_ge_None_2.
Qed.

Definition chunk_at (job : string) (off : Z) (data : string) : LogChunk :=
  {| lc_worker_id := "w1"; lc_job_id := job; lc_offset := off; lc_data := data; lc_timestamp_unix := 0 |}.

Definition sample_watch (job : string) : WatchJobLogsRequest :=
  {| wl_job_id := job; wl_from_offset := 0; wl_job_group_id := EmptyString; wl_stage_name := EmptyString |}.

Definition done_job : Job := let j := Job_new 0 "job" "make" JTCommon 1 1 1 in {| j with j_state := JSuccess |}.

Definition started : LogAggregator := (append_chunk true "job" "w1" 0 "hel" 0 (LogAggregator_new (Some "/logs"))).2.

Definition sample_build : list watch_event := [
  Appended true (chunk_at "job" 3 "lo "); Received true; Appended true (chunk_at "other" 0 "noise"); Cleaned 5 0; Ticked;
  Appended true (chunk_at "job" 6 "world"); Finalized 7 "job"; JobsNow {[ "job" := done_job ]}].

(** A watch that joins after the first chunk, and is one chunk behind. *)
Lemma watched_text_witness :
  let w := wd_watch (watch_run (HI := map_iter) "job" sample_build (watch_of ∅ (sample_watch "job") started)) in
  shown w = "hello " /\
  exists rest, (shown w +:+ rest)%string = "hello world" /\ (wt_open w = true -> rest = text_of (waiting w)).
Proof.
  split; [vm_compute; reflexivity|].
  apply (watched_text (HI := map_iter) ∅ (sample_watch "job") started "hel" sample_build); [done| | |].
  - vm_compute. split; reflexivity.
  - simpl. repeat split; done.
  - simpl. repeat split; apply Nat.leb_le; vm_compute; reflexivity.
Defined.

Lemma watch_ends_witness :
  let opened := watch_of ∅ (sample_watch "job") started in
  let n := length (waiting (wd_watch (watch_run (HI := map_iter) "job" sample_build opened))) in
  let w := wd_watch (watch_run (HI := map_iter) "job" (sample_build ++ replicate n (Received true) ++ [Ticked]) opened) in
  n = 1%nat /\ wt_open w = false /\ shown w = "hello world".
Proof.
  intros opened n w. split; [vm_compute; reflexivity|].
  apply (watch_ends (HI := map_iter) ∅ (sample_watch "job") started "hel" sample_build); [done| | | | | | |].
  - vm_compute. split; reflexivity.
  - simpl. repeat split; done.
  - simpl. repeat split; apply Nat.leb_le; vm_compute; reflexivity.
  - vm_compute. reflexivity.
  - apply Nat.leb_le. vm_compute. reflexivity.
  - vm_compute. reflexivity.
  - vm_compute. reflexivity.
Defined.

(** The name is that of no job; a clean-up and two checks pass. *)
Lemma unclaimed_watch_stays_witness :
  let es := [Ticked; Appended true (chunk_at "job" 3 "lo "); Cleaned (10 ^ 15) 0; Received true; Ticked] in
  let wd := watch_run (HI := map_iter) EmptyString es (watch_of ∅ (sample_watch EmptyString) started) in
  wt_open (wd_watch wd) = true /\ wt_out (wd_watch wd) = [] /\ is_Some (jobs (wd_logs wd) !! EmptyString).
Proof.
  intros es. apply (unclaimed_watch_stays (HI := map_iter) ∅ (sample_watch EmptyString) started es); [done|done|].
  repeat constructor. done.
Defined.

(** The buffer a minute after the end, and the file a day after. *)
Lemma log_outlives_buffer_witness :
  let a := register_log_path "job" "g" "build" (LogAggregator_new (Some "/logs")) in
  let ended := (stream_logs (fun _ => true) 0 [chunk_at "job" 0 "hello "; chunk_at "job" 6 "world"] a).2 in
  get_log_string (fun s => s) "job" (cleanup_old_logs (HI := map_iter) (86400 * 10 ^ 9) 3600 ended) = "hello world" /\
  get_log_data "job" (cleanup_old_logs (HI := map_iter) (86400 * 10 ^ 9) 3600 ended) = EmptyString.
Proof.
  intros a ended. split; [|vm_compute; reflexivity].
  apply (log_outlives_buffer (HI := map_iter) (fun s => s) "/logs" "job" "g/build.log"
    [chunk_at "job" 0 "hello "; chunk_at "job" 6 "world"] 0 (86400 * 10 ^ 9) 3600 a); try done.
  - repeat constructor.
  - repeat constructor; vm_compute; discriminate.
Defined.

(** Subscribing by the id the interface shows, the alias of a job that the
    registry has under its own name, the checks never end the watch. *)
Example alias_never_ends (js : JobRegistry) (a : LogAggregator) (w : Watch LogChunk) (uuid : string) :
  get_job uuid js = None -> watch_tick uuid js a w = w.
Proof. intros H. unfold watch_tick, job_complete. rewrite H, andb_false_r. done. Qed.

(** A stage that runs again under its name starts its buffer anew, but its file
    goes on. *)
Example rerun_file_grows :
  let a := register_log_path "job" "g" "build" (LogAggregator_new (Some "/logs")) in
  let a' := (stream_logs (fun _ => true) 0 [chunk_at "job" 0 "second"] (stream_logs (fun _ => true) 0 [chunk_at "job" 0 "first "] a).2).2 in
  get_log_data "job" a' = "second" /\ disk a' !! "/logs/g/build.log" = Some "first second".
Proof. split; vm_compute; reflexivity. Qed.

(** A log that is not text is lost with its buffer. *)
Example binary_log_lost :
  let a := register_log_path "job" "g" "build" (LogAggregator_new (Some "/logs")) in
  let ended := (stream_logs (fun _ => true) 0 [chunk_at "job" 0 (String "255" "x")] a).2 in
  get_log_string (fun s => s) "job" ended = String "255" "x" /\
  get_log_string (fun s => s) "job" (cleanup_old_logs (HI := map_iter) (86400 * 10 ^ 9) 3600 ended) = EmptyString.
Proof. split; vm_compute; reflexivity. Qed.
