(* ===== verification/Runner.v ===== *)
(** * The job runner (crates/ci-job-runner)

    The command-line client: it sends a request, relays the job's log, and turns
    the job's final state into its own exit status. A command is a function of the
    answers to its requests, [ask k] being what comes of the k-th status request,
    [None] when it is never answered (the client sets no timeout), and of the
    readings of the clock in milliseconds, [clk 0] being the one a loop starts
    with. Loops carry fuel; the theorems give an amount that is enough for any
    clock that keeps to what tokio documents of its sleeps and intervals. The
    requests of other kinds are answered or fail. The process's own exit status keeps the low eight bits of what [exit] is given. Of the messages that
    are only printed, the parts that vary are left out. *)

From Stdlib Require Import ZArith Lia.
From stdpp Require Import gmap strings list.
From S2P Require Import Prelude Text Config F64 WorkerModel JobModel StageModel Scheduler WorkerRegistry JobRegistry JobGroupRegistry.
From S2P Require Import LogStreamer StageRunner Reconnect Agent LogAggregator Controller Dispatch Reservation Session RedisStore Json Watch.

(** ** How a command ends *)

Inductive outcome :=
| Finished (r : result unit string)
| Exited (code : Z).

Definition exit_status (o : outcome) : Z :=
  match o with Finished (Ok _) => 0 | Finished (Err _) => 1 | Exited code => code mod 256 end.

Definition STATUS_UNKNOWN_EXIT : Z := 2.
Definition STATUS_RETRY_BUDGET_SECS : Z := 60.
Definition STATUS_RETRY_MAX_BACKOFF_SECS : Z := 8.

(** [JobState::try_from(..).unwrap_or(Unknown)] *)
Definition state_of_proto (code : Z) : JobState :=
  match code with 1 => JQueued | 2 => JAssigned | 3 => JRunning | 4 => JSuccess | 5 => JFailed | 6 => JCancelled | _ => JUnknown end.

Definition status_state (st : GetJobStatusResponse) : JobState := state_of_proto (gs_state st).

Definition failure_code (st : GetJobStatusResponse) : Z := if gs_exit_code st =? 0 then 1 else gs_exit_code st.

Abbreviation Answers := (nat -> option (result GetJobStatusResponse string)) (only parsing).
Abbreviation Clock := (nat -> Z) (only parsing).

Definition later {A : Type} (n : nat) (f : nat -> A) : nat -> A := fun k => f (n + k)%nat.

(** ** Waiting for a job *)

(** One turn: the clock, the half-second tick, a request. *)
Fixpoint wait_loop (fuel : nat) (deadline : Z) (clk : Clock) (ask : Answers) : option (result GetJobStatusResponse string) :=
  match fuel with
  | O => None
  | S fuel' =>
      if deadline <? clk 0%nat then Some (Err "Timeout waiting for job to terminate")
      else
        match ask 0%nat with
        | None => None
        | Some (Err e) => Some (Err ("Failed to query job status: " +:+ e)%string)
        | Some (Ok st) =>
            if negb (gs_found st) then Some (Err "Job not found on controller")
            else
              match status_state st with
              | JSuccess | JFailed | JCancelled => Some (Ok st)
              | _ => wait_loop fuel' deadline (later 1 clk) (later 1 ask)
              end
        end
  end.

Definition wait_for_job_termination_with_timeout (fuel : nat) (clk : Clock) (ask : Answers) (timeout_secs : Z)
    : option (result GetJobStatusResponse string) :=
  wait_loop fuel (clk 0%nat + timeout_secs * 1000) (later 1 clk) ask.

Definition wait_for_job_termination (fuel : nat) (clk : Clock) (ask : Answers) : option (result GetJobStatusResponse string) :=
  wait_for_job_termination_with_timeout fuel clk ask 1800.

(** ** The final status *)

(** The states that end the command at once. *)
Definition terminal_outcome (st : GetJobStatusResponse) : option outcome :=
  match status_state st with
  | JSuccess => Some (Finished (Ok tt))
  | JFailed => Some (Exited (failure_code st))
  | JCancelled => Some (Exited 130)
  | _ => None
  end.

Definition process_terminal_status (fuel : nat) (clk : Clock) (ask : Answers) (st : GetJobStatusResponse) : option outcome :=
  match terminal_outcome st with
  | Some o => Some o
  | None =>
      final ← wait_for_job_termination_with_timeout fuel clk ask 300;
      Some (match final with
            | Ok st' => default (Exited 1) (terminal_outcome st')
            | Err _ => Exited 1
            end)
  end.

(** A failed request is tried again after a pause that doubles up to a bound, as
    long as the budget lasts. The pauses show only in the clock ([pauses]). *)
Fixpoint status_loop (fuel wait_fuel : nat) (deadline : Z) (clk : Clock) (ask : Answers) : option outcome :=
  match fuel with
  | O => None
  | S fuel' =>
      match ask 0%nat with
      | None => None
      | Some (Ok st) => process_terminal_status wait_fuel clk (later 1 ask) st
      | Some (Err _) => if deadline <=? clk 0%nat then Some (Exited STATUS_UNKNOWN_EXIT)
                 else status_loop fuel' wait_fuel deadline (later 1 clk) (later 1 ask)
      end
  end.

Definition exit_with_job_status (fuel wait_fuel : nat) (clk : Clock) (ask : Answers) : option outcome :=
  status_loop fuel wait_fuel (clk 0%nat + STATUS_RETRY_BUDGET_SECS * 1000) (later 1 clk) ask.

(** The pause, in seconds, after the k-th failed request. *)
Fixpoint backoff_secs (k : nat) : Z :=
  match k with O => 1 | S k' => Z.min (backoff_secs k' * 2) STATUS_RETRY_MAX_BACKOFF_SECS end.

(** ** Polling when the log cannot be watched *)

Fixpoint poll_loop (fuel : nat) (deadline : Z) (clk : Clock) (ask : Answers) : option outcome :=
  match fuel with
  | O => None
  | S fuel' =>
      if deadline <? clk 0%nat then Some (Exited STATUS_UNKNOWN_EXIT)
      else
        match ask 0%nat with
        | None => None
        | Some (Err _) => Some (Exited STATUS_UNKNOWN_EXIT)
        | Some (Ok st) =>
            if negb (gs_found st) then Some (Finished (Err "Job not found on controller"))
            else
              match terminal_outcome st with
              | Some o => Some o
              | None => poll_loop fuel' deadline (later 1 clk) (later 1 ask)
              end
        end
  end.

Definition fallback_poll_status (fuel : nat) (clk : Clock) (ask : Answers) : option outcome :=
  poll_loop fuel (clk 0%nat + 1800 * 1000) (later 1 clk) ask.

(** ** Commands *)

(** How the log ends: its stream does, in order or with an error, or the user
    interrupts. *)
Inductive log_end :=
| StreamDone (r : result unit string)
| CtrlC
| Sigterm.

Inductive request :=
| RSubmitStage (req : SubmitStageRequest)
| RSubmitJob (req : SubmitJobRequest)
| RWatch (req : WatchJobLogsRequest)
| RCancel (req : CancelJobRequest)
| RReserve (req : ReserveWorkerRequest)
| RGroupStatus (job_group_id : string).

Definition watch_request (job_id job_group_id stage : string) : WatchJobLogsRequest :=
  {| wl_job_id := job_id; wl_from_offset := 0; wl_job_group_id := job_group_id; wl_stage_name := stage |}.

Section Commands.
Context (wait_fuel : nat) (clk : Clock) (ask : Answers) (cancel : CancelJobRequest -> result CancelJobResponse string).

(** The job's end is awaited for the log of the runner only. *)
Definition cancel_and_exit (job_id job_group_id reason : string) (exit_code : Z) : list request * option outcome :=
  let req := {| cr_job_id := job_id; cr_job_group_id := job_group_id; cr_reason := reason |} in
  ([RCancel req],
   match cancel req with
   | Ok cr => if cj_accepted cr then _ ← wait_for_job_termination_with_timeout wait_fuel clk ask 30; Some (Exited exit_code)
              else Some (Exited exit_code)
   | Err _ => Some (Exited exit_code)
   end).

(** [run]: [fresh] is the id drawn when none is given; [submit], [watch] and
    [ended] answer the requests. *)
Definition run_request (job_group_id job_id stage : string) (command_override : option string) : SubmitStageRequest := {|
  sq_job_group_id := job_group_id; sq_job_id := job_id; sq_stage_name := stage;
  sq_command_override := default EmptyString command_override; sq_environment := ∅
|}.

Definition run_execute (fresh job_group_id : string) (job_id : option string) (stage : string) (command_override : option string)
    (submit : SubmitStageRequest -> result SubmitStageResponse string) (watch : WatchJobLogsRequest -> result unit string)
    (ended : log_end) : list request * option outcome :=
  let id := default fresh job_id in
  let req := run_request job_group_id id stage command_override in
  match submit req with
  | Err e => ([RSubmitStage req], Some (Finished (Err e)))
  | Ok resp =>
      if negb (sp_accepted resp) then
        ([RSubmitStage req], Some (Finished (Err ("Stage '" +:+ sp_stage_name resp +:+ "' rejected: " +:+ sp_message resp)%string)))
      else
        let wreq := watch_request id job_group_id stage in
        match watch wreq with
        | Err _ => ([RSubmitStage req; RWatch wreq], fallback_poll_status wait_fuel clk ask)
        | Ok _ =>
            match ended with
            | StreamDone _ => ([RSubmitStage req; RWatch wreq], exit_with_job_status wait_fuel wait_fuel clk ask)
            | CtrlC =>
                let '(rs, o) := cancel_and_exit id job_group_id "User interrupted (Ctrl+C)" 130 in ([RSubmitStage req; RWatch wreq] ++ rs, o)
            | Sigterm =>
                let '(rs, o) := cancel_and_exit id job_group_id "Process terminated (SIGTERM)" 143 in ([RSubmitStage req; RWatch wreq] ++ rs, o)
            end
        end
  end.

(** [submit] *)
Definition submit_request (job_id job_type : string) (command_parts : list string) : SubmitJobRequest := {|
  sj_job_id := job_id; sj_command := join " " command_parts; sj_job_type := job_type;
  sj_required_cpu := 1; sj_required_memory_mb := 1024; sj_required_disk_mb := 1024; sj_isolation_required := false;
  sj_branch_id := EmptyString; sj_environment := ∅
|}.

Definition handle_cancel (job_id : string) : list request * option outcome :=
  let req := {| cr_job_id := job_id; cr_job_group_id := EmptyString; cr_reason := "User interrupted (Ctrl+C)" |} in
  let over := Finished (Err "Job cancelled by user") in
  ([RCancel req],
   match cancel req with
   | Ok cr => if cj_accepted cr then _ ← wait_for_job_termination wait_fuel clk ask; Some over else Some over
   | Err _ => Some over
   end).

(** There is no handler for the termination signal here. *)
Definition submit_execute (job_id job_type : string) (command_parts : list string)
    (submit : SubmitJobRequest -> result SubmitJobResponse string) (watch : WatchJobLogsRequest -> result unit string)
    (ended : result unit string + unit) : list request * option outcome :=
  let req := submit_request job_id job_type command_parts in
  match submit req with
  | Err e => ([RSubmitJob req], Some (Finished (Err e)))
  | Ok resp =>
      if negb (so_accepted resp) then ([RSubmitJob req], Some (Finished (Err ("Job rejected: " +:+ so_message resp)%string)))
      else
        let wreq := watch_request job_id EmptyString EmptyString in
        match watch wreq with
        | Err _ => ([RSubmitJob req; RWatch wreq], fallback_poll_status wait_fuel clk ask)
        | Ok _ =>
            match ended with
            | inl _ => ([RSubmitJob req; RWatch wreq], exit_with_job_status wait_fuel wait_fuel clk ask)
            | inr _ => let '(rs, o) := handle_cancel job_id in ([RSubmitJob req; RWatch wreq] ++ rs, o)
            end
        end
  end.

(** [logs]: [ended] is [None] when the user interrupts. *)
Definition logs_execute (job_group_id job_id stage : option string) (watch : WatchJobLogsRequest -> result unit string)
    (ended : option (result unit string)) : list request * outcome :=
  match job_group_id, job_id with
  | None, None => ([], Finished (Err "At least one of --job-group-id or --job-id must be provided"))
  | _, _ =>
      let req := watch_request (default EmptyString job_id) (default EmptyString job_group_id) (default EmptyString stage) in
      ([RWatch req],
       Finished (match watch req with Err e => Err e | Ok _ => default (Ok tt) ended end))
  end.

(** [cancel] *)
Definition cancel_execute (job_group_id job_id : option string) (reason : string) : list request * outcome :=
  match job_group_id, job_id with
  | None, None => ([], Finished (Err "At least one of --job-group-id or --job-id must be provided"))
  | _, _ =>
      let req := {| cr_job_id := default EmptyString job_id; cr_job_group_id := default EmptyString job_group_id; cr_reason := reason |} in
      ([RCancel req],
       Finished (match cancel req with
                 | Err e => Err e
                 | Ok resp => if cj_accepted resp then Ok tt else Err ("Cancellation rejected: " +:+ cj_message resp)%string
                 end))
  end.
End Commands.

(** [reserve]: the line that is printed, or the error. *)
Definition reserve_request (repo : string) (repo_url branch commit : option string) (stages : list string) (idempotency_key : option string)
    : ReserveWorkerRequest := {|
  rq_repo_name := repo; rq_repo_url := default EmptyString repo_url; rq_branch := default EmptyString branch;
  rq_commit_sha := default EmptyString commit; rq_stages := stages; rq_priority := 0;
  rq_idempotency_key := default EmptyString idempotency_key
|}.

Definition reserve_execute (req : ReserveWorkerRequest) (answer : result ReserveWorkerResponse string) : result string string :=
  match answer with
  | Err e => Err e
  | Ok resp =>
      if rs_success resp then
        Ok ("job_group_id=" +:+ rs_job_group_id resp +:+ " worker=" +:+ rs_worker_id resp +:+ " stages="
              +:+ join "," (si_stage_name <$> rs_stages resp))%string
      else Err ("Reservation failed: " +:+ rs_message resp)%string
  end.

(** What [stream_logs] prints. *)
Definition printed (lossy : string -> string) (chunks : list LogChunk) : string :=
  foldr (fun c s => ((if bool_decide (lc_data c = EmptyString) then EmptyString else lossy (lc_data c)) +:+ s)%string) EmptyString chunks.

(** ** Start-up *)

Record RunnerConfig := {
  rc_controller : string;
  rc_token : option string
}.

Definition default_controller : string := "http://localhost:50051".

(** The derived [Default]. *)
Definition RunnerConfig_default : RunnerConfig := {| rc_controller := EmptyString; rc_token := None |}.

(** A parsed file: the fields it has. *)
Definition RunnerConfig_of (controller token : option string) : RunnerConfig :=
  {| rc_controller := default default_controller controller; rc_token := token |}.

(** [file] is [None] when there is no file, or it cannot be read or parsed. *)
Definition controller_address (flag : option string) (file : option RunnerConfig) : string :=
  default (rc_controller (default RunnerConfig_default file)) flag.

Definition runner_token (env : option string) (file : option RunnerConfig) : option string :=
  match env with Some t => Some t | None => rc_token (default RunnerConfig_default file) end.

(** The header of every request; [metadata_value] is tonic's check of its value. *)
Definition auth_header (metadata_value : string -> bool) (token : option string) : option string :=
  t ← token; if metadata_value ("Bearer " +:+ t)%string then Some ("Bearer " +:+ t)%string else None.

(** ** The loops end *)

(** Every request for the status is answered, or fails. *)
Definition answered (ask : Answers) : Prop := forall k, is_Some (ask k).

Lemma answered_later n ask : answered ask -> answered (later n ask).
Proof. intros H k. apply H. Qed.

Definition failed (r : option (result GetJobStatusResponse string)) : Prop := exists e, r = Some (Err e).

(** In each turn [n] the reading is past the deadline at last. *)
Lemma wait_loop_total fuel deadline clk ask n :
  answered ask -> (n < fuel)%nat -> deadline < clk n -> is_Some (wait_loop fuel deadline clk ask).
Proof.
  revert clk ask n. induction fuel as [|fuel IH]; intros clk ask n Ha Hn Hd; [lia|]. simpl.
  destruct (Z.ltb_spec deadline (clk 0%nat)); [by eexists|]. destruct (Ha 0%nat) as [[st|e] ->]; [|by eexists].
  destruct (negb (gs_found st)); [by eexists|]. destruct n as [|n]; [lia|].
  destruct (status_state st); try (by eexists); (apply (IH _ _ n); [by apply answered_later|lia|done]).
Qed.

Lemma poll_loop_total fuel deadline clk ask n :
  answered ask -> (n < fuel)%nat -> deadline < clk n -> is_Some (poll_loop fuel deadline clk ask).
Proof.
  revert clk ask n. induction fuel as [|fuel IH]; intros clk ask n Ha Hn Hd; [lia|]. simpl.
  destruct (Z.ltb_spec deadline (clk 0%nat)); [by eexists|]. destruct (Ha 0%nat) as [[st|e] ->]; [|by eexists].
  destruct (negb (gs_found st)); [by eexists|]. destruct n as [|n]; [lia|].
  destruct (terminal_outcome st); [by eexists|]. apply (IH _ _ n); [by apply answered_later|lia|done].
Qed.

(** What tokio documents of [interval(step)]: its k-th tick completes no sooner
    than [k * step] after it was made, however late the ticks before were taken
    (the default [MissedTickBehavior::Burst] makes up for ticks that are overdue
    and never takes one early). A loop that begins at [clk 0] reads [clk (2 + k)]
    after the k-th tick. *)
Definition turns (step : Z) (clk : Clock) : Prop := forall k : nat, clk 0%nat + step * Z.of_nat k <= clk (S (S k)).

Lemma wait_total fuel clk ask secs :
  0 <= secs -> answered ask -> turns 500 clk -> (Z.to_nat secs * 2 + 3 <= fuel)%nat ->
  is_Some (wait_for_job_termination_with_timeout fuel clk ask secs).
Proof.
  intros Hs Ha Ht Hf. unfold wait_for_job_termination_with_timeout. apply (wait_loop_total _ _ _ _ (Z.to_nat secs * 2 + 2)); [done|lia|].
  unfold later. pose proof (Ht (Z.to_nat secs * 2 + 1)%nat). replace (1 + (Z.to_nat secs * 2 + 2))%nat with (S (S (Z.to_nat secs * 2 + 1))) by lia. lia.
Qed.

Lemma process_total fuel clk ask st :
  answered ask -> turns 500 clk -> (603 <= fuel)%nat -> is_Some (process_terminal_status fuel clk ask st).
Proof.
  intros Ha Ht Hf. unfold process_terminal_status. destruct (terminal_outcome st); [by eexists|].
  destruct (wait_total fuel clk ask 300 ltac:(lia) Ha Ht ltac:(lia)) as [r ->]. by eexists.
Qed.

Lemma status_loop_total fuel wf deadline clk ask :
  answered ask ->
  ((forall i, (i < fuel)%nat -> failed (ask i)) -> exists n, (n < fuel)%nat /\ deadline <= clk n) ->
  (forall n st, (n < fuel)%nat -> ask n = Some (Ok st) ->
     is_Some (process_terminal_status wf (later n clk) (later (S n) ask) st)) ->
  is_Some (status_loop fuel wf deadline clk ask).
Proof.
  revert clk ask. induction fuel as [|fuel IH]; intros clk ask Ha Hlast Hproc.
  { destruct Hlast as (n & ? & _); [|lia]. intros i Hi. lia. }
  simpl. destruct (Ha 0%nat) as [[st|e] H0]; rewrite H0.
  { apply (Hproc 0%nat st); [lia|done]. }
  destruct (Z.leb_spec deadline (clk 0%nat)) as [|Hd]; [by eexists|]. apply IH.
  - by apply answered_later.
  - intros Herr. destruct Hlast as (n & Hn & Hc).
    + intros [|i] Hi; [by exists e|]. apply (Herr i). lia.
    + destruct n as [|n]; [lia|]. exists n. split; [lia|done].
  - intros n st Hn Hok. apply (Hproc (S n) st); [lia|done].
Qed.

(** What the pauses of [exit_with_job_status] make of the clock, a sleep of tokio
    lasting its duration at least: after a failed request the pause, or what is
    left of the budget, and after an answer the ticks of the wait. *)
Record paced (clk : Clock) (ask : Answers) : Prop := {
  pc_start : clk 0%nat <= clk 1%nat;
  pc_retry : forall k, failed (ask k) ->
    let deadline := clk 0%nat + STATUS_RETRY_BUDGET_SECS * 1000 in
    clk (S k) < deadline -> clk (S k) + Z.min (backoff_secs k * 1000) (deadline - clk (S k)) <= clk (S (S k));
  pc_wait : forall k st, ask k = Some (Ok st) -> turns 500 (later (S k) clk)
}.

(** When the k-th request can have failed at the soonest. *)
Fixpoint elapsed (k : nat) : Z :=
  match k with O => 0 | S k' => Z.min (elapsed k' + backoff_secs k' * 1000) (STATUS_RETRY_BUDGET_SECS * 1000) end.

Lemma budget_spent clk ask n :
  paced clk ask -> (forall i, (i < n)%nat -> failed (ask i)) ->
  (exists i, (i < n)%nat /\ clk 0%nat + STATUS_RETRY_BUDGET_SECS * 1000 <= clk (S i)) \/ clk 0%nat + elapsed n <= clk (S n).
Proof.
  intros [H0 H1 _]. induction n as [|n IH]; intros Herr; [right; simpl; lia|].
  destruct IH as [(i & Hi & Hc)|Hc]; [intros i Hi; apply Herr; lia|left; exists i; split; [lia|done]|].
  destruct (Z.le_gt_cases (clk 0%nat + STATUS_RETRY_BUDGET_SECS * 1000) (clk (S n))) as [Hd|Hd]; [left; exists n; split; [lia|done]|].
  right. specialize (H1 n (Herr n ltac:(lia)) Hd). simpl elapsed. lia.
Qed.

(** C19. The runner ends, if its requests do: once the log stream has ended, and
    provided that every request for the status is answered or fails, and that
    sleeps and intervals take the time that tokio documents (a sleep at least its
    duration, the k-th tick of an interval no sooner than k periods after the
    start, overdue ticks at once), the command is over after at most eleven
    attempts to ask for the job's status and, if the job is still going, 602
    turns of waiting, and its exit status is decided, whatever the answers are.
    The budget of a minute does not cover a request that is never answered: with
    such a first request the command never ends. *)
Theorem status_decided (clk : Clock) (ask : Answers) :
  (paced clk ask -> answered ask -> is_Some (exit_with_job_status 11 603 clk ask)) /\
  (ask 0%nat = None -> forall fuel wait_fuel, exit_with_job_status fuel wait_fuel clk ask = None).
Proof.
  split.
  - intros Hp Ha. apply status_loop_total; [done| |].
    + intros Herr. destruct (budget_spent clk ask 10 Hp) as [(i & Hi & Hc)|Hc]; [intros i Hi; apply Herr; lia|exists i; split; [lia|done]|].
      exists 10%nat. split; [lia|]. change (elapsed 10) with (STATUS_RETRY_BUDGET_SECS * 1000) in Hc. done.
    + intros n st _ Hok. apply process_total; [by apply answered_later| |lia]. change (later n (later 1 clk)) with (fun k => clk (1 + (n + k))%nat).
      intros k. pose proof (pc_wait _ _ Hp n st Hok k) as Hw. unfold later in Hw. exact Hw.
  - intros H0 [|fuel] wf; [done|]. unfold exit_with_job_status. simpl. by rewrite H0.
Qed.

(** ** What the exit status says *)

Definition blamed (st : GetJobStatusResponse) : Prop := status_state st = JFailed /\ gs_exit_code st <> 0 /\ gs_exit_code st mod 256 = 0.

Definition said_success (ask : Answers) : Prop := exists k st, ask k = Some (Ok st) /\ (status_state st = JSuccess \/ blamed st).

Lemma said_later n ask : said_success (later n ask) -> said_success ask.
Proof. intros (k & st & Hk & Hst). by exists (n + k)%nat, st. Qed.

Lemma terminal_zero st o : terminal_outcome st = Some o -> exit_status o = 0 -> status_state st = JSuccess \/ blamed st.
Proof.
  unfold terminal_outcome. destruct (status_state st) eqn:Hs; try done; intros [= <-]; simpl; [by left| |done].
  unfold failure_code. destruct (Z.eqb_spec (gs_exit_code st) 0); [done|]. by right.
Qed.

Lemma wait_answered fuel deadline clk ask st : wait_loop fuel deadline clk ask = Some (Ok st) -> exists k, ask k = Some (Ok st).
Proof.
  revert clk ask. induction fuel as [|fuel IH]; intros clk ask; [done|]. simpl. destruct (deadline <? clk 0%nat); [done|].
  destruct (ask 0%nat) as [[st0|e]|] eqn:H0; [|done..]. destruct (negb (gs_found st0)); [done|].
  destruct (status_state st0); try (by intros [= <-]; exists 0%nat); intros [k Hk]%IH; by exists (S k).
Qed.

Lemma process_zero fuel clk ask st o :
  process_terminal_status fuel clk ask st = Some o -> exit_status o = 0 -> status_state st = JSuccess \/ blamed st \/ said_success ask.
Proof.
  unfold process_terminal_status. destruct (terminal_outcome st) as [o'|] eqn:Ht.
  { intros [= <-] Hz. pose proof (terminal_zero _ _ Ht Hz). tauto. }
  unfold wait_for_job_termination_with_timeout. destruct (wait_loop _ _ _ _) as [[st'|e]|] eqn:Hw; simpl; try done; intros [= <-]; [|done].
  destruct (wait_answered _ _ _ _ _ Hw) as [k Hk]. destruct (terminal_outcome st') as [o'|] eqn:Ht'; simpl; [|done].
  intros Hz. right. right. exists k, st'. split; [done|]. by eapply terminal_zero.
Qed.

Lemma status_zero fuel wf deadline clk ask o : status_loop fuel wf deadline clk ask = Some o -> exit_status o = 0 -> said_success ask.
Proof.
  revert clk ask. induction fuel as [|fuel IH]; intros clk ask; [done|]. simpl. destruct (ask 0%nat) as [[st|e]|] eqn:H0; [| |done].
  - intros Hp Hz. destruct (process_zero _ _ _ _ _ Hp Hz) as [H|[H|H]]; [exists 0%nat, st; by split; [|left]..| |].
    + exists 0%nat, st. by split; [|right].
    + by eapply (said_later 1).
  - destruct (deadline <=? clk 0%nat); [by intros [= <-]|]. intros Hl Hz. eapply (said_later 1), IH; [exact Hl|done].
Qed.

Lemma poll_zero fuel deadline clk ask o : poll_loop fuel deadline clk ask = Some o -> exit_status o = 0 -> said_success ask.
Proof.
  revert clk ask. induction fuel as [|fuel IH]; intros clk ask; [done|]. simpl. destruct (deadline <? clk 0%nat); [by intros [= <-]|].
  destruct (ask 0%nat) as [[st|e]|] eqn:H0; [|by intros [= <-]|done]. destruct (negb (gs_found st)); [by intros [= <-]|].
  destruct (terminal_outcome st) as [o'|] eqn:Ht.
  - intros [= <-] Hz. exists 0%nat, st. split; [done|]. by eapply terminal_zero.
  - intros Hl Hz. eapply (said_later 1), IH; [exact Hl|done].
Qed.

Lemma cancel_nonzero wf clk ask cancel id gid reason code o :
  (cancel_and_exit wf clk ask cancel id gid reason code).2 = Some o -> exit_status o = code mod 256.
Proof.
  unfold cancel_and_exit. simpl. destruct (cancel _) as [cr|e]; [|by intros [= <-]]. destruct (cj_accepted cr); [|by intros [= <-]].
  destruct (wait_for_job_termination_with_timeout _ _ _ _); simpl; [by intros [= <-]|done].
Qed.

(** C39. A zero exit status is earned: when [run] ends with status 0, however the
    submission, the watch and the requests for the status went and however the
    user interfered, the controller has said that the job succeeded, or that it
    failed with an exit code that is a multiple of 256, of which nothing is left
    in the process's own. *)
Theorem zero_is_earned (wait_fuel : nat) (clk : Clock) (ask : Answers) (cancel : CancelJobRequest -> result CancelJobResponse string)
    (fresh job_group_id : string) (job_id : option string) (stage : string) (command_override : option string)
    (submit : SubmitStageRequest -> result SubmitStageResponse string) (watch : WatchJobLogsRequest -> result unit string) (ended : log_end)
    (o : outcome) :
  (run_execute wait_fuel clk ask cancel fresh job_group_id job_id stage command_override submit watch ended).2 = Some o ->
  exit_status o = 0 -> said_success ask.
Proof.
  unfold run_execute. destruct (submit _) as [resp|e]; [|by intros [= <-]]. destruct (negb (sp_accepted resp)); [by intros [= <-]|].
  destruct (watch _) as [_|e]; [|apply poll_zero]. destruct ended as [r| |]; [apply status_zero| |].
  - destruct (cancel_and_exit _ _ _ _ _ _ _ 130) as [rs o'] eqn:Hc. simpl. intros ->.
    pose proof (cancel_nonzero wait_fuel clk ask cancel (default fresh job_id) job_group_id "User interrupted (Ctrl+C)" 130 o) as Hz.
    rewrite Hc in Hz. rewrite (Hz eq_refl). done.
  - destruct (cancel_and_exit _ _ _ _ _ _ _ 143) as [rs o'] eqn:Hc. simpl. intros ->.
    pose proof (cancel_nonzero wait_fuel clk ask cancel (default fresh job_id) job_group_id "Process terminated (SIGTERM)" 143 o) as Hz.
    rewrite Hc in Hz. rewrite (Hz eq_refl). done.
Qed.

(** ** Against the controller *)

(** The status the process should end with. *)
Definition expected_exit (s : JobState) (code : Z) : Z :=
  match s with JSuccess => 0 | JFailed => (if code =? 0 then 1 else code) mod 256 | JCancelled => 130 | _ => 1 end.

Lemma proto_roundtrip s : state_of_proto (job_state_to_proto s) = s.
Proof. by destruct s. Qed.

Lemma status_answered fuel wf deadline clk ask n st o :
  (forall i, (i < n)%nat -> failed (ask i) /\ clk i < deadline) -> ask n = Some (Ok st) -> terminal_outcome st = Some o -> (n < fuel)%nat ->
  status_loop fuel wf deadline clk ask = Some o.
Proof.
  revert clk ask n. induction fuel as [|fuel IH]; intros clk ask n Herr Hn Ht Hf; [lia|]. simpl. destruct n as [|n].
  { rewrite Hn. unfold process_terminal_status. by rewrite Ht. }
  destruct (Herr 0%nat ltac:(lia)) as [[e H0] Hc]. rewrite H0. destruct (Z.leb_spec deadline (clk 0%nat)); [lia|].
  apply (IH _ _ n); [|done|done|lia]. intros i Hi. apply (Herr (S i)). lia.
Qed.

(** C16. The runner reports the job: when the controller is not reached for a
    while, within the budget of a minute, and then answers for a job that has
    ended, from its registry or, when the job is not there, from its row, the
    command's exit status is the job's: 0 when it succeeded, 130 when it was
    cancelled, and when it failed its exit code, with 1 for a code that is 0 or
    missing. *)
Theorem run_reports_job (uuid_v5 : string -> Uuid) (storage : option (Uuid -> result (option DbJob) string)) (job_id : string)
    (c : Controller) (s : JobState) (code : Z) (clk : Clock) (ask : Answers) (n wf : nat) :
  match get_job job_id (Controller.jobs c) with
  | Some job => s = j_state job /\ code = default 0 (j_exit_code job)
  | None => exists get_row row, storage = Some get_row /\ get_row (uuid_v5 job_id) = Ok (Some row) /\
              dj_state row = JobState_to_string s /\ code = default 0 (dj_exit_code row)
  end ->
  JobState_is_terminal s = true -> ask n = Some (Ok (get_job_status uuid_v5 storage job_id c)) -> (n < 11)%nat ->
  (forall i, (i < n)%nat -> failed (ask i) /\ clk (S i) < clk 0%nat + STATUS_RETRY_BUDGET_SECS * 1000) ->
  exists o, exit_with_job_status 11 wf clk ask = Some o /\ exit_status o = expected_exit s code.
Proof.
  intros Hjob Hs Hask Hn Herr. set (st := get_job_status uuid_v5 storage job_id c) in *.
  assert (E : status_state st = s /\ gs_exit_code st = code).
  { unfold st, get_job_status, status_state. destruct (get_job job_id (Controller.jobs c)) as [job|].
    - destruct Hjob as [-> ->]. simpl. by rewrite proto_roundtrip.
    - destruct Hjob as (get_row & row & -> & -> & Hd & ->). simpl. rewrite Hd. by destruct s. }
  destruct E as [E1 E2].
  exists (match s with JSuccess => Finished (Ok tt) | JFailed => Exited (failure_code st) | _ => Exited 130 end). split.
  - apply (status_answered _ _ _ _ _ n st); [exact Herr|done| |done]. unfold terminal_outcome. rewrite E1. by destruct s.
  - unfold failure_code. rewrite E2. by destruct s.
Qed.

(** A job submitted on its own has its row under another id than the one that is
    asked for: once the registry has lost it, after a restart say, the runner is
    told that there is no such job, and ends as if it had failed, whatever became
    of it. *)
Lemma adhoc_job_forgotten (uuid_v5 : string -> Uuid) (uuid_to_string : Uuid -> string) (now : timestamp) (req : SubmitJobRequest)
    (final : DbJob) (c : Controller) (clk : Clock) (ask : Answers) (wf : nat) :
  (forall a b, uuid_v5 a = uuid_v5 b -> a = b) -> (forall a b, uuid_to_string a = uuid_to_string b -> a = b) ->
  get_job (sj_job_id req) (Controller.jobs c) = None -> dj_id final = dj_id (adhoc_db_job uuid_v5 uuid_to_string now req) ->
  let get_row id := Ok (if bool_decide (uuid_to_string id = dj_id final) then Some final else None) in
  (forall k, ask k = Some (Ok (get_job_status uuid_v5 (Some get_row) (sj_job_id req) c))) -> clk 1%nat + 300000 >= clk 2%nat ->
  exit_with_job_status 11 (S wf) clk ask = Some (Exited 1).
Proof.
  intros Hv Hs Hc Hid get_row Hask Hclk.
  assert (Hst : exists st, (forall k, ask k = Some (Ok st)) /\ gs_found st = false /\ gs_state st = 0).
  { eexists. split; [exact Hask|]. unfold get_job_status. rewrite Hc. unfold get_row. rewrite bool_decide_eq_false_2; [done|].
    rewrite Hid. intros E%Hs%Hv. apply (f_equal String.length) in E. unfold db_job_id in E. rewrite str_length_app in E. simpl in E. lia. }
  destruct Hst as (st & Hst & Hf & Hz). unfold exit_with_job_status, status_loop. unfold later at 2. rewrite Hst.
  unfold process_terminal_status, terminal_outcome, status_state. rewrite Hz. simpl.
  unfold wait_for_job_termination_with_timeout, wait_loop, later. simpl.
  destruct (Z.ltb_spec (clk 1%nat + 300 * 1000) (clk 2%nat)); [lia|]. by rewrite Hst, Hf.
Qed.

(** What is printed is what the watch shows, for chunks that are text each on
    their own. *)
Lemma printed_shown (lossy : string -> string) (w : Watch.Watch LogChunk) :
  (forall s, is_utf8 s = true -> lossy s = s) -> Forall (fun c => is_utf8 (lc_data c) = true) (wt_out w) ->
  printed lossy (wt_out w) = shown w.
Proof.
  intros Hl. unfold shown, printed, chunks_data. induction (wt_out w) as [|c cs IH]; intros Hcs; [done|]. apply Forall_cons in Hcs as [Hc Hcs].
  simpl. rewrite IH by done. case_bool_decide as He; [by rewrite He|]. by rewrite Hl.
Qed.

(** Without a flag and without a file there is no address, in spite of the
    default that a file without one gets. *)
Example no_default_controller :
  controller_address None None = EmptyString /\ controller_address None (Some (RunnerConfig_of None None)) = "http://localhost:50051".
Proof. split; reflexivity. Qed.

(** [logs] for a group asks for the log of a job without a name. *)
Example group_logs_of_nobody :
  exists req, (logs_execute (Some "g-1") None (Some "build") (fun _ => Ok tt) None).1 = [RWatch req] /\ wl_job_id req = EmptyString.
Proof. eexists. split; reflexivity. Qed.

(** An interrupted [run] cancels its own job, not the group. *)
Example interrupt_cancels_job :
  (run_execute 1 (fun k => Z.of_nat k) (fun _ => Some (Err "x")) (fun _ => Err "x") "j" "g" None "build" None
     (fun req => Ok {| sp_job_id := sq_job_id req; sp_stage_name := "build"; sp_accepted := true; sp_message := EmptyString |})
     (fun _ => Ok tt) CtrlC) =
  ([RSubmitStage (run_request "g" "j" "build" None); RWatch (watch_request "j" "g" "build");
    RCancel {| cr_job_id := "j"; cr_job_group_id := "g"; cr_reason := "User interrupted (Ctrl+C)" |}], Some (Exited 130)).
Proof. reflexivity. Qed.

(** A controller that is gone while the job is waited for counts as a failure of
    the job; one that is gone from the start, as unknown. *)
Example outage_while_waiting :
  let going := {| gs_found := true; gs_job_id := "j"; gs_state := 3; gs_message := EmptyString; gs_exit_code := 0 |} in
  exit_with_job_status 11 603 (fun k => Z.of_nat k) (fun k => Some match k with O => Ok going | _ => Err "gone" end) = Some (Exited 1) /\
  exit_with_job_status 11 603 (fun k => 10000 * Z.of_nat k) (fun _ => Some (Err "gone")) = Some (Exited STATUS_UNKNOWN_EXIT).
Proof. split; vm_compute; reflexivity. Qed.

(** ** Witnesses *)

(** Nobody answers, and the pauses take just their time. *)
Definition retry_clock (k : nat) : Z := match k with O => 0 | S k' => elapsed k' end.

Definition unreachable : Answers := fun _ => Some (Err "unreachable").

Lemma elapsed_bound k : elapsed k <= STATUS_RETRY_BUDGET_SECS * 1000.
Proof. destruct k; simpl; [unfold STATUS_RETRY_BUDGET_SECS|]; lia. Qed.

Lemma status_decided_witness :
  exit_with_job_status 11 603 retry_clock unreachable = Some (Exited 2) /\ is_Some (exit_with_job_status 11 603 retry_clock unreachable).
Proof.
  split; [vm_compute; reflexivity|]. apply status_decided; [|by intros k; eexists]. split; [simpl; lia| |done].
  intros k _ deadline _. unfold deadline. change (retry_clock (S (S k))) with (Z.min (elapsed k + backoff_secs k * 1000) (STATUS_RETRY_BUDGET_SECS * 1000)).
  change (retry_clock (S k)) with (elapsed k). change (retry_clock 0) with 0. pose proof (elapsed_bound k). lia.
Defined.

Definition job_said (code exit_code : Z) : GetJobStatusResponse :=
  {| gs_found := true; gs_job_id := "j"; gs_state := code; gs_message := EmptyString; gs_exit_code := exit_code |}.

(** The controller comes back at the third attempt, with a job that succeeds. *)
Lemma zero_is_earned_witness :
  let ask k := Some match k with 0%nat | 1%nat => Err "unreachable" | 2%nat => Ok (job_said 3 0) | _ => Ok (job_said 4 0) end in
  let ran := run_execute 603 (fun k => 1000 * Z.of_nat k) ask (fun _ => Err "x") "j" "g" None "build" None
     (fun req => Ok {| sp_job_id := sq_job_id req; sp_stage_name := "build"; sp_accepted := true; sp_message := EmptyString |})
     (fun _ => Ok tt) (StreamDone (Err "broken")) in
  ran.2 = Some (Finished (Ok tt)) /\ said_success ask.
Proof.
  intros ask ran. assert (E : ran.2 = Some (Finished (Ok tt))) by (vm_compute; reflexivity). split; [exact E|].
  exact (zero_is_earned _ _ _ _ _ _ _ _ _ _ _ _ _ E eq_refl).
Defined.

(** A job that failed with 7, after one failed request. *)
Lemma run_reports_job_witness :
  let failed := let j := Job_new 0 "j" "make" JTCommon 1 1 1 in {| j with j_state := JFailed; j_exit_code := Some 7 |} in
  let c := {| workers := ∅; Controller.jobs := {[ "j" := failed ]}; jgroups := JobGroupRegistry_new; logs := LogAggregator_new None;
              job_stream_senders := ∅; token_hashes := ∅; has_storage := false; has_redis := false; effects := [] |} in
  let ask k := Some match k with 0%nat => Err "unreachable" | _ => Ok (get_job_status (fun _ => 0%N) None "j" c) end in
  exists o, exit_with_job_status 11 603 (fun k => 1000 * Z.of_nat k) ask = Some o /\ exit_status o = 7.
Proof.
  intros failed c ask. apply (run_reports_job (fun _ => 0%N) None "j" c JFailed 7 (fun k => 1000 * Z.of_nat k) ask 1 603).
  - vm_compute. by split.
  - done.
  - done.
  - lia.
  - intros [|i] Hi; [|lia]. split; [by eexists|]. unfold STATUS_RETRY_BUDGET_SECS. lia.
Defined.
