(* ===== verification/Notifications.v ===== *)
(** * Notifications and webhook deliveries
    (crates/ci-controller/src/storage.rs: notification_configs and
    webhook_deliveries; migrations 007 and 013; notifier.rs;
    api/notification_handlers.rs, [list_deliveries] of api/webhook_handlers.rs)

    The tables are keyed maps with their constraints, as in [Catalog]. A
    completed group leaves a [Notify] effect in [Controller]; the notifier turns
    it into requests to the channels that are configured. Whether a request gets
    through is only logged. *)

From Stdlib Require Import ZArith Lia.
From stdpp Require Import gmap strings list fin_maps sorting.
From S2P Require Import Prelude Text F64 WorkerModel JobModel StageModel Scheduler WorkerRegistry JobRegistry JobGroupRegistry.
From S2P Require Import LogAggregator Controller Json Web Handlers WorkerStore BuildStore Catalog WebhookApi.

(** ** notification_configs *)

Record NotificationRow := {
  nc_id : Uuid;
  nc_repo_id : Uuid;
  nc_trigger : string;
  nc_channel_type : string;
  nc_config : Json;
  nc_enabled : bool;
  nc_created_at : timestamp
}.

Abbreviation NotificationTable := (gmap Uuid NotificationRow) (only parsing).

Definition create_notification_config (id : Uuid) (now : timestamp) (repo : Uuid) (trigger channel_type : string) (config : Json)
    (enabled : bool) (cat : Catalog) (t : NotificationTable) : result NotificationRow string * NotificationTable :=
  let row := {| nc_id := id; nc_repo_id := repo; nc_trigger := trigger; nc_channel_type := channel_type; nc_config := config;
                nc_enabled := enabled; nc_created_at := now |} in
  if negb (fits 20 trigger && fits 20 channel_type) then (Err "value too long", t)
  else if negb (bool_decide (trigger ∈ ["on_success"; "on_failure"; "on_complete"])) then (Err "check constraint", t)
  else if negb (bool_decide (channel_type ∈ ["slack"; "webhook"])) then (Err "check constraint", t)
  else if bool_decide (is_Some (t !! id)) then (Err "duplicate key", t)
  else if bool_decide (is_Some (repos_table cat !! repo)) then (Ok row, <[id := row]> t)
  else (Err "foreign key", t).

Definition update_notification_config (id : Uuid) (enabled : bool) (config : Json) (t : NotificationTable)
    : option NotificationRow * NotificationTable :=
  match t !! id with
  | None => (None, t)
  | Some row => let row' := {| row with nc_enabled := enabled; nc_config := config |} in (Some row', <[id := row']> t)
  end.

Definition delete_notification_config (id : Uuid) (t : NotificationTable) : bool * NotificationTable :=
  (bool_decide (is_Some (t !! id)), delete id t).

(** [ON DELETE CASCADE] *)
Definition drop_notifications (cat : Catalog) (t : NotificationTable) : NotificationTable :=
  filter (fun kv => is_Some (repos_table cat !! nc_repo_id kv.2)) t.

(** ** The notifier *)

(** A request that is sent: its address and its body. *)
Definition Post : Type := string * Json.

Definition build_slack_body (payload : Json) : Json :=
  let part k := default "?"%string (jget k payload ≫= as_str) in
  Obj [("text", Str ("Build *" +:+ part "group_id" +:+ "* for `" +:+ part "repo" +:+ "` branch `" +:+ part "branch" +:+ "` — *"
                       +:+ part "state" +:+ "*")%string)].

Definition dispatch_slack (config payload : Json) : result Post string :=
  match jget "webhook_url" config ≫= as_str with
  | Some url => Ok (url, build_slack_body payload)
  | None => Err "slack config missing webhook_url"
  end.

Definition dispatch_webhook (config payload : Json) : result Post string :=
  match jget "url" config ≫= as_str with Some url => Ok (url, payload) | None => Err "webhook config missing url" end.

Definition dispatch_one (payload : Json) (row : NotificationRow) : option Post :=
  let sent :=
    if bool_decide (nc_channel_type row = "slack") then Some (dispatch_slack (nc_config row) payload)
    else if bool_decide (nc_channel_type row = "webhook") then Some (dispatch_webhook (nc_config row) payload)
    else None in
  match sent with Some (Ok p) => Some p | _ => None end.

Section Notifier.
Context `{HI : HashIter}.

Definition list_notification_configs (repo : Uuid) (t : NotificationTable) : list NotificationRow :=
  sort_by (fun a b => nc_created_at a ?= nc_created_at b) (filter (fun row => nc_repo_id row = repo) (hvalues t)).

Definition get_notification_configs_for_trigger (repo : Uuid) (event_type : string) (t : NotificationTable) : list NotificationRow :=
  filter (fun row => nc_repo_id row = repo /\ nc_trigger row = event_type) (hvalues t).

Definition dispatch_notifications (ok : bool) (repo : Uuid) (event_type : string) (payload : Json) (t : NotificationTable) : list Post :=
  if ok then omap (dispatch_one payload) (get_notification_configs_for_trigger repo event_type t) else [].

Context (rfc3339 : timestamp -> string) (uuid_to_string : Uuid -> string).

(** The payload of [report_job_status]. *)
Definition completion_payload (gid repo : Uuid) (branch commit_sha : option string) (state : JobGroupState) : Json := Obj [
  ("group_id", Str (uuid_to_string gid)); ("repo", Str (uuid_to_string repo)); ("branch", jopt Str branch);
  ("commit_sha", jopt Str commit_sha); ("state", Str (JobGroupState_to_string state))].

(** What the effects of the controller send. *)
Definition notices (ok : bool) (t : NotificationTable) (es : list Effect) : list Post :=
  es ≫= fun e =>
    match e with
    | Notify repo event gid branch commit_sha state =>
        dispatch_notifications ok repo event (completion_payload gid repo branch commit_sha state) t
    | _ => []
    end.

(** ** Handlers *)

Record CreateNotificationRequest := {
  cn_trigger : string;
  cn_channel_type : string;
  cn_config : Json;
  cn_enabled : bool
}.

Definition create_notification_request (j : Json) : option CreateNotificationRequest :=
  trigger ← field j "trigger" as_str None;
  channel_type ← field j "channel_type" as_str None;
  config ← jget "config" j;
  enabled ← field j "enabled" as_bool (Some true);
  Some {| cn_trigger := trigger; cn_channel_type := channel_type; cn_config := config; cn_enabled := enabled |}.

Definition validate_trigger (trigger : string) : result unit ApiError :=
  if bool_decide (trigger ∈ ["on_success"; "on_failure"; "on_complete"]) then Ok tt
  else Err (BadRequest "trigger must be on_success, on_failure, or on_complete").

Definition validate_channel_type (channel_type : string) : result unit ApiError :=
  if bool_decide (channel_type ∈ ["slack"; "webhook"]) then Ok tt else Err (BadRequest "channel_type must be slack or webhook").

Definition notification_json (row : NotificationRow) : Json := Obj [
  ("id", Str (uuid_to_string (nc_id row))); ("repo_id", Str (uuid_to_string (nc_repo_id row))); ("trigger", Str (nc_trigger row));
  ("channel_type", Str (nc_channel_type row)); ("config", nc_config row); ("enabled", Json.Bool (nc_enabled row));
  ("created_at", Str (rfc3339 (nc_created_at row)))].

Definition list_notifications (ok : bool) (repo : Uuid) (st : option NotificationTable) : result Json ApiError :=
  reading ok st (fun t =>
    let rows := list_notification_configs repo t in
    Ok (Obj [("notifications", jarr notification_json rows); ("count", Num (Z.of_nat (length rows)))])).

Definition create_notification (ok : bool) (id : Uuid) (now : timestamp) (auth : AuthUser) (repo : Uuid) (b : CreateNotificationRequest)
    (cat : Catalog) (st : option NotificationTable) : Reply NotificationTable :=
  guarded auth (let? _ := validate_trigger (cn_trigger b) in validate_channel_type (cn_channel_type b)) st
    (fun t => answered ok t
       (create_notification_config id now repo (cn_trigger b) (cn_channel_type b) (cn_config b) (cn_enabled b) cat t)
       (fun row => Ok (notification_json row))).

(** The repo in the path is not used. *)
Definition update_notification (ok : bool) (auth : AuthUser) (_repo nid : Uuid) (enabled : bool) (config : Json)
    (st : option NotificationTable) : Reply NotificationTable :=
  guarded auth (Ok tt) st (fun t =>
    let '(o, t') := update_notification_config nid enabled config t in
    answered ok t (Ok o, t') (fun o => found "Notification config not found" o notification_json)).

Definition delete_notification (ok : bool) (auth : AuthUser) (_repo nid : Uuid) (st : option NotificationTable) : Reply NotificationTable :=
  guarded auth (Ok tt) st (fun t =>
    answered ok t (Ok (delete_notification_config nid t).1, (delete_notification_config nid t).2)
      (deleted "Notification config not found")).
End Notifier.

(** ** webhook_deliveries *)

Record DeliveryRow := {
  wd_id : Uuid;
  wd_webhook_id : Uuid;
  wd_event : string;
  wd_status_code : option Z;
  wd_response_time_ms : option Z;
  wd_error_message : option string;
  wd_created_at : timestamp
}.

Abbreviation DeliveryTable := (gmap Uuid DeliveryRow) (only parsing).

Definition record_webhook_delivery (id : Uuid) (now : timestamp) (webhook_id : Uuid) (event : string) (status_code response_time_ms : option Z)
    (error_message : option string) (hooks : list Webhook) (t : DeliveryTable) : result unit string * DeliveryTable :=
  if negb (fits 100 event) then (Err "value too long", t)
  else if bool_decide (is_Some (t !! id)) then (Err "duplicate key", t)
  else if negb (existsb (fun w => bool_decide (wh_id w = webhook_id)) hooks) then (Err "foreign key", t)
  else (Ok tt, <[id := {| wd_id := id; wd_webhook_id := webhook_id; wd_event := event; wd_status_code := status_code;
                          wd_response_time_ms := response_time_ms; wd_error_message := error_message; wd_created_at := now |}]> t).

Section Deliveries.
Context `{HI : HashIter} (rfc3339 : timestamp -> string) (uuid_to_string : Uuid -> string).

(** [ORDER BY created_at DESC LIMIT n], for a limit that is not negative *)
Definition list_webhook_deliveries (webhook_id : Uuid) (limit : nat) (t : DeliveryTable) : list DeliveryRow :=
  take limit (sort_by (fun a b => wd_created_at b ?= wd_created_at a) (filter (fun row => wd_webhook_id row = webhook_id) (hvalues t))).

Definition delivery_json (webhook_id : Uuid) (row : DeliveryRow) : Json := Obj [
  ("id", Str (uuid_to_string (wd_id row))); ("webhook_id", Str (uuid_to_string webhook_id)); ("event", Str (wd_event row));
  ("status_code", jopt Num (wd_status_code row)); ("response_time_ms", jopt Num (wd_response_time_ms row));
  ("error_message", jopt Str (wd_error_message row)); ("created_at", Str (rfc3339 (wd_created_at row)))].

Definition list_deliveries (ok : bool) (auth : AuthUser) (webhook_id : Uuid) (st : option DeliveryTable) : result Json ApiError :=
  if negb (can_manage_repos (au_role auth)) then Err (Forbidden "Insufficient permissions")
  else reading ok st (fun t => Ok (Obj [("deliveries", jarr (delivery_json webhook_id) (list_webhook_deliveries webhook_id 50 t))])).
End Deliveries.

(** ** What is sent *)

Section NotifierFacts.
Context `{HI : HashIter} (uuid_to_string : Uuid -> string).

Lemma elem_of_dispatch repo event payload t p :
  p ∈ dispatch_notifications true repo event payload t <->
  exists id row, t !! id = Some row /\ nc_repo_id row = repo /\ nc_trigger row = event /\ dispatch_one payload row = Some p.
Proof.
  unfold dispatch_notifications, get_notification_configs_for_trigger. rewrite list_elem_of_omap.
  setoid_rewrite list_elem_of_filter. setoid_rewrite elem_of_hvalues. naive_solver.
Qed.

Lemma notices_app ok t es es' : notices uuid_to_string ok t (es ++ es') = notices uuid_to_string ok t es ++ notices uuid_to_string ok t es'.
Proof. unfold notices. apply bind_app. Qed.

Definition event_of (state : JobGroupState) : string := if bool_decide (state = GSuccess) then "on_success" else "on_failure".

(** What a completed build sends: closing a group of a repo sends exactly one
    request for each of the repo's configurations with the trigger of the
    outcome, success or anything else, and the address its channel needs; no other
    repo's and no other trigger's. Whether the configuration is enabled makes no
    difference, and one for every completion is never among them. *)
Theorem completion_sends (gid repo : Uuid) (info : completion) (c : Controller) (t : NotificationTable) (p : Post) :
  has_storage c = true -> c_repo info = Some repo ->
  let sent := notices uuid_to_string true t (drop (length (effects c)) (effects (close_group gid info c))) in
  p ∈ sent <->
  exists id row, t !! id = Some row /\ nc_repo_id row = repo /\ nc_trigger row = event_of (c_state info) /\
    dispatch_one (completion_payload uuid_to_string gid repo (c_branch info) (c_commit_sha info) (c_state info)) row = Some p.
Proof.
  intros Hs Hr sent. rewrite <- elem_of_dispatch. unfold sent, close_group, db, redis. rewrite Hr.
  assert (E : forall es es', drop (length (effects c)) (effects c ++ es ++ es') = es ++ es') by (intros; by rewrite drop_app_length).
  destruct (c_worker info); simpl; rewrite Hs; simpl; rewrite <- ?app_assoc, ?drop_app_length; simpl;
    [destruct (has_redis c)|]; simpl; rewrite ?app_nil_r; done.
Qed.
End NotifierFacts.

Definition a_config (id : Uuid) (trigger : string) (enabled : bool) : NotificationRow :=
  {| nc_id := id; nc_repo_id := 7%N; nc_trigger := trigger; nc_channel_type := "webhook";
     nc_config := Obj [("url", Str ("https://hooks/" +:+ trigger)%string)]; nc_enabled := enabled; nc_created_at := 0 |}.

Definition some_configs : NotificationTable := {[ 1%N := a_config 1 "on_failure" false; 2%N := a_config 2 "on_complete" true ]}.

Definition a_failure : completion := {|
  c_state := GFailed; c_worker := None; c_repo := Some 7%N; c_branch := Some "main"; c_commit_sha := None;
  c_alloc := AllocatedResources_default; c_reason := None |}.

Definition storing : Controller := {|
  workers := ∅; jobs := ∅; jgroups := JobGroupRegistry_new; logs := LogAggregator_new None; job_stream_senders := ∅; token_hashes := ∅;
  has_storage := true; has_redis := false; effects := [] |}.

(** A disabled configuration is used, and one for every completion is not. *)
Lemma completion_sends_witness :
  let sent := notices (HI := map_iter) (fun _ => EmptyString) true some_configs (drop 0 (effects (close_group 3 a_failure storing))) in
  (exists body, sent = [("https://hooks/on_failure", body)]) /\
  forall p, p ∈ sent <->
  exists id row, some_configs !! id = Some row /\ nc_repo_id row = 7%N /\ nc_trigger row = event_of GFailed /\
    dispatch_one (completion_payload (fun _ => EmptyString) 3 7 (Some "main") None GFailed) row = Some p.
Proof.
  intros sent. split; [eexists; vm_compute; reflexivity|]. intros p.
  apply (completion_sends (HI := map_iter) (fun _ => EmptyString) 3 7 a_failure storing some_configs p); reflexivity.
Defined.

(** The list of deliveries is the newest fifty. *)
Lemma deliveries_bounded `{HI : HashIter} (w : Uuid) (n : nat) (t : DeliveryTable) :
  (length (list_webhook_deliveries w n t) <= n)%nat /\ Forall (fun row => wd_webhook_id row = w) (list_webhook_deliveries w n t).
Proof.
  unfold list_webhook_deliveries. split; [rewrite length_take; lia|]. apply Forall_take, Forall_forall. intros row Hrow.
  rewrite sort_by_perm in Hrow. by apply list_elem_of_filter in Hrow as [? _].
Qed.
