(* ===== verification/Artifacts.v ===== *)
(** * Build artifacts
    (crates/ci-controller/src/storage.rs: artifacts; migration 019;
    api/artifact_handlers.rs)

    An upload is a list of multipart fields, each with the chunks that arrive and
    whether it breaks off; it changes the files and the table field by field, and
    an error leaves what was done before it. The files are a map from path to
    contents. The writer buffers: when it is dropped before it was flushed, the
    file holds the part of the data that [fd_written] says. *)

From Stdlib Require Import ZArith Lia Ascii.
From stdpp Require Import gmap strings list fin_maps sorting.
From S2P Require Import Prelude Text F64 WorkerModel JobModel StageModel Scheduler WorkerRegistry JobRegistry JobGroupRegistry.
From S2P Require Import LogAggregator Controller Dispatch Json Web Handlers WorkerStore BuildStore.

Record ArtifactRow := {
  af_id : Uuid;
  af_job_group_id : Uuid;
  af_job_id : option Uuid;
  af_stage_name : string;
  af_filename : string;
  af_file_path : string;
  af_size_bytes : Z;
  af_content_type : string;
  af_created_at : timestamp
}.

Record Store := {
  st_rows : gmap Uuid ArtifactRow;
  st_files : gmap string string
}.

Definition with_files (f : gmap string string -> gmap string string) (s : Store) : Store := {| s with st_files := f (st_files s) |}.

(** ** Statements *)

Definition insert_artifact (groups : gset Uuid) (row : ArtifactRow) (rows : gmap Uuid ArtifactRow)
    : result Uuid string * gmap Uuid ArtifactRow :=
  if negb (fits 255 (af_stage_name row) && fits 512 (af_filename row) && fits 255 (af_content_type row)) then (Err "value too long", rows)
  else if bool_decide (is_Some (rows !! af_id row)) then (Err "duplicate key", rows)
  else if bool_decide (af_job_group_id row ∈ groups) then (Ok (af_id row), <[af_id row := row]> rows)
  else (Err "foreign key", rows).

Definition get_artifact (id : Uuid) (rows : gmap Uuid ArtifactRow) : option (string * string * string) :=
  (fun row => (af_file_path row, af_filename row, af_content_type row)) <$> rows !! id.

Definition delete_artifacts_for_group (gid : Uuid) (rows : gmap Uuid ArtifactRow) : nat * gmap Uuid ArtifactRow :=
  (size (filter (fun kv => af_job_group_id kv.2 = gid) rows), filter (fun kv => af_job_group_id kv.2 <> gid) rows).

(** ** Upload *)

(** [str::contains] *)
Fixpoint has_sub (p s : string) : bool :=
  starts_with p s || match s with String _ s' => has_sub p s' | EmptyString => false end.

Definition validate_path_component (name value : string) : result unit ApiError :=
  if has_sub ".." value || has_char "/" value || has_char "\" value || has_char "000" value
  then Err (BadRequest ("Invalid " +:+ name)%string) else Ok tt.

Record Field := {
  fd_filename : option string;
  fd_chunks : list string;
  fd_broken : bool;
  fd_written : nat
}.

(** What the system calls of one field answer: the directory, the file, the n-th
    write, the removal of the file, the flush; then the insert. *)
Record FieldIo := {
  io_dir : bool;
  io_create : bool;
  io_write : nat -> bool;
  io_remove : bool;
  io_flush : bool;
  io_insert : bool;
  io_id : Uuid;
  io_now : timestamp
}.

Definition max_size : Z := 100 * 1024 * 1024.

Definition concat_all (chunks : list string) : string := foldr (fun c s => (c +:+ s)%string) EmptyString chunks.

(** The loop over the chunks: the data that is in the writer, or why it ended
    early, with whether the file is to be removed. *)
Fixpoint write_chunks (io : FieldIo) (n : nat) (size : Z) (data : string) (broken : bool) (chunks : list string)
    : result string (ApiError * bool) :=
  match chunks with
  | [] => if broken then Err (BadRequest "Upload read error", false) else Ok data
  | c :: cs =>
      let size' := size + len c in
      if max_size <? size' then Err (BadRequest "File exceeds 100MB limit", true)
      else if io_write io n then write_chunks io (S n) size' (data +:+ c) broken cs
      else Err (Internal "write", false)
  end.

Section Upload.
Context (uuid_to_string : Uuid -> string) (mime : string -> string) (groups : gset Uuid).

Definition artifact_dir (base : string) (gid : Uuid) (stage_name : string) : string :=
  (base +:+ "/artifacts/" +:+ uuid_to_string gid +:+ "/" +:+ stage_name)%string.

Definition artifact_path (base : string) (gid : Uuid) (stage_name filename : string) : string :=
  (artifact_dir base gid stage_name +:+ "/" +:+ filename)%string.

Definition uploaded_json (id : Uuid) (filename : string) (size : Z) (content_type : string) : Json := Obj [
  ("id", Str (uuid_to_string id)); ("filename", Str filename); ("size_bytes", Num size); ("content_type", Str content_type)].

Definition upload_field (base : string) (gid : Uuid) (stage_name : string) (io : FieldIo) (f : Field) (s : Store)
    : result Json ApiError * Store :=
  match fd_filename f with
  | None => (Err (BadRequest "Missing filename"), s)
  | Some filename =>
      match validate_path_component "filename" filename with
      | Err e => (Err e, s)
      | Ok _ =>
          if negb (io_dir io) then (Err (Internal "create_dir_all"), s)
          else
            let file_path := artifact_path base gid stage_name filename in
            if negb (io_create io) then (Err (Internal "create"), s)
            else
              let partial := str_take (fd_written f) (concat_all (fd_chunks f)) in
              match write_chunks io 0 0 EmptyString (fd_broken f) (fd_chunks f) with
              | Err (e, true) => (Err e, with_files (if io_remove io then delete file_path else <[file_path := partial]>) s)
              | Err (e, false) => (Err e, with_files (<[file_path := partial]>) s)
              | Ok data =>
                  if negb (io_flush io) then (Err (Internal "flush"), with_files (<[file_path := partial]>) s)
                  else
                    let s1 := with_files (<[file_path := data]>) s in
                    let row := {| af_id := io_id io; af_job_group_id := gid; af_job_id := None; af_stage_name := stage_name;
                                  af_filename := filename; af_file_path := file_path; af_size_bytes := len data;
                                  af_content_type := mime filename; af_created_at := io_now io |} in
                    if negb (io_insert io) then (Err (Internal "database"), s1)
                    else
                      match insert_artifact groups row (st_rows s1) with
                      | (Ok id, rows) => (Ok (uploaded_json id filename (len data) (mime filename)), {| s1 with st_rows := rows |})
                      | (Err e, _) => (Err (Internal e), s1)
                      end
              end
      end
  end.

(** [end_ok]: the multipart body ends as it should. *)
Fixpoint upload_fields (base : string) (gid : Uuid) (stage_name : string) (io : nat -> FieldIo) (n : nat) (end_ok : bool) (fs : list Field)
    (done_ : list Json) (s : Store) : result Json ApiError * Store :=
  match fs with
  | [] => (if end_ok then Ok (Obj [("uploaded", Arr done_)]) else Err (BadRequest "Multipart error"), s)
  | f :: fs' =>
      match upload_field base gid stage_name (io n) f s with
      | (Err e, s') => (Err e, s')
      | (Ok j, s') => upload_fields base gid stage_name io (S n) end_ok fs' (done_ ++ [j]) s'
      end
  end.

(** [log_dir] is the configured directory. Any user who is signed in may. *)
Definition upload_artifact (log_dir : option string) (gid : Uuid) (stage_name : string) (io : nat -> FieldIo) (end_ok : bool)
    (fs : list Field) (st : option Store) : result Json ApiError * option Store :=
  match validate_path_component "stage_name" stage_name, st with
  | Err e, _ => (Err e, st)
  | Ok _, None => (Err StorageUnavailable, st)
  | Ok _, Some s =>
      match log_dir with
      | None => (Err (Internal "Log directory not configured"), st)
      | Some base => let '(r, s') := upload_fields base gid stage_name io 0 end_ok fs [] s in (r, Some s')
      end
  end.

(** ** List and download *)

Context `{HI : HashIter} (rfc3339 : timestamp -> string).

Definition list_artifacts_for_group (gid : Uuid) (rows : gmap Uuid ArtifactRow) : list ArtifactRow :=
  sort_by (fun a b => af_created_at a ?= af_created_at b) (filter (fun row => af_job_group_id row = gid) (hvalues rows)).

Definition artifact_json (row : ArtifactRow) : Json := Obj [
  ("id", Str (uuid_to_string (af_id row))); ("job_id", jopt (fun u => Str (uuid_to_string u)) (af_job_id row));
  ("stage_name", Str (af_stage_name row)); ("filename", Str (af_filename row)); ("size_bytes", Num (af_size_bytes row));
  ("content_type", Str (af_content_type row)); ("created_at", Str (rfc3339 (af_created_at row)))].

Definition list_artifacts (ok : bool) (gid : Uuid) (st : option Store) : result Json ApiError :=
  reading ok st (fun s =>
    let rows := list_artifacts_for_group gid (st_rows s) in
    Ok (Obj [("artifacts", jarr artifact_json rows); ("count", Num (Z.of_nat (length rows)))])).

(** The headers' values and the body. *)
Definition download_artifact (ok : bool) (id : Uuid) (st : option Store) : result (string * string * string) ApiError :=
  match st with
  | None => Err StorageUnavailable
  | Some s =>
      if negb ok then Err (Internal "database")
      else
        match get_artifact id (st_rows s) with
        | None => Err (NotFound "Artifact not found")
        | Some (file_path, filename, content_type) =>
            match st_files s !! file_path with
            | None => Err (Internal "open")
            | Some data => Ok (content_type, ("attachment; filename=" +:+ quote filename)%string, data)
            end
        end
  end.
End Upload.

(** ** Where uploads go *)

Definition safe (v : string) : Prop := has_sub ".." v = false /\ has_char "/" v = false /\ has_char "\" v = false /\ has_char "000" v = false.

Lemma validated name v : validate_path_component name v = Ok tt <-> safe v.
Proof.
  unfold validate_path_component, safe. destruct (has_sub ".." v), (has_char "/" v), (has_char "\" v), (has_char "000" v); simpl; split;
    try done; by intros (? & ? & ? & ?).
Qed.

Section UploadFacts.
Context (uuid_to_string : Uuid -> string) (mime : string -> string) (groups : gset Uuid).

(** The paths an upload may touch. *)
Definition within (base : string) (gid : Uuid) (stage : string) (p : string) : Prop :=
  exists filename, safe filename /\ p = artifact_path uuid_to_string base gid stage filename.

Definition untouched_outside (base : string) (gid : Uuid) (stage : string) (s s' : Store) : Prop :=
  (forall p, st_files s' !! p <> st_files s !! p -> within base gid stage p) /\
  (forall id row, st_rows s' !! id = Some row ->
     st_rows s !! id = Some row \/ af_job_group_id row = gid /\ within base gid stage (af_file_path row)).

Lemma untouched_refl base gid stage s : untouched_outside base gid stage s s.
Proof. split; [done|by left]. Qed.

Lemma untouched_trans base gid stage s1 s2 s3 :
  untouched_outside base gid stage s1 s2 -> untouched_outside base gid stage s2 s3 -> untouched_outside base gid stage s1 s3.
Proof.
  intros [F1 R1] [F2 R2]. split.
  - intros p Hp. destruct (decide (st_files s2 !! p = st_files s1 !! p)) as [E|E]; [|by apply F1]. apply F2. by rewrite E.
  - intros id row Hr. destruct (R2 id row Hr) as [H|H]; [by apply R1|by right].
Qed.

Lemma untouched_file base gid stage filename f s :
  safe filename -> (forall m p, p <> artifact_path uuid_to_string base gid stage filename -> f m !! p = m !! p) ->
  untouched_outside base gid stage s (with_files f s).
Proof.
  intros Hs Hf. split; [|by left]. simpl. intros p Hp. exists filename. split; [done|].
  destruct (decide (p = artifact_path uuid_to_string base gid stage filename)) as [|Hne]; [done|]. by rewrite Hf in Hp.
Qed.

Lemma upload_field_within base gid stage io f s :
  untouched_outside base gid stage s (upload_field uuid_to_string mime groups base gid stage io f s).2.
Proof.
  unfold upload_field. destruct (fd_filename f) as [filename|]; [|apply untouched_refl].
  destruct (validate_path_component "filename" filename) as [[]|e] eqn:Hv; [|apply untouched_refl]. apply validated in Hv.
  destruct (negb (io_dir io)); [apply untouched_refl|]. destruct (negb (io_create io)); [apply untouched_refl|].
  set (path := artifact_path _ _ _ _ _).
  assert (Hins : forall d, untouched_outside base gid stage s (with_files (<[path := d]>) s)).
  { intros d. apply (untouched_file _ _ _ filename); [done|]. intros m p Hp. by rewrite lookup_insert_ne. }
  destruct (write_chunks _ _ _ _ _ _) as [data|[e []]].
  - destruct (negb (io_flush io)); [apply Hins|]. destruct (negb (io_insert io)); [apply Hins|].
    unfold insert_artifact. destruct (negb _); [apply Hins|]. case_bool_decide; [apply Hins|]. case_bool_decide; [|apply Hins].
    destruct (Hins data) as [HF HR]. split; [exact HF|]. simpl. intros id row [[<- <-]|[_ Hr]]%lookup_insert_Some; [|by left].
    right. split; [done|]. by exists filename.
  - destruct (io_remove io); [|apply Hins]. apply (untouched_file _ _ _ filename); [done|]. intros m p Hp. by rewrite lookup_delete_ne.
  - apply Hins.
Qed.

(** C40. Uploads stay in their directory: whatever the stage and the file names of
    a request are, and wherever it fails, the only files it creates, changes or
    removes are in the artifact directory of its group and stage, under names
    without a separator and without a step to the parent, and so are the files
    that the rows it adds refer to. *)
Theorem upload_confined (base : string) (gid : Uuid) (stage : string) (io : nat -> FieldIo) (end_ok : bool) (fs : list Field) (s : Store) :
  let '(_, st') := upload_artifact uuid_to_string mime groups (Some base) gid stage io end_ok fs (Some s) in
  exists s', st' = Some s' /\ untouched_outside base gid stage s s' /\ (s' <> s -> safe stage).
Proof.
  unfold upload_artifact. destruct (validate_path_component "stage_name" stage) as [[]|e] eqn:Hv.
  2: { exists s. split_and!; [done|apply untouched_refl|done]. }
  apply validated in Hv.
  assert (H : forall fs n acc s0, untouched_outside base gid stage s0
    (upload_fields uuid_to_string mime groups base gid stage io n end_ok fs acc s0).2).
  { clear fs s. intros fs. induction fs as [|f fs IH]; intros n acc s0; [apply untouched_refl|]. simpl.
    pose proof (upload_field_within base gid stage (io n) f s0) as Hf. destruct (upload_field _ _ _ _ _ _ _ f s0) as [[j|e] s1]; [|done].
    eapply untouched_trans; [exact Hf|]. apply IH. }
  specialize (H fs 0%nat [] s). destruct (upload_fields _ _ _ _ _ _ _ _ _ _ _ s) as [r s']. by exists s'.
Qed.

Lemma write_chunks_ok io n size data broken chunks out :
  write_chunks io n size data broken chunks = Ok out -> out = (data +:+ concat_all chunks)%string /\ broken = false.
Proof.
  revert n size data. induction chunks as [|c cs IH]; intros n size data; simpl.
  - destruct broken; [done|]. intros [= <-]. by rewrite str_app_nil_r.
  - destruct (_ <? _); [done|]. destruct (io_write io n); [|done]. intros [-> ->]%IH. by rewrite str_app_assoc.
Qed.

(** An artifact comes back as it went in: after an upload of one file that
    was answered with success, downloading the artifact gives the bytes of the
    file, under its name and with the type guessed from it. *)
Theorem artifact_roundtrip (base : string) (gid : Uuid) (stage filename : string) (io : nat -> FieldIo) (f : Field) (s : Store) (reply : Json)
    (s' : Store) :
  fd_filename f = Some filename ->
  upload_artifact uuid_to_string mime groups (Some base) gid stage io true [f] (Some s) = (Ok reply, Some s') ->
  download_artifact true (io_id (io 0%nat)) (Some s') =
    Ok (mime filename, ("attachment; filename=" +:+ quote filename)%string, concat_all (fd_chunks f)).
Proof.
  intros Hf. unfold upload_artifact. destruct (validate_path_component "stage_name" stage); [|done]. simpl. unfold upload_field. rewrite Hf.
  destruct (validate_path_component "filename" filename); [|done]. destruct (negb (io_dir _)); [done|]. destruct (negb (io_create _)); [done|].
  destruct (write_chunks _ _ _ _ _ _) as [data|[e []]] eqn:Hw; [|done|done]. destruct (negb (io_flush _)); [done|].
  destruct (negb (io_insert _)); [done|]. unfold insert_artifact. destruct (negb _); [done|]. case_bool_decide; [done|].
  case_bool_decide; [|done]. simpl. intros [= _ <-]. apply write_chunks_ok in Hw as [-> _].
  unfold download_artifact, get_artifact. simpl. rewrite lookup_insert_eq. simpl. by rewrite lookup_insert_eq.
Qed.
End UploadFacts.

(** ** Examples *)

Definition smooth (id : Uuid) : FieldIo :=
  {| io_dir := true; io_create := true; io_write := fun _ => true; io_remove := true; io_flush := true; io_insert := true; io_id := id; io_now := 0 |}.

Definition a_file (name : string) (chunks : list string) (broken : bool) : Field :=
  {| fd_filename := Some name; fd_chunks := chunks; fd_broken := broken; fd_written := 2 |}.

Definition no_store : Store := {| st_rows := ∅; st_files := ∅ |}.

Lemma artifact_roundtrip_witness :
  let up := upload_artifact (fun _ => "g"%string) (fun _ => "text/plain"%string) {[ 3%N ]} (Some "/logs"%string) 3%N "build"
              (fun _ => smooth 5%N) true [a_file "out.txt" ["ab"; "cd"] false] (Some no_store) in
  exists reply s', up = (Ok reply, Some s') /\ st_files s' !! "/logs/artifacts/g/build/out.txt" = Some "abcd"%string /\
    download_artifact true 5%N (Some s') = Ok ("text/plain", "attachment; filename=" +:+ quote "out.txt", "abcd")%string.
Proof.
  intros up. eexists _, _. split; [vm_compute; reflexivity|]. split; [vm_compute; reflexivity|].
  eapply (artifact_roundtrip (fun _ => "g"%string) (fun _ => "text/plain"%string) {[ 3%N ]} "/logs" 3%N "build" "out.txt"
            (fun _ => smooth 5%N) (a_file "out.txt" ["ab"; "cd"] false) no_store); vm_compute; reflexivity.
Defined.

(** A name that would leave the directory is refused. *)
Example escape_refused :
  upload_artifact (fun _ => "g"%string) (fun _ => EmptyString) {[ 3%N ]} (Some "/logs"%string) 3%N ".." (fun _ => smooth 5%N) true []
    (Some no_store) = (Err (BadRequest "Invalid stage_name"), Some no_store).
Proof. reflexivity. Qed.

(** An upload that breaks off leaves part of the file, and no row. *)
Example broken_upload_left :
  let up := upload_artifact (fun _ => "g"%string) (fun _ => EmptyString) {[ 3%N ]} (Some "/logs"%string) 3%N "build"
              (fun _ => smooth 5%N) true [a_file "out.txt" ["ab"; "cd"] true] (Some no_store) in
  exists s', up = (Err (BadRequest "Upload read error"), Some s') /\ st_rows s' = ∅ /\
    st_files s' !! "/logs/artifacts/g/build/out.txt" = Some "ab"%string.
Proof. eexists. split_and!; vm_compute; reflexivity. Qed.

(** A second file of the same name replaces the first, whose row stays with its
    own size. *)
Example same_name_replaces :
  let io n := smooth (5 + N.of_nat n)%N in
  let up := upload_artifact (fun _ => "g"%string) (fun _ => EmptyString) {[ 3%N ]} (Some "/logs"%string) 3%N "build" io true
              [a_file "out.txt" ["first"] false; a_file "out.txt" ["2"] false] (Some no_store) in
  exists reply s', up = (Ok reply, Some s') /\ af_size_bytes <$> st_rows s' !! 5%N = Some 5 /\
    download_artifact true 5%N (Some s') = Ok (EmptyString, "attachment; filename=" +:+ quote "out.txt", "2")%string.
Proof. eexists _, _. split_and!; vm_compute; reflexivity. Qed.
