(* ===== verification/LabelGroups.v ===== *)
(** * Label groups
    (crates/ci-controller/src/storage.rs: label_groups; migrations 028 and 032;
    api/label_group_handlers.rs)

    A label group holds settings for the workers that have all of its labels. The
    table is a keyed map with unique names. *)

From Stdlib Require Import ZArith Lia.
From stdpp Require Import gmap strings list fin_maps sorting.
From S2P Require Import Prelude Text F64 WorkerModel JobModel StageModel Scheduler WorkerRegistry JobRegistry JobGroupRegistry.
From S2P Require Import LogAggregator Controller Json Web Handlers WorkerStore BuildStore Catalog.

Record DbLabelGroup := {
  lg_id : Uuid;
  lg_name : string;
  lg_match_labels : list string;
  lg_env_vars : Json;
  lg_pre_script : option string;
  lg_max_concurrent_jobs : Z;
  lg_capabilities : list string;
  lg_enabled : bool;
  lg_priority : Z;
  lg_created_at : timestamp;
  lg_updated_at : timestamp
}.

Abbreviation LabelTable := (gmap Uuid DbLabelGroup) (only parsing).

(** ** Statements *)

(** UNIQUE (name), for a row that is to be stored under [id] *)
Definition name_taken (id : Uuid) (name : string) (t : LabelTable) : bool :=
  existsb (fun kv => negb (bool_decide (kv.1 = id)) && bool_decide (lg_name kv.2 = name)) (map_to_list t).

Definition create_label_group (id : Uuid) (now : timestamp) (name : string) (match_labels : list string) (env_vars : option Json)
    (pre_script : option string) (max_concurrent_jobs : option Z) (capabilities : list string) (enabled : bool) (priority : option Z)
    (t : LabelTable) : result DbLabelGroup string * LabelTable :=
  let row := {| lg_id := id; lg_name := name; lg_match_labels := match_labels; lg_env_vars := default (Obj []) env_vars;
                lg_pre_script := pre_script; lg_max_concurrent_jobs := default 0 max_concurrent_jobs; lg_capabilities := capabilities;
                lg_enabled := enabled; lg_priority := default 0 priority; lg_created_at := now; lg_updated_at := now |} in
  if negb (fits 255 name) then (Err "value too long", t)
  else if bool_decide (is_Some (t !! id)) || name_taken id name t then (Err "duplicate key", t)
  else (Ok row, <[id := row]> t).

Record UpdateLabelGroupRequest := {
  ug_name : option string;
  ug_match_labels : option (list string);
  ug_env_vars : option Json;
  ug_pre_script : option string;
  ug_max_concurrent_jobs : option Z;
  ug_capabilities : option (list string);
  ug_enabled : option bool;
  ug_priority : option Z
}.

Definition updated_group (now : timestamp) (u : UpdateLabelGroupRequest) (g : DbLabelGroup) : DbLabelGroup := {|
  lg_id := lg_id g;
  lg_name := default (lg_name g) (ug_name u);
  lg_match_labels := default (lg_match_labels g) (ug_match_labels u);
  lg_env_vars := default (lg_env_vars g) (ug_env_vars u);
  lg_pre_script := coalesce_opt (ug_pre_script u) (lg_pre_script g);
  lg_max_concurrent_jobs := default (lg_max_concurrent_jobs g) (ug_max_concurrent_jobs u);
  lg_capabilities := default (lg_capabilities g) (ug_capabilities u);
  lg_enabled := default (lg_enabled g) (ug_enabled u);
  lg_priority := default (lg_priority g) (ug_priority u);
  lg_created_at := lg_created_at g;
  lg_updated_at := now
|}.

Definition update_label_group (id : Uuid) (now : timestamp) (u : UpdateLabelGroupRequest) (t : LabelTable)
    : result (option DbLabelGroup) string * LabelTable :=
  match t !! id with
  | None => (Ok None, t)
  | Some g =>
      let g' := updated_group now u g in
      if negb (fits 255 (lg_name g')) then (Err "value too long", t)
      else if name_taken id (lg_name g') t then (Err "duplicate key", t)
      else (Ok (Some g'), <[id := g']> t)
  end.

Definition delete_label_group (id : Uuid) (t : LabelTable) : bool * LabelTable := (bool_decide (is_Some (t !! id)), delete id t).

Section Reading.
Context `{HI : HashIter} {Co : Collation}.

Definition by_name (a b : DbLabelGroup) : comparison := collate (lg_name a) (lg_name b).

Definition list_label_groups (t : LabelTable) : list DbLabelGroup := sort_by by_name (hvalues t).

(** [match_labels <@ $1]: as sets. *)
Definition matches_labels (worker_labels : list string) (g : DbLabelGroup) : bool :=
  lg_enabled g && forallb (fun l => bool_decide (l ∈ worker_labels)) (lg_match_labels g).

Definition get_matching_label_groups (worker_labels : list string) (t : LabelTable) : list DbLabelGroup :=
  sort_by by_name (filter (fun g => matches_labels worker_labels g = true) (hvalues t)).

(** ** Handlers *)

Context (rfc3339 : timestamp -> string) (uuid_to_string : Uuid -> string).

Record LabelGroupRequest := {
  lr_name : string;
  lr_match_labels : list string;
  lr_env_vars : option Json;
  lr_pre_script : option string;
  lr_max_concurrent_jobs : option Z;
  lr_capabilities : option (list string);
  lr_enabled : option bool;
  lr_priority : option Z
}.

Definition label_group_to_json (g : DbLabelGroup) : Json := Obj [
  ("id", Str (uuid_to_string (lg_id g))); ("name", Str (lg_name g)); ("match_labels", jstrs (lg_match_labels g));
  ("env_vars", lg_env_vars g); ("pre_script", jopt Str (lg_pre_script g)); ("max_concurrent_jobs", Num (lg_max_concurrent_jobs g));
  ("capabilities", jstrs (lg_capabilities g)); ("enabled", Json.Bool (lg_enabled g)); ("priority", Num (lg_priority g));
  ("created_at", Str (rfc3339 (lg_created_at g))); ("updated_at", Str (rfc3339 (lg_updated_at g)))].

Definition not_found_label (id : Uuid) : string := ("Label group '" +:+ uuid_to_string id +:+ "' not found")%string.

(** The role is asked for first, then the database, then the name. *)
Definition admins {T : Type} (auth : AuthUser) (st : option T) (run : T -> result Json ApiError * T) : Reply T :=
  if negb (can_manage_repos (au_role auth)) then (Err (Forbidden "Admin access required"), st)
  else match st with None => (Err StorageUnavailable, None) | Some t => let '(r, t') := run t in (r, Some t') end.

Definition create_label_group_handler (ok : bool) (id : Uuid) (now : timestamp) (auth : AuthUser) (b : LabelGroupRequest)
    (st : option LabelTable) : Reply LabelTable :=
  admins auth st (fun t =>
    if bool_decide (trim (lr_name b) = EmptyString) then (Err (BadRequest "Name is required"), t)
    else answered ok t
      (create_label_group id now (lr_name b) (lr_match_labels b) (lr_env_vars b) (lr_pre_script b) (lr_max_concurrent_jobs b)
         (default [] (lr_capabilities b)) (default true (lr_enabled b)) (lr_priority b) t)
      (fun g => Ok (label_group_to_json g))).

Definition list_label_groups_handler (ok : bool) (st : option LabelTable) : result Json ApiError :=
  reading ok st (fun t => Ok (Obj [("data", jarr label_group_to_json (list_label_groups t))])).

Definition get_label_group_handler (ok : bool) (id : Uuid) (st : option LabelTable) : result Json ApiError :=
  reading ok st (fun t => found (not_found_label id) (t !! id) label_group_to_json).

Definition update_label_group_handler (ok : bool) (now : timestamp) (auth : AuthUser) (id : Uuid) (u : UpdateLabelGroupRequest)
    (st : option LabelTable) : Reply LabelTable :=
  admins auth st (fun t => answered ok t (update_label_group id now u t) (fun o => found (not_found_label id) o label_group_to_json)).

(** What the statement says of the row is dropped. *)
Definition delete_label_group_handler (ok : bool) (auth : AuthUser) (id : Uuid) (st : option LabelTable) : Reply LabelTable :=
  admins auth st (fun t =>
    answered ok t (Ok (delete_label_group id t).1, (delete_label_group id t).2) (fun _ => Ok (Obj [("deleted", Json.Bool true)]))).
End Reading.

(** ** Facts *)

Section LabelFacts.
Context `{HI : HashIter} {Co : Collation}.

(** A group matches a worker when it is enabled and the worker has all of its
    labels; a group without labels matches every worker. *)
Lemma matching_spec labels t g :
  g ∈ get_matching_label_groups labels t <-> (exists id, t !! id = Some g) /\ lg_enabled g = true /\ lg_match_labels g ⊆ labels.
Proof.
  unfold get_matching_label_groups, matches_labels. rewrite elem_of_sort_by, list_elem_of_filter, elem_of_hvalues, andb_true_iff, forallb_forall.
  split.
  - intros [[He Hl] Hi]. split_and!; [done|done|]. intros l Hl'. specialize (Hl l (proj1 (list_elem_of_In _ _) Hl')).
    by apply bool_decide_eq_true in Hl.
  - intros (Hi & He & Hl). split_and!; [done| |done]. intros l Hl'%list_elem_of_In. apply bool_decide_eq_true. by apply Hl.
Qed.

Definition names_unique (t : LabelTable) : Prop := forall i j g h, t !! i = Some g -> t !! j = Some h -> lg_name g = lg_name h -> i = j.

Lemma name_free id name t g j : name_taken id name t = false -> t !! j = Some g -> lg_name g = name -> j = id.
Proof.
  unfold name_taken. intros Hn Hj Hg. destruct (decide (j = id)) as [|Hne]; [done|]. exfalso.
  assert (Ht : existsb (fun kv => negb (bool_decide (kv.1 = id)) && bool_decide (lg_name kv.2 = name)) (map_to_list t) = true).
  { apply existsb_exists. exists (j, g). split; [by apply list_elem_of_In, elem_of_map_to_list|]. simpl.
    by rewrite bool_decide_eq_false_2, bool_decide_eq_true_2. }
  congruence.
Qed.

Lemma insert_unique id g t : names_unique t -> name_taken id (lg_name g) t = false -> names_unique (<[id := g]> t).
Proof.
  intros Ht Hn i j a b Hi Hj E. destruct (decide (i = id)) as [->|Hi']; destruct (decide (j = id)) as [->|Hj']; [done| | |].
  - rewrite lookup_insert_eq in Hi. rewrite lookup_insert_ne in Hj by done. injection Hi as ->. symmetry. by apply (name_free id (lg_name a) t b).
  - rewrite lookup_insert_eq in Hj. rewrite lookup_insert_ne in Hi by done. injection Hj as ->. by apply (name_free id (lg_name b) t a).
  - rewrite lookup_insert_ne in Hi, Hj by done. by apply (Ht i j a b).
Qed.

Lemma create_unique id now name labels env pre mcj caps en pri t :
  names_unique t -> names_unique (create_label_group id now name labels env pre mcj caps en pri t).2.
Proof.
  intros Ht. unfold create_label_group. destruct (negb _); [done|]. destruct (bool_decide _ || name_taken id name t) eqn:E; [done|].
  apply orb_false_iff in E as [_ E]. simpl. by apply insert_unique.
Qed.

Lemma update_unique id now u t : names_unique t -> names_unique (update_label_group id now u t).2.
Proof.
  intros Ht. unfold update_label_group. destruct (t !! id) as [g|]; [|done]. destruct (negb _); [done|].
  destruct (name_taken id (lg_name (updated_group now u g)) t) eqn:E; [done|]. simpl. by apply insert_unique.
Qed.

Lemma delete_unique id t : names_unique t -> names_unique (delete_label_group id t).2.
Proof. intros Ht i j g h Hi Hj. simpl in Hi, Hj. apply lookup_delete_Some in Hi as [_ Hi], Hj as [_ Hj]. by apply (Ht i j). Qed.
End LabelFacts.

Definition an_admin : AuthUser := {| au_user_id := 1%N; au_username := "root"; au_role := Admin |}.

(** Deleting what is not there is answered like deleting what is. *)
Example deletes_nothing :
  delete_label_group_handler true an_admin 9%N (Some ∅) = (Ok (Obj [("deleted", Json.Bool true)]), Some ∅).
Proof. reflexivity. Qed.

(** A name that may not be given when a group is created may be given later. *)
Example renamed_to_nothing :
  let g := {| lg_id := 9%N; lg_name := "linux"; lg_match_labels := []; lg_env_vars := Obj []; lg_pre_script := None;
              lg_max_concurrent_jobs := 0; lg_capabilities := []; lg_enabled := true; lg_priority := 0; lg_created_at := 0; lg_updated_at := 0 |} in
  let u := {| ug_name := Some EmptyString; ug_match_labels := None; ug_env_vars := None; ug_pre_script := None;
              ug_max_concurrent_jobs := None; ug_capabilities := None; ug_enabled := None; ug_priority := None |} in
  exists t, update_label_group 9%N 5 u {[ 9%N := g ]} = (Ok (Some (updated_group 5 u g)), t) /\ lg_name (updated_group 5 u g) = EmptyString.
Proof. eexists. split; reflexivity. Qed.
