(* ===== verification/Reports.v ===== *)
(** * Measurements and reports
    (crates/ci-controller/src/monitoring.rs; api/dashboard_handlers.rs;
    api/badge_handlers.rs; stage_resource_history and
    [get_latest_job_group_for_repo] of storage.rs, migration 016;
    api/resource_handlers.rs)

    The counters are changed by the [Metric] effects of [Controller], the resource
    history by its [DbStageResources] effects. PostgreSQL's [PERCENTILE_CONT] is a
    parameter. *)

From Stdlib Require Import ZArith Lia SpecFloat Ascii.
From stdpp Require Import gmap strings list fin_maps sorting pretty.
From S2P Require Import Prelude Text F64 WorkerModel JobModel StageModel Scheduler WorkerRegistry JobRegistry JobGroupRegistry.
From S2P Require Import LogStreamer StageRunner Reconnect Agent LogAggregator Controller Dispatch Reservation Session Json Web Handlers WorkerStore.
From S2P Require Import BuildStore Catalog.

(** ** Metrics *)

Record Metrics := {
  jobs_submitted : Z;
  jobs_completed : Z;
  jobs_failed : Z;
  jobs_cancelled : Z;
  stages_submitted : Z;
  worker_reservations : Z;
  stage_failures : Z;
  active_builds : Z;
  active_stages : Z;
  connected_workers_gauge : Z
}.

Definition Metrics_new : Metrics := {|
  jobs_submitted := 0; jobs_completed := 0; jobs_failed := 0; jobs_cancelled := 0; stages_submitted := 0; worker_reservations := 0;
  stage_failures := 0; active_builds := 0; active_stages := 0; connected_workers_gauge := 0 |}.

(** [fetch_add] and [fetch_sub] wrap. *)
Definition inc (m : Metrics) (name : string) : Metrics :=
  if bool_decide (name = "inc_jobs_submitted") then {| m with jobs_submitted := u64_add (jobs_submitted m) 1 |}
  else if bool_decide (name = "inc_jobs_completed") then {| m with jobs_completed := u64_add (jobs_completed m) 1 |}
  else if bool_decide (name = "inc_jobs_failed") then {| m with jobs_failed := u64_add (jobs_failed m) 1 |}
  else if bool_decide (name = "inc_jobs_cancelled") then {| m with jobs_cancelled := u64_add (jobs_cancelled m) 1 |}
  else if bool_decide (name = "inc_stages_submitted") then {| m with stages_submitted := u64_add (stages_submitted m) 1 |}
  else if bool_decide (name = "inc_worker_reservations") then {| m with worker_reservations := u64_add (worker_reservations m) 1 |}
  else if bool_decide (name = "inc_stage_failures") then {| m with stage_failures := u64_add (stage_failures m) 1 |}
  else if bool_decide (name = "inc_active_builds") then {| m with active_builds := as_i64 (active_builds m + 1) |}
  else if bool_decide (name = "dec_active_builds") then {| m with active_builds := as_i64 (active_builds m - 1) |}
  else if bool_decide (name = "inc_active_stages") then {| m with active_stages := as_i64 (active_stages m + 1) |}
  else if bool_decide (name = "dec_active_stages") then {| m with active_stages := as_i64 (active_stages m - 1) |}
  else m.

Definition set_connected_workers (count : Z) (m : Metrics) : Metrics := {| m with connected_workers_gauge := count |}.

Definition measured (m : Metrics) (es : list Effect) : Metrics :=
  foldl (fun m e => match e with Metric name => inc m name | _ => m end) m es.

Definition prometheus_entry (name help kind : string) (v : Z) : string :=
  ("# HELP " +:+ name +:+ " " +:+ help +:+ newline_byte +:+ "# TYPE " +:+ name +:+ " " +:+ kind +:+ newline_byte
     +:+ name +:+ " " +:+ pretty v +:+ newline_byte)%string.

Definition to_prometheus (m : Metrics) : string :=
  foldr String.append EmptyString [
    prometheus_entry "ci_jobs_submitted_total" "Total number of jobs submitted" "counter" (jobs_submitted m);
    prometheus_entry "ci_jobs_completed_total" "Total number of jobs completed successfully" "counter" (jobs_completed m);
    prometheus_entry "ci_jobs_failed_total" "Total number of jobs that failed" "counter" (jobs_failed m);
    prometheus_entry "ci_jobs_cancelled_total" "Total number of jobs cancelled" "counter" (jobs_cancelled m);
    prometheus_entry "ci_stages_submitted_total" "Total number of stages submitted" "counter" (stages_submitted m);
    prometheus_entry "ci_worker_reservation_count" "Total number of worker reservations made" "counter" (worker_reservations m);
    prometheus_entry "ci_stage_failures_total" "Total number of stage failures" "counter" (stage_failures m);
    prometheus_entry "ci_active_builds" "Current number of active (running) job groups" "gauge" (active_builds m);
    prometheus_entry "ci_active_stages" "Current number of active (running) stages" "gauge" (active_stages m);
    prometheus_entry "ci_connected_workers" "Current number of connected workers" "gauge" (connected_workers_gauge m);
    prometheus_entry "ci_up" "Controller process is running" "gauge" 1].

Lemma measured_app m es es' : measured m (es ++ es') = measured (measured m es) es'.
Proof. apply foldl_app. Qed.

(** ** The dashboard *)

Section Dashboard.
Context `{HI : HashIter}.

Definition count_status (s : WorkerStatus) (ws : list WorkerState) : Z := Z.of_nat (length (filter (fun w => ws_status w = s) ws)).

Definition summary (c : Controller) (m : Metrics) : Json :=
  let all := all_workers (workers c) in
  let active := active_groups (jgroups c) in
  Obj [
    ("workers", Obj [
       ("total", Num (Z.of_nat (length all))); ("connected", Num (count_status Connected all));
       ("disconnected", Num (count_status Disconnected all)); ("draining", Num (count_status Draining all))]);
    ("job_groups", Obj [
       ("active", Num (Z.of_nat (length active)));
       ("running", Num (Z.of_nat (length (filter (fun g => g_state g = GRunning) active))))]);
    ("jobs", Obj [
       ("submitted", Num (jobs_submitted m)); ("completed", Num (jobs_completed m)); ("failed", Num (jobs_failed m))])].

(** Every worker is counted under one status. *)
Lemma counts_add_up (ws : list WorkerState) :
  count_status Connected ws + count_status Disconnected ws + count_status Draining ws = Z.of_nat (length ws).
Proof.
  unfold count_status. induction ws as [|w ws IH]; [done|]. rewrite !filter_cons.
  destruct (ws_status w) eqn:E; repeat case_decide; try congruence; simpl length in *; lia.
Qed.
End Dashboard.

(** ** The badge *)

Definition dq : string := String "034" EmptyString.
Definition attr (k v : string) : string := (" " +:+ k +:+ "=" +:+ dq +:+ v +:+ dq)%string.

(** [label.len()] is the length in bytes. *)
Definition badge_svg (label color : string) : string :=
  let label_w := 37 in
  let value_w := as_i32 (as_i32 (len label) * 7 + 10) in
  let total_w := label_w + value_w in
  let text_x := label_w + 5 in
  let font := "DejaVu Sans,sans-serif"%string in
  let text x s := ("<text" +:+ attr "x" x +:+ attr "y" "14" +:+ attr "fill" "#fff" +:+ attr "font-family" font +:+ attr "font-size" "11"
                     +:+ ">" +:+ s +:+ "</text>")%string in
  ("<svg" +:+ attr "xmlns" "http://www.w3.org/2000/svg" +:+ attr "width" (pretty total_w) +:+ attr "height" "20" +:+ ">"
   +:+ "<rect" +:+ attr "width" (pretty label_w) +:+ attr "height" "20" +:+ attr "fill" "#555" +:+ "/>"
   +:+ "<rect" +:+ attr "x" (pretty label_w) +:+ attr "width" (pretty value_w) +:+ attr "height" "20" +:+ attr "fill" color +:+ "/>"
   +:+ text "4" "build" +:+ text (pretty text_x) label +:+ "</svg>")%string.

Section Badge.
Context `{HI : HashIter}.

(** [ORDER BY created_at DESC LIMIT 1] *)
Definition get_latest_job_group_for_repo (repo : Uuid) (b : Builds) : option JobGroup :=
  head (sort_by (fun x y => g_created_at y ?= g_created_at x)
          (filter (fun g => g_repo_id g = Some repo) (map_job_group <$> hvalues (job_groups b)))).

Definition badge_of (g : option JobGroup) : string * string :=
  match g_state <$> g with
  | Some GSuccess => ("passing", "#4c1")
  | Some GFailed => ("failing", "#e05d44")
  | Some GRunning | Some GReserved => ("running", "#007ec6")
  | _ => ("unknown", "#9f9f9f")
  end%string.

(** The body; the status is 200 whatever happens. *)
Definition repo_badge (ok : nat -> bool) (name : string) (st : option (Catalog * Builds)) : string :=
  let unknown := badge_svg "unknown" "#9f9f9f" in
  match st with
  | None => unknown
  | Some (cat, b) =>
      if negb (ok 0%nat) then unknown
      else
        match get_repo_by_name name cat with
        | None => unknown
        | Some r => if negb (ok 1%nat) then unknown
                    else let '(label, color) := badge_of (get_latest_job_group_for_repo (repo_id (rp_repo r)) b) in badge_svg label color
        end
  end.
End Badge.

(** ** Resource history *)

Record ResourceHistoryRow := {
  rh_id : Uuid;
  rh_stage_config_id : Uuid;
  rh_repo_id : Uuid;
  rh_job_id : Uuid;
  rh_actual_cpu_percent : option f64;
  rh_actual_memory_mb : option Z;
  rh_actual_disk_mb : option Z;
  rh_actual_duration_secs : option Z;
  rh_exit_code : option Z;
  rh_created_at : timestamp
}.

Abbreviation History := (gmap Uuid ResourceHistoryRow) (only parsing).

Definition record_stage_resources (id : Uuid) (now : timestamp) (stage_config_id repo_id job_id : Uuid) (cpu : option f64)
    (memory_mb disk_mb duration_secs exit_code : option Z) (cat : Catalog) (h : History) : result unit string * History :=
  if bool_decide (is_Some (h !! id)) then (Err "duplicate key", h)
  else if bool_decide (is_Some (stages_table cat !! stage_config_id)) && bool_decide (is_Some (repos_table cat !! repo_id)) then
    (Ok tt, <[id := {| rh_id := id; rh_stage_config_id := stage_config_id; rh_repo_id := repo_id; rh_job_id := job_id;
                       rh_actual_cpu_percent := cpu; rh_actual_memory_mb := memory_mb; rh_actual_disk_mb := disk_mb;
                       rh_actual_duration_secs := duration_secs; rh_exit_code := exit_code; rh_created_at := now |}]> h)
  else (Err "foreign key", h).

(** What an effect of [report_job_status] writes; a failure is logged. *)
Definition write_history (id : Uuid) (now : timestamp) (cat : Catalog) (e : Effect) (h : History) : History :=
  match e with
  | DbStageResources stage repo job duration exit_code =>
      (record_stage_resources id now stage repo job None None None duration (Some exit_code) cat h).2
  | _ => h
  end.

Record ResourceRecommendation := {
  rec_cpu : Z;
  rec_memory_mb : Z;
  rec_disk_mb : Z;
  rec_duration_secs : Z;
  rec_sample_count : Z;
  rec_p50_duration : f64;
  rec_p90_duration : f64
}.

(** [x.ceil() as iN], which saturates. *)
Definition ceil_as (w : Z) (x : f64) : Z :=
  let sat z := Z.max (- 2 ^ (w - 1)) (Z.min (2 ^ (w - 1) - 1) z) in
  match x with
  | S754_finite s m e =>
      let v := if s then Zneg m else Zpos m in
      sat (if 0 <=? e then v * 2 ^ e else - ((- v) / 2 ^ (- e)))
  | S754_infinity s => if s then - 2 ^ (w - 1) else 2 ^ (w - 1) - 1
  | S754_zero _ | S754_nan => 0
  end.

(** The fraction, and the values that are not NULL. *)
Class Percentiles := {
  percentile_cont : f64 -> list f64 -> option f64;
  percentile_none : forall p, percentile_cont p [] = None
}.

Section Resources.
Context `{HI : HashIter} {Pc : Percentiles}.

Definition newest (stage : Uuid) (h : History) : list ResourceHistoryRow :=
  sort_by (fun a b => rh_created_at b ?= rh_created_at a) (filter (fun r => rh_stage_config_id r = stage) (hvalues h)).

Definition list_resource_history (stage : Uuid) (limit : Z) (h : History) : result (list ResourceHistoryRow) string :=
  if limit <? 0 then Err "LIMIT must not be negative" else Ok (take (Z.to_nat limit) (newest stage h)).

Definition recent (stage : Uuid) (h : History) : list ResourceHistoryRow :=
  take 20 (filter (fun r => rh_exit_code r = Some 0) (newest stage h)).

Definition get_resource_recommendations (stage : Uuid) (h : History) : option ResourceRecommendation :=
  let rows := recent stage h in
  let p50 := F64.of_decimal false 50 (-2) in
  let p90 := F64.of_decimal false 90 (-2) in
  let ints f := F64.of_Z <$> omap f rows in
  let zero := S754_zero false in
  let p90_duration := percentile_cont p90 (ints rh_actual_duration_secs) in
  if bool_decide (rows = []) then None
  else Some {|
    rec_cpu := ceil_as 32 (default zero (percentile_cont p90 (omap rh_actual_cpu_percent rows)));
    rec_memory_mb := ceil_as 64 (default zero (percentile_cont p90 (ints rh_actual_memory_mb)));
    rec_disk_mb := ceil_as 64 (default zero (percentile_cont p90 (ints rh_actual_disk_mb)));
    rec_duration_secs := ceil_as 32 (default zero p90_duration);
    rec_sample_count := Z.of_nat (length rows);
    rec_p50_duration := default zero (percentile_cont p50 (ints rh_actual_duration_secs));
    rec_p90_duration := default zero p90_duration |}.

(** The handler's two statements; the repo in the path is not used. *)
Definition get_resources (ok : nat -> bool) (stage : Uuid) (limit : option Z) (st : option History)
    : result (list ResourceHistoryRow * option ResourceRecommendation) ApiError :=
  match st with
  | None => Err StorageUnavailable
  | Some h =>
      if negb (ok 0%nat) then Err (Internal "database")
      else
        let? history := map_err Internal (list_resource_history stage (Z.min (default 20 limit) 100) h) in
        if negb (ok 1%nat) then Err (Internal "database") else Ok (history, get_resource_recommendations stage h)
  end.

(** ** What is recommended *)

Definition unmeasured (h : History) : Prop :=
  map_Forall (fun _ r => rh_actual_cpu_percent r = None /\ rh_actual_memory_mb r = None /\ rh_actual_disk_mb r = None) h.

Lemma write_unmeasured id now cat e h : unmeasured h -> unmeasured (write_history id now cat e h).
Proof.
  intros Hh. destruct e; try done. simpl. unfold record_stage_resources. case_bool_decide; [done|]. destruct (_ && _); [|done].
  by apply map_Forall_insert_2.
Qed.

Lemma recent_in stage h r : r ∈ recent stage h -> exists id, h !! id = Some r.
Proof.
  unfold recent, newest. intros Hr. apply elem_of_take in Hr as (i & Hi & _). apply list_elem_of_lookup_2 in Hi.
  apply list_elem_of_filter in Hi as [_ Hi]. rewrite elem_of_sort_by in Hi. apply list_elem_of_filter in Hi as [_ Hi].
  by apply elem_of_hvalues in Hi.
Qed.

Lemma omap_none {A C : Type} (f : A -> option C) (l : list A) : Forall (fun a => f a = None) l -> omap f l = [].
Proof. induction 1 as [|a l Ha _ IH]; [done|]. simpl. by rewrite Ha. Qed.

Definition history_after (cat : Catalog) (writes : list (Uuid * timestamp * Effect)) (h : History) : History :=
  foldl (fun h '(id, now, e) => write_history id now cat e h) h writes.

(** Nothing is measured, so nothing is recommended: whatever jobs the
    controller reports on, the recommendation made from the rows it writes is for
    no processor, no memory and no disk; only the duration and the number of
    samples, 20 at most, come from the runs. *)
Theorem recommends_nothing (cat : Catalog) (writes : list (Uuid * timestamp * Effect)) (stage : Uuid) (r : ResourceRecommendation) :
  get_resource_recommendations stage (history_after cat writes ∅) = Some r ->
  rec_cpu r = 0 /\ rec_memory_mb r = 0 /\ rec_disk_mb r = 0 /\ 1 <= rec_sample_count r <= 20.
Proof.
  assert (Hu : unmeasured (history_after cat writes ∅)).
  { unfold history_after. assert (H0 : unmeasured ∅) by apply map_Forall_empty. revert H0. generalize (∅ : History).
    induction writes as [|[[id now] e] ws IH]; intros h Hh; [done|]. simpl. apply IH. by apply write_unmeasured. }
  set (h := history_after cat writes ∅) in *. unfold get_resource_recommendations. case_bool_decide as Hn; [done|]. intros [= <-].
  assert (Hall : Forall (fun r => rh_actual_cpu_percent r = None /\ rh_actual_memory_mb r = None /\ rh_actual_disk_mb r = None) (recent stage h)).
  { apply Forall_forall. intros x [id Hx]%recent_in. by apply (Hu id x). }
  simpl. rewrite !omap_none by (eapply Forall_impl; [exact Hall|]; by intros ? (? & ? & ?)). simpl. rewrite !percentile_none.
  split_and!; [done..| |]; [destruct (recent stage h); [done|simpl; lia]|]. unfold recent. rewrite length_take. lia.
Qed.
End Resources.

(** ** Examples *)

(** The gauge of active builds, after a build that was reserved and cancelled. *)
Example cancelled_build_stays_active :
  let g := {| (JobGroup_new_with_id 0 3%N None None None "cli") with g_reserved_worker_id := Some "w"%string |} in
  let c := {| workers := ∅; Controller.jobs := ∅; jgroups := add_group g JobGroupRegistry_new; logs := LogAggregator_new None;
              job_stream_senders := ∅; token_hashes := ∅; has_storage := true; has_redis := false;
              effects := [Metric "inc_worker_reservations"; Metric "inc_active_builds"] |} in
  let '(r, c') := cancel_group (fun _ => EmptyString) (fun _ => 0) None 3%N {| cr_job_id := EmptyString; cr_job_group_id := "3"; cr_reason := EmptyString |} c in
  is_ok r = true /\ (JobGroupState_is_terminal <$> (g_state <$> get_group 3%N (jgroups c'))) = Some true /\ active_builds (measured Metrics_new (effects c')) = 1.
Proof. vm_compute. by split. Qed.

(** The largest or, for one value, the only one. *)
Definition last_percentile : Percentiles.
Proof. refine {| percentile_cont := fun _ l => last l |}. done. Defined.

Definition one_stage : Catalog := {|
  repos_table := {[ repo_id sample_repo := {| rp_repo := sample_repo; rp_default_branch := "main"; rp_enabled := true; rp_created_at := 0;
                                              rp_updated_at := 0 |} ]};
  stages_table := {[ sc_id sample_stage := sample_stage ]};
  scripts_table := ∅ |}.

(** Two runs of a stage that asks for much. *)
Lemma recommends_nothing_witness :
  let ran id secs := (id, Z.of_N id, DbStageResources (sc_id sample_stage) (repo_id sample_repo) id (Some secs) 0) in
  let h := history_after one_stage [ran 1%N 30; ran 2%N 40] ∅ in
  exists r, get_resource_recommendations (HI := map_iter) (Pc := last_percentile) (sc_id sample_stage) h = Some r /\
    rec_duration_secs r = 30 /\ (rec_cpu r = 0 /\ rec_memory_mb r = 0 /\ rec_disk_mb r = 0 /\ 1 <= rec_sample_count r <= 20).
Proof.
  intros ran h. eexists. split; [vm_compute; reflexivity|]. split; [vm_compute; reflexivity|].
  apply (recommends_nothing (HI := map_iter) (Pc := last_percentile) one_stage [ran 1%N 30; ran 2%N 40] (sc_id sample_stage)).
  vm_compute. reflexivity.
Defined.
