(* ===== verification/WorkerClient.v ===== *)
(** * The worker's connection
    (crates/ci-worker/src/grpc_client.rs, main.rs, http_server.rs; [run_session]
    of agent.rs)

    How a worker reaches the controller: the overrides of its configuration, the
    connection with or without TLS, the credentials of each remote call, the
    session that the agent's loop runs again and again, and the pages of its own
    server. Reading files, connecting and what tonic takes as a header value are
    parameters. *)

From Stdlib Require Import ZArith Lia.
From stdpp Require Import gmap strings list pretty.
From S2P Require Import Prelude Text Config F64 WorkerModel JobModel StageModel Scheduler WorkerRegistry JobRegistry JobGroupRegistry.
From S2P Require Import LogStreamer Executor StageRunner Reconnect Agent LogAggregator Controller Dispatch Reservation Session Json.

(** ** Start-up *)

Record Cli := {
  cli_config : option string;
  cli_controller_addr : option string;
  cli_worker_id : option string;
  cli_log_level : option string;
  cli_http_port : option Z
}.

Definition config_path (env : Env) (file_exists : string -> bool) (cli : Cli) : result string string :=
  match cli_config cli with
  | Some path => Ok path
  | None =>
      match resolve_default_config env file_exists "worker" with
      | Some path => Ok path
      | None => Err "No config file found. Pass --config or create ~/.config/chola/worker.yaml or /etc/chola/worker.yaml"
      end
  end.

(** The command line wins over the file, the environment's token over both. *)
Definition apply_overrides (env : Env) (cli : Cli) (config : WorkerConfig) : WorkerConfig :=
  let conn := wc_controller config in
  {| config with
     wc_controller := {| conn with address := default (address conn) (cli_controller_addr cli) |};
     wc_worker_id := default (wc_worker_id config) (cli_worker_id cli);
     wc_http_port := default (wc_http_port config) (cli_http_port cli);
     wc_token := match env !! "CHOLA_TOKEN" with Some t => Some t | None => wc_token config end |}.

Definition log_level (cli : Cli) (config : WorkerConfig) : string := default (level (wc_logging config)) (cli_log_level cli).

(** ** The pages of the worker *)

Definition worker_metric (name help kind : string) (v : Z) : string :=
  ("# HELP " +:+ name +:+ " " +:+ help +:+ newline_byte +:+ "# TYPE " +:+ name +:+ " " +:+ kind +:+ newline_byte
     +:+ name +:+ " " +:+ pretty v +:+ newline_byte)%string.

Definition worker_to_prometheus (m : WorkerMetrics) : string :=
  foldr String.append EmptyString [
    worker_metric "ci_worker_up" "Worker is running" "gauge" 1;
    worker_metric "ci_worker_jobs_executed_total" "Total jobs executed" "counter" (jobs_executed m);
    worker_metric "ci_worker_jobs_succeeded_total" "Jobs completed successfully" "counter" (jobs_succeeded m);
    worker_metric "ci_worker_jobs_failed_total" "Jobs that failed" "counter" (jobs_failed m);
    worker_metric "ci_worker_jobs_cancelled_total" "Jobs that were cancelled" "counter" (jobs_cancelled m);
    worker_metric "ci_worker_active_jobs" "Currently running jobs" "gauge" (active_jobs m)].

Inductive page := Live | Ready | MetricsPage.

Definition serve_page (m : WorkerMetrics) (p : page) : Json + string :=
  match p with
  | Live => inl (Obj [("status", Str "ok")])
  | Ready => inl (Obj [("status", Str "ok"); ("message", Str "worker ready")])
  | MetricsPage => inr (worker_to_prometheus m)
  end.

(** ** Connecting *)

Record ClientTls := {
  ct_ca : option string;
  ct_identity : option (string * string)
}.

Record GrpcClient := {
  gc_endpoint : string;
  gc_tls : option ClientTls;
  gc_auth_token : option string
}.

Section Client.
Context (from_shared : string -> result string string) (read : string -> result string string)
  (connect : string -> option ClientTls -> result unit string) (metadata_value : string -> bool).

Definition read_opt (path : option string) : result (option string) string :=
  match path with Some p => let? s := read p in Ok (Some s) | None => Ok None end.

(** Both the certificate and its key, or neither. *)
Definition read_identity (tls : TlsClientConfig) : result (option (string * string)) string :=
  match tc_client_cert tls, tc_client_key tls with
  | Some cert_path, Some key_path => let? cert := read cert_path in let? key := read key_path in Ok (Some (cert, key))
  | _, _ => Ok None
  end.

Definition client_tls (tls_config : option TlsClientConfig) : result (option ClientTls) string :=
  match tls_config with
  | Some tls =>
      if tc_enabled tls then let? ca := read_opt (tc_ca_cert tls) in let? id := read_identity tls in Ok (Some {| ct_ca := ca; ct_identity := id |})
      else Ok None
  | None => Ok None
  end.

Definition connect_with_options (addr : string) (tls_config : option TlsClientConfig) (auth_token : option string) : result GrpcClient string :=
  let? endpoint := from_shared addr in
  let? tls := client_tls tls_config in
  let? _ := connect endpoint tls in
  Ok {| gc_endpoint := endpoint; gc_tls := tls; gc_auth_token := auth_token |}.

(** [connect] and [connect_with_tls] *)
Definition connect_plain (addr : string) : result GrpcClient string := connect_with_options addr None None.
Definition connect_with_tls (addr : string) (tls : option TlsClientConfig) : result GrpcClient string := connect_with_options addr tls None.

(** A session's connection, and the one made to reconnect. *)
Definition session_client (config : WorkerConfig) : result GrpcClient string :=
  connect_with_options (address (wc_controller config)) (cn_tls (wc_controller config)) (wc_token config).

Definition reconnection_client (config : WorkerConfig) : result GrpcClient string :=
  connect_with_options (address (wc_controller config)) None (wc_token config).

(** ** Calls *)

Inductive rpc := Register | Heartbeat | JobStream | ReportJobStatus | StreamLogs | ReconnectRpc | AcquireLock | ReleaseLock.

Definition make_request (c : GrpcClient) : option string :=
  token ← gc_auth_token c; if metadata_value ("Bearer " +:+ token)%string then Some ("Bearer " +:+ token)%string else None.

(** The header a call carries. The two lock calls pass on the request they are
    given, which [StageRunner] and its lock guard make without one. *)
Definition authorization (c : GrpcClient) (r : rpc) : option string :=
  match r with AcquireLock | ReleaseLock => None | _ => make_request c end.

(** What the controller's interceptor says of it. *)
Definition admitted (sha256_hex : string -> string) (auth : AuthConfig) (hashes : gset string) (c : GrpcClient) (r : rpc) : result unit Status :=
  auth_interceptor sha256_hex auth hashes (authorization c r).
End Client.

(** ** A session *)

Inductive session_event :=
| HeartbeatAcked (ok : bool)
| HeartbeatClosed
| HeartbeatFailed (e : string)
| Assigned (a : JobAssignment)
| JobsClosed
| JobsFailed (e : string)
| SessionCancelled.

Section Session.
Context (handle : JobAssignment -> RunningJobs -> RunningJobs).

(** The loop, for the events there are: how it ended, if it did. *)
Fixpoint session_loop (events : list session_event) (jobs : RunningJobs) : option (result unit string) * RunningJobs :=
  match events with
  | [] => (None, jobs)
  | e :: es =>
      match e with
      | HeartbeatAcked _ => session_loop es jobs
      | Assigned a => session_loop es (handle a jobs)
      | HeartbeatClosed => (Some (Err "Heartbeat stream closed"), jobs)
      | HeartbeatFailed m => (Some (Err ("Heartbeat error: " +:+ m)%string), jobs)
      | JobsClosed => (Some (Err "Job stream closed"), jobs)
      | JobsFailed m => (Some (Err ("Job stream error: " +:+ m)%string), jobs)
      | SessionCancelled => (Some (Err "Session cancelled"), jobs)
      end
  end.

(** [registered] and [reconnected] answer the opening request, [streams] the two
    calls that open the streams. *)
Definition run_session (client : result GrpcClient string) (registered : result RegisterResponse string)
    (reconnected : result ReconnectResponse string) (streams : result unit string) (events : list session_event) (jobs : RunningJobs)
    : option (result unit string) * RunningJobs :=
  match client with
  | Err e => (Some (Err e), jobs)
  | Ok _ =>
      let opened :=
        match jobs with
        | [] => let? _ := registered in Ok jobs
        | _ =>
            let? resp := reconnected in
            if negb (rp_accepted resp) then Err ("Reconnect rejected: " +:+ rp_message resp)%string
            else Ok (handle_resume_directives ((fun d => (lr_job_id d, lr_resume_from_offset d)) <$> rp_log_resumes resp) jobs)
        end in
      match opened with
      | Err e => (Some (Err e), jobs)
      | Ok jobs1 => match streams with Err e => (Some (Err e), jobs1) | Ok _ => session_loop events jobs1 end
      end
  end.
End Session.

(** ** Who is let in *)

Section Admission.
Context (metadata_value : string -> bool) (sha256_hex : string -> string) (auth : AuthConfig) (hashes : gset string).

(** Without a header the interceptor lets nobody in. *)
Lemma no_header_refused : auth_enabled auth = true ->
  auth_interceptor sha256_hex auth hashes None = Err (unauthenticated "Valid token required (chola_wkr_ or chola_svc_)").
Proof.
  intros He. unfold auth_interceptor. rewrite He. simpl. destruct (auth_token auth) as [s|]; simpl; [|done].
  by destruct (negb _).
Qed.

(** What it makes of a bearer token. *)
Lemma bearer_checked (t : string) : auth_enabled auth = true ->
  auth_interceptor sha256_hex auth hashes (Some ("Bearer " +:+ t)%string) =
    if starts_with "chola_svc_" t || starts_with "chola_wkr_" t then
      if bool_decide (sha256_hex t ∈ hashes) then Ok tt else Err (unauthenticated "Invalid token")
    else if negb (bool_decide (default EmptyString (auth_token auth) = EmptyString)) &&
            bool_decide (("Bearer " +:+ t)%string = ("Bearer " +:+ default EmptyString (auth_token auth))%string) then Ok tt
    else Err (unauthenticated "Valid token required (chola_wkr_ or chola_svc_)").
Proof.
  intros He. unfold auth_interceptor. rewrite He. cbn [negb]. cbv zeta.
  change (default EmptyString (Some ?x)) with x. by rewrite strip_prefix_app.
Qed.

(** A worker's token opens every call but the two for locks. *)
Lemma worker_token_admitted (c : GrpcClient) (t : string) (r : rpc) :
  auth_enabled auth = true -> gc_auth_token c = Some t -> metadata_value ("Bearer " +:+ t)%string = true ->
  starts_with "chola_wkr_" t = true -> sha256_hex t ∈ hashes ->
  is_ok (admitted metadata_value sha256_hex auth hashes c r) = match r with AcquireLock | ReleaseLock => false | _ => true end.
Proof.
  intros He Ht Hm Hp Hh. unfold admitted, authorization.
  assert (Hin : is_ok (auth_interceptor sha256_hex auth hashes (make_request metadata_value c)) = true).
  { unfold make_request. rewrite Ht. cbn [mbind option_bind]. rewrite Hm, bearer_checked, Hp, orb_true_r by done.
    by rewrite bool_decide_eq_true_2. }
  destruct r; try exact Hin; by rewrite no_header_refused.
Qed.

(** A registration token opens nothing: with authentication on, a worker that
    is configured with one is refused at every call it makes, the registration
    that would exchange it for its own token included, unless the token is also
    the controller's static one. *)
Theorem registration_token_refused (config : WorkerConfig) (from_shared read : string -> result string string)
    (connect : string -> option ClientTls -> result unit string) (c : GrpcClient) (t : string) (r : rpc) :
  auth_enabled auth = true -> wc_token config = Some t -> starts_with "chola_reg_" t = true -> auth_token auth <> Some t ->
  session_client from_shared read connect config = Ok c ->
  admitted metadata_value sha256_hex auth hashes c r = Err (unauthenticated "Valid token required (chola_wkr_ or chola_svc_)").
Proof.
  intros He Ht Hp Hs Hc. unfold session_client, connect_with_options in Hc. apply rbind_Ok_inv in Hc as (ep & _ & Hc).
  apply rbind_Ok_inv in Hc as (tls & _ & Hc). apply rbind_Ok_inv in Hc as (u & _ & [= <-]).
  unfold admitted, authorization, make_request. simpl. rewrite Ht. simpl.
  assert (Hh : forall o, o = None \/ o = Some ("Bearer " +:+ t)%string ->
    auth_interceptor sha256_hex auth hashes o = Err (unauthenticated "Valid token required (chola_wkr_ or chola_svc_)")).
  { intros o [->| ->]; [by apply no_header_refused|]. rewrite bearer_checked by done.
    apply starts_with_spec in Hp as [rest ->].
    change (starts_with "chola_svc_" ("chola_reg_" +:+ rest)) with false. change (starts_with "chola_wkr_" ("chola_reg_" +:+ rest)) with false.
    cbn [orb]. destruct (auth_token auth) as [s|]; cbn [default]; [|done].
    rewrite (bool_decide_eq_false_2 (("Bearer " +:+ _)%string = _)); [by rewrite andb_false_r|]. intros [= E]. apply Hs. f_equal. exact (eq_sym E). }
  apply Hh. destruct r; try (by left); destruct (metadata_value _); [by right|by left|by right|by left|by right|by left|by right|by left|by right|by left|by right|by left].
Qed.

Lemma refused_until_deadline (o : rpc_oracle) (key : string) (timeout_secs : Z) fuel n :
  (forall k, exists e, ro_rpc o k = RpcError e) ->
  (exists m, (n <= m < n + fuel)%nat /\ 1000 * Z.max timeout_secs 1 <= ro_elapsed o m) ->
  exists acts, controller_lock_loop o key timeout_secs fuel n =
    Some (Err ("Controller lock timeout after " +:+ pretty timeout_secs +:+ "s: " +:+ key)%string, acts) /\ Acquired key ∉ acts.
Proof.
  intros Herr. revert n. induction fuel as [|fuel IH]; intros n (m & Hm & Ht); [lia|]. simpl.
  destruct (Herr n) as [e ->]. destruct (Z.leb_spec (1000 * Z.max timeout_secs 1) (ro_elapsed o n)) as [Hle|Hgt].
  - eexists. split; [reflexivity|]. rewrite !not_elem_of_cons. split_and!; try done; by apply not_elem_of_nil.
  - assert (n <> m) by (intros ->; lia). destruct (IH (S n)) as (acts & -> & Ha); [exists m; split; [lia|done]|]. simpl.
    eexists. split; [reflexivity|]. by rewrite not_elem_of_cons.
Qed.

(** The controller's lock is out of reach: with authentication on, whatever
    token the worker has, a script that asks for a lock of the controller's waits
    out its time and fails, since the calls for locks carry no credentials. *)
Theorem locks_never_granted (c : GrpcClient) (o : rpc_oracle) (holder_id key : string) (timeout_secs : Z) :
  auth_enabled auth = true ->
  (forall n, is_ok (admitted metadata_value sha256_hex auth hashes c AcquireLock) = false -> exists e, ro_rpc o n = RpcError e) ->
  (forall n, 500 * Z.of_nat n <= ro_elapsed o n) ->
  exists acts, acquire_controller_lock (Some o) holder_id key timeout_secs =
    Some (Err ("Controller lock timeout after " +:+ pretty timeout_secs +:+ "s: " +:+ key)%string, acts) /\ Acquired key ∉ acts.
Proof.
  intros He Hrpc Hel. unfold acquire_controller_lock.
  destruct (refused_until_deadline o key timeout_secs (flock_fuel timeout_secs) 0) as (acts & -> & Ha).
  - intros k. apply Hrpc. unfold admitted, authorization. by rewrite no_header_refused.
  - exists (Z.to_nat (2 * Z.max timeout_secs 1)). unfold flock_fuel. split; [lia|]. pose proof (Hel (Z.to_nat (2 * Z.max timeout_secs 1))). lia.
  - simpl. eexists. split; [reflexivity|]. rewrite not_elem_of_cons. by split.
Qed.
End Admission.

(** ** Examples *)

Definition guarded_controller : AuthConfig := {| AuthConfig_default with auth_enabled := true |}.

Definition tokened (token : string) : WorkerConfig := {| sample_config with wc_token := Some token |}.

Definition dial (config : WorkerConfig) : result GrpcClient string := session_client Ok Ok (fun _ _ => Ok tt) config.

Lemma registration_token_refused_witness :
  exists c, dial (tokened "chola_reg_1") = Ok c /\
    admitted (fun _ => true) (fun s => s) guarded_controller {[ "chola_reg_1"%string ]} c Register =
      Err (unauthenticated "Valid token required (chola_wkr_ or chola_svc_)").
Proof.
  eexists. split; [reflexivity|].
  apply (registration_token_refused (fun _ => true) (fun s => s) guarded_controller {[ "chola_reg_1"%string ]} (tokened "chola_reg_1")
           Ok Ok (fun _ _ => Ok tt) _ "chola_reg_1"); done.
Defined.

Lemma locks_never_granted_witness :
  let o := {| ro_rpc := fun _ => RpcError "unauthenticated"; ro_elapsed := fun n => 500 * Z.of_nat n; ro_ts := fun _ => EmptyString |} in
  exists c acts, dial (tokened "chola_wkr_1") = Ok c /\
    is_ok (admitted (fun _ => true) (fun s => s) guarded_controller {[ "chola_wkr_1"%string ]} c StreamLogs) = true /\
    acquire_controller_lock (Some o) "holder-1" "deploy" 2 = Some (Err ("Controller lock timeout after " +:+ pretty 2 +:+ "s: deploy")%string, acts) /\
    Acquired "deploy" ∉ acts.
Proof.
  intros o. eexists.
  destruct (locks_never_granted (fun _ => true) (fun s => s) guarded_controller {[ "chola_wkr_1"%string ]}
    {| gc_endpoint := EmptyString; gc_tls := None; gc_auth_token := Some "chola_wkr_1"%string |} o "holder-1" "deploy" 2) as (acts & Hr & Ha).
  - done.
  - intros n _. by eexists.
  - intros n. simpl. lia.
  - exists acts. split; [reflexivity|]. split; [vm_compute; reflexivity|]. by split.
Defined.

(** A worker that is to use TLS reconnects without it. *)
Example reconnects_in_the_clear :
  let tls := {| tc_enabled := true; tc_ca_cert := Some "/ca.pem"%string; tc_client_cert := None; tc_client_key := None |} in
  let conn := {| address := "https://controller:50051"; cn_tls := Some tls; http_url := None |} in
  let config := {| sample_config with wc_controller := conn |} in
  let used r := match r with Ok c => gc_tls c | Err _ => None end in
  used (session_client Ok Ok (fun _ _ => Ok tt) config) = Some {| ct_ca := Some "/ca.pem"%string; ct_identity := None |} /\
  used (reconnection_client Ok Ok (fun _ _ => Ok tt) config) = None.
Proof. split; reflexivity. Qed.

(** What the reply to a registration says is not looked at. *)
Example refusal_ignored :
  let refused := {| rg_accepted := false; rg_message := "no"; rg_heartbeat_interval_secs := 5; rg_worker_token := EmptyString;
                    rg_assigned_worker_id := EmptyString |} in
  run_session (fun _ jobs => jobs) (dial sample_config) (Ok refused) (Err "unused") (Ok tt) [HeartbeatAcked true] [] = (None, []).
Proof. reflexivity. Qed.

Lemma overrides_win (env : Env) (cli : Cli) (config : WorkerConfig) (t : string) :
  env !! "CHOLA_TOKEN" = Some t -> wc_token (apply_overrides env cli config) = Some t.
Proof. intros H. unfold apply_overrides. simpl. by rewrite H. Qed.
