(* ===== verification/Router.v ===== *)
(** * The HTTP server: which request reaches which handler
    (crates/ci-controller/src/api/mod.rs, http_server.rs)

    The routes are the table of api/mod.rs, each handler by its name, together
    with those of http_server.rs, among them the ones that the Swagger UI of the
    feature swagger-ui brings; around them are the origin check and, at two of
    the routes, the limiters of [Web]. A handler is reached by whoever passes
    them and, if it takes a user, is authenticated. Finding the route of a path
    is axum's: an interface with what axum documents about it; so is which
    requests the CORS layer answers itself, and so are the routes of the Swagger
    UI, of which the crate documents where they are and that they are for GET. *)

From Stdlib Require Import ZArith Lia Ascii.
From stdpp Require Import gmap strings list.
From S2P Require Import Prelude Text Config Json Web.

(** ** Paths *)

Fixpoint segments (s : string) : list string :=
  match s with
  | EmptyString => [EmptyString]
  | String c s' =>
      if Ascii.eqb c "/" then EmptyString :: segments s'
      else match segments s' with x :: xs => String c x :: xs | [] => [] end
  end.

Inductive Seg := Static (s : string) | Param (name : string) | Rest (name : string).

Definition seg_of (s : string) : Seg :=
  match s with String "{" (String "*" name) => Rest name | String "{" name => Param name | _ => Static s end.

Definition pattern (path : string) : list Seg := seg_of <$> segments path.

Definition fits_seg (p : Seg) (s : string) : bool :=
  match p with Static t => bool_decide (t = s) | Param _ => negb (bool_decide (s = EmptyString)) | Rest _ => false end.

Fixpoint fits (p : list Seg) (s : list string) : bool :=
  match p, s with
  | [], [] => true
  | [Rest _], _ :: _ => negb (bool_decide (s = [EmptyString]))
  | x :: p', y :: s' => fits_seg x y && fits p' s'
  | _, _ => false
  end.

(** The router finds a route that fits, if there is one, and prefers the one that
    is the path itself. *)
Class Matcher := {
  at_route : list (list Seg) -> list string -> option nat;
  at_route_fits : forall ps s i, at_route ps s = Some i -> exists p, ps !! i = Some p /\ fits p s = true;
  at_route_found : forall ps s p, p ∈ ps -> fits p s = true -> is_Some (at_route ps s);
  at_route_static : forall ps s i, Static <$> s ∈ ps -> at_route ps s = Some i -> ps !! i = Some (Static <$> s)
}.

(** ** The routes *)

Abbreviation Handlers := (list (Method * string)) (only parsing).

Definition api_router : list (string * Handlers) := [
  ("/auth/login", [(POST, "auth_handlers::login")]);
  ("/auth/me", [(GET, "auth_handlers::me")]);
  ("/auth/logout", [(POST, "auth_handlers::logout")]);
  ("/auth/password", [(PUT, "auth_handlers::change_password")]);
  ("/users", [(GET, "user_handlers::list"); (POST, "user_handlers::create")]);
  ("/users/{id}", [(GET, "user_handlers::get_one"); (PUT, "user_handlers::update"); (DELETE, "user_handlers::delete_one")]);
  ("/users/{id}/password", [(PUT, "user_handlers::reset_password")]);
  ("/repos", [(GET, "repo_handlers::list"); (POST, "repo_handlers::create")]);
  ("/repos/{id}", [(GET, "repo_handlers::get_one"); (PUT, "repo_handlers::update"); (DELETE, "repo_handlers::delete_one")]);
  ("/repos/{id}/stages", [(GET, "repo_handlers::list_stages"); (POST, "repo_handlers::create_stage")]);
  ("/repos/{id}/stage-names", [(GET, "repo_handlers::list_stage_names")]);
  ("/repos/{repo_id}/stages/{stage_id}", [(PUT, "repo_handlers::update_stage"); (DELETE, "repo_handlers::delete_stage")]);
  ("/repos/{repo_id}/stages/{stage_id}/resources", [(GET, "resource_handlers::get_resources")]);
  ("/repos/{repo_id}/stages/{stage_id}/scripts", [(GET, "script_handlers::list"); (POST, "script_handlers::create")]);
  ("/repos/{repo_id}/stages/{stage_id}/scripts/{script_id}", [(PUT, "script_handlers::update"); (DELETE, "script_handlers::delete_one")]);
  ("/webhooks/{provider}/{secret}", [(POST, "webhook_handlers::receive")]);
  ("/repos/{id}/webhooks", [(GET, "webhook_handlers::list_for_repo"); (POST, "webhook_handlers::create")]);
  ("/repos/{repo_id}/webhooks/{webhook_id}", [(DELETE, "webhook_handlers::delete")]);
  ("/repos/{repo_id}/webhooks/{webhook_id}/deliveries", [(GET, "webhook_handlers::list_deliveries")]);
  ("/job-groups", [(GET, "job_group_handlers::list"); (POST, "job_group_handlers::trigger")]);
  ("/job-groups/{id}", [(GET, "job_group_handlers::get_one")]);
  ("/job-groups/{id}/cancel", [(POST, "job_group_handlers::cancel")]);
  ("/job-groups/{id}/retry", [(POST, "job_group_handlers::retry")]);
  ("/job-groups/{id}/stages", [(GET, "job_group_handlers::stages")]);
  ("/job-groups/{id}/jobs", [(GET, "job_handlers::list_by_group")]);
  ("/runs", [(GET, "job_handlers::list_runs")]);
  ("/jobs/{id}", [(GET, "job_handlers::get_one")]);
  ("/jobs/{id}/cancel", [(POST, "job_handlers::cancel")]);
  ("/jobs/{id}/retry", [(POST, "job_handlers::retry")]);
  ("/jobs/{id}/logs", [(GET, "log_handlers::get_logs")]);
  ("/jobs/{id}/logs/stream", [(GET, "log_handlers::stream_logs")]);
  ("/workers", [(GET, "worker_handlers::list")]);
  ("/workers/register", [(POST, "worker_handlers::register_worker")]);
  ("/workers/{id}/regenerate-token", [(POST, "worker_handlers::regenerate_token")]);
  ("/workers/{id}", [(GET, "worker_handlers::get_one"); (DELETE, "worker_handlers::delete_worker")]);
  ("/workers/{id}/drain", [(POST, "worker_handlers::drain")]);
  ("/workers/{id}/undrain", [(POST, "worker_handlers::undrain")]);
  ("/workers/{id}/approve", [(PUT, "worker_handlers::approve")]);
  ("/workers/{id}/reject", [(PUT, "worker_handlers::reject")]);
  ("/workers/{id}/labels", [(GET, "worker_handlers::get_labels"); (PUT, "worker_handlers::update_labels")]);
  ("/workers/{id}/metadata", [(PUT, "worker_handlers::update_metadata")]);
  ("/workers/{id}/limits", [(PUT, "worker_handlers::update_limits")]);
  ("/worker-tokens", [(GET, "worker_token_handlers::list"); (POST, "worker_token_handlers::create")]);
  ("/worker-tokens/{id}/activate", [(PUT, "worker_token_handlers::activate")]);
  ("/worker-tokens/{id}/deactivate", [(PUT, "worker_token_handlers::deactivate")]);
  ("/worker-tokens/{id}", [(DELETE, "worker_token_handlers::delete_one")]);
  ("/label-groups", [(GET, "label_group_handlers::list"); (POST, "label_group_handlers::create")]);
  ("/label-groups/{id}", [(GET, "label_group_handlers::get_one"); (PUT, "label_group_handlers::update"); (DELETE, "label_group_handlers::delete_one")]);
  ("/dashboard/summary", [(GET, "dashboard_handlers::summary")]);
  ("/analytics", [(GET, "analytics_handlers::get_analytics")]);
  ("/repos/{id}/variables", [(GET, "variable_handlers::list"); (POST, "variable_handlers::create")]);
  ("/repos/{repo_id}/variables/{var_id}", [(PUT, "variable_handlers::update"); (DELETE, "variable_handlers::delete_one")]);
  ("/repos/{id}/schedules", [(GET, "schedule_handlers::list"); (POST, "schedule_handlers::create")]);
  ("/repos/{repo_id}/schedules/{schedule_id}", [(PUT, "schedule_handlers::update"); (DELETE, "schedule_handlers::delete_one")]);
  ("/repos/{id}/notifications", [(GET, "notification_handlers::list"); (POST, "notification_handlers::create")]);
  ("/repos/{repo_id}/notifications/{nid}", [(PUT, "notification_handlers::update"); (DELETE, "notification_handlers::delete")]);
  ("/settings", [(GET, "settings_handlers::get_settings"); (PUT, "settings_handlers::update_setting")]);
  ("/settings/{key}", [(DELETE, "settings_handlers::delete_setting")]);
  ("/audit-log", [(GET, "audit::list_audit_logs")]);
  ("/blacklist/commands", [(GET, "blacklist_handlers::list_command_blacklist"); (POST, "blacklist_handlers::create_command_blacklist")]);
  ("/blacklist/commands/{id}", [(PUT, "blacklist_handlers::update_command_blacklist"); (DELETE, "blacklist_handlers::delete_command_blacklist")]);
  ("/blacklist/branches", [(GET, "blacklist_handlers::list_branch_blacklist"); (POST, "blacklist_handlers::create_branch_blacklist")]);
  ("/blacklist/branches/{id}", [(PUT, "blacklist_handlers::update_branch_blacklist"); (DELETE, "blacklist_handlers::delete_branch_blacklist")]);
  ("/artifacts/{group_id}/{stage_name}", [(POST, "artifact_handlers::upload_artifact")]);
  ("/artifacts/{group_id}", [(GET, "artifact_handlers::list_artifacts")]);
  ("/artifacts/download/{artifact_id}", [(GET, "artifact_handlers::download_artifact")]);
  ("/auth/api-keys", [(GET, "api_key_handlers::list"); (POST, "api_key_handlers::create")]);
  ("/auth/api-keys/{id}", [(DELETE, "api_key_handlers::revoke")])].

Definition public_api_router : list (string * Handlers) := [("/repos/{name}/badge.svg", [(GET, "badge_handlers::repo_badge")])].

(** The Swagger UI, if the feature is on (it is by default): its routes when it is
    mounted at [path] and given a document to publish at [url]. It answers GET
    only, at the [url], at the [path] and below it. *)
Class SwaggerUi := {
  feature_swagger_ui : bool;
  ui_routes : string -> string -> list (string * Handlers);
  ui_routes_get : forall path url r, r ∈ ui_routes path url -> r.2 = [(GET, "SwaggerUi"%string)];
  ui_routes_at : forall path url r, r ∈ ui_routes path url ->
    r.1 = url \/ r.1 = path \/ exists tail, r.1 = (path +:+ "/" +:+ tail)%string
}.

Definition base_app : list (string * Handlers) :=
  [("/health/live", [(GET, "health_live")]); ("/health/ready", [(GET, "health_ready")]); ("/metrics", [(GET, "metrics_handler")])]
  ++ (prod_map (String.append "/api/v1") id <$> public_api_router)
  ++ (prod_map (String.append "/api/v1") id <$> api_router).

Definition build_app `{SwaggerUi} : list (string * Handlers) :=
  base_app ++ (if feature_swagger_ui then ui_routes "/swagger-ui" "/api-docs/openapi.json" else []).

(** The handlers that do not take an [AuthUser]. *)
Definition open_handlers : list string := [
  "auth_handlers::login"; "webhook_handlers::receive"; "worker_handlers::update_metadata"; "badge_handlers::repo_badge";
  "health_live"; "health_ready"; "metrics_handler"; "SwaggerUi"].

#[export] Instance Method_eq_dec : EqDecision Method.
Proof. solve_decision. Defined.

(** A GET handler also answers HEAD. *)
Definition handler_for (m : Method) (hs : Handlers) : option string :=
  snd <$> head (filter (fun mh => mh.1 = m \/ (m = HEAD /\ mh.1 = GET)) hs).

(** ** A request *)

Section Serve.
Context {Ip : Type} `{Countable Ip} {Mt : Matcher} {Sw : SwaggerUi}.

Record Request := {
  rq_method : Method;
  rq_path : string;
  rq_headers : Headers;
  rq_connect_info : option Ip;
  rq_x_forwarded_for : option string;
  rq_x_api_key : option string;
  rq_authorization : option string;
  rq_query : option string
}.

Record Limiters := {
  login_limiter : RateLimiter (Ip := Ip);
  webhook_limiter : RateLimiter (Ip := Ip)
}.

(** Times are nanoseconds. *)
Definition MINUTE : Z := 60 * 10 ^ 9.

Definition Limiters_new : Limiters :=
  {| login_limiter := RateLimiter_new 5 MINUTE; webhook_limiter := RateLimiter_new 60 MINUTE |}.

Inductive Answer :=
| Fallback (path : string)
| AnsweredByCors
| CrossOriginBlocked
| MethodNotAllowed
| TooManyRequests
| Refused (e : AuthError)
| Reached (handler : string) (user : option AuthUser).

Context (allowed_origins : list string) (cors_answers : Request -> bool) (parse_ip : string -> option Ip) (unspecified : Ip).

Definition ip_of (req : Request) : Ip := extract_ip parse_ip unspecified (rq_connect_info req) (rq_x_forwarded_for req).

Definition throttle (now : Z) (req : Request) (handler : string) (l : Limiters) : bool * Limiters :=
  if bool_decide (handler = "auth_handlers::login") then
    let '(ok, l') := check now (ip_of req) (login_limiter l) in (ok, {| l with login_limiter := l' |})
  else if bool_decide (handler = "webhook_handlers::receive") then
    let '(ok, l') := check now (ip_of req) (webhook_limiter l) in (ok, {| l with webhook_limiter := l' |})
  else (true, l).

Definition matched_route (path : string) : option (string * Handlers) :=
  at_route (pattern ∘ fst <$> build_app) (segments path) ≫= fun i => build_app !! i.

(** What the layers make of a request before it is up to a handler. *)
Definition through_layers (req : Request) : Answer + string :=
  match matched_route (rq_path req) with
  | None => inl (Fallback (rq_path req))
  | Some (_, hs) =>
      if cors_answers req then inl AnsweredByCors
      else if negb (csrf_middleware allowed_origins (rq_method req) (rq_path req) (rq_headers req)) then inl CrossOriginBlocked
      else match handler_for (rq_method req) hs with None => inl MethodNotAllowed | Some h => inr h end
  end.

Context (sha256_hex : string -> string) (decode_token : string -> string -> result Claims string) (parse_uuid : string -> option Uuid).
Context (auth_on : bool) (jwt_secret : string) (storage : option AuthStorage).

Definition identify (now : timestamp) (req : Request) : result AuthUser AuthError :=
  authenticate sha256_hex decode_token parse_uuid now auth_on jwt_secret storage (rq_x_api_key req) (rq_authorization req) (rq_query req).

(** [clock] is the monotonic reading, [now] the time of day. *)
Definition handle (clock : Z) (now : timestamp) (req : Request) (l : Limiters) : Answer * Limiters :=
  match through_layers req with
  | inl a => (a, l)
  | inr h =>
      let '(ok, l') := throttle clock req h l in
      if negb ok then (TooManyRequests, l')
      else if bool_decide (h ∈ open_handlers) then (Reached h None, l')
      else match identify now req with Ok u => (Reached h (Some u), l') | Err e => (Refused e, l') end
  end.

(** Requests one after the other. *)
Fixpoint handle_all (reqs : list (Z * timestamp * Request)) (l : Limiters) : list Answer :=
  match reqs with
  | [] => []
  | (clock, now, req) :: reqs' => let '(a, l') := handle clock now req l in a :: handle_all reqs' l'
  end.
End Serve.
Arguments Request : clear implicits.
Arguments Limiters Ip {_ _}.

(** ** Errors as JSON *)

Inductive Body := TextBody (s : string) | JsonBody (j : Json).

Record Response := {
  rp_status : Z;
  rp_content_type : option string;
  rp_body : Body
}.

Definition str_contains (pat s : string) : bool := bool_decide (is_Some (find_str pat s)).

(** [limited] is the text of a body of at most 4096 bytes, and nothing of a longer
    one. *)
Definition json_error_wrapper (lossy : string -> string) (text_of : Body -> string) (resp : Response) : Response :=
  if (400 <=? rp_status resp) && (rp_status resp <? 600) then
    let content_type := default EmptyString (rp_content_type resp) in
    if negb (str_contains "application/json" content_type) && negb (str_contains "image/svg" content_type) then
      let text := text_of (rp_body resp) in
      let limited := if Z.of_nat (String.length text) <=? 4096 then text else EmptyString in
      {| rp_status := rp_status resp; rp_content_type := Some "application/json";
         rp_body := JsonBody (Obj [("error", Str (trim (lossy limited)))]) |}
    else resp
  else resp.

Definition fallback_handler (path : string) : Response := {|
  rp_status := 404; rp_content_type := Some "application/json";
  rp_body := JsonBody (Obj [("error", Str ("Route not found: " +:+ path)%string)]) |}.

Definition health_live : Json := Obj [("status", Str "ok")].
Definition health_ready : Json := Obj [("status", Str "ok"); ("message", Str "controller ready")].

(** [run]: the certificate and key to serve with, if any. *)
Definition serve_tls (tls : TlsServerConfig) : result (string * string) string :=
  match server_cert tls, server_key tls with
  | Some cert, Some key => Ok (cert, key)
  | None, _ => Err "http_tls.server_cert required when TLS is enabled"
  | Some _, None => Err "http_tls.server_key required when TLS is enabled"
  end.

Definition run (tls_config : option TlsServerConfig) : result (option (string * string)) string :=
  match tls_config with
  | Some tls => if tls_enabled tls then let? ck := serve_tls tls in Ok (Some ck) else Ok None
  | None => Ok None
  end.

(** ** Who is let in *)

Definition takes_user (h : string) : Prop := h ∉ open_handlers.

(** The route of every mutating handler but one starts differently from the
    webhooks. *)
Definition outside_webhooks (r : string * Handlers) : bool :=
  forallb (fun mh => bool_decide (mh.2 = "webhook_handlers::receive")) r.2 ||
  match pattern r.1 with
  | Static a :: Static b :: Static c :: Static d :: _ =>
      negb (bool_decide (a = EmptyString) && bool_decide (b = "api") && bool_decide (c = "v1") && starts_with "webhooks" d)
  | [Static a; Static b; Static c] => true
  | [Static a; Static b] => true
  | _ => false
  end.

Lemma webhooks_apart : Forall (fun r => outside_webhooks r = true) base_app.
Proof. apply Forall_forall. intros r Hr%list_elem_of_In. revert r Hr. apply forallb_forall. vm_compute. reflexivity. Qed.

Lemma segments_some s : segments s <> [].
Proof. induction s as [|c s IH]; simpl; [done|]. destruct (Ascii.eqb c "/"); [done|]. by destruct (segments s). Qed.

Lemma segments_webhooks path : starts_with "/api/v1/webhooks" path = true ->
  exists d rest, segments path = EmptyString :: "api"%string :: "v1"%string :: d :: rest /\ starts_with "webhooks" d = true.
Proof.
  intros [tail ->]%starts_with_spec. pose proof (segments_some tail) as Ht. destruct (segments tail) as [|x xs] eqn:E; [done|].
  exists ("webhooks" +:+ x)%string, xs. split; [|apply starts_with_app]. simpl. change (EmptyString +:+ tail)%string with tail. by rewrite E.
Qed.

(** The Swagger UI is somewhere else. *)
Lemma ui_elsewhere `{SwaggerUi} r rest :
  r ∈ ui_routes "/swagger-ui" "/api-docs/openapi.json" -> fits (pattern r.1) (EmptyString :: "api"%string :: rest) = false.
Proof. intros [->|[->|[tail ->]]]%ui_routes_at; done. Qed.

Section RouterFacts.
Context {Ip : Type} `{Countable Ip} {Mt : Matcher} {Sw : SwaggerUi}.
Context (allowed_origins : list string) (cors_answers : Request Ip -> bool) (parse_ip : string -> option Ip) (unspecified : Ip)
  (sha256_hex : string -> string) (decode_token : string -> string -> result Claims string) (parse_uuid : string -> option Uuid)
  (auth_on : bool) (jwt_secret : string) (storage : option AuthStorage).

Lemma matched_fits path r : matched_route path = Some r -> r ∈ build_app /\ fits (pattern r.1) (segments path) = true.
Proof.
  unfold matched_route. destruct (at_route _ _) as [i|] eqn:Hi; [|done]. simpl. intros Hr.
  destruct (at_route_fits _ _ _ Hi) as (p & Hp & Hf). rewrite list_lookup_fmap, Hr in Hp. simplify_eq/=.
  split; [|done]. by apply list_elem_of_lookup_2 in Hr.
Qed.

Lemma handler_for_in m hs h : handler_for m hs = Some h -> exists m', (m', h) ∈ hs /\ (m' = m \/ (m = HEAD /\ m' = GET)).
Proof.
  unfold handler_for. destruct (filter _ hs) as [|[m' h'] l] eqn:E; [done|]. intros [= <-].
  assert (Hin : (m', h') ∈ filter (fun mh => mh.1 = m \/ (m = HEAD /\ mh.1 = GET)) hs) by (rewrite E; apply list_elem_of_here).
  apply list_elem_of_filter in Hin as [Hm Hin]. by exists m'.
Qed.

(** The webhooks' prefix, which the origin check lets through, leads to their
    handler only. *)
Lemma exempt_reaches_receive path r m h :
  starts_with "/api/v1/webhooks" path = true -> matched_route path = Some r -> handler_for m r.2 = Some h -> h = "webhook_handlers::receive".
Proof.
  intros (d & rest & Hs & Hd)%segments_webhooks [Hr Hf]%matched_fits (m' & Hh & _)%handler_for_in.
  apply elem_of_app in Hr as [Hr|Hr].
  2: { destruct feature_swagger_ui; [|by apply elem_of_nil in Hr]. rewrite Hs, ui_elsewhere in Hf by done. done. }
  pose proof (proj1 (Forall_forall _ _) webhooks_apart r Hr) as Ho. unfold outside_webhooks in Ho.
  apply orb_true_iff in Ho as [Ho|Ho].
  { rewrite forallb_forall in Ho. specialize (Ho (m', h) (proj1 (list_elem_of_In _ _) Hh)). by apply bool_decide_eq_true in Ho. }
  exfalso. rewrite Hs in Hf. destruct (pattern r.1) as [|[a|?|?] [|[b|?|?] [|[c|?|?] [|[e|?|?] ps]]]]; try done; simpl in Hf;
    rewrite ?andb_true_iff, ?bool_decide_eq_true in Hf; destruct_and?; simplify_eq; try done.
  by rewrite Hd in Ho.
Qed.

(** C22. Who reaches what: a request that reaches a handler came in by a route of
    the application (the table of the API, the health checks, the metrics, and
    with the feature swagger-ui the Swagger UI), with the method the handler is
    there for. If the handler takes a user, the credentials of the request are
    that user's; the ones that take none are the eight of [open_handlers], the
    Swagger UI among them. And a request whose method is POST, PUT or DELETE,
    unless it is a webhook, comes without an [Origin], or with one that is
    allowed. *)
Theorem reached_as_admitted (clock : Z) (now : timestamp) (req : Request Ip) (l l' : Limiters Ip) (h : string) (u : option AuthUser) :
  handle allowed_origins cors_answers parse_ip unspecified sha256_hex decode_token parse_uuid auth_on jwt_secret storage clock now req l
    = (Reached h u, l') ->
  (exists path hs m, (path, hs) ∈ build_app /\ fits (pattern path) (segments (rq_path req)) = true /\ (m, h) ∈ hs /\
     (m = rq_method req \/ (rq_method req = HEAD /\ m = GET))) /\
  (takes_user h -> exists a, u = Some a /\ identify sha256_hex decode_token parse_uuid auth_on jwt_secret storage now req = Ok a) /\
  (is_mutating (rq_method req) = true -> h <> "webhook_handlers::receive"%string ->
     let origin := default EmptyString (header_str (h_origin (rq_headers req))) in
     origin = EmptyString \/ origin_allowed origin (rq_headers req) allowed_origins = true).
Proof.
  unfold handle, through_layers. destruct (matched_route (rq_path req)) as [[path hs]|] eqn:Hm; [|done]. pose proof (matched_fits _ _ Hm) as [Hr Hf].
  destruct (cors_answers req); [done|]. destruct (csrf_middleware _ _ _ _) eqn:Hc; [|done]. simpl.
  destruct (handler_for (rq_method req) hs) as [h0|] eqn:Hh; [|done]. pose proof (handler_for_in _ _ _ Hh) as (m & Hin & Hmm).
  destruct (throttle _ _ _ _ _ _) as [ok l1]. destruct ok; [|done]. simpl. intros Hreach.
  assert (E : h0 = h /\ (takes_user h -> exists a, u = Some a /\
     identify sha256_hex decode_token parse_uuid auth_on jwt_secret storage now req = Ok a)).
  { case_bool_decide as Ho; [simplify_eq; by split|]. destruct (identify _ _ _ _ _ _ _ _) as [a|e]; [|done]. simplify_eq. split; [done|]. by exists a. }
  destruct E as [-> E]. split_and!; [by exists path, hs, m|exact E|]. intros Hmut Hne. unfold csrf_middleware in Hc. rewrite Hmut in Hc.
  destruct (starts_with "/api/v1/webhooks" (rq_path req)) eqn:Hp; [by destruct Hne; eapply exempt_reaches_receive|]. simpl in Hc.
  apply orb_true_iff in Hc as [Hc%bool_decide_eq_true|Hc]; [by left|by right].
Qed.
(** ** How often a password can be tried *)

Abbreviation LOGIN := "auth_handlers::login"%string (only parsing).

(** The requests that get as far as the limiter of logins. *)
Definition login_requests (reqs : list (Z * timestamp * Request Ip)) : list (Z * Ip) :=
  omap (fun '(clock, _, req) =>
    match through_layers allowed_origins cors_answers req with
    | inr h => if bool_decide (h = LOGIN) then Some (clock, ip_of parse_ip unspecified req) else None
    | inl _ => None
    end) reqs.

(** When a request of the address reached the handler. *)
Fixpoint login_times (ip : Ip) (reqs : list (Z * timestamp * Request Ip)) (answers : list Answer) : list Z :=
  match reqs, answers with
  | (clock, _, req) :: reqs', a :: answers' =>
      (match a with
       | Reached h _ => if bool_decide (h = LOGIN /\ ip_of parse_ip unspecified req = ip) then [clock] else []
       | _ => []
       end) ++ login_times ip reqs' answers'
  | _, _ => []
  end.

Abbreviation answers_to :=
  (handle_all allowed_origins cors_answers parse_ip unspecified sha256_hex decode_token parse_uuid auth_on jwt_secret storage).

Lemma throttle_other clock req h (l : Limiters Ip) : h <> LOGIN ->
  exists ok l', throttle parse_ip unspecified clock req h l = (ok, l') /\ login_limiter l' = login_limiter l.
Proof.
  intros Hne. unfold throttle. rewrite bool_decide_false by done. case_bool_decide; [|by eexists _, _].
  destruct (check clock _ (webhook_limiter l)) as [ok l']. by eexists _, _.
Qed.

Lemma throttle_login clock req (l : Limiters Ip) :
  let '(ok, l') := check clock (ip_of parse_ip unspecified req) (login_limiter l) in
  throttle parse_ip unspecified clock req LOGIN l = (ok, {| login_limiter := l'; webhook_limiter := webhook_limiter l |}).
Proof. unfold throttle. rewrite bool_decide_true by done. by destruct (check _ _ _). Qed.

Lemma login_times_served ip reqs (l : Limiters Ip) :
  login_times ip reqs (answers_to reqs l) = let_through (serve ip (login_requests reqs) (login_limiter l)).
Proof.
  revert l. induction reqs as [|[[clock now] req] reqs IH]; intros l; [done|]. simpl. unfold login_requests in *. simpl. unfold handle.
  destruct (through_layers allowed_origins cors_answers req) as [a|h] eqn:Ha.
  { simpl. rewrite IH. destruct a; try done. exfalso. revert Ha. unfold through_layers. destruct (matched_route _) as [[? ?]|]; [|done].
    destruct (cors_answers req); [done|]. destruct (negb _); [done|]. by destruct (handler_for _ _). }
  destruct (decide (h = LOGIN)) as [->|Hne].
  - pose proof (throttle_login clock req l) as Ht. destruct (check clock _ (login_limiter l)) as [ok l'] eqn:Hc. rewrite Ht.
    rewrite (bool_decide_true (LOGIN = LOGIN)) by done. simpl. rewrite Hc. destruct ok; simpl; rewrite IH; simpl.
    + destruct (decide (ip_of parse_ip unspecified req = ip)) as [Hi|Hi].
      * by rewrite !bool_decide_true by done.
      * rewrite (bool_decide_false (ip_of _ _ _ = ip)) by done. by rewrite bool_decide_false by (by intros [_ ?]).
    + by case_bool_decide.
  - rewrite (bool_decide_false (h = LOGIN)) by done. destruct (throttle_other clock req h l Hne) as (ok & l' & -> & Hl). rewrite <- Hl, <- IH.
    destruct ok; simpl; [|done]. destruct (bool_decide (h ∈ open_handlers)); [|destruct (identify _ _ _ _ _ _ _ _); [|done]];
      by rewrite (bool_decide_false (h = LOGIN /\ _)) by (by intros [? _]).
Qed.

Lemma login_requests_in_order last reqs :
  in_order last ((fun r : Z * timestamp * Request Ip => (r.1.1, ip_of parse_ip unspecified r.2)) <$> reqs) -> in_order last (login_requests reqs).
Proof.
  assert (W : forall a b (rs : list (Z * Ip)), a <= b -> in_order b rs -> in_order a rs).
  { intros a b [|[t x] rs]; [done|]. simpl. intros ? [? ?]. split; [lia|done]. }
  unfold login_requests. revert last. induction reqs as [|[[clock now] req] reqs IH]; intros last; [done|]. simpl. intros [Hl Ho%IH].
  destruct (through_layers _ _ _) as [a|h]; [by apply (W _ clock)|]. case_bool_decide; [by split|by apply (W _ clock)].
Qed.

(** However many requests an address sends, and whatever others send, in any
    minute at most ten of them can try a password; and what it gets does not
    depend on the others. *)
Theorem logins_throttled (ip : Ip) (reqs : list (Z * timestamp * Request Ip)) (start t : Z) :
  in_order start ((fun r : Z * timestamp * Request Ip => (r.1.1, ip_of parse_ip unspecified r.2)) <$> reqs) ->
  count_of (in_span t (t + MINUTE)) (login_times ip reqs (answers_to reqs Limiters_new)) <= 10.
Proof.
  intros Ho%login_requests_in_order. rewrite login_times_served. simpl.
  destruct (rate_limit_window 5 MINUTE ip (login_requests reqs) start) as (Hw & _ & _); [done|lia|done|]. apply (Hw t).
Qed.
End RouterFacts.

(** ** Errors *)

(** Whatever a handler or an extractor of the API answers, an error is JSON, or a
    picture. *)
Lemma errors_are_json lossy text_of resp :
  let resp' := json_error_wrapper lossy text_of resp in
  rp_status resp' = rp_status resp /\
  (400 <= rp_status resp < 600 -> exists ct, rp_content_type resp' = Some ct /\
     (str_contains "application/json" ct = true \/ str_contains "image/svg" ct = true)).
Proof.
  intros resp'. unfold resp', json_error_wrapper. destruct (Z.leb_spec 400 (rp_status resp)); simpl; [|split; [done|lia]].
  destruct (Z.ltb_spec (rp_status resp) 600); simpl; [|split; [done|lia]].
  destruct (rp_content_type resp) as [ct|] eqn:Hct; simpl.
  - destruct (str_contains "application/json" ct) eqn:Ej; simpl; [split; [done|intros _; exists ct; rewrite Hct; auto]|].
    destruct (str_contains "image/svg" ct) eqn:Es; simpl; [split; [done|intros _; exists ct; rewrite Hct; auto]|].
    split; [done|]. intros _. eexists. split; [done|]. left. by vm_compute.
  - split; [done|]. intros _. eexists. split; [done|]. left. by vm_compute.
Qed.

(** ** Examples *)

Fixpoint index_of (p : list Seg -> bool) (n : nat) (ps : list (list Seg)) : option nat :=
  match ps with [] => None | x :: ps' => if p x then Some n else index_of p (S n) ps' end.

#[export] Instance Seg_eq_dec : EqDecision Seg.
Proof. solve_decision. Defined.

Lemma index_of_some p n ps i : index_of p n ps = Some i -> exists k x, i = (n + k)%nat /\ ps !! k = Some x /\ p x = true.
Proof.
  revert n. induction ps as [|x ps IH]; intros n; simpl; [done|]. destruct (p x) eqn:E.
  - intros [= <-]. exists 0%nat, x. split_and!; [lia|done|done].
  - intros (k & y & -> & Hy & Hp)%IH. exists (S k), y. split_and!; [lia|done|done].
Qed.

Lemma index_of_found p n ps x : x ∈ ps -> p x = true -> is_Some (index_of p n ps).
Proof.
  revert n. induction ps as [|y ps IH]; intros n; [by intros ?%elem_of_nil|]. simpl. intros [->|Hx]%elem_of_cons Hp; [rewrite Hp; by eexists|].
  destruct (p y); [by eexists|by apply IH].
Qed.

(** The route that is the path, else the first that fits. *)
Definition first_route : Matcher.
Proof.
  refine {| at_route := fun ps s =>
    match index_of (fun p => bool_decide (p = Static <$> s)) 0 ps with Some i => Some i | None => index_of (fun p => fits p s) 0 ps end |}.
  - intros ps s i. destruct (index_of _ 0 ps) as [j|] eqn:E.
    + intros [= <-]. apply index_of_some in E as (k & x & -> & Hx & ->%bool_decide_eq_true). exists (Static <$> s). split; [done|].
      clear Hx. induction s as [|a s IH]; [done|]. simpl. by rewrite bool_decide_true.
    + intros (k & x & -> & Hx & Hf)%index_of_some. by exists x.
  - intros ps s p Hp Hf. destruct (index_of (fun q => bool_decide _) 0 ps); [by eexists|]. by eapply index_of_found.
  - intros ps s i Hin. destruct (index_of (fun q => bool_decide _) 0 ps) as [j|] eqn:E.
    + intros [= <-]. by apply index_of_some in E as (k & x & -> & Hx & ->%bool_decide_eq_true).
    + destruct (index_of_found (fun q => bool_decide (q = Static <$> s)) 0 ps _ Hin) as [j Hj]; [by apply bool_decide_true|congruence].
Defined.

(** The routes as the crate sets them up for axum. *)
#[export] Program Instance axum_swagger_ui : SwaggerUi := {
  feature_swagger_ui := true;
  ui_routes path url := (fun p => (p, [(GET, "SwaggerUi"%string)])) <$> [url; path; (path +:+ "/")%string; (path +:+ "/{*rest}")%string]
}.
Next Obligation. by intros path url r (p & -> & _)%list_elem_of_fmap. Qed.
Next Obligation.
  intros path url r (p & -> & Hp)%list_elem_of_fmap. simpl.
  repeat apply elem_of_cons in Hp as [->|Hp]; [by left|by right; left|right; right; by exists EmptyString|right; right; by exists "{*rest}"%string|].
  by apply elem_of_nil in Hp.
Qed.

Definition plain_request (m : Method) (path : string) (origin token : option string) : Request N := {|
  rq_method := m; rq_path := path;
  rq_headers := {| h_origin := Some <$> origin; h_host := Some (Some "ci.example"%string); h_forwarded_host := None |};
  rq_connect_info := Some 1%N; rq_x_forwarded_for := None; rq_x_api_key := None; rq_authorization := token; rq_query := None |}.

(** Tokens are user names; the session is always good. *)
Definition token_claims (_ token : string) : result Claims string :=
  Ok {| cl_sub := "7"; cl_username := token; cl_role := "viewer"; cl_jti := "s"; cl_exp := 0; cl_iat := 0 |}.

Definition respond_with (req : Request N) : Answer * Limiters N :=
  handle (Mt := first_route) [] (fun _ => false) (fun _ => None) 0%N (fun s => s) token_claims (fun _ => Some 7%N) true "key" None 0 0 req Limiters_new.

Definition respond (req : Request N) : Answer := (respond_with req).1.

Definition alice : AuthUser := {| au_user_id := 7%N; au_username := "alice"; au_role := Viewer |}.

(** From the dashboard, with a token. *)
Lemma reached_as_admitted_witness :
  let req := plain_request POST "/api/v1/jobs/j-1/cancel" (Some "https://ci.example"%string) (Some "Bearer alice"%string) in
  respond req = Reached "job_handlers::cancel" (Some alice) /\
  (exists path hs m, (path, hs) ∈ build_app /\ fits (pattern path) (segments "/api/v1/jobs/j-1/cancel") = true /\
     (m, "job_handlers::cancel"%string) ∈ hs /\ (m = POST \/ (POST = HEAD /\ m = GET))) /\
  origin_allowed "https://ci.example" (rq_headers req) [] = true.
Proof.
  intros req. destruct (respond_with req) as [a l'] eqn:E. assert (Ea : a = Reached "job_handlers::cancel" (Some alice)).
  { change a with (a, l').1. rewrite <- E. vm_compute. reflexivity. }
  split; [unfold respond; rewrite E; exact Ea|]. rewrite Ea in E.
  destruct (reached_as_admitted (Mt := first_route) _ _ _ _ _ _ _ _ _ _ _ _ _ _ _ _ _ E) as (Hr & _ & Ho).
  split; [exact Hr|]. destruct (Ho eq_refl) as [Hn|Ha]; [intros Hn|by vm_compute in Hn|exact Ha].
  apply (f_equal String.length) in Hn. by vm_compute in Hn.
Defined.

(** Anybody may overwrite what is known of a worker's machine. *)
Example metadata_open :
  respond (plain_request PUT "/api/v1/workers/w-1/metadata" None None) = Reached "worker_handlers::update_metadata" None /\
  respond (plain_request PUT "/api/v1/workers/w-1/labels" None None) = Refused (UNAUTHORIZED "Missing Authorization header").
Proof. split; by vm_compute. Qed.

(** What the origin check lets through as not mutating has no handler. *)
Lemma patch_unrouted `{SwaggerUi} r : r ∈ build_app -> handler_for PATCH r.2 = None.
Proof.
  intros [Hr|Hr]%elem_of_app.
  - apply (bool_decide_unpack _), Is_true_true. revert r Hr.
    assert (Ha : forallb (fun r => bool_decide (handler_for PATCH r.2 = None)) base_app = true) by (by vm_compute).
    intros r Hr%list_elem_of_In. by apply (proj1 (forallb_forall _ _) Ha).
  - destruct feature_swagger_ui; [|by apply elem_of_nil in Hr]. by rewrite (ui_routes_get _ _ _ Hr).
Qed.

(** The documentation of the API is for everybody. *)
Example docs_open :
  respond (plain_request GET "/swagger-ui/index.html" None None) = Reached "SwaggerUi" None /\
  respond (plain_request GET "/api-docs/openapi.json" None None) = Reached "SwaggerUi" None /\
  respond (plain_request POST "/swagger-ui/" None None) = MethodNotAllowed.
Proof. split_and!; by vm_compute. Qed.

(** A worker named register cannot be looked at. *)
Example worker_named_register :
  respond (plain_request GET "/api/v1/workers/register" None (Some "Bearer alice"%string)) = MethodNotAllowed /\
  respond (plain_request GET "/api/v1/workers/w-1" None (Some "Bearer alice"%string)) = Reached "worker_handlers::get_one" (Some alice).
Proof. split; by vm_compute. Qed.
